(* ===== verification/_CoqProject ===== *)
-Q . S2P
Prelude.v
PyStr.v
PyNum.v
PyVal.v
Json.v
JsonFacts.v
Encoding.v
Sha256.v
TreeHash.v
Knobs.v
OnboxConfig.v
OnboxConfigFacts.v
StoreLock.v
ImagePin.v
ConvergeManifest.v
BootstrapDrift.v
Effects.v
DispatchPath.v
DispatchPathFacts.v
DispatchPathSwitch.v
LayerTree.v
LayerTreeFacts.v
ReleaseRef.v
UrlLib.v
IpAddress.v
TailnetFirewall.v
TailnetFirewallFacts.v
TailnetReachability.v
TailnetReachabilityFacts.v
FetchRelease.v
FetchReleaseFacts.v
SwarmService.v
SwarmServiceFacts.v
SwarmNaming.v
SettingsFilters.v
AdminService.v
AdminServiceFacts.v
Tier1Stack.v
Tier1StackFacts.v
Host.v
ResticKey.v
ResticKeyFacts.v
ResticKeyOutcomes.v
TailnetCheck.v
TailnetCheckFacts.v
KeycloakFlows.v
KeycloakFlowsFacts.v
RenderKnobs.v
RenderKnobsFacts.v
EnvFile.v
EnvFileFacts.v
EnvLookup.v
ServedZones.v
TemplateFacts.v
Seed.v
SeedFacts.v
SessionProof.v
SessionProofFacts.v
PublicHttps.v
PublicHttpsFacts.v
Remote.v
Checks.v
Install.v
RemoteFacts.v
InstallFacts.v
I18n.v
InstallSteps.v
InstallStepsFacts.v
InstallRun.v
InstallRunFacts.v
InstallPage.v
InstallPageFacts.v
InstallHtml.v
InstallHtmlFacts.v
InstallConsole.v
InstallConsoleFacts.v
