(* ===== verification/Prelude.v ===== *)
(** * Catena-CE, verified

    Community Catena installs and keeps one server: an installer seeds an
    inventory, Ansible converges the host, and scripts staged on the host
    answer the panel.  This library models the Python that decides something
    on that way and proves what it promises.

    ** The parts, and the files that hold them

    Foundations.
    - [Prelude]: results ([res], the exceptions), folds, orders.
    - [PyStr], [PyNum], [PyVal]: Python's strings, numbers, parsed values and
      insertion-ordered dictionaries.
    - [Json], [JsonFacts]: [json.loads] and [json.dumps], with the reading of a
      written document.  [Encoding], [Sha256]: base64, UTF-8, hex, SHA-256.
    - [UrlLib], [IpAddress]: [urllib.parse] and [ipaddress] as the code uses
      them.
    - [Effects]: computations over a state that return or stop with a fault;
      relations every run of one keeps.  [Host]: a process's files and the
      commands it runs.

    The on-box store ([ansible/helpers/onbox_config.py]).
    - [Knobs]: the registry [knobs.yml] as data; [RenderKnobs]
      ([render_knobs.py]): its validation, the order of its keys and the text
      of an inventory's [.env].
    - [OnboxConfig]: [load], [dump], the minters, [adopt],
      [ensure_internal_secrets], [ensure_user_held_secrets],
      [settle_tailnet_provider], [apply_inputs], the settings API, [converge]
      and [main].  [StoreLock]: [store_lock] as a step relation on interleaved
      writers.
    - [ResticKey] ([scripts/catena-restic-key.py]): the backup password's
      [cmd_generate], [cmd_init], [cmd_validate], [cmd_rotate] and [main].

    What a converge decides ([ansible/playbooks/filter_plugins]).
    - [ImagePin] ([image_pin.py]), [ConvergeManifest]
      ([converge_manifest.py] and [prune_withdrawn_files.yml], which composes
      its filters), [BootstrapDrift] ([bootstrap_drift.py]), [SwarmService]
      ([swarm_service_drift.py]), [AdminService]
      ([catena_admin_service.py]), [Tier1Stack] ([tier1_stack.py]),
      [KeycloakFlows] ([keycloak_signin_flows.py]), [SwarmNaming]
      ([swarm_naming.py]), [SettingsFilters] ([keycloak_signin_name.py],
      [keycloak_mail_settings.py], [smtp_resolve.py],
      [restic_repo_endpoint.py], [keyscan_alias.py]), [ServedZones]
      ([catena_served_zones.py], with the dates [fromisoformat] reads).
    - [EnvLookup] ([lookup_plugins/dotenv.py], [dotenv_value.py]): an
      inventory's [.env] as the playbooks read it.
    - [TreeHash] ([tree_hash.py]): the name of a staged tree.

    What reaches outside.
    - [ReleaseRef] and [FetchRelease] ([catena_admin_release.py],
      [fetch_release.py]): references, the choice of a release, requests,
      redirects, retries, manifests and blobs.  [LayerTree]: the unpacking of
      layers.
    - [TailnetFirewall] and [TailnetReachability]
      ([tailnet_reachability.py]): iptables rulesets walked for an SSH packet;
      the control server, peers, policy and the attempts.  [TailnetCheck]
      ([scripts/catena-tailnet-check.py]): the credentials of a save.
    - [DispatchPath] ([dispatch_path.py]): the switch of the panel's command
      path from one generation to the next.

    The inventory ([ansible/seed.py]).
    - [EnvFile]: the [.env] as [parse_env_pairs] reads it and [emit_env]
      writes it.  [Seed]: placeholders, prompts, the checks of an install
      file, [prepare] (all of [main] before a file is written) and [carry_out].

    The installer ([installer/catena_installer]).
    - [Remote] ([remote.py]): [known_hosts], [transport] and [vet_key], a login
      with the key or the provider's password, commands and their lines, the
      files of a leg.  [Checks] ([checks.py]): the ports and the containers
      only another machine can try.  [Install] ([install.py]): the inventory's
      server, both logins, the legs and [install]; [feed_step] is
      [Output.feed].  [InstallRun] ([run.py]): the answers on disk and the
      state of an install.
    - [I18n] ([i18n.py]): the texts and which language a browser is shown.
      [InstallSteps] ([steps.py], [registry.py]): the registry as the page's
      sections, and the check of a server before an install ([check_target]).
    - [InstallPage] ([server.py], [keys.py]): the runs of the process, every request
      ([do_GET], [do_POST]), the install's thread with its log and passwords,
      the panel forward.  [InstallHtml]: the HTML of each page, [_h] to
      [_render_install]; [sent] is what a response is sent as.
    - [InstallConsole] ([__main__.py], [tree.py]): the commands at a terminal.
    - [SessionProof] ([helpers/session_proof.py]), on the server: the proof the
      second leg waits for, from sshd's journal.  [PublicHttps]
      ([helpers/public_https.py]): an address as the internet resolves it.

    Interaction.  [RenderKnobs] renders the registry [OnboxConfig] seeds its
    store from; [EnvFile] writes its text, and [Seed] asks for its keys.
    [Install] reads it, [InstallRun] saves through [Seed]'s writer, and
    [EnvLookup] reads it again on the way to a playbook.  [InstallConsole] runs
    [Seed.main] and then [Install]'s [install]; [InstallPage] saves through
    [InstallRun], checks through [InstallSteps] and runs the same [install].
    Both keep the disk and the network apart: an install reads this machine's
    files as the outside ([Local]).  [ResticKey] reads and rewrites the store
    through [OnboxConfig]'s [dump].  [FetchRelease] takes its
    reference from [ReleaseRef] and hands its layers to [LayerTree].
    [TailnetReachability] walks [TailnetFirewall]'s rulesets, and
    [TailnetCheck] asks through the same opened requests.

    ** What the theorems show

    Each file [X] has its theorems in [X] or in [XFacts], [XSwitch],
    [XOutcomes].
    - A switch of the dispatch path ends in the state its verdict tells,
      retires without stranding the running generation, undoes a failed move
      (but for a rule that stood only in a -next file), and does nothing when
      there is nothing to do.
    - A passing reachability check was confirmed, for the status tailscale
      printed, by the control server, a peer and the ruleset of each family the
      host has an address of, and the walk of a ruleset is sound for the
      kernel's traversal; no credential leaves in a URL or a verdict.
    - A converge provisions every secret, keeps the ones stored, and is a
      fixpoint once settled; a settings write is confined; locked writers are serial.
    - The backup password is replaced only where it may be, a repository is
      created only at an empty location, and a success of each operation says
      which password opens what.
    - Drift flags are empty exactly when nothing drifted and converge when
      applied; a stack declares what it mentions; sign-in flows are closed,
      and only flows of the own bases are named stale.
    - A fetch leaves what the digest names, inside its destination, its token
      with its own host.
    - An install sends nothing to a server before its host key is vetted,
      hardens it only over a second login as ops, made after the accounts leg
      ended well over another connection, and keeps the passwords off the
      page's lines; a saved run of plain values opens again without a
      credential; a session is proved exactly by sshd's record of its last
      login; an answer of the public check came from the address the first
      resolver gave.
    - The check of a server leaves nothing behind and passes only on a login.
      A request starts an install only once every section's probe ran over the
      network and nothing found blocks; while
      requests come one at a time a run has one install; no answer, line or
      password of a run is markup of its page.  At the console a host key is
      trusted, or a password tried, only on the person's word, given in the
      lines read after the seed, and the file of the pins is gone after the
      seed.
    - The playbooks' lookup reads an [.env] as the seed does; a tree's hash
      names its paths and bytes; the expression for a service's tasks matches
      exactly their names; a domain is served only from a projection of the
      right schema and age.
    - What the seed reads in the rendered [.env] is the registry's keys at
      their defaults; a written [.env] of plain values reads back, and a second
      writing is a fixpoint; a seed writes valid answers, in the inventory it
      was asked for, or nothing, and a rerun asks nothing.

    ** Bounds and fuel

    Recursion that is not structural is by fuel that is enough: the JSON
    reader's is the length of the text; a float's [repr] tries every precision
    up to 17; [wrap_chunks] has the number of its chunks; a redirected request
    has [MAX_REDIRECTS]; a link walk has the forty links of the kernel, a
    chain jump the depth [room] past which the chains of a ruleset repeat; the
    attempts of a check are its seven; [list_tags] has the pages the caller
    allows, and one that still pages is told apart from an answer.  Where a
    number is bounded by the program the model writes the bound out.

    ** What is outside

    Commands, opened requests, clocks, random bytes, terminals, temporary
    names and the refusals of the operating system are parameters (the classes
    [Outside]), with laws of their own where a theorem needs one (each
    instantiated by its witness).  The operating system's refusals are not
    everywhere: on the server a write of [dispatch_path.py] is refused by
    [visudo] or [sshd] or for what stands at its path, not by a full disk, and
    an unpacking of [fetch_release.py] stops on what it vets, not half-way
    through a directory it may not make.  What docker prints is of the types
    docker prints: a placement constraint that is no text stops the drift with
    a [TypeError] at once.  What [ssh-keygen] writes is outside.  Texts are sequences of code points below
    256; [int]'s limit of 4300 digits, file encodings and signals are not
    modelled; neither are the grammar of a command line and most of what is
    printed for a person to read.  Of the page, the HTTP server, the reading of
    a request's bytes ([parse_qs], [SimpleCookie]) and a quality in
    Accept-Language that is not a number are outside; an install's lines reach
    the log at its end, and one whose passwords are not JSON ends there.

    ** Not modelled

    [.github/scripts/duplicate_sentences.py], which reads the repository's
    prose.  Of [remote.py] the matching of the terminal's patterns
    and the panel forward's sockets are outside, and of [steps.py], [run.py]
    and [tree.py] what lists a directory.  The playbooks and roles, the Java
    provider and the shell scripts are input and output or another language,
    and stay outside. *)
From stdpp Require Export base tactics list strings gmap sorting.
From Stdlib Require Export Ascii Lia.

#[export] Set Default Goal Selector "!".

Create HintDb catena discriminated.

(** * Results: Python calls that return or raise *)

(** The exception classes the modelled code raises or catches.  The text of a
    message is kept only where the code inspects or returns it. *)
Inductive exn :=
  | ValueError
  | TypeError
  | KeyError
  | AttributeError
  | OSError
  | IndexError
  | OverflowError
  | SystemExit (code : Z)
  | AssertionError
  | FetchError
  | ResolveError
  | KnobError
  | EOFError
  | CalledProcessError.

#[export] Instance exn_eq_dec : EqDecision exn.
Proof. solve_decision. Defined.

Inductive res (A : Type) :=
  | Ok (a : A)
  | Raise (e : exn).
Arguments Ok {A} a.
Arguments Raise {A} e.

#[export] Instance res_eq_dec `{EqDecision A} : EqDecision (res A).
Proof. solve_decision. Defined.
#[export] Instance res_ret : MRet res := @Ok.
#[export] Instance res_bind : MBind res := λ A B f r,
  match r with Ok a => f a | Raise e => Raise e end.
#[export] Instance res_fmap : FMap res := λ A B f r,
  match r with Ok a => Ok (f a) | Raise e => Raise e end.

Definition is_ok {A} (r : res A) : bool :=
  match r with Ok _ => true | Raise _ => false end.

Lemma res_bind_Ok {A B} (r : res A) (f : A → res B) b :
  r ≫= f = Ok b ↔ ∃ a, r = Ok a ∧ f a = Ok b.
Proof.
  destruct r as [a|e]; cbn; split.
  - eauto.
  - by intros (?&[= ->]&?).
  - done.
  - by intros (?&?&?).
Qed.

(** The value of a computation known to succeed. *)
Definition get_ok {A} (r : res A) : is_ok r = true → A :=
  match r with Ok a => λ _, a | Raise _ => λ H, False_rect _ (Bool.diff_false_true H) end.
Lemma get_ok_eq {A} (r : res A) H : r = Ok (get_ok r H).
Proof. by destruct r. Qed.

(** A left-to-right loop whose body may raise. *)
Fixpoint foldM {A S} (f : S → A → res S) (s : S) (l : list A) : res S :=
  match l with
  | [] => Ok s
  | x :: l => s' ← f s x; foldM f s' l
  end.

Lemma foldM_app {A S} (f : S → A → res S) s l1 l2 :
  foldM f s (l1 ++ l2) = s' ← foldM f s l1; foldM f s' l2.
Proof. revert s; induction l1 as [|x l1 IH]; intros s; [done|]; cbn.
  destruct (f s x); cbn; auto. Qed.

(** An invariant of the state every step keeps holds at the end. *)
Lemma foldM_inv {A S} (I : S → Prop) (f : S → A → res S) l s s' :
  (∀ s x s', x ∈ l → I s → f s x = Ok s' → I s') →
  I s → foldM f s l = Ok s' → I s'.
Proof.
  revert s; induction l as [|x l IH]; intros s Hstep Hs; cbn; [by intros [= ->]|].
  intros (s1 & E1 & E2)%res_bind_Ok.
  eapply (IH s1); [|eapply Hstep; [left| |]; eauto|done].
  intros; eapply Hstep; eauto; by right.
Qed.

(** The same for a loop that cannot raise. *)
Lemma foldl_inv {A S} (I : S → Prop) (f : S → A → S) l s :
  (∀ s x, x ∈ l → I s → I (f s x)) → I s → I (foldl f s l).
Proof.
  revert s; induction l as [|x l IH]; intros s Hstep Hs; cbn; [done|].
  apply IH; [intros; apply Hstep; auto; by right|apply Hstep; auto; by left].
Qed.

(** What one element establishes and every step keeps holds at the end. *)
Lemma foldl_establish {A S} (P : S → Prop) (f : S → A → S) x l s :
  (∀ s, P (f s x)) → (∀ s y, P s → P (f s y)) → x ∈ l → P (foldl f s l).
Proof.
  intros Hx Hk Hin. revert s; induction Hin as [x l|x y l Hin IH]; intros s; cbn; [|auto].
  apply foldl_inv; auto.
Qed.

(** * Sorted, deduplicated string lists: Python's [sorted] *)

Definition sorted_str (l : list string) : list string := merge_sort String.le l.

Lemma elem_of_sorted_str x l : x ∈ sorted_str l ↔ x ∈ l.
Proof. unfold sorted_str. by rewrite merge_sort_Permutation. Qed.

(** * Tactics *)

(** Case analysis on every [match] and [if] of the goal or hypotheses. *)
Ltac cases := repeat (case_match || case_decide || case_bool_decide); simplify_eq/=.

(** Case analysis on membership in a literal list. *)
Ltac elem_cases H :=
  repeat (apply elem_of_cons in H as [H|H]); try (by apply elem_of_nil in H); try subst.
(** Non-membership in a literal list of distinct literals. *)
Ltac not_elem := let H := fresh in intros H; elem_cases H; discriminate.

(** Inversion of a successful [res] computation. *)
Ltac inv_ok :=
  repeat match goal with
  | H : _ ≫= _ = Ok _ |- _ => apply res_bind_Ok in H as (? & ? & ?)
  | H : Raise _ = Ok _ |- _ => discriminate H
  | H : Ok _ = Raise _ |- _ => discriminate H
  | H : Ok _ = Ok _ |- _ => injection H as H; try subst
  end.

(** * Lawful comparisons: the tuple and string orders Python sorts by *)

Class LawfulCompare {A} (cmp : A → A → comparison) : Prop := {
  cmp_refl x : cmp x x = Eq;
  cmp_eq x y : cmp x y = Eq → x = y;
  cmp_antisym x y : cmp y x = CompOpp (cmp x y);
  cmp_lt_trans x y z : cmp x y = Lt → cmp y z = Lt → cmp x z = Lt
}.

(** [c] decides, else the tail does. *)
Definition lex (c c' : comparison) : comparison := match c with Eq => c' | _ => c end.

Fixpoint list_compare {A} (cmp : A → A → comparison) (l1 l2 : list A) : comparison :=
  match l1, l2 with
  | [], [] => Eq
  | [], _ => Lt
  | _, [] => Gt
  | x :: l1, y :: l2 => lex (cmp x y) (list_compare cmp l1 l2)
  end.

Definition pair_compare {A B} (ca : A → A → comparison) (cb : B → B → comparison)
    (p1 p2 : A * B) : comparison := lex (ca p1.1 p2.1) (cb p1.2 p2.2).

#[export] Instance N_compare_lawful : LawfulCompare N.compare.
Proof.
  split.
  - apply N.compare_refl.
  - intros x y; apply N.compare_eq_iff.
  - intros x y; apply N.compare_antisym.
  - intros x y z; rewrite !N.compare_lt_iff. lia.
Qed.

Section lex_laws.
Context {A B} (ca : A → A → comparison) (cb : B → B → comparison).
Context `{!LawfulCompare ca} `{!LawfulCompare cb}.

#[export] Instance pair_compare_lawful : LawfulCompare (pair_compare ca cb).
Proof.
  split; unfold pair_compare, lex.
  - intros [a b]; cbn. by rewrite !cmp_refl.
  - intros [a1 b1] [a2 b2]; cbn. destruct (ca a1 a2) eqn:E; try done.
    apply cmp_eq in E as ->. by intros ->%cmp_eq.
  - intros [a1 b1] [a2 b2]; cbn. rewrite (cmp_antisym a1 a2).
    destruct (ca a1 a2); cbn; [apply cmp_antisym|done|done].
  - intros [a1 b1] [a2 b2] [a3 b3]; cbn.
    destruct (ca a1 a2) eqn:E12, (ca a2 a3) eqn:E23; try done;
      repeat match goal with H : ca _ _ = Eq |- _ => apply cmp_eq in H as <- end;
      rewrite ?cmp_refl, ?E12, ?E23; try done.
    + apply cmp_lt_trans.
    + by rewrite (cmp_lt_trans _ _ _ E12 E23).
Qed.

#[export] Instance list_compare_lawful : LawfulCompare (list_compare ca).
Proof.
  split.
  - intros l; induction l as [|x l IH]; cbn; [done|]. by rewrite cmp_refl.
  - intros l1; induction l1 as [|x l1 IH]; intros [|y l2]; cbn; try done.
    destruct (ca x y) eqn:E; try done. apply cmp_eq in E as ->. by intros ->%IH.
  - intros l1; induction l1 as [|x l1 IH]; intros [|y l2]; cbn; try done.
    rewrite (cmp_antisym x y). destruct (ca x y); cbn; auto.
  - intros l1; induction l1 as [|x l1 IH]; intros [|y l2] [|z l3]; cbn; try done.
    destruct (ca x y) eqn:E12, (ca y z) eqn:E23; try done;
      repeat match goal with H : ca _ _ = Eq |- _ => apply cmp_eq in H as <- end;
      rewrite ?cmp_refl, ?E12, ?E23; try done.
    + apply IH.
    + by rewrite (cmp_lt_trans _ _ _ E12 E23).
Qed.
End lex_laws.

Fixpoint ascii_list (s : string) : list N :=
  match s with EmptyString => [] | String a s => N_of_ascii a :: ascii_list s end.

Lemma string_compare_list s1 s2 :
  String.compare s1 s2 = list_compare N.compare (ascii_list s1) (ascii_list s2).
Proof.
  revert s2; induction s1 as [|a s1 IH]; intros [|b s2]; cbn; try done.
  unfold Ascii.compare. rewrite IH. by destruct (_ ?= _)%N.
Qed.

Lemma ascii_list_inj s1 s2 : ascii_list s1 = ascii_list s2 → s1 = s2.
Proof.
  revert s2; induction s1 as [|a s1 IH]; intros [|b s2]; cbn; try done.
  intros [= Ha Hs]. f_equal; [|auto].
  by rewrite <-(ascii_N_embedding a), Ha, ascii_N_embedding.
Qed.

#[export] Instance string_compare_lawful : LawfulCompare String.compare.
Proof.
  split; intros *; rewrite !string_compare_list.
  - apply cmp_refl.
  - intros H%cmp_eq. by apply ascii_list_inj.
  - apply cmp_antisym.
  - apply cmp_lt_trans.
Qed.

(** [x > y] *)
Definition cmp_gt {A} (cmp : A → A → comparison) (x y : A) : bool :=
  match cmp x y with Gt => true | _ => false end.

Section cmp_gt.
Context {A} (cmp : A → A → comparison) `{!LawfulCompare cmp}.
Lemma cmp_gt_lt x y : cmp_gt cmp x y = true ↔ cmp y x = Lt.
Proof. unfold cmp_gt. rewrite (cmp_antisym x y). by destruct (cmp x y). Qed.
Lemma cmp_gt_irrefl x : cmp_gt cmp x x = false.
Proof. unfold cmp_gt. by rewrite cmp_refl. Qed.
Lemma cmp_gt_trans x y z : cmp_gt cmp x y = true → cmp_gt cmp y z = true → cmp_gt cmp x z = true.
Proof. rewrite !cmp_gt_lt. eauto using cmp_lt_trans. Qed.
Lemma cmp_gt_total x y : cmp_gt cmp x y = false → cmp_gt cmp y x = false → x = y.
Proof.
  unfold cmp_gt. rewrite (cmp_antisym x y).
  destruct (cmp x y) eqn:E; cbn; try done. by apply cmp_eq in E.
Qed.
Lemma cmp_gt_asym x y : cmp_gt cmp x y = true → cmp_gt cmp y x = false.
Proof. unfold cmp_gt. rewrite (cmp_antisym x y). by destruct (cmp x y). Qed.
End cmp_gt.
