(* ===== verification/PyStr.v ===== *)
(** Python's [str] as used by the program: strings are sequences of code
    points below 256 (an [ascii] is one code point), and every method is the
    built-in restricted to them. *)
From S2P Require Import Prelude.

(** * Characters *)

Definition code (a : ascii) : N := N_of_ascii a.

Definition code_in (lo hi : N) (a : ascii) : bool := (lo <=? code a)%N && (code a <=? hi)%N.

(** [str.isspace] on one code point below 256. *)
Definition is_space (a : ascii) : bool :=
  code_in 9 13 a || code_in 28 32 a || (code a =? 133)%N || (code a =? 160)%N.

Definition is_digit (a : ascii) : bool := code_in 48 57 a.
Definition is_lower (a : ascii) : bool := code_in 97 122 a.
Definition is_upper (a : ascii) : bool := code_in 65 90 a.
Definition is_alnum (a : ascii) : bool := is_digit a || is_lower a || is_upper a.

(** [str.lower] on one code point: ASCII and Latin-1 capitals move by 32. *)
Definition lower_char (a : ascii) : ascii :=
  if is_upper a || (code_in 192 222 a && negb (code a =? 215)%N)
  then ascii_of_N (code a + 32) else a.

Definition nl : ascii := "010"%char.
Definition newline_str : string := String nl EmptyString.
Definition slash : ascii := "/"%char.

(** * Methods *)

Fixpoint smap (f : ascii → ascii) (s : string) : string :=
  match s with EmptyString => EmptyString | String a s => String (f a) (smap f s) end.

Definition lower : string → string := smap lower_char.

Fixpoint lstrip_of (p : ascii → bool) (s : string) : string :=
  match s with
  | EmptyString => EmptyString
  | String a s' => if p a then lstrip_of p s' else s
  end.

Fixpoint rstrip_of (p : ascii → bool) (s : string) : string :=
  match s with
  | EmptyString => EmptyString
  | String a s' =>
      match rstrip_of p s' with
      | EmptyString => if p a then EmptyString else String a EmptyString
      | r => String a r
      end
  end.

Definition strip_of (p : ascii → bool) (s : string) : string := lstrip_of p (rstrip_of p s).

(** [s.strip()] *)
Definition strip : string → string := strip_of is_space.
(** [s.strip(c)], [s.rstrip(c)] for a one-character argument *)
Definition is_char (c a : ascii) : bool := bool_decide (c = a).
Definition strip_char (c : ascii) : string → string := strip_of (is_char c).
Definition rstrip_char (c : ascii) : string → string := rstrip_of (is_char c).

Definition startswith (s pre : string) : bool := String.prefix pre s.
Definition endswith (s suf : string) : bool :=
  (String.length suf <=? String.length s)%nat
  && bool_decide (String.substring (String.length s - String.length suf) (String.length suf) s = suf).

Fixpoint sforall (p : ascii → bool) (s : string) : bool :=
  match s with EmptyString => true | String a s => p a && sforall p s end.
Definition sexists (p : ascii → bool) (s : string) : bool := negb (sforall (λ a, negb (p a)) s).
(** [c in s] for one character *)
Definition has_char (c : ascii) : string → bool := sexists (is_char c).

(** [w in s] *)
Fixpoint scontains (w s : string) : bool :=
  startswith s w || match s with EmptyString => false | String _ s => scontains w s end.

(** [s.partition(c)] for one character: (before, found, after). *)
Fixpoint partition (c : ascii) (s : string) : string * bool * string :=
  match s with
  | EmptyString => (EmptyString, false, EmptyString)
  | String a s' =>
      if bool_decide (a = c) then (EmptyString, true, s')
      else let '(h, found, t) := partition c s' in (String a h, found, t)
  end.

(** [s.rpartition(c)] for one character; with no [c] the head is empty. *)
Fixpoint rpartition (c : ascii) (s : string) : string * bool * string :=
  match s with
  | EmptyString => (EmptyString, false, EmptyString)
  | String a s' =>
      match rpartition c s' with
      | (h, true, t) => (String a h, true, t)
      | (h, false, t) => if bool_decide (a = c) then (EmptyString, true, t)
                         else (EmptyString, false, String a t)
      end
  end.

(** [s.split(c)] for one character: never the empty list. *)
Fixpoint split (c : ascii) (s : string) : list string :=
  match s with
  | EmptyString => [EmptyString]
  | String a s' =>
      if bool_decide (a = c) then EmptyString :: split c s'
      else match split c s' with
           | w :: ws => String a w :: ws
           | [] => [String a EmptyString]
           end
  end.

(** What follows a prefix. *)
Fixpoint strip_prefix (pre s : string) : option string :=
  match pre, s with
  | EmptyString, _ => Some s
  | String a pre, String b s => if bool_decide (a = b) then strip_prefix pre s else None
  | _, _ => None
  end.

(** The longest leading run of characters that satisfy [p], and the rest. *)
Fixpoint span (p : ascii → bool) (s : string) : string * string :=
  match s with
  | String a s' => if p a then let '(r, t) := span p s' in (String a r, t) else (EmptyString, s)
  | EmptyString => (EmptyString, EmptyString)
  end.

(** [a / b] and [p.name] of paths *)
Definition join_path (a b : string) : string := if startswith b "/" then b else a +:+ "/" +:+ b.
Definition path_name (p : string) : string :=
  List.last (List.filter (λ x, negb (bool_decide (x = "")) && negb (bool_decide (x = "."))) (split "/" p)) "".

(** [list(dict.fromkeys(l))]: the first of each, in order. *)
Fixpoint fromkeys_go (seen l : list string) : list string :=
  match l with
  | [] => []
  | x :: l => if bool_decide (x ∈ seen) then fromkeys_go seen l else x :: fromkeys_go (x :: seen) l
  end.
Definition fromkeys : list string → list string := fromkeys_go [].

(** [sep.join(l)] *)
Definition sjoin (sep : string) (l : list string) : string := String.concat sep l.

(** [s.split()]: maximal runs of non-space characters. *)
Fixpoint words_go (acc : string) (s : string) : list string :=
  match s with
  | EmptyString => if bool_decide (acc = EmptyString) then [] else [acc]
  | String a s' =>
      if is_space a
      then (if bool_decide (acc = EmptyString) then [] else [acc]) ++ words_go EmptyString s'
      else words_go (acc +:+ String a EmptyString) s'
  end.
Definition words (s : string) : list string := words_go EmptyString s.

(** A line boundary of [str.splitlines] below code point 256. *)
Definition is_break (a : ascii) : bool :=
  code_in 10 13 a || code_in 28 30 a || (code a =? 133)%N.

(** [s.splitlines()]: boundaries dropped, "\r\n" one boundary, no final empty line. *)
Fixpoint splitlines_go (acc : string) (s : string) : list string :=
  match s with
  | EmptyString => if bool_decide (acc = EmptyString) then [] else [acc]
  | String a s' =>
      if is_break a
      then acc :: match s' with
                  | String b s'' => if (code a =? 13)%N && (code b =? 10)%N
                                    then splitlines_go EmptyString s''
                                    else splitlines_go EmptyString s'
                  | EmptyString => []
                  end
      else splitlines_go (acc +:+ String a EmptyString) s'
  end.
Definition splitlines (s : string) : list string := splitlines_go EmptyString s.

(** The value of a string of ASCII digits: [int] on what [\d+] matched. *)
Fixpoint digits_go (acc : N) (s : string) : N :=
  match s with
  | EmptyString => acc
  | String a s' => digits_go (10 * acc + (code a - 48)) s'
  end.
Definition digits_val (s : string) : N := digits_go 0 s.

Arguments is_char c%_char_scope a%_char_scope.
Arguments strip_char c%_char_scope s%_string_scope.
Arguments rstrip_char c%_char_scope s%_string_scope.
Arguments has_char c%_char_scope s%_string_scope.
Arguments partition c%_char_scope s%_string_scope.
Arguments rpartition c%_char_scope s%_string_scope.
Arguments split c%_char_scope s%_string_scope.

#[global] Arguments code_in : simpl never.
#[global] Arguments is_space : simpl never.
#[global] Arguments is_break : simpl never.
#[global] Arguments is_digit : simpl never.
#[global] Arguments is_lower : simpl never.
#[global] Arguments is_upper : simpl never.
#[global] Arguments is_alnum : simpl never.
#[global] Arguments is_char : simpl never.
#[global] Arguments lower_char : simpl never.
#[global] Arguments String.append : simpl nomatch.

(** * Lemmas *)

(** A fact of every character, by trying the 256 of them. *)
Lemma ascii_all (p : ascii → bool) :
  forallb (λ n, p (ascii_of_nat n)) (seq 0 256) = true → ∀ a, p a = true.
Proof.
  rewrite forallb_forall. intros H a. rewrite <-(ascii_nat_embedding a). apply H, in_seq.
  pose proof (nat_ascii_bounded a). lia.
Qed.
Lemma ascii_imp (p q : ascii → bool) :
  forallb (λ n, implb (p (ascii_of_nat n)) (q (ascii_of_nat n))) (seq 0 256) = true →
  ∀ a, p a = true → q a = true.
Proof. intros H a Ha. pose proof (ascii_all (λ a, implb (p a) (q a)) H a) as Hi. cbn in Hi. by rewrite Ha in Hi. Qed.

Lemma string_app_assoc s1 s2 s3 : s1 +:+ (s2 +:+ s3) = (s1 +:+ s2) +:+ s3.
Proof. induction s1 as [|a s1 IH]; cbn; [done|]. by rewrite <-IH. Qed.

Lemma string_app_cons s a t : s +:+ String a t = (s +:+ String a "") +:+ t.
Proof. by rewrite <-string_app_assoc. Qed.

Lemma string_app_nil_r s : s +:+ "" = s.
Proof. induction s as [|a s IH]; cbn; [done|]. by rewrite IH. Qed.

Lemma has_char_app c s1 s2 : has_char c (s1 +:+ s2) = has_char c s1 || has_char c s2.
Proof.
  unfold has_char, sexists. induction s1 as [|a s1 IH]; cbn; [done|].
  destruct (is_char c a); cbn; [done|]. by rewrite IH.
Qed.

Lemma has_char_digits c d : is_digit c = false → sforall is_digit d = true → has_char c d = false.
Proof.
  intros Hc. unfold has_char, sexists. induction d as [|a d IH]; cbn; [done|].
  intros [Ha Hd]%andb_true_iff. unfold is_char at 1.
  rewrite bool_decide_false by congruence. cbn. auto.
Qed.

Lemma length_sapp s1 s2 : String.length (s1 +:+ s2) = String.length s1 + String.length s2.
Proof. induction s1 as [|a s1 IH]; cbn; [done|]. by rewrite IH. Qed.

Lemma sforall_app p s1 s2 : sforall p (s1 +:+ s2) = sforall p s1 && sforall p s2.
Proof. induction s1 as [|a s1 IH]; cbn; [done|]. by rewrite IH, andb_assoc. Qed.

(** ** Stripping *)

Lemma rstrip_of_all p s : sforall p s = true → rstrip_of p s = "".
Proof.
  induction s as [|a s IH]; cbn; [done|]. intros [-> Hs]%andb_true_iff. by rewrite IH.
Qed.

Lemma rstrip_of_none p s : sforall (λ a, negb (p a)) s = true → rstrip_of p s = s.
Proof.
  induction s as [|a s IH]; cbn; [done|]. intros [Ha%negb_true_iff Hs]%andb_true_iff.
  rewrite IH by done. by destruct s; [rewrite Ha|].
Qed.

Lemma rstrip_of_app p s w :
  sforall p w = true → sforall (λ a, negb (p a)) s = true → rstrip_of p (s +:+ w) = s.
Proof.
  intros Hw. induction s as [|a s IH]; cbn; [by intros; apply rstrip_of_all|].
  intros [Ha%negb_true_iff Hs]%andb_true_iff. rewrite IH by done. by destruct s; [rewrite Ha|].
Qed.

Lemma substring_app_r a b n : String.substring (String.length a) n (a +:+ b) = String.substring 0 n b.
Proof. induction a as [|c a IH]; [done|]. exact IH. Qed.
Lemma rstrip_of_tail p s w : sforall p w = true → rstrip_of p (s +:+ w) = rstrip_of p s.
Proof. intros Hw. induction s as [|a s IH]; cbn; [by apply rstrip_of_all|]. by rewrite IH. Qed.

Lemma sforall_impl (p q : ascii → bool) s :
  (∀ a, p a = true → q a = true) → sforall p s = true → sforall q s = true.
Proof.
  intros Hpq. induction s as [|a s IH]; cbn; [done|]. intros [Ha Hs]%andb_true_iff.
  by rewrite (Hpq a Ha), IH.
Qed.

Lemma sforall_impl_neg (p q : ascii → bool) s :
  (∀ a, p a = true → q a = false) → sforall p s = true → sforall (λ a, negb (q a)) s = true.
Proof. intros H. apply sforall_impl. intros a Ha. by rewrite H. Qed.

Lemma lstrip_of_none p s : (∀ a s', s = String a s' → p a = false) → lstrip_of p s = s.
Proof. destruct s as [|a s]; [done|]. intros H. cbn. by rewrite (H a s). Qed.

(** A string of which no character is stripped is its own [strip]. *)
Lemma strip_of_none p s : sforall (λ a, negb (p a)) s = true → strip_of p s = s.
Proof.
  intros H. unfold strip_of. rewrite rstrip_of_none by done. apply lstrip_of_none.
  intros a s' ->. cbn in H. apply andb_true_iff in H as [H%negb_true_iff _]. done.
Qed.

Lemma rstrip_of_idemp p s : rstrip_of p (rstrip_of p s) = rstrip_of p s.
Proof.
  induction s as [|a s IH]; cbn; [done|].
  destruct (rstrip_of p s) as [|b r] eqn:E.
  - destruct (p a) eqn:Ha; cbn; [done|]. by rewrite Ha.
  - cbn in *. rewrite IH. done.
Qed.

Lemma rstrip_lstrip p s : rstrip_of p (lstrip_of p s) = lstrip_of p (rstrip_of p s).
Proof.
  induction s as [|a s IH]; cbn; [done|].
  destruct (p a) eqn:Ha.
  - rewrite IH. destruct (rstrip_of p s); cbn; [done|by rewrite Ha].
  - cbn. destruct (rstrip_of p s); cbn; by rewrite Ha.
Qed.

Lemma lstrip_of_idemp p s : lstrip_of p (lstrip_of p s) = lstrip_of p s.
Proof. induction s as [|a s IH]; cbn; [done|]. destruct (p a) eqn:Ha; [done|]. cbn. by rewrite Ha. Qed.

Lemma strip_idemp s : strip (strip s) = strip s.
Proof.
  unfold strip, strip_of.
  by rewrite (rstrip_lstrip _ (rstrip_of _ s)), rstrip_of_idemp, lstrip_of_idemp.
Qed.

Lemma sapp_inj a b c : a +:+ b = a +:+ c → b = c.
Proof. induction a as [|x a IH]; cbn; [done|]. intros [= H]. auto. Qed.

Lemma startswith_app a b : startswith (a +:+ b) a = true.
Proof.
  unfold startswith. induction a as [|c a IH]; cbn; [by destruct b|]. by destruct (ascii_dec c c).
Qed.

Lemma substring_all s : String.substring 0 (String.length s) s = s.
Proof. induction s as [|a s IH]; [done|]. cbn. by rewrite IH. Qed.
Lemma substring_prefix a b : String.substring 0 (String.length a) (a +:+ b) = a.
Proof. induction a as [|x a IH]; cbn; [by destruct b|]. by rewrite IH. Qed.
Lemma length_substring_0 n s : (n ≤ String.length s)%nat → String.length (String.substring 0 n s) = n.
Proof.
  revert s. induction n as [|n IH]; intros [|a s] H; cbn in *; try done; [lia|].
  f_equal. apply IH. lia.
Qed.
Lemma sforall_substring_0 p n s : sforall p s = true → sforall p (String.substring 0 n s) = true.
Proof.
  revert s. induction n as [|n IH]; intros [|a s] H; try done. cbn in *.
  apply andb_true_iff in H as [-> H]. by rewrite IH.
Qed.
Lemma length_eq_app a b c d : String.length a = String.length c → a +:+ b = c +:+ d → a = c.
Proof.
  revert c. induction a as [|x a IH]; intros [|y c] Hl H; try done. cbn in *. simplify_eq. f_equal. eauto.
Qed.

Lemma splitlines_go_app acc a s :
  sforall (λ c, negb (is_break c)) a = true →
  splitlines_go acc (a +:+ String nl s) = (acc +:+ a) :: splitlines s.
Proof.
  revert acc. induction a as [|b a IH]; intros acc H; cbn [String.append splitlines_go].
  - replace (is_break nl) with true by reflexivity. rewrite string_app_nil_r.
    destruct s as [|b s]; [done|]. by replace (code nl =? 13)%N with false by reflexivity.
  - cbn in H. apply andb_prop in H as [Hb H]. apply negb_true_iff in Hb. rewrite Hb, IH by done.
    by rewrite <-string_app_assoc.
Qed.

Lemma splitlines_app a s :
  sforall (λ c, negb (is_break c)) a = true → splitlines (a +:+ String nl s) = a :: splitlines s.
Proof. apply splitlines_go_app. Qed.

Lemma break_space a : is_space a = false → is_break a = false.
Proof.
  unfold is_space, is_break, code_in. intros H. rewrite !orb_false_iff, !andb_false_iff, !N.leb_gt, !N.eqb_neq in *.
  lia.
Qed.

Lemma sforall_lstrip p q s : sforall p s = true → sforall p (lstrip_of q s) = true.
Proof. induction s as [|a s IH]; cbn; [done|]. intros [Ha Hs]%andb_true_iff. destruct (q a); cbn; [auto|by rewrite Ha]. Qed.
Lemma sforall_rstrip p q s : sforall p s = true → sforall p (rstrip_of q s) = true.
Proof.
  induction s as [|a s IH]; cbn; [done|]. intros [Ha Hs]%andb_true_iff. specialize (IH Hs).
  destruct (rstrip_of q s); [destruct (q a)|]; cbn in *; rewrite ?Ha; done.
Qed.
Lemma sforall_strip p s : sforall p s = true → sforall p (strip s) = true.
Proof. intros. by apply sforall_lstrip, sforall_rstrip. Qed.

(** ** Cutting at a character *)

Lemma partition_none c s : has_char c s = false → partition c s = (s, false, "").
Proof.
  induction s as [|a s IH]; [done|]. unfold has_char, sexists in *. cbn. rewrite negb_andb, negb_involutive, orb_false_iff.
  intros [Ha Hs]. unfold is_char in Ha. apply bool_decide_eq_false in Ha. rewrite bool_decide_false by congruence.
  by rewrite IH.
Qed.
Lemma partition_app c a b : has_char c a = false → partition c (a +:+ String c b) = (a, true, b).
Proof.
  induction a as [|x a IH]; cbn; [by rewrite bool_decide_true|].
  unfold has_char, sexists in *. cbn. rewrite negb_andb, negb_involutive, orb_false_iff.
  intros [Ha Hs]. unfold is_char in Ha. apply bool_decide_eq_false in Ha. rewrite bool_decide_false by congruence.
  by rewrite IH.
Qed.
Lemma partition_inv c s : has_char c (partition c s).1.1 = false ∧
  s = (partition c s).1.1 +:+ (if (partition c s).1.2 then String c (partition c s).2 else (partition c s).2) ∧
  ((partition c s).1.2 = false → (partition c s).2 = "").
Proof.
  induction s as [|a s IH]; [done|]. cbn. case_bool_decide as Ha; [by subst|].
  destruct (partition c s) as [[h f] t]. cbn in *. destruct IH as (H1 & H2 & H3). split_and!; [|by rewrite H2|done].
  unfold has_char, sexists in *. cbn. rewrite negb_andb, negb_involutive, H1. unfold is_char.
  by rewrite bool_decide_false by congruence.
Qed.
Lemma rpartition_inv c s :
  match rpartition c s with (h, true, t) => s = h +:+ String c t | (h, false, t) => h = "" ∧ t = s end.
Proof.
  induction s as [|a s IH]; cbn; [done|]. destruct (rpartition c s) as [[h []] t]; [by rewrite IH at 1|].
  destruct IH as [-> ->]. by case_bool_decide; [subst|].
Qed.

(** A text that neither starts nor ends with a character to strip. *)
Lemma rstrip_of_last p a b : rstrip_of p b = b → b ≠ "" → rstrip_of p (a +:+ b) = a +:+ b.
Proof.
  intros Hb Hne. induction a as [|x a IH]; [done|]. cbn. rewrite IH. by destruct a; [destruct b|].
Qed.
Lemma lstrip_of_length p s : (String.length (lstrip_of p s) ≤ String.length s)%nat.
Proof. induction s as [|a s IH]; cbn; [lia|]. destruct (p a); cbn; lia. Qed.
Lemma lstrip_of_head p a s : lstrip_of p (String a s) = String a s → p a = false.
Proof.
  cbn. destruct (p a); [|done]. intros H. pose proof (lstrip_of_length p s) as Hl. rewrite H in Hl. cbn in Hl. lia.
Qed.
Lemma lstrip_of_first p a b : lstrip_of p a = a → a ≠ "" → lstrip_of p (a +:+ b) = a +:+ b.
Proof. destruct a as [|x a]; [done|]. intros H%lstrip_of_head _. cbn. by rewrite H. Qed.
Lemma strip_fixed_both s : strip s = s → rstrip_of is_space s = s ∧ lstrip_of is_space s = s.
Proof.
  unfold strip, strip_of. intros H. split.
  - rewrite <-H at 1. rewrite rstrip_lstrip, rstrip_of_idemp. done.
  - rewrite <-H at 1. by rewrite lstrip_of_idemp.
Qed.
Lemma strip_app a b : strip a = a → a ≠ "" → rstrip_of is_space b = b → b ≠ "" → strip (a +:+ b) = a +:+ b.
Proof.
  intros [_ Ha]%strip_fixed_both Hne Hb Hbne. unfold strip, strip_of.
  rewrite rstrip_of_last by done. by apply lstrip_of_first.
Qed.

Lemma startswith_inv s pre : startswith s pre = true → ∃ r, s = pre +:+ r.
Proof.
  unfold startswith. revert s. induction pre as [|a pre IH]; intros s H; [by exists s|].
  destruct s as [|b s]; [done|]. cbn in H. destruct (ascii_dec a b) as [<-|]; [|done].
  apply IH in H as [r ->]. by exists r.
Qed.

Definition starts_char (c : ascii) (s : string) : bool :=
  match s with String a _ => bool_decide (c = a) | EmptyString => false end.
Lemma startswith_char c s : startswith s (String c "") = starts_char c s.
Proof.
  destruct s as [|a s]; [done|]. unfold startswith, starts_char. cbn. destruct (ascii_dec c a).
  - rewrite bool_decide_true by done. by destruct s.
  - by rewrite bool_decide_false.
Qed.

(** ** Prefixes and runs *)

Lemma strip_prefix_app pre s : strip_prefix pre (pre +:+ s) = Some s.
Proof.
  induction pre as [|a pre IH]; [done|]. cbn. by rewrite bool_decide_true.
Qed.

Lemma strip_prefix_inv pre s r : strip_prefix pre s = Some r → s = pre +:+ r.
Proof.
  revert s. induction pre as [|a pre IH]; intros [|b s] H; simplify_eq/=; try done.
  case_bool_decide; [subst|done]. by rewrite (IH s).
Qed.

(** A text whose first character, if it has one, ends the run. *)
Definition ends_run (p : ascii → bool) (s : string) : bool :=
  match s with String a _ => negb (p a) | EmptyString => true end.
Lemma span_app p r t : sforall p r = true → ends_run p t = true → span p (r +:+ t) = (r, t).
Proof.
  intros Hr Ht. induction r as [|a r IH]; cbn in *.
  - destruct t as [|b t]; [done|]. cbn in *. by apply negb_true_iff in Ht as ->.
  - apply andb_prop in Hr as [-> Hr]. by rewrite IH.
Qed.
Lemma span_inv p s r t : span p s = (r, t) → s = r +:+ t ∧ sforall p r = true ∧ ends_run p t = true.
Proof.
  revert r t. induction s as [|a s IH]; intros r t; cbn; [by intros [= <- <-]|].
  destruct (p a) eqn:Ha.
  - destruct (span p s) as [r' t'] eqn:E. intros [= <- <-]. destruct (IH _ _ eq_refl) as (-> & Hr & Ht).
    cbn. by rewrite Ha.
  - intros [= <- <-]. cbn. by rewrite Ha.
Qed.

(** ** Words and lines *)

Lemma words_go_app acc a s : words_go acc (a +:+ String " " s) = (words_go acc a ++ words s)%list.
Proof.
  revert acc. induction a as [|b a IH]; intros acc; cbn [String.append words_go].
  - by replace (is_space " ") with true by reflexivity.
  - destruct (is_space b); [|apply IH]. by rewrite IH, app_assoc.
Qed.
Lemma words_app a s : words (a +:+ String " " s) = (words a ++ words s)%list.
Proof. apply words_go_app. Qed.

Lemma words_go_word acc w : sforall (λ a, negb (is_space a)) w = true → acc +:+ w ≠ "" → words_go acc w = [acc +:+ w].
Proof.
  revert acc. induction w as [|a w IH]; intros acc Hw Hne; cbn in *.
  - rewrite string_app_nil_r in *. by rewrite bool_decide_false.
  - apply andb_prop in Hw as [->%negb_true_iff Hw]. rewrite (string_app_cons acc a w) in *. by apply IH.
Qed.
Lemma words_word w : sforall (λ a, negb (is_space a)) w = true → w ≠ "" → words w = [w].
Proof. apply (words_go_word ""). Qed.

(** Lines, each with its newline. *)
Definition lines_text (l : list string) : string := foldr (λ line s, line +:+ String nl s) "" l.
Lemma splitlines_lines l :
  Forall (λ line, sforall (λ c, negb (is_break c)) line = true) l → splitlines (lines_text l) = l.
Proof. induction 1 as [|line l Hl _ IH]; [done|]. change (lines_text (line :: l)) with (line +:+ String nl (lines_text l)). by rewrite splitlines_app, IH. Qed.

(** ** Deduplication *)

Lemma elem_of_fromkeys_go seen l x : x ∈ fromkeys_go seen l ↔ x ∈ l ∧ x ∉ seen.
Proof.
  revert seen. induction l as [|y l IH]; intros seen; cbn; [rewrite elem_of_nil; naive_solver|].
  case_bool_decide as Hy; rewrite ?elem_of_cons, IH, ?elem_of_cons; [naive_solver|].
  destruct (decide (x = y)) as [->|]; naive_solver.
Qed.
Lemma elem_of_fromkeys l x : x ∈ fromkeys l ↔ x ∈ l.
Proof. unfold fromkeys. rewrite elem_of_fromkeys_go, elem_of_nil. naive_solver. Qed.
Lemma fromkeys_nil l : fromkeys l = [] → l = [].
Proof. destruct l as [|x l]; [done|]. done. Qed.
