(* ===== verification/PyNum.v ===== *)
(** Python's numbers as text: [int(text)], [float(text)] with its rounding to
    binary64 (the standard library's specification floats), [int(f)], [f == n]
    and [repr(f)], the shortest decimal that reads back as [f]. *)
From S2P Require Import Prelude PyStr.
From stdpp Require Import pretty.
From Stdlib Require Export SpecFloat.

#[local] Open Scope string_scope.

(** * [int(text)] *)

(** Digits, with single underscores between them. *)
Fixpoint int_digits (acc : N) (after_digit : bool) (s : string) : option N :=
  match s with
  | EmptyString => if after_digit then Some acc else None
  | String a s' =>
      if is_digit a then int_digits (10 * acc + (code a - 48)) true s'
      else if is_char "_" a && after_digit then int_digits acc false s'
      else None
  end.

(** A text after its sign: whether the sign is a minus. *)
Definition take_sign (s : string) : bool * string :=
  match s with
  | String a s' => if is_char "-" a then (true, s') else if is_char "+" a then (false, s') else (false, s)
  | EmptyString => (false, s)
  end.

Definition py_int (text : string) : res Z :=
  let '(minus, s) := take_sign (strip text) in
  match int_digits 0 false s with
  | Some n => Ok (if minus then - Z.of_N n else Z.of_N n)%Z
  | None => Raise ValueError
  end.

(** * Floats *)

Definition float : Type := spec_float.
#[export] Instance float_eq_dec : EqDecision float.
Proof. solve_decision. Defined.

Definition fprec : Z := 53.
Definition femax : Z := 1024.

(** An integer, and [sign n * 10 ^ e], to the nearest float. *)
Definition float_near (z : Z) : float := binary_normalize fprec femax z 0 false.
Definition float_decimal (minus : bool) (n : N) (e : Z) : float :=
  match n with
  | N0 => S754_zero minus
  | Npos p =>
      if (0 <=? e)%Z then
        match (Z.pos p * 10 ^ e)%Z with Z.pos q => binary_round fprec femax minus q 0 | _ => S754_zero minus end
      else
        match (10 ^ (- e))%Z with
        | Z.pos q => SFdiv fprec femax (S754_finite minus p 0) (S754_finite false q 0)
        | _ => S754_zero minus
        end
  end.

(** A run of digits, with underscores between digits: its value, how many, the rest. *)
Fixpoint digit_run (acc : N) (n : nat) (s : string) : N * nat * string :=
  match s with
  | String a s' =>
      if is_digit a then digit_run (10 * acc + (code a - 48)) (S n) s'
      else if is_char "_" a && (0 <? n)%nat && match s' with String b _ => is_digit b | _ => false end
      then digit_run acc n s'
      else (acc, n, s)
  | EmptyString => (acc, n, s)
  end.

Definition float_exponent (s : string) : option Z :=
  match s with
  | EmptyString => Some 0%Z
  | String a s' =>
      if is_char "e" (lower_char a) then
        let '(minus, t) := take_sign s' in
        match digit_run 0 0 t with
        | (e, S _, EmptyString) => Some (if minus then - Z.of_N e else Z.of_N e)%Z
        | _ => None
        end
      else None
  end.

(** [float(text)] *)
Definition py_float (text : string) : res float :=
  let '(minus, s) := take_sign (strip text) in
  if bool_decide (lower s ∈ ["inf"; "infinity"]) then Ok (S754_infinity minus)
  else if bool_decide (lower s = "nan") then Ok S754_nan
  else
    let '(whole, n, rest) := digit_run 0 0 s in
    let '(mantissa, digits, frac, rest) :=
      match rest with
      | String a rest' => if is_char "." a
                          then let '(m, k, rest'') := digit_run whole 0 rest' in (m, (n + k)%nat, k, rest'')
                          else (whole, n, 0%nat, rest)
      | EmptyString => (whole, n, 0%nat, rest)
      end in
    match digits, float_exponent rest with
    | S _, Some e => Ok (float_decimal minus mantissa (e - Z.of_nat frac))
    | _, _ => Raise ValueError
    end.

(** [float(n)] for an integer: too large a one raises. *)
Definition float_of_int (z : Z) : res float :=
  match float_near z with S754_infinity _ => Raise OverflowError | f => Ok f end.

(** [int(f)]: towards zero. *)
Definition float_trunc (f : float) : res Z :=
  match f with
  | S754_zero _ => Ok 0%Z
  | S754_infinity _ => Raise OverflowError
  | S754_nan => Raise ValueError
  | S754_finite s m e => Ok (Z.mul (if s then -1 else 1) (Z.shiftl (Z.pos m) e))
  end.

(** [f * n] for an integer of the code's. *)
Definition float_scale (f : float) (n : Z) : float := SFmul fprec femax f (float_near n).

Definition float_eqb : float → float → bool := SFeqb.
(** [f == n], exactly *)
Definition float_eq_int (f : float) (z : Z) : bool :=
  match f with
  | S754_zero _ => (z =? 0)%Z
  | S754_finite s m e =>
      let m := if s then Z.neg m else Z.pos m in
      if (0 <=? e)%Z then (m * 2 ^ e =? z)%Z else (m =? z * 2 ^ (- e))%Z
  | _ => false
  end.

(** ** [repr(f)] *)

(** A positive rational [p / q] to [n] significant digits: [d * 10 ^ (k - n)],
    [d] rounded half to even, [k] the position of its point. *)
Fixpoint point_from (fuel : nat) (p q : Z) (k : Z) : Z :=
  match fuel with
  | O => k
  | S fuel =>
      if (q * 10 ^ k <=? p)%Z && (0 <=? k)%Z then point_from fuel p q (k + 1)
      else if (k <=? 0)%Z && (p * 10 ^ (1 - k) <? q)%Z then point_from fuel p q (k - 1)
      else k
  end.
Definition half_even (p q : Z) : Z :=
  let d := (p / q)%Z in let r := (p mod q)%Z in
  if (2 * r <? q)%Z then d else if (q <? 2 * r)%Z then (d + 1)%Z else if Z.even d then d else (d + 1)%Z.
Definition round_digits (p q k : Z) (n : nat) : Z :=
  let s := (Z.of_nat n - k)%Z in
  if (0 <=? s)%Z then half_even (p * 10 ^ s) q else half_even p (q * 10 ^ (- s)).

(** The shortest digits that read back, from one digit to seventeen. *)
Fixpoint shortest (fuel n : nat) (m : positive) (e k p q : Z) : Z * Z :=
  let d := round_digits p q k n in
  let scale := (k - Z.of_nat n)%Z in
  match fuel with
  | O => (d, scale)
  | S fuel =>
      if bool_decide (float_decimal false (Z.to_N d) scale = S754_finite false m e)
      then (d, scale) else shortest fuel (S n) m e k p q
  end.

Fixpoint zeros (n : nat) : string := match n with O => "" | S n => String "0" (zeros n) end.
Definition drop_zeros (s : string) : string := rstrip_char "0" s.

(** Digits [ds] with the point after [k] of them. *)
Definition place_point (ds : string) (k : Z) : string :=
  let n := Z.of_nat (String.length ds) in
  if ((-4 <? k) && (k <=? 16))%Z then
    if (k <=? 0)%Z then "0." +:+ zeros (Z.to_nat (- k)) +:+ ds
    else if (n <=? k)%Z then ds +:+ zeros (Z.to_nat (k - n)) +:+ ".0"
    else String.substring 0 (Z.to_nat k) ds +:+ "." +:+ String.substring (Z.to_nat k) (Z.to_nat (n - k)) ds
  else
    let x := (k - 1)%Z in
    let digits := pretty (Z.abs_N x) in
    String.substring 0 1 ds +:+ (if (n =? 1)%Z then "" else "." +:+ String.substring 1 (Z.to_nat (n - 1)) ds) +:+
    "e" +:+ (if (x <? 0)%Z then "-" else "+") +:+ (if (Z.abs x <? 10)%Z then "0" else "") +:+ digits.

Definition float_repr (f : float) : string :=
  match f with
  | S754_nan => "nan"
  | S754_infinity s => if s then "-inf" else "inf"
  | S754_zero s => if s then "-0.0" else "0.0"
  | S754_finite s m e =>
      let p := (if 0 <=? e then Z.pos m * 2 ^ e else Z.pos m)%Z in
      let q := (if 0 <=? e then 1 else 2 ^ (- e))%Z in
      let k := point_from 700 p q 0 in
      let '(d, scale) := shortest 16 1 m e k p q in
      let ds := drop_zeros (pretty (Z.to_N d)) in
      let k := (Z.of_nat (String.length (pretty (Z.to_N d))) + scale)%Z in
      (if s then "-" else "") +:+ place_point ds k
  end.
