(* ===== verification/PyVal.v ===== *)
(** The Python values a parsed JSON or YAML document is made of, with their
    truth value, equality and text ([str] and [repr]), and insertion-ordered dictionaries with
    string keys. *)
From S2P Require Import Prelude PyStr PyNum.
From stdpp Require Import pretty.

(** * Dictionaries *)

Abbreviation dict V := (list (string * V)).

Section dict.
Context {V : Type}.
Implicit Types (d : dict V) (k : string) (v : V).

(** [d.get(k)] *)
Fixpoint dget (k : string) (d : dict V) : option V :=
  match d with
  | [] => None
  | (k', v) :: d => if bool_decide (k = k') then Some v else dget k d
  end.

(** [d[k] = v]: in place when present, else appended. *)
Fixpoint dset (k : string) (v : V) (d : dict V) : dict V :=
  match d with
  | [] => [(k, v)]
  | (k', v') :: d => if bool_decide (k = k') then (k, v) :: d else (k', v') :: dset k v d
  end.

(** [d.pop(k, None)] as the dictionary left behind. *)
Fixpoint ddel (k : string) (d : dict V) : dict V :=
  match d with
  | [] => []
  | (k', v') :: d => if bool_decide (k = k') then d else (k', v') :: ddel k d
  end.

Definition dhas (k : string) (d : dict V) : bool := bool_decide (is_Some (dget k d)).
Definition dkeys (d : dict V) : list string := d.*1.

(** [d.update(d')] *)
Definition dupdate (d d' : dict V) : dict V := foldl (λ d kv, dset kv.1 kv.2 d) d d'.

Lemma dget_dset k k' v d : dget k (dset k' v d) = if decide (k = k') then Some v else dget k d.
Proof.
  induction d as [|[k0 v0] d IH]; cbn; [by cases|].
  destruct (bool_decide_reflect (k' = k0)) as [<-|]; cbn; [by cases|].
  rewrite IH. by cases.
Qed.
Lemma dget_dset_eq k v d : dget k (dset k v d) = Some v.
Proof. rewrite dget_dset. by cases. Qed.
Lemma dget_dset_ne k k' v d : k ≠ k' → dget k (dset k' v d) = dget k d.
Proof. rewrite dget_dset. by cases. Qed.

Lemma dset_id k v d : dget k d = Some v → dset k v d = d.
Proof.
  induction d as [|[k0 v0] d IH]; cbn; [done|].
  destruct (bool_decide_reflect (k = k0)) as [<-|]; [by intros [= ->]|].
  intros; f_equal; auto.
Qed.

Lemma elem_of_dkeys k d : k ∈ dkeys d ↔ is_Some (dget k d).
Proof.
  induction d as [|[k0 v0] d IH]; unfold dkeys in *; cbn.
  - rewrite elem_of_nil. split; [done|intros []; done].
  - rewrite elem_of_cons, IH. cases; [|naive_solver].
    split; [eauto|]. by left.
Qed.

Lemma dget_None k d : dget k d = None ↔ k ∉ dkeys d.
Proof. rewrite elem_of_dkeys, <-eq_None_not_Some. done. Qed.

Lemma dkeys_dset k v d : k ∈ dkeys d → dkeys (dset k v d) = dkeys d.
Proof.
  unfold dkeys. induction d as [|[k0 v0] d IH]; cbn; [by rewrite elem_of_nil|].
  rewrite elem_of_cons. cases; [done|]. intros [?|?]; [done|]. f_equal; auto.
Qed.

Lemma elem_of_dkeys_dset k k' v d : k ∈ dkeys (dset k' v d) ↔ k = k' ∨ k ∈ dkeys d.
Proof. rewrite !elem_of_dkeys, dget_dset. cases; naive_solver. Qed.

Lemma NoDup_dset k v d : NoDup (dkeys d) → NoDup (dkeys (dset k v d)).
Proof.
  unfold dkeys. induction d as [|[k0 v0] d IH]; cbn; [constructor; [set_solver|done]|].
  rewrite NoDup_cons. intros [Hn Hd]. cases; cbn; rewrite NoDup_cons; [done|].
  split; [|auto]. intros Hin. apply Hn.
  by apply (elem_of_dkeys_dset k0 k v d) in Hin as [?|?].
Qed.

Lemma dget_ddel_ne k k' d : k ≠ k' → dget k (ddel k' d) = dget k d.
Proof.
  intros ?. induction d as [|[k0 v0] d IH]; cbn; [done|].
  destruct (bool_decide_reflect (k' = k0)) as [<-|]; cbn; [by rewrite bool_decide_false|].
  by rewrite IH.
Qed.

Lemma dkeys_ddel_sub k k' d : k ∈ dkeys (ddel k' d) → k ∈ dkeys d.
Proof. unfold dkeys. induction d as [|[k0 v0] d IH]; cbn; [done|]. cases; set_solver. Qed.

Lemma dget_ddel_eq k d : NoDup (dkeys d) → dget k (ddel k d) = None.
Proof.
  unfold dkeys. induction d as [|[k0 v0] d IH]; cbn; [done|]. rewrite NoDup_cons. intros [Hn Hd].
  destruct (bool_decide_reflect (k = k0)) as [<-|]; cbn; [by apply dget_None|].
  rewrite bool_decide_false; auto.
Qed.

Lemma NoDup_ddel k d : NoDup (dkeys d) → NoDup (dkeys (ddel k d)).
Proof.
  unfold dkeys. induction d as [|[k0 v0] d IH]; cbn; [done|]. rewrite NoDup_cons. intros [Hn Hd].
  destruct (bool_decide_reflect (k = k0)) as [<-|]; cbn; [done|]. rewrite NoDup_cons. split; [|auto]. intros H; apply Hn.
  by eapply dkeys_ddel_sub.
Qed.

Lemma elem_of_dget k v d : NoDup (dkeys d) → (k, v) ∈ d ↔ dget k d = Some v.
Proof.
  unfold dkeys. induction d as [|[k0 v0] d IH]; cbn.
  - rewrite elem_of_nil. done.
  - rewrite NoDup_cons, elem_of_cons. intros [Hn Hd]. rewrite IH by done.
    destruct (bool_decide_reflect (k = k0)) as [<-|]; [|naive_solver].
    split; [|naive_solver]. intros [[= ->]|Hg]; [done|].
    exfalso. apply Hn. apply (elem_of_dkeys k d). eauto.
Qed.
End dict.

#[export] Hint Resolve NoDup_dset NoDup_ddel : catena.

Lemma dset_fresh {V} k (v : V) d : k ∉ dkeys d → dset k v d = (d ++ [(k, v)])%list.
Proof.
  unfold dkeys. induction d as [|[k0 v0] d IH]; cbn; [done|].
  rewrite not_elem_of_cons. intros [Hk Hd]. rewrite bool_decide_false by done. f_equal; auto.
Qed.

Lemma dupdate_NoDup {V} (d1 d2 : dict V) :
  NoDup (dkeys (d1 ++ d2)%list) → dupdate d1 d2 = (d1 ++ d2)%list.
Proof.
  unfold dupdate, dkeys. revert d1; induction d2 as [|[k v] d2 IH]; intros d1.
  - by rewrite app_nil_r.
  - intros Hd. cbn [foldl fst snd].
    assert (Hk : k ∉ dkeys d1).
    { rewrite fmap_app in Hd. apply NoDup_app in Hd as (_ & Hd & _).
      intros Hin. apply (Hd k Hin). by left. }
    rewrite dset_fresh, IH by done || by rewrite <-app_assoc. by rewrite <-app_assoc.
Qed.

Lemma dget_map {V U} (f : V → U) k (d : dict V) : dget k (map (λ kv, (kv.1, f kv.2)) d) = f <$> dget k d.
Proof. induction d as [|[k' v] d IH]; cbn; [done|]. by case_bool_decide. Qed.

(** Two dictionaries with the same bindings, whatever their order. *)
Definition dict_equiv {V} (d1 d2 : dict V) : Prop := ∀ k, dget k d1 = dget k d2.

#[export] Instance dict_equiv_equiv {V} : Equivalence (@dict_equiv V).
Proof. split; unfold dict_equiv; congruence || (intros ???; congruence) || (intros ??????; congruence). Qed.
#[export] Instance dget_proper {V} k : Proper (dict_equiv ==> eq) (@dget V k).
Proof. intros ?? H; apply H. Qed.
#[export] Instance dset_proper {V} k v : Proper (dict_equiv ==> dict_equiv) (@dset V k v).
Proof. intros d1 d2 H k'. rewrite !dget_dset. by cases. Qed.

(** * Values *)

Inductive val :=
  | VNone
  | VBool (b : bool)
  | VInt (z : Z)
  | VFloat (f : float)
  | VStr (s : string)
  | VList (l : list val)
  | VDict (d : dict val).

#[export] Instance val_inhabited : Inhabited val := populate VNone.

#[export] Instance val_eq_dec : EqDecision val.
Proof.
  refine (fix go (v1 v2 : val) : Decision (v1 = v2) :=
    match v1, v2 with
    | VNone, VNone => left eq_refl
    | VBool b1, VBool b2 => cast_if (decide (b1 = b2))
    | VInt z1, VInt z2 => cast_if (decide (z1 = z2))
    | VFloat f1, VFloat f2 => cast_if (decide (f1 = f2))
    | VStr s1, VStr s2 => cast_if (decide (s1 = s2))
    | VList l1, VList l2 => cast_if (list_eq_dec (dec := go) l1 l2)
    | VDict d1, VDict d2 =>
        cast_if (@list_eq_dec _ (@prod_eq_dec _ (decide_rel (=)) _ go) d1 d2)
    | _, _ => right _
    end); clear go; abstract congruence.
Defined.

(** [bool(v)] *)
Definition truthy (v : val) : bool :=
  match v with
  | VNone => false
  | VBool b => b
  | VInt z => negb (bool_decide (z = 0%Z))
  | VFloat f => negb (float_eq_int f 0)
  | VStr s => negb (bool_decide (s = ""))
  | VList l => negb (bool_decide (length l = 0))
  | VDict d => negb (bool_decide (length d = 0))
  end.

(** [v1 == v2]: [True == 1], and dictionaries compare without order. *)
Fixpoint py_eq (v1 v2 : val) : bool :=
  match v1, v2 with
  | VNone, VNone => true
  | VBool b1, VBool b2 => Bool.eqb b1 b2
  | VBool b, VInt z | VInt z, VBool b => bool_decide (z = if b then 1%Z else 0%Z)
  | VInt z1, VInt z2 => bool_decide (z1 = z2)
  | VFloat f, VInt z | VInt z, VFloat f => float_eq_int f z
  | VFloat f, VBool b | VBool b, VFloat f => float_eq_int f (if b then 1%Z else 0%Z)
  | VFloat f1, VFloat f2 => float_eqb f1 f2
  | VStr s1, VStr s2 => bool_decide (s1 = s2)
  | VList l1, VList l2 =>
      (fix go (l1 l2 : list val) : bool :=
         match l1, l2 with
         | [], [] => true
         | x :: l1, y :: l2 => py_eq x y && go l1 l2
         | _, _ => false
         end) l1 l2
  | VDict d1, VDict d2 =>
      bool_decide (length d1 = length d2) &&
      (fix go (d1 : dict val) : bool :=
         match d1 with
         | [] => true
         | (k, v) :: d1 => match dget k d2 with Some w => py_eq v w | None => false end && go d1
         end) d1
  | _, _ => false
  end.

(** [v.get(k)] as a value: absent reads as [None]. *)
Definition vget (k : string) (d : dict val) : val := default VNone (dget k d).

#[global] Arguments vget : simpl never.

(** A string that is not blank; anything but a string and [None] counts as
    present ([cur is None or (isinstance(cur, str) and not cur.strip())]). *)
Definition blank (v : val) : bool :=
  match v with
  | VNone => true
  | VStr s => bool_decide (strip s = "")
  | _ => false
  end.

(** The text of an integer, [str(z)]. *)
Definition str_of_int (z : Z) : string := pretty z.

(** [repr(s)]: single quotes unless only they occur in it, the quote, the
    backslash and the unprintable code points escaped. *)
Definition repr_hex (n : N) : ascii := ascii_of_N (if (n <? 10)%N then 48 + n else 87 + n).
Definition repr_char (q a : ascii) : string :=
  if bool_decide (a = q) || (code a =? 92)%N then String (ascii_of_N 92) (String a "")
  else match code a with
  | 10%N => String (ascii_of_N 92) "n"
  | 13%N => String (ascii_of_N 92) "r"
  | 9%N => String (ascii_of_N 92) "t"
  | n => if (n <? 32)%N || code_in 127 160 a || (n =? 173)%N
         then String (ascii_of_N 92) (String "x" (String (repr_hex (n / 16)) (String (repr_hex (n mod 16)) "")))
         else String a ""
  end.
Fixpoint repr_body (q : ascii) (s : string) : string :=
  match s with EmptyString => "" | String a s => repr_char q a +:+ repr_body q s end.
Definition repr_str (s : string) : string :=
  let sq := ascii_of_N 39 in let dq := ascii_of_N 34 in
  let q := if has_char sq s && negb (has_char dq s) then dq else sq in
  String q (repr_body q s +:+ String q "").

Fixpoint py_repr (v : val) : string :=
  match v with
  | VNone => "None"
  | VBool true => "True"
  | VBool false => "False"
  | VInt z => str_of_int z
  | VFloat f => float_repr f
  | VStr s => repr_str s
  | VList l => "[" +:+ sjoin ", " (map py_repr l) +:+ "]"
  | VDict d => "{" +:+ sjoin ", " (map (λ '(k, v), repr_str k +:+ ": " +:+ py_repr v) d) +:+ "}"
  end.

(** [str(v)] *)
Definition py_str (v : val) : string :=
  match v with VStr s => s | _ => py_repr v end.

(** [str(v or "")] *)
Definition str_or (v : val) : string := if truthy v then py_str v else "".

(** [isinstance(v, dict)] and its dictionary *)
Definition as_dict (v : val) : option (dict val) :=
  match v with VDict d => Some d | _ => None end.
Definition as_str (v : val) : option string :=
  match v with VStr s => Some s | _ => None end.
Definition as_list (v : val) : option (list val) :=
  match v with VList l => Some l | _ => None end.

(** * Access, as the operations that may raise *)

(** [doc[k]] *)
Definition getitem (k : string) (d : dict val) : res val :=
  match dget k d with Some v => Ok v | None => Raise KeyError end.
Definition as_str_r (v : val) : res string :=
  match v with VStr s => Ok s | _ => Raise TypeError end.
Definition as_dict_r (v : val) : res (dict val) :=
  match v with VDict d => Ok d | _ => Raise TypeError end.
(** Iterating a parsed sequence. *)
Definition as_list_r (v : val) : res (list val) :=
  match v with VList l => Ok l | _ => Raise TypeError end.

(** [int(v)], [float(v)] *)
Definition as_int (v : val) : res Z :=
  match v with
  | VInt z => Ok z
  | VBool b => Ok (if b then 1 else 0)%Z
  | VFloat f => float_trunc f
  | VStr s => py_int s
  | _ => Raise TypeError
  end.
Definition as_float (v : val) : res float :=
  match v with
  | VInt z => float_of_int z
  | VBool b => float_of_int (if b then 1 else 0)
  | VFloat f => Ok f
  | VStr s => py_float s
  | _ => Raise TypeError
  end.

Fixpoint mapM_res {A B} (f : A → res B) (l : list A) : res (list B) :=
  match l with [] => Ok [] | x :: l => y ← f x; ys ← mapM_res f l; Ok (y :: ys) end.

Lemma mapM_res_elem {A B} (f : A → res B) l ys y :
  mapM_res f l = Ok ys → y ∈ ys → ∃ x, x ∈ l ∧ f x = Ok y.
Proof.
  revert ys. induction l as [|x l IH]; intros ys H Hy; cbn in H; [simplify_eq; by apply elem_of_nil in Hy|].
  apply res_bind_Ok in H as (y0 & Hy0 & H). apply res_bind_Ok in H as (ys0 & Hys & H). simplify_eq.
  apply elem_of_cons in Hy as [->|Hy]; [exists x; split; [by left|done]|].
  destruct (IH _ Hys Hy) as (x' & ? & ?). exists x'. split; [by right|done].
Qed.

Fixpoint chars (s : string) : list val :=
  match s with EmptyString => [] | String a s => VStr (String a "") :: chars s end.

(** Iterating a value: a string by characters, a dictionary by keys. *)
Definition py_iter (v : val) : res (list val) :=
  match v with
  | VList l => Ok l
  | VStr s => Ok (chars s)
  | VDict d => Ok (map VStr (dkeys d))
  | _ => Raise TypeError
  end.

(** [k in v] on a value that is not a mapping. *)
Definition py_in (k : string) (v : val) : res bool :=
  match v with
  | VStr s => Ok (scontains k s)
  | VList l => Ok (existsb (py_eq (VStr k)) l)
  | VDict d => Ok (dhas k d)
  | _ => Raise TypeError
  end.

(** [v.get(k)], for a value that may not be a mapping *)
Definition attr_get (k : string) (v : val) : res val :=
  match v with VDict d => Ok (vget k d) | _ => Raise AttributeError end.

(** [for x in (v or [])] *)
Definition iter_or (v : val) : res (list val) := if truthy v then py_iter v else Ok [].

Lemma iter_or_list l : iter_or (VList l) = Ok l.
Proof. by destruct l. Qed.

(** [v or w] *)
Definition val_or (v w : val) : val := if truthy v then v else w.

Lemma vget_cons_eq k v d : vget k ((k, v) :: d) = v.
Proof. unfold vget. cbn. by rewrite bool_decide_true. Qed.
Lemma vget_cons_ne k k' v d : k ≠ k' → vget k ((k', v) :: d) = vget k d.
Proof. intros. unfold vget. cbn. by rewrite bool_decide_false. Qed.
Lemma vget_nil k : vget k [] = VNone.
Proof. done. Qed.

(** Lookups at literal keys in literal dictionaries. *)
Ltac vget_simpl := rewrite ?vget_nil; repeat (rewrite vget_cons_eq || rewrite vget_cons_ne by done); rewrite ?vget_nil.

Lemma str_or_str s : str_or (VStr s) = s.
Proof. unfold str_or. cbn. by destruct (bool_decide_reflect (s = "")%string); cbn. Qed.

Lemma py_eq_text v s : py_eq v (VStr s) = true → v = VStr s.
Proof. destruct v; try done. intros ->%bool_decide_eq_true_1. done. Qed.
