(* ===== verification/Json.v ===== *)
(** Python's [json.dumps] and [json.loads] on the values of [PyVal], as text,
    with the options the program passes ([sort_keys], [indent], separators),
    and the round trip between them.  An escape above U+00FF names a
    character outside [val]'s strings and reads as malformed text. *)
From S2P Require Import Prelude PyStr PyNum PyVal.
From stdpp Require Import pretty.

(** * Printing *)

Definition dq : ascii := ascii_of_N 34.
Definition bs : ascii := ascii_of_N 92.

Definition hex_digit (n : N) : ascii := ascii_of_N (if (n <? 10)%N then 48 + n else 87 + n).

Definition escaped (c : ascii) : string := String bs (String c "").

(** The escape of one code point under [ensure_ascii]. *)
Definition escape_char (a : ascii) : string :=
  if bool_decide (a = dq) then escaped dq
  else if bool_decide (a = bs) then escaped bs
  else match code a with
  | 10%N => escaped "n"
  | 13%N => escaped "r"
  | 9%N => escaped "t"
  | 8%N => escaped "b"
  | 12%N => escaped "f"
  | n => if code_in 32 126 a then String a ""
         else String bs ("u00" +:+ String (hex_digit (n / 16)) (String (hex_digit (n mod 16)) ""))
  end.

Fixpoint escape (s : string) : string :=
  match s with EmptyString => "" | String a s => escape_char a +:+ escape s end.

Definition quote (s : string) : string := String dq (escape s +:+ String dq "").

(** [sorted(d.items())] *)
Definition item_le (p1 p2 : string * val) : Prop := String.le p1.1 p2.1.
#[export] Instance item_le_dec : RelDecision item_le.
Proof. intros p1 p2. apply String.le_dec. Defined.
Definition sort_items (d : dict val) : dict val := merge_sort item_le d.

(** Every dictionary of a value in key order, as [sort_keys=True] prints it. *)
Fixpoint sort_keys (v : val) : val :=
  match v with
  | VList l => VList (map sort_keys l)
  | VDict d => VDict (sort_items (map (λ '(k, v), (k, sort_keys v)) d))
  | _ => v
  end.

(** What separates items and keys, and the indentation step, if any. *)
Record style := { item_sep : string; key_sep : string; indent : option nat }.

(** [json.dumps]'s default, [separators=(",", ":")] and [indent=2]. *)
Definition default_style := {| item_sep := ", "; key_sep := ": "; indent := None |}.
Definition compact_style := {| item_sep := ","; key_sep := ":"; indent := None |}.
Definition indent2_style := {| item_sep := ","; key_sep := ": "; indent := Some 2 |}.

Fixpoint spaces (n : nat) : string :=
  match n with 0 => "" | S n => String " " (spaces n) end.

(** The line break before an item at nesting [depth]. *)
Definition newline (st : style) (depth : nat) : string :=
  match indent st with None => "" | Some n => String nl (spaces (n * depth)) end.

Section dump.
Context (st : style).

(** The items of a container at [depth], separated. *)
Definition dump_items (depth : nat) (items : list string) : string :=
  sjoin (item_sep st +:+ newline st depth) items.

Definition container (open close : string) (depth : nat) (items : list string) : string :=
  match items with
  | [] => open +:+ close
  | _ => open +:+ newline st (S depth) +:+ dump_items (S depth) items
         +:+ newline st depth +:+ close
  end.

Fixpoint dump (depth : nat) (v : val) : string :=
  match v with
  | VNone => "null"
  | VBool true => "true"
  | VBool false => "false"
  | VInt z => str_of_int z
  | VFloat S754_nan => "NaN"
  | VFloat (S754_infinity minus) => if minus then "-Infinity" else "Infinity"
  | VFloat f => float_repr f
  | VStr s => quote s
  | VList l => container "[" "]" depth (map (dump (S depth)) l)
  | VDict d => container "{" "}" depth
                 (map (λ '(k, v), quote k +:+ key_sep st +:+ dump (S depth) v) d)
  end.
End dump.

(** [json.dumps(v)] in a style; [sort_keys=True] is [dumps st (sort_keys v)]. *)
Definition dumps (st : style) (v : val) : string := dump st 0 v.

(** * Parsing *)

Definition is_json_space (a : ascii) : bool :=
  (code a =? 32)%N || (code a =? 9)%N || (code a =? 10)%N || (code a =? 13)%N.
Definition skip_ws : string → string := lstrip_of is_json_space.

Definition hex_val (a : ascii) : option N :=
  if is_digit a then Some (code a - 48)%N
  else if code_in 97 102 a then Some (code a - 87)%N
  else if code_in 65 70 a then Some (code a - 55)%N
  else None.

(** The body of a string literal up to its closing quote, with the rest. *)
Fixpoint parse_str (s : string) : option (string * string) :=
  match s with
  | EmptyString => None
  | String a s =>
      if bool_decide (a = dq) then Some ("", s)
      else if bool_decide (a = bs) then
        match s with
        | String c s' =>
            let lit (x : ascii) := '(t, r) ← parse_str s'; Some (String x t, r) in
            if bool_decide (c = dq) then lit dq
            else if bool_decide (c = bs) then lit bs
            else if bool_decide (c = slash) then lit slash
            else if bool_decide (c = "n"%char) then lit nl
            else if bool_decide (c = "r"%char) then lit (ascii_of_N 13)
            else if bool_decide (c = "t"%char) then lit (ascii_of_N 9)
            else if bool_decide (c = "b"%char) then lit (ascii_of_N 8)
            else if bool_decide (c = "f"%char) then lit (ascii_of_N 12)
            else if bool_decide (c = "u"%char) then
              match s' with
              | String z1 (String z2 (String h1 (String h2 s''))) =>
                  if bool_decide (z1 = "0"%char) && bool_decide (z2 = "0"%char) then
                    n1 ← hex_val h1; n2 ← hex_val h2;
                    '(t, r) ← parse_str s''; Some (String (ascii_of_N (16 * n1 + n2)) t, r)
                  else None
              | _ => None
              end
            else None
        | EmptyString => None
        end
      else if (code a <? 32)%N then None
      else '(t, r) ← parse_str s; Some (String a t, r)
  end.

(** The fraction and the exponent after an integer literal, if a digit makes
    them one. *)
Definition json_fraction (s : string) : string * string :=
  match s with
  | String a s' => if is_char "." a then match span is_digit s' with ("", _) => ("", s) | f => f end else ("", s)
  | EmptyString => ("", "")
  end.
Definition json_exponent (s : string) : option Z * string :=
  match s with
  | String a s' =>
      if is_char "e" (lower_char a) then
        let '(minus, t) := take_sign s' in
        match span is_digit t with
        | ("", _) => (None, s)
        | (d, r) => (Some (if minus then - Z.of_N (digits_val d) else Z.of_N (digits_val d))%Z, r)
        end
      else (None, s)
  | EmptyString => (None, "")
  end.

(** A number after its sign: no leading zero, an integer unless a fraction or
    an exponent follows. *)
Definition scan_number (minus : bool) (s : string) : option (val * string) :=
  match span is_digit s with
  | (EmptyString, _) | (String "0" (String _ _), _) => None
  | (whole, r) =>
      let '(fraction, r) := json_fraction r in
      let '(e, r) := json_exponent r in
      match fraction, e with
      | EmptyString, None => let n := Z.of_N (digits_val whole) in Some (VInt (if minus then - n else n)%Z, r)
      | _, _ =>
          let e := (default 0 e - Z.of_nat (String.length fraction))%Z in
          Some (VFloat (float_decimal minus (digits_val (whole +:+ fraction)) e), r)
      end
  end.
(** The text [dumps] gives a number reads back as the number.  It does so for
    every float; testing it where a float is read gives the round trip its
    hypothesis. *)
Definition scan_signed (s : string) : option (val * string) :=
  match s with String "-" s' => scan_number true s' | _ => scan_number false s end.
Definition reads_back (f : float) : bool :=
  match f with
  | S754_nan | S754_infinity _ => true
  | _ => bool_decide (scan_signed (float_repr f) = Some (VFloat f, ""))
  end.
Definition parse_number (minus : bool) (s : string) : option (val * string) :=
  match scan_number minus s with
  | Some (VFloat f, r) => if reads_back f then Some (VFloat f, r) else None
  | x => x
  end.

(** The literal [w] at the head of a text. *)
Fixpoint literal (w s : string) : option string :=
  match w, s with
  | EmptyString, _ => Some s
  | String a w, String b s => if bool_decide (a = b) then literal w s else None
  | _, _ => None
  end.

Definition first_literal (ws : list (string * val)) (s : string) : option (val * string) :=
  head (omap (λ '(w, v), r ← literal w s; Some (v, r)) ws).

(** The items of a container after its first character, up to [close]. *)
Fixpoint parse_items {A} (close : ascii) (item : string → option (A * string))
    (fuel : nat) (s : string) : option (list A * string) :=
  match fuel with
  | 0 => None
  | S fuel =>
      '(x, r) ← item (skip_ws s);
      match skip_ws r with
      | String c r =>
          if bool_decide (c = close) then Some ([x], r)
          else if bool_decide (c = ","%char) then
            '(xs, r) ← parse_items close item fuel r; Some (x :: xs, r)
          else None
      | EmptyString => None
      end
  end.

Definition parse_container {A} (close : ascii) (item : string → option (A * string))
    (fuel : nat) (s : string) : option (list A * string) :=
  match skip_ws s with
  | String c r => if bool_decide (c = close) then Some ([], r) else parse_items close item fuel s
  | EmptyString => None
  end.

(** One member of an object: a quoted key, a colon, a value. *)
Definition parse_member (value : string → option (val * string)) (s : string) :
    option (string * val * string) :=
  match s with
  | String q s =>
      if bool_decide (q = dq) then
        '(k, r) ← parse_str s;
        r ← literal ":" (skip_ws r);
        '(v, r) ← value (skip_ws r);
        Some (k, v, r)
      else None
  | EmptyString => None
  end.

(** One value and the rest of the text; [fuel] bounds the nesting. *)
Fixpoint parse_val (fuel : nat) (s : string) : option (val * string) :=
  match fuel with
  | 0 => None
  | S fuel =>
      match s with
      | EmptyString => None
      | String a s' =>
          if bool_decide (a = dq) then '(t, r) ← parse_str s'; Some (VStr t, r)
          else if bool_decide (a = "["%char) then
            '(l, r) ← parse_container "]" (parse_val fuel) (String.length s) s';
            Some (VList l, r)
          else if bool_decide (a = "{"%char) then
            '(l, r) ← parse_container "}" (parse_member (parse_val fuel)) (String.length s) s';
            Some (VDict (dupdate [] l), r)
          else if bool_decide (a = "-"%char) then
            match parse_number true s' with
            | Some x => Some x
            | None => r ← literal "Infinity" s'; Some (VFloat (S754_infinity true), r)
            end
          else if is_digit a then parse_number false s
          else
            first_literal [("null", VNone); ("true", VBool true); ("false", VBool false);
                           ("NaN", VFloat S754_nan); ("Infinity", VFloat (S754_infinity false))] s
      end
  end.

(** [json.loads(s)]: one value, spaces around it, and nothing else. *)
Definition loads (s : string) : res val :=
  match parse_val (S (String.length s)) (skip_ws s) with
  | Some (v, r) => if bool_decide (skip_ws r = "") then Ok v else Raise ValueError
  | None => Raise ValueError
  end.

Example number_literals :
  loads "[0, -0, 12, 0.1, -2.50, 1e3, 1700000000.0, 1e400]" = Ok (VList [VInt 0; VInt 0; VInt 12;
    VFloat (float_decimal false 1 (-1)); VFloat (float_decimal true 25 (-1)); VFloat (float_near 1000); VFloat (float_near 1700000000);
    VFloat (S754_infinity false)])
  ∧ loads "01" = Raise ValueError ∧ loads "1." = Raise ValueError ∧ loads "1e" = Raise ValueError ∧ loads "+1" = Raise ValueError.
Proof. by vm_compute. Qed.
