(* ===== verification/JsonFacts.v ===== *)
(** The round trip of [Json]: what [dumps] prints in any of the program's
    styles, [loads] reads back. *)
From S2P Require Import Prelude PyStr PyNum PyVal Json.
From stdpp Require Import pretty.

#[local] Open Scope string_scope.

(** * Induction over values *)

Section val_ind.
Context (P : val → Prop) (HNone : P VNone) (HBool : ∀ b, P (VBool b)) (HInt : ∀ z, P (VInt z)) (HFloat : ∀ f, P (VFloat f))
  (HStr : ∀ s, P (VStr s)) (HList : ∀ l, Forall P l → P (VList l))
  (HDict : ∀ d, Forall (λ kv, P kv.2) d → P (VDict d)).

Fixpoint val_ind' (v : val) : P v :=
  match v with
  | VNone => HNone
  | VBool b => HBool b
  | VInt z => HInt z
  | VFloat f => HFloat f
  | VStr s => HStr s
  | VList l => HList l ((fix go l : Forall P l :=
      match l with [] => Forall_nil_2 _ | x :: l => Forall_cons_2 _ _ _ (val_ind' x) (go l) end) l)
  | VDict d => HDict d ((fix go d : Forall (λ kv, P kv.2) d :=
      match d with [] => Forall_nil_2 _
      | x :: d => Forall_cons_2 _ x _ (val_ind' x.2) (go d) end) d)
  end.
End val_ind.

(** A value whose text reads back: no dictionary repeats a key. *)
Inductive wf_val : val → Prop :=
  | wf_none : wf_val VNone
  | wf_bool b : wf_val (VBool b)
  | wf_int z : wf_val (VInt z)
  | wf_float f : reads_back f = true → wf_val (VFloat f)
  | wf_str s : wf_val (VStr s)
  | wf_list l : Forall wf_val l → wf_val (VList l)
  | wf_dict d : NoDup (dkeys d) → Forall (λ kv, wf_val kv.2) d → wf_val (VDict d).

(** How deep containers nest. *)
Fixpoint depth (v : val) : nat :=
  match v with
  | VList l => S (foldr (λ x n, depth x `max` n) 0 l)
  | VDict d => S (foldr (λ x n, depth x.2 `max` n) 0 d)
  | _ => 0
  end.

(** * Numbers *)

Lemma pretty_N_char_digit n : is_digit (pretty_N_char n) = true.
Proof. unfold pretty_N_char. by repeat case_match. Qed.

Lemma pretty_N_char_code n : (n < 10)%N → (code (pretty_N_char n) - 48 = n)%N.
Proof.
  intros. assert (n = 0 ∨ n = 1 ∨ n = 2 ∨ n = 3 ∨ n = 4 ∨ n = 5 ∨ n = 6 ∨ n = 7 ∨ n = 8 ∨ n = 9)%N
    as Hn by lia.
  by repeat destruct Hn as [->|Hn]; subst.
Qed.

(** The text of a positive number: digits, no leading zero, and its value. *)
Lemma pretty_N_go_spec x s :
  (0 < x)%N → ∃ c d, pretty_N_go x s = String c d +:+ s ∧
    is_digit c = true ∧ c ≠ "0"%char ∧ sforall is_digit d = true ∧
    ∀ acc t, digits_go acc (String c d +:+ t) = digits_go (acc * 10 ^ N.of_nat (S (String.length d)) + x) t.
Proof.
  revert s. induction (N.lt_wf_0 x) as [x _ IH]; intros s Hx.
  rewrite pretty_N_go_step by done.
  destruct (decide (x < 10)%N) as [Hlt|Hge].
  - rewrite (N.div_small x 10), N.mod_small by done. rewrite pretty_N_go_0.
    exists (pretty_N_char x), "". split_and!; [done|apply pretty_N_char_digit| |done|].
    + assert (x = 1 ∨ x = 2 ∨ x = 3 ∨ x = 4 ∨ x = 5 ∨ x = 6 ∨ x = 7 ∨ x = 8 ∨ x = 9)%N as Hn by lia.
      by repeat destruct Hn as [->|Hn]; subst.
    + intros acc t. cbn [digits_go String.append String.length].
      rewrite pretty_N_char_code by done. f_equal. lia.
  - destruct (IH (x / 10)%N) with (s := String (pretty_N_char (x mod 10)) s)
      as (c & d & -> & Hc & Hc0 & Hd & Hv).
    { apply N.div_lt; lia. } { apply N.div_str_pos. lia. }
    exists c, (d +:+ String (pretty_N_char (x mod 10)) ""). split_and!; try done.
    + cbn. by rewrite <-string_app_assoc.
    + clear -Hd. induction d as [|a d IHd]; cbn in *; [by rewrite pretty_N_char_digit|].
      apply andb_true_iff in Hd as [-> Hd]. auto.
    + intros acc t. cbn [String.append]. rewrite <-string_app_assoc.
      change (String c (d +:+ ?u)) with (String c d +:+ u).
      rewrite Hv. cbn [String.append digits_go].
      rewrite pretty_N_char_code by (apply N.mod_lt; lia). f_equal.
      rewrite length_sapp. cbn [String.length].
      replace (N.of_nat (S (String.length d + 1))) with (N.succ (N.of_nat (S (String.length d)))) by lia.
      rewrite N.pow_succ_r'. pose proof (N.div_mod x 10). lia.
Qed.

(** What may follow a value: nothing a number could continue with. *)
Definition number_char (a : ascii) : bool :=
  is_digit a || is_char "." a || is_char "e" (lower_char a) || is_char "+" a || is_char "-" a.
Definition ends_number (s : string) : Prop := ends_run number_char s = true.

Lemma ends_number_inv a r : ends_number (String a r) →
  is_digit a = false ∧ is_char "." a = false ∧ is_char "e" (lower_char a) = false ∧ is_char "+" a = false ∧ is_char "-" a = false.
Proof.
  unfold ends_number, number_char. cbn. rewrite negb_true_iff, !orb_false_iff. tauto.
Qed.
Lemma ends_number_digits r : ends_number r → ends_run is_digit r = true.
Proof. destruct r as [|a r]; [done|]. intros (H & _)%ends_number_inv. cbn. by rewrite H. Qed.
Lemma span_digits s d t r : span is_digit s = (d, t) → ends_number r → span is_digit (s +:+ r) = (d, t +:+ r).
Proof.
  intros (-> & Hd & Ht)%span_inv Hr. rewrite <-string_app_assoc. apply span_app; [done|].
  destruct t; [by apply ends_number_digits|done].
Qed.

(** The parts of a number, with what may follow it. *)
Lemma json_fraction_app s f t r : json_fraction s = (f, t) → ends_number r → json_fraction (s +:+ r) = (f, t +:+ r).
Proof.
  unfold json_fraction. destruct s as [|a s]; cbn.
  - intros [= <- <-] Hr. destruct r as [|b r]; [done|]. by apply ends_number_inv in Hr as (_ & -> & _).
  - intros H Hr. destruct (is_char "." a); [|by simplify_eq]. destruct (span is_digit s) as [d u] eqn:E.
    rewrite (span_digits _ _ _ _ E Hr). destruct d; by simplify_eq/=.
Qed.
Lemma json_exponent_app s e r : json_exponent s = (e, "") → ends_number r → json_exponent (s +:+ r) = (e, r).
Proof.
  unfold json_exponent. destruct s as [|a s]; cbn.
  - intros [= <-] Hr. destruct r as [|b r]; [done|]. by apply ends_number_inv in Hr as (_ & _ & -> & _).
  - intros H Hr. destruct (is_char "e" (lower_char a)); [|by simplify_eq]. destruct s as [|c s]; [done|]. cbn [take_sign String.append] in *.
    destruct (if is_char "-" c then _ else _) as [minus t] eqn:Hs.
    assert (Ht : (if is_char "-" c then (true, s +:+ r) else if is_char "+" c then (false, s +:+ r) else (false, String c (s +:+ r)))
      = (minus, t +:+ r)) by (destruct (is_char "-" c); [|destruct (is_char "+" c)]; by simplify_eq).
    rewrite Ht. destruct (span is_digit t) as [d u] eqn:E. rewrite (span_digits _ _ _ _ E Hr).
    destruct d; by simplify_eq/=.
Qed.
Lemma scan_number_app minus s v r : scan_number minus s = Some (v, "") → ends_number r → scan_number minus (s +:+ r) = Some (v, r).
Proof.
  unfold scan_number. destruct (span is_digit s) as [whole t] eqn:E. intros H Hr. rewrite (span_digits _ _ _ _ E Hr).
  destruct (json_fraction t) as [fraction u] eqn:Hf. rewrite (json_fraction_app _ _ _ _ Hf Hr).
  destruct (json_exponent u) as [e t'] eqn:He.
  assert (t' = "") as -> by (destruct whole as [|[[][][][][][][][]] []]; try done; destruct fraction, e; by simplify_eq).
  rewrite (json_exponent_app _ _ _ He Hr).
  destruct whole as [|[[][][][][][][][]] []]; try done; destruct fraction, e; by simplify_eq.
Qed.

(** A natural number's text. *)
Lemma scan_number_pretty minus n : scan_number minus (pretty n) = Some (VInt (if minus then - Z.of_N n else Z.of_N n)%Z, "").
Proof.
  unfold scan_number, pretty, pretty_N. destruct (decide (n = 0%N)) as [->|Hn]; [by destruct minus|].
  destruct (pretty_N_go_spec n "") as (c & d & -> & Hc & Hc0 & Hds & Hv); [lia|].
  rewrite span_app by (cbn; rewrite ?Hc; done).
  specialize (Hv 0%N ""). rewrite string_app_nil_r, N.mul_0_l, N.add_0_l in Hv. unfold digits_val. rewrite Hv. cbn [digits_go].
  destruct c as [[] [] [] [] [] [] [] []]; done.
Qed.
Lemma parse_number_pretty minus n r : ends_number r →
  parse_number minus (pretty n +:+ r) = Some (VInt (if minus then - Z.of_N n else Z.of_N n)%Z, r).
Proof. intros Hr. unfold parse_number. by rewrite (scan_number_app _ _ _ _ (scan_number_pretty minus n) Hr). Qed.
Lemma parse_number_float minus s f r : reads_back f = true → scan_number minus s = Some (VFloat f, "") → ends_number r →
  parse_number minus (s +:+ r) = Some (VFloat f, r).
Proof. intros Hf Hs Hr. unfold parse_number. by rewrite (scan_number_app _ _ _ _ Hs Hr), Hf. Qed.
Lemma scan_number_head minus s v : scan_number minus s = Some (v, "") → ∃ a s', s = String a s' ∧ is_digit a = true.
Proof.
  unfold scan_number. destruct s as [|a s]; [done|]. cbn [span]. intros H. exists a, s. split; [done|].
  by destruct (is_digit a).
Qed.
Lemma scan_number_num minus s v r : scan_number minus s = Some (v, r) → (∃ z, v = VInt z) ∨ ∃ f, v = VFloat f.
Proof.
  unfold scan_number. destruct (span is_digit s) as [whole t], (json_fraction t) as [fraction u], (json_exponent u) as [e t'].
  destruct whole as [|[[][][][][][][][]] []]; try done; destruct fraction, e; intros; simplify_eq; eauto.
Qed.
Lemma parse_number_wf minus s v r : parse_number minus s = Some (v, r) → wf_val v.
Proof.
  unfold parse_number. destruct (scan_number minus s) as [[v' r']|] eqn:E; [|done].
  destruct (scan_number_num _ _ _ _ E) as [[z ->]|[f ->]]; [intros [= <- <-]; constructor|].
  destruct (reads_back f) eqn:Hf; [|done]. intros [= <- <-]. by constructor.
Qed.

(** * Strings *)

Lemma code_lt a : (code a < 256)%N.
Proof. destruct a as [[] [] [] [] [] [] [] []]; vm_compute; done. Qed.

(** Every escape reads back as its character, checked for all 256. *)
Lemma parse_str_escape_char a s t r :
  parse_str s = Some (t, r) → parse_str (escape_char a +:+ s) = Some (String a t, r).
Proof.
  intros Hs. trans ('(t, r) ← parse_str s; Some (String a t, r)); [|by rewrite Hs].
  clear. destruct a as [[] [] [] [] [] [] [] []]; reflexivity.
Qed.

Lemma parse_str_escape s r : parse_str (escape s +:+ String dq r) = Some (s, r).
Proof.
  induction s as [|a s IH]; [done|]. cbn [escape].
  rewrite <-string_app_assoc. by apply parse_str_escape_char.
Qed.

(** * Spaces *)

Definition all_ws (s : string) : bool := sforall is_json_space s.

Lemma skip_ws_app w s : all_ws w = true → skip_ws (w +:+ s) = skip_ws s.
Proof.
  unfold skip_ws, all_ws. induction w as [|a w IH]; cbn; [done|].
  intros [-> Hw]%andb_true_iff. auto.
Qed.

Lemma skip_ws_stop a s : is_json_space a = false → skip_ws (String a s) = String a s.
Proof. unfold skip_ws. cbn. by intros ->. Qed.

Lemma all_ws_spaces n : all_ws (spaces n) = true.
Proof. unfold all_ws. by induction n. Qed.

Lemma all_ws_newline st n : all_ws (newline st n) = true.
Proof. unfold newline. destruct (indent st); [|done]. unfold all_ws. cbn [sforall]. apply all_ws_spaces. Qed.

Lemma all_ws_ends w a s : all_ws w = true → ends_number (String a s) → ends_number (w +:+ String a s).
Proof.
  destruct w as [|b w]; [done|]. unfold all_ws. cbn. intros [Hb _]%andb_true_iff _.
  revert Hb. clear. by destruct b as [[] [] [] [] [] [] [] []].
Qed.

(** The styles of the program: a comma and a colon, then spaces. *)
Definition wf_style (st : style) : Prop :=
  ∃ w1 w2, item_sep st = String "," w1 ∧ key_sep st = String ":" w2 ∧
           all_ws w1 = true ∧ all_ws w2 = true.

Lemma wf_default : wf_style default_style. Proof. by exists " ", " ". Qed.
Lemma wf_compact : wf_style compact_style. Proof. by exists "", "". Qed.
Lemma wf_indent2 : wf_style indent2_style. Proof. by exists "", " ". Qed.
#[export] Hint Resolve wf_default wf_compact wf_indent2 : catena.

(** * Containers *)

(** A text that [item] reads as [x], whatever ends it, and that starts with
    neither a space nor a closing bracket. *)
Definition reads {A} (item : string → option (A * string)) (t : string) (x : A) : Prop :=
  (∃ a s, t = String a s ∧ is_json_space a = false ∧ a ≠ "]"%char ∧ a ≠ "}"%char) ∧
  ∀ r, ends_number r → item (t +:+ r) = Some (x, r).

Lemma parse_items_join {A} close (item : string → option (A * string)) w1 w2 t x ts xs fuel w r :
  is_json_space close = false → close ≠ ","%char → ends_number (String close r) →
  all_ws w = true → all_ws w1 = true → all_ws w2 = true →
  Forall2 (reads item) (t :: ts) (x :: xs) → (length ts < fuel)%nat →
  parse_items close item fuel (w +:+ sjoin (String "," w1) (t :: ts) +:+ w2 +:+ String close r)
    = Some (x :: xs, r).
Proof.
  intros Hc Hcc Hce Hw Hw1 Hw2. revert t x xs fuel w Hw.
  induction ts as [|t' ts IH]; intros t x xs fuel w Hw Hf Hfuel;
    apply Forall2_cons in Hf as [[(a & s & -> & Ha & _) Hr] Hf];
    (destruct fuel as [|fuel]; [lia|]); cbn [parse_items];
    rewrite skip_ws_app by done.
  - apply Forall2_nil_inv_l in Hf as ->. cbn [sjoin String.concat].
    change (String a s +:+ w2 +:+ ?u) with (String a (s +:+ w2 +:+ u)).
    rewrite skip_ws_stop by done.
    change (String a (s +:+ ?u)) with (String a s +:+ u).
    rewrite Hr by by apply all_ws_ends. cbn.
    rewrite skip_ws_app, skip_ws_stop by done. by rewrite bool_decide_true.
  - destruct xs as [|x' xs]; [by apply Forall2_nil_inv_r in Hf|].
    change (sjoin (String "," w1) (?t :: ?u :: ?l))
      with (t +:+ String "," (w1 +:+ sjoin (String "," w1) (u :: l))).
    rewrite <-!string_app_assoc.
    change (String a s +:+ ?u) with (String a (s +:+ u)).
    rewrite skip_ws_stop by done.
    change (String a (s +:+ ?u)) with (String a s +:+ u).
    rewrite Hr by done. cbn [mbind option_bind String.append].
    rewrite skip_ws_stop by done.
    rewrite bool_decide_false by congruence. rewrite bool_decide_true by done.
    rewrite <-string_app_assoc. rewrite (IH t' x' xs) by (done || (cbn in Hfuel; lia)). done.
Qed.

Lemma reads_length {A} (item : string → option (A * string)) ts xs sep :
  Forall2 (reads item) ts xs → (length ts ≤ String.length (sjoin sep ts))%nat.
Proof.
  revert xs; induction ts as [|t ts IH]; intros xs; [cbn; lia|].
  intros Hf. destruct xs as [|x xs]; [by apply Forall2_nil_inv_r in Hf|].
  apply Forall2_cons in Hf as [[(a & s & -> & _) _] Hf]. specialize (IH _ Hf).
  destruct ts as [|t' ts]; [cbn; lia|].
  change (sjoin sep (?t :: ?u :: ?l)) with (t +:+ sep +:+ sjoin sep (u :: l)).
  rewrite !length_sapp. cbn [length String.length] in *. lia.
Qed.

(** A printed container, read after its opening character. *)
Lemma parse_container_dump {A} st n close (item : string → option (A * string)) ts xs fuel r :
  wf_style st → close = "]"%char ∨ close = "}"%char →
  Forall2 (reads item) ts xs → (length ts < fuel)%nat →
  ∃ u, container st "" (String close "") n ts +:+ r = u ∧
       parse_container close item fuel u = Some (xs, r).
Proof.
  intros (w1 & w2 & Hi & _ & Hw1 & _) Hc Hf Hfuel. eexists; split; [done|].
  assert (Hcs : is_json_space close = false ∧ close ≠ ","%char ∧ ends_number (String close r))
    by (destruct Hc as [-> | ->]; done).
  destruct Hcs as (Hcs & Hcc & Hce).
  unfold parse_container, container. destruct ts as [|t ts].
  { apply Forall2_nil_inv_l in Hf as ->.
    change ((_ +:+ _) +:+ r) with (String close r).
    rewrite skip_ws_stop by done. by rewrite bool_decide_true. }
  destruct xs as [|x xs]; [by apply Forall2_nil_inv_r in Hf|].
  cbn [String.append]. rewrite <-!string_app_assoc.
  unfold dump_items. rewrite Hi. cbn [String.append].
  change (String close "" +:+ r) with (String close r).
  rewrite skip_ws_app by apply all_ws_newline.
  assert (Ht : ∃ a s, sjoin (String "," (w1 +:+ newline st (S n))) (t :: ts) = String a s ∧
                 is_json_space a = false ∧ a ≠ "]"%char ∧ a ≠ "}"%char).
  { pose proof Hf as [[(a & s & -> & ?) _] _]%Forall2_cons.
    destruct ts; cbn; eauto. }
  destruct Ht as (a & s & E & Ha & Hb1 & Hb2). rewrite E at 1.
  cbn [String.append]. rewrite skip_ws_stop by done.
  rewrite bool_decide_false by (destruct Hc; congruence).
  apply parse_items_join; try done.
  - apply all_ws_newline.
  - unfold all_ws. rewrite sforall_app. unfold all_ws in Hw1. rewrite Hw1. apply all_ws_newline.
  - apply all_ws_newline.
  - cbn in Hfuel. lia.
Qed.

(** * Values *)

Lemma length_container_items st n ts o c t :
  t ∈ ts → (String.length t + String.length o + String.length c
            ≤ String.length (container st o c n ts))%nat.
Proof.
  intros Ht. unfold container, dump_items. destruct ts as [|u ts]; [by apply elem_of_nil in Ht|].
  rewrite !length_sapp.
  assert (String.length t ≤ String.length (sjoin (item_sep st +:+ newline st (S n)) (u :: ts)))%nat;
    [|lia].
  revert u Ht; induction ts as [|u' ts IH]; intros u.
  - intros ->%list_elem_of_singleton. done.
  - change (sjoin ?s (u :: u' :: ts)) with (u +:+ s +:+ sjoin s (u' :: ts)).
    rewrite !length_sapp. intros [->|Ht]%elem_of_cons; [lia|]. specialize (IH u' Ht). lia.
Qed.

Lemma depth_le_length st v n : (depth v ≤ String.length (dump st n v))%nat.
Proof.
  revert n. induction v as [| | | |s|l IH|d IH] using val_ind'; intros n; cbn; try lia.
  - rewrite Forall_forall in IH.
    assert (Hl : ∀ x, x ∈ l → (S (depth x) ≤ String.length (container st "[" "]" n (map (dump st (S n)) l)))%nat).
    { intros x Hx. specialize (IH x Hx (S n)).
      pose proof (length_container_items st n (map (dump st (S n)) l) "[" "]" (dump st (S n) x)
        ltac:(by apply list_elem_of_fmap_2)) as H. cbn in H. lia. }
    destruct l as [|x0 l]; [cbn; lia|].
    pose proof (Hl x0 ltac:(by left)). clear IH. revert Hl H. generalize (x0 :: l) as l0.
    intros l0 Hl H0. set (L := String.length _) in *.
    assert (foldr (λ x m, depth x `max` m) 0 l0 < L)%nat; [|lia].
    clearbody L. induction l0 as [|y l0 IH]; cbn; [lia|].
    pose proof (Hl y ltac:(by left)).
    assert (foldr (λ x m, depth x `max` m) 0 l0 < L)%nat by (apply IH; intros; apply Hl; by right). lia.
  - rewrite Forall_forall in IH.
    set (f := λ '(k, v), quote k +:+ key_sep st +:+ dump st (S n) v).
    assert (Hl : ∀ x, x ∈ d → (S (depth x.2) ≤ String.length (container st "{" "}" n (map f d)))%nat).
    { intros [k x] Hx. specialize (IH _ Hx (S n)). cbn in IH.
      pose proof (length_container_items st n (map f d) "{" "}" (f (k, x))
        ltac:(by apply list_elem_of_fmap_2)) as H. cbn [f String.length] in H.
      rewrite !length_sapp in H. cbn [snd]. lia. }
    destruct d as [|x0 d]; [cbn; lia|].
    pose proof (Hl x0 ltac:(by left)). clear IH. revert Hl H. generalize (x0 :: d) as l0.
    intros l0 Hl H0. set (L := String.length _) in *.
    assert (foldr (λ x m, depth x.2 `max` m) 0 l0 < L)%nat; [|lia].
    clearbody L. induction l0 as [|y l0 IH]; cbn; [lia|].
    pose proof (Hl y ltac:(by left)).
    assert (foldr (λ x m, depth x.2 `max` m) 0 l0 < L)%nat by (apply IH; intros; apply Hl; by right). lia.
Qed.

Lemma foldr_max_elem {A} (f : A → nat) x l : x ∈ l → (f x ≤ foldr (λ x m, f x `max` m) 0 l)%nat.
Proof. induction 1; cbn; lia. Qed.

Lemma literal_app w s : literal w (w +:+ s) = Some s.
Proof. induction w as [|a w IH]; cbn; [done|]. by rewrite bool_decide_true. Qed.

(** A number's text starts with a sign or a digit. *)
Lemma reads_digits fuel t v : (∃ a s, t = String a s ∧ is_digit a = true) →
  (∀ r, ends_number r → parse_number false (t +:+ r) = Some (v, r)) → reads (parse_val (S fuel)) t v.
Proof.
  intros (a & s & -> & Ha) H. split.
  { eexists _, _. split; [done|]. revert Ha. clear. by destruct a as [[] [] [] [] [] [] [] []]. }
  intros r Hr. cbn [parse_val String.append]. rewrite !bool_decide_false by (intros ->; discriminate Ha). rewrite Ha. by apply H.
Qed.
Lemma reads_minus fuel t v : (∀ r, ends_number r → parse_number true (t +:+ r) = Some (v, r)) →
  reads (parse_val (S fuel)) (String "-" t) v.
Proof.
  intros H. split; [by eexists _, _|]. intros r Hr. cbn [parse_val String.append].
  rewrite !bool_decide_false, bool_decide_true by done. by rewrite H.
Qed.
Lemma pretty_head (n : N) : ∃ a s, pretty n = String a s ∧ is_digit a = true.
Proof. eapply (scan_number_head false), scan_number_pretty. Qed.
Lemma reads_int fuel z : reads (parse_val (S fuel)) (str_of_int z) (VInt z).
Proof.
  unfold str_of_int. destruct z as [|p|p].
  - apply reads_digits; [apply (pretty_head 0)|]. intros r. apply (parse_number_pretty false 0).
  - apply reads_digits; [apply (pretty_head (N.pos p))|]. intros r. apply (parse_number_pretty false (N.pos p)).
  - apply (reads_minus fuel (pretty (N.pos p))). intros r. apply (parse_number_pretty true (N.pos p)).
Qed.
Lemma reads_finite fuel f : reads_back f = true → scan_signed (float_repr f) = Some (VFloat f, "") →
  reads (parse_val (S fuel)) (float_repr f) (VFloat f).
Proof.
  intros Hb. unfold scan_signed. generalize (float_repr f). intros t H.
  assert (Hpos : scan_number false t = Some (VFloat f, "") → reads (parse_val (S fuel)) t (VFloat f)).
  { intros Hs. apply reads_digits; [by eapply scan_number_head|]. intros r. by apply parse_number_float. }
  destruct t as [|a t]; [by apply Hpos|]. destruct (decide (a = "-"%char)) as [->|Ha].
  - apply reads_minus. intros r. by apply parse_number_float.
  - apply Hpos. revert H. by destruct a as [[] [] [] [] [] [] [] []].
Qed.
Lemma reads_float st n fuel f : reads_back f = true → reads (parse_val (S fuel)) (dump st n (VFloat f)) (VFloat f).
Proof.
  intros Hb. pose proof Hb as Hr. unfold reads_back in Hr.
  destruct f as [s|s| |s m e]; [apply bool_decide_eq_true in Hr; by apply reads_finite|
    destruct s; (split; [by eexists _, _|]; by intros r _)|
    split; [by eexists _, _|]; by intros r _|apply bool_decide_eq_true in Hr; by apply reads_finite].
Qed.

Lemma reads_val st v : wf_style st → wf_val v →
  ∀ n fuel, (depth v < fuel)%nat → reads (parse_val fuel) (dump st n v) v.
Proof.
  intros Hst Hv. induction v as [|[]|z|f|s|l IH|d IH] using val_ind'; intros n fuel Hfuel;
    (destruct fuel as [|fuel]; [lia|]).
  1-3: split; [by eexists _, _|]; by intros r _.
  - apply reads_int.
  - inversion_clear Hv. by apply reads_float.
  - cbn [dump]. unfold quote. split; [by eexists _, _|]. intros r _. cbn [String.append parse_val].
    rewrite bool_decide_true by done. rewrite <-string_app_assoc.
    change (String dq "" +:+ r) with (String dq r). by rewrite parse_str_escape.
  - inversion_clear Hv as [| | | | |? Hl|].
    assert (Hf : Forall2 (reads (parse_val fuel)) (map (dump st (S n)) l) l).
    { apply Forall2_fmap_l, Forall_Forall2_diag, Forall_forall. intros x Hx.
      rewrite Forall_forall in IH, Hl. apply IH; [done|by apply Hl|].
      cbn in Hfuel. pose proof (foldr_max_elem depth x l Hx). lia. }
    split.
    { cbn [dump]. destruct l; by eexists _, _. }
    intros r Hr. cbn [dump].
    assert (E : container st "[" "]" n (map (dump st (S n)) l) +:+ r
                = String "[" (container st "" "]" n (map (dump st (S n)) l) +:+ r)).
    { unfold container. by destruct (map _ _). }
    rewrite E. cbn [parse_val]. rewrite bool_decide_false, bool_decide_true by done.
    destruct (parse_container_dump st n "]" (parse_val fuel) (map (dump st (S n)) l) l
      (String.length (String "[" (container st "" "]" n (map (dump st (S n)) l) +:+ r))) r)
      as (u & <- & Hp); [done|by left|done| |by rewrite Hp].
    unfold container, dump_items. cbn [String.length]. rewrite length_sapp.
    destruct (map _ _) as [|t ts] eqn:Em; [cbn; lia|].
    rewrite !length_sapp. pose proof (reads_length _ _ _ (item_sep st +:+ newline st (S n)) Hf). lia.
  - inversion_clear Hv as [| | | | | |? Hnd Hd].
    set (f := λ '(k, v), quote k +:+ key_sep st +:+ dump st (S n) v).
    assert (Hf : Forall2 (reads (parse_member (parse_val fuel))) (map f d) d).
    { apply Forall2_fmap_l, Forall_Forall2_diag, Forall_forall. intros [k x] Hx.
      rewrite Forall_forall in IH, Hd. specialize (IH _ Hx (Hd _ Hx) (S n) fuel).
      cbn in Hfuel. pose proof (foldr_max_elem (λ kv, depth kv.2) (k, x) d Hx).
      destruct IH as [(a & s & Ea & Ha & _) Hr]; [cbn in *; lia|]. cbn [snd] in *.
      destruct Hst as (w1 & w2 & _ & Hk & _ & Hw2).
      split; [unfold f, quote; by eexists _, _|]. intros r Hrr.
      unfold f, quote, parse_member. cbn [String.append]. rewrite bool_decide_true by done.
      rewrite <-!string_app_assoc. change (String dq "" +:+ ?u) with (String dq u).
      rewrite parse_str_escape. cbn [mbind option_bind]. rewrite Hk. cbn [String.append].
      rewrite skip_ws_stop by done. cbn [literal]. rewrite bool_decide_true by done.
      cbn [mbind option_bind]. rewrite skip_ws_app by done. rewrite Ea. cbn [String.append].
      rewrite skip_ws_stop by done. change (String a (s +:+ r)) with (String a s +:+ r).
      rewrite <-Ea. by rewrite Hr. }
    split.
    { cbn [dump]. destruct d; by eexists _, _. }
    intros r Hr. cbn [dump]. fold f.
    assert (E : container st "{" "}" n (map f d) +:+ r
                = String "{" (container st "" "}" n (map f d) +:+ r)).
    { unfold container. by destruct (map _ _). }
    rewrite E. cbn [parse_val]. rewrite !bool_decide_false, bool_decide_true by done.
    destruct (parse_container_dump st n "}" (parse_member (parse_val fuel)) (map f d) d
      (String.length (String "{" (container st "" "}" n (map f d) +:+ r))) r)
      as (u & <- & Hp); [done|by right|done| |].
    + unfold container, dump_items. cbn [String.length]. rewrite length_sapp.
      destruct (map _ _) as [|t ts] eqn:Em; [cbn; lia|].
      rewrite !length_sapp. pose proof (reads_length _ _ _ (item_sep st +:+ newline st (S n)) Hf). lia.
    + rewrite Hp. cbn. by rewrite dupdate_NoDup.
Qed.

(** What [dumps] prints in a style of the program, [loads] reads back. *)
Lemma loads_dumps st v : wf_style st → wf_val v → loads (dumps st v) = Ok v.
Proof.
  intros Hst Hv. unfold loads, dumps.
  destruct (reads_val st v Hst Hv 0 (S (String.length (dump st 0 v)))) as [(a & s & E & Ha & _) Hr].
  { pose proof (depth_le_length st v 0). lia. }
  assert (Hs : skip_ws (dump st 0 v) = dump st 0 v) by (rewrite E; by apply skip_ws_stop).
  rewrite Hs. specialize (Hr "" eq_refl). rewrite string_app_nil_r in Hr. by rewrite Hr.
Qed.

(** * Key order *)

#[export] Instance item_le_total : Total item_le.
Proof. intros p1 p2. unfold item_le. apply String.le_total. Qed.

Lemma sort_items_Permutation d : sort_items d ≡ₚ d.
Proof. apply merge_sort_Permutation. Qed.

Lemma dget_Permutation {V} k (d1 d2 : dict V) :
  d1 ≡ₚ d2 → NoDup (dkeys d1) → dget k d1 = dget k d2.
Proof.
  intros Hp Hd. apply option_eq. intros v.
  rewrite <-!elem_of_dget by (done || unfold dkeys in *; by rewrite <-Hp). by rewrite Hp.
Qed.

Definition sort_member : string * val → string * val := λ '(k, v), (k, sort_keys v).

Lemma dget_sort_member k d : dget k (map sort_member d) = sort_keys <$> dget k d.
Proof. induction d as [|[k0 v0] d IH]; cbn; [done|]. by case_bool_decide. Qed.

Lemma dkeys_sort_member d : dkeys (map sort_member d) = dkeys d.
Proof. unfold dkeys. induction d as [|[k0 v0] d IH]; cbn; [done|]. by rewrite IH. Qed.

(** What [sort_keys] leaves of a dictionary: the same keys, sorted values. *)
Definition sort_dict (d : dict val) : dict val := sort_items (map sort_member d).

Lemma sort_keys_dict d : sort_keys (VDict d) = VDict (sort_dict d).
Proof. done. Qed.

Lemma NoDup_sort_dict d : NoDup (dkeys d) → NoDup (dkeys (sort_dict d)).
Proof.
  intros Hd. unfold sort_dict, dkeys. rewrite sort_items_Permutation.
  change (NoDup (dkeys (map sort_member d))). by rewrite dkeys_sort_member.
Qed.

Lemma dget_sort_dict k d : NoDup (dkeys d) → dget k (sort_dict d) = sort_keys <$> dget k d.
Proof.
  intros Hd. rewrite <-dget_sort_member. symmetry.
  apply dget_Permutation; [unfold sort_dict; by rewrite sort_items_Permutation|by rewrite dkeys_sort_member].
Qed.

Lemma wf_sort_keys v : wf_val v → wf_val (sort_keys v).
Proof.
  induction v as [| | | | |l IH|d IH] using val_ind'; intros Hv; try done.
  - inversion_clear Hv as [| | | | |? Hl|]. constructor. rewrite Forall_forall in *.
    intros x (y & -> & Hy)%list_elem_of_fmap. auto.
  - inversion_clear Hv as [| | | | | |? Hnd Hd]. rewrite sort_keys_dict. constructor.
    + by apply NoDup_sort_dict.
    + unfold sort_dict. rewrite sort_items_Permutation. rewrite Forall_forall in *.
      intros x ([k y] & -> & Hy)%list_elem_of_fmap. cbn. apply (IH _ Hy), (Hd _ Hy).
Qed.

(** * What [loads] returns is a value Python can hold *)

Lemma parse_items_Forall {A} (P : A → Prop) close (item : string → option (A * string)) fuel s l r :
  (∀ s x r, item s = Some (x, r) → P x) →
  parse_items close item fuel s = Some (l, r) → Forall P l.
Proof.
  intros Hi. revert s l r; induction fuel as [|fuel IH]; intros s l r; cbn; [done|].
  destruct (item (skip_ws s)) as [[x r1]|] eqn:E; cbn; [|done].
  destruct (skip_ws r1) as [|c r2]; [done|].
  case_bool_decide; [intros [= <- <-]; eauto|]. case_bool_decide; [|done].
  destruct (parse_items close item fuel r2) as [[xs r3]|] eqn:E2; cbn; [|done].
  intros [= <- <-]. eauto.
Qed.

Lemma parse_container_Forall {A} (P : A → Prop) close (item : string → option (A * string)) fuel s l r :
  (∀ s x r, item s = Some (x, r) → P x) →
  parse_container close item fuel s = Some (l, r) → Forall P l.
Proof.
  intros Hi. unfold parse_container. destruct (skip_ws s); [done|].
  case_bool_decide; [by intros [= <- <-]|]. by apply parse_items_Forall.
Qed.

Definition wf_member (kv : string * val) : Prop := wf_val kv.2.

Lemma Forall_dset k v (d : dict val) :
  wf_val v → Forall wf_member d → Forall wf_member (dset k v d).
Proof.
  intros Hv. induction d as [|[k0 v0] d IH]; cbn; [by constructor|].
  intros [H0 Hd]%Forall_cons. case_bool_decide; constructor; auto.
Qed.

Lemma wf_dset k v (d : dict val) :
  wf_val v → wf_val (VDict d) → wf_val (VDict (dset k v d)).
Proof.
  intros Hv H. inversion_clear H as [| | | | | |? Hnd Hd].
  constructor; [by apply NoDup_dset|by apply Forall_dset].
Qed.

Lemma wf_ddel k (d : dict val) : wf_val (VDict d) → wf_val (VDict (ddel k d)).
Proof.
  intros H. inversion_clear H as [| | | | | |? Hnd Hd]. constructor; [by apply NoDup_ddel|].
  clear Hnd. induction Hd as [|[k0 v0] d]; cbn; [constructor|].
  case_bool_decide; [done|by constructor].
Qed.

Lemma wf_dupdate (d l : dict val) :
  wf_val (VDict d) → Forall wf_member l → wf_val (VDict (dupdate d l)).
Proof.
  intros Hd Hl. unfold dupdate. apply (foldl_inv (λ d, wf_val (VDict d))); [|done].
  intros d' [k v] Hin Hd'. rewrite Forall_forall in Hl. apply wf_dset; [|done].
  apply (Hl _ Hin).
Qed.

Lemma wf_nil : wf_val (VDict []).
Proof. constructor; [constructor|done]. Qed.

Lemma first_literal_wf ws s v r : Forall (λ wv, wf_val wv.2) ws → first_literal ws s = Some (v, r) → wf_val v.
Proof.
  intros Hw H. unfold first_literal in H. apply head_Some_elem_of, list_elem_of_omap in H as ([w v'] & Hin & H).
  destruct (literal w s); simplify_eq/=. rewrite Forall_forall in Hw. by apply (Hw (w, v)).
Qed.
Lemma wf_parse_val fuel s v r : parse_val fuel s = Some (v, r) → wf_val v.
Proof.
  revert s v r; induction fuel as [|fuel IH]; intros s v r; [done|].
  destruct s as [|a s]; [done|]. cbn [parse_val].
  case_bool_decide.
  { destruct (parse_str s) as [[t r1]|]; cbn; [intros [= <- <-]; constructor|done]. }
  case_bool_decide.
  { destruct (parse_container _ _ _ s) as [[l r1]|] eqn:E; cbn; [|done]. intros [= <- <-].
    constructor. eapply parse_container_Forall; [|done]. eauto. }
  case_bool_decide.
  { destruct (parse_container _ _ _ s) as [[l r1]|] eqn:E; cbn; [|done]. intros [= <- <-].
    apply wf_dupdate; [apply wf_nil|]. eapply parse_container_Forall; [|done].
    intros s1 [k x] r2. unfold parse_member. destruct s1 as [|q s1]; [done|].
    case_bool_decide; [|done]. destruct (parse_str s1) as [[k1 r3]|]; cbn; [|done].
    destruct (skip_ws r3) as [|c r4]; [done|]. case_bool_decide; [|done]. cbn.
    destruct (parse_val fuel (skip_ws r4)) as [[v1 r5]|] eqn:E1; cbn; [|done].
    intros [= <- <- <-]. unfold wf_member. cbn. eauto. }
  case_bool_decide.
  { destruct (parse_number true s) as [[n r1]|] eqn:E; cbn; [intros [= <- <-]; by eapply parse_number_wf|].
    destruct (match s with "" => None | _ => _ end); cbn; [intros [= <- <-]; by constructor|done]. }
  destruct (is_digit a); [apply parse_number_wf|]. apply first_literal_wf. repeat (constructor; [by constructor|]). constructor.
Qed.

Lemma wf_loads s v : loads s = Ok v → wf_val v.
Proof.
  unfold loads. destruct (parse_val _ _) as [[w r]|] eqn:E; [|done].
  case_bool_decide; [|done]. intros [= <-]. by eapply wf_parse_val.
Qed.

Lemma wf_dget k v (d : dict val) : wf_val (VDict d) → dget k d = Some v → wf_val v.
Proof.
  intros H Hk. inversion_clear H as [| | | | | |? Hnd Hd]. rewrite Forall_forall in Hd.
  apply (Hd (k, v)). by apply elem_of_dget.
Qed.

Lemma wf_keys (d : dict val) : wf_val (VDict d) → NoDup (dkeys d).
Proof. by inversion_clear 1. Qed.

(** * Sorting is idempotent *)

Lemma sorted_unique (d1 d2 : dict val) :
  NoDup (dkeys d1) → d1 ≡ₚ d2 → StronglySorted item_le d1 → StronglySorted item_le d2 → d1 = d2.
Proof.
  intros Hnd Hp H1 H2. revert d2 Hp H2. induction H1 as [|[k v] d1 H1 IH Hle]; intros d2 Hp H2.
  { symmetry. by apply Permutation_nil. }
  destruct d2 as [|[k' v'] d2]; [by apply Permutation_nil_r in Hp|].
  inversion_clear H2 as [|? ? H2' Hle'].
  unfold dkeys in *. cbn in Hnd. apply NoDup_cons in Hnd as [Hk Hnd].
  assert ((k, v) = (k', v')) as [= <- <-].
  { assert (Hin : (k, v) ∈ (k', v') :: d2) by (rewrite <-Hp; by left).
    apply elem_of_cons in Hin as [?|Hin]; [done|].
    assert (Hin' : (k', v') ∈ (k, v) :: d1) by (rewrite Hp; by left).
    apply elem_of_cons in Hin' as [?|Hin']; [done|].
    rewrite Forall_forall in Hle, Hle'. pose proof (Hle _ Hin'). pose proof (Hle' _ Hin).
    unfold item_le in *. cbn in *.
    assert (k = k') as <- by (by apply (anti_symm String.le)).
    exfalso. apply Hk. apply list_elem_of_fmap. by exists (k, v'). }
  f_equal. apply IH; [done| |done]. by apply Permutation_cons_inv in Hp.
Qed.

Lemma sort_items_sorted d : StronglySorted item_le (sort_items d).
Proof.
  apply StronglySorted_merge_sort; [|apply _].
  intros p1 p2 p3. unfold item_le. apply (transitivity (R := String.le)).
Qed.

Lemma sort_items_id d : NoDup (dkeys d) → StronglySorted item_le d → sort_items d = d.
Proof.
  intros Hnd Hs. apply sorted_unique; [|by rewrite sort_items_Permutation|apply sort_items_sorted|done].
  unfold dkeys. by rewrite sort_items_Permutation.
Qed.

Lemma sort_member_sorted d :
  StronglySorted item_le d → Forall (λ kv, sort_keys kv.2 = kv.2) d → map sort_member d = d.
Proof.
  intros _ Hd. induction Hd as [|[k v] d Hv Hd IH]; cbn; [done|]. cbn in Hv; by rewrite Hv, IH.
Qed.

Lemma sort_keys_idemp v : wf_val v → sort_keys (sort_keys v) = sort_keys v.
Proof.
  induction v as [| | | | |l IH|d IH] using val_ind'; intros Hv; try done.
  - inversion_clear Hv as [| | | | |? Hl|]. cbn. f_equal. rewrite map_map.
    apply map_ext_in. intros x Hx%list_elem_of_In. rewrite Forall_forall in *. auto.
  - inversion_clear Hv as [| | | | | |? Hnd Hd]. rewrite !sort_keys_dict. f_equal.
    assert (Hf : Forall (λ kv, sort_keys kv.2 = kv.2) (sort_dict d)).
    { unfold sort_dict. rewrite sort_items_Permutation. rewrite Forall_forall in *.
      intros x ([k y] & -> & Hy)%list_elem_of_fmap. cbn. apply (IH _ Hy), (Hd _ Hy). }
    unfold sort_dict at 1.
    rewrite sort_member_sorted by (done || apply sort_items_sorted).
    apply sort_items_id; [by apply NoDup_sort_dict|apply sort_items_sorted].
Qed.

Lemma sort_dict_idemp d : wf_val (VDict d) → sort_dict (sort_dict d) = sort_dict d.
Proof. intros H%sort_keys_idemp. rewrite !sort_keys_dict in H. by injection H. Qed.

#[export] Hint Resolve wf_dset wf_ddel wf_nil wf_sort_keys : catena.
#[export] Hint Constructors wf_val : catena.
