(* ===== verification/Encoding.v ===== *)
(** Random bytes and their text: [os.urandom] as a position in a stream of
    bytes, base64 in both alphabets with its decoder, and hexadecimal. *)
From S2P Require Import Prelude PyStr.

(** * Randomness *)

(** A computation that draws bytes: the stream's position before and after. *)
Definition rnd (A : Type) : Type := nat → A * nat.

#[export] Instance rnd_ret : MRet rnd := λ A a pos, (a, pos).
#[export] Instance rnd_bind : MBind rnd := λ A B f m pos, let '(a, pos) := m pos in f a pos.
#[export] Instance rnd_fmap : FMap rnd := λ A B f m pos, let '(a, pos) := m pos in (f a, pos).

Section rand.
Context (rand : nat → ascii).

(** The [n] bytes of the stream from [pos]. *)
Fixpoint rand_bytes (n pos : nat) : string :=
  match n with 0 => "" | S n => String (rand pos) (rand_bytes n (S pos)) end.

(** [os.urandom(n)] *)
Definition urandom (n : nat) : rnd string := λ pos, (rand_bytes n pos, pos + n).

Lemma length_rand_bytes n pos : String.length (rand_bytes n pos) = n.
Proof. revert pos; induction n; intros; cbn; auto. Qed.
End rand.

(** * Base64 *)

Definition std_char (n : N) : ascii :=
  ascii_of_N (if (n <? 26)%N then 65 + n
              else if (n <? 52)%N then 71 + n
              else if (n <? 62)%N then n - 4
              else if (n =? 62)%N then 43 else 47).
Definition url_char (n : N) : ascii :=
  ascii_of_N (if (n <? 26)%N then 65 + n
              else if (n <? 52)%N then 71 + n
              else if (n <? 62)%N then n - 4
              else if (n =? 62)%N then 45 else 95).

(** A URL-safe character's six bits. *)
Definition url_val (a : ascii) : option N :=
  if is_upper a then Some (code a - 65)%N
  else if is_lower a then Some (code a - 71)%N
  else if is_digit a then Some (code a + 4)%N
  else if (code a =? 45)%N then Some 62%N
  else if (code a =? 95)%N then Some 63%N
  else None.

Section b64.
Context (alpha : N → ascii) (pad : bool).

(** Each three bytes as four characters, padded with [=] or not. *)
Fixpoint b64 (s : string) : string :=
  match s with
  | EmptyString => ""
  | String a EmptyString =>
      let n := (code a * 16)%N in
      String (alpha (n / 64)) (String (alpha (n mod 64)) (if pad then "==" else ""))
  | String a (String b EmptyString) =>
      let n := ((code a * 256 + code b) * 4)%N in
      String (alpha (n / 4096)) (String (alpha (n / 64 mod 64))
        (String (alpha (n mod 64)) (if pad then "=" else "")))
  | String a (String b (String c s)) =>
      let n := (code a * 65536 + code b * 256 + code c)%N in
      String (alpha (n / 262144)) (String (alpha (n / 4096 mod 64))
        (String (alpha (n / 64 mod 64)) (String (alpha (n mod 64)) (b64 s))))
  end.
End b64.

(** [base64.b64encode] and [base64.urlsafe_b64encode] *)
Definition b64encode : string → string := b64 std_char true.
Definition urlsafe_b64encode : string → string := b64 url_char true.

(** URL-safe base64 without padding, read back. *)
Fixpoint raw_url_decode (s : string) : option string :=
  match s with
  | EmptyString => Some ""
  | String a (String b EmptyString) =>
      x ← url_val a; y ← url_val b;
      Some (String (ascii_of_N ((x * 64 + y) / 16)) "")
  | String a (String b (String c EmptyString)) =>
      x ← url_val a; y ← url_val b; z ← url_val c;
      let n := ((x * 64 + y) * 64 + z)%N in
      Some (String (ascii_of_N (n / 1024)) (String (ascii_of_N (n / 4 mod 256)) ""))
  | String a (String b (String c (String d s))) =>
      x ← url_val a; y ← url_val b; z ← url_val c; w ← url_val d;
      r ← raw_url_decode s;
      let n := (((x * 64 + y) * 64 + z) * 64 + w)%N in
      Some (String (ascii_of_N (n / 65536)) (String (ascii_of_N (n / 256 mod 256))
             (String (ascii_of_N (n mod 256)) r)))
  | _ => None
  end.

(** * Hexadecimal *)

Definition hex_nibble (n : N) : ascii := ascii_of_N (if (n <? 10)%N then 48 + n else 87 + n).
Fixpoint hex (s : string) : string :=
  match s with
  | EmptyString => ""
  | String a s => String (hex_nibble (code a / 16)) (String (hex_nibble (code a mod 16)) (hex s))
  end.

(** [secrets.token_hex(n)] and [secrets.token_urlsafe(n)] *)
Definition token_hex (rand : nat → ascii) (n : nat) : rnd string := hex <$> urandom rand n.
Definition token_urlsafe (rand : nat → ascii) (n : nat) : rnd string :=
  (λ b, rstrip_char "=" (urlsafe_b64encode b)) <$> urandom rand n.

(** * Lemmas *)

Lemma code_of_N n : (n < 256)%N → code (ascii_of_N n) = n.
Proof. apply N_ascii_embedding. Qed.
Lemma of_N_code a : ascii_of_N (code a) = a.
Proof. apply ascii_N_embedding. Qed.
Lemma code_bound a : (code a < 256)%N.
Proof. apply N_ascii_bounded. Qed.

(** A property of the numbers below 64, checked for each. *)
Definition below64 (p : N → bool) : bool := forallb p (map N.of_nat (seq 0 64)).
Lemma below64_spec p n : below64 p = true → (n < 64)%N → p n = true.
Proof.
  unfold below64. rewrite forallb_forall. intros H Hn. apply H, in_map_iff.
  exists (N.to_nat n). rewrite in_seq. split; lia.
Qed.

Definition is_url_char (a : ascii) : bool := is_alnum a || is_char "-" a || is_char "_" a.
Definition is_std_char (a : ascii) : bool := is_alnum a || is_char "+" a || is_char "/" a.
Definition is_hex_char (a : ascii) : bool := is_digit a || code_in 97 102 a.

Lemma url_char_ok n : (n < 64)%N → is_url_char (url_char n) = true.
Proof. apply (below64_spec (λ n, is_url_char (url_char n))). by vm_compute. Qed.
Lemma std_char_ok n : (n < 64)%N → is_std_char (std_char n) = true.
Proof. apply (below64_spec (λ n, is_std_char (std_char n))). by vm_compute. Qed.
Lemma url_val_char n : (n < 64)%N → url_val (url_char n) = Some n.
Proof.
  intros Hn. pose proof (below64_spec (λ n, bool_decide (url_val (url_char n) = Some n)) n) as H.
  rewrite bool_decide_eq_true in H. apply H; [by vm_compute|done].
Qed.
Lemma hex_nibble_ok n : (n < 16)%N → is_hex_char (hex_nibble n) = true.
Proof.
  intros Hn.
  pose proof (below64_spec (λ n, negb (n <? 16)%N || is_hex_char (hex_nibble n)) n) as H.
  cbn beta in H. rewrite (proj2 (N.ltb_lt n 16) Hn) in H. apply H; [by vm_compute|lia].
Qed.

Lemma string_cons_eq a b s t : a = b → s = t → String a s = String b t.
Proof. congruence. Qed.

(** Induction by three characters. *)
Lemma string_ind3 (P : string → Prop) :
  P "" → (∀ a, P (String a "")) → (∀ a b, P (String a (String b ""))) →
  (∀ a b c s, P s → P (String a (String b (String c s)))) → ∀ s, P s.
Proof.
  intros H0 H1 H2 H3. fix IH 1. intros [|a [|b [|c s]]]; [done|done|done|].
  apply H3, IH.
Qed.

Ltac byte_bounds :=
  repeat match goal with
  | a : ascii |- _ =>
      lazymatch goal with H : (code a < 256)%N |- _ => fail | _ => pose proof (code_bound a) end
  end.
#[local] Ltac Zify.zify_post_hook ::= Z.to_euclidean_division_equations.
Ltac six := (apply N.mod_lt; lia) || (apply N.Div0.div_lt_upper_bound; lia) || lia.

Ltac bytes_eq := lazymatch goal with
  | |- ascii_of_N _ = ?a => trans (ascii_of_N (code a)); [f_equal; lia|apply of_N_code]
  end.

(** What an alphabet's characters satisfy, the text without padding does. *)
Lemma b64_forall (p : ascii → bool) alpha s :
  (∀ n, (n < 64)%N → p (alpha n) = true) → sforall p (b64 alpha false s) = true.
Proof.
  intros Hp. induction s as [|a|a b|a b c s IH] using string_ind3; cbn [b64 sforall]; [done|..];
    byte_bounds; rewrite !Hp by six; done.
Qed.
Lemma b64_pad alpha s : ∃ w, b64 alpha true s = b64 alpha false s +:+ w ∧ sforall (is_char "=") w = true.
Proof.
  induction s as [|a|a b|a b c s (w & IH & Hw)] using string_ind3; cbn [b64].
  - by exists "".
  - by exists "==".
  - by exists "=".
  - exists w. by rewrite IH.
Qed.
Lemma rstrip_b64 alpha s :
  (∀ n, (n < 64)%N → is_char "=" (alpha n) = false) → rstrip_char "=" (b64 alpha true s) = b64 alpha false s.
Proof.
  intros Hn. destruct (b64_pad alpha s) as (w & -> & Hw). apply rstrip_of_app; [done|].
  apply b64_forall. intros n Hlt. by rewrite Hn.
Qed.

Lemma b64_url_forall s : sforall is_url_char (b64 url_char false s) = true.
Proof. apply b64_forall, url_char_ok. Qed.

Lemma raw_url_decode_b64 s : raw_url_decode (b64 url_char false s) = Some s.
Proof.
  induction s as [|a|a b|a b c s IH] using string_ind3; cbn [b64 raw_url_decode]; [done|..];
    byte_bounds; rewrite !url_val_char by six; cbn [mbind option_bind]; rewrite ?IH;
    cbn [mbind option_bind]; f_equal; repeat (apply string_cons_eq; [bytes_eq|]); done.
Qed.

Lemma is_char_spec c a : is_char c a = true ↔ c = a.
Proof. unfold is_char. apply bool_decide_eq_true. Qed.

Lemma is_url_char_not c a :
  is_url_char c = false → is_url_char a = true → is_char c a = false.
Proof.
  intros Hc Ha. destruct (is_char c a) eqn:E; [|done].
  apply is_char_spec in E as <-. congruence.
Qed.

Lemma rstrip_urlsafe s : rstrip_char "=" (urlsafe_b64encode s) = b64 url_char false s.
Proof. apply rstrip_b64. intros n Hn. apply is_url_char_not; [done|by apply url_char_ok]. Qed.

Lemma length_b64_pad alpha s n :
  String.length s = 3 * n → String.length (b64 alpha true s) = 4 * n.
Proof.
  revert n. induction s as [|a|a b|a b c s IH] using string_ind3; intros n; cbn; try lia.
  intros Hl. destruct n as [|n]; [lia|]. rewrite (IH n); lia.
Qed.

Lemma length_b64_nopad alpha s n :
  String.length s = 3 * n → String.length (b64 alpha false s) = 4 * n.
Proof.
  revert n. induction s as [|a|a b|a b c s IH] using string_ind3; intros n; cbn; try lia.
  intros Hl. destruct n as [|n]; [lia|]. rewrite (IH n); lia.
Qed.

Lemma length_b64_nopad2 alpha s n :
  String.length s = 3 * n + 2 → String.length (b64 alpha false s) = 4 * n + 3.
Proof.
  revert n. induction s as [|a|a b|a b c s IH] using string_ind3; intros n; cbn; try lia.
  intros Hl. destruct n as [|n]; [lia|]. rewrite (IH n); lia.
Qed.

Lemma b64_std_forall s n :
  String.length s = 3 * n → sforall is_std_char (b64 std_char true s) = true.
Proof.
  revert n. induction s as [|a|a b|a b c s IH] using string_ind3; intros n Hl;
    cbn [b64 sforall]; try (cbn in Hl; lia).
  destruct n as [|n]; [cbn in Hl; lia|]. byte_bounds. rewrite !std_char_ok by six.
  apply (IH n). cbn in Hl. lia.
Qed.

Lemma length_hex s : String.length (hex s) = 2 * String.length s.
Proof. induction s as [|a s IH]; cbn; [done|]. rewrite IH. lia. Qed.

Lemma hex_forall s : sforall is_hex_char (hex s) = true.
Proof.
  induction s as [|a s IH]; cbn; [done|]. byte_bounds. rewrite !hex_nibble_ok by six. done.
Qed.

(** A non-empty text of these alphabets is never blank. *)
Lemma is_url_char_not_space a : is_url_char a = true → is_space a = false.
Proof. by destruct a as [[] [] [] [] [] [] [] []]; vm_compute. Qed.
Lemma is_std_char_not_space a : is_std_char a = true → is_space a = false.
Proof. by destruct a as [[] [] [] [] [] [] [] []]; vm_compute. Qed.
Lemma is_hex_char_not_space a : is_hex_char a = true → is_space a = false.
Proof. by destruct a as [[] [] [] [] [] [] [] []]; vm_compute. Qed.
