(* ===== verification/Sha256.v ===== *)
(** [hashlib.sha256] (FIPS 180-4) on strings of bytes, [str.encode] and the
    hexadecimal digest. *)
From S2P Require Import Prelude PyStr Encoding.

#[local] Open Scope N_scope.

(** * 32-bit words *)

Definition w32 (n : N) : N := N.land n 4294967295.
Definition add32 (a b : N) : N := w32 (a + b).
Definition rotr (k n : N) : N := N.lor (N.shiftr n k) (w32 (N.shiftl n (32 - k))).
Definition not32 (n : N) : N := N.lxor n 4294967295.

Definition ch (x y z : N) : N := N.lxor (N.land x y) (N.land (not32 x) z).
Definition maj (x y z : N) : N := N.lxor (N.lxor (N.land x y) (N.land x z)) (N.land y z).
Definition big0 (x : N) : N := N.lxor (N.lxor (rotr 2 x) (rotr 13 x)) (rotr 22 x).
Definition big1 (x : N) : N := N.lxor (N.lxor (rotr 6 x) (rotr 11 x)) (rotr 25 x).
Definition small0 (x : N) : N := N.lxor (N.lxor (rotr 7 x) (rotr 18 x)) (N.shiftr x 3).
Definition small1 (x : N) : N := N.lxor (N.lxor (rotr 17 x) (rotr 19 x)) (N.shiftr x 10).

Definition round_constants : list N := [
  1116352408; 1899447441; 3049323471; 3921009573; 961987163; 1508970993; 2453635748; 2870763221;
  3624381080; 310598401; 607225278; 1426881987; 1925078388; 2162078206; 2614888103; 3248222580;
  3835390401; 4022224774; 264347078; 604807628; 770255983; 1249150122; 1555081692; 1996064986;
  2554220882; 2821834349; 2952996808; 3210313671; 3336571891; 3584528711; 113926993; 338241895;
  666307205; 773529912; 1294757372; 1396182291; 1695183700; 1986661051; 2177026350; 2456956037;
  2730485921; 2820302411; 3259730800; 3345764771; 3516065817; 3600352804; 4094571909; 275423344;
  430227734; 506948616; 659060556; 883997877; 958139571; 1322822218; 1537002063; 1747873779;
  1955562222; 2024104815; 2227730452; 2361852424; 2428436474; 2756734187; 3204031479; 3329325298].

Definition initial_state : list N := [
  1779033703; 3144134277; 1013904242; 2773480762; 1359893119; 2600822924; 528734635; 1541459225].

(** * The schedule and the rounds *)

(** The 64 words of a block, latest first, from its 16. *)
Fixpoint extend (n : nat) (ws : list N) : list N :=
  match n with
  | O => ws
  | S n =>
      let w := add32 (add32 (small1 (nth 1 ws 0)) (nth 6 ws 0)) (add32 (small0 (nth 14 ws 0)) (nth 15 ws 0)) in
      extend n (w :: ws)
  end.
Definition schedule (block : list N) : list N := rev (extend 48 (rev block)).

Definition round (st : list N) (kw : N * N) : list N :=
  match st with
  | [a; b; c; d; e; f; g; h] =>
      let t1 := add32 (add32 h (big1 e)) (add32 (ch e f g) (add32 kw.1 kw.2)) in
      let t2 := add32 (big0 a) (maj a b c) in
      [add32 t1 t2; a; b; c; add32 d t1; e; f; g]
  | _ => st
  end.

Definition compress (st block : list N) : list N :=
  zip_with add32 st (foldl round st (zip round_constants (schedule block))).

(** * Padding *)

(** The big-endian words of a list of bytes. *)
Fixpoint words_of (bytes : list N) : list N :=
  match bytes with
  | a :: b :: c :: d :: r => (((a * 256 + b) * 256 + c) * 256 + d) :: words_of r
  | _ => []
  end.

Fixpoint be_bytes (n : nat) (v : N) : list N :=
  match n with O => [] | S n => be_bytes n (v / 256) ++ [v mod 256] end.

Definition padded (bytes : list N) : list N :=
  let len := length bytes in
  let zeros := Nat.modulo (119 - Nat.modulo len 64) 64 in
  bytes ++ [128] ++ repeat 0 zeros ++ be_bytes 8 (8 * N.of_nat len).

Fixpoint blocks (n : nat) (ws : list N) : list (list N) :=
  match n with O => [] | S n => firstn 16 ws :: blocks n (skipn 16 ws) end.

Definition digest (bytes : list N) : list N :=
  let ws := words_of (padded bytes) in
  foldl compress initial_state (blocks (Nat.div (length ws) 16) ws).

(** [hashlib.sha256(bytes).hexdigest()] *)
Definition string_of_bytes (l : list N) : string :=
  foldr (λ n s, String (ascii_of_N n) s) EmptyString l.
Definition sha256_hex (s : string) : string :=
  hex (string_of_bytes (flat_map (be_bytes 4) (digest (ascii_list s)))).

(** [s.encode("utf-8")] *)
Fixpoint utf8 (s : string) : string :=
  match s with
  | EmptyString => EmptyString
  | String a s =>
      if code a <? 128 then String a (utf8 s)
      else String (ascii_of_N (192 + code a / 64)) (String (ascii_of_N (128 + code a mod 64)) (utf8 s))
  end.

(** * Test vectors of FIPS 180-4 *)

Example sha256_abc :
  sha256_hex "abc" = "ba7816bf8f01cfea414140de5dae2223b00361a396177a9cb410ff61f20015ad"%string.
Proof. vm_compute. reflexivity. Qed.
Example sha256_empty :
  sha256_hex "" = "e3b0c44298fc1c149afbf4c8996fb92427ae41e4649b934ca495991b7852b855"%string.
Proof. vm_compute. reflexivity. Qed.
Example sha256_two_blocks :
  sha256_hex "abcdbcdecdefdefgefghfghighijhijkijkljklmklmnlmnomnopnopq"
  = "248d6a61d20638b8e5c026930c3e6039a33ce45964ff2167f6ecedd419db06c1"%string.
Proof. vm_compute. reflexivity. Qed.

(** * The digest's text: 64 hexadecimal characters *)

Lemma length_zip_with_8 {A B C} (f : A → B → C) l1 l2 :
  length l1 = 8%nat → length l2 = 8%nat → length (zip_with f l1 l2) = 8%nat.
Proof. intros H1 H2. rewrite length_zip_with, H1, H2. done. Qed.

Lemma length_round st kw : length st = 8%nat → length (round st kw) = 8%nat.
Proof. by destruct st as [|? [|? [|? [|? [|? [|? [|? [|? []]]]]]]]]. Qed.

Lemma length_compress st block : length st = 8%nat → length (compress st block) = 8%nat.
Proof.
  intros H. unfold compress. apply length_zip_with_8; [done|].
  apply (foldl_inv (λ st, length st = 8%nat)); [|done]. intros; by apply length_round.
Qed.

Lemma length_digest bytes : length (digest bytes) = 8%nat.
Proof.
  unfold digest. apply (foldl_inv (λ st, length st = 8%nat)); [|done].
  intros; by apply length_compress.
Qed.

Lemma length_string_of_bytes l : String.length (string_of_bytes l) = length l.
Proof. induction l; cbn; auto. Qed.

Lemma length_sha256_hex s : String.length (sha256_hex s) = 64%nat.
Proof.
  unfold sha256_hex. rewrite length_hex, length_string_of_bytes.
  pose proof (length_digest (ascii_list s)) as H. revert H. generalize (digest (ascii_list s)).
  intros l Hl. by destruct l as [|? [|? [|? [|? [|? [|? [|? [|? []]]]]]]]].
Qed.

Lemma sha256_hex_chars s : sforall is_hex_char (sha256_hex s) = true.
Proof. apply hex_forall. Qed.
