(* ===== verification/TreeHash.v ===== *)
(** [ansible/helpers/tree_hash.py]: the hash a catena-ce tree is named by.  Git
    and the files of the tree are outside: what [git ls-files] and
    [git describe] print, which paths are there, their bytes, and the text of
    [VENDOR.json] in a tree staged out of an image. *)
From S2P Require Import Prelude PyStr PyNum PyVal Json JsonFacts Encoding Sha256.

#[local] Open Scope string_scope.

Definition SHIPPED : string := "ansible".
Definition NOT_SHIPPED : string := "ansible/tests/".
Definition RECORD : string := "VENDOR.json".
Definition zero : ascii := "000".

(** [ls_files] asks for [SHIPPED] and separates the paths by NUL; [record] is
    what reading [RECORD] gives. *)
Record tree := { has_git : bool; ls_files : res string; describe : Z * string; there : string → bool; bytes_of : string → res string;
  record : res string }.

Definition is_shipped (t : tree) (p : string) : bool :=
  negb (bool_decide (p = "")) && negb (startswith p NOT_SHIPPED) && there t p.
Definition shipped_files (t : tree) : res (list string) :=
  out ← ls_files t; Ok (sorted_str (List.filter (is_shipped t) (split zero out))).

(** The files hashed, with their bytes, in the order of their paths. *)
Definition entries (t : tree) (paths : list string) : res (list (string * string)) :=
  mapM_res (λ rel, data ← bytes_of t rel; Ok (rel, data)) (sorted_str paths).
Definition line_of (e : string * string) : string := e.1 +:+ String zero (sha256_hex e.2 +:+ newline_str).
Definition manifest (l : list (string * string)) : string := foldr (λ e text, line_of e +:+ text) "" l.
Definition content_hash (t : tree) (paths : list string) : res string :=
  l ← entries t paths; Ok (sha256_hex (utf8 (manifest l))).

(** [_describe] *)
Definition describe_of (t : tree) : string := if bool_decide ((describe t).1 = 0%Z) then strip (describe t).2 else "".
Definition identify (t : tree) : res (dict val) :=
  if has_git t then
    paths ← shipped_files t; hash ← content_hash t paths;
    Ok [("tree_sha256", VStr hash); ("describe", VStr (describe_of t))]
  else
    text ← record t; doc ← loads text;
    hash ← attr_get "tree_sha256" doc; version ← attr_get "describe" doc;
    Ok [("tree_sha256", VStr (py_str (val_or hash (VStr "")))); ("describe", VStr (py_str (val_or version (VStr ""))))].

(** [main]: the code and what is printed. *)
Inductive mode := Both | Sha256Alone | Files.
Definition shown (m : mode) (t : tree) : res string :=
  match m with
  | Files => l ← shipped_files t; Ok (foldr (λ p text, p +:+ String zero text) "" l)
  | Sha256Alone => d ← identify t; Ok (py_str (vget "tree_sha256" d) +:+ newline_str)
  | Both => d ← identify t; Ok (dumps default_style (VDict d) +:+ newline_str)
  end.
Definition main (m : mode) (t : tree) : res (Z * string) :=
  match shown m t with
  | Ok text => Ok (0%Z, text)
  | Raise e => if bool_decide (e ∈ [OSError; ValueError; CalledProcessError]) then Ok (1%Z, "") else Raise e
  end.

(** What an image ships of a tree: its paths and their bytes. *)
Definition shipped (t : tree) : res (list (string * string)) := paths ← shipped_files t; entries t paths.

(** * What the hash tells *)

Lemma utf8_lead c : (code (ascii_of_N (192 + code c / 64)) = 192 + code c / 64)%N.
Proof. apply code_of_N. pose proof (code_bound c). assert (code c / 64 < 4)%N by (apply N.Div0.div_lt_upper_bound; lia). lia. Qed.
Lemma utf8_trail c : (code (ascii_of_N (128 + code c mod 64)) = 128 + code c mod 64)%N.
Proof. apply code_of_N. assert (code c mod 64 < 64)%N by by apply N.mod_lt. lia. Qed.
Lemma utf8_inj a b : utf8 a = utf8 b → a = b.
Proof.
  revert b. induction a as [|x a IH]; intros [|y b] H; [done|..]; cbn in H.
  1-2: by destruct (code _ <? 128)%N.
  destruct (N.ltb_spec (code x) 128) as [Hx|Hx], (N.ltb_spec (code y) 128) as [Hy|Hy]; injection H as Hh H;
    try rename H0 into H'.
  - subst. f_equal. auto.
  - apply (f_equal code) in Hh. rewrite utf8_lead in Hh. pose proof (N.le_0_l (code y / 64)). lia.
  - apply (f_equal code) in Hh. rewrite utf8_lead in Hh. pose proof (N.le_0_l (code x / 64)). lia.
  - rename H into Hm, H' into H. apply (f_equal code) in Hh, Hm. rewrite !utf8_lead in Hh. rewrite !utf8_trail in Hm.
    pose proof (N.div_mod' (code x) 64). pose proof (N.div_mod' (code y) 64).
    assert (code x = code y) as Hc by lia. apply (f_equal ascii_of_N) in Hc. rewrite !of_N_code in Hc. subst. f_equal. auto.
Qed.

(** A line is cut from the next at the NUL and at the length of a digest. *)
Lemma line_inj e1 e2 t1 t2 : has_char zero e1.1 = false → has_char zero e2.1 = false →
  line_of e1 +:+ t1 = line_of e2 +:+ t2 → e1.1 = e2.1 ∧ sha256_hex e1.2 = sha256_hex e2.2 ∧ t1 = t2.
Proof.
  unfold line_of. intros H1 H2 H. rewrite <-!string_app_assoc in H. cbn [String.append] in H.
  pose proof (f_equal (partition zero) H) as Hp. rewrite !partition_app in Hp by done. injection Hp as Hp Hr.
  rewrite <-!string_app_assoc in Hr. pose proof Hr as Hh. apply length_eq_app in Hh; [|by rewrite !length_sha256_hex].
  rewrite Hh in Hr. apply sapp_inj in Hr. by injection Hr as ->.
Qed.
Lemma manifest_inj l1 l2 : (∀ e, e ∈ l1 ++ l2 → has_char zero e.1 = false)%list → manifest l1 = manifest l2 →
  Forall2 (λ e1 e2, e1.1 = e2.1 ∧ sha256_hex e1.2 = sha256_hex e2.2) l1 l2.
Proof.
  revert l2. induction l1 as [|e1 l1 IH]; intros [|e2 l2] Hz H; cbn in H; [constructor| | |].
  - exfalso. unfold line_of in H. destruct e2 as [[|] ?]; discriminate H.
  - exfalso. unfold line_of in H. destruct e1 as [[|] ?]; discriminate H.
  - apply line_inj in H as (Hp & Hs & H); [|apply Hz; set_solver..]. constructor; [done|]. apply IH; [|done].
    intros e He. apply Hz. set_solver.
Qed.

(** The paths git separates by NUL hold none. *)
Lemma split_free c s w : w ∈ split c s → has_char c w = false.
Proof.
  revert w. induction s as [|a s IH]; cbn [split]; intros w Hw; [by apply list_elem_of_singleton in Hw as ->|].
  case_bool_decide as Ha; [apply elem_of_cons in Hw as [->|Hw]; [done|by apply IH]|].
  destruct (split c s) as [|w0 ws]; [apply list_elem_of_singleton in Hw as ->|apply elem_of_cons in Hw as [->|Hw]].
  - unfold has_char, sexists, is_char. cbn. by rewrite bool_decide_false.
  - specialize (IH w0 ltac:(by left)). unfold has_char, sexists, is_char in *. cbn. rewrite bool_decide_false by done. by cbn.
  - apply IH. by right.
Qed.
Lemma shipped_free t l e : shipped t = Ok l → e ∈ l → has_char zero e.1 = false.
Proof.
  unfold shipped, shipped_files. destruct (ls_files t) as [out|x]; [|done]. cbn. intros H He.
  apply (mapM_res_elem _ _ _ _ H) in He as (p & Hp & Hx). destruct (bytes_of t p); [|done]. injection Hx as <-. cbn.
  rewrite !elem_of_sorted_str in Hp. apply list_elem_of_In, filter_In in Hp as [Hp _]. by apply list_elem_of_In, split_free in Hp.
Qed.

Definition hashed (l : list (string * string)) : list string := utf8 (manifest l) :: map snd l.
Lemma identify_git t d l : has_git t = true → identify t = Ok d → shipped t = Ok l →
  d = [("tree_sha256", VStr (sha256_hex (utf8 (manifest l)))); ("describe", VStr (describe_of t))].
Proof.
  unfold identify, shipped, content_hash. intros ->. destruct (shipped_files t) as [paths|x]; [|done]. cbn.
  intros H Hl. rewrite Hl in H. cbn [res_bind mbind] in H. by injection H.
Qed.
Lemma shipped_same (l1 l2 : list (string * string)) : Forall2 (λ e1 e2, e1.1 = e2.1 ∧ sha256_hex e1.2 = sha256_hex e2.2) l1 l2 →
  (∀ a b, a ∈ map snd l1 → b ∈ map snd l2 → sha256_hex a = sha256_hex b → a = b) → l1 = l2.
Proof.
  induction 1 as [|[p1 b1] [p2 b2] l1 l2 [Hp Hs] _ IH]; intros Hab; [done|]. cbn in Hp, Hs. subst p2.
  rewrite (Hab b1 b2); [|by left..|done]. f_equal. apply IH. intros a b Ha Hb. apply Hab; by right.
Qed.
Lemma staged_named t st d hash version : wf_style st → has_git t = false →
  d = [("tree_sha256", VStr hash); ("describe", VStr version)] → record t = Ok (dumps st (VDict d)) → identify t = Ok d.
Proof.
  intros Hst Hg -> Hr. unfold identify. rewrite Hg, Hr. cbn [mbind res_bind]. rewrite loads_dumps; [|done|repeat constructor; set_solver].
  cbn. unfold str_or, val_or. cbn. by destruct hash, version.
Qed.

(** Claim C26: as far as SHA-256 tells apart the texts it is given, two
    checkouts are named by the same hash exactly when they ship the same
    paths with the same bytes; and a tree staged out of an image, with what
    was recorded of a checkout beside it, is named as that checkout. *)
Theorem tree_hash_names t1 t2 d1 d2 l1 l2 :
  has_git t1 = true → has_git t2 = true → identify t1 = Ok d1 → identify t2 = Ok d2 → shipped t1 = Ok l1 → shipped t2 = Ok l2 →
  (∀ a b, a ∈ hashed l1 → b ∈ hashed l2 → sha256_hex a = sha256_hex b → a = b) →
  (vget "tree_sha256" d1 = vget "tree_sha256" d2 ↔ l1 = l2)
  ∧ ∀ t3 st, wf_style st → has_git t3 = false → record t3 = Ok (dumps st (VDict d1)) → identify t3 = Ok d1.
Proof.
  intros G1 G2 I1 I2 S1 S2 Hab. pose proof (identify_git _ _ _ G1 I1 S1) as E1. pose proof (identify_git _ _ _ G2 I2 S2) as E2.
  split; [|intros t3 st Hst Hg; by eapply staged_named]. rewrite E1, E2. cbn [vget dget]. split; [|by intros ->].
  change ((VStr (sha256_hex (utf8 (manifest l1)))) = VStr (sha256_hex (utf8 (manifest l2))) → l1 = l2). intros [= H].
  apply (Hab (utf8 _) (utf8 _)) in H; [|by left..]. apply utf8_inj, manifest_inj in H.
  - apply shipped_same; [done|]. intros a b Ha Hb. apply Hab; by right.
  - intros e [He|He]%elem_of_app; [exact (shipped_free t1 l1 e S1 He)|exact (shipped_free t2 l2 e S2 He)].
Qed.

(** ** A sample *)

Definition sample (files : list (string * string)) : tree := {|
  has_git := true; ls_files := Ok (foldr (λ e text, e.1 +:+ String zero text) "" files); describe := (0%Z, "v1.2.3" +:+ newline_str);
  there p := bool_decide (p ∈ map fst files);
  bytes_of p := match dget p files with Some b => Ok b | None => Raise OSError end; record := Raise OSError |}.
Definition tree_a : tree := sample [("ansible/seed.py", "import os"); ("ansible/tests/t.py", "x"); ("ansible/a.yml", "- a")].
Definition tree_b : tree := sample [("ansible/a.yml", "- a"); ("ansible/seed.py", "import sys")].
Example shipped_a : shipped tree_a = Ok [("ansible/a.yml", "- a"); ("ansible/seed.py", "import os")].
Proof. by vm_compute. Qed.

Definition apart (l1 l2 : list (string * string)) : Prop :=
  Forall (λ a, Forall (λ b, sha256_hex a = sha256_hex b → a = b) (hashed l2)) (hashed l1).
#[export] Instance apart_dec l1 l2 : Decision (apart l1 l2).
Proof. unfold apart. apply _. Defined.
Lemma apart_hashed l1 l2 : apart l1 l2 → ∀ a b, a ∈ hashed l1 → b ∈ hashed l2 → sha256_hex a = sha256_hex b → a = b.
Proof. unfold apart. rewrite Forall_forall. intros H a b Ha Hb. specialize (H a Ha). rewrite Forall_forall in H. by apply H. Qed.
Lemma tree_hash_names_witness :
  match identify tree_a, identify tree_b with Ok d1, Ok d2 => vget "tree_sha256" d1 ≠ vget "tree_sha256" d2 | _, _ => False end.
Proof.
  destruct (identify tree_a) as [d1|x] eqn:E1; [|vm_compute in E1; discriminate E1].
  destruct (identify tree_b) as [d2|x] eqn:E2; [|vm_compute in E2; discriminate E2].
  intros H. assert (Hs : [("ansible/a.yml", "- a"); ("ansible/seed.py", "import os")] = [("ansible/a.yml", "- a"); ("ansible/seed.py", "import sys")]).
  { apply (tree_hash_names tree_a tree_b d1 d2 _ _ eq_refl eq_refl E1 E2); [by vm_compute|by vm_compute| |exact H].
    apply apart_hashed, (bool_decide_unpack _). by vm_compute. }
  discriminate Hs.
Defined.
