(* ===== verification/Knobs.v ===== *)
(** [ansible/helpers/knobs.yml], the knob registry, as the parsed document the
    readers receive: for every knob its key, residence, Ansible variable,
    [env] place and whether the panel shows it.  The client copy (labels,
    help, headings) and the panel's rendering hints are left out: no modelled
    reader of the registry looks at them. *)
From S2P Require Import Prelude PyVal.

#[local] Open Scope string_scope.

(** An entry of [secrets:]; the [panel] mapping is kept as present or absent. *)
Definition secret_knob (key : string) (panel : bool) : val :=
  VDict ((("key", VStr key) :: if panel then [("panel", VDict [])] else [])%list).

(** An entry of [config:]. *)
Definition config_knob (key residence : string) (var : option string) (panel : bool)
    (env : option (dict val)) : val :=
  VDict ([("key", VStr key); ("residence", VStr residence)]
         ++ from_option (λ v, [("var", VStr v)]) [] var
         ++ (if panel then [("panel", VDict [])] else [])
         ++ from_option (λ e, [("env", VDict e)]) [] env)%list.

Definition knobs_secrets : list val := [
  secret_knob "cloudflare_api_token" true;
  secret_knob "cloudflare_api_tokens" false;
  secret_knob "tailscale_oauth_client_id" true;
  secret_knob "tailscale_oauth_client_secret" true;
  secret_knob "headscale_api_key" true;
  secret_knob "headscale_preauth_key" true;
  secret_knob "backup_s3_access_key" true;
  secret_knob "backup_s3_secret_key" true;
  secret_knob "smtp_password" true;
  secret_knob "storage_bulk_username" true;
  secret_knob "storage_bulk_password" true;
  secret_knob "catena_license" true].

Definition knobs_config : list val := [
  config_knob "HOST_PUBLIC_IP" "host" None false
    (Some [("section", VStr "host"); ("default", VStr ""); ("example", VStr "203.0.113.10")]);
  config_knob "HOST_SSH_ADDRESS" "host" None false
    (Some [("section", VStr "host"); ("default", VStr "")]);
  config_knob "HOST_SSH_PORT" "host" None false
    (Some [("section", VStr "host"); ("default", VStr "22")]);
  config_knob "HOST_INITIAL_USER" "host" None false
    (Some [("section", VStr "host"); ("default", VStr "root")]);
  config_knob "ADMIN_EMAIL" "store" (Some "cfg_admin_email") false
    (Some [("section", VStr "admin"); ("default", VStr ""); ("example", VStr "you@example.com")]);
  config_knob "ADMIN_FIRST_NAME" "store" (Some "cfg_admin_first_name") false
    (Some [("section", VStr "admin"); ("default", VStr ""); ("example", VStr "Alex")]);
  config_knob "ADMIN_LAST_NAME" "store" (Some "cfg_admin_last_name") false
    (Some [("section", VStr "admin"); ("default", VStr ""); ("example", VStr "Tremblay")]);
  config_knob "SSH_PRIVATE_KEY" "controller" None false
    (Some [("section", VStr "ssh"); ("default", VStr "~/.ssh/catena_ed25519")]);
  config_knob "OPS_USER" "controller" None false
    (Some [("section", VStr "ssh"); ("default", VStr "ops")]);
  config_knob "COMMON_TIMEZONE" "store" (Some "cfg_common_timezone") true
    None;
  config_knob "COMMON_LOCALE" "store" (Some "cfg_common_locale") true
    None;
  config_knob "TAILSCALE_TAGS" "store" (Some "cfg_tailscale_tags") true
    None;
  config_knob "STORAGE_BULK_ENABLED" "controller" None false
    (Some [("section", VStr "storage"); ("default", VStr "false")]);
  config_knob "STORAGE_BULK_MOUNT_POINT" "controller" None false
    (Some [("section", VStr "storage"); ("default", VStr "/mnt/bulk")]);
  config_knob "CLOUDFLARE_ZONE" "store" (Some "cfg_cloudflare_zone") true
    None;
  config_knob "KEYCLOAK_SUBDOMAIN" "store" (Some "cfg_keycloak_subdomain") true
    None;
  config_knob "CATENA_ADMIN_SUBDOMAIN" "store" (Some "cfg_catena_admin_subdomain") true
    None;
  config_knob "CLOUDFLARED_TUNNEL_NAME_PREFIX" "store" (Some "cfg_cloudflared_tunnel_prefix") false
    None;
  config_knob "TAILNET_PROVIDER" "store" (Some "cfg_tailnet_provider") true
    None;
  config_knob "TAILNET_CONTROL_URL" "store" (Some "cfg_tailnet_control_url") true
    None;
  config_knob "HEADSCALE_USER" "store" (Some "cfg_headscale_user") true
    None;
  config_knob "BACKUP_RESTIC_REPO" "store" (Some "cfg_backup_restic_repo") true
    None;
  config_knob "BACKUP_EXTRA_PATHS" "store" (Some "cfg_backup_extra_paths") true
    None;
  config_knob "SMTP_PROVIDER" "store" (Some "cfg_smtp_provider") true
    None;
  config_knob "SMTP_SENDER" "store" (Some "cfg_smtp_sender") true
    None;
  config_knob "SMTP_HOST" "store" (Some "cfg_smtp_host") true
    None;
  config_knob "SMTP_PORT" "store" (Some "cfg_smtp_port") true
    None;
  config_knob "SMTP_USER" "store" (Some "cfg_smtp_user") true
    None;
  config_knob "OFFSITE_HEARTBEAT_URL" "store" None true
    None;
  config_knob "ERROR_REPORTS_TO_SUPPORT" "store" None false
    None;
  config_knob "MFA_NOTICE_DISMISSED" "store" None false
    None;
  config_knob "CVE_AUTO_PATCH" "store" None true
    None;
  config_knob "IDENTITY_ENFORCE_MFA" "store" (Some "cfg_identity_enforce_mfa") true
    None;
  config_knob "APT_PROXY_URL" "store" (Some "cfg_apt_proxy_url") false
    (Some [("section", VStr "site"); ("default", VStr "")]);
  config_knob "DOCKER_REGISTRY_MIRROR_URL" "store" (Some "cfg_docker_registry_mirror_url") false
    (Some [("section", VStr "site"); ("default", VStr "")]);
  config_knob "CATENA_ACME_STAGING" "store" (Some "cfg_acme_staging") false
    (Some [("section", VStr "development"); ("default", VStr "false"); ("reseed", VBool true)]);
  config_knob "CATENA_ACME_DIRECTORY_URL" "store" (Some "cfg_acme_directory_url") false
    (Some [("section", VStr "development"); ("default", VStr ""); ("reseed", VBool true)]);
  config_knob "CATENA_ACME_HOST_IP" "store" (Some "cfg_acme_host_ip") false
    (Some [("section", VStr "development"); ("default", VStr ""); ("reseed", VBool true)]);
  config_knob "CATENA_ACME_CA_BUNDLE_PEM_B64" "store" (Some "cfg_acme_ca_bundle_b64") false
    (Some [("section", VStr "development"); ("default", VStr ""); ("reseed", VBool true)])].

Definition knobs_doc : dict val :=
  [("version", VInt 1); ("secrets", VList knobs_secrets); ("config", VList knobs_config)].
