(* ===== verification/OnboxConfig.v ===== *)
(** [ansible/helpers/onbox_config.py]: the on-box store.  [load] and [dump]
    read and write the store's file, the [ensure_*], [adopt],
    [preserve_outgoing_zone_token], [apply_inputs] and
    [settle_tailnet_provider] operations change it, and [main] composes them
    into the settings API ([dispatch]) and the converge.  A file is its text,
    [None] when absent; the store in memory is the record [load] builds. *)
From S2P Require Import Prelude PyStr PyNum PyVal Json JsonFacts Encoding Knobs.

#[local] Open Scope string_scope.

(** * The registry *)

(** One [config:] entry. *)
Record knob := {
  knob_key : string;
  knob_residence : string;
  knob_var : option string;
  knob_env : option val
}.

Definition parse_knob (v : val) : res knob :=
  e ← as_dict_r v;
  key ← (getitem "key" e ≫= as_str_r);
  residence ← (getitem "residence" e ≫= as_str_r);
  var ← match dget "var" e with None => Ok None | Some v => Some <$> as_str_r v end;
  Ok {| knob_key := key; knob_residence := residence; knob_var := var; knob_env := dget "env" e |}.

(** One [secrets:] entry: its key, and whether it has a [panel]. *)
Definition parse_secret_knob (v : val) : res (string * bool) :=
  e ← as_dict_r v;
  key ← (getitem "key" e ≫= as_str_r);
  Ok (key, dhas "panel" e).

(** The registry's module-level sets, as lists. *)
Record registry := {
  EXTERNAL_SECRETS : list string;
  PANEL_SECRETS : list string;
  SETTINGS_CONFIG : dict string;
  ENV_SEEDED_CONFIG : list string;
  ENV_RESEEDED_CONFIG : list string;
  BOOTSTRAP_CONFIG : list string
}.

(** [_load_knobs]: only version 1 is read. *)
Definition load_knobs (doc : dict val) : res (dict val) :=
  if py_eq (vget "version" doc) (VInt 1) then Ok doc else Raise ValueError.

Definition panel_secrets (secrets : list (string * bool)) : list string :=
  (map fst (List.filter snd secrets) ++ ["backup_restic_password"; "admin_password"])%list.

Definition stored (k : knob) : bool := bool_decide (knob_residence k = "store").

Definition settings_config (config : list knob) : dict string :=
  foldl (λ d k, match knob_var k with
                | Some var => if stored k then dset (knob_key k) var d else d
                | None => d
                end) [] config.

Definition env_seeded (config : list knob) : list string :=
  map knob_key (List.filter (λ k, stored k && bool_decide (is_Some (knob_env k))) config).

(** [entry["env"].get("reseed")], evaluated for the seeded keys only. *)
Definition reseeds (seeded : list string) (k : knob) : res bool :=
  if bool_decide (knob_key k ∈ seeded) then
    match knob_env k with
    | None => Raise KeyError
    | Some (VDict env) => Ok (truthy (vget "reseed" env))
    | Some _ => Raise AttributeError
    end
  else Ok false.

Definition env_reseeded (config : list knob) : res (list string) :=
  flags ← mapM_res (reseeds (env_seeded config)) config;
  Ok (map (knob_key ∘ fst) (List.filter snd (combine config flags))).

Definition bootstrap_config (config : list knob) : list string :=
  map knob_key (List.filter (λ k, bool_decide (knob_residence k = "controller")) config).

(** Importing the module: the registry the document declares. *)
Definition make_registry (doc : dict val) : res registry :=
  doc ← load_knobs doc;
  secrets ← (getitem "secrets" doc ≫= as_list_r);
  secrets ← mapM_res parse_secret_knob secrets;
  config ← (getitem "config" doc ≫= as_list_r);
  config ← mapM_res parse_knob config;
  reseeded ← env_reseeded config;
  Ok {| EXTERNAL_SECRETS := map fst secrets;
        PANEL_SECRETS := panel_secrets secrets;
        SETTINGS_CONFIG := settings_config config;
        ENV_SEEDED_CONFIG := env_seeded config;
        ENV_RESEEDED_CONFIG := reseeded;
        BOOTSTRAP_CONFIG := bootstrap_config config |}.

(** * Minters *)

Section minters.
Context (rand : nat → ascii).

Definition mint_strong_password : rnd string := b64encode <$> urandom rand 48.
Definition mint_hc_api_key : rnd string := token_hex rand 16.
Definition mint_url_safe : rnd string := token_urlsafe rand 24.
Definition mint_oauth2_proxy_cookie_secret : rnd string :=
  (λ b, rstrip_char "=" (urlsafe_b64encode b)) <$> urandom rand 32.
Definition mint_admin_password : rnd string := token_urlsafe rand 15.

Definition INTERNAL_SECRETS : list (string * rnd string) := [
  ("catena_postgres_password", mint_strong_password);
  ("catena_admin_session_key", mint_strong_password);
  ("catena_admin_gate_secret", mint_strong_password);
  ("catena_marketplace_token", mint_url_safe);
  ("keycloak_db_password", mint_strong_password);
  ("keycloak_automation_client_secret", mint_strong_password);
  ("oauth2_proxy_cookie_secret", mint_oauth2_proxy_cookie_secret);
  ("catena_admin_gate_cookie_secret", mint_oauth2_proxy_cookie_secret);
  ("healthchecks_gate_cookie_secret", mint_oauth2_proxy_cookie_secret);
  ("gatus_gate_cookie_secret", mint_oauth2_proxy_cookie_secret);
  ("beszel_gate_cookie_secret", mint_oauth2_proxy_cookie_secret);
  ("oauth2_proxy_client_secret", mint_strong_password);
  ("dashboard_sync_client_secret", mint_strong_password);
  ("catena_admin_panel_client_secret", mint_strong_password);
  ("catena_identity_probe_client_secret", mint_strong_password);
  ("healthchecks_ping_key", mint_url_safe);
  ("healthchecks_api_key_readonly", mint_hc_api_key);
  ("healthchecks_api_key_readwrite", mint_hc_api_key);
  ("beszel_oidc_client_secret", mint_strong_password);
  ("zap_api_key", mint_url_safe)].

Definition USER_HELD_SECRETS : list (string * rnd string) := [
  ("admin_password", mint_admin_password);
  ("backup_restic_password", mint_strong_password);
  ("console_recovery_password", mint_admin_password)].
End minters.

Definition MINTED_ON_REQUEST : list string := ["backup_restic_password"].

(** The declared names, which no random byte decides. *)
Definition internal_names : list string := (INTERNAL_SECRETS (λ _, "000"%char)).*1.
Definition user_held_names : list string := (USER_HELD_SECRETS (λ _, "000"%char)).*1.

(** * Zones *)

Definition slug_char (a : ascii) : bool := is_lower a || is_digit a.

(** [re.sub(r"[^a-z0-9]+", "_", s)] *)
Fixpoint slug_go (run : bool) (s : string) : string :=
  match s with
  | EmptyString => ""
  | String a s => if slug_char a then String a (slug_go false s)
                  else if run then slug_go true s else String "_" (slug_go true s)
  end.

Definition zone_slug (zone : string) : string :=
  strip_char "_" (slug_go false (lower (strip zone))).

Definition zone_cookie_secret_key (zone : string) : string :=
  "oauth2_proxy_cookie_secret_" +:+ zone_slug zone.

Definition zone_name (z : val) : list string :=
  match (match z with VDict d => vget "zone" d | _ => z end) with
  | VStr s => if bool_decide (strip s = "") then [] else [strip s]
  | _ => []
  end.

Definition configured_zone_names (zones : val) : res (list string) :=
  match match zones with
        | VStr s => match loads s with Ok v => Some v | Raise _ => None end
        | _ => Some zones
        end with
  | None => Ok []
  | Some zones =>
      l ← (if truthy zones then py_iter zones else Ok []);
      Ok (flat_map zone_name l)
  end.

(** * The store and its file *)

Record store := { secrets : dict val; config : dict val }.

Definition with_secrets (s : dict val) (st : store) : store :=
  {| secrets := s; config := config st |}.
Definition with_config (c : dict val) (st : store) : store :=
  {| secrets := secrets st; config := c |}.

(** [dict(v)] on a value that is not [None]: a mapping, or a sequence of pairs
    whose first parts are strings. *)
Definition pair_of (v : val) : res (string * val) :=
  match v with
  | VList [VStr k; x] => Ok (k, x)
  | VStr (String a (String b "")) => Ok (String a "", VStr (String b ""))
  | VDict [(k1, _); (k2, _)] => Ok (k1, VStr k2)
  | VList [_; _] => Raise TypeError
  | VList _ | VStr _ | VDict _ => Raise ValueError
  | _ => Raise TypeError
  end.
Definition py_dict (v : val) : res (dict val) :=
  match v with
  | VDict d => Ok d
  | _ => l ← py_iter v; kvs ← mapM_res pair_of l; Ok (dupdate [] kvs)
  end.

(** [dict(raw.get(k) or {})] *)
Definition section_of (k : string) (raw : dict val) : res (dict val) :=
  let v := vget k raw in if truthy v then py_dict v else Ok [].

(** The top-level object of the file: [{}] for an absent one, an error for
    malformed text or another top level. *)
Definition read_doc (file : option string) : res (dict val) :=
  match file with
  | None => Ok []
  | Some text => raw ← loads text;
                 match raw with VDict d => Ok d | _ => Raise ValueError end
  end.

Definition load (file : option string) : res store :=
  raw ← read_doc file;
  s ← section_of "secrets" raw;
  c ← section_of "config" raw;
  Ok {| secrets := s; config := c |}.

Definition image_pins (file : option string) : res (dict val) :=
  raw ← read_doc file;
  match vget "image_pins" raw with
  | VDict pins =>
      Ok (map (λ '(k, v), (k, VStr (py_str v))) (List.filter (λ kv, truthy kv.2) pins))
  | _ => Ok []
  end.

(** The text [dump] replaces the file with. *)
Definition dump_text (st : store) (doc : dict val) : string :=
  dumps indent2_style
    (sort_keys (VDict (dset "config" (VDict (config st)) (dset "secrets" (VDict (secrets st)) doc)))).

Definition dump (st : store) (file : option string) : res string :=
  doc ← read_doc file; Ok (dump_text st doc).

(** * Reconcile *)

(** [if cur is None or blank: secrets[key] = minter(); minted.append(key)] *)
Definition mint_missing (acc : dict val * list string) (km : string * rnd string) :
    rnd (dict val * list string) := λ pos,
  let '(m, minted) := acc in
  let '(key, minter) := km in
  if blank (vget key m)
  then let '(v, pos) := minter pos in ((dset key (VStr v) m, minted ++ [key])%list, pos)
  else ((m, minted), pos).

Fixpoint mint_all (l : list (string * rnd string)) (acc : dict val * list string) :
    rnd (dict val * list string) :=
  match l with [] => mret acc | km :: l => acc ← mint_missing acc km; mint_all l acc end.

Section store_ops.
Context (rand : nat → ascii).

(** The per-zone cookie secrets the store's zones ask for. *)
Definition zone_secrets (zones : list string) : list (string * rnd string) :=
  map (λ z, (zone_cookie_secret_key z, mint_oauth2_proxy_cookie_secret rand)) zones.

Definition ensure_internal_secrets (st : store) (pos : nat) :
    res (store * list string * nat) :=
  let '(acc, pos) := mint_all (INTERNAL_SECRETS rand) (secrets st, []) pos in
  zones ← configured_zone_names (vget "CLOUDFLARE_ZONES" (config st));
  let '((m, minted), pos) := mint_all (zone_secrets zones) acc pos in
  Ok (with_secrets m st, minted, pos).

(** The user-held secrets a converge mints. *)
Definition minted_user_held : list (string * rnd string) :=
  List.filter (λ km, negb (bool_decide (km.1 ∈ MINTED_ON_REQUEST))) (USER_HELD_SECRETS rand).

Definition ensure_user_held_secrets (st : store) (pos : nat) : store * list string * nat :=
  let '((m, minted), pos) := mint_all minted_user_held (secrets st, []) pos in
  (with_secrets m st, minted, pos).
End store_ops.

Definition TAILNET_PROVIDERS : list string := ["none"; "tailscale"; "headscale"].

Definition settle_tailnet_provider (st : store) : store * bool :=
  let method := strip (str_or (vget "ACCESS_METHOD" (config st))) in
  let config := ddel "ACCESS_METHOD" (config st) in
  let provider := lower (strip (str_or (vget "TAILNET_PROVIDER" config))) in
  let provider :=
    if bool_decide (method = "public_ssh") then "none"
    else if bool_decide (provider ∈ TAILNET_PROVIDERS) then provider
    else if negb (bool_decide (strip (str_or (vget "TAILNET_CONTROL_URL" config)) = "")) then "headscale"
    else if bool_decide (method = "tailnet") || truthy (vget "tailscale_oauth_client_id" (secrets st))
    then "tailscale" else "none" in
  let changed := negb (bool_decide (method = "")) ||
                 negb (py_eq (vget "TAILNET_PROVIDER" config) (VStr provider)) in
  (with_config (dset "TAILNET_PROVIDER" (VStr provider) config) st, changed).

(** One pair of [adopt]'s mapping. *)
Definition adopt_one (overwrite : bool) (acc : dict val * list string) (kv : string * val) :
    dict val * list string :=
  let '(m, adopted) := acc in
  let '(key, val) := kv in
  if blank val then acc
  else if negb overwrite && truthy (vget key m) then acc
  else if py_eq (vget key m) val then acc
  else (dset key val m, adopted ++ [key])%list.

Definition adopt (overwrite : bool) (mapping : dict val) (st : store) : store * list string :=
  let '(m, adopted) := foldl (adopt_one overwrite) (secrets st, []) mapping in
  (with_secrets m st, adopted).

Definition preserve_outgoing_zone_token (st : store) (config_in : val) :
    res (store * option string) :=
  if negb (truthy config_in) then Ok (st, None) else
  named ← py_in "CLOUDFLARE_ZONE" config_in;
  if negb named then Ok (st, None) else
  match config_in with
  | VDict config_in =>
      let new_zone := strip (str_or (vget "CLOUDFLARE_ZONE" config_in)) in
      let old_zone := strip (str_or (vget "CLOUDFLARE_ZONE" (config st))) in
      if bool_decide (new_zone = "") || bool_decide (old_zone = "") || bool_decide (new_zone = old_zone)
      then Ok (st, None) else
      let outgoing := strip (str_or (vget "cloudflare_api_token" (secrets st))) in
      if bool_decide (outgoing = "") then Ok (st, None) else
      let tokens := default [] (as_dict (vget "cloudflare_api_tokens" (secrets st))) in
      if py_eq (vget old_zone tokens) (VStr outgoing) then Ok (st, None) else
      Ok (with_secrets (dset "cloudflare_api_tokens" (VDict (dset old_zone (VStr outgoing) tokens))
                             (secrets st)) st, Some old_zone)
  | _ => Raise AttributeError
  end.

(** [if v: v.items()] *)
Definition items_of (v : val) : res (dict val) :=
  if truthy v then match v with VDict d => Ok d | _ => Raise AttributeError end else Ok [].

Section apply.
Context (reg : registry) (overwrite : bool).

Definition apply_secret (acc : dict val * list string) (kv : string * val) :
    res (dict val * list string) :=
  let '(m, changed) := acc in
  let '(key, val) := kv in
  if negb (bool_decide (key ∈ EXTERNAL_SECRETS reg)) then Raise ValueError
  else if blank val then Ok acc
  else if negb overwrite && truthy (vget key m) then Ok acc
  else if py_eq (vget key m) val then Ok acc
  else Ok (dset key val m, changed ++ [key])%list.

Definition apply_config (acc : dict val * list string) (kv : string * val) :
    dict val * list string :=
  let '(m, changed) := acc in
  let '(key, val) := kv in
  if negb overwrite && dhas key m then acc
  else if py_eq (vget key m) val then acc
  else (dset key val m, changed ++ [key])%list.

Definition apply_inputs (secrets_in config_in : val) (st : store) : res (store * list string) :=
  '(st, kept) ← preserve_outgoing_zone_token st config_in;
  let changed := match kept with
                 | Some zone => if bool_decide (zone = "") then [] else ["cloudflare_api_tokens"]
                 | None => []
                 end in
  secrets_in ← items_of secrets_in;
  '(m, changed) ← foldM apply_secret (secrets st, changed) secrets_in;
  config_in ← items_of config_in;
  let '(c, changed) := foldl apply_config (config st, changed) config_in in
  Ok ({| secrets := m; config := c |}, changed).
End apply.

(** * Views *)

(** [d1 | d2] on lists standing for sets, in [sorted] order. *)
Definition sorted_set (l : list string) : list string := sorted_str (remove_dups l).

Definition config_names (reg : registry) : list string :=
  sorted_set (dkeys (SETTINGS_CONFIG reg) ++ BOOTSTRAP_CONFIG reg)%list.

Definition secret_names (reg : registry) : list string :=
  sorted_set (internal_names ++ user_held_names ++ EXTERNAL_SECRETS reg)%list.

Definition settings_config_vars (reg : registry) (config : dict val) : dict val :=
  foldl (λ out kv, match dget kv.1 config with
                   | Some v => dset kv.2 v out
                   | None => out
                   end) [] (SETTINGS_CONFIG reg).

Definition panel_view (reg : registry) (st : store) : val :=
  VDict [("secrets", VDict (List.filter (λ kv, bool_decide (kv.1 ∈ PANEL_SECRETS reg)) (secrets st)));
         ("config", VDict (config st))].

(** * The command line *)

Definition parse_kv_one (out : dict val) (pair : string) : res (dict val) :=
  let '(k, found, v) := partition "=" pair in
  if found then Ok (dset (strip k) (VStr v) out) else Raise (SystemExit 1).
Definition parse_kv (pairs : list string) : res (dict val) := foldM parse_kv_one [] pairs.

Inductive emit := EmitSecrets | EmitAll | EmitNone | EmitSecretNames | EmitEnvSeedNames
  | EmitEnvReseedNames | EmitConfigVars | EmitImagePins.

#[export] Instance emit_eq_dec : EqDecision emit.
Proof. solve_decision. Defined.

(** The parsed arguments.  [arg_adopt] is the text [--adopt-stdin] or
    [--adopt-file] reads, [arg_dispatch] what [--dispatch-stdin] reads. *)
Record args := {
  arg_set_secret : list string;
  arg_set_config : list string;
  arg_overwrite : bool;
  arg_no_mint : bool;
  arg_mint_user_held : bool;
  arg_adopt : option string;
  arg_emit : emit;
  arg_dispatch : option string
}.

(** What a run leaves: the file's text, and what it printed. *)
Record outcome := { out_file : option string; out_print : option val }.

Section main.
Context (reg : registry) (rand : nat → ascii).

(** [--dispatch-stdin] *)
Definition dispatch (request : string) (file : option string) : res outcome :=
  req ← loads (if bool_decide (request = "") then "{}" else request);
  match req with
  | VDict req =>
      let op := vget "op" req in
      if py_eq op (VStr "read") then
        st ← load file;
        Ok {| out_file := file; out_print := Some (panel_view reg st) |}
      else if py_eq op (VStr "write") then
        st ← load file;
        '(st, _) ← apply_inputs reg true (vget "secrets" req) (vget "config" req) st;
        text ← dump st file;
        Ok {| out_file := Some text; out_print := Some (VDict [("ok", VBool true)]) |}
      else Raise (SystemExit 1)
  | _ => Raise (SystemExit 1)
  end.

(** The mapping to adopt: none for blank text, an error for another shape. *)
Definition read_incoming (a : args) : res (dict val) :=
  match strip <$> arg_adopt a with
  | None | Some EmptyString => Ok []
  | Some text =>
      v ← loads text;
      match v with
      | VNone => Ok []
      | VDict d => Ok d
      | _ => Raise (SystemExit 1)
      end
  end.

(** [ensure_*] as the flags ask. *)
Definition mint_asked (a : args) (st : store) (pos : nat) : res (store * nat) :=
  if arg_mint_user_held a then
    let '(st, _, pos) := ensure_user_held_secrets rand st pos in Ok (st, pos)
  else if arg_no_mint a then Ok (st, pos)
  else
    '(st, _, pos) ← ensure_internal_secrets rand st pos;
    let '(st, _, pos) := ensure_user_held_secrets rand st pos in Ok (st, pos).

(** The converge's read-modify-write of the loaded store, up to [dump]. *)
Definition update (a : args) (incoming : dict val) (st : store) (pos : nat) : res (store * nat) :=
  let st := match incoming with [] => st | _ => (adopt (arg_overwrite a) incoming st).1 end in
  secrets_in ← parse_kv (arg_set_secret a);
  config_in ← parse_kv (arg_set_config a);
  '(st, _) ← apply_inputs reg (arg_overwrite a) (VDict secrets_in) (VDict config_in) st;
  mint_asked a (settle_tailnet_provider st).1 pos.

Definition emitted (a : args) (st : store) : option val :=
  match arg_emit a with
  | EmitSecrets => Some (VDict (secrets st))
  | EmitAll => Some (VDict [("secrets", VDict (secrets st)); ("config", VDict (config st))])
  | EmitConfigVars => Some (VDict (settings_config_vars reg (config st)))
  | _ => None
  end.

Definition converge (a : args) (file : option string) (pos : nat) : res outcome :=
  incoming ← read_incoming a;
  st ← load file;
  '(st, _) ← update a incoming st pos;
  text ← dump st file;
  Ok {| out_file := Some text; out_print := emitted a st |}.

Definition strs (l : list string) : val := VList (map VStr l).

Definition main (a : args) (file : option string) (pos : nat) : res outcome :=
  let query (v : val) := Ok {| out_file := file; out_print := Some v |} in
  match arg_emit a, arg_dispatch a with
  | EmitSecretNames, _ => query (strs (secret_names reg))
  | EmitEnvSeedNames, _ => query (strs (sorted_str (ENV_SEEDED_CONFIG reg)))
  | EmitEnvReseedNames, _ => query (strs (sorted_str (ENV_RESEEDED_CONFIG reg)))
  | EmitImagePins, _ => pins ← image_pins file; query (VDict pins)
  | _, Some request => dispatch request file
  | _, None => converge a file pos
  end.
End main.

(** The registry this repository declares. *)
Definition catena_registry : registry :=
  match make_registry knobs_doc with
  | Ok r => r
  | Raise _ => {| EXTERNAL_SECRETS := []; PANEL_SECRETS := []; SETTINGS_CONFIG := [];
                  ENV_SEEDED_CONFIG := []; ENV_RESEEDED_CONFIG := []; BOOTSTRAP_CONFIG := [] |}
  end.
