(* ===== verification/OnboxConfigFacts.v ===== *)
(** What the on-box store promises: minting fills every blank secret and
    touches nothing else, the settings API reaches only the external secrets,
    the file keeps the other writers' blocks, and a converge with nothing new
    is a fixpoint.  The definitions are those of [OnboxConfig]. *)
From S2P Require Import Prelude PyStr PyNum PyVal Json JsonFacts Encoding Knobs OnboxConfig.

#[local] Open Scope string_scope.

(** * Minters *)

(** A minter whose values are never blank. *)
Definition sound (m : rnd string) : Prop := ∀ pos, strip (m pos).1 ≠ "".

Lemma strip_of_alphabet (p : ascii → bool) s n :
  (∀ a, p a = true → is_space a = false) → sforall p s = true →
  String.length s = S n → strip s ≠ "".
Proof.
  intros Hp Hs Hl. unfold strip. rewrite strip_of_none by by eapply sforall_impl_neg.
  by destruct s.
Qed.

Section minters.
Context (rand : nat → ascii).

Lemma mint_strong_password_eq pos :
  mint_strong_password rand pos = (b64encode (rand_bytes rand 48 pos), pos + 48).
Proof. done. Qed.
Lemma mint_cookie_eq pos :
  mint_oauth2_proxy_cookie_secret rand pos
    = (b64 url_char false (rand_bytes rand 32 pos), pos + 32).
Proof.
  change (mint_oauth2_proxy_cookie_secret rand pos)
    with (rstrip_char "=" (urlsafe_b64encode (rand_bytes rand 32 pos)), pos + 32).
  by rewrite rstrip_urlsafe.
Qed.
Lemma token_urlsafe_eq n pos :
  token_urlsafe rand n pos = (b64 url_char false (rand_bytes rand n pos), pos + n).
Proof.
  change (token_urlsafe rand n pos)
    with (rstrip_char "=" (urlsafe_b64encode (rand_bytes rand n pos)), pos + n).
  by rewrite rstrip_urlsafe.
Qed.
Lemma mint_hc_eq pos : mint_hc_api_key rand pos = (hex (rand_bytes rand 16 pos), pos + 16).
Proof. done. Qed.

Lemma length_strong pos : String.length (mint_strong_password rand pos).1 = 64.
Proof. rewrite mint_strong_password_eq. apply (length_b64_pad _ _ 16), length_rand_bytes. Qed.
Lemma length_cookie pos : String.length (mint_oauth2_proxy_cookie_secret rand pos).1 = 43.
Proof. rewrite mint_cookie_eq. apply (length_b64_nopad2 _ _ 10), length_rand_bytes. Qed.
Lemma length_url_safe pos : String.length (mint_url_safe rand pos).1 = 32.
Proof.
  unfold mint_url_safe. rewrite token_urlsafe_eq.
  apply (length_b64_nopad _ _ 8), length_rand_bytes.
Qed.
Lemma length_admin pos : String.length (mint_admin_password rand pos).1 = 20.
Proof.
  unfold mint_admin_password. rewrite token_urlsafe_eq.
  apply (length_b64_nopad _ _ 5), length_rand_bytes.
Qed.
Lemma length_hc pos : String.length (mint_hc_api_key rand pos).1 = 32.
Proof. rewrite mint_hc_eq. cbn [fst]. by rewrite length_hex, length_rand_bytes. Qed.

Lemma alphabet_strong pos : sforall is_std_char (mint_strong_password rand pos).1 = true.
Proof. rewrite mint_strong_password_eq. apply (b64_std_forall _ 16), length_rand_bytes. Qed.
Lemma alphabet_cookie pos : sforall is_url_char (mint_oauth2_proxy_cookie_secret rand pos).1 = true.
Proof. rewrite mint_cookie_eq. apply b64_url_forall. Qed.
Lemma alphabet_url_safe n pos : sforall is_url_char (token_urlsafe rand n pos).1 = true.
Proof. rewrite token_urlsafe_eq. apply b64_url_forall. Qed.
Lemma alphabet_hc pos : sforall is_hex_char (mint_hc_api_key rand pos).1 = true.
Proof. rewrite mint_hc_eq. apply hex_forall. Qed.

Lemma sound_strong : sound (mint_strong_password rand).
Proof. intros pos. eapply strip_of_alphabet; [apply is_std_char_not_space|apply alphabet_strong|apply length_strong]. Qed.
Lemma sound_cookie : sound (mint_oauth2_proxy_cookie_secret rand).
Proof. intros pos. eapply strip_of_alphabet; [apply is_url_char_not_space|apply alphabet_cookie|apply length_cookie]. Qed.
Lemma sound_url_safe : sound (mint_url_safe rand).
Proof. intros pos. eapply strip_of_alphabet; [apply is_url_char_not_space|apply alphabet_url_safe|apply length_url_safe]. Qed.
Lemma sound_admin : sound (mint_admin_password rand).
Proof. intros pos. eapply strip_of_alphabet; [apply is_url_char_not_space|apply alphabet_url_safe|apply length_admin]. Qed.
Lemma sound_hc : sound (mint_hc_api_key rand).
Proof. intros pos. eapply strip_of_alphabet; [apply is_hex_char_not_space|apply alphabet_hc|apply length_hc]. Qed.
Hint Resolve sound_strong sound_cookie sound_url_safe sound_admin sound_hc : core.

Lemma internal_sound : Forall (λ km, sound km.2) (INTERNAL_SECRETS rand).
Proof. unfold INTERNAL_SECRETS. repeat (constructor; [done|]). constructor. Qed.
Lemma user_held_sound : Forall (λ km, sound km.2) (minted_user_held rand).
Proof. unfold minted_user_held. cbn. repeat (constructor; [done|]). constructor. Qed.
Lemma zones_sound zones : Forall (λ km, sound km.2) (zone_secrets rand zones).
Proof. unfold zone_secrets. induction zones; constructor; [done|done]. Qed.
End minters.

(** * Minting *)

(** What minting the keys [ks] over [m] leaves: [m'], with [new] minted. *)
Record minted_spec (ks : list string) (m m' : dict val) (new : list string) : Prop := {
  ms_kept k : blank (vget k m) = false → dget k m' = dget k m;
  ms_frame k : k ∉ ks → dget k m' = dget k m;
  ms_filled k : k ∈ ks → blank (vget k m') = false;
  ms_new k : k ∈ new ↔ k ∈ ks ∧ blank (vget k m) = true;
  ms_wf : wf_val (VDict m) → wf_val (VDict m')
}.

Lemma vget_dset k k' v (d : dict val) : vget k (dset k' v d) = if decide (k = k') then v else vget k d.
Proof. unfold vget. rewrite dget_dset. by case_decide. Qed.

Lemma vget_eq k (d d' : dict val) : dget k d = dget k d' → vget k d = vget k d'.
Proof. unfold vget. congruence. Qed.

Lemma mint_missing_spec m minted key minter pos :
  sound minter →
  ∃ m' new pos', mint_missing (m, minted) (key, minter) pos = ((m', minted ++ new), pos')%list ∧
    minted_spec [key] m m' new.
Proof.
  intros Hs. unfold mint_missing. destruct (blank (vget key m)) eqn:Hb.
  - destruct (minter pos) as [v pos'] eqn:Hm.
    exists (dset key (VStr v) m), [key], pos'. split; [done|]. split.
    + intros k Hk. apply dget_dset_ne. congruence.
    + intros k [Hk _]%not_elem_of_cons. by apply dget_dset_ne.
    + intros k ->%list_elem_of_singleton. rewrite vget_dset, decide_True by done. cbn.
      apply bool_decide_eq_false. specialize (Hs pos). by rewrite Hm in Hs.
    + intros k. rewrite list_elem_of_singleton. naive_solver.
    + eauto with catena.
  - exists m, [], pos. rewrite app_nil_r. split; [done|]. split; try done.
    + by intros k ->%list_elem_of_singleton.
    + intros k. split; [by intros ?%elem_of_nil|]. intros [->%list_elem_of_singleton ?]. congruence.
Qed.

Lemma minted_spec_app ks1 ks2 m m1 m2 new1 new2 :
  minted_spec ks1 m m1 new1 → minted_spec ks2 m1 m2 new2 →
  minted_spec (ks1 ++ ks2) m m2 (new1 ++ new2).
Proof.
  intros [K1 F1 P1 N1 W1] [K2 F2 P2 N2 W2]. split.
  - intros k Hk. rewrite <-(K1 k Hk). apply K2. unfold vget in *. by rewrite K1.
  - intros k. rewrite not_elem_of_app. intros [Hk1 Hk2]. by rewrite F2, F1.
  - intros k. rewrite elem_of_app. intros [Hk|Hk]; [|auto].
    rewrite (vget_eq k m2 m1); [auto|]. apply K2. auto.
  - intros k. rewrite !elem_of_app, N1, N2.
    destruct (decide (k ∈ ks1)) as [Hk|Hk].
    + pose proof (P1 k Hk). split; [|naive_solver]. intros [?|[_ ?]]; [naive_solver|congruence].
    + rewrite (vget_eq k m1 m) by auto. naive_solver.
  - auto.
Qed.

Lemma mint_all_spec l m minted pos :
  Forall (λ km, sound km.2) l →
  ∃ m' new pos', mint_all l (m, minted) pos = ((m', minted ++ new), pos')%list ∧
    minted_spec l.*1 m m' new.
Proof.
  intros Hl. revert m minted pos. induction Hl as [|[key minter] l Hs Hl IH]; intros m minted pos.
  - exists m, [], pos. rewrite app_nil_r. split; [done|]. split; try done.
    + intros k. cbn. by rewrite elem_of_nil.
    + intros k. cbn. rewrite !elem_of_nil. naive_solver.
  - destruct (mint_missing_spec m minted key minter pos Hs) as (m1 & new1 & pos1 & E1 & S1).
    destruct (IH m1 (minted ++ new1)%list pos1) as (m2 & new2 & pos2 & E2 & S2).
    exists m2, (new1 ++ new2)%list, pos2. split.
    + cbn [mint_all]. unfold mbind, rnd_bind. rewrite E1, E2. by rewrite app_assoc.
    + exact (minted_spec_app _ _ _ _ _ _ _ S1 S2).
Qed.

(** Nothing blank: nothing minted, and no byte drawn. *)
Lemma mint_all_nop l m minted pos :
  (∀ k, k ∈ l.*1 → blank (vget k m) = false) → mint_all l (m, minted) pos = ((m, minted), pos).
Proof.
  induction l as [|[key minter] l IH]; intros Hb; [done|].
  cbn [mint_all]. unfold mbind, rnd_bind, mint_missing.
  rewrite (Hb key) by by left. apply IH. intros k Hk. apply Hb. by right.
Qed.

Lemma internal_keys rand : (INTERNAL_SECRETS rand).*1 = internal_names.
Proof. done. Qed.
Lemma zone_keys rand zones : (zone_secrets rand zones).*1 = map zone_cookie_secret_key zones.
Proof. unfold zone_secrets. induction zones as [|z zones IH]; [done|]. cbn in *. by rewrite IH. Qed.

(** The user-held names a converge mints. *)
Definition converged_user_held : list string := ["admin_password"; "console_recovery_password"].
Lemma user_held_keys rand : (minted_user_held rand).*1 = converged_user_held.
Proof. done. Qed.

Lemma ensure_internal_spec rand st pos :
  (∃ zones st' new pos', configured_zone_names (vget "CLOUDFLARE_ZONES" (config st)) = Ok zones ∧
     ensure_internal_secrets rand st pos = Ok (st', new, pos') ∧ config st' = config st ∧
     minted_spec (internal_names ++ map zone_cookie_secret_key zones) (secrets st) (secrets st') new)
  ∨ (∃ e, configured_zone_names (vget "CLOUDFLARE_ZONES" (config st)) = Raise e ∧
     ensure_internal_secrets rand st pos = Raise e).
Proof.
  unfold ensure_internal_secrets.
  destruct (mint_all_spec _ (secrets st) [] pos (internal_sound rand)) as (m1 & new1 & pos1 & E1 & S1).
  rewrite E1. destruct (configured_zone_names _) as [zones|e]; cbn [mbind res_bind]; [left|right; eauto].
  destruct (mint_all_spec _ m1 ([] ++ new1)%list pos1 (zones_sound rand zones))
    as (m2 & new2 & pos2 & E2 & S2).
  rewrite E2. eexists zones, _, _, _. split_and!; [done|done|done|].
  rewrite internal_keys in S1. rewrite zone_keys in S2. by eapply minted_spec_app.
Qed.

Lemma ensure_internal_nop rand st zones pos :
  configured_zone_names (vget "CLOUDFLARE_ZONES" (config st)) = Ok zones →
  (∀ k, k ∈ (internal_names ++ map zone_cookie_secret_key zones)%list → blank (vget k (secrets st)) = false) →
  ensure_internal_secrets rand st pos = Ok (st, [], pos).
Proof.
  intros Hz Hb. unfold ensure_internal_secrets. rewrite Hz.
  rewrite mint_all_nop by (intros k Hk; apply Hb, elem_of_app; by left). cbn [mbind res_bind].
  rewrite mint_all_nop by (intros k; rewrite zone_keys; intros Hk; apply Hb, elem_of_app; by right).
  by destruct st.
Qed.

Lemma ensure_user_held_spec rand st pos :
  ∃ st' new pos', ensure_user_held_secrets rand st pos = (st', new, pos') ∧ config st' = config st ∧
    minted_spec converged_user_held (secrets st) (secrets st') new.
Proof.
  unfold ensure_user_held_secrets.
  destruct (mint_all_spec _ (secrets st) [] pos (user_held_sound rand)) as (m & new & pos' & E & S).
  rewrite E. eexists _, _, _. by split_and!.
Qed.

Lemma ensure_user_held_nop rand st pos :
  (∀ k, k ∈ converged_user_held → blank (vget k (secrets st)) = false) →
  ensure_user_held_secrets rand st pos = (st, [], pos).
Proof.
  intros Hb. unfold ensure_user_held_secrets. rewrite mint_all_nop by done. by destruct st.
Qed.

(** * Well-formed stores *)

(** A store Python can hold: neither section repeats a key at any depth. *)
Definition wf_store (st : store) : Prop :=
  wf_val (VDict (secrets st)) ∧ wf_val (VDict (config st)).

Lemma mapM_res_Forall {A B} (P : B → Prop) (f : A → res B) l l' :
  (∀ x y, x ∈ l → f x = Ok y → P y) → mapM_res f l = Ok l' → Forall P l'.
Proof.
  revert l'. induction l as [|x l IH]; intros l' Hf; cbn; [by intros [= <-]|].
  intros (y & Hy & (ys & Hys & [= <-])%res_bind_Ok)%res_bind_Ok. constructor.
  - eapply Hf; [by left|done].
  - apply IH; [|done]. intros; eapply Hf; [by right|done].
Qed.

Lemma wf_chars s : Forall wf_val (chars s).
Proof. induction s; repeat constructor; auto. Qed.

Lemma wf_py_iter v l : wf_val v → py_iter v = Ok l → Forall wf_val l.
Proof.
  intros Hv. destruct v as [| | | |s|l0|d]; cbn; intros [= <-].
  - apply wf_chars.
  - by inversion_clear Hv.
  - apply Forall_forall. intros x (k & -> & _)%list_elem_of_fmap. constructor.
Qed.

Lemma wf_pair_of v kv : wf_val v → pair_of v = Ok kv → wf_member kv.
Proof.
  intros Hv. unfold wf_member. destruct v as [| | | |s|l|d]; cbn; try done.
  - destruct s as [|a [|b []]]; intros [= <-]; constructor.
  - destruct l as [|[] [|x []]]; intros [= <-]. cbn. inversion_clear Hv as [| | | | |? Hl|].
    by apply Forall_cons in Hl as [_ [? _]%Forall_cons].
  - destruct d as [|[] [|[] []]]; intros [= <-]; constructor.
Qed.

Lemma wf_py_dict v d : wf_val v → py_dict v = Ok d → wf_val (VDict d).
Proof.
  assert (Hg : wf_val v → (l ← py_iter v; kvs ← mapM_res pair_of l; Ok (dupdate [] kvs)) = Ok d →
               wf_val (VDict d)).
  { intros Hv (l & Hl & (kvs & Hk & [= <-])%res_bind_Ok)%res_bind_Ok.
    apply wf_dupdate; [apply wf_nil|]. eapply mapM_res_Forall; [|done].
    pose proof (wf_py_iter _ _ Hv Hl) as Hw. rewrite Forall_forall in Hw.
    intros x y Hx. apply wf_pair_of; auto. }
  intros Hv. destruct v; try (by apply Hg). cbn. by intros [= <-].
Qed.

Lemma wf_vget k (d : dict val) : wf_val (VDict d) → wf_val (vget k d).
Proof.
  intros Hd. unfold vget. destruct (dget k d) eqn:E; cbn; [by eapply wf_dget|constructor].
Qed.

Lemma wf_section k raw d : wf_val (VDict raw) → section_of k raw = Ok d → wf_val (VDict d).
Proof.
  intros Hr. unfold section_of. destruct (truthy (vget k raw)).
  - apply wf_py_dict. by apply wf_vget.
  - intros [= <-]. apply wf_nil.
Qed.

Lemma wf_read_doc file raw : read_doc file = Ok raw → wf_val (VDict raw).
Proof.
  destruct file as [text|]; cbn; [|intros [= <-]; apply wf_nil].
  intros (v & Hv%wf_loads & H)%res_bind_Ok. by destruct v; simplify_eq.
Qed.

Lemma wf_load file st : load file = Ok st → wf_store st.
Proof.
  unfold load. intros (raw & Hraw%wf_read_doc & (s & Hs & (c & Hc & [= <-])%res_bind_Ok)%res_bind_Ok)%res_bind_Ok.
  split; eauto using wf_section.
Qed.

(** * The file: what is written is what is read *)

Lemma vget_sort_dict k (d : dict val) : NoDup (dkeys d) → vget k (sort_dict d) = sort_keys (vget k d).
Proof. intros Hd. unfold vget. rewrite dget_sort_dict by done. by destruct (dget k d). Qed.

Lemma truthy_sort v : truthy (sort_keys v) = truthy v.
Proof.
  destruct v as [| | | | |l|d]; try done; cbn.
  - by rewrite length_map.
  - pose proof (sort_items_Permutation (map sort_member d)) as H%Permutation_length.
    rewrite length_map in H.
    change (map (λ '(k, v), (k, sort_keys v)) d) with (map sort_member d). by rewrite H.
Qed.

Lemma blank_sort v : blank (sort_keys v) = blank v.
Proof. by destruct v. Qed.

(** The document [dump] writes. *)
Definition merged (st : store) (doc : dict val) : dict val :=
  dset "config" (VDict (config st)) (dset "secrets" (VDict (secrets st)) doc).

Lemma dump_text_eq st doc : dump_text st doc = dumps indent2_style (VDict (sort_dict (merged st doc))).
Proof. unfold dump_text. by rewrite sort_keys_dict. Qed.

Lemma wf_merged st doc : wf_store st → wf_val (VDict doc) → wf_val (VDict (merged st doc)).
Proof. intros [? ?] ?. unfold merged. auto with catena. Qed.

Lemma read_dump_text st doc :
  wf_store st → wf_val (VDict doc) → read_doc (Some (dump_text st doc)) = Ok (sort_dict (merged st doc)).
Proof.
  intros Hst Hdoc. cbn [read_doc]. rewrite dump_text_eq, loads_dumps; [done|apply wf_indent2|].
  rewrite <-sort_keys_dict. by apply wf_sort_keys, wf_merged.
Qed.

Definition sorted_store (st : store) : store :=
  {| secrets := sort_dict (secrets st); config := sort_dict (config st) |}.

Lemma section_of_dict k raw d : vget k raw = VDict d → section_of k raw = Ok d.
Proof. intros E. unfold section_of. rewrite E. by destruct d. Qed.

Lemma load_dump_text st doc :
  wf_store st → wf_val (VDict doc) → load (Some (dump_text st doc)) = Ok (sorted_store st).
Proof.
  intros Hst Hdoc. unfold load. rewrite read_dump_text by done. cbn [mbind res_bind].
  pose proof (wf_keys _ (wf_merged _ _ Hst Hdoc)) as Hk.
  rewrite (section_of_dict "secrets" _ (sort_dict (secrets st))), (section_of_dict "config" _ (sort_dict (config st))).
  - done.
  - rewrite vget_sort_dict by done. unfold merged. by rewrite vget_dset, decide_True.
  - rewrite vget_sort_dict by done. unfold merged.
    by rewrite vget_dset, decide_False, vget_dset, decide_True.
Qed.

Lemma vget_sorted_secret k st :
  wf_store st → vget k (secrets (sorted_store st)) = sort_keys (vget k (secrets st)).
Proof. intros [H _]. apply vget_sort_dict. by apply wf_keys. Qed.
Lemma vget_sorted_config k st :
  wf_store st → vget k (config (sorted_store st)) = sort_keys (vget k (config st)).
Proof. intros [_ H]. apply vget_sort_dict. by apply wf_keys. Qed.

(** * The operations preserve well-formedness *)

Lemma wf_with_secrets m st : wf_val (VDict m) → wf_store st → wf_store (with_secrets m st).
Proof. by intros ? []. Qed.

Lemma wf_settle st : wf_store st → wf_store (settle_tailnet_provider st).1.
Proof. intros [? ?]. split; cbn; auto with catena. Qed.

Lemma wf_adopt overwrite mapping st :
  wf_val (VDict mapping) → wf_store st → wf_store (adopt overwrite mapping st).1.
Proof.
  intros Hm [Hs Hc]. unfold adopt.
  assert (H : wf_val (VDict (foldl (adopt_one overwrite) (secrets st, []) mapping).1)).
  { apply (foldl_inv (λ acc, wf_val (VDict acc.1))); [|done].
    intros [m l] [k v] Hin Hmm. cbn. repeat case_match; try done. apply wf_dset; [|done].
    inversion_clear Hm as [| | | | | |? _ Hd]. rewrite Forall_forall in Hd. apply (Hd _ Hin). }
  by destruct (foldl _ _ _).
Qed.

Lemma wf_as_dict v : wf_val v → wf_val (VDict (default [] (as_dict v))).
Proof. intros. by destruct v; try apply wf_nil. Qed.

Lemma wf_preserve st c st' z :
  wf_store st → preserve_outgoing_zone_token st c = Ok (st', z) → wf_store st'.
Proof.
  intros Hst. pose proof Hst as [Hsec Hcfg]. unfold preserve_outgoing_zone_token.
  destruct (negb (truthy c)); [by intros [= <- _]|].
  intros (named & _ & H)%res_bind_Ok. destruct (negb named); [by simplify_eq|].
  destruct c as [| | | | | |c]; try done. cbn in H. repeat case_match; simplify_eq; try done.
  apply wf_with_secrets; [|done]. apply wf_dset; [|done].
  apply wf_dset; [constructor|]. by apply wf_as_dict, wf_vget.
Qed.

Lemma wf_items_of v d : wf_val v → items_of v = Ok d → wf_val (VDict d).
Proof.
  unfold items_of. intros Hv. destruct (truthy v); [|intros [= <-]; apply wf_nil].
  destruct v; by intros [= <-].
Qed.

Lemma wf_apply reg overwrite s c st st' changed :
  wf_val s → wf_val c → wf_store st → apply_inputs reg overwrite s c st = Ok (st', changed) →
  wf_store st'.
Proof.
  intros Hs Hc Hst. unfold apply_inputs.
  intros ([st1 kept] & H1 & H)%res_bind_Ok. apply wf_preserve in H1 as [Hw1 Hw2]; [|done].
  apply res_bind_Ok in H as (s_in & Hsi & H). apply wf_items_of in Hsi; [|done].
  apply res_bind_Ok in H as ([m ch] & Hm & H).
  apply res_bind_Ok in H as (c_in & Hci & H). apply wf_items_of in Hci; [|done].
  apply (foldM_inv (λ acc, wf_val (VDict acc.1))) in Hm; [|clear Hm|done].
  - assert (Hf : wf_val (VDict (foldl (apply_config overwrite) (config st1, ch) c_in).1)).
    { apply (foldl_inv (λ acc, wf_val (VDict acc.1))); [|done].
      intros [m0 l] [k v] Hin Hmm. cbn. repeat case_match; try done. apply wf_dset; [|done].
      inversion_clear Hci as [| | | | | |? _ Hd]. rewrite Forall_forall in Hd. apply (Hd _ Hin). }
    destruct (foldl _ _ _) as [cfg chg]. simplify_eq. by split.
  - intros [m0 l] [k v] acc Hin Hmm. cbn. repeat case_match; intros; simplify_eq; try done.
    apply wf_dset; [|done].
    inversion_clear Hsi as [| | | | | |? _ Hd]. rewrite Forall_forall in Hd. apply (Hd _ Hin).
Qed.

(** * What each operation may change *)

Lemma adopt_fill_only mapping st k :
  truthy (vget k (secrets st)) = true →
  vget k (secrets (adopt false mapping st).1) = vget k (secrets st) ∧
  config (adopt false mapping st).1 = config st.
Proof.
  intros Hk. unfold adopt.
  assert (H : vget k (foldl (adopt_one false) (secrets st, []) mapping).1 = vget k (secrets st)).
  { apply (foldl_inv (λ acc, vget k acc.1 = vget k (secrets st))); [|done].
    intros [m l] [k0 v] _ E. cbn in *. destruct (blank v); [done|].
    destruct (truthy (vget k0 m)) eqn:Et; [done|]. destruct (py_eq _ _); [done|].
    cbn. rewrite vget_dset. case_decide; subst; [congruence|done]. }
  by destruct (foldl _ _ _).
Qed.

Lemma adopt_config overwrite mapping st : config (adopt overwrite mapping st).1 = config st.
Proof. unfold adopt. by destruct (foldl _ _ _). Qed.

Lemma preserve_frame st c st' z :
  preserve_outgoing_zone_token st c = Ok (st', z) →
  config st' = config st ∧
  ∀ k, k ≠ "cloudflare_api_tokens" → dget k (secrets st') = dget k (secrets st).
Proof.
  unfold preserve_outgoing_zone_token.
  destruct (negb (truthy c)); [by intros [= <- _]|].
  intros (named & _ & H)%res_bind_Ok. destruct (negb named); [by simplify_eq|].
  destruct c as [| | | | | |c]; try done. cbn in H. repeat case_match; simplify_eq; try done.
  split; [done|]. intros k Hk. cbn. by apply dget_dset_ne.
Qed.

(** The keys [apply_inputs] may change: the external ones, and the map the
    outgoing zone token goes into. *)
Definition settable (reg : registry) (k : string) : Prop :=
  k ∈ EXTERNAL_SECRETS reg ∨ k = "cloudflare_api_tokens".

Lemma apply_frame reg overwrite s c st st' changed k :
  apply_inputs reg overwrite s c st = Ok (st', changed) → ¬ settable reg k →
  dget k (secrets st') = dget k (secrets st).
Proof.
  intros H Hk. unfold settable in Hk. unfold apply_inputs in H.
  apply res_bind_Ok in H as ([st1 kept] & H1 & H). apply preserve_frame in H1 as [_ Hf].
  apply res_bind_Ok in H as (s_in & Hsi & H). apply res_bind_Ok in H as ([m ch] & Hm & H).
  apply res_bind_Ok in H as (c_in & Hci & H). destruct (foldl _ _ _) as [cfg chgs]. simplify_eq. cbn.
  apply (foldM_inv (λ acc, dget k acc.1 = dget k (secrets st))) in Hm; [done|clear Hm|apply Hf; naive_solver].
  intros [m0 chg] [k0 v] acc _ E. cbn in *. repeat case_match; intros; simplify_eq; try done.
  cbn. rewrite dget_dset_ne; [done|]. intros ->. apply Hk. left.
  match goal with H : negb _ = false |- _ => by rewrite negb_false_iff, bool_decide_eq_true in H end.
Qed.

Lemma apply_fill_only reg s c st st' changed k :
  apply_inputs reg false s c st = Ok (st', changed) → k ≠ "cloudflare_api_tokens" →
  truthy (vget k (secrets st)) = true → vget k (secrets st') = vget k (secrets st).
Proof.
  intros H Hk Ht. unfold apply_inputs in H.
  apply res_bind_Ok in H as ([st1 kept] & H1 & H). apply preserve_frame in H1 as [_ Hf].
  apply res_bind_Ok in H as (s_in & Hsi & H). apply res_bind_Ok in H as ([m ch] & Hm & H).
  apply res_bind_Ok in H as (c_in & Hci & H). destruct (foldl _ _ _) as [cfg chgs]. simplify_eq. cbn.
  apply (foldM_inv (λ acc, vget k acc.1 = vget k (secrets st))) in Hm;
    [done|clear Hm|by apply vget_eq, Hf].
  intros [m0 chg] [k0 v] acc _ E. cbn in *. repeat case_match; intros; simplify_eq; try done.
  cbn. rewrite vget_dset. destruct (decide (k = k0)) as [->|]; [congruence|done].
Qed.

(** An input with nothing in it changes nothing. *)
Lemma apply_nothing reg overwrite st : apply_inputs reg overwrite (VDict []) (VDict []) st = Ok (st, []).
Proof. by destruct st. Qed.

(** * The tailnet provider *)

Lemma settle_provider st :
  ∃ p, vget "TAILNET_PROVIDER" (config (settle_tailnet_provider st).1) = VStr p ∧ p ∈ TAILNET_PROVIDERS.
Proof.
  unfold settle_tailnet_provider. cbn [fst config with_config].
  eexists. rewrite vget_dset, decide_True by done. split; [done|].
  repeat case_match; try set_solver.
  match goal with H : bool_decide (_ ∈ _) = true |- _ => by apply bool_decide_eq_true in H end.
Qed.

Lemma settle_secrets st : secrets (settle_tailnet_provider st).1 = secrets st.
Proof. done. Qed.

Lemma settle_no_method st :
  wf_store st → dget "ACCESS_METHOD" (config (settle_tailnet_provider st).1) = None.
Proof.
  intros [_ H]. unfold settle_tailnet_provider. cbn [fst config with_config].
  rewrite dget_dset_ne by done. by rewrite dget_ddel_eq by by apply wf_keys.
Qed.

Lemma settle_other st k :
  k ≠ "ACCESS_METHOD" → k ≠ "TAILNET_PROVIDER" →
  vget k (config (settle_tailnet_provider st).1) = vget k (config st).
Proof.
  intros H1 H2. unfold settle_tailnet_provider. cbn [fst config with_config].
  rewrite vget_dset, decide_False by done. unfold vget. by rewrite dget_ddel_ne.
Qed.

Lemma ddel_id {V} k (d : dict V) : dget k d = None → ddel k d = d.
Proof.
  induction d as [|[k0 v0] d IH]; cbn; [done|]. case_bool_decide; [done|]. intros. f_equal; auto.
Qed.

(** A settled store is left as it is. *)
Lemma settle_id st p :
  dget "ACCESS_METHOD" (config st) = None → dget "TAILNET_PROVIDER" (config st) = Some (VStr p) →
  p ∈ TAILNET_PROVIDERS → settle_tailnet_provider st = (st, false).
Proof.
  intros Hm Hp Hin. destruct st as [s c]. unfold settle_tailnet_provider. cbn [config secrets] in *.
  rewrite ddel_id by done.
  assert (Hvm : vget "ACCESS_METHOD" c = VNone) by (unfold vget; by rewrite Hm).
  assert (Hvp : vget "TAILNET_PROVIDER" c = VStr p) by (unfold vget; by rewrite Hp).
  assert (Hl : lower (strip (str_or (VStr p))) = p).
  { unfold TAILNET_PROVIDERS in Hin. rewrite !elem_of_cons, elem_of_nil in Hin.
    by destruct Hin as [->|[->|[->|[]]]]. }
  rewrite Hvm, Hvp, Hl. change (strip (str_or VNone)) with "".
  rewrite (bool_decide_false ("" = "public_ssh")) by done. rewrite (bool_decide_true (p ∈ _)) by done.
  unfold with_config. cbn. rewrite dset_id by done. by rewrite !bool_decide_true.
Qed.

(** * Zones in key order *)

Lemma zone_name_sort z : wf_val z → zone_name (sort_keys z) = zone_name z.
Proof.
  intros Hz. destruct z as [| | | | | |d]; try done. unfold zone_name. rewrite sort_keys_dict.
  rewrite vget_sort_dict by by apply wf_keys. by destruct (vget "zone" d).
Qed.

Lemma configured_zones_sort v zs :
  wf_val v → configured_zone_names v = Ok zs →
  ∃ zs', configured_zone_names (sort_keys v) = Ok zs' ∧ zs' ≡ₚ zs.
Proof.
  intros Hv. unfold configured_zone_names.
  destruct v as [|b|z|f|s|l|d]; try (intros Hz; exists zs; by split).
  - cbn [sort_keys]. change (truthy (VList (map sort_keys l))) with (truthy (sort_keys (VList l))).
    rewrite truthy_sort. destruct (truthy (VList l)); cbn [py_iter mbind res_bind]; [|by eauto].
    intros [= <-]. eexists. split; [done|]. inversion_clear Hv as [| | | | |? Hl|].
    induction Hl as [|z l Hz Hl IH]; cbn; [done|]. by rewrite zone_name_sort, IH.
  - rewrite sort_keys_dict, <-sort_keys_dict, truthy_sort.
    destruct (truthy (VDict d)); rewrite ?sort_keys_dict; cbn [py_iter mbind res_bind]; [|by eauto].
    intros [= <-]. eexists. split; [done|].
    apply Permutation_flat_map, Permutation_map. unfold sort_dict, dkeys.
    rewrite sort_items_Permutation. change (dkeys (map sort_member d) ≡ₚ dkeys d).
    by rewrite dkeys_sort_member.
Qed.

(** * A converge, step by step *)

Section converge.
Context (reg : registry) (rand : nat → ascii).

(** What every successful converge did: it read the store, minted over the
    updated one, and wrote the result. *)
Lemma converge_inv a file pos o :
  arg_no_mint a = false → arg_mint_user_held a = false →
  converge reg rand a file pos = Ok o →
  ∃ doc st0 st1 st2 zones new1 new2 st3 inc,
    read_doc file = Ok doc ∧ load file = Ok st0 ∧ read_incoming a = Ok inc ∧
    (∃ s c ch, parse_kv (arg_set_secret a) = Ok s ∧ parse_kv (arg_set_config a) = Ok c ∧
       apply_inputs reg (arg_overwrite a) (VDict s) (VDict c)
         (match inc with [] => st0 | _ => (adopt (arg_overwrite a) inc st0).1 end) = Ok (st1, ch)) ∧
    configured_zone_names (vget "CLOUDFLARE_ZONES" (config st1)) = Ok zones ∧
    config st2 = config (settle_tailnet_provider st1).1 ∧ config st3 = config st2 ∧
    minted_spec (internal_names ++ map zone_cookie_secret_key zones) (secrets st1) (secrets st2) new1 ∧
    minted_spec converged_user_held (secrets st2) (secrets st3) new2 ∧
    out_file o = Some (dump_text st3 doc).
Proof.
  intros Hn Hu H. unfold converge in H.
  apply res_bind_Ok in H as (inc & Hinc & H). apply res_bind_Ok in H as (st0 & Hl & H).
  apply res_bind_Ok in H as ([st3 pos3] & Hup & H). apply res_bind_Ok in H as (text & Hd & H).
  unfold dump in Hd. apply res_bind_Ok in Hd as (doc & Hdoc & [= <-]).
  unfold update in Hup. apply res_bind_Ok in Hup as (s & Hs & Hup).
  apply res_bind_Ok in Hup as (c & Hc & Hup). apply res_bind_Ok in Hup as ([st1 ch] & Ha & Hup).
  unfold mint_asked in Hup. rewrite Hn, Hu in Hup.
  apply res_bind_Ok in Hup as ([[st2 l2] pos2] & He & Hup).
  destruct (ensure_internal_spec rand (settle_tailnet_provider st1).1 pos)
    as [(zones & st2' & new1 & pos2' & Hz & E2 & Hc2 & S2)|(e & _ & E2)];
    rewrite E2 in He; [|done]. simplify_eq.
  destruct (ensure_user_held_spec rand st2 pos2) as (st3' & new2 & pos3' & E3 & Hc3 & S3).
  rewrite E3 in Hup. simplify_eq.
  eexists doc, st0, st1, st2, zones, _, _, st3, inc.
  rewrite settle_other in Hz by done. rewrite settle_secrets in S2.
  split_and!; try done. eexists _, _, _. split_and!; done.
Qed.

Lemma parse_kv_wf l d : parse_kv l = Ok d → wf_val (VDict d).
Proof.
  unfold parse_kv. intros H. apply (foldM_inv (λ d, wf_val (VDict d))) in H; [done| |apply wf_nil].
  intros d0 p d1 _ Hd. unfold parse_kv_one. destruct (partition "=" p) as [[k f] v].
  destruct f; [|done]. intros [= <-]. apply wf_dset; [constructor|done].
Qed.

Lemma read_incoming_wf a d : read_incoming a = Ok d → wf_val (VDict d).
Proof.
  unfold read_incoming.
  assert (H : ∀ text : string, (v ← loads text; match v with VNone => Ok [] | VDict d => Ok d
    | _ => Raise (SystemExit 1) end) = Ok d → wf_val (VDict d)).
  { intros text (v & Hv%wf_loads & H)%res_bind_Ok. destruct v; simplify_eq; [apply wf_nil|done]. }
  destruct (strip <$> arg_adopt a) as [[|c s]|]; [intros [= <-]; apply wf_nil|apply H|intros [= <-]; apply wf_nil].
Qed.

Lemma wf_updated a inc st0 st1 s c ch :
  wf_store st0 → read_incoming a = Ok inc →
  parse_kv (arg_set_secret a) = Ok s → parse_kv (arg_set_config a) = Ok c →
  apply_inputs reg (arg_overwrite a) (VDict s) (VDict c)
    (match inc with [] => st0 | _ => (adopt (arg_overwrite a) inc st0).1 end) = Ok (st1, ch) →
  wf_store st1.
Proof.
  intros Hw Hi%read_incoming_wf Hs%parse_kv_wf Hc%parse_kv_wf Ha. eapply wf_apply in Ha; [done..|].
  destruct inc; [done|]. by apply wf_adopt.
Qed.
End converge.

Section converged.
Context (reg : registry) (rand : nat → ascii).

Lemma wf_spec_store ks st st' new :
  config st' = config st → minted_spec ks (secrets st) (secrets st') new → wf_store st → wf_store st'.
Proof. intros Hc [] [Hs Hcf]. split; [auto|by rewrite Hc]. Qed.

(** The store a successful converge leaves in the file, and the state of its
    secrets. *)
Lemma converge_result a file pos o :
  arg_no_mint a = false → arg_mint_user_held a = false →
  converge reg rand a file pos = Ok o →
  ∃ doc st3 zones p,
    out_file o = Some (dump_text st3 doc) ∧ wf_val (VDict doc) ∧ wf_store st3 ∧
    (∀ k, k ∈ (internal_names ++ map zone_cookie_secret_key zones ++ converged_user_held)%list →
       blank (vget k (secrets st3)) = false) ∧
    configured_zone_names (vget "CLOUDFLARE_ZONES" (config st3)) = Ok zones ∧
    vget "TAILNET_PROVIDER" (config st3) = VStr p ∧ p ∈ TAILNET_PROVIDERS ∧
    dget "ACCESS_METHOD" (config st3) = None.
Proof.
  intros Hn Hu H. apply converge_inv in H
    as (doc & st0 & st1 & st2 & zones & new1 & new2 & st3 & inc & Hdoc & Hl & Hi &
        (s & c & ch & Hs & Hc & Ha) & Hz & Hc2 & Hc3 & S1 & S2 & Ho); [|done..].
  apply wf_load in Hl. pose proof (wf_updated reg _ _ _ _ _ _ _ Hl Hi Hs Hc Ha) as Hw1.
  pose proof (wf_spec_store _ (settle_tailnet_provider st1).1 st2 new1 Hc2 S1 (wf_settle _ Hw1)) as Hw2.
  pose proof (wf_spec_store _ _ _ _ Hc3 S2 Hw2) as Hw3.
  destruct (settle_provider st1) as (p & Hp & Hin).
  exists doc, st3, zones, p. rewrite Hc3, Hc2. rewrite settle_other, settle_no_method by done.
  split_and!; try done; [by eapply wf_read_doc|].
  intros k Hk. destruct S1 as [K1 F1 P1 N1 _], S2 as [K2 F2 P2 N2 _].
  destruct (decide (k ∈ converged_user_held)) as [|Hu']; [auto|].
  rewrite (vget_eq k _ (secrets st2)) by auto. apply P1. rewrite !elem_of_app in *. naive_solver.
Qed.

(** The invariant a converge establishes, read back from the file. *)
Definition provisioned (st : store) : Prop :=
  (∀ k, k ∈ (internal_names ++ converged_user_held)%list → blank (vget k (secrets st)) = false) ∧
  (∃ zones, configured_zone_names (vget "CLOUDFLARE_ZONES" (config st)) = Ok zones ∧
     ∀ z, z ∈ zones → blank (vget (zone_cookie_secret_key z) (secrets st)) = false) ∧
  ∃ p, vget "TAILNET_PROVIDER" (config st) = VStr p ∧ p ∈ TAILNET_PROVIDERS.

Lemma converge_sorted_zones st zones :
  wf_store st → configured_zone_names (vget "CLOUDFLARE_ZONES" (config st)) = Ok zones →
  ∃ zones', configured_zone_names (vget "CLOUDFLARE_ZONES" (config (sorted_store st))) = Ok zones' ∧
    zones' ≡ₚ zones.
Proof.
  intros Hw Hz. rewrite vget_sorted_config by done. apply configured_zones_sort; [|done].
  apply wf_vget, Hw.
Qed.

(** Claim C15: whatever the file held and whatever was adopted or passed, a
    converge that succeeds leaves a file that loads to a store where every
    internal secret, every configured zone's cookie secret and both converged
    user-held passwords are present and not blank, and the tailnet provider is
    one of the three declared ones. *)
Theorem converge_provisions a file pos o :
  arg_no_mint a = false → arg_mint_user_held a = false →
  converge reg rand a file pos = Ok o →
  ∃ st, load (out_file o) = Ok st ∧ provisioned st.
Proof.
  intros Hn Hu H.
  destruct (converge_result a file pos o Hn Hu H)
    as (doc & st & zones & p & -> & Hdoc & Hw & Hb & Hz & Hp & Hin & _).
  exists (sorted_store st). split; [by apply load_dump_text|].
  assert (Hb' : ∀ k, k ∈ (internal_names ++ map zone_cookie_secret_key zones ++ converged_user_held)%list →
    blank (vget k (secrets (sorted_store st))) = false).
  { intros k Hk. rewrite vget_sorted_secret, blank_sort by done. auto. }
  destruct (converge_sorted_zones st zones Hw Hz) as (zones' & Hz' & Hperm).
  unfold provisioned. split_and!.
  - intros k Hk. apply Hb'. rewrite !elem_of_app in *. naive_solver.
  - exists zones'. split; [done|]. intros z Hin'. apply Hb'. rewrite Hperm in Hin'.
    rewrite !elem_of_app. right; left. by apply list_elem_of_fmap_2.
  - exists p. rewrite vget_sorted_config by done. by rewrite Hp.
Qed.

(** Reconcile, not overwrite.  A converge that was not asked to
    overwrite keeps every secret the store already held and that was not
    blank, whatever was adopted, supplied or minted beside it; only the map
    the outgoing zone token is recorded in may change. *)
Theorem converge_keeps_secrets a file pos o st0 k :
  arg_no_mint a = false → arg_mint_user_held a = false → arg_overwrite a = false →
  load file = Ok st0 → converge reg rand a file pos = Ok o →
  k ≠ "cloudflare_api_tokens" →
  truthy (vget k (secrets st0)) = true → blank (vget k (secrets st0)) = false →
  ∃ st, load (out_file o) = Ok st ∧ vget k (secrets st) = sort_keys (vget k (secrets st0)).
Proof.
  intros Hn Hu Ho Hl H Hk Ht Hb. apply converge_inv in H
    as (doc & st0' & st1 & st2 & zones & new1 & new2 & st3 & inc & Hdoc & Hl' & Hi &
        (s & c & ch & Hs & Hc & Ha) & Hz & Hc2 & Hc3 & S1 & S2 & Hof); [|done..].
  rewrite Hl in Hl'. simplify_eq. apply wf_load in Hl.
  pose proof (wf_updated reg _ _ _ _ _ _ _ Hl Hi Hs Hc Ha) as Hw1.
  pose proof (wf_spec_store _ (settle_tailnet_provider st1).1 st2 new1 Hc2 S1 (wf_settle _ Hw1)) as Hw2.
  pose proof (wf_spec_store _ _ _ _ Hc3 S2 Hw2) as Hw3. apply wf_read_doc in Hdoc.
  exists (sorted_store st3). rewrite Hof. split; [by apply load_dump_text|].
  rewrite vget_sorted_secret by done. f_equal. rewrite Ho in Ha.
  assert (E0 : vget k (secrets (match inc with [] => st0' | _ => (adopt false inc st0').1 end))
               = vget k (secrets st0')).
  { destruct inc; [done|]. by apply adopt_fill_only. }
  eapply apply_fill_only in Ha; [|done|by rewrite E0]. rewrite E0 in Ha.
  destruct S1 as [K1 _ _ _ _], S2 as [K2 _ _ _ _].
  rewrite (vget_eq k (secrets st3) (secrets st2)), (vget_eq k (secrets st2) (secrets st1)); [done| |].
  - apply K1. by rewrite Ha.
  - apply K2. rewrite (vget_eq k (secrets st2) (secrets st1)); [by rewrite Ha|]. apply K1. by rewrite Ha.
Qed.

Lemma dset_idemp {V} k (v : V) d : dset k v (dset k v d) = dset k v d.
Proof. apply dset_id, dget_dset_eq. Qed.

(** Writing what was just read writes the same text. *)
Lemma dump_text_again st doc :
  wf_store st → wf_val (VDict doc) →
  dump_text (sorted_store st) (sort_dict (merged st doc)) = dump_text st doc.
Proof.
  intros Hw Hdoc. rewrite !dump_text_eq. f_equal. f_equal.
  pose proof (wf_merged st doc Hw Hdoc) as Hm.
  assert (E : merged (sorted_store st) (sort_dict (merged st doc)) = sort_dict (merged st doc));
    [|by rewrite E, sort_dict_idemp].
  unfold merged at 1. rewrite !dset_id; [done|..]; rewrite ?dset_id;
    rewrite dget_sort_dict by (by apply wf_keys); unfold merged;
    rewrite ?dget_dset_eq, ?dget_dset_ne, ?dget_dset_eq by done; done.
Qed.

(** A converge with no inputs is a fixpoint.  Run again over the
    file a converge left, it succeeds, mints nothing whatever the random bytes
    would be, and writes the same text byte for byte. *)
Theorem converge_fixpoint a a' file pos pos' o :
  arg_no_mint a = false → arg_mint_user_held a = false →
  arg_no_mint a' = false → arg_mint_user_held a' = false →
  arg_set_secret a' = [] → arg_set_config a' = [] → arg_adopt a' = None →
  converge reg rand a file pos = Ok o →
  ∃ o', converge reg rand a' (out_file o) pos' = Ok o' ∧ out_file o' = out_file o.
Proof.
  intros Hn Hu Hn' Hu' Hs' Hc' Hi' H.
  destruct (converge_result a file pos o Hn Hu H)
    as (doc & st & zones & p & Ef & Hdoc & Hw & Hb & Hz & Hp & Hin & Hm).
  rewrite Ef. unfold converge, read_incoming. rewrite Hi'. cbn [fmap option_fmap option_map mbind res_bind].
  rewrite load_dump_text by done. cbn [mbind res_bind].
  unfold update. rewrite Hs', Hc'. cbn [parse_kv foldM mbind res_bind].
  rewrite apply_nothing. cbn [mbind res_bind].
  rewrite (settle_id _ p); [|..|done].
  - unfold mint_asked. rewrite Hn', Hu'. cbn [fst].
    destruct (converge_sorted_zones st zones Hw Hz) as (zones' & Hz' & Hperm).
    assert (Hb' : ∀ k, k ∈ (internal_names ++ map zone_cookie_secret_key zones' ++ converged_user_held)%list →
      blank (vget k (secrets (sorted_store st))) = false).
    { intros k Hk. rewrite vget_sorted_secret, blank_sort by done. apply Hb. by rewrite <-Hperm. }
    rewrite (ensure_internal_nop _ _ zones') by
      (done || intros k Hk; apply Hb'; rewrite app_assoc, elem_of_app; by left).
    cbn [mbind res_bind]. rewrite ensure_user_held_nop by
      (intros k Hk; apply Hb'; rewrite !elem_of_app; auto).
    cbn [mbind res_bind]. unfold dump. rewrite read_dump_text by done. cbn [mbind res_bind].
    rewrite dump_text_again by done. by eexists.
  - destruct Hw as [_ Hcw]. cbn [sorted_store config].
    rewrite dget_sort_dict by by apply wf_keys. by rewrite Hm.
  - destruct Hw as [_ Hcw]. cbn [sorted_store config].
    rewrite dget_sort_dict by by apply wf_keys. unfold vget in Hp.
    destruct (dget "TAILNET_PROVIDER" (config st)); [|done]. cbn in Hp. by subst.
Qed.
End converged.

(** * The settings API *)

Lemma dispatch_inv reg req file o :
  dispatch reg req file = Ok o →
  (∃ st, load file = Ok st ∧ o = {| out_file := file; out_print := Some (panel_view reg st) |}) ∨
  (∃ s c doc st0 st ch, wf_val s ∧ wf_val c ∧ read_doc file = Ok doc ∧ load file = Ok st0 ∧
     apply_inputs reg true s c st0 = Ok (st, ch) ∧
     o = {| out_file := Some (dump_text st doc); out_print := Some (VDict [("ok", VBool true)]) |}).
Proof.
  unfold dispatch. intros (v & Hv%wf_loads & H)%res_bind_Ok. destruct v as [| | | | | |d]; try done.
  cbn zeta in H. destruct (py_eq _ _); [|destruct (py_eq _ _); [|done]].
  - apply res_bind_Ok in H as (st & Hl & [= <-]). left. eauto.
  - apply res_bind_Ok in H as (st0 & Hl & H). apply res_bind_Ok in H as ([st ch] & Ha & H).
    apply res_bind_Ok in H as (text & Hd & [= <-]).
    unfold dump in Hd. apply res_bind_Ok in Hd as (doc & Hdoc & [= <-]).
    right. exists (vget "secrets" d), (vget "config" d), doc, st0, st, ch.
    split_and!; [by apply wf_vget|by apply wf_vget|done..].
Qed.

(** The secrets the host mints, which no settings write may name. *)
Definition minted_names : list string := (internal_names ++ user_held_names)%list.

Lemma minted_not_settable k : k ∈ minted_names → ¬ settable catena_registry k.
Proof.
  assert (H : Forall (λ k, ¬ (k ∈ EXTERNAL_SECRETS catena_registry) ∧ k ≠ "cloudflare_api_tokens")
                minted_names).
  { apply (bool_decide_unpack _). by vm_compute. }
  rewrite Forall_forall in H. intros Hk. destruct (H k Hk) as [H1 H2]. by intros [|].
Qed.

(** A settings write reaches the external secrets and nothing else.
    Whatever the request says, a write that succeeds leaves every secret
    outside the registry's external set as the store held it, and every block
    of the file that belongs to another writer; with the registry of this
    repository no minted secret can be set through it. *)
Theorem settings_write_confined reg req file o :
  dispatch reg req file = Ok o → out_print o = Some (VDict [("ok", VBool true)]) →
  ∃ st0 st doc doc', load file = Ok st0 ∧ load (out_file o) = Ok st ∧
    read_doc file = Ok doc ∧ read_doc (out_file o) = Ok doc' ∧
    (∀ k, ¬ settable reg k → vget k (secrets st) = sort_keys (vget k (secrets st0))) ∧
    (∀ k, k ≠ "secrets" → k ≠ "config" → dget k doc' = sort_keys <$> dget k doc) ∧
    (reg = catena_registry → ∀ k, k ∈ minted_names → vget k (secrets st) = sort_keys (vget k (secrets st0))).
Proof.
  intros H Hp. apply dispatch_inv in H as [(st & _ & ->)|H].
  { cbn in Hp. unfold panel_view in Hp. simplify_eq. }
  destruct H as (s & c & doc & st0 & st & ch & Hs & Hc & Hdoc & Hl & Ha & ->). cbn [out_file].
  pose proof (wf_load _ _ Hl) as Hw0. pose proof (wf_apply _ _ _ _ _ _ _ Hs Hc Hw0 Ha) as Hw.
  pose proof (wf_read_doc _ _ Hdoc) as Hwd.
  assert (Hk : ∀ k, ¬ settable reg k →
    vget k (secrets (sorted_store st)) = sort_keys (vget k (secrets st0))).
  { intros k Hk. rewrite vget_sorted_secret by done. f_equal.
    apply vget_eq. by eapply apply_frame. }
  exists st0, (sorted_store st), doc, (sort_dict (merged st doc)).
  split_and!; [done| |done| |exact Hk| |].
  - by apply load_dump_text.
  - by apply read_dump_text.
  - intros k H1 H2. rewrite dget_sort_dict by (by apply wf_keys, wf_merged).
    unfold merged. by rewrite !dget_dset_ne.
  - intros -> k Hin. by apply Hk, minted_not_settable.
Qed.

(** The secrets the panel never reads: every internal one, and the console
    password. *)
Definition hidden_names : list string := (internal_names ++ ["console_recovery_password"])%list.

Lemma dget_filter_key (P : string → bool) k (d : dict val) :
  dget k (List.filter (λ kv, P kv.1) d) = if P k then dget k d else None.
Proof.
  induction d as [|[k0 v0] d IH]; cbn; [by destruct (P k)|].
  destruct (P k0) eqn:E0; cbn; case_bool_decide; subst; rewrite ?IH, ?E0; try done.
Qed.

(** What a settings read prints.  With this repository's registry it
    leaves the file alone and prints the whole config and exactly the stored
    secrets of the panel's set; an internal secret and the console password
    are in no answer. *)
Theorem settings_read_confined req file o :
  dispatch catena_registry req file = Ok o → out_print o ≠ Some (VDict [("ok", VBool true)]) →
  ∃ st s c, load file = Ok st ∧ out_file o = file ∧
    out_print o = Some (VDict [("secrets", VDict s); ("config", VDict c)]) ∧ c = config st ∧
    (∀ k, k ∈ PANEL_SECRETS catena_registry → dget k s = dget k (secrets st)) ∧
    (∀ k, k ∉ PANEL_SECRETS catena_registry → dget k s = None) ∧
    (∀ k, k ∈ hidden_names → dget k s = None).
Proof.
  intros H Hp. apply dispatch_inv in H as [(st & Hl & ->)|H].
  2:{ destruct H as (s & c & doc & st0 & st & ch & _ & _ & _ & _ & _ & ->). done. }
  set (P := λ k, bool_decide (k ∈ PANEL_SECRETS catena_registry)).
  exists st, (List.filter (λ kv, P kv.1) (secrets st)), (config st). split_and!; try done.
  - intros k Hk. rewrite dget_filter_key. unfold P. by rewrite bool_decide_true.
  - intros k Hk. rewrite dget_filter_key. unfold P. by rewrite bool_decide_false.
  - intros k Hk. rewrite dget_filter_key.
    assert (Hf : Forall (λ k, P k = false) hidden_names).
    { unfold P. apply (bool_decide_unpack _). by vm_compute. }
    rewrite Forall_forall in Hf. by rewrite Hf.
Qed.

(** Claim C35: the format contracts.  Whatever bytes [os.urandom] draws, a
    strong password is 64 characters of base64, a Healthchecks API key 32 of
    hexadecimal, a ping key 32 and an admin password 20 URL-safe characters,
    and an oauth2-proxy cookie secret decodes, unpadded, to the 32 random
    bytes it was minted from. *)
Theorem minter_formats rand pos :
  let strong := (mint_strong_password rand pos).1 in
  let hc := (mint_hc_api_key rand pos).1 in
  let url := (mint_url_safe rand pos).1 in
  let admin := (mint_admin_password rand pos).1 in
  let cookie := (mint_oauth2_proxy_cookie_secret rand pos).1 in
  (String.length strong = 64 ∧ sforall is_std_char strong = true) ∧
  (String.length hc = 32 ∧ sforall is_hex_char hc = true) ∧
  (String.length url = 32 ∧ sforall is_url_char url = true) ∧
  (String.length admin = 20 ∧ sforall is_url_char admin = true) ∧
  (sforall is_url_char cookie = true ∧
   ∃ bytes, String.length bytes = 32 ∧ raw_url_decode cookie = Some bytes).
Proof.
  cbn zeta.
  split; [split; [apply length_strong|apply alphabet_strong]|].
  split; [split; [apply length_hc|apply alphabet_hc]|].
  split; [split; [apply length_url_safe|apply alphabet_url_safe]|].
  split; [split; [apply length_admin|apply alphabet_url_safe]|].
  split; [apply alphabet_cookie|].
  exists (rand_bytes rand 32 pos). split; [apply length_rand_bytes|].
  rewrite mint_cookie_eq. apply raw_url_decode_b64.
Qed.

(** Settling the tailnet provider.  On every store it leaves one of
    the three declared providers and no [ACCESS_METHOD], changes nothing else,
    keeps the posture the store described (the public-SSH method is [none], a
    declared provider stands, else a control server is Headscale), and
    settling again changes nothing. *)
Theorem settle_settles st :
  wf_store st →
  let st' := (settle_tailnet_provider st).1 in
  let method := strip (str_or (vget "ACCESS_METHOD" (config st))) in
  let stored := lower (strip (str_or (vget "TAILNET_PROVIDER" (config st)))) in
  (∃ p, vget "TAILNET_PROVIDER" (config st') = VStr p ∧ p ∈ TAILNET_PROVIDERS ∧
     (method = "public_ssh" → p = "none") ∧
     (method ≠ "public_ssh" → stored ∈ TAILNET_PROVIDERS → p = stored) ∧
     (method ≠ "public_ssh" → stored ∉ TAILNET_PROVIDERS →
      strip (str_or (vget "TAILNET_CONTROL_URL" (config st))) ≠ "" → p = "headscale")) ∧
  dget "ACCESS_METHOD" (config st') = None ∧ secrets st' = secrets st ∧
  (∀ k, k ≠ "ACCESS_METHOD" → k ≠ "TAILNET_PROVIDER" → vget k (config st') = vget k (config st)) ∧
  settle_tailnet_provider st' = (st', false).
Proof.
  intros Hw. cbn zeta. pose proof (settle_no_method st Hw) as Hm.
  destruct (settle_provider st) as (p & Hp & Hin).
  assert (Hg : dget "TAILNET_PROVIDER" (config (settle_tailnet_provider st).1) = Some (VStr p)).
  { revert Hp. unfold vget. generalize (dget "TAILNET_PROVIDER" (config (settle_tailnet_provider st).1)).
    by intros [v|] Hp; cbn in Hp; subst. }
  split_and!; [|done|done|by apply settle_other|by apply (settle_id _ p)].
  exists p. split_and!; [done|done|..];
    unfold settle_tailnet_provider in Hp; cbn [fst config with_config] in Hp;
    rewrite vget_dset, decide_True in Hp by done;
    rewrite !(vget_eq _ (ddel "ACCESS_METHOD" (config st)) (config st)) in Hp
      by (by apply dget_ddel_ne); injection Hp as <-.
  - intros ->. done.
  - intros H1 H2. by rewrite bool_decide_false, bool_decide_true.
  - intros H1 H2 H3. rewrite (bool_decide_false (_ = "public_ssh")) by done.
    rewrite (bool_decide_false (_ ∈ _)) by done. by rewrite (bool_decide_false (_ = "")) by done.
Qed.

(** * Two zones, one secret *)

(** The slug of a zone forgets which separator it had: two registrable zones
    share one cookie secret. *)
Lemma zone_cookie_secret_shared :
  "my-site.com" ≠ "my.site.com" ∧
  zone_cookie_secret_key "my-site.com" = zone_cookie_secret_key "my.site.com".
Proof. by split; [|vm_compute]. Qed.

(** A fill-only call that names another zone records the outgoing token and
    reports a change, though the stored zone stays. *)
Lemma fill_only_records_outgoing_token :
  let st := {| secrets := [("cloudflare_api_token", VStr "t0")];
               config := [("CLOUDFLARE_ZONE", VStr "a.com")] |} in
  apply_inputs catena_registry false VNone (VDict [("CLOUDFLARE_ZONE", VStr "b.com")]) st
    = Ok ({| secrets := [("cloudflare_api_token", VStr "t0");
                         ("cloudflare_api_tokens", VDict [("a.com", VStr "t0")])];
             config := [("CLOUDFLARE_ZONE", VStr "a.com")] |}, ["cloudflare_api_tokens"]).
Proof. by vm_compute. Qed.

(** [settle_tailnet_provider] drops a blank [ACCESS_METHOD] and reports no change. *)
Lemma settle_unreported_change :
  let st := {| secrets := []; config := [("ACCESS_METHOD", VStr ""); ("TAILNET_PROVIDER", VStr "none")] |} in
  settle_tailnet_provider st
    = ({| secrets := []; config := [("TAILNET_PROVIDER", VStr "none")] |}, false).
Proof. by vm_compute. Qed.

(** * Witnesses *)

Definition demo_rand (n : nat) : ascii := ascii_of_nat (n mod 251).

Definition demo_args (set_config : list string) (adopt : option string) : args :=
  {| arg_set_secret := []; arg_set_config := set_config; arg_overwrite := false;
     arg_no_mint := false; arg_mint_user_held := false; arg_adopt := adopt;
     arg_emit := EmitSecrets; arg_dispatch := None |}.

Definition demo_store : val :=
  VDict [("config", VDict [("ACCESS_METHOD", VStr "tailnet");
                           ("CLOUDFLARE_ZONES", VList [VStr "b.com"; VDict [("zone", VStr "c.org")]])]);
         ("image_pins", VDict [("docker.io/catena/x", VStr "docker.io/catena/x:1.2.3")]);
         ("secrets", VDict [("zap_api_key", VStr "kept"); ("admin_password", VStr " ")])].
Definition demo_file : option string := Some (dumps default_style demo_store).
Definition demo_adopt : option string := Some (dumps default_style (VDict [("zap_api_key", VStr "other")])).

Definition outcome_of (r : res outcome) : outcome :=
  match r with Ok o => o | Raise _ => {| out_file := None; out_print := None |} end.
Definition demo_out : outcome :=
  outcome_of (converge catena_registry demo_rand (demo_args [] demo_adopt) demo_file 0).

Lemma demo_converges :
  converge catena_registry demo_rand (demo_args [] demo_adopt) demo_file 0 = Ok demo_out.
Proof. by vm_compute. Qed.

Lemma converge_provisions_witness :
  ∃ st, load (out_file demo_out) = Ok st ∧ provisioned st.
Proof.
  apply (converge_provisions catena_registry demo_rand (demo_args [] demo_adopt) demo_file 0 demo_out
           eq_refl eq_refl demo_converges).
Defined.

Definition demo_loaded : store :=
  {| secrets := [("zap_api_key", VStr "kept"); ("admin_password", VStr " ")];
     config := [("ACCESS_METHOD", VStr "tailnet");
                ("CLOUDFLARE_ZONES", VList [VStr "b.com"; VDict [("zone", VStr "c.org")]])] |}.

Lemma converge_keeps_secrets_witness :
  ∃ st, load (out_file demo_out) = Ok st ∧ vget "zap_api_key" (secrets st) = VStr "kept".
Proof.
  apply (converge_keeps_secrets catena_registry demo_rand (demo_args [] demo_adopt) demo_file 0 demo_out
           demo_loaded "zap_api_key" eq_refl eq_refl eq_refl); try (by vm_compute).
Defined.

Lemma converge_fixpoint_witness :
  ∃ o', converge catena_registry demo_rand (demo_args [] None) (out_file demo_out) 17 = Ok o' ∧
        out_file o' = out_file demo_out.
Proof.
  apply (converge_fixpoint catena_registry demo_rand (demo_args [] demo_adopt) (demo_args [] None)
           demo_file 0 17 demo_out eq_refl eq_refl eq_refl eq_refl eq_refl eq_refl eq_refl
           demo_converges).
Defined.

Definition demo_write : string :=
  dumps compact_style (VDict [("op", VStr "write");
    ("secrets", VDict [("smtp_password", VStr "s3")]); ("config", VDict [("SMTP_HOST", VStr "mx")])]).
Definition demo_read : string := dumps compact_style (VDict [("op", VStr "read")]).

Lemma settings_write_confined_witness :
  let o := outcome_of (dispatch catena_registry demo_write demo_file) in
  ∃ st0 st doc doc', load demo_file = Ok st0 ∧ load (out_file o) = Ok st ∧
    read_doc demo_file = Ok doc ∧ read_doc (out_file o) = Ok doc' ∧
    (∀ k, ¬ settable catena_registry k → vget k (secrets st) = sort_keys (vget k (secrets st0))) ∧
    (∀ k, k ≠ "secrets" → k ≠ "config" → dget k doc' = sort_keys <$> dget k doc) ∧
    (catena_registry = catena_registry →
     ∀ k, k ∈ minted_names → vget k (secrets st) = sort_keys (vget k (secrets st0))).
Proof. apply (settings_write_confined catena_registry demo_write demo_file); by vm_compute. Defined.

Lemma settings_read_confined_witness :
  let o := outcome_of (dispatch catena_registry demo_read demo_file) in
  ∃ st s c, load demo_file = Ok st ∧ out_file o = demo_file ∧
    out_print o = Some (VDict [("secrets", VDict s); ("config", VDict c)]) ∧ c = config st ∧
    (∀ k, k ∈ PANEL_SECRETS catena_registry → dget k s = dget k (secrets st)) ∧
    (∀ k, k ∉ PANEL_SECRETS catena_registry → dget k s = None) ∧
    (∀ k, k ∈ hidden_names → dget k s = None).
Proof.
  apply (settings_read_confined demo_read demo_file); [by vm_compute|].
  assert (H : bool_decide (out_print (outcome_of (dispatch catena_registry demo_read demo_file))
    = Some (VDict [("ok", VBool true)])) = false) by by vm_compute.
  by rewrite bool_decide_eq_false in H.
Defined.

Lemma settle_settles_witness :
  wf_store demo_loaded ∧
  (settle_tailnet_provider (settle_tailnet_provider demo_loaded).1).2 = false.
Proof.
  assert (H : wf_store demo_loaded).
  { apply (wf_load demo_file). by vm_compute. }
  split; [done|]. destruct (settle_settles demo_loaded H) as (_ & _ & _ & _ & E). by rewrite E.
Defined.
