(* ===== verification/StoreLock.v ===== *)
(** The store's leaf lock: writers of [/etc/catena/config.json] interleaved
    with kills and waits ([store_lock] and the file side of [dump] in
    [ansible/helpers/onbox_config.py]).  A writer is its read-modify-write of
    the file's text; the engines of the payload that take the same lock are
    writers too. *)
From S2P Require Import Prelude PyStr PyNum PyVal Json OnboxConfig.

(** A writer: what it makes of the text it read, and then the text it replaces
    the file with, from the text [dump] reads again to merge into. *)
Abbreviation writer := (option string → res (option string → res string)).

(** Where one process is in [with store_lock(): load; ...; dump]. *)
Inductive pc :=
  | Waiting                          (* in the [flock] loop *)
  | Locked                           (* holds the lock, nothing read *)
  | Loaded (snap : option string)    (* read the file *)
  | Merged (r : res string)          (* [dump] read it again: the text, or an exception *)
  | Opened (text : string)           (* computed its text; the temporary file is open *)
  | Staged (text : string)           (* the temporary file is written *)
  | Done
  | TimedOut                         (* exit 75 *)
  | Failed                           (* an exception between read and write *)
  | Killed.

Record state := {
  file : option string;
  tmp : option string;
  lock : option nat;
  pcs : nat → pc;
  log : list nat                     (* the writers that replaced the file, latest first *)
}.

Definition set_pc (i : nat) (p : pc) (f : nat → pc) : nat → pc :=
  λ j, if decide (j = i) then p else f j.

(** The process's descriptor is closed: its lock, if it had one, is free. *)
Definition release (i : nat) (l : option nat) : option nat :=
  if bool_decide (l = Some i) then None else l.

Section lock.
Context (writers : nat → writer).

Inductive step : state → state → Prop :=
  | step_acquire i s :
      pcs s i = Waiting → lock s = None →
      step s {| file := file s; tmp := tmp s; lock := Some i;
                pcs := set_pc i Locked (pcs s); log := log s |}
  | step_timeout i j s :
      pcs s i = Waiting → lock s = Some j →
      step s {| file := file s; tmp := tmp s; lock := release i (lock s);
                pcs := set_pc i TimedOut (pcs s); log := log s |}
  | step_load i s :
      pcs s i = Locked →
      step s {| file := file s; tmp := tmp s; lock := lock s;
                pcs := set_pc i (Loaded (file s)) (pcs s); log := log s |}
  | step_fail i snap e s :
      pcs s i = Loaded snap → writers i snap = Raise e →
      step s {| file := file s; tmp := tmp s; lock := release i (lock s);
                pcs := set_pc i Failed (pcs s); log := log s |}
  | step_reload i snap k s :
      pcs s i = Loaded snap → writers i snap = Ok k →
      step s {| file := file s; tmp := tmp s; lock := lock s;
                pcs := set_pc i (Merged (k (file s))) (pcs s); log := log s |}
  | step_dump_fail i e s :
      pcs s i = Merged (Raise e) →
      step s {| file := file s; tmp := tmp s; lock := release i (lock s);
                pcs := set_pc i Failed (pcs s); log := log s |}
  | step_open i text s :
      pcs s i = Merged (Ok text) →
      step s {| file := file s; tmp := Some EmptyString; lock := lock s;
                pcs := set_pc i (Opened text) (pcs s); log := log s |}
  | step_write i text s :
      pcs s i = Opened text →
      step s {| file := file s; tmp := Some text; lock := lock s;
                pcs := set_pc i (Staged text) (pcs s); log := log s |}
  | step_replace i text s :
      pcs s i = Staged text →
      step s {| file := tmp s; tmp := None; lock := release i (lock s);
                pcs := set_pc i Done (pcs s); log := i :: log s |}
  | step_kill i s :
      step s {| file := file s; tmp := tmp s; lock := release i (lock s);
                pcs := set_pc i Killed (pcs s); log := log s |}.

Inductive reachable (s0 : state) : state → Prop :=
  | reach_refl : reachable s0 s0
  | reach_step s s' : reachable s0 s → step s s' → reachable s0 s'.

(** Every process waiting, the lock free: whatever a killed writer left as the
    temporary file. *)
Definition initial (f t : option string) : state :=
  {| file := f; tmp := t; lock := None; pcs := λ _, Waiting; log := [] |}.

(** A writer alone: both reads find the same file. *)
Definition write_alone (w : writer) (f : option string) : res string := k ← w f; k f.
(** The writers of a log run one after the other, oldest first. *)
Fixpoint serial (f0 : option string) (l : list nat) : res (option string) :=
  match l with
  | [] => Ok f0
  | i :: l => f ← serial f0 l; text ← write_alone (writers i) f; Ok (Some text)
  end.

(** The processes past the lock. *)
Definition holding (p : pc) : bool :=
  match p with Locked | Loaded _ | Merged _ | Opened _ | Staged _ => true | _ => false end.

(** What the lock buys: one process past it, whose snapshot is the file, whose
    text is the file's next content, and whose temporary file is its own. *)
Definition consistent (s : state) : Prop :=
  (∀ i, holding (pcs s i) = true → lock s = Some i) ∧
  (∀ i snap, pcs s i = Loaded snap → snap = file s) ∧
  (∀ i r, pcs s i = Merged r → write_alone (writers i) (file s) = r) ∧
  (∀ i text, pcs s i = Opened text → write_alone (writers i) (file s) = Ok text) ∧
  (∀ i text, pcs s i = Staged text → write_alone (writers i) (file s) = Ok text ∧ tmp s = Some text).

Lemma set_pc_eq i p f : set_pc i p f i = p.
Proof. unfold set_pc. by rewrite decide_True. Qed.
Lemma set_pc_ne i j p f : j ≠ i → set_pc i p f j = f j.
Proof. intros. unfold set_pc. by rewrite decide_False. Qed.

Lemma only_holder s i j :
  consistent s → holding (pcs s i) = true → holding (pcs s j) = true → j = i.
Proof. intros (H & _) Hi%H Hj%H. congruence. Qed.

Lemma release_other i j l : j ≠ i → l = Some j → release i l = Some j.
Proof. intros ? ->. unfold release. rewrite bool_decide_false; congruence. Qed.

(** A step of [i] keeps the others' part of [consistent] when it leaves the
    file and the temporary file alone, or when [i] holds the lock. *)
Lemma consistent_step i p s f t l lg :
  consistent s →
  (∀ j, j ≠ i → lock s = Some j → l = Some j) →
  (holding p = true → l = Some i) →
  (∀ snap, p = Loaded snap → snap = f) →
  (∀ r, p = Merged r → write_alone (writers i) f = r) →
  (∀ text, p = Opened text → write_alone (writers i) f = Ok text) →
  (∀ text, p = Staged text → write_alone (writers i) f = Ok text ∧ t = Some text) →
  (f = file s ∧ t = tmp s ∨ holding (pcs s i) = true) →
  consistent {| file := f; tmp := t; lock := l; pcs := set_pc i p (pcs s); log := lg |}.
Proof.
  intros Hc Hl Hp1 Hp2 Hp3 Hp4 Hp5 Hor. pose proof Hc as (H1 & H2 & H3 & H4 & H5).
  assert (Hoth : ∀ j, j ≠ i → holding (pcs s j) = true → f = file s ∧ t = tmp s).
  { intros j Hj Hh. destruct Hor as [?|Hi]; [done|]. by destruct (Hj (only_holder s i j Hc Hi Hh)). }
  split_and!; cbn; intros j; (destruct (decide (j = i)) as [->|Hj]; [rewrite set_pc_eq|rewrite set_pc_ne by done]);
    auto.
  - intros snap E. destruct (Hoth j Hj) as [-> _]; [by rewrite E|]. eauto.
  - intros r E. destruct (Hoth j Hj) as [-> _]; [by rewrite E|]. eauto.
  - intros text E. destruct (Hoth j Hj) as [-> _]; [by rewrite E|]. eauto.
  - intros text E. destruct (Hoth j Hj) as [-> ->]; [by rewrite E|]. eauto.
Qed.

Lemma step_consistent s s' : consistent s → step s s' → consistent s'.
Proof.
  intros Hc Hs. pose proof Hc as (H1 & H2 & H3 & H4 & H5).
  destruct Hs as [i s Hi Hl|i j s Hi Hl|i s Hi|i snap e s Hi Hw|i snap k s Hi Hw|i e s Hi|i text s Hi|i text s Hi|i text s Hi|i s].
  - apply consistent_step; try done; [|by left]. intros j Hj E. congruence.
  - apply consistent_step; try done; [|by left]. intros k Hk. by apply release_other.
  - apply consistent_step; try done; [|by intros snap [= <-]|by left].
    intros _. apply H1. by rewrite Hi.
  - apply consistent_step; try done; [|by left]. intros k Hk. by apply release_other.
  - apply consistent_step; try done; [| |by left].
    + intros _. apply H1. by rewrite Hi.
    + intros r [= <-]. unfold write_alone. by rewrite <-(H2 _ _ Hi), Hw.
  - apply consistent_step; try done; [|by left]. intros k Hk. by apply release_other.
  - apply consistent_step; try done; [| |by right; rewrite Hi].
    + intros _. apply H1. by rewrite Hi.
    + intros text' [= <-]. by apply H3 in Hi.
  - apply consistent_step; try done; [| |by right; rewrite Hi].
    + intros _. apply H1. by rewrite Hi.
    + intros text' [= <-]. split; [by apply H4 in Hi|done].
  - apply consistent_step; try done; [|by right; rewrite Hi]. intros k Hk. by apply release_other.
  - apply consistent_step; try done; [|by left]. intros k Hk. by apply release_other.
Qed.

Lemma reachable_consistent f t s : reachable (initial f t) s → consistent s.
Proof.
  induction 1 as [|s s' _ IH Hs]; [|by eapply step_consistent].
  split_and!; cbn; by intros.
Qed.
End lock.

(** Claim C32: two writes both stand.  In every interleaving of any writers
    with kills, waits that time out and writers that fail, the file is exactly
    what the writers that replaced it produce one after the other in the order
    they did, each reading what the one before it wrote; so it is never torn,
    never a stale writer's, and a writer that timed out or failed left it
    alone. *)
Theorem store_lock_serializes writers f t s :
  reachable writers (initial f t) s → serial writers f (log s) = Ok (file s).
Proof.
  intros Hr. pose proof Hr as Hc%reachable_consistent. revert Hc.
  induction Hr as [|s s' Hr IH Hs]; [done|]. intros _.
  pose proof (reachable_consistent _ _ _ _ Hr) as Hc. specialize (IH Hc).
  destruct Hc as (H1 & H2 & H3 & H4 & H5). destruct Hs; cbn; try done.
  match goal with H : pcs _ _ = Staged _ |- _ => destruct (H5 _ _ H) as [Hw Ht] end.
  rewrite IH. cbn. by rewrite Hw, Ht.
Qed.

(** Two settings writes of different keys, the second waiting for the first. *)
Definition setting (k v : string) : writer := λ file,
  st ← load file;
  '(st, _) ← apply_inputs catena_registry true VNone (VDict [(k, VStr v)]) st;
  Ok (λ file, dump st file).
Definition demo_writers (i : nat) : writer :=
  if bool_decide (i = 0) then setting "SMTP_HOST" "mx" else setting "SMTP_USER" "me".

Definition demo_text (r : res string) : string := match r with Ok t => t | Raise _ => EmptyString end.
Definition demo_text0 : string := demo_text (write_alone (demo_writers 0) None).
Definition demo_text1 : string := demo_text (write_alone (demo_writers 1) (Some demo_text0)).

Lemma demo_write0 : write_alone (demo_writers 0) None = Ok demo_text0.
Proof. vm_compute. reflexivity. Qed.
Lemma demo_write1 : write_alone (demo_writers 1) (Some demo_text0) = Ok demo_text1.
Proof. vm_compute. reflexivity. Qed.

(** One writer's whole run, from waiting to done. *)
Lemma run_writer writers s0 i text s :
  reachable writers s0 s → pcs s i = Waiting → lock s = None → write_alone (writers i) (file s) = Ok text →
  ∃ s', reachable writers s0 s' ∧ file s' = Some text ∧ lock s' = None ∧ log s' = i :: log s ∧
        ∀ j, j ≠ i → pcs s' j = pcs s j.
Proof.
  unfold write_alone. intros Hr Hp Hl (k & Hw & Hk)%res_bind_Ok. eexists. split.
  - eapply reach_step; [eapply reach_step; [eapply reach_step; [eapply reach_step; [eapply reach_step; [eapply reach_step;
      [exact Hr|]|]|]|]|]|].
    + by apply (step_acquire _ i).
    + apply (step_load _ i). cbn. by rewrite set_pc_eq.
    + apply (step_reload _ i (file s) k); [cbn; by rewrite set_pc_eq|done].
    + apply (step_open _ i text). cbn. by rewrite set_pc_eq, Hk.
    + apply (step_write _ i text). cbn. by rewrite set_pc_eq.
    + apply (step_replace _ i text). cbn. by rewrite set_pc_eq.
  - cbn. unfold release. rewrite bool_decide_true by done. split_and!; try done.
    intros j Hj. by rewrite !set_pc_ne.
Qed.

Lemma demo_run : ∃ s, reachable demo_writers (initial None None) s ∧ log s = [1; 0] ∧
                      file s = Some demo_text1.
Proof.
  destruct (run_writer demo_writers (initial None None) 0 demo_text0 (initial None None))
    as (s1 & Hr1 & Hf1 & Hl1 & Hg1 & Hp1); [constructor|done|done|apply demo_write0|].
  destruct (run_writer demo_writers (initial None None) 1 demo_text1 s1)
    as (s2 & Hr2 & Hf2 & Hl2 & Hg2 & Hp2); [done|by rewrite Hp1|done|rewrite Hf1; apply demo_write1|].
  exists s2. rewrite Hg2, Hg1. by split_and!.
Qed.

Lemma store_lock_serializes_witness :
  ∃ s, reachable demo_writers (initial None None) s ∧
       serial demo_writers None [1; 0] = Ok (Some demo_text1).
Proof.
  destruct demo_run as (s & Hr & Hl & Hf). exists s. split; [exact Hr|].
  pose proof (store_lock_serializes demo_writers None None s Hr) as H. rewrite Hl, Hf in H. exact H.
Defined.
