(* ===== verification/ImagePin.v ===== *)
(** [ansible/playbooks/filter_plugins/image_pin.py]: which image a service
    runs, given the version the converge ships (the floor) and the pin the
    on-host update lane recorded.  [split_ref] and [order] read a reference and
    a tag, [catena_image_pinned] vets a pin, [catena_image_pin] takes the
    maximum of floor and pin. *)
From S2P Require Import Prelude PyStr PyNum PyVal.

(** * References *)

(** [_split_ref]: (repository, tag); a colon with a slash after it is a
    registry port. *)
Definition split_ref (v : val) : string * string :=
  match v with
  | VStr ref =>
      let ref := strip ref in
      if bool_decide (ref = "") then ("", "")
      else
        let ref := (partition "@" ref).1.1 in
        let '(repo, found, tag) := rpartition ":" ref in
        if negb found || has_char "/" tag then (ref, "") else (repo, tag)
  | _ => ("", "")
  end.

(** * Tags *)

(** [$] matches at the end and before a final newline, and [.] matches no
    newline: a trailing newline is dropped before a pattern is read. *)
Fixpoint drop_final_nl (s : string) : string :=
  match s with
  | EmptyString => EmptyString
  | String a EmptyString => if bool_decide (a = nl) then EmptyString else s
  | String a s' => String a (drop_final_nl s')
  end.

(** [(\d+)]: the longest run of digits, at least one. *)
Fixpoint span_digits (s : string) : string * string :=
  match s with
  | String a s' => if is_digit a then let '(d, r) := span_digits s' in (String a d, r)
                   else (EmptyString, s)
  | EmptyString => (EmptyString, EmptyString)
  end.
Definition number (s : string) : option (N * string) :=
  let '(d, r) := span_digits s in
  if bool_decide (d = "") then None else Some (digits_val d, r).

(** The literal [c], then [(\d+)]. *)
Definition char_number (c : ascii) (s : string) : option (N * string) :=
  match s with
  | String a s' => if bool_decide (a = c) then number s' else None
  | EmptyString => None
  end.

Definition drop_v (s : string) : string :=
  match s with String a s' => if bool_decide (a = "v"%char) then s' else s | _ => s end.

Arguments char_number c%_char_scope s%_string_scope.

(** [_SEMVER]: major, minor, patch, build and suffix. *)
Definition match_semver (tag : string) : option (N * N * N * N * string) :=
  '(major, s) ← number (drop_v (drop_final_nl tag));
  '(minor, s) ← char_number "." s;
  '(patch, s) ← char_number "." s;
  let '(build, s) := default (0%N, s) (char_number "." s) in
  match s with
  | EmptyString => Some (major, minor, patch, build, "")
  | String a s =>
      if (bool_decide (a = "-"%char) || bool_decide (a = "+"%char))
         && negb (bool_decide (s = "")) && negb (has_char nl s)
      then Some (major, minor, patch, build, s) else None
  end.

(** [_MAJOR_MINOR], with its suffix group. *)
Definition is_alpha (a : ascii) : bool := is_lower a || is_upper a.
Definition match_major_minor (tag : string) : option (N * N * option string) :=
  '(major, s) ← number (drop_final_nl tag);
  '(minor, s) ← char_number "." s;
  match s with
  | EmptyString => Some (major, minor, None)
  | String d (String a s) =>
      if bool_decide (d = "-"%char) && is_alpha a && sforall is_alnum s
      then Some (major, minor, Some (String a s)) else None
  | _ => None
  end.

(** [_BARE_MAJOR_MINOR] *)
Definition match_bare_major_minor (tag : string) : option (N * N) :=
  '(major, s) ← number (drop_v (drop_final_nl tag));
  '(minor, s) ← char_number "." s;
  if bool_decide (s = "") then Some (major, minor) else None.

(** * Ordering *)

Inductive family := FSemver | FMajorMinor (major : N) (suffix : string).

#[export] Instance family_eq_dec : EqDecision family.
Proof. solve_decision. Defined.

(** A sort key: a tuple of numbers, then a string; tuples of one family have
    one length. *)
Abbreviation key := (list N * string)%type.

(** [_order]: (family, key), or [None] for an incomparable tag. *)
Definition order (tag : string) : option (family * key) :=
  match match_major_minor tag with
  | Some (major, minor, Some suffix) => Some (FMajorMinor major suffix, ([minor], ""))
  | _ =>
      match match_bare_major_minor tag with
      | Some (major, minor) => Some (FSemver, ([major; minor; 0; 0; 1]%N, ""))
      | None =>
          match match_semver tag with
          | Some (major, minor, patch, build, suffix) =>
              let released := if bool_decide (suffix = "") then 1%N else 0%N in
              Some (FSemver, ([major; minor; patch; build; released], suffix))
          | None => None
          end
      end
  end.

(** Tuple comparison, [k1 > k2]. *)
Definition key_compare : key → key → comparison :=
  pair_compare (list_compare N.compare) String.compare.
Definition key_gt (k1 k2 : key) : bool := cmp_gt key_compare k1 k2.

(** * Pins *)

(** [catena_image_pinned]: the usable pin of a repository, or "". *)
Definition catena_image_pinned (pins : val) (repository : string) : string :=
  match pins with
  | VDict pins =>
      match dget repository pins with
      | Some (VStr pin_ref) =>
          if bool_decide (strip pin_ref = "") then ""
          else
            let '(pin_repo, pin_tag) := split_ref (VStr pin_ref) in
            if negb (bool_decide (pin_repo = repository)) || bool_decide (order pin_tag = None)
            then "" else pin_ref
      | _ => ""
      end
  | _ => ""
  end.

(** [catena_image_pin]: the image the host runs. *)
Definition catena_image_pin (default_ref pins : val) : res string :=
  match default_ref with
  | VStr d =>
      if bool_decide (strip d = "") then Raise ValueError
      else
        let '(repo, floor_tag) := split_ref default_ref in
        let pin_ref := catena_image_pinned pins repo in
        if bool_decide (pin_ref = "") then Ok d
        else
          match order floor_tag, order (split_ref (VStr pin_ref)).2 with
          | None, _ => Ok d
          | Some _, None => Raise TypeError
          | Some (floor_family, floor_key), Some (pin_family, pin_key) =>
              if bool_decide (pin_family = floor_family) && key_gt pin_key floor_key
              then Ok pin_ref else Ok d
          end
  | _ => Raise ValueError
  end.

#[global] Arguments split_ref : simpl never.
#[global] Arguments order : simpl never.
#[global] Arguments number : simpl never.
#[global] Arguments char_number : simpl never.

(** * Lemmas *)

Lemma key_gt_irrefl k : key_gt k k = false.
Proof. apply cmp_gt_irrefl, _. Qed.
Lemma key_gt_trans k1 k2 k3 : key_gt k1 k2 = true → key_gt k2 k3 = true → key_gt k1 k3 = true.
Proof. apply cmp_gt_trans, _. Qed.
#[export] Hint Resolve key_gt_irrefl key_gt_trans : catena.

(** The repository and the order of a reference. *)
Definition repo_of (r : string) : string := (split_ref (VStr r)).1.
Definition order_of (r : string) : option (family * key) := order (split_ref (VStr r)).2.

(** [r2] is a strictly newer version than [r1]: both comparable, one family. *)
Definition newer (r2 r1 : string) : bool :=
  match order_of r1, order_of r2 with
  | Some (f1, k1), Some (f2, k2) => bool_decide (f2 = f1) && key_gt k2 k1
  | _, _ => false
  end.

Lemma newer_irrefl r : newer r r = false.
Proof.
  unfold newer. destruct (order_of r) as [[f k]|]; [|done].
  by rewrite key_gt_irrefl, andb_false_r.
Qed.

Lemma newer_trans r1 r2 r3 : newer r3 r2 = true → newer r2 r1 = true → newer r3 r1 = true.
Proof.
  unfold newer. destruct (order_of r1) as [[f1 k1]|], (order_of r2) as [[f2 k2]|],
    (order_of r3) as [[f3 k3]|]; try done.
  rewrite !andb_true_iff, !bool_decide_eq_true. intros [-> H32] [-> H21].
  split; [done|]. eauto with catena.
Qed.

(** What a usable pin is. *)
Lemma catena_image_pinned_Some pins repo p :
  catena_image_pinned pins repo = p → p ≠ "" →
  ∃ d, pins = VDict d ∧ dget repo d = Some (VStr p) ∧ strip p ≠ "" ∧
       repo_of p = repo ∧ is_Some (order_of p).
Proof.
  unfold catena_image_pinned, repo_of, order_of. destruct pins as [| | | | | |d]; try done.
  destruct (dget repo d) as [[| | | |s| |]|] eqn:Hd; try done.
  destruct (bool_decide_reflect (strip s = "")); [by intros <-|].
  destruct (split_ref (VStr s)) as [r t] eqn:Hs.
  destruct (bool_decide_reflect (r = repo)) as [->|]; cbn; [|by intros <-].
  destruct (bool_decide_reflect (order t = None)) as [|Ho]; [by intros <-|].
  intros <- _. exists d. rewrite Hs. cbn.
  split_and!; [done..|]. by apply not_eq_None_Some.
Qed.

(** The value of [catena_image_pin] on every non-blank floor. *)
Lemma catena_image_pin_eq d pins :
  strip d ≠ "" →
  catena_image_pin (VStr d) pins =
    Ok (let p := catena_image_pinned pins (repo_of d) in
        if negb (bool_decide (p = "")) && newer p d then p else d).
Proof.
  intros Hd. unfold catena_image_pin, newer, repo_of, order_of.
  rewrite (bool_decide_false (strip d = "")) by done.
  destruct (split_ref (VStr d)) as [repo t]; cbn [fst snd].
  destruct (bool_decide_reflect (catena_image_pinned pins repo = "")) as [|Hp]; [done|].
  destruct (catena_image_pinned_Some pins repo _ eq_refl Hp) as (m & -> & ? & ? & ? & [[pf pk] Ho]).
  unfold order_of in Ho. rewrite Ho. cbn [negb andb].
  destruct (order t) as [[ff fk]|]; [|done]. by destruct (_ && _).
Qed.

(** ** Digits *)

Lemma span_digits_app d a s :
  sforall is_digit d = true → is_digit a = false →
  span_digits (d +:+ String a s) = (d, String a s).
Proof.
  intros Hd Ha. induction d as [|c d IH]; cbn; [by rewrite Ha|].
  cbn in Hd. apply andb_true_iff in Hd as [-> Hd]. by rewrite IH.
Qed.

Lemma span_digits_all d : sforall is_digit d = true → span_digits d = (d, "").
Proof.
  induction d as [|c d IH]; cbn; [done|]. intros [-> Hd]%andb_true_iff. by rewrite IH.
Qed.

Lemma drop_final_nl_id s : has_char nl s = false → drop_final_nl s = s.
Proof.
  unfold has_char, sexists. rewrite negb_false_iff. induction s as [|a s IH]; [done|].
  cbn [sforall]. rewrite andb_true_iff, negb_true_iff. intros [Ha Hs].
  cbn [drop_final_nl]. destruct s as [|b s].
  - unfold is_char in Ha. rewrite bool_decide_eq_false in Ha. by rewrite bool_decide_false by auto.
  - by rewrite IH.
Qed.

Lemma char_number_same c s : char_number c (String c s) = number s.
Proof. unfold char_number. by rewrite bool_decide_true. Qed.
Lemma char_number_other c a s : a ≠ c → char_number c (String a s) = None.
Proof. intros. unfold char_number. by rewrite bool_decide_false. Qed.
Lemma char_number_nil c : char_number c "" = None.
Proof. done. Qed.

(** A string of decimal digits, as [\d+] matches. *)
Definition digits (d : string) : Prop := d ≠ "" ∧ sforall is_digit d = true.

Lemma number_app d a s :
  digits d → is_digit a = false → number (d +:+ String a s) = Some (digits_val d, String a s).
Proof.
  intros [Hne Hd] Ha. unfold number. rewrite span_digits_app by done.
  by rewrite bool_decide_false.
Qed.
Lemma number_all d : digits d → number d = Some (digits_val d, "").
Proof. intros [Hne Hd]. unfold number. rewrite span_digits_all by done. by rewrite bool_decide_false. Qed.

Lemma drop_v_digits d s : digits d → drop_v (d +:+ s) = d +:+ s.
Proof.
  intros [Hne Hd]. destruct d as [|a d]; [done|]. cbn in *.
  apply andb_true_iff in Hd as [Ha _].
  by rewrite bool_decide_false by (intros ->; discriminate Ha).
Qed.

Lemma tag_no_nl M m p s :
  digits M → digits m → digits p → has_char nl s = false →
  has_char nl (M +:+ "." +:+ m +:+ "." +:+ p +:+ s) = false.
Proof.
  intros [_ HM] [_ Hm] [_ Hp] Hs.
  by rewrite !has_char_app, (has_char_digits nl M), (has_char_digits nl m),
    (has_char_digits nl p), Hs.
Qed.

Lemma order_semver_tag M m p s :
  digits M → digits m → digits p → has_char nl s = false →
  (∀ a s', s = String a s' → is_digit a = false) →
  order (M +:+ "." +:+ m +:+ "." +:+ p +:+ s) =
    match match_semver (M +:+ "." +:+ m +:+ "." +:+ p +:+ s) with
    | Some (major, minor, patch, build, suffix) =>
        Some (FSemver, ([major; minor; patch; build; if bool_decide (suffix = "") then 1 else 0]%N,
                        suffix))
    | None => None
    end.
Proof.
  intros HM Hm Hp Hs Ha. unfold order, match_major_minor, match_bare_major_minor.
  rewrite !drop_final_nl_id by auto using tag_no_nl.
  rewrite !drop_v_digits by done.
  cbn [String.append]. rewrite (number_app M) by done. cbn.
  rewrite char_number_same, (number_app m) by done. cbn. by destruct (p +:+ s).
Qed.

Lemma match_semver_tag M m p s :
  digits M → digits m → digits p → has_char nl s = false →
  (∀ a s', s = String a s' → is_digit a = false) →
  match_semver (M +:+ "." +:+ m +:+ "." +:+ p +:+ s) =
    (let '(build, s) := default (0%N, s) (char_number "." s) in
     match s with
     | EmptyString => Some (digits_val M, digits_val m, digits_val p, build, "")
     | String a s =>
         if (bool_decide (a = "-"%char) || bool_decide (a = "+"%char))
            && negb (bool_decide (s = "")) && negb (has_char nl s)
         then Some (digits_val M, digits_val m, digits_val p, build, s) else None
     end).
Proof.
  intros HM Hm Hp Hs Ha. unfold match_semver.
  rewrite drop_final_nl_id by auto using tag_no_nl.
  rewrite drop_v_digits by done.
  cbn [String.append]. rewrite (number_app M) by done. cbn.
  rewrite char_number_same, (number_app m) by done. cbn. rewrite char_number_same.
  destruct s as [|a s].
  - by rewrite string_app_nil_r, number_all.
  - by rewrite number_app by eauto.
Qed.

(** * Properties *)

(** [catena_image_pin] succeeds on every non-blank floor, never moves
    the repository, never answers a version older than the floor, and answers
    the host's pin whenever that pin is usable and strictly newer, so the
    answer is the maximum of floor and pin. *)
Theorem image_pin_is_max d pins :
  strip d ≠ "" →
  ∃ r, catena_image_pin (VStr d) pins = Ok r ∧
       (r = d ∨ repo_of r = repo_of d ∧ newer r d = true) ∧
       newer d r = false ∧
       (let p := catena_image_pinned pins (repo_of d) in p ≠ "" → newer p r = false).
Proof.
  intros Hd. eexists. split; [by apply catena_image_pin_eq|]. cbn zeta.
  set (p := catena_image_pinned pins (repo_of d)).
  destruct (bool_decide_reflect (p = "")) as [Hp|Hp]; cbn.
  { split_and!; [by left|apply newer_irrefl|done]. }
  destruct (catena_image_pinned_Some pins _ p eq_refl Hp) as (m & _ & _ & _ & Hrepo & _).
  destruct (newer p d) eqn:Hn.
  - split_and!; [by right| |by rewrite newer_irrefl].
    destruct (newer d p) eqn:Hc; [|done].
    by rewrite <-(newer_trans _ _ _ Hn Hc), newer_irrefl.
  - split_and!; [by left|apply newer_irrefl|done].
Qed.

(** Converging again with the image the last converge answered as
    the floor answers it again: the resolution is a fixpoint, so a converge
    with nothing new moves no image. *)
Theorem image_pin_idempotent d pins r :
  strip d ≠ "" → catena_image_pin (VStr d) pins = Ok r → catena_image_pin (VStr r) pins = Ok r.
Proof.
  intros Hd. rewrite catena_image_pin_eq by done. cbn zeta. intros [= Hr].
  destruct (negb _ && newer _ d) eqn:E.
  - apply andb_true_iff in E as [Hp Hn]. rewrite negb_true_iff, bool_decide_eq_false in Hp.
    destruct (catena_image_pinned_Some pins _ _ eq_refl Hp) as (m & _ & _ & Hs & Hrepo & _).
    rewrite Hr in *. rewrite catena_image_pin_eq by done. cbn zeta.
    by rewrite Hrepo, Hr, newer_irrefl, andb_false_r.
  - subst r. rewrite catena_image_pin_eq by done. cbn zeta. by rewrite E.
Qed.

(** Among tags of one version X.Y.Z, a pre-release sorts below the
    release, a numbered build of the release sorts above it, and the next
    patch sorts above any such build: the order [_order] documents. *)
Theorem semver_prerelease_build_order M m p p' b suf :
  digits M → digits m → digits p → digits p' → digits b →
  (digits_val p < digits_val p')%N → (0 < digits_val b)%N →
  suf ≠ "" → has_char nl suf = false →
  let tag t := M +:+ "." +:+ m +:+ "." +:+ t in
  ∃ kpre k kb kn,
    order (tag (p +:+ "-" +:+ suf)) = Some (FSemver, kpre) ∧
    order (tag (p +:+ "")) = Some (FSemver, k) ∧
    order (tag (p +:+ "." +:+ b)) = Some (FSemver, kb) ∧
    order (tag (p' +:+ "")) = Some (FSemver, kn) ∧
    key_gt k kpre = true ∧ key_gt kb k = true ∧ key_gt kn kb = true.
Proof.
  intros HM Hm Hp Hp' Hb Hlt Hb0 Hsuf Hnl tag. subst tag. cbn beta.
  assert (has_char nl ("-" +:+ suf) = false) by by rewrite has_char_app, Hnl.
  assert (has_char nl ("." +:+ b) = false) by by rewrite has_char_app, (has_char_digits nl b (eq_refl _) (proj2 Hb)).
  rewrite !order_semver_tag, !match_semver_tag by (done || by intros ?? [= <- <-]).
  cbn [String.append].
  rewrite char_number_same, char_number_nil, char_number_other, (number_all b) by done. cbn.
  rewrite (bool_decide_false (suf = "")), Hnl by done. cbn.
  do 4 eexists. split_and!; try reflexivity.
  all: unfold key_gt, cmp_gt, key_compare, pair_compare; cbn; rewrite !N.compare_refl; cbn.
  - rewrite (bool_decide_false (suf = "")) by done. done.
  - by destruct (digits_val b).
  - by rewrite (proj2 (N.compare_gt_iff _ _)).
Qed.

Lemma image_pin_is_max_witness :
  strip "r/p:v1.2.0" ≠ "" ∧
  ∃ r, catena_image_pin (VStr "r/p:v1.2.0") (VDict [("r/p", VStr "r/p:v1.3.0")]) = Ok r ∧
       (r = "r/p:v1.2.0" ∨ repo_of r = repo_of "r/p:v1.2.0" ∧ newer r "r/p:v1.2.0" = true) ∧
       newer "r/p:v1.2.0" r = false ∧
       (let p := catena_image_pinned (VDict [("r/p", VStr "r/p:v1.3.0")]) (repo_of "r/p:v1.2.0") in
        p ≠ "" → newer p r = false).
Proof. split; [discriminate|]. apply image_pin_is_max. discriminate. Defined.

Lemma image_pin_idempotent_witness :
  catena_image_pin (VStr "r/p:v1.3.0") (VDict [("r/p", VStr "r/p:v1.3.0")]) = Ok "r/p:v1.3.0".
Proof. apply (image_pin_idempotent "r/p:v1.2.0"); [discriminate|reflexivity]. Defined.

Lemma semver_prerelease_build_order_witness :
  let tag t := "3" +:+ "." +:+ "8" +:+ "." +:+ t in
  ∃ kpre k kb kn,
    order (tag ("0" +:+ "-" +:+ "rc1")) = Some (FSemver, kpre) ∧
    order (tag ("0" +:+ "")) = Some (FSemver, k) ∧
    order (tag ("0" +:+ "." +:+ "7")) = Some (FSemver, kb) ∧
    order (tag ("1" +:+ "")) = Some (FSemver, kn) ∧
    key_gt k kpre = true ∧ key_gt kb k = true ∧ key_gt kn kb = true.
Proof.
  apply semver_prerelease_build_order; try (split; [discriminate|reflexivity]);
    try reflexivity; discriminate.
Defined.
