(* ===== verification/ConvergeManifest.v ===== *)
(** [ansible/playbooks/filter_plugins/converge_manifest.py]: which files a
    previous converge installed and this one does not ship, and the task file
    that composes the filters ([ansible/playbooks/tasks/prune_withdrawn_files.yml]):
    [prune] reads the last manifest, deletes what the three rules allow from
    the host, and writes the next manifest. *)
From S2P Require Import Prelude PyStr PyNum PyVal.

#[local] Open Scope string_scope.

(** * The filters *)

(** One declared path: dropped when blank or seen, refused when not a string
    or not absolute. *)
Definition paths_step (out : list string) (raw : val) : res (list string) :=
  match raw with
  | VStr s =>
      let path := strip s in
      if bool_decide (path = "") || bool_decide (path ∈ out) then Ok out
      else if negb (startswith path "/") then Raise ValueError
      else Ok (out ++ [path])%list
  | _ => Raise ValueError
  end.

(** [_paths] *)
Definition paths (declared : val) : res (list string) :=
  match declared with
  | VNone => Ok []
  | VList l => foldM paths_step [] l
  | _ => Raise ValueError
  end.

(** An entry [{path, sha256}]. *)
Definition entry (path : string) (sha256 : val) : val :=
  VDict [("path", VStr path); ("sha256", sha256)].

(** One stat result of [converge_installed]. *)
Definition installed_step (by_path : dict val) (result : val) : res (dict val) :=
  match result with
  | VDict r =>
      let item := val_or (vget "item" r) (VStr "") in
      let item := match item with VDict d => default (VStr "") (dget "path" d) | _ => item end in
      let path := strip (py_str item) in
      let info := val_or (vget "stat" r) (VDict []) in
      if bool_decide (path = "") then Ok by_path
      else
        exists_ ← attr_get "exists" info;
        if negb (truthy exists_) then Ok by_path
        else
          checksum ← attr_get "checksum" info;
          Ok (dset path (val_or checksum (VStr "")) by_path)
  | _ => Ok by_path
  end.

(** The declared paths that are present, with their digests. *)
Definition present_entries (by_path : dict val) (ps : list string) : list val :=
  omap (λ p, match dget p by_path with Some d => Some (entry p d) | None => None end) ps.

Definition converge_installed (declared stats : val) : res (list val) :=
  results ← iter_or stats;
  by_path ← foldM installed_step [] results;
  ps ← paths declared;
  Ok (present_entries by_path ps).

Definition entry_path (e : val) : string :=
  match e with VDict d => str_or (vget "path" d) | _ => "" end.
Definition path_le (e1 e2 : val) : Prop := String.le (entry_path e1) (entry_path e2).
#[export] Instance path_le_dec : RelDecision path_le.
Proof. intros e1 e2. apply String.le_dec. Defined.

(** One installed entry of the previous manifest. *)
Definition withdrawn_step (keep : list string) (acc : list val * list string) (e : val) :
    list val * list string :=
  let '(out, seen) := acc in
  match e with
  | VDict d =>
      let path := strip (str_or (vget "path" d)) in
      if bool_decide (path = "") || bool_decide (path ∈ keep) || bool_decide (path ∈ seen)
      then acc
      else (out ++ [entry path (VStr (str_or (vget "sha256" d)))], path :: seen)%list
  | _ => acc
  end.

Definition converge_withdrawn (previous declared : val) : res (list val) :=
  let previous := default [] (as_dict previous) in
  keep ← paths declared;
  installed ← iter_or (vget "installed" previous);
  Ok (merge_sort path_le (foldl (withdrawn_step keep) ([], []) installed).1).

(** The paths the payload's manifest lists. *)
Definition claimed_path (e : val) : list string :=
  match e with
  | VDict d => if truthy (vget "path" d) then [strip (py_str (vget "path" d))] else []
  | _ => []
  end.
Definition claimed_paths (payload_manifest : val) : res (list string) :=
  match payload_manifest with
  | VDict m => entries ← iter_or (vget "entries" m); Ok (flat_map claimed_path entries)
  | _ => Ok []
  end.

(** [e.get("path") not in claimed], against a set of strings. *)
Definition unclaimed_entry (claimed : list string) (e : val) : bool :=
  match e with
  | VDict d => match vget "path" d with VStr p => negb (bool_decide (p ∈ claimed)) | _ => true end
  | _ => false
  end.

Definition converge_unclaimed (withdrawn payload_manifest : val) : res (list val) :=
  claimed ← claimed_paths payload_manifest;
  l ← iter_or withdrawn;
  Ok (List.filter (unclaimed_entry claimed) l).

(** [_split]: (still ours, someone else's). *)
Definition split_step (acc : list val * list val) (result : val) : res (list val * list val) :=
  let '(ours, foreign) := acc in
  match result with
  | VDict r =>
      match vget "item" r with
      | VDict e =>
          if negb (truthy (vget "path" e)) then Ok acc
          else
            let info := val_or (vget "stat" r) (VDict []) in
            exists_ ← attr_get "exists" info;
            if negb (truthy exists_) then Ok acc
            else
              checksum ← attr_get "checksum" info;
              let recorded := str_or (vget "sha256" e) in
              if negb (bool_decide (recorded = "")) && bool_decide (recorded = str_or checksum)
              then Ok (ours ++ [VDict e], foreign)%list
              else Ok (ours, foreign ++ [VDict e])%list
      | _ => Ok acc
      end
  | _ => Ok acc
  end.

Definition split_stats (stats : val) : res (list val * list val) :=
  results ← iter_or stats; foldM split_step ([], []) results.

Definition converge_prunable (stats : val) : res (list val) := fst <$> split_stats stats.
Definition converge_foreign (stats : val) : res (list val) := snd <$> split_stats stats.

(** * The task file *)

(** The host's files: each path's SHA-256. *)
Abbreviation files := (gmap string string).

(** [ansible.builtin.stat] with [checksum_algorithm: sha256] at one path. *)
Definition stat_at (fs : files) (path : string) : val :=
  match fs !! path with
  | Some d => VDict [("exists", VBool true); ("checksum", VStr d)]
  | None => VDict [("exists", VBool false)]
  end.

(** A stat loop: each item with what is at its path. *)
Definition stat_loop (path_of : val → string) (fs : files) (items : list val) : val :=
  VList (map (λ i, VDict [("item", i); ("stat", stat_at fs (path_of i))]) items).

Definition manifest (declared : list val) (installed : list val) : val :=
  VDict [("schema", VInt 1); ("declared", VList declared); ("installed", VList installed)].

(** The tasks in order: what is withdrawn and unclaimed, split by content;
    the removals; then the next manifest, recorded from what is there now. *)
Definition prune (previous payload : val) (declared : list val) (fs : files) :
    res (files * val * list val) :=
  withdrawn ← converge_withdrawn previous (VList declared);
  withdrawn ← converge_unclaimed (VList withdrawn) payload;
  let candidates := stat_loop entry_path fs withdrawn in
  ours ← converge_prunable candidates;
  foreign ← converge_foreign candidates;
  let fs := foldl (λ fs e, delete (entry_path e) fs) fs ours in
  installed ← converge_installed (VList declared) (stat_loop py_str fs declared);
  Ok (fs, manifest declared installed, foreign).

(** * Lemmas *)

Lemma paths_step_spec out raw out' :
  paths_step out raw = Ok out' →
  ∃ s, raw = VStr s ∧ (∀ p, p ∈ out' ↔ p ∈ out ∨ (p = strip s ∧ p ≠ "")) .
Proof.
  destruct raw as [| | | |s| |]; try done. cbn. intros H. exists s. split; [done|].
  destruct (bool_decide_reflect (strip s = "")); cbn in H; [simplify_eq; naive_solver|].
  destruct (bool_decide_reflect (strip s ∈ out)); cbn in H; [simplify_eq; naive_solver|].
  destruct (negb _); [done|]. simplify_eq. intros p. rewrite elem_of_app, list_elem_of_singleton.
  naive_solver.
Qed.

(** What [_paths] keeps: the stripped declarations that are not blank. *)
Lemma paths_spec l ps :
  paths (VList l) = Ok ps → ∀ p, p ∈ ps ↔ p ≠ "" ∧ ∃ s, VStr s ∈ l ∧ p = strip s.
Proof.
  cbn [paths]. intros H.
  assert (Hg : ∀ out, foldM paths_step out l = Ok ps →
    ∀ p, p ∈ ps ↔ p ∈ out ∨ (p ≠ "" ∧ ∃ s, VStr s ∈ l ∧ p = strip s)).
  { clear H. induction l as [|raw l IH]; intros out; cbn.
    - intros [= ->] p. split; [by left|]. intros [?|(_ & s & Hs & _)]; [done|]. by apply elem_of_nil in Hs.
    - intros (out1 & (s & -> & Hs)%paths_step_spec & H2)%res_bind_Ok p.
      rewrite (IH _ H2), Hs. split.
      + intros [[?|[-> ?]]|(? & s' & ? & ->)]; [by left|right..].
        * split; [done|]. exists s. split; [by left|done].
        * split; [done|]. exists s'. split; [by right|done].
      + intros [?|(? & s' & [[= ->]|?]%elem_of_cons & ->)]; [naive_solver..|].
        right. split; [done|]. by exists s'. }
  intros p. rewrite (Hg [] H), elem_of_nil. naive_solver.
Qed.

(** [_paths] succeeds exactly on lists of strings whose non-blank entries are
    absolute. *)
Definition declarable (v : val) : Prop :=
  ∃ s, v = VStr s ∧ (strip s = "" ∨ startswith (strip s) "/" = true).

Lemma paths_total l : Forall declarable l → ∃ ps, paths (VList l) = Ok ps.
Proof.
  cbn [paths]. generalize (@nil string) as out. intros out H. revert out.
  induction H as [|v l (s & -> & Hs) Hl IH]; intros out; cbn [foldM]; [by eexists|].
  assert (∃ out', paths_step out (VStr s) = Ok out') as [out' E].
  { cbn. destruct Hs as [-> | ->]; [by eexists|]. cbn. destruct (_ || _); by eexists. }
  rewrite E. cbn [mbind res_bind]. apply IH.
Qed.

(** The entries of a previous manifest. *)
Definition previous_installed (previous : val) (l : list val) : Prop :=
  iter_or (vget "installed" (default [] (as_dict previous))) = Ok l.

Definition entry_of (d : dict val) : val :=
  entry (strip (str_or (vget "path" d))) (VStr (str_or (vget "sha256" d))).

Lemma entry_path_entry p v : entry_path (entry p v) = p.
Proof. unfold entry, entry_path, vget. cbn. apply str_or_str. Qed.
Lemma entry_path_of d : entry_path (entry_of d) = strip (str_or (vget "path" d)).
Proof. apply entry_path_entry. Qed.

Definition withdrawn_of (keep : list string) (l : list val) : list val * list string :=
  foldl (withdrawn_step keep) ([], []) l.

(** Every withdrawn entry is one the previous manifest installed, at a path
    that is not declared now. *)
Lemma withdrawn_sound keep l e :
  e ∈ (withdrawn_of keep l).1 → ∃ d, VDict d ∈ l ∧ e = entry_of d ∧ entry_path e ≠ "" ∧ entry_path e ∉ keep.
Proof.
  unfold withdrawn_of. revert e. apply (foldl_inv (λ acc : list val * list string, ∀ e, e ∈ acc.1 → ∃ d, VDict d ∈ l ∧ e = entry_of d ∧
    entry_path e ≠ "" ∧ entry_path e ∉ keep)); [|by intros e ?%elem_of_nil].
  intros [out seen] x Hx IH e. cbn [fst snd] in *. destruct x as [| | | | | |d]; try apply IH.
  cbn [withdrawn_step]. destruct (_ || _) eqn:E; [apply IH|].
  rewrite !orb_false_iff, !bool_decide_eq_false in E. destruct E as [[E1 E2] E3]. cbn [fst].
  rewrite elem_of_app, list_elem_of_singleton. intros [?| ->]; [auto|].
  exists d. rewrite entry_path_entry. by split_and!.
Qed.

(** Every path seen has its entry. *)
Lemma withdrawn_seen keep l p : p ∈ (withdrawn_of keep l).2 → ∃ e, e ∈ (withdrawn_of keep l).1 ∧ entry_path e = p.
Proof.
  unfold withdrawn_of. revert p. apply (foldl_inv (λ acc : list val * list string, ∀ p, p ∈ acc.2 → ∃ e, e ∈ acc.1 ∧ entry_path e = p));
    [|by intros p ?%elem_of_nil].
  intros [out seen] x _ IH p. cbn [fst snd] in *. destruct x as [| | | | | |d]; try apply IH.
  cbn [withdrawn_step]. destruct (_ || _) eqn:E; [apply IH|]. cbn [fst snd].
  rewrite elem_of_cons. intros [->|Hp].
  - eexists. split; [apply elem_of_app; right; by left|]. apply entry_path_entry.
  - destruct (IH p Hp) as (e & He & <-). exists e. split; [apply elem_of_app; by left|done].
Qed.

Lemma withdrawn_complete keep l d :
  VDict d ∈ l → entry_path (entry_of d) ≠ "" → entry_path (entry_of d) ∉ keep →
  ∃ e, e ∈ (withdrawn_of keep l).1 ∧ entry_path e = entry_path (entry_of d).
Proof.
  intros Hd Hp Hk. apply withdrawn_seen. rewrite entry_path_of in *. unfold withdrawn_of.
  apply (foldl_establish (λ acc : list val * list string, strip (str_or (vget "path" d)) ∈ acc.2) _ (VDict d)); [|  |done].
  - intros [out seen]. cbn [withdrawn_step]. destruct (_ || _) eqn:E; cbn [snd]; [|by left].
    rewrite !orb_true_iff, !bool_decide_eq_true in E. naive_solver.
  - intros [out seen] y Hin. destruct y as [| | | | | |d']; try done. cbn [withdrawn_step].
    destruct (_ || _); [done|]. by right.
Qed.

Lemma converge_withdrawn_spec previous declared l ps w :
  previous_installed previous l → paths (VList declared) = Ok ps →
  converge_withdrawn previous (VList declared) = Ok w → w ≡ₚ (withdrawn_of ps l).1.
Proof.
  unfold previous_installed, converge_withdrawn. intros Hl Hp. rewrite Hp. cbn [mbind res_bind].
  rewrite Hl. cbn [mbind res_bind]. intros [= <-]. apply merge_sort_Permutation.
Qed.

Lemma converge_withdrawn_inv previous declared w :
  converge_withdrawn previous (VList declared) = Ok w →
  ∃ l ps, previous_installed previous l ∧ paths (VList declared) = Ok ps.
Proof.
  unfold converge_withdrawn. intros (ps & Hp & (l & Hl & _)%res_bind_Ok)%res_bind_Ok. eauto.
Qed.

Lemma converge_unclaimed_spec w payload claimed :
  claimed_paths payload = Ok claimed →
  converge_unclaimed (VList w) payload = Ok (List.filter (unclaimed_entry claimed) w).
Proof. intros Hc. unfold converge_unclaimed. rewrite Hc, iter_or_list. done. Qed.

(** The digest an entry carries. *)
Definition entry_sha (e : val) : string :=
  match e with VDict d => str_or (vget "sha256" d) | _ => "" end.

Lemma entry_sha_of d : entry_sha (entry_of d) = str_or (vget "sha256" d).
Proof. unfold entry_sha, entry_of, entry. vget_simpl. apply str_or_str. Qed.

(** What [_split] makes of candidates stat'ed on a host. *)
Definition still_ours (fs : files) (e : val) : bool :=
  match fs !! entry_path e with
  | Some h => negb (bool_decide (h = "")) && bool_decide (entry_sha e = h)
  | None => false
  end.
Definition not_ours (fs : files) (e : val) : bool :=
  match fs !! entry_path e with
  | Some h => bool_decide (h = "") || negb (bool_decide (entry_sha e = h))
  | None => false
  end.

(** A candidate as [converge_withdrawn] makes them. *)
Definition candidate (e : val) : Prop := ∃ p d, e = entry p (VStr d) ∧ p ≠ "".

Lemma split_stats_spec fs es :
  Forall candidate es →
  split_stats (stat_loop entry_path fs es) = Ok (List.filter (still_ours fs) es, List.filter (not_ours fs) es).
Proof.
  intros H. unfold split_stats, stat_loop. rewrite iter_or_list. cbn [mbind res_bind].
  assert (Hg : ∀ ours foreign,
    foldM split_step (ours, foreign) (map (λ i, VDict [("item", i); ("stat", stat_at fs (entry_path i))]) es)
    = Ok (ours ++ List.filter (still_ours fs) es, foreign ++ List.filter (not_ours fs) es)%list);
    [|by rewrite Hg].
  induction H as [|e es (p & d & -> & Hp) Hes IH]; intros ours foreign.
  { cbn. by rewrite !app_nil_r. }
  cbn [map foldM].
  assert (Hs : split_step (ours, foreign) (VDict [("item", entry p (VStr d));
      ("stat", stat_at fs (entry_path (entry p (VStr d))))])
    = Ok (if still_ours fs (entry p (VStr d)) then ours ++ [entry p (VStr d)] else ours,
          if not_ours fs (entry p (VStr d)) then foreign ++ [entry p (VStr d)] else foreign)%list).
  { unfold still_ours, not_ours. rewrite entry_path_entry.
    change (entry_sha (entry p (VStr d))) with (str_or (VStr d)).
    unfold split_step. vget_simpl. unfold entry. vget_simpl. cbn [truthy negb].
    rewrite (bool_decide_false (p = "")) by done. cbn [negb]. unfold stat_at.
    destruct (fs !! p) as [h|] eqn:Eh; [|done]. unfold attr_get, val_or.
    change (truthy (VDict [("exists", VBool true); ("checksum", VStr h)])) with true.
    cbn [negb mbind res_bind]. vget_simpl. cbn [truthy negb].
    cbn [mbind res_bind]. rewrite !str_or_str.
    destruct (bool_decide_reflect (d = h)) as [->|Hne]; cbn.
    - by destruct (bool_decide_reflect (h = "")).
    - by rewrite !andb_false_r, orb_true_r. }
  rewrite Hs. cbn [mbind res_bind]. rewrite IH. cbn [List.filter].
  destruct (still_ours fs _), (not_ours fs _); by rewrite <-?app_assoc.
Qed.

(** Deleting the entries of a list. *)
Definition delete_all (fs : files) (es : list val) : files :=
  foldl (λ fs e, delete (entry_path e) fs) fs es.

Lemma delete_all_lookup es fs p :
  delete_all fs es !! p = if bool_decide (p ∈ map entry_path es) then None else fs !! p.
Proof.
  unfold delete_all. revert fs. induction es as [|e es IH]; intros fs; cbn [foldl map].
  { by rewrite bool_decide_false by apply not_elem_of_nil. }
  rewrite IH. destruct (decide (p ∈ map entry_path es)) as [Hin|Hin].
  { by rewrite !bool_decide_true by (done || by right). }
  rewrite (bool_decide_false (p ∈ _)) by done.
  destruct (decide (p = entry_path e)) as [->|Hne].
  - rewrite lookup_delete_eq, bool_decide_true by by left. done.
  - rewrite lookup_delete_ne by done.
    rewrite bool_decide_false by (intros [?|?]%elem_of_cons; done). done.
Qed.

Lemma withdrawn_candidates keep l : Forall candidate (withdrawn_of keep l).1.
Proof.
  apply Forall_forall. intros e (d & _ & -> & Hp & _)%withdrawn_sound.
  rewrite entry_path_of in Hp. by eexists _, _.
Qed.

Lemma elem_of_filter_bool {A} (f : A → bool) (x : A) l : x ∈ List.filter f l ↔ x ∈ l ∧ f x = true.
Proof. rewrite !list_elem_of_In. apply filter_In. Qed.

Lemma unclaimed_entry_iff claimed p v :
  unclaimed_entry claimed (entry p v) = true ↔ p ∉ claimed.
Proof. unfold unclaimed_entry, entry. vget_simpl. by rewrite negb_true_iff, bool_decide_eq_false. Qed.

(** A successful prune, step by step. *)
Lemma prune_inv previous payload declared fs fs' m foreign :
  prune previous payload declared fs = Ok (fs', m, foreign) →
  ∃ l ps claimed w,
    previous_installed previous l ∧ paths (VList declared) = Ok ps ∧ claimed_paths payload = Ok claimed ∧
    w ≡ₚ List.filter (unclaimed_entry claimed) (withdrawn_of ps l).1 ∧ Forall candidate w ∧
    fs' = delete_all fs (List.filter (still_ours fs) w) ∧
    foreign = List.filter (not_ours fs) w ∧
    ∃ installed, converge_installed (VList declared) (stat_loop py_str fs' declared) = Ok installed ∧
                 m = manifest declared installed.
Proof.
  unfold prune. intros (w0 & Hw0 & H)%res_bind_Ok.
  destruct (converge_withdrawn_inv _ _ _ Hw0) as (l & ps & Hl & Hps).
  pose proof (converge_withdrawn_spec _ _ _ _ _ Hl Hps Hw0) as Hp.
  apply res_bind_Ok in H as (w & Hw & H). pose proof Hw as Hw'. unfold converge_unclaimed in Hw'.
  apply res_bind_Ok in Hw' as (claimed & Hcl & _).
  rewrite (converge_unclaimed_spec _ _ _ Hcl) in Hw. injection Hw as <-.
  set (w := List.filter (unclaimed_entry claimed) w0) in *.
  assert (Hperm : w ≡ₚ List.filter (unclaimed_entry claimed) (withdrawn_of ps l).1).
  { subst w. clear -Hp. induction Hp; cbn; repeat case_match; eauto using Permutation. }
  assert (Hc : Forall candidate w).
  { rewrite Hperm. apply Forall_forall. intros e [He _]%elem_of_filter_bool.
    pose proof (withdrawn_candidates ps l) as Hf. rewrite Forall_forall in Hf. auto. }
  unfold converge_prunable, converge_foreign in H. rewrite (split_stats_spec fs w Hc) in H.
  cbn [fmap res_fmap mbind res_bind fst snd] in H. apply res_bind_Ok in H as (ins & Hi & H).
  injection H as <- <- <-. exists l, ps, claimed, w. split_and!; eauto.
Qed.

(** The three safety rules.  Pruning removes nothing but files the
    previous manifest recorded as installed with the very digest they still
    have, at paths this converge does not declare and the payload does not
    claim; every other file of the host is as it was. *)
Theorem prune_safe previous payload declared fs fs' m foreign p :
  prune previous payload declared fs = Ok (fs', m, foreign) →
  fs' !! p = fs !! p ∨
  fs' !! p = None ∧
  (∃ l d h, previous_installed previous l ∧ VDict d ∈ l ∧ p = strip (str_or (vget "path" d)) ∧
     fs !! p = Some h ∧ h ≠ "" ∧ str_or (vget "sha256" d) = h) ∧
  (∀ s, VStr s ∈ declared → strip s ≠ p) ∧
  (∃ claimed, claimed_paths payload = Ok claimed ∧ p ∉ claimed).
Proof.
  intros (l & ps & claimed & w & Hl & Hps & Hcl & Hw & Hc & -> & -> & _)%prune_inv.
  rewrite delete_all_lookup. case_bool_decide as Hin; [right|by left]. split; [done|].
  apply list_elem_of_fmap in Hin as (e & -> & [He Ho]%elem_of_filter_bool).
  rewrite Hw in He. apply elem_of_filter_bool in He as [He Hun].
  apply withdrawn_sound in He as (d & Hd & -> & Hne & Hk). split_and!.
  - unfold still_ours in Ho. destruct (fs !! _) as [h|] eqn:Eh; [|done].
    rewrite andb_true_iff, negb_true_iff, bool_decide_eq_false, bool_decide_eq_true in Ho.
    destruct Ho as [Hh Hs]. rewrite entry_sha_of in Hs.
    exists l, d, h. rewrite entry_path_of in *. by split_and!.
  - intros s Hs Heq. apply Hk. rewrite (paths_spec _ _ Hps). split; [done|]. by exists s.
  - exists claimed. split; [done|]. unfold entry_of in Hun. apply unclaimed_entry_iff in Hun.
    by rewrite entry_path_of.
Qed.

(** Nothing the rules allow is left behind.  A file the previous
    manifest recorded, no longer declared, not claimed by the payload and with
    the recorded digest is gone after the prune; one with another digest is
    reported as foreign and kept, never both, never neither. *)
Theorem prune_complete previous payload declared fs fs' m foreign l d h :
  prune previous payload declared fs = Ok (fs', m, foreign) →
  previous_installed previous l → VDict d ∈ l →
  (∀ d', VDict d' ∈ l → strip (str_or (vget "path" d')) = strip (str_or (vget "path" d)) →
     str_or (vget "sha256" d') = str_or (vget "sha256" d)) →
  let p := strip (str_or (vget "path" d)) in
  p ≠ "" → (∀ s, VStr s ∈ declared → strip s ≠ p) →
  (∀ claimed, claimed_paths payload = Ok claimed → p ∉ claimed) →
  fs !! p = Some h → h ≠ "" →
  if bool_decide (str_or (vget "sha256" d) = h)
  then fs' !! p = None ∧ p ∉ map entry_path foreign
  else fs' !! p = Some h ∧ p ∈ map entry_path foreign.
Proof.
  intros (l' & ps & claimed & w & Hl' & Hps & Hcl & Hw & Hc & -> & -> & _)%prune_inv Hl Hd Huniq.
  cbn zeta. intros Hp Hdecl Hun Hh Hne. unfold previous_installed in *. rewrite Hl in Hl'. injection Hl' as <-.
  assert (Hk : strip (str_or (vget "path" d)) ∉ ps).
  { rewrite (paths_spec _ _ Hps). intros (_ & s & Hs & E). by eapply Hdecl. }
  (* the digest of every withdrawn entry at this path *)
  assert (Hsha : ∀ e, e ∈ w → entry_path e = strip (str_or (vget "path" d)) →
                 entry_sha e = str_or (vget "sha256" d)).
  { intros e He Ee. rewrite Hw in He. apply elem_of_filter_bool in He as [He _].
    apply withdrawn_sound in He as (d' & Hd' & -> & _). rewrite entry_path_of in Ee.
    rewrite entry_sha_of. auto. }
  assert (∃ e, e ∈ w ∧ entry_path e = strip (str_or (vget "path" d))) as (e & He & Ee).
  { destruct (withdrawn_complete ps l d Hd) as (e & He & Ee); [by rewrite entry_path_of..|].
    exists e. rewrite entry_path_of in Ee. split; [|done]. rewrite Hw. apply elem_of_filter_bool. split; [done|].
    apply withdrawn_sound in He as (d' & _ & -> & _). unfold entry_of. apply unclaimed_entry_iff.
    rewrite entry_path_of in Ee. rewrite Ee. auto. }
  assert (Hours : ∀ e, e ∈ w → entry_path e = strip (str_or (vget "path" d)) →
    still_ours fs e = bool_decide (str_or (vget "sha256" d) = h) ∧
    not_ours fs e = negb (bool_decide (str_or (vget "sha256" d) = h))).
  { intros e' He' Ee'. unfold still_ours, not_ours. rewrite Ee', Hh, (Hsha e' He' Ee').
    by rewrite (bool_decide_false (h = "")). }
  rewrite delete_all_lookup. destruct (Hours e He Ee) as [Ho Hno].
  case_bool_decide as Hs.
  - split.
    + rewrite bool_decide_true; [done|]. rewrite <-Ee. apply list_elem_of_fmap_2, elem_of_filter_bool.
      done.
    + intros (e' & E' & [He' Hn']%elem_of_filter_bool)%list_elem_of_fmap.
      destruct (Hours e' He' (eq_sym E')) as [_ Hn2].
      cbn in Hn2. congruence.
  - split.
    + rewrite bool_decide_false; [done|].
      intros (e' & E' & [He' Hn']%elem_of_filter_bool)%list_elem_of_fmap.
      destruct (Hours e' He' (eq_sym E')) as [Ho2 _].
      congruence.
    + rewrite <-Ee. apply list_elem_of_fmap_2, elem_of_filter_bool.
      done.
Qed.

Lemma installed_declared declared fs ps ins :
  paths (VList declared) = Ok ps →
  converge_installed (VList declared) (stat_loop py_str fs declared) = Ok ins →
  ∀ e, e ∈ ins → ∃ p v, e = entry p v ∧ p ∈ ps.
Proof.
  intros Hps. unfold converge_installed. intros (r & _ & (b & _ & H)%res_bind_Ok)%res_bind_Ok e He.
  rewrite Hps in H. cbn in H. injection H as <-. unfold present_entries in He.
  apply list_elem_of_omap in He as (p & Hp & E). destruct (dget p b) as [v|]; [|done].
  injection E as <-. by exists p, v.
Qed.

Lemma withdrawn_nil keep l :
  (∀ e, e ∈ l → ∃ p v, e = entry p v ∧ strip p ∈ keep) → (withdrawn_of keep l).1 = [].
Proof.
  intros H. destruct (withdrawn_of keep l).1 as [|e w] eqn:E; [done|]. exfalso.
  destruct (withdrawn_sound keep l e) as (d & Hd & -> & _ & Hk); [rewrite E; by left|].
  destruct (H _ Hd) as (p & v & [= ->] & Hp). rewrite entry_path_of in Hk. revert Hk.
  by vget_simpl; rewrite str_or_str.
Qed.

Lemma strip_idemp_paths l ps p : paths (VList l) = Ok ps → p ∈ ps → ∃ s, p = strip s.
Proof. intros H Hp. apply (paths_spec _ _ H) in Hp as (_ & s & _ & ->). eauto. Qed.

(** A converge run again withdraws nothing.  Over the manifest the
    last prune wrote, with the same declarations, a prune deletes no file,
    reports none, and writes the same manifest. *)
Theorem prune_fixpoint previous payload declared fs fs' m foreign :
  prune previous payload declared fs = Ok (fs', m, foreign) →
  prune m payload declared fs' = Ok (fs', m, []).
Proof.
  intros (l & ps & claimed & w & Hl & Hps & Hcl & Hw & Hc & Hfs & Hfo & ins & Hins & ->)%prune_inv.
  assert (Hnil : (withdrawn_of ps ins).1 = []).
  { apply withdrawn_nil. intros e He.
    destruct (installed_declared _ _ _ _ Hps Hins e He) as (p & v & -> & Hp).
    exists p, v. split; [done|]. destruct (strip_idemp_paths _ _ _ Hps Hp) as (s & ->).
    by rewrite strip_idemp. }
  assert (Hwd : converge_withdrawn (manifest declared ins) (VList declared) = Ok []).
  { unfold converge_withdrawn, manifest, as_dict. rewrite Hps. cbn [from_option id mbind res_bind].
    vget_simpl. rewrite iter_or_list. cbn [mbind res_bind].
    change (foldl (withdrawn_step ps) ([], []) ins) with (withdrawn_of ps ins). by rewrite Hnil. }
  unfold prune. rewrite Hwd. cbn [mbind res_bind].
  rewrite (converge_unclaimed_spec _ _ _ Hcl). cbn [mbind res_bind List.filter].
  unfold converge_prunable, converge_foreign. rewrite split_stats_spec by constructor.
  cbn [fmap res_fmap mbind res_bind fst snd List.filter foldl]. by rewrite Hins.
Qed.

(** * Witnesses *)

(** A converge that withdrew three files: one still its own, one rewritten by
    an operator, one the payload claims. *)
Definition demo_previous : val := VDict [("schema", VInt 1); ("installed", VList [
  entry "/usr/local/bin/catena-old" (VStr "aa"); entry "/usr/local/bin/catena-edited" (VStr "bb");
  entry "/usr/local/bin/restic" (VStr "cc"); entry "/usr/local/bin/catena-kept" (VStr "dd")])].
Definition demo_payload : val := VDict [("entries", VList [VDict [("path", VStr "/usr/local/bin/restic")]])].
Definition demo_declared : list val := [VStr "/usr/local/bin/catena-kept"; VStr " "].
Definition demo_files : files :=
  <["/usr/local/bin/catena-old" := "aa"]> (<["/usr/local/bin/catena-edited" := "b2"]>
  (<["/usr/local/bin/restic" := "cc"]> (<["/usr/local/bin/catena-kept" := "dd"]> ∅))).

Lemma demo_ok : is_ok (prune demo_previous demo_payload demo_declared demo_files) = true.
Proof. vm_compute. reflexivity. Qed.
Definition demo_result : files * val * list val := get_ok _ demo_ok.
Lemma demo_prunes : prune demo_previous demo_payload demo_declared demo_files
  = Ok (demo_result.1.1, demo_result.1.2, demo_result.2).
Proof. rewrite (get_ok_eq _ demo_ok). unfold demo_result. by destruct (get_ok _ demo_ok) as [[]]. Qed.

Lemma prune_safe_witness :
  let p := "/usr/local/bin/catena-old" in let fs' := demo_result.1.1 in
  fs' !! p = demo_files !! p ∨
  fs' !! p = None ∧
  (∃ l d h, previous_installed demo_previous l ∧ VDict d ∈ l ∧ p = strip (str_or (vget "path" d)) ∧
     demo_files !! p = Some h ∧ h ≠ "" ∧ str_or (vget "sha256" d) = h) ∧
  (∀ s, VStr s ∈ demo_declared → strip s ≠ p) ∧
  (∃ claimed, claimed_paths demo_payload = Ok claimed ∧ p ∉ claimed).
Proof. exact (prune_safe _ _ _ _ _ _ _ _ demo_prunes). Defined.

Definition demo_edited : dict val := [("path", VStr "/usr/local/bin/catena-edited"); ("sha256", VStr "bb")].
Definition demo_installed : list val := [
  entry "/usr/local/bin/catena-old" (VStr "aa"); VDict demo_edited;
  entry "/usr/local/bin/restic" (VStr "cc"); entry "/usr/local/bin/catena-kept" (VStr "dd")].

Lemma demo_unique d' :
  VDict d' ∈ demo_installed → strip (str_or (vget "path" d')) = strip (str_or (vget "path" demo_edited)) →
  str_or (vget "sha256" d') = str_or (vget "sha256" demo_edited).
Proof.
  unfold demo_installed, entry. rewrite !elem_of_cons, elem_of_nil.
  by intros [[= ->]|[[= ->]|[[= ->]|[[= ->]|[]]]]]; vm_compute.
Qed.
Lemma demo_undeclared s : VStr s ∈ demo_declared → strip s ≠ strip (str_or (vget "path" demo_edited)).
Proof. unfold demo_declared. rewrite !elem_of_cons, elem_of_nil. by intros [[= ->]|[[= ->]|[]]]; vm_compute. Qed.
Lemma demo_unclaimed claimed :
  claimed_paths demo_payload = Ok claimed → strip (str_or (vget "path" demo_edited)) ∉ claimed.
Proof.
  assert (E : claimed_paths demo_payload = Ok ["/usr/local/bin/restic"]) by (vm_compute; reflexivity).
  rewrite E. intros [= <-]. change (strip (str_or (vget "path" demo_edited))) with "/usr/local/bin/catena-edited".
  by intros ?%list_elem_of_singleton.
Qed.

Lemma prune_complete_witness :
  let p := strip (str_or (vget "path" demo_edited)) in
  if bool_decide (str_or (vget "sha256" demo_edited) = "b2")
  then demo_result.1.1 !! p = None ∧ p ∉ map entry_path demo_result.2
  else demo_result.1.1 !! p = Some "b2" ∧ p ∈ map entry_path demo_result.2.
Proof.
  refine (prune_complete _ _ _ _ _ _ _ demo_installed demo_edited "b2" demo_prunes _ _ demo_unique
            _ demo_undeclared demo_unclaimed _ _).
  - by vm_compute.
  - right. left.
  - by vm_compute.
  - by vm_compute.
  - done.
Defined.

Lemma prune_fixpoint_witness :
  prune demo_result.1.2 demo_payload demo_declared demo_result.1.1
    = Ok (demo_result.1.1, demo_result.1.2, []).
Proof. exact (prune_fixpoint _ _ _ _ _ _ _ demo_prunes). Defined.
