(* ===== verification/BootstrapDrift.v ===== *)
(** [ansible/playbooks/filter_plugins/bootstrap_drift.py]: what moved among
    the bootstrap-owned files since the last converge, less what a proven
    switch wrote in this one. *)
From S2P Require Import Prelude PyStr PyNum PyVal.

#[local] Open Scope string_scope.

(** One [files] entry of a find result. *)
Definition digest_file (out : dict string) (e : val) : dict string :=
  match e with
  | VDict d => if truthy (vget "path" d)
               then dset (py_str (vget "path" d)) (str_or (vget "checksum" d)) out else out
  | _ => out
  end.

(** The [stat] of a stat result. *)
Definition digest_stat (out : dict string) (info : val) : dict string :=
  match info with
  | VDict d => if truthy (vget "exists" d) && truthy (vget "path" d)
               then dset (py_str (vget "path" d)) (str_or (vget "checksum" d)) out else out
  | _ => out
  end.

Definition digest_step (out : dict string) (result : val) : res (dict string) :=
  match result with
  | VDict r =>
      files ← iter_or (vget "files" r);
      Ok (digest_stat (foldl digest_file out files) (vget "stat" r))
  | _ => Ok out
  end.

(** [_digest_map] *)
Definition digest_map (results : val) : res (dict string) :=
  l ← iter_or results; foldM digest_step [] l.

Definition key_le (p1 p2 : string * string) : Prop := String.le p1.1 p2.1.
#[export] Instance key_le_dec : RelDecision key_le.
Proof. intros p1 p2. apply String.le_dec. Defined.

Definition bootstrap_digests (finds stats : val) : res (dict string) :=
  merged ← digest_map finds;
  stats ← digest_map stats;
  Ok (merge_sort key_le (dupdate merged stats)).

(** [_switched_by]: the path itself, or a directory above it. *)
Definition covers (path w : string) : bool :=
  bool_decide (path = w) || startswith path (rstrip_char "/" w +:+ "/").
Definition switched_by (path : string) (switched : list val) : bool :=
  existsb (λ w, negb (bool_decide (w = "")) && covers path w) (map py_str switched).

(** [{str(k): str(v)}] of a mapping, nothing of anything else. *)
Definition texts (v : val) : dict string :=
  match v with VDict d => map (λ '(k, v), (k, py_str v)) d | _ => [] end.

Record drift := { added : list string; removed : list string; changed : list string }.

Definition keep (switched : list val) (paths : list string) : list string :=
  sorted_str (List.filter (λ p, negb (switched_by p switched)) paths).

(** [set(d1) - set(d2)] *)
Definition missing_from (d1 d2 : dict string) : list string :=
  List.filter (λ p, negb (dhas p d2)) (dkeys d1).

(** Both sides carry a digest and the two differ. *)
Definition differs (before after : dict string) (p : string) : bool :=
  match dget p before, dget p after with
  | Some b, Some a => negb (bool_decide (b = "")) && negb (bool_decide (a = "")) && negb (bool_decide (b = a))
  | _, _ => false
  end.

Definition bootstrap_drift (previous current switched : val) : res drift :=
  let before := texts previous in
  let after := texts current in
  switched ← iter_or switched;
  Ok {| added := keep switched (missing_from after before);
        removed := keep switched (missing_from before after);
        changed := keep switched (List.filter (differs before after) (dkeys before)) |}.

(** * Lemmas *)

Lemma elem_of_keep switched l p : p ∈ keep switched l ↔ p ∈ l ∧ switched_by p switched = false.
Proof.
  unfold keep. rewrite elem_of_sorted_str. rewrite list_elem_of_In, filter_In, <-list_elem_of_In.
  by rewrite negb_true_iff.
Qed.

Lemma dhas_false {V} k (d : dict V) : negb (dhas k d) = true ↔ dget k d = None.
Proof.
  unfold dhas. rewrite negb_true_iff, bool_decide_eq_false. rewrite <-eq_None_not_Some. done.
Qed.

Lemma elem_of_missing d1 d2 p : p ∈ missing_from d1 d2 ↔ is_Some (dget p d1) ∧ dget p d2 = None.
Proof.
  unfold missing_from. rewrite list_elem_of_In, filter_In, <-list_elem_of_In.
  by rewrite elem_of_dkeys, dhas_false.
Qed.

(** What the digest of a value reads as. *)
Lemma dget_texts k v : dget k (texts v) = py_str <$> dget k (default [] (as_dict v)).
Proof.
  destruct v as [| | | | | |d]; try done. cbn. induction d as [|[k0 v0] d IH]; cbn; [done|].
  by case_bool_decide.
Qed.

(** A path under or at a written directory or file. *)
Definition written (switched : list val) (p : string) : Prop := switched_by p switched = true.

(** The report is exact.  When the switch list can be read, a path is
    reported as added, removed or changed exactly when it appeared, went, or
    carries two different non-empty digests, and no proven switch wrote it or a
    directory above it; the three lists never share a path, and two identical
    pictures report nothing. *)
Theorem bootstrap_drift_exact previous current switched l :
  iter_or switched = Ok l →
  ∃ d, bootstrap_drift previous current switched = Ok d ∧
    let before k := dget k (texts previous) in
    let after k := dget k (texts current) in
    (∀ p, p ∈ added d ↔ before p = None ∧ is_Some (after p) ∧ ¬ written l p) ∧
    (∀ p, p ∈ removed d ↔ is_Some (before p) ∧ after p = None ∧ ¬ written l p) ∧
    (∀ p, p ∈ changed d ↔ (∃ b a, before p = Some b ∧ after p = Some a ∧ b ≠ "" ∧ a ≠ "" ∧ b ≠ a) ∧
                            ¬ written l p) ∧
    (∀ p, ¬ (p ∈ added d ∧ p ∈ removed d) ∧ ¬ (p ∈ added d ∧ p ∈ changed d) ∧
          ¬ (p ∈ removed d ∧ p ∈ changed d)) ∧
    (previous = current → added d = [] ∧ removed d = [] ∧ changed d = []).
Proof.
  intros Hl. unfold bootstrap_drift. rewrite Hl. cbn [mbind res_bind]. eexists. split; [done|]. cbn zeta.
  assert (Ha : ∀ p, p ∈ keep l (missing_from (texts current) (texts previous)) ↔
    dget p (texts previous) = None ∧ is_Some (dget p (texts current)) ∧ ¬ written l p).
  { intros p. rewrite elem_of_keep, elem_of_missing. unfold written. rewrite not_true_iff_false. tauto. }
  assert (Hr : ∀ p, p ∈ keep l (missing_from (texts previous) (texts current)) ↔
    is_Some (dget p (texts previous)) ∧ dget p (texts current) = None ∧ ¬ written l p).
  { intros p. rewrite elem_of_keep, elem_of_missing. unfold written. rewrite not_true_iff_false. tauto. }
  assert (Hc : ∀ p, p ∈ keep l (List.filter (differs (texts previous) (texts current)) (dkeys (texts previous))) ↔
    (∃ b a, dget p (texts previous) = Some b ∧ dget p (texts current) = Some a ∧ b ≠ "" ∧ a ≠ "" ∧ b ≠ a) ∧
    ¬ written l p).
  { intros p. rewrite elem_of_keep, list_elem_of_In, filter_In, <-list_elem_of_In, elem_of_dkeys.
    unfold written, differs. rewrite not_true_iff_false.
    destruct (dget p (texts previous)) as [b|], (dget p (texts current)) as [a|];
      rewrite ?andb_true_iff, ?negb_true_iff, ?bool_decide_eq_false; naive_solver. }
  cbn [added removed changed]. split_and!; [exact Ha|exact Hr|exact Hc| |].
  - intros p. rewrite Ha, Hr, Hc. split_and!.
    + intros [(H1 & _) (H2 & _)]. rewrite H1 in H2. by destruct H2.
    + intros [(H1 & _) ((b & a & H2 & _) & _)]. congruence.
    + intros [(_ & H1 & _) ((b & a & _ & H2 & _) & _)]. congruence.
  - intros ->. split_and!; apply elem_of_nil_inv; intros p.
    + rewrite Ha. intros (H1 & H2 & _). rewrite H1 in H2. by destruct H2.
    + rewrite Hr. intros (H1 & H2 & _). rewrite H2 in H1. by destruct H1.
    + rewrite Hc. intros ((b & a & H1 & H2 & _ & _ & H3) & _). congruence.
Qed.

Lemma bootstrap_drift_exact_witness :
  ∃ d, bootstrap_drift (VDict [("/etc/ssh/a", VStr "1"); ("/etc/old", VStr "2")])
         (VDict [("/etc/ssh/a", VStr "3"); ("/etc/new", VStr "4")]) (VList [VStr "/etc/ssh/"]) = Ok d ∧
       "/etc/new" ∈ added d ∧ "/etc/ssh/a" ∉ changed d.
Proof.
  destruct (bootstrap_drift_exact (VDict [("/etc/ssh/a", VStr "1"); ("/etc/old", VStr "2")])
    (VDict [("/etc/ssh/a", VStr "3"); ("/etc/new", VStr "4")]) (VList [VStr "/etc/ssh/"])
    [VStr "/etc/ssh/"] eq_refl) as (d & E & Ha & _ & Hc & _).
  exists d. split_and!; [done| |].
  - rewrite Ha. split_and!; [done|by eexists|by vm_compute].
  - rewrite Hc. intros [_ H]. by apply H; vm_compute.
Defined.
