(* ===== verification/Effects.v ===== *)
(** Computations over a state that return or stop with a fault, keeping what
    they did either way, and how a relation between the states before and
    after is carried through one. *)
From S2P Require Import Prelude.

Section st.
Context {W F : Type}.

Definition ST (A : Type) : Type := W → (F + A) * W.
#[export] Instance ST_ret : MRet ST := λ A a w, (inr a, w).
#[export] Instance ST_bind : MBind ST := λ A B f m w,
  match m w with (inr a, w) => f a w | (inl e, w) => (inl e, w) end.

Definition throw {A} (e : F) : ST A := λ w, (inl e, w).
Definition gets {A} (f : W → A) : ST A := λ w, (inr (f w), w).
Definition modify (f : W → W) : ST unit := λ w, (inr tt, f w).
(** [try: c] / [except e: handler(e)] *)
Definition catch {A} (c : ST A) (handler : F → ST A) : ST A := λ w,
  match c w with (inl e, w) => handler e w | r => r end.

(** A computation that stops on a raising result. *)
Definition lift {A} (fault : exn → F) (r : res A) : ST A :=
  match r with Ok a => mret a | Raise e => throw (fault e) end.

(** A loop whose body may stop. *)
Fixpoint foldST {A S} (f : S → A → ST S) (s : S) (l : list A) : ST S :=
  match l with
  | [] => mret s
  | x :: l => s ← f s x; foldST f s l
  end.

Lemma bind_inv {A B} (c : ST A) (f : A → ST B) w r w' :
  (c ≫= f) w = (r, w') →
  (∃ e, c w = (inl e, w') ∧ r = inl e) ∨ (∃ a w1, c w = (inr a, w1) ∧ f a w1 = (r, w')).
Proof.
  unfold mbind, ST_bind. destruct (c w) as [[e|a] w1]; [left|right]; simplify_eq; eauto.
Qed.
Lemma bind_ok {A B} (c : ST A) (f : A → ST B) w b w' :
  (c ≫= f) w = (inr b, w') → ∃ a w1, c w = (inr a, w1) ∧ f a w1 = (inr b, w').
Proof. intros [(e & _ & ?)|?]%bind_inv; [done|eauto]. Qed.
Lemma catch_ok {A} (c : ST A) handler w a w' : catch c handler w = (inr a, w') →
  c w = (inr a, w') ∨ ∃ e w1, c w = (inl e, w1) ∧ handler e w1 = (inr a, w').
Proof. unfold catch. destruct (c w) as [[e|b] w1]; [right|left]; simplify_eq; eauto. Qed.
Lemma bind_run {A B} (c : ST A) (f : A → ST B) w a w1 :
  c w = (inr a, w1) → (c ≫= f) w = f a w1.
Proof. intros H. unfold mbind, ST_bind. by rewrite H. Qed.
Lemma gets_bind {A B} (h : W → A) (f : A → ST B) w : (gets h ≫= f) w = f (h w) w.
Proof. done. Qed.
Lemma modify_bind {B} (h : W → W) (f : unit → ST B) w : (modify h ≫= f) w = f tt (h w).
Proof. done. Qed.

(** ** Every run of a computation relates the states before and after *)

Definition runs_in {A} (R : W → W → Prop) (c : ST A) : Prop := ∀ w r w', c w = (r, w') → R w w'.

Lemma runs_elim {A} (R : W → W → Prop) (c : ST A) w r w' : c w = (r, w') → runs_in R c → R w w'.
Proof. intros H Hc. by eapply Hc. Qed.

Section runs.
Context (R : W → W → Prop) `{!PreOrder R}.

Lemma runs_ret {A} (a : A) : runs_in R (mret a).
Proof. intros w r w' H. apply pair_equal_spec in H as [_ <-]. done. Qed.
Lemma runs_throw {A} e : runs_in R (throw e : ST A).
Proof. intros w r w' H. apply pair_equal_spec in H as [_ <-]. done. Qed.
Lemma runs_gets {A} (f : W → A) : runs_in R (gets f).
Proof. intros w r w' H. apply pair_equal_spec in H as [_ <-]. done. Qed.
Lemma runs_modify f : (∀ w, R w (f w)) → runs_in R (modify f).
Proof. intros Hf w r w' H. apply pair_equal_spec in H as [_ <-]. done. Qed.
Lemma runs_bind {A B} (c : ST A) (f : A → ST B) :
  runs_in R c → (∀ a, runs_in R (f a)) → runs_in R (c ≫= f).
Proof.
  intros Hc Hf w r w' [(e & H & _)|(a & w1 & H1 & H)]%bind_inv; [by eapply Hc|].
  etrans; [by eapply Hc|by eapply Hf].
Qed.
Lemma runs_catch {A} (c : ST A) handler :
  runs_in R c → (∀ e, runs_in R (handler e)) → runs_in R (catch c handler).
Proof.
  intros Hc Hh w r w' H. unfold catch in H. destruct (c w) as [[e|a] w1] eqn:E.
  - etrans; [by eapply Hc|by eapply Hh].
  - apply pair_equal_spec in H as [_ <-]. by eapply Hc.
Qed.
Lemma runs_lift {A} fault (r : res A) : runs_in R (lift fault r).
Proof. destruct r; [apply runs_ret|apply runs_throw]. Qed.
Lemma runs_lift_bind {A B} fault (r : res A) (f : A → ST B) :
  (∀ a, r = Ok a → runs_in R (f a)) → runs_in R (lift fault r ≫= f).
Proof. intros Hf. destruct r as [a|e]; [exact (Hf a eq_refl)|apply runs_throw]. Qed.
Lemma runs_gets_bind {A B} (h : W → A) (f : A → ST B) :
  (∀ a, runs_in R (f a)) → runs_in R (gets h ≫= f).
Proof. intros Hf. apply runs_bind; [apply runs_gets|done]. Qed.
Lemma runs_foldST {A S} (f : S → A → ST S) s l :
  (∀ s x, x ∈ l → runs_in R (f s x)) → runs_in R (foldST f s l).
Proof.
  revert s. induction l as [|x l IH]; intros s Hf; [apply runs_ret|]. cbn [foldST].
  apply runs_bind; [apply Hf; by left|]. intros a. apply IH. intros b y Hy. apply Hf. by right.
Qed.
End runs.

Lemma lift_ok {A} fault (r : res A) w a w' : lift fault r w = (inr a, w') → r = Ok a ∧ w' = w.
Proof. destruct r; intros H; [by apply pair_equal_spec in H as [[= ->] ->]|done]. Qed.
Lemma lift_bind_ok {A B} fault (r : res A) (f : A → ST B) w b w' :
  (lift fault r ≫= f) w = (inr b, w') → ∃ a, r = Ok a ∧ f a w = (inr b, w').
Proof. intros (a & w1 & H1 & H)%bind_ok. apply lift_ok in H1 as [-> ->]. eauto. Qed.
Lemma ret_ok {A} (a b : A) w w' : (mret a : ST A) w = (inr b, w') → b = a ∧ w' = w.
Proof. intros H. by apply pair_equal_spec in H as [[= ->] ->]. Qed.

(** ** Every fault a computation stops with satisfies a property *)

Definition faults_in {A} (P : F → W → Prop) (c : ST A) : Prop := ∀ w f w', c w = (inl f, w') → P f w'.
Lemma faults_ret {A} P (a : A) : faults_in P (mret a).
Proof. by intros w f w' [? _]%pair_equal_spec. Qed.
Lemma faults_gets {A} P (h : W → A) : faults_in P (gets h).
Proof. by intros w f w' [? _]%pair_equal_spec. Qed.
Lemma faults_throw {A} (P : F → W → Prop) e : (∀ w, P e w) → faults_in P (throw e : ST A).
Proof. intros He w f w' H. apply pair_equal_spec in H as [[= <-] <-]. apply He. Qed.
Lemma faults_lift {A} (P : F → W → Prop) fault (r : res A) : (∀ e w, P (fault e) w) → faults_in P (lift fault r).
Proof. intros He. destruct r; [apply faults_ret|by apply faults_throw]. Qed.
Lemma faults_bind {A B} P (c : ST A) (f : A → ST B) : faults_in P c → (∀ a, faults_in P (f a)) → faults_in P (c ≫= f).
Proof. intros Hc Hf w e w' [(e' & H & [= ->])|(a & w1 & _ & H)]%bind_inv; [by eapply Hc|by eapply Hf]. Qed.
Lemma faults_foldST {A S} P (f : S → A → ST S) s l : (∀ s x, faults_in P (f s x)) → faults_in P (foldST f s l).
Proof. intros Hf. revert s. induction l as [|x l IH]; intros s; [apply faults_ret|]. by apply faults_bind. Qed.

(** A log kept in the state only grows, by entries that satisfy [P]. *)
Definition extends {X} (log : W → list X) (P : X → Prop) (w w' : W) : Prop :=
  ∃ l, log w' = (log w ++ l)%list ∧ Forall P l.

#[export] Instance extends_preorder {X} (log : W → list X) P : PreOrder (extends log P).
Proof.
  split.
  - intros w. exists []. by rewrite app_nil_r.
  - intros w1 w2 w3 (l1 & E1 & H1) (l2 & E2 & H2). exists (l1 ++ l2)%list.
    by rewrite E2, E1, app_assoc, Forall_app.
Qed.
Lemma extends_elem {X} (log : W → list X) P w w' x : extends log P w w' → x ∈ log w → x ∈ log w'.
Proof. intros (l & -> & _) Hx. apply elem_of_app. by left. Qed.
End st.
#[global] Arguments ST W F A : clear implicits.

Create HintDb runs discriminated.
#[export] Hint Resolve runs_ret runs_throw runs_gets runs_lift : runs.

(** A run is walked through its steps, each choice of the code on its own. *)
Ltac runs_walk :=
  repeat first
    [ progress intros
    | apply runs_ret; apply _ | apply runs_throw; apply _ | apply runs_gets; apply _ | apply runs_lift; apply _
    | solve [eauto with runs]
    | apply runs_bind; [apply _| |]
    | match goal with |- runs_in _ (match ?x with _ => _ end) => destruct x end ].

Ltac faults_walk :=
  repeat first
    [ progress intros
    | apply faults_ret | apply faults_gets
    | apply faults_throw; by auto | apply faults_lift; by auto
    | solve [eauto with runs]
    | apply faults_bind
    | match goal with |- faults_in _ (match ?x with _ => _ end) => destruct x end ].
