(* ===== verification/DispatchPath.v ===== *)
(** [ansible/helpers/dispatch_path.py]: moving the panel's dispatch path to
    this tree's generation.  A [world] is the host's files, the runner's
    authorized_keys, the record of what was written and the state of
    everything outside ([sshd], [sudo], the clock, the random bytes), which
    only the commands change.  Every function is a computation over a world
    that returns, refuses or crashes, and keeps what it did either way. *)
From S2P Require Import Prelude PyStr PyNum PyVal Json Encoding Sha256 Effects.

#[local] Open Scope string_scope.

(** * Constants *)

Definition GENERATIONS : string := "/usr/local/lib/catena-dispatch".
Definition SUDOERS : string := "/etc/sudoers.d/catena-admin-runner".
Definition SUDOERS_NEXT : string := "/etc/sudoers.d/catena-admin-runner-next".
Definition ACCEPTENV : string := "/etc/ssh/sshd_config.d/30-catena-admin-runner-acceptenv.conf".
Definition ACCEPTENV_NEXT : string := "/etc/ssh/sshd_config.d/30-catena-admin-runner-next.conf".
Definition PROOF_KEY_PARENT : string := "/run".
Definition PROOF_ACTION : string := "dispatch-path-proof".
Definition ENTRY_REFUSAL : string := "catena-dispatch-entry: refusing".
Definition HOST_ALIAS : string := "host.docker.internal".
Definition LOOPBACK : string := "127.0.0.1".
Definition KEY_OPTIONS : string := "restrict".
Definition FORBIDDEN_NAMES : list string := ["CATENA_ADMIN_ACTIONS_FILE"].
Definition SSH : string := "/usr/bin/ssh".
Definition SSH_KEYGEN : string := "/usr/bin/ssh-keygen".
Definition SSHD : string := "/usr/sbin/sshd".
Definition SYSTEMCTL : string := "/usr/bin/systemctl".
Definition VISUDO : string := "/usr/sbin/visudo".
Definition ATTEMPTS : nat := 5.
Definition LEGACY : string := "legacy".
Definition NONE : string := "none".
Definition HEADER : string :=
  "# Written by catena-ce reconcile/roles/dispatch_path (helpers/dispatch_path.py)." +:+ String nl "".

Definition quoted (s : string) : string := String dq (s +:+ String dq "").

(** * What a generation is made of *)

(** The input document, its fields present. *)
Record config := {
  runner_user : string;
  runner_home : string;
  panel_key_dir : string;
  cfg_link : string;
  cfg_passthrough : val;
  cfg_entry : string;
  cfg_dispatcher : string
}.

(** [_tail]: the words of a text, its last 300 characters. *)
Definition last_n (n : nat) (s : string) : string :=
  String.substring (String.length s - n) n s.
Definition tail (s : string) : string :=
  let t := last_n 300 (sjoin " " (words s)) in
  if bool_decide (t = "") then "no output" else t.

(** [_text] *)
Definition text_of (script : string) : string := rstrip_char nl script +:+ newline_str.

Definition sudo_rule (user dispatcher : string) (names : list string) : string :=
  HEADER
  +:+ "# The runner account may run this generation's dispatcher as root, with no" +:+ newline_str
  +:+ "# password and no tty, keeping the dispatch variables sshd accepted for it." +:+ newline_str
  +:+ "Defaults:" +:+ user +:+ " !requiretty" +:+ newline_str
  +:+ "Defaults:" +:+ user +:+ " env_keep += " +:+ quoted (sjoin " " names) +:+ newline_str
  +:+ user +:+ " ALL=(root) NOPASSWD: " +:+ dispatcher +:+ newline_str.

Definition acceptenv_rule (user : string) (names : list string) : string :=
  HEADER
  +:+ "# The dispatch variables the panel sends, accepted for the runner account alone." +:+ newline_str
  +:+ "Match User " +:+ user +:+ newline_str
  +:+ "    AcceptEnv " +:+ sjoin " " names +:+ newline_str
  +:+ "Match all" +:+ newline_str.

Definition key_line (entry pubkey : string) (loopback_only : bool) (expires : string) : string :=
  (if loopback_only then "from=" +:+ quoted (LOOPBACK +:+ ",::1") +:+ "," else "")
  +:+ (if bool_decide (expires = "") then "" else "expiry-time=" +:+ quoted expires +:+ ",")
  +:+ "command=" +:+ quoted entry +:+ "," +:+ KEY_OPTIONS +:+ " " +:+ pubkey.

Definition word_of (p : ascii → bool) (s : string) : bool := negb (bool_decide (s = "")) && sforall p s.

(** [X_FORWARDED_[A-Z]+|CATENA(?:_[A-Z]+)+], the whole name. *)
Definition passthrough_name (name : string) : bool :=
  match strip_prefix "X_FORWARDED_" name with
  | Some rest => word_of is_upper rest
  | None =>
      match strip_prefix "CATENA_" name with
      | Some rest => forallb (word_of is_upper) (split "_" rest)
      | None => false
      end
  end.

Definition name_allowed (v : val) : bool :=
  match v with
  | VStr name => passthrough_name name && negb (bool_decide (name ∈ FORBIDDEN_NAMES))
  | _ => false
  end.

Definition passthrough_problem (names : val) : string :=
  match names with
  | VList l =>
      match List.filter (λ v, negb (name_allowed v)) l with
      | [] => ""
      | v :: _ => "the passthrough name " +:+ py_repr v
                  +:+ " is refused: a name is X_FORWARDED_<WORD> or CATENA_<WORDS> in capital letters, and never a variable a root script reads to find its code"
      end
  | _ => "the passthrough names are not a list"
  end.

(** [list(cfg["passthrough"])], once the names are known to be strings. *)
Definition names_of (cfg : config) : list string :=
  match cfg_passthrough cfg with VList l => omap as_str l | _ => [] end.

Definition zero_char : ascii := "000"%char.
Definition generation (cfg : config) : string :=
  let names := names_of cfg in
  let parts := [text_of (cfg_entry cfg); text_of (cfg_dispatcher cfg);
                sudo_rule (runner_user cfg) "@DISPATCHER@" names;
                acceptenv_rule (runner_user cfg) names;
                key_line "@ENTRY@" "@KEY@" false ""] in
  String.substring 0 12
    (sha256_hex (foldr (λ p s, utf8 p +:+ String zero_char s) "" parts)).

Definition gen_dir (gen : string) : string := GENERATIONS +:+ "/" +:+ gen.
Definition entry_path (gen : string) : string := gen_dir gen +:+ "/entry".
Definition dispatcher_path (gen : string) : string := gen_dir gen +:+ "/dispatcher".

(** * What is running *)

(** The body of a double-quoted option up to its unescaped closing quote. *)
Fixpoint quoted_body (s : string) : option string :=
  match s with
  | EmptyString => None
  | String a s' =>
      if bool_decide (a = dq) then Some ""
      else if bool_decide (a = bs) then
        match s' with
        | String b s'' => if bool_decide (b = nl) then None
                          else r ← quoted_body s''; Some (String a (String b r))
        | EmptyString => None
        end
      else r ← quoted_body s'; Some (String a r)
  end.

Definition command_here (s : string) : option string :=
  r ← strip_prefix ("command=" +:+ String dq "") s; quoted_body r.

(** [_COMMAND.search]: at the start, or after the first comma that works. *)
Fixpoint command_after_comma (s : string) : option string :=
  match s with
  | EmptyString => None
  | String a s' =>
      match (if bool_decide (a = ","%char) then command_here s' else None) with
      | Some c => Some c
      | None => command_after_comma s'
      end
  end.
Definition command_of (line : string) : option string :=
  match command_here line with Some c => Some c | None => command_after_comma line end.

(** [_GENERATION_ENTRY.fullmatch]: the twelve hexadecimal digits. *)
Definition generation_of_entry (command : string) : option string :=
  r ← strip_prefix (GENERATIONS +:+ "/") command;
  let gen := String.substring 0 12 r in
  if bool_decide (String.length gen = 12) && sforall is_hex_char gen
     && bool_decide (r = gen +:+ "/entry") then Some gen else None.

Definition key_blob (pub : string) : string := default "" (words pub !! 1).

Definition carries_key (blob line : string) : bool :=
  negb (bool_decide (strip line = "")) && negb (startswith (lstrip_of is_space line) "#")
  && bool_decide (blob ∈ words line).
Definition line_for (keys : option string) (blob : string) : option string :=
  head (List.filter (carries_key blob) (splitlines (default "" keys))).

Definition running_generation (line : option string) : string :=
  match line with
  | None => NONE
  | Some line => default LEGACY (command_of line ≫= generation_of_entry)
  end.

(** [ssh-ed25519 [A-Za-z0-9+/]+=*( \S+)?], the whole line. *)
Definition is_b64_char (a : ascii) : bool := is_alnum a || is_char "+" a || is_char "/" a.
Fixpoint span_of (p : ascii → bool) (s : string) : string * string :=
  match s with
  | String a s' => if p a then let '(d, r) := span_of p s' in (String a d, r) else ("", s)
  | EmptyString => ("", "")
  end.
Definition panel_key_ok (pub : string) : bool :=
  match strip_prefix "ssh-ed25519 " pub with
  | None => false
  | Some r =>
      let '(blob, r) := span_of is_b64_char r in
      let '(_, r) := span_of (is_char "=") r in
      negb (bool_decide (blob = "")) &&
      match r with
      | EmptyString => true
      | String a r => is_char " " a && word_of (λ a, negb (is_space a)) r
      end
  end.

(** * The host *)

(** A file, link or directory. *)
Inductive node :=
  | NFile (text : string) (mode uid : Z)
  | NLink (to : string)
  | NDir (mode uid : Z) (entries : list (string * node)).

(** The runner's [~/.ssh]: missing, not a plain directory, or a directory
    with its owner. *)
Inductive ssh_dir := SshMissing | SshOdd (why : string) | SshDir (uid : Z).

(** [authorized_keys]: a regular file with its owner and link count, or
    anything else. *)
Inductive knode := KFile (text : string) (uid nlink : Z) | KOdd.

(** What a command can read of the host. *)
Record view := { fs : gmap string node; ssh : ssh_dir; keys : option knode }.

(** What a command did: its exit status and output, or the timeout. *)
Inductive completed := Completed (returncode : Z) (stdout stderr : string) | TimedOut.

(** How a computation stops short: a refusal, said in a sentence, or any
    other exception. *)
Inductive fault := Refused (why : string) | Crash.

(** Everything outside the host's files: the commands, which read the files
    and change only their own state; a minted key's public half, random text,
    the proof directory's suffix, the clock; and the account database. *)
Class Outside (E : Type) := {
  run_cmd : list string → view → E → completed * E;
  read_pub : string → E → option string;
  token_hex16 : E → string * E;
  mkdtemp_suffix : E → string * E;
  expiry : E → string;
  ids : string → Z * Z
}.

Section host.
Context {E : Type} `{!Outside E}.

Record world := { files : view; wrote : list string; ext : E }.

Abbreviation M := (ST world fault).
Definition refuse {A} (why : string) : M A := throw (Refused why).
Definition get : M world := λ w, (inr w, w).
Definition put_files (v : view) : M unit := λ w, (inr tt, {| files := v; wrote := wrote w; ext := ext w |}).
Definition record_wrote (ps : list string) : M unit := λ w,
  (inr tt, {| files := files w; wrote := wrote w ++ ps; ext := ext w |}).
Definition with_ext {A} (f : E → A * E) : M A := λ w,
  let '(a, e) := f (ext w) in (inr a, {| files := files w; wrote := wrote w; ext := e |}).

(** [try: m] / [except BaseException: undo(); raise] *)
Definition except {A} (m : M A) (undo : M unit) : M A := λ w,
  match m w with
  | (inl e, w) => match undo w with (inl e', w) => (inl e', w) | (inr _, w) => (inl e, w) end
  | r => r
  end.
(** [try: m] / [finally: cleanup] *)
Definition finally {A} (m : M A) (cleanup : M unit) : M A := λ w,
  let '(r, w) := m w in
  match cleanup w with (inl e, w) => (inl e, w) | (inr _, w) => (r, w) end.

Definition set_fs (m : gmap string node) : M unit :=
  v ← gets files; put_files {| fs := m; ssh := ssh v; keys := keys v |}.
Definition set_keys (k : option knode) : M unit :=
  v ← gets files; put_files {| fs := fs v; ssh := ssh v; keys := k |}.

(** [subprocess.run] with its timeout. *)
Definition run (argv : list string) : M (Z * string * string) := λ w,
  let '(c, e) := run_cmd argv (files w) (ext w) in
  let w := {| files := files w; wrote := wrote w; ext := e |} in
  match c with
  | Completed rc out err => (inr (rc, out, err), w)
  | TimedOut => (inl Crash, w)
  end.

Definition root_uid : Z := (ids "root").1.

(** Reading through links, at most 40 deep, as the kernel does. *)
Fixpoint read_node (fuel : nat) (m : gmap string node) (path : string) : fault + option string :=
  match fuel with
  | 0 => inl Crash
  | S fuel =>
      match m !! path with
      | None => inr None
      | Some (NFile text _ _) => inr (Some text)
      | Some (NDir _ _ _) => inl Crash
      | Some (NLink to) => read_node fuel m to
      end
  end.

#[global] Arguments read_node : simpl never.

Definition host_read (path : string) : M (option string) := λ w, (read_node 40 (fs (files w)) path, w).

Definition tmp_of (path : string) : string := path +:+ ".tmp".

(** [os.replace] of a written temporary over a target that is no directory. *)
Definition replace_with (path : string) (n : node) : M unit :=
  m ← gets (fs ∘ files);
  match m !! path with
  | Some (NDir _ _ _) => throw Crash
  | _ => set_fs (<[path := n]> (delete (tmp_of path) m))
  end.

Definition host_write (path text : string) (mode : Z) (check : option (list string)) : M bool :=
  held ← host_read path;
  if bool_decide (held = Some text) then mret false else
  m ← gets (fs ∘ files);
  _ ← set_fs (<[tmp_of path := NFile text mode root_uid]> m);
  _ ← match check with
      | None => mret tt
      | Some check =>
          '(rc, out, err) ← run (check ++ [tmp_of path])%list;
          if bool_decide (rc = 0%Z) then mret tt else
          m ← gets (fs ∘ files);
          _ ← set_fs (delete (tmp_of path) m);
          refuse (default "" (head check) +:+ " refused " +:+ path +:+ ": " +:+ tail (out +:+ err))
      end;
  _ ← replace_with path (NFile text mode root_uid);
  _ ← record_wrote [path];
  mret true.

Definition host_remove (path : string) : M bool :=
  m ← gets (fs ∘ files);
  match m !! path with
  | None => mret false
  | Some _ => _ ← set_fs (delete path m); _ ← record_wrote [path]; mret true
  end.

Definition host_put_back (path : string) (text : option string) (mode : Z) : M unit :=
  match text with
  | None => _ ← host_remove path; mret tt
  | Some text => _ ← host_write path text mode None; mret tt
  end.

Definition host_link (path to : string) : M bool :=
  m ← gets (fs ∘ files);
  match m !! path with
  | Some (NLink to') =>
      if bool_decide (to' = to) then mret false
      else _ ← replace_with path (NLink to); _ ← record_wrote [path]; mret true
  | _ => _ ← replace_with path (NLink to); _ ← record_wrote [path]; mret true
  end.

(** A root-owned 0755 regular file holding a text. *)
Definition plain_file (text : string) (n : node) : bool :=
  match n with
  | NFile t mode uid => bool_decide (mode = 493%Z) && bool_decide (uid = root_uid) && bool_decide (t = text)
  | _ => false
  end.

Definition generation_intact (gen entry dispatcher : string) (m : gmap string node) : bool :=
  match m !! gen_dir gen with
  | Some (NDir mode uid entries) =>
      bool_decide (mode = 493%Z) && bool_decide (uid = root_uid)
      && bool_decide (sorted_str entries.*1 = sorted_str ["entry"; "dispatcher"])
      && from_option (plain_file entry) false (dget "entry" entries)
      && from_option (plain_file dispatcher) false (dget "dispatcher" entries)
  | _ => false
  end.

Definition install_generation (gen entry dispatcher : string) : M bool :=
  m ← gets (fs ∘ files);
  if generation_intact gen entry dispatcher m then mret false else
  base ← match m !! GENERATIONS with
         | None => mret (NDir 493 root_uid [])
         | Some (NDir _ uid entries) => mret (NDir 493 uid entries)
         | Some _ => throw Crash
         end;
  match m !! gen_dir gen with
  | Some (NFile _ _ _) => throw Crash
  | _ =>
      _ ← set_fs (<[gen_dir gen := NDir 493 root_uid [("entry", NFile entry 493 root_uid);
                                                     ("dispatcher", NFile dispatcher 493 root_uid)]]>
                   (<[GENERATIONS := base]> (delete (GENERATIONS +:+ "/." +:+ gen +:+ ".tmp") m)));
      _ ← record_wrote [entry_path gen; dispatcher_path gen];
      mret true
  end.

(** The children of the generations directory. *)
Definition child_of (dir path : string) : option string :=
  r ← strip_prefix (dir +:+ "/") path;
  if bool_decide (r = "") || has_char "/" r then None else Some r.
Definition generations : M (list string) :=
  m ← gets (fs ∘ files);
  match m !! GENERATIONS with
  | Some (NDir _ _ _) => mret (sorted_str (omap (child_of GENERATIONS) (map_to_list m).*1))
  | _ => mret []
  end.

Definition sshd_reload : M unit :=
  '(rc, _, err) ← run [SYSTEMCTL; "reload"; "ssh"];
  if bool_decide (rc = 0%Z) then mret tt else refuse ("sshd did not reload: " +:+ tail err).

Definition place_sshd (path text : string) : M bool :=
  before ← host_read path;
  changed ← host_write path text 420 None;
  if negb changed then mret false else
  '(rc, _, err) ← run [SSHD; "-t"];
  if bool_decide (rc = 0%Z) then mret true else
  _ ← host_put_back path before 420;
  refuse ("sshd refused " +:+ path +:+ ": " +:+ tail err).

(** ** The runner's authorized_keys *)

Definition keys_path (cfg : config) : string := runner_home cfg +:+ "/.ssh/authorized_keys".

(** [RunnerKeys.__init__] *)
Definition keys_open (cfg : config) : M unit :=
  v ← gets files;
  match ssh v with
  | SshMissing => refuse (runner_home cfg +:+ "/.ssh is missing; the install creates it")
  | SshOdd why => refuse (runner_home cfg +:+ "/.ssh is not a plain directory (" +:+ why +:+ ")")
  | SshDir uid =>
      if bool_decide (uid = (ids (runner_user cfg)).1) then mret tt
      else refuse (runner_home cfg +:+ "/.ssh is not owned by " +:+ runner_user cfg)
  end.

Definition keys_read (cfg : config) : M (option string) :=
  v ← gets files;
  match keys v with
  | None => mret None
  | Some KOdd => refuse (keys_path cfg +:+ " is not a plain file")
  | Some (KFile text uid nlink) =>
      if negb (bool_decide (nlink = 1%Z)) then refuse (keys_path cfg +:+ " has other links")
      else if bool_decide (uid = (ids (runner_user cfg)).1) || bool_decide (uid = root_uid)
      then mret (Some text)
      else refuse (keys_path cfg +:+ " is owned by neither " +:+ runner_user cfg +:+ " nor root")
  end.

Definition keys_write (cfg : config) (text : string) : M bool :=
  held ← keys_read cfg;
  if bool_decide (held = Some text) then mret false else
  _ ← set_keys (Some (KFile text (ids (runner_user cfg)).1 1));
  _ ← record_wrote [keys_path cfg];
  mret true.

Definition keys_remove (cfg : config) : M bool :=
  v ← gets files;
  match keys v with
  | None => mret false
  | Some _ => _ ← set_keys None; _ ← record_wrote [keys_path cfg]; mret true
  end.

Definition keys_put_back (cfg : config) (text : option string) : M unit :=
  match text with
  | None => _ ← keys_remove cfg; mret tt
  | Some text => _ ← keys_write cfg text; mret tt
  end.

(** ** The proof *)

(** [{n: nonce for n in names}] as ssh's [SetEnv] takes it. *)
Definition set_env (names : list string) (nonce : string) : string :=
  sjoin " " (map (λ '(k, v), k +:+ "=" +:+ v)
                 (foldl (λ d n, dset n nonce d) ([] : dict string) names)).

Definition ssh_argv (cfg : config) (key request : string) (env : option string) : list string :=
  ([SSH; "-F"; "/dev/null"; "-T"; "-i"; key;
    "-o"; "IdentitiesOnly=yes"; "-o"; "BatchMode=yes"; "-o"; "StrictHostKeyChecking=yes";
    "-o"; "UserKnownHostsFile=" +:+ panel_key_dir cfg +:+ "/known_hosts";
    "-o"; "GlobalKnownHostsFile=/dev/null"; "-o"; "HostKeyAlias=" +:+ HOST_ALIAS;
    "-o"; "HostKeyAlgorithms=ssh-ed25519"; "-o"; "ConnectTimeout=10"; "-o"; "LogLevel=ERROR"]
   ++ match env with Some e => ["-o"; "SetEnv " +:+ e] | None => [] end
   ++ ["-p"; "22"; runner_user cfg +:+ "@" +:+ LOOPBACK; request])%list.

(** [_dispatch]: up to five attempts while ssh itself fails. *)
Fixpoint dispatch_attempts (n : nat) (argv : list string) : M (Z * string * string) :=
  '(rc, out, err) ← run argv;
  match n with
  | S n => if bool_decide (rc = 255%Z) then dispatch_attempts n argv else mret (rc, out, err)
  | O => mret (rc, out, err)
  end.
Definition dispatch (argv : list string) : M (Z * string * string) :=
  dispatch_attempts (ATTEMPTS - 1) argv.

(** [line.split(" ", 1)[1]] of the lines that start with "arrived ". *)
Definition arrived_names (lines : list string) : list string := omap (strip_prefix "arrived ") lines.

(** The reasons the answer of a proof dispatch gives. *)
Definition answer_reasons (names : list string) (gen out : string) : list string :=
  let lines := splitlines out in
  let answer := default "" (head lines) in
  let arrived := arrived_names (List.tl lines) in
  let missing := List.filter (λ n, negb (bool_decide (n ∈ arrived))) names in
  ((if bool_decide (answer = PROOF_ACTION +:+ " " +:+ gen) then []
    else ["generation " +:+ gen +:+ " did not answer the proof (the answer was " +:+ repr_str answer +:+ ")"])
   ++ match missing with
      | [] => []
      | _ => [sjoin ", " missing +:+ " did not reach the dispatcher (sshd's AcceptEnv or sudo's env_keep dropped them)"]
      end)%list.

Definition refused_by_entry (rc : Z) (err : string) : bool :=
  bool_decide (rc = 2%Z) && scontains ENTRY_REFUSAL err.

Definition prove (cfg : config) (key gen : string) : M (list string) :=
  let names := names_of cfg in
  nonce ← with_ext token_hex16;
  let env := match names with [] => None | _ => Some (set_env names nonce) end in
  '(rc, out, err) ← dispatch (ssh_argv cfg key PROOF_ACTION env);
  if negb (bool_decide (rc = 0%Z))
  then mret ["the proof dispatch exited " +:+ str_of_int rc +:+ ": " +:+ tail err] else
  let reasons := answer_reasons names gen out in
  '(rc, out, err) ← dispatch (ssh_argv cfg key (PROOF_ACTION +:+ " carried") None);
  mret (if refused_by_entry rc err then reasons
        else reasons ++ ["a request carrying more than the action name was not refused by the entry before sudo (exit "
                         +:+ str_of_int rc +:+ ")"])%list.

(** The directory the proof key lives in, made and always removed. *)
Definition with_keydir {A} (body : string → M A) : M A :=
  suffix ← with_ext mkdtemp_suffix;
  let keydir := PROOF_KEY_PARENT +:+ "/catena-dispatch-proof." +:+ suffix in
  m ← gets (fs ∘ files);
  _ ← set_fs (<[keydir := NDir 448 root_uid []]> m);
  finally (body keydir) (m ← gets (fs ∘ files); set_fs (delete keydir m)).

Definition prove_beside (cfg : config) (gen : string) (keys_before : option string) : M (list string) :=
  with_keydir (λ keydir,
    let key := keydir +:+ "/id_ed25519" in
    '(rc, _, err) ← run [SSH_KEYGEN; "-q"; "-t"; "ed25519"; "-N"; ""; "-C"; ""; "-f"; key];
    if negb (bool_decide (rc = 0%Z))
    then mret ["ssh-keygen could not mint the proof key: " +:+ tail err] else
    e ← gets ext;
    match read_pub (key +:+ ".pub") e with
    | None => throw Crash
    | Some pub =>
        let held := default HEADER keys_before in
        let held := if bool_decide (last_n 1 held = newline_str) then held else held +:+ newline_str in
        _ ← keys_write cfg (held +:+ key_line (entry_path gen) (strip pub) true (expiry e) +:+ newline_str);
        finally (prove cfg key gen) (keys_put_back cfg keys_before)
    end).

(** ** The switch *)

(** [Rendered]: everything one generation writes. *)
Record rendered := {
  r_cfg : config;
  r_gen : string;
  r_panel_key : string;
  r_entry : string;
  r_dispatcher : string;
  r_panel_keys : string;
  r_rule : string;
  r_accept : string
}.
Definition render (cfg : config) (gen panel_key panel_pub : string) : rendered := {|
  r_cfg := cfg;
  r_gen := gen;
  r_panel_key := panel_key;
  r_entry := text_of (cfg_entry cfg);
  r_dispatcher := text_of (cfg_dispatcher cfg);
  r_panel_keys := HEADER +:+ key_line (entry_path gen) panel_pub false "" +:+ newline_str;
  r_rule := sudo_rule (runner_user cfg) (dispatcher_path gen) (names_of cfg);
  r_accept := acceptenv_rule (runner_user cfg) (names_of cfg) |}.

Definition visudo_check : option (list string) := Some [VISUDO; "-cf"].

(** [undo] of [_move], once sshd may have reloaded or not. *)
Definition undo_move (gen : string) (reloaded : bool) : M unit :=
  _ ← host_remove (gen_dir gen);
  _ ← host_remove SUDOERS_NEXT;
  removed ← host_remove ACCEPTENV_NEXT;
  if removed || reloaded then sshd_reload else mret tt.

(** BESIDE, up to the reload: what is undone with [reloaded] still false. *)
Definition place_beside (path : rendered) : M unit :=
  _ ← install_generation (r_gen path) (r_entry path) (r_dispatcher path);
  _ ← host_write SUDOERS_NEXT (r_rule path) 288 visudo_check;
  _ ← place_sshd ACCEPTENV_NEXT (r_accept path);
  mret tt.
Definition prove_placed (path : rendered) (keys_before : option string) : M unit :=
  _ ← sshd_reload;
  reasons ← prove_beside (r_cfg path) (r_gen path) keys_before;
  match reasons with
  | [] => mret tt
  | _ => refuse ("the proof through generation " +:+ r_gen path +:+ " failed: " +:+ sjoin "; " reasons)
  end.

(** SWITCH, with the panel's line already pointed at the new entry. *)
Definition prove_switched (path : rendered) : M unit :=
  reasons ← prove (r_cfg path) (r_panel_key path) (r_gen path);
  match reasons with
  | [] => mret tt
  | _ => refuse ("the panel's key did not dispatch through generation " +:+ r_gen path
                 +:+ " after the switch: " +:+ sjoin "; " reasons)
  end.

(** [_move] *)
Definition move (path : rendered) (keys_before : option string) : M unit :=
  _ ← except (place_beside path) (undo_move (r_gen path) false);
  _ ← except (prove_placed path keys_before) (undo_move (r_gen path) true);
  _ ← except (keys_write (r_cfg path) (r_panel_keys path)) (undo_move (r_gen path) true);
  except (prove_switched path)
    (_ ← keys_put_back (r_cfg path) keys_before; undo_move (r_gen path) true).

(** What [_retire] moves into place, and whether anything changed. *)
Definition settle_rules (path : rendered) : M bool :=
  installed ← install_generation (r_gen path) (r_entry path) (r_dispatcher path);
  line ← keys_write (r_cfg path) (r_panel_keys path);
  rule ← host_write SUDOERS (r_rule path) 288 visudo_check;
  accept ← place_sshd ACCEPTENV (r_accept path);
  rule_next ← host_remove SUDOERS_NEXT;
  accept_next ← host_remove ACCEPTENV_NEXT;
  _ ← (if accept || accept_next then sshd_reload else mret tt);
  mret (installed || line || rule || accept || rule_next || accept_next).

(** The proof of what moved, or the -next rules put back. *)
Definition prove_settled (path : rendered) : M unit :=
  reasons ← prove (r_cfg path) (r_panel_key path) (r_gen path);
  match reasons with
  | [] => mret tt
  | _ =>
      _ ← host_write SUDOERS_NEXT (r_rule path) 288 visudo_check;
      accept ← place_sshd ACCEPTENV_NEXT (r_accept path);
      _ ← (if accept : bool then sshd_reload else mret tt);
      refuse ("generation " +:+ r_gen path +:+ " did not prove itself once its rules moved into place, so its -next rules are back: "
              +:+ sjoin "; " reasons)
  end.

(** What a proven generation leaves behind: the link, no other generation, no
    stale proof directory. *)
Fixpoint remove_others (gen : string) (l : list string) : M unit :=
  match l with
  | [] => mret tt
  | other :: l =>
      _ ← (if bool_decide (other = gen) then mret false else host_remove (gen_dir other));
      remove_others gen l
  end.
Definition is_proof_dir (path : string) : bool :=
  match child_of PROOF_KEY_PARENT path with
  | Some name => startswith name "catena-dispatch-proof."
  | None => false
  end.
Definition clean_up (path : rendered) : M unit :=
  _ ← host_link (cfg_link (r_cfg path)) (dispatcher_path (r_gen path));
  others ← generations;
  _ ← remove_others (r_gen path) others;
  m ← gets (fs ∘ files);
  set_fs (filter (λ kn, is_proof_dir kn.1 = false) m).

(** [_retire] *)
Definition retire (path : rendered) : M unit :=
  touched ← settle_rules path;
  _ ← (if touched : bool then prove_settled path else mret tt);
  clean_up path.

Record verdict := { v_ok : bool; v_changed : bool; v_generation : string; v_wrote : list string;
                    v_summary : string }.
Definition say (gen : string) (ok : bool) (summary : string) : M verdict :=
  ps ← gets wrote;
  mret {| v_ok := ok; v_changed := negb (bool_decide (ps = [])); v_generation := gen;
          v_wrote := sorted_str (remove_dups ps); v_summary := summary |}.

Definition describe (running : string) : string :=
  if bool_decide (running = LEGACY) then "the path an install wrote"
  else if bool_decide (running = NONE) then "no path yet"
  else "generation " +:+ running.

(** [try: m] / [except Refused as e: return handler(e)] *)
Definition on_refused {A} (m : M A) (handler : string → M A) : M A := λ w,
  match m w with
  | (inl (Refused why), w) => handler why w
  | r => r
  end.

(** [_switch], with the keys open and read. *)
Definition switch_from (path : rendered) (keys_before : option string) (blob : string) : M verdict :=
  let gen := r_gen path in
  let running := running_generation (line_for keys_before blob) in
  let finish : M verdict :=
    ps ← gets wrote;
    if negb (bool_decide (running = gen))
    then say gen true ("the panel dispatches through generation " +:+ gen +:+ ", proven, in place of " +:+ describe running)
    else if negb (bool_decide (ps = []))
    then say gen true ("generation " +:+ gen +:+ " is running; its rules, key line and link are in place, proven")
    else say gen true ("generation " +:+ gen +:+ " is running; nothing to change") in
  let refused_at (current why : string) : M verdict :=
    say gen false ("the panel dispatches through " +:+ describe current +:+ ": " +:+ why) in
  if bool_decide (running = gen)
  then on_refused (_ ← retire path; finish) (refused_at gen)
  else on_refused
         (_ ← move path keys_before; on_refused (_ ← retire path; finish) (refused_at gen))
         (refused_at running).

Definition switch (cfg : config) : M verdict :=
  let problem := passthrough_problem (cfg_passthrough cfg) in
  if negb (bool_decide (problem = "")) then
    mret {| v_ok := false; v_changed := false; v_generation := ""; v_wrote := []; v_summary := problem |} else
  let gen := generation cfg in
  let panel_key := panel_key_dir cfg +:+ "/id_ed25519" in
  pub ← host_read (panel_key +:+ ".pub");
  let panel_pub := strip (default "" pub) in
  let blob := key_blob panel_pub in
  if bool_decide (blob = "") then
    say gen false ("the panel's public key " +:+ panel_key +:+ ".pub is missing or empty; the install writes it")
  else if negb (panel_key_ok panel_pub) then
    say gen false ("the panel's public key " +:+ panel_key +:+ ".pub is not exactly one ssh-ed25519 line, so it is not put in the runner's authorized_keys")
  else
    on_refused
      (_ ← keys_open cfg;
       keys_before ← keys_read cfg;
       switch_from (render cfg gen panel_key panel_pub) keys_before blob)
      (say gen false).
End host.
