(* ===== verification/DispatchPathFacts.v ===== *)
(** What moving the dispatch path promises: a failed move leaves the running
    path, a success leaves this tree's generation and nothing older, a second
    run changes nothing, and retiring never leaves the panel's generation
    without its rules.  The definitions are those of [DispatchPath]. *)
From S2P Require Import Prelude PyStr PyNum PyVal Json Encoding Sha256 Effects DispatchPath.

#[local] Open Scope string_scope.

Section facts.
Context {E : Type} `{!Outside E}.
Abbreviation W := (@world E).
Abbreviation M := (ST W fault).
Implicit Types (w : W) (m : gmap string node).


(** A world whose files are the same, but for the paths of a list. *)
Definition frame (ps : list string) m m' : Prop := ∀ p, p ∉ ps → m' !! p = m !! p.
Definition same_keys w w' : Prop := keys (files w') = keys (files w) ∧ ssh (files w') = ssh (files w).
Abbreviation fsw w := (fs (files w)).

Lemma frame_refl ps m : frame ps m m.
Proof. done. Qed.
Lemma frame_trans ps m1 m2 m3 : frame ps m1 m2 → frame ps m2 m3 → frame ps m1 m3.
Proof. intros H1 H2 p Hp. by rewrite H2, H1. Qed.
Lemma frame_mono ps qs m m' : ps ⊆ qs → frame ps m m' → frame qs m m'.
Proof. intros Hs H p Hp. apply H. set_solver. Qed.
Lemma frame_insert ps p n m : p ∈ ps → frame ps m (<[p := n]> m).
Proof. intros Hp q Hq. rewrite lookup_insert_ne; [done|]. by intros ->. Qed.
Lemma frame_delete ps p m : p ∈ ps → frame ps m (delete p m).
Proof. intros Hp q Hq. rewrite lookup_delete_ne; [done|]. by intros ->. Qed.

(** ** Commands change nothing but what is outside *)

Lemma run_spec argv w r w' :
  run argv w = (r, w') → files w' = files w ∧ wrote w' = wrote w.
Proof.
  unfold run. destruct (run_cmd argv (files w) (ext w)) as [[rc out err|] e]; intros; simplify_eq; done.
Qed.

Lemma with_ext_spec {A} (f : E → A * E) w r w' :
  with_ext f w = (r, w') → files w' = files w ∧ wrote w' = wrote w ∧ ∃ a, r = inr a.
Proof. unfold with_ext. destruct (f (ext w)) as [a e]. intros; simplify_eq/=; eauto. Qed.

Lemma dispatch_attempts_spec n argv w r w' :
  dispatch_attempts n argv w = (r, w') → files w' = files w ∧ wrote w' = wrote w.
Proof.
  revert w r w'. induction n as [|n IH]; intros w r w' H; cbn [dispatch_attempts] in H;
    apply bind_inv in H as [(e & H & _)|([[rc out] err] & w1 & H1 & H)].
  - by eapply run_spec.
  - apply run_spec in H1 as [<- <-]. by injection H as _ <-.
  - by eapply run_spec.
  - apply run_spec in H1 as [E1 E2]. case_bool_decide.
    + apply IH in H. by rewrite <-E1, <-E2.
    + injection H as _ <-. by rewrite <-E1, <-E2.
Qed.

Lemma prove_spec cfg key gen w r w' :
  prove cfg key gen w = (r, w') → files w' = files w ∧ wrote w' = wrote w.
Proof.
  unfold prove. intros H. apply bind_inv in H as [(e & H & _)|(nonce & w1 & H1 & H)].
  { apply with_ext_spec in H. naive_solver. }
  apply with_ext_spec in H1 as (E1 & E2 & _). rewrite <-E1, <-E2. clear E1 E2.
  apply bind_inv in H as [(e & H & _)|([[rc out] err] & w2 & H2 & H)]; [by eapply dispatch_attempts_spec|].
  apply dispatch_attempts_spec in H2 as [<- <-].
  destruct (negb _); [by injection H as _ <-|].
  apply bind_inv in H as [(e & H & _)|([[rc' out'] err'] & w3 & H3 & H)]; [by eapply dispatch_attempts_spec|].
  apply dispatch_attempts_spec in H3 as [<- <-]. by injection H as _ <-.
Qed.

Lemma sshd_reload_spec w r w' :
  sshd_reload w = (r, w') → files w' = files w ∧ wrote w' = wrote w.
Proof.
  unfold sshd_reload. intros H. apply bind_inv in H as [(e & H & _)|([[rc out] err] & w1 & H1 & H)].
  { by eapply run_spec. }
  apply run_spec in H1 as [<- <-]. case_bool_decide; by injection H as _ <-.
Qed.

(** ** Files *)

(** A path that is no link reads as its own entry. *)
Definition unlinked m path : Prop := ∀ to, m !! path ≠ Some (NLink to).

Lemma read_unlinked m path t :
  unlinked m path → read_node 40 m path = inr (Some t) ↔ ∃ mode uid, m !! path = Some (NFile t mode uid).
Proof.
  intros Hu. change (read_node 40 m path) with
    (match m !! path with None => inr None | Some (NFile t _ _) => inr (Some t)
     | Some (NDir _ _ _) => inl Crash | Some (NLink to) => read_node 39 m to end : fault + option string).
  destruct (m !! path) as [[t' mode uid|to|]|] eqn:Hm;
    [|by destruct (Hu to)|split; [done|by intros (? & ? & ?)]..].
  split; [intros [= <-]; eauto|]. by intros (? & ? & [= <- _ _]).
Qed.

Definition holds m path t : Prop := ∃ mode uid, m !! path = Some (NFile t mode uid).

Lemma tmp_ne path : tmp_of path ≠ path.
Proof.
  unfold tmp_of. intros H. apply (f_equal String.length) in H. rewrite length_sapp in H. cbn in H. lia.
Qed.

Lemma gets_eq {A} (f : W → A) w : (gets f : ST W fault A) w = (inr (f w), w).
Proof. done. Qed.

Definition set_fs_world (m : gmap string node) w : W :=
  {| files := {| fs := m; ssh := ssh (files w); keys := keys (files w) |}; wrote := wrote w; ext := ext w |}.
Definition set_keys_world (k : option knode) w : W :=
  {| files := {| fs := fsw w; ssh := ssh (files w); keys := k |}; wrote := wrote w; ext := ext w |}.
Lemma set_fs_eq m w : set_fs m w = (inr tt, set_fs_world m w).
Proof. done. Qed.
Lemma set_keys_eq k w : set_keys k w = (inr tt, set_keys_world k w).
Proof. done. Qed.

Lemma replace_with_spec path n w r w' :
  replace_with path n w = (r, w') → same_keys w w' ∧ wrote w' = wrote w ∧
    ((r = inr tt ∧ fsw w' = <[path := n]> (delete (tmp_of path) (fsw w))) ∨ (r = inl Crash ∧ fsw w' = fsw w)).
Proof.
  unfold replace_with. rewrite (bind_run _ _ _ _ _ (gets_eq _ _)). cbn [compose].
  destruct (fsw w !! path) as [[]|]; rewrite ?set_fs_eq; intros H; injection H as <- <-;
    (split; [done|split; [done|]]); by (left + right).
Qed.

(** [host_write]: it leaves the file alone, or replaces it. *)
Lemma host_write_spec path text mode check w r w' :
  host_write path text mode check w = (r, w') → same_keys w w' ∧
    match r with
    | inr false => w' = w ∧ read_node 40 (fsw w) path = inr (Some text)
    | inr true => fsw w' = <[path := NFile text mode root_uid]> (delete (tmp_of path) (fsw w)) ∧
                  wrote w' = (wrote w ++ [path])%list
    | inl _ => frame [tmp_of path] (fsw w) (fsw w') ∧ wrote w' = wrote w
    end.
Proof.
  unfold host_write. intros H. apply bind_inv in H as [(e & H & ->)|(held & w1 & H1 & H)].
  { apply pair_equal_spec in H as [_ <-]. done. }
  apply pair_equal_spec in H1 as [Hr <-]. case_bool_decide as Hh.
  { apply pair_equal_spec in H as [<- <-]. by rewrite Hr, Hh. }
  rewrite (bind_run _ _ _ _ _ (gets_eq _ _)) in H. cbn [compose] in H.
  set (w2 := {| files := {| fs := <[tmp_of path := NFile text mode root_uid]> (fsw w);
                            ssh := ssh (files w); keys := keys (files w) |};
               wrote := wrote w; ext := ext w |}).
  rewrite (bind_run _ _ w tt w2) in H by done.
  (* the check, which may refuse after dropping the temporary *)
  assert (Hc : ∀ (check : M unit) r1 w3, check w2 = (r1, w3) →
    (∃ e, w3 = {| files := files w2; wrote := wrote w2; ext := e |} ∧ True) ∨
    (∃ e, r1 = inl e ∧ fsw w3 = delete (tmp_of path) (fsw w2) ∧ same_keys w2 w3 ∧ wrote w3 = wrote w2) →
    (check ≫= λ _, _ ← replace_with path (NFile text mode root_uid); _ ← record_wrote [path]; mret true) w2 = (r, w') →
    same_keys w w' ∧
    match r with
    | inr false => w' = w ∧ read_node 40 (fsw w) path = inr (Some text)
    | inr true => fsw w' = <[path := NFile text mode root_uid]> (delete (tmp_of path) (fsw w)) ∧
                  wrote w' = (wrote w ++ [path])%list
    | inl _ => frame [tmp_of path] (fsw w) (fsw w') ∧ wrote w' = wrote w
    end).
  { intros chk r1 w3 E1 Hcase H2.
    apply bind_inv in H2 as [(e & H2 & ->)|([] & w4 & H2 & H3)].
    - rewrite E1 in H2. injection H2 as -> ->. destruct Hcase as [(e0 & -> & _)|(e0 & _ & -> & [Hk Hs] & ->)].
      + cbn. split; [done|]. split; [apply frame_insert; by left|done].
      + cbn in *. split; [by split|]. split; [|done]. rewrite delete_insert_eq.
        apply frame_delete. by left.
    - rewrite E1 in H2. injection H2 as -> ->. destruct Hcase as [(e0 & -> & _)|(e0 & ? & _)]; [|done].
      apply bind_inv in H3 as [(e & H3 & ->)|([] & w5 & H3 & H4)].
      + apply replace_with_spec in H3 as ([Hk Hs] & Hwr & [[? _]|[_ Hf]]); [done|].
        cbn in *. split; [by split|]. rewrite Hf. split; [apply frame_insert; by left|done].
      + apply replace_with_spec in H3 as ([Hk Hs] & Hwr & [[_ Hf]|[? _]]); [|done].
        injection H4 as <- <-. cbn in *. split; [by split|]. rewrite Hf, Hwr. by rewrite delete_insert_eq. }
  destruct check as [check|].
  - match type of H with (?c ≫= _) w2 = _ => destruct (c w2) as [r1 w3] eqn:E1 end.
    eapply Hc; [exact E1| |exact H]. clear H Hc.
    apply bind_inv in E1 as [(e & E1 & ->)|([[rc out] err] & w4 & E1 & E2)].
    + pose proof (run_spec _ _ _ _ E1) as [Ef Ew]. left. exists (ext w3). by destruct w3; cbn in *; subst.
    + pose proof (run_spec _ _ _ _ E1) as [Ef Ew]. case_bool_decide.
      * injection E2 as <- <-. left. exists (ext w4). by destruct w4; cbn in *; subst.
      * rewrite (bind_run _ _ _ _ _ (gets_eq _ _)) in E2. injection E2 as <- <-. right.
        eexists. cbn. rewrite Ef, Ew. by split_and!.
  - eapply (Hc (mret tt)); [reflexivity| |exact H]. left. by exists (ext w2).
Qed.

Lemma host_remove_spec path w r w' :
  host_remove path w = (r, w') →
  ∃ b, r = inr b ∧ same_keys w w' ∧ fsw w' = delete path (fsw w) ∧ (b = false → w' = w) ∧
       (b = true → wrote w' = wrote w ++ [path])%list.
Proof.
  unfold host_remove. rewrite (bind_run _ _ _ _ _ (gets_eq _ _)). cbn [compose].
  destruct (fsw w !! path) eqn:Hp; intros H; apply pair_equal_spec in H as [<- <-].
  - by exists true.
  - exists false. split_and!; try done. by rewrite delete_id.
Qed.

(** The text of a path that is a file. *)
Definition text_at m path : option string :=
  match m !! path with Some (NFile t _ _) => Some t | _ => None end.

Lemma read_text_at m path t : unlinked m path → read_node 40 m path = inr (Some t) ↔ text_at m path = Some t.
Proof.
  intros Hu. rewrite read_unlinked by done. unfold text_at.
  destruct (m !! path) as [[]|]; naive_solver.
Qed.

Lemma text_at_insert m path t mode uid : text_at (<[path := NFile t mode uid]> m) path = Some t.
Proof. unfold text_at. by rewrite lookup_insert_eq. Qed.

Lemma unlinked_file m path t mode uid : unlinked (<[path := NFile t mode uid]> m) path.
Proof. intros to. rewrite lookup_insert_eq. done. Qed.

Lemma host_put_back_spec path before mode w r w' :
  host_put_back path before mode w = (r, w') →
  same_keys w w' ∧ frame [path; tmp_of path] (fsw w) (fsw w') ∧
  (unlinked (fsw w) path → r = inr tt → text_at (fsw w') path = before) ∧
  (text_at (fsw w') path = text_at (fsw w) path ∨ text_at (fsw w') path = before) ∧
  (unlinked (fsw w) path → unlinked (fsw w') path).
Proof.
  destruct before as [text|]; cbn [host_put_back]; intros H.
  - apply bind_inv in H as [(e & H & ->)|(b & w1 & H & H2)]; apply host_write_spec in H as [Hk H].
    + destruct H as [Hf _].
      assert (Heq : fsw w' !! path = fsw w !! path).
      { apply Hf. intros Hp%list_elem_of_singleton. by apply (tmp_ne path). }
      unfold text_at, unlinked. rewrite Heq.
      split_and!; [done|eapply frame_mono; [|done]; set_solver|done|by left|done].
    + apply pair_equal_spec in H2 as [<- <-]. destruct b.
      * destruct H as [-> _]. split_and!; [done| | | |].
        -- intros p Hp. rewrite lookup_insert_ne, lookup_delete_ne; [done|set_solver..].
        -- intros _ _. apply text_at_insert.
        -- right. apply text_at_insert.
        -- intros _. apply unlinked_file.
      * destruct H as [-> H]. split_and!; [done|done| |by left|done].
        intros Hu _. by apply read_text_at.
  - apply bind_inv in H as [(e & H & ->)|(b & w1 & H & H2)]; apply host_remove_spec in H as (b' & Hr & Hk & Hf & _);
      [done|]. apply pair_equal_spec in H2 as [<- <-]. rewrite Hf. unfold text_at, unlinked.
    rewrite lookup_delete_eq. split_and!; [done|apply frame_delete; by left|done|by right|done].
Qed.

(** [place_sshd]: kept, replaced, or put back. *)
Lemma place_sshd_spec path text w r w' :
  place_sshd path text w = (r, w') →
  same_keys w w' ∧ frame [path; tmp_of path] (fsw w) (fsw w') ∧
    (unlinked (fsw w) path → unlinked (fsw w') path) ∧
    match r with
    | inr false => w' = w ∧ read_node 40 (fsw w) path = inr (Some text)
    | inr true => fsw w' = <[path := NFile text 420 root_uid]> (delete (tmp_of path) (fsw w)) ∧
                  wrote w' = (wrote w ++ [path])%list
    | inl _ => unlinked (fsw w) path →
               text_at (fsw w') path = text_at (fsw w) path ∨ text_at (fsw w') path = Some text
    end.
Proof.
  unfold place_sshd. intros H. apply bind_inv in H as [(e & H & ->)|(before & w1 & H1 & H)].
  { apply pair_equal_spec in H as [_ <-]. split_and!; try done. by left. }
  apply pair_equal_spec in H1 as [Hb <-].
  apply bind_inv in H as [(e & H & ->)|(changed & w2 & H2 & H)].
  { apply host_write_spec in H as [Hk [Hf _]].
    assert (Heq : fsw w' !! path = fsw w !! path).
    { apply Hf. intros Hp%list_elem_of_singleton. by apply (tmp_ne path). }
    unfold text_at, unlinked. rewrite Heq.
    split_and!; [done|eapply frame_mono; [|done]; set_solver|done|]. by left. }
  apply host_write_spec in H2 as [Hk H2]. destruct changed; cbn [negb] in H.
  2:{ apply pair_equal_spec in H as [<- <-]. destruct H2 as [-> H2]. by split_and!. }
  destruct H2 as [Hf Hw].
  assert (Hfr : frame [path; tmp_of path] (fsw w) (fsw w2)).
  { rewrite Hf. intros p Hp. rewrite lookup_insert_ne, lookup_delete_ne; [done|set_solver..]. }
  assert (Ht : text_at (fsw w2) path = Some text) by (rewrite Hf; apply text_at_insert).
  assert (Hu2 : unlinked (fsw w2) path) by (rewrite Hf; apply unlinked_file).
  apply bind_inv in H as [(e & H & ->)|([[rc out] err] & w3 & H3 & H)].
  { apply run_spec in H as [Ef Ew]. unfold same_keys in *. rewrite Ef. split_and!; try done; [apply Hk..|]. by right. }
  apply run_spec in H3 as [Ef Ew]. case_bool_decide.
  { apply pair_equal_spec in H as [<- <-]. unfold same_keys in *. rewrite Ef, Ew. split_and!; try done; apply Hk. }
  assert (Hend : ∀ r4 w4, host_put_back path before 420 w3 = (r4, w4) →
    same_keys w w4 ∧ frame [path; tmp_of path] (fsw w) (fsw w4) ∧
    (unlinked (fsw w) path → unlinked (fsw w4) path) ∧
    (unlinked (fsw w) path → text_at (fsw w4) path = text_at (fsw w) path ∨ text_at (fsw w4) path = Some text)).
  { intros r4 w4 H4. apply host_put_back_spec in H4 as (Hk4 & Hf4 & _ & Ht4 & Hu4).
    unfold same_keys in *. rewrite Ef in *. split_and!.
    - etrans; [apply Hk4|apply Hk].
    - etrans; [apply Hk4|apply Hk].
    - by eapply frame_trans.
    - auto.
    - intros Hu. rewrite Ht in Ht4. destruct Ht4 as [->|Ht4]; [by right|left].
      rewrite Ht4. destruct before as [b|]; [symmetry; by apply read_text_at|].
      unfold read_node in Hb. unfold text_at. by destruct (fsw w !! path) as [[]|]. }
  apply bind_inv in H as [(e & H & ->)|([] & w4 & H & H5)];
    [|apply pair_equal_spec in H5 as [<- <-]]; apply Hend in H; exact H.
Qed.

(** ** The generation's directory *)

Definition stale_of (gen : string) : string := GENERATIONS +:+ "/." +:+ gen +:+ ".tmp".
Definition intact gen e d m : Prop := generation_intact gen e d m = true.

Lemma install_generation_spec gen e d w r w' :
  install_generation gen e d w = (r, w') →
  same_keys w w' ∧ frame [gen_dir gen; GENERATIONS; stale_of gen] (fsw w) (fsw w') ∧
    match r with
    | inr false => w' = w ∧ intact gen e d (fsw w')
    | inr true => intact gen e d (fsw w') ∧ wrote w' = (wrote w ++ [entry_path gen; dispatcher_path gen])%list
                  ∧ ∃ uid es, fsw w' !! GENERATIONS = Some (NDir 493 uid es)
    | inl _ => w' = w
    end.
Proof.
  unfold install_generation. rewrite (bind_run _ _ _ _ _ (gets_eq _ _)). cbn [compose].
  destruct (generation_intact gen e d (fsw w)) eqn:Hi.
  { intros H. apply pair_equal_spec in H as [<- <-]. by split_and!. }
  assert (Hne : GENERATIONS ≠ gen_dir gen).
  { unfold gen_dir. intros Hq. apply (f_equal String.length) in Hq. rewrite !length_sapp in Hq. cbn in Hq. lia. }
  assert (Hgo : ∀ base, (∃ uid es, base = NDir 493 uid es) → ∀ w1, w1 = set_fs_world
      (<[gen_dir gen := NDir 493 root_uid [("entry", NFile e 493 root_uid); ("dispatcher", NFile d 493 root_uid)]]>
         (<[GENERATIONS := base]> (delete (stale_of gen) (fsw w)))) w →
    frame [gen_dir gen; GENERATIONS; stale_of gen] (fsw w) (fsw w1) ∧ intact gen e d (fsw w1) ∧
    ∃ uid es, fsw w1 !! GENERATIONS = Some (NDir 493 uid es)).
  { intros base (uid & es & ->) w1 ->. unfold set_fs_world. cbn [files fs]. split_and!.
    - intros p Hp. rewrite !lookup_insert_ne, lookup_delete_ne; [done|set_solver..].
    - unfold intact, generation_intact. rewrite lookup_insert_eq.
      rewrite (bool_decide_true (493%Z = 493%Z)), (bool_decide_true (root_uid = root_uid)) by done.
      rewrite (bool_decide_true (sorted_str _ = _)) by done. cbn [dget].
      rewrite (bool_decide_true ("entry" = "entry")), (bool_decide_false ("dispatcher" = "entry")),
        (bool_decide_true ("dispatcher" = "dispatcher")) by done. cbn. by rewrite !bool_decide_true.
    - exists uid, es. rewrite lookup_insert_ne by congruence. by rewrite lookup_insert_eq. }
  assert (Hc : ∀ base, (∃ uid es, base = NDir 493 uid es) →
    (match fsw w !! gen_dir gen with
     | Some (NFile _ _ _) => throw Crash
     | _ => _ ← set_fs (<[gen_dir gen := NDir 493 root_uid [("entry", NFile e 493 root_uid);
                                                     ("dispatcher", NFile d 493 root_uid)]]>
                   (<[GENERATIONS := base]> (delete (stale_of gen) (fsw w))));
            _ ← record_wrote [entry_path gen; dispatcher_path gen]; mret true
     end : M bool) w = (r, w') →
    same_keys w w' ∧ frame [gen_dir gen; GENERATIONS; stale_of gen] (fsw w) (fsw w') ∧
    match r with
    | inr false => w' = w ∧ intact gen e d (fsw w')
    | inr true => intact gen e d (fsw w') ∧ wrote w' = (wrote w ++ [entry_path gen; dispatcher_path gen])%list
                  ∧ ∃ uid es, fsw w' !! GENERATIONS = Some (NDir 493 uid es)
    | inl _ => w' = w
    end).
  { intros base Hb H. destruct (Hgo base Hb _ eq_refl) as (Hf & Hin & Hg).
    destruct (fsw w !! gen_dir gen) as [[]|];
      try (rewrite (bind_run _ _ _ _ _ (set_fs_eq _ _)) in H);
      apply pair_equal_spec in H as [<- <-]; by split_and!. }
  intros H. destruct (fsw w !! GENERATIONS) as [[| |mode uid es]|].
  - apply pair_equal_spec in H as [<- <-]. by split_and!.
  - apply pair_equal_spec in H as [<- <-]. by split_and!.
  - apply (Hc (NDir 493 uid es)); [by eexists _, _|done].
  - apply (Hc (NDir 493 root_uid [])); [by eexists _, _|done].
Qed.

(** ** The runner's keys *)

(** What [RunnerKeys.read] answers on these files. *)
Definition keys_on (cfg : config) (k : option knode) : fault + option string :=
  match k with
  | None => inr None
  | Some KOdd => inl (Refused (keys_path cfg +:+ " is not a plain file"))
  | Some (KFile text uid nlink) =>
      if negb (bool_decide (nlink = 1%Z)) then inl (Refused (keys_path cfg +:+ " has other links"))
      else if bool_decide (uid = (ids (runner_user cfg)).1) || bool_decide (uid = root_uid)
      then inr (Some text)
      else inl (Refused (keys_path cfg +:+ " is owned by neither " +:+ runner_user cfg +:+ " nor root"))
  end.
Abbreviation keys_now cfg w := (keys_on cfg (keys (files w))).

Lemma keys_read_eq cfg w : keys_read cfg w = (keys_now cfg w, w).
Proof.
  unfold keys_read. rewrite (bind_run _ _ _ _ _ (gets_eq _ _)).
  destruct (keys (files w)) as [[text uid nlink|]|]; try done. cbn.
  destruct (negb _); [done|]. by destruct (_ || _).
Qed.

Lemma keys_now_same cfg w w' : same_keys w w' → keys_now cfg w' = keys_now cfg w.
Proof. intros [-> _]. done. Qed.

Lemma keys_on_file cfg text : keys_on cfg (Some (KFile text (ids (runner_user cfg)).1 1)) = inr (Some text).
Proof.
  unfold keys_on. rewrite (bool_decide_true (1%Z = 1%Z)) by done. cbn [negb].
  by rewrite (bool_decide_true ((ids (runner_user cfg)).1 = _)).
Qed.

Lemma keys_write_spec cfg text w r w' kb :
  keys_now cfg w = inr kb → keys_write cfg text w = (r, w') →
  ∃ b, r = inr b ∧ fsw w' = fsw w ∧ ssh (files w') = ssh (files w) ∧ keys_now cfg w' = inr (Some text) ∧
       (b = false → w' = w) ∧ (b = true → wrote w' = wrote w ++ [keys_path cfg])%list.
Proof.
  intros Hk. unfold keys_write. rewrite (bind_run _ _ w kb w) by (by rewrite keys_read_eq, Hk).
  case_bool_decide as Hh; intros H; apply pair_equal_spec in H as [<- <-].
  - exists false. split_and!; try done. by rewrite Hk, Hh.
  - exists true. split_and!; try done. cbn [files set_keys keys]. apply keys_on_file.
Qed.

Lemma keys_put_back_spec cfg text w r w' kb :
  keys_now cfg w = inr kb → keys_put_back cfg text w = (r, w') →
  r = inr tt ∧ fsw w' = fsw w ∧ ssh (files w') = ssh (files w) ∧ keys_now cfg w' = inr text.
Proof.
  intros Hk. destruct text as [text|]; cbn [keys_put_back]; intros H.
  - apply bind_inv in H as [(e & H & ->)|(b & w1 & H & H2)];
      apply (keys_write_spec _ _ _ _ _ kb) in H as (b' & Hr & Hf & Hs & Hn & _); try done.
    apply pair_equal_spec in H2 as [<- <-]. done.
  - unfold keys_remove in H. apply bind_inv in H as [(e & H & ->)|(b & w1 & H & H2)].
    + rewrite (bind_run _ _ _ _ _ (gets_eq _ _)) in H. by destruct (keys (files w)).
    + apply pair_equal_spec in H2 as [<- <-].
      rewrite (bind_run _ _ _ _ _ (gets_eq _ _)) in H.
      destruct (keys (files w)) eqn:Ek; apply pair_equal_spec in H as [_ <-]; [done|].
      split_and!; try done. by rewrite Ek.
Qed.

(** ** Exceptions *)

Lemma except_inv {A} (c : ST world fault A) undo w r w' :
  except c undo w = (r, w') →
  (∃ a, c w = (inr a, w') ∧ r = inr a) ∨
  (∃ e w1 r2 e', c w = (inl e, w1) ∧ undo w1 = (r2, w') ∧ r = inl e').
Proof.
  unfold except. destruct (c w) as [[e|a] w1]; [right|left; simplify_eq; eauto].
  destruct (undo w1) as [[e'|[]] w2] eqn:Eu; simplify_eq; eauto 10.
Qed.

(** * A failed move *)

(** The paths a move may leave different: the new generation's own, the -next
    rules, their temporaries, and the directories of proof keys. *)
Definition beside_paths (gen : string) : list string :=
  [gen_dir gen; GENERATIONS; stale_of gen; SUDOERS_NEXT; tmp_of SUDOERS_NEXT;
   ACCEPTENV_NEXT; tmp_of ACCEPTENV_NEXT].
Definition proof_path (p : string) : bool := startswith p "/run/catena-dispatch-proof.".
Definition beside_frame gen m m' : Prop :=
  ∀ p, p ∉ beside_paths gen → proof_path p = false → m' !! p = m !! p.

Lemma beside_frame_of gen ps m m' : ps ⊆ beside_paths gen → frame ps m m' → beside_frame gen m m'.
Proof. intros Hs H p Hp _. apply H. set_solver. Qed.
Lemma beside_frame_trans gen m1 m2 m3 : beside_frame gen m1 m2 → beside_frame gen m2 m3 → beside_frame gen m1 m3.
Proof. intros H1 H2 p Hp Hq. by rewrite H2, H1. Qed.
Lemma beside_frame_eq gen m m' : m' = m → beside_frame gen m m'.
Proof. by intros ->. Qed.

Lemma undo_move_spec gen b w r w' :
  undo_move gen b w = (r, w') →
  same_keys w w' ∧ fsw w' = delete ACCEPTENV_NEXT (delete SUDOERS_NEXT (delete (gen_dir gen) (fsw w))).
Proof.
  unfold undo_move. intros H.
  apply bind_inv in H as [(e & H & _)|(b1 & w1 & H1 & H)].
  { apply host_remove_spec in H as (? & ? & _). done. }
  apply host_remove_spec in H1 as (? & _ & [K1 S1] & F1 & _).
  apply bind_inv in H as [(e & H & _)|(b2 & w2 & H2 & H)].
  { apply host_remove_spec in H as (? & ? & _). done. }
  apply host_remove_spec in H2 as (? & _ & [K2 S2] & F2 & _).
  apply bind_inv in H as [(e & H & _)|(b3 & w3 & H3 & H)].
  { apply host_remove_spec in H as (? & ? & _). done. }
  apply host_remove_spec in H3 as (? & _ & [K3 S3] & F3 & _).
  assert (files w' = files w3) as Ef.
  { destruct (b3 || b); [by apply sshd_reload_spec in H as [? _]|].
    apply pair_equal_spec in H as [_ <-]. done. }
  unfold same_keys. rewrite Ef. split; [split; congruence|]. by rewrite F3, F2, F1.
Qed.

(** A world the move may stand in: the keys as they were, the rest framed. *)
Definition beside cfg gen kb w w' : Prop :=
  keys_now cfg w' = inr kb ∧ beside_frame gen (fsw w) (fsw w').

Lemma beside_refl cfg gen kb w : keys_now cfg w = inr kb → beside cfg gen kb w w.
Proof. by split. Qed.

Lemma beside_accept gen : [ACCEPTENV_NEXT; tmp_of ACCEPTENV_NEXT] ⊆ beside_paths gen.
Proof. unfold beside_paths. set_solver. Qed.
Lemma beside_rule gen : [SUDOERS_NEXT; tmp_of SUDOERS_NEXT] ⊆ beside_paths gen.
Proof. unfold beside_paths. set_solver. Qed.

Lemma place_beside_spec path kb w r w' :
  keys_now (r_cfg path) w = inr kb → place_beside path w = (r, w') →
  beside (r_cfg path) (r_gen path) kb w w'.
Proof.
  unfold place_beside. set (gen := r_gen path). intros Hk H.
  assert (Hstep : ∀ w1 w2 : W, beside (r_cfg path) gen kb w w1 → same_keys w1 w2 →
            beside_frame gen (fsw w1) (fsw w2) → beside (r_cfg path) gen kb w w2).
  { intros w1 w2 [Hk1 Hf1] Hs Hf2. split; [by rewrite (keys_now_same _ _ _ Hs)|].
    by eapply beside_frame_trans. }
  pose proof (beside_refl (r_cfg path) gen kb w Hk) as B0.
  apply bind_inv in H as [(e & H & _)|(b1 & w1 & H1 & H)].
  { apply install_generation_spec in H as (Hs & Hf & _). eapply Hstep; [done..|].
    refine (beside_frame_of _ _ _ _ _ Hf). unfold beside_paths. set_solver. }
  apply install_generation_spec in H1 as (Hs1 & Hf1 & _).
  assert (B1 : beside (r_cfg path) gen kb w w1).
  { eapply Hstep; [done..|]. refine (beside_frame_of _ _ _ _ _ Hf1). unfold beside_paths. set_solver. }
  assert (Hsub : ∀ w2 : W, frame [tmp_of SUDOERS_NEXT] (fsw w1) (fsw w2) → beside_frame gen (fsw w1) (fsw w2)).
  { intros w2. apply beside_frame_of. unfold beside_paths. set_solver. }
  apply bind_inv in H as [(e & H & _)|(b2 & w2 & H2 & H)].
  { apply host_write_spec in H as [Hs [Hf _]]. eapply Hstep; eauto. }
  apply host_write_spec in H2 as [Hs2 H2].
  assert (B2 : beside (r_cfg path) gen kb w w2).
  { destruct b2; [|by destruct H2 as [-> _]]. eapply Hstep; [done..|]. destruct H2 as [-> _].
    apply (beside_frame_of _ _ _ _ (beside_rule gen)).
    intros p Hp. rewrite lookup_insert_ne, lookup_delete_ne; [done|set_solver..]. }
  apply bind_inv in H as [(e & H & _)|(b3 & w3 & H3 & H)];
    [|apply pair_equal_spec in H as [_ <-]; rename H3 into H];
    apply place_sshd_spec in H as (Hs3 & Hf3 & _); apply (Hstep w2 _ B2 Hs3);
    exact (beside_frame_of _ _ _ _ (beside_accept gen) Hf3).
Qed.

Lemma keydir_proof_path suffix : proof_path (PROOF_KEY_PARENT +:+ "/catena-dispatch-proof." +:+ suffix) = true.
Proof. unfold proof_path, startswith, PROOF_KEY_PARENT. simpl. by destruct suffix. Qed.

(** Files equal but for proof key directories. *)
Definition proof_frame m m' : Prop := ∀ p, proof_path p = false → m' !! p = m !! p.

Lemma finally_inv {A} (c : ST world fault A) cleanup w r w' :
  finally c cleanup w = (r, w') → ∃ r1 w1 r2, c w = (r1, w1) ∧ cleanup w1 = (r2, w') ∧
    (r = r1 ∧ r2 = inr tt ∨ ∃ e, r = inl e ∧ r2 = inl e).
Proof.
  unfold finally. destruct (c w) as [r1 w1]. destruct (cleanup w1) as [[e|[]] w2] eqn:Ec;
    intros; simplify_eq; eauto 10.
Qed.

Lemma prove_beside_spec cfg gen kb w r w' :
  keys_now cfg w = inr kb → prove_beside cfg gen kb w = (r, w') →
  keys_now cfg w' = inr kb ∧ proof_frame (fsw w) (fsw w').
Proof.
  intros Hk. unfold prove_beside, with_keydir. intros H.
  apply bind_inv in H as [(e & H & _)|(suffix & w1 & H1 & H)].
  { apply with_ext_spec in H as (-> & _). done. }
  apply with_ext_spec in H1 as (E1 & _). cbn zeta in H.
  rewrite (bind_run _ _ _ _ _ (gets_eq _ _)) in H. cbn [compose] in H.
  pose proof (keydir_proof_path suffix) as Hkd.
  set (keydir := PROOF_KEY_PARENT +:+ "/catena-dispatch-proof." +:+ suffix) in *.
  rewrite (bind_run _ _ _ _ _ (set_fs_eq _ _)) in H.
  set (w2 := set_fs_world _ w1) in *.
  assert (K2 : keys_now cfg w2 = inr kb) by (unfold w2, set_fs_world; cbn [files keys]; by rewrite E1).
  assert (F2 : proof_frame (fsw w) (fsw w2)).
  { intros p Hp. unfold w2, set_fs_world. cbn [files fs]. rewrite lookup_insert_ne, E1; [done|].
    intros <-. congruence. }
  apply finally_inv in H as (r1 & w3 & r2 & H & Hc & _).
  rewrite (bind_run _ _ _ _ _ (gets_eq _ _)), set_fs_eq in Hc. apply pair_equal_spec in Hc as [_ <-].
  assert (Hb : keys_now cfg w3 = inr kb ∧ fsw w3 = fsw w2); [|destruct Hb as [K3 F3]].
  - clearbody w2 keydir. clear E1 Hk Hkd.
    apply bind_inv in H as [(e & H & _)|([[rc out] err] & w4 & H4 & H)].
    { apply run_spec in H as [Ef _]. by rewrite Ef. }
    apply run_spec in H4 as [Ef _]. rewrite <-Ef in K2 |- *. clear Ef.
    destruct (negb _); [by apply pair_equal_spec in H as [_ <-]|].
    rewrite (bind_run _ _ _ _ _ (gets_eq _ _)) in H.
    destruct (read_pub _ _) as [pub|]; [|by apply pair_equal_spec in H as [_ <-]].
    cbn zeta in H. apply bind_inv in H as [(e & H & _)|(b & w5 & H5 & H)].
    { eapply keys_write_spec in H as (b & ? & _); [done|exact K2]. }
    eapply keys_write_spec in H5 as (_ & _ & F5 & _ & K5 & _); [|exact K2].
    apply finally_inv in H as (r5 & w6 & r6 & H & Hc & _).
    apply prove_spec in H as [F6 _]. rewrite <-F6 in K5.
    eapply keys_put_back_spec in Hc as (_ & F7 & _ & K7); [|exact K5].
    split; [done|]. rewrite F7, F6. done.
  - split; [by unfold set_fs_world; cbn [files keys]|].
    intros p Hp. unfold set_fs_world. cbn [files fs compose]. rewrite lookup_delete_ne; [rewrite F3; by apply F2|].
    intros <-. congruence.
Qed.

Lemma prove_placed_spec path kb w r w' :
  keys_now (r_cfg path) w = inr kb → prove_placed path kb w = (r, w') →
  keys_now (r_cfg path) w' = inr kb ∧ proof_frame (fsw w) (fsw w').
Proof.
  intros Hk. unfold prove_placed. intros H. apply bind_inv in H as [(e & H & _)|([] & w1 & H1 & H)].
  { apply sshd_reload_spec in H as [-> _]. done. }
  apply sshd_reload_spec in H1 as [E1 _].
  apply bind_inv in H as [(e & H & _)|(reasons & w2 & H2 & H)].
  { apply prove_beside_spec in H; rewrite E1 in *; done. }
  apply prove_beside_spec in H2; rewrite ?E1 in *; [|done].
  destruct reasons; by apply pair_equal_spec in H as [_ <-].
Qed.

Lemma prove_switched_spec path w r w' :
  prove_switched path w = (r, w') → files w' = files w.
Proof.
  unfold prove_switched. intros H. apply bind_inv in H as [(e & H & _)|(reasons & w1 & H1 & H)].
  { by apply prove_spec in H as [? _]. }
  apply prove_spec in H1 as [<- _]. destruct reasons; by apply pair_equal_spec in H as [_ <-].
Qed.

(** Any failure of a move ends in its undo, over a world that differs from the
    first only where a move may write. *)
Lemma move_failed path kb w e w' :
  keys_now (r_cfg path) w = inr kb → move path kb w = (inl e, w') →
  keys_now (r_cfg path) w' = inr kb ∧
  ∃ m, beside_frame (r_gen path) (fsw w) m ∧
       fsw w' = delete ACCEPTENV_NEXT (delete SUDOERS_NEXT (delete (gen_dir (r_gen path)) m)).
Proof.
  intros Hk H. set (gen := r_gen path) in *.
  assert (Hund : ∀ w1 b r, keys_now (r_cfg path) w1 = inr kb → beside_frame gen (fsw w) (fsw w1) →
    undo_move gen b w1 = (r, w') → keys_now (r_cfg path) w' = inr kb ∧
    ∃ m, beside_frame gen (fsw w) m ∧ fsw w' = delete ACCEPTENV_NEXT (delete SUDOERS_NEXT (delete (gen_dir gen) m))).
  { intros w1 b r K F Hu. apply undo_move_spec in Hu as [Hs Hf]. rewrite (keys_now_same _ _ _ Hs). eauto. }
  unfold move in H.
  apply bind_inv in H as [(e1 & H & _)|([] & w1 & H1 & H)].
  { apply except_inv in H as [(? & ? & ?)|(e2 & w1 & r2 & e3 & H1 & Hu & _)]; [done|].
    apply (place_beside_spec _ kb) in H1 as [K F]; [|done]. eauto. }
  apply except_inv in H1 as [(a & H1 & _)|(? & ? & ? & ? & _ & _ & ?)]; [|done].
  apply (place_beside_spec _ kb) in H1 as [K1 F1]; [|done].
  apply bind_inv in H as [(e1 & H & _)|([] & w2 & H2 & H)].
  { apply except_inv in H as [(? & ? & ?)|(e2 & w2 & r2 & e3 & H2 & Hu & _)]; [done|].
    apply prove_placed_spec in H2 as [K2 F2]; [|done]. eapply Hund; [done| |done].
    intros p Hp Hq. by rewrite F2, F1. }
  apply except_inv in H2 as [(a2 & H2 & _)|(? & ? & ? & ? & _ & _ & ?)]; [|done].
  apply prove_placed_spec in H2 as [K2 F2]; [|done].
  apply bind_inv in H as [(e1 & H & _)|(b & w3 & H3 & H)].
  { apply except_inv in H as [(? & ? & ?)|(e2 & w3 & r2 & e3 & H3 & Hu & _)]; [done|].
    eapply keys_write_spec in H3 as (? & ? & _); [done|exact K2]. }
  apply except_inv in H3 as [(a3 & H3 & _)|(? & ? & ? & ? & _ & _ & ?)]; [|done].
  eapply keys_write_spec in H3 as (? & _ & F3 & _ & K3 & _); [|exact K2].
  apply except_inv in H as [(? & ? & ?)|(e2 & w4 & r2 & e3 & H4 & Hu & _)]; [done|].
  apply prove_switched_spec in H4. rewrite <-H4 in K3, F3.
  apply bind_inv in Hu as [(e4 & Hu & _)|([] & w5 & H5 & Hu)].
  { eapply keys_put_back_spec in Hu as (? & _); [done|exact K3]. }
  eapply keys_put_back_spec in H5 as (_ & F5 & _ & K5); [|exact K3].
  eapply Hund; [done| |done]. intros p Hp Hq. by rewrite F5, F3, F2, F1.
Qed.

(** * Retiring *)

(** The five paths a running generation is read from. *)
Definition live_paths (gen : string) : list string :=
  [gen_dir gen; SUDOERS; SUDOERS_NEXT; ACCEPTENV; ACCEPTENV_NEXT].

(** None of the rule files is a link. *)
Definition plain_rules m : Prop :=
  unlinked m SUDOERS ∧ unlinked m SUDOERS_NEXT ∧ unlinked m ACCEPTENV ∧ unlinked m ACCEPTENV_NEXT.

(** The panel's line runs this generation, whose executables are in place and
    whose rules stand in the main files or in the -next ones. *)
Definition serves (path : rendered) w : Prop :=
  keys_now (r_cfg path) w = inr (Some (r_panel_keys path)) ∧
  intact (r_gen path) (r_entry path) (r_dispatcher path) (fsw w) ∧
  (text_at (fsw w) SUDOERS = Some (r_rule path) ∨ text_at (fsw w) SUDOERS_NEXT = Some (r_rule path)) ∧
  (text_at (fsw w) ACCEPTENV = Some (r_accept path) ∨ text_at (fsw w) ACCEPTENV_NEXT = Some (r_accept path)).

(** Claim C3: a failed move is undone.  Whatever fails while a new generation
    is placed, proven and switched to, by refusal or by any other exception of
    the code, in any command and at any attempt, the runner's keys hold what
    they held, the main rules file and the main AcceptEnv file are what they
    were, and so is every other file but the new generation's own paths and the
    proof key's directory.  The new generation's directory and both -next files
    are gone.  So the generation the panel's line runs goes on serving when its
    rules stand in the main files.  Of one whose only rule stood in a -next
    file that rule is gone too: [failed_move_drops_rule]. *)
Theorem move_failure_restores path kb w e w' :
  keys_now (r_cfg path) w = inr kb → move path kb w = (inl e, w') →
  keys_now (r_cfg path) w' = inr kb ∧
  fsw w' !! SUDOERS = fsw w !! SUDOERS ∧ fsw w' !! ACCEPTENV = fsw w !! ACCEPTENV ∧
  fsw w' !! gen_dir (r_gen path) = None ∧ fsw w' !! SUDOERS_NEXT = None ∧
  fsw w' !! ACCEPTENV_NEXT = None ∧
  (∀ p, p ∉ beside_paths (r_gen path) → proof_path p = false → fsw w' !! p = fsw w !! p) ∧
  (∀ old, serves old w → runner_user (r_cfg old) = runner_user (r_cfg path) → runner_home (r_cfg old) = runner_home (r_cfg path) →
    gen_dir (r_gen old) ∉ beside_paths (r_gen path) →
    text_at (fsw w) SUDOERS = Some (r_rule old) → text_at (fsw w) ACCEPTENV = Some (r_accept old) → serves old w').
Proof.
  intros Hk H. apply move_failed in H as (K & m & F & Hm); [|done].
  assert (∀ p, p ∉ beside_paths (r_gen path) → proof_path p = false →
    fsw w' !! p = fsw w !! p) as Hsame.
  { intros p Hp Hq. rewrite Hm. rewrite !lookup_delete_ne; [by apply F|..]; (intros Hq'; apply Hp; unfold beside_paths; set_solver). }
  assert ((SUDOERS ∉ beside_paths (r_gen path)) ∧ (ACCEPTENV ∉ beside_paths (r_gen path))) as [Hs Ha].
  { unfold beside_paths. split; rewrite !elem_of_cons, elem_of_nil; intros Hin; by decompose [or] Hin. }
  split_and!; [done|by apply Hsame|by apply Hsame| | | |done|].
  - rewrite Hm, !lookup_delete_ne by discriminate. apply lookup_delete_eq.
  - rewrite Hm, lookup_delete_ne by discriminate. apply lookup_delete_eq.
  - rewrite Hm. apply lookup_delete_eq.
  - intros old (Ko & I & _) Hu Hh Hg R A. unfold serves, intact, generation_intact, text_at in *.
    rewrite (Hsame (gen_dir (r_gen old)) Hg eq_refl), (Hsame SUDOERS Hs eq_refl), (Hsame ACCEPTENV Ha eq_refl).
    split_and!; [|exact I|by left|by left].
    unfold keys_now, keys_on, keys_path in *. rewrite Hu, Hh in *. congruence.
Qed.

Definition agree gen m m' : Prop := ∀ p, p ∈ live_paths gen → m' !! p = m !! p.

Lemma agree_frame gen ps m m' :
  (∀ p, p ∈ live_paths gen → p ∉ ps) → frame ps m m' → agree gen m m'.
Proof. intros Hd Hf p Hp. auto. Qed.

Lemma serves_agree path w w' :
  same_keys w w' → agree (r_gen path) (fsw w) (fsw w') → serves path w → serves path w'.
Proof.
  intros Hs Ha (K & I & R & A). unfold serves. rewrite (keys_now_same _ _ _ Hs).
  unfold intact, generation_intact, text_at in *. unfold live_paths in Ha.
  rewrite !Ha by set_solver. done.
Qed.

Lemma plain_agree gen m m' : agree gen m m' → plain_rules m → plain_rules m'.
Proof.
  intros Ha (H1 & H2 & H3 & H4). unfold plain_rules, unlinked in *. unfold live_paths in Ha.
  rewrite !Ha by set_solver. done.
Qed.

(** The stages of [settle_rules], each leaving a serving world. *)
Lemma install_serves path w r w' :
  install_generation (r_gen path) (r_entry path) (r_dispatcher path) w = (r, w') →
  serves path w → plain_rules (fsw w) → serves path w' ∧ plain_rules (fsw w').
Proof.
  intros H S P. apply install_generation_spec in H as (Hs & Hf & H).
  assert (Hag : ∀ p, p ∈ [SUDOERS; SUDOERS_NEXT; ACCEPTENV; ACCEPTENV_NEXT] → fsw w' !! p = fsw w !! p).
  { intros p Hp. apply Hf. elem_cases Hp; not_elem. }
  split.
  - destruct S as (K & I & R & A). destruct r as [e|[]]; [by subst| |by destruct H as [-> _]].
    destruct H as (I' & _). unfold serves, text_at. rewrite (keys_now_same _ _ _ Hs).
    rewrite !Hag by set_solver. by split_and!.
  - unfold plain_rules, unlinked in *. rewrite !Hag by set_solver. done.
Qed.

Lemma keys_serves path w r w' :
  keys_write (r_cfg path) (r_panel_keys path) w = (r, w') → serves path w → w' = w.
Proof.
  intros H (K & _). unfold keys_write in H.
  rewrite (bind_run _ _ w _ w) in H by (by rewrite keys_read_eq, K).
  rewrite bool_decide_true in H by done. by apply pair_equal_spec in H as [_ <-].
Qed.

(** A rule file written or left: what it then holds. *)
Lemma rule_write_serves path gen_rule w r w' :
  host_write SUDOERS gen_rule 288 visudo_check w = (r, w') → gen_rule = r_rule path →
  serves path w → plain_rules (fsw w) →
  serves path w' ∧ plain_rules (fsw w') ∧ (∀ b, r = inr b → text_at (fsw w') SUDOERS = Some (r_rule path)).
Proof.
  intros H -> S P. apply host_write_spec in H as [Hs H]. destruct r as [e|[]].
  - destruct H as [Hf _].
    assert (Ha : agree (r_gen path) (fsw w) (fsw w')).
    { eapply agree_frame; [|exact Hf]. intros p Hp. unfold live_paths in Hp. elem_cases Hp; not_elem. }
    split_and!; [by eapply serves_agree|by eapply plain_agree|done].
  - destruct H as [Hf _].
    assert (Hag : ∀ p, p ∈ [gen_dir (r_gen path); SUDOERS_NEXT; ACCEPTENV; ACCEPTENV_NEXT] → fsw w' !! p = fsw w !! p).
    { intros p Hp. rewrite Hf. elem_cases Hp; by rewrite lookup_insert_ne, lookup_delete_ne by discriminate. }
    assert (Ht : text_at (fsw w') SUDOERS = Some (r_rule path)) by (rewrite Hf; apply text_at_insert).
    destruct S as (K & I & R & A). split_and!; [| |done].
    + unfold serves. rewrite (keys_now_same _ _ _ Hs), Ht. unfold intact, generation_intact, text_at in *.
      rewrite !Hag by set_solver. split_and!; auto.
    + unfold plain_rules in *. split_and!; [rewrite Hf; apply unlinked_file|..];
        unfold unlinked in *; rewrite Hag by set_solver; naive_solver.
  - destruct H as [-> H]. split_and!; [done..|]. intros b _. apply read_text_at; [apply P|done].
Qed.

Lemma accept_serves path w r w' :
  place_sshd ACCEPTENV (r_accept path) w = (r, w') → serves path w → plain_rules (fsw w) →
  serves path w' ∧ plain_rules (fsw w') ∧ text_at (fsw w') SUDOERS = text_at (fsw w) SUDOERS ∧
  (∀ b, r = inr b → text_at (fsw w') ACCEPTENV = Some (r_accept path)).
Proof.
  intros H S P. apply place_sshd_spec in H as (Hs & Hf & Hu & H).
  assert (Hag : ∀ p, p ∈ [gen_dir (r_gen path); SUDOERS; SUDOERS_NEXT; ACCEPTENV_NEXT] → fsw w' !! p = fsw w !! p).
  { intros p Hp. apply Hf. elem_cases Hp; not_elem. }
  destruct S as (K & I & R & A), P as (P1 & P2 & P3 & P4).
  assert (Hmain : text_at (fsw w') ACCEPTENV = text_at (fsw w) ACCEPTENV ∨
                  text_at (fsw w') ACCEPTENV = Some (r_accept path)).
  { destruct r as [e|[]]; [by apply H|right|by destruct H as [-> _]; left].
    destruct H as [-> _]. apply text_at_insert. }
  split_and!.
  - unfold serves. rewrite (keys_now_same _ _ _ Hs). unfold intact, generation_intact in *.
    unfold text_at at 1 2 4. rewrite !Hag by set_solver. split_and!; [done..|].
    destruct Hmain as [->| ->]; auto.
  - assert (Hpl : ∀ q, q ∈ [gen_dir (r_gen path); SUDOERS; SUDOERS_NEXT; ACCEPTENV_NEXT] →
      unlinked (fsw w) q → unlinked (fsw w') q).
    { intros q Hq. unfold unlinked. by rewrite Hag. }
    unfold plain_rules. split_and!; [apply Hpl; [set_solver|done]..|auto|apply Hpl; [set_solver|done]].
  - unfold text_at. by rewrite Hag by set_solver.
  - intros b ->. destruct b; destruct H as [Heq H].
    + rewrite Heq. apply text_at_insert.
    + subst. by apply read_text_at.
Qed.

(** Removing a -next rule whose main file holds the rule. *)
Lemma remove_next_serves path p w r w' :
  host_remove p w = (r, w') → serves path w → plain_rules (fsw w) →
  p = SUDOERS_NEXT ∧ text_at (fsw w) SUDOERS = Some (r_rule path) ∨
  p = ACCEPTENV_NEXT ∧ text_at (fsw w) ACCEPTENV = Some (r_accept path) →
  serves path w' ∧ plain_rules (fsw w') ∧
  text_at (fsw w') SUDOERS = text_at (fsw w) SUDOERS ∧ text_at (fsw w') ACCEPTENV = text_at (fsw w) ACCEPTENV ∧
  (∃ b, r = inr b) ∧ fsw w' !! p = None.
Proof.
  intros H S P Hor. apply host_remove_spec in H as (b & -> & Hs & Hf & _).
  assert (Hnone : fsw w' !! p = None) by (rewrite Hf; apply lookup_delete_eq).
  assert (Hoth : ∀ q, q ≠ p → fsw w' !! q = fsw w !! q).
  { intros q Hq. rewrite Hf. by apply lookup_delete_ne. }
  clear Hf. destruct S as (K & I & R & A), P as (P1 & P2 & P3 & P4).
  assert (Hpl : ∀ q, unlinked (fsw w) q → unlinked (fsw w') q).
  { intros q Hq. unfold unlinked. destruct (decide (q = p)) as [->|Hn]; [by rewrite Hnone|].
    rewrite Hoth; done. }
  assert (Htx : ∀ q, q ≠ p → text_at (fsw w') q = text_at (fsw w) q).
  { intros q Hq. unfold text_at. by rewrite Hoth. }
  assert (Hin : gen_dir (r_gen path) ≠ p) by (destruct Hor as [[-> _]|[-> _]]; discriminate).
  unfold serves, plain_rules. rewrite (keys_now_same _ _ _ Hs).
  unfold intact, generation_intact in *. rewrite (Hoth _ Hin).
  destruct Hor as [[-> Hr]|[-> Hr]].
  - rewrite (Htx SUDOERS), (Htx ACCEPTENV), (Htx ACCEPTENV_NEXT) by discriminate. split_and!; auto. by exists b.
  - rewrite (Htx SUDOERS), (Htx ACCEPTENV), (Htx SUDOERS_NEXT) by discriminate. split_and!; auto. by exists b.
Qed.

(** What a serving world keeps through every stage. *)
Definition steady path w : Prop := serves path w ∧ plain_rules (fsw w).

Lemma files_steady path w w' : files w' = files w → steady path w → steady path w'.
Proof. intros Heq [S P]. unfold steady, serves. rewrite Heq. by split. Qed.

Lemma reload_or_not_files (b : bool) w r w' :
  (if b then sshd_reload else mret tt) w = (r, w') → files w' = files w.
Proof.
  destruct b; intros H; [by apply sshd_reload_spec in H as [? _]|].
  apply pair_equal_spec in H as [_ <-]. done.
Qed.

Lemma settle_rules_steady path w r w' :
  settle_rules path w = (r, w') → steady path w →
  steady path w' ∧ (∀ t, r = inr t → text_at (fsw w') SUDOERS = Some (r_rule path)
                                     ∧ text_at (fsw w') ACCEPTENV = Some (r_accept path)).
Proof.
  unfold settle_rules. intros H [S0 P0].
  apply bind_inv in H as [(e & H & ->)|(b1 & w1 & H1 & H)].
  { eapply install_serves in H as [? ?]; done. }
  eapply install_serves in H1 as [S1 P1]; [|done..].
  apply bind_inv in H as [(e & H & ->)|(b2 & w2 & H2 & H)].
  { apply keys_serves in H as ->; done. }
  apply keys_serves in H2 as ->; [|done].
  apply bind_inv in H as [(e & H & ->)|(b3 & w3 & H3 & H)].
  { eapply rule_write_serves in H as (? & ? & _); done. }
  eapply rule_write_serves in H3 as (S3 & P3 & R3); [|done..]. specialize (R3 _ eq_refl).
  apply bind_inv in H as [(e & H & ->)|(b4 & w4 & H4 & H)].
  { eapply accept_serves in H as (? & ? & _); done. }
  eapply accept_serves in H4 as (S4 & P4 & R4 & A4); [|done..]. specialize (A4 _ eq_refl). rewrite R3 in R4.
  apply bind_inv in H as [(e & H & ->)|(b5 & w5 & H5 & H)].
  { eapply remove_next_serves in H as (? & ? & _ & _ & [? ?] & _); [done|done..|by left]. }
  eapply remove_next_serves in H5 as (S5 & P5 & R5 & A5 & _ & _); [|done|done|by left].
  rewrite R4 in R5. rewrite A4 in A5.
  apply bind_inv in H as [(e & H & ->)|(b6 & w6 & H6 & H)].
  { eapply remove_next_serves in H as (? & ? & _ & _ & [? ?] & _); [done|done..|by right]. }
  eapply remove_next_serves in H6 as (S6 & P6 & R6 & A6 & _ & _); [|done|done|by right].
  rewrite R5 in R6. rewrite A5 in A6.
  apply bind_inv in H as [(e & H & ->)|([] & w7 & H7 & H)].
  { apply reload_or_not_files in H. split; [by eapply files_steady|done]. }
  apply reload_or_not_files in H7. apply pair_equal_spec in H as [<- <-].
  split; [by eapply files_steady|]. intros t _. by rewrite H7.
Qed.

(** Putting the -next rules back beside the main ones. *)
Lemma restore_next_steady path w r w' (k : bool → M unit) :
  (∀ b w1 r1 w2, k b w1 = (r1, w2) → files w2 = files w1) →
  (_ ← host_write SUDOERS_NEXT (r_rule path) 288 visudo_check;
   accept ← place_sshd ACCEPTENV_NEXT (r_accept path); k accept) w = (r, w') →
  steady path w → text_at (fsw w) SUDOERS = Some (r_rule path) →
  text_at (fsw w) ACCEPTENV = Some (r_accept path) → steady path w'.
Proof.
  intros Hk H [(K & I & _ & _) (P1 & P2 & P3 & P4)] R A.
  assert (Hend : ∀ w2, same_keys w w2 → (∀ p, p ∈ [gen_dir (r_gen path); SUDOERS; ACCEPTENV] → fsw w2 !! p = fsw w !! p) →
    unlinked (fsw w2) SUDOERS_NEXT → unlinked (fsw w2) ACCEPTENV_NEXT → steady path w2).
  { intros w2 Hs Hag U1 U2.
    assert (HS : fsw w2 !! SUDOERS = fsw w !! SUDOERS) by (apply Hag; set_solver).
    assert (HA : fsw w2 !! ACCEPTENV = fsw w !! ACCEPTENV) by (apply Hag; set_solver).
    unfold steady, serves, plain_rules. rewrite (keys_now_same _ _ _ Hs). split; [split_and!|split_and!].
    - done.
    - unfold intact, generation_intact in *. by rewrite Hag by set_solver.
    - left. unfold text_at in *. by rewrite HS.
    - left. unfold text_at in *. by rewrite HA.
    - unfold unlinked in *. by rewrite HS.
    - done.
    - unfold unlinked in *. by rewrite HA.
    - done. }
  assert (Hne : ∀ p, p ∈ [gen_dir (r_gen path); SUDOERS; ACCEPTENV] →
    p ∉ [SUDOERS_NEXT; tmp_of SUDOERS_NEXT; ACCEPTENV_NEXT; tmp_of ACCEPTENV_NEXT]).
  { intros p Hp. elem_cases Hp; not_elem. }
  assert (Hstep : ∀ w1, same_keys w w1 → frame [SUDOERS_NEXT; tmp_of SUDOERS_NEXT] (fsw w) (fsw w1) →
    unlinked (fsw w1) SUDOERS_NEXT →
    ∀ w2, same_keys w1 w2 → frame [ACCEPTENV_NEXT; tmp_of ACCEPTENV_NEXT] (fsw w1) (fsw w2) →
    unlinked (fsw w2) ACCEPTENV_NEXT → steady path w2).
  { intros w1 [K1 S1] F1 U1 w2 [K2 S2] F2 U2. apply Hend.
    - split; congruence.
    - intros p Hp. rewrite F2, F1; [done|..]; specialize (Hne p Hp); clear -Hne; set_solver.
    - unfold unlinked. rewrite F2 by not_elem. exact U1.
    - done. }
  apply bind_inv in H as [(e & H & ->)|(b1 & w1 & H1 & H)].
  { apply host_write_spec in H as [Hs [Hf _]]. apply (Hstep w'); try done.
    - eapply frame_mono; [|exact Hf]. clear; set_solver.
    - unfold unlinked. rewrite Hf by not_elem. exact P2.
    - unfold unlinked. rewrite Hf by not_elem. exact P4. }
  apply host_write_spec in H1 as [Hs1 H1].
  assert (frame [SUDOERS_NEXT; tmp_of SUDOERS_NEXT] (fsw w) (fsw w1) ∧ unlinked (fsw w1) SUDOERS_NEXT) as [F1 U1].
  { destruct b1; [|by destruct H1 as [-> _]]. destruct H1 as [-> _]. split; [|apply unlinked_file].
    intros p Hp. rewrite lookup_insert_ne, lookup_delete_ne; [done|clear -Hp; set_solver..]. }
  assert (U1' : unlinked (fsw w1) ACCEPTENV_NEXT).
  { unfold unlinked. rewrite F1 by not_elem. exact P4. }
  apply bind_inv in H as [(e & H & ->)|(b2 & w2 & H2 & H)].
  { apply place_sshd_spec in H as (Hs & Hf & Hu & _). apply (Hstep w1); auto. }
  apply place_sshd_spec in H2 as (Hs & Hf & Hu & _). apply Hk in H.
  eapply files_steady; [done|]. apply (Hstep w1); auto.
Qed.

Lemma prove_settled_steady path w r w' :
  prove_settled path w = (r, w') → steady path w → text_at (fsw w) SUDOERS = Some (r_rule path) →
  text_at (fsw w) ACCEPTENV = Some (r_accept path) →
  steady path w' ∧ (r = inr tt → files w' = files w).
Proof.
  unfold prove_settled. intros H S R A. apply bind_inv in H as [(e & H & ->)|(reasons & w1 & H1 & H)].
  { apply prove_spec in H as [Hf _]. split; [by eapply files_steady|done]. }
  apply prove_spec in H1 as [Hf _]. apply (files_steady _ _ w1) in S; [|done]. rewrite <-Hf in R, A.
  destruct reasons as [|re reasons].
  { apply pair_equal_spec in H as [<- <-]. done. }
  split.
  - eapply restore_next_steady; [|exact H|done..]. intros b w2 r2 w3 H2.
    apply bind_inv in H2 as [(e & H2 & ->)|([] & w4 & H2 & H3)];
      [|apply pair_equal_spec in H3 as [_ <-]]; by apply reload_or_not_files in H2.
  - intros ->. exfalso. clear -H. apply bind_ok in H as (b1 & w2 & _ & H).
    apply bind_ok in H as (b2 & w3 & _ & H). by apply bind_ok in H as ([] & w4 & _ & H).
Qed.

(** The dispatcher's link stands apart from what a generation is read from. *)
Definition link_apart (path : rendered) : Prop :=
  ∀ p, p ∈ GENERATIONS :: live_paths (r_gen path) → p ≠ cfg_link (r_cfg path) ∧ p ≠ tmp_of (cfg_link (r_cfg path)).

Lemma host_link_spec path to w r w' :
  host_link path to w = (r, w') →
  same_keys w w' ∧ frame [path; tmp_of path] (fsw w) (fsw w') ∧
  (∀ b, r = inr b → fsw w' !! path = Some (NLink to)).
Proof.
  unfold host_link. rewrite (bind_run _ _ _ _ _ (gets_eq _ _)). cbn [compose].
  assert (Hc : (_ ← replace_with path (NLink to); _ ← record_wrote [path]; mret true) w = (r, w') →
    same_keys w w' ∧ frame [path; tmp_of path] (fsw w) (fsw w') ∧
    (∀ b, r = inr b → fsw w' !! path = Some (NLink to))).
  { intros H. apply bind_inv in H as [(e & H & ->)|([] & w1 & H & H2)]; apply replace_with_spec in H as (Hs & _ & H).
    - destruct H as [[? _]|[_ ->]]; [done|]. done.
    - apply pair_equal_spec in H2 as [<- <-]. destruct H as [[_ Hf]|[? _]]; [|done].
      cbn [files]. split_and!; [done|cbn [record_wrote files] in *; rewrite Hf|intros b _; cbn in *; rewrite Hf].
      + intros p Hp. rewrite lookup_insert_ne, lookup_delete_ne; [done|clear -Hp; set_solver..].
      + apply lookup_insert_eq. }
  destruct (fsw w !! path) as [[|to'|]|] eqn:Hp; try done.
  case_bool_decide; [|done]. subst. intros H. apply pair_equal_spec in H as [<- <-]. by split_and!.
Qed.

Lemma gen_dir_inj g1 g2 : gen_dir g1 = gen_dir g2 → g1 = g2.
Proof. unfold gen_dir. intros H%sapp_inj. by apply sapp_inj in H. Qed.

Lemma remove_others_spec gen l w r w' :
  remove_others gen l w = (r, w') →
  r = inr tt ∧ same_keys w w' ∧
  (∀ p, (∀ o, o ∈ l → o ≠ gen → p ≠ gen_dir o) → fsw w' !! p = fsw w !! p) ∧
  (∀ o, o ∈ l → o ≠ gen → fsw w' !! gen_dir o = None) ∧
  (l = [] ∨ (∀ o, o ∈ l → o = gen) → w' = w).
Proof.
  revert w r w'. induction l as [|o l IH]; intros w r w' H; cbn [remove_others] in H.
  { apply pair_equal_spec in H as [<- <-]. split_and!; try done. by intros o ?%elem_of_nil. }
  assert (∃ b w1, (if bool_decide (o = gen) then mret false else host_remove (gen_dir o)) w = (inr b, w1) ∧
    same_keys w w1 ∧ (o = gen → w1 = w) ∧ (o ≠ gen → fsw w1 = delete (gen_dir o) (fsw w)))
    as (b & w1 & H1 & K1 & E1 & D1).
  { destruct (decide (o = gen)) as [->|Ho].
    - rewrite bool_decide_true by done. exists false, w. by split_and!.
    - rewrite bool_decide_false by done. destruct (host_remove (gen_dir o) w) as [r1 w1] eqn:Hr.
      apply host_remove_spec in Hr as (b & -> & Hs & Hf & _). by exists b, w1. }
  rewrite (bind_run _ _ _ _ _ H1) in H. apply IH in H as (-> & [K2 S2] & F2 & N2 & I2).
  destruct K1 as [K1 S1]. split_and!; [done|split; congruence| | |].
  - intros p Hp. rewrite F2 by (intros o' Ho'; apply Hp; by right).
    destruct (decide (o = gen)) as [Ho|Ho]; [by rewrite E1|].
    rewrite D1 by done. rewrite lookup_delete_ne; [done|]. apply not_eq_sym, Hp; [by left|done].
  - intros o' Ho' Hne. destruct (decide (o' ∈ l)) as [Hl|Hl]; [auto|].
    apply elem_of_cons in Ho' as [Ho'|Ho']; [subst o'|done]. rewrite F2.
    + rewrite D1 by done. apply lookup_delete_eq.
    + intros o2 Ho2 _ Heq. apply gen_dir_inj in Heq. by subst o2.
  - intros [?|Hall]; [done|]. rewrite I2; [apply E1, Hall; by left|].
    right. intros o' Ho'. apply Hall. by right.
Qed.

Lemma is_proof_dir_live gen p : p ∈ GENERATIONS :: live_paths gen → is_proof_dir p = false.
Proof. unfold live_paths. intros Hp. elem_cases Hp; done. Qed.

Lemma clean_up_agree path w r w' :
  clean_up path w = (r, w') → link_apart path →
  same_keys w w' ∧ agree (r_gen path) (fsw w) (fsw w').
Proof.
  unfold clean_up. intros H Ha.
  assert (Hlink : ∀ w1, frame [cfg_link (r_cfg path); tmp_of (cfg_link (r_cfg path))] (fsw w) (fsw w1) →
    agree (r_gen path) (fsw w) (fsw w1)).
  { intros w1. apply agree_frame. intros p Hp Hq.
    destruct (Ha p) as [H1 H2]; [by right|]. by elem_cases Hq. }
  apply bind_inv in H as [(e & H & ->)|(b & w1 & H1 & H)].
  { apply host_link_spec in H as (Hs & Hf & _). auto. }
  apply host_link_spec in H1 as (Hs1 & Hf1 & _). apply Hlink in Hf1.
  apply bind_inv in H as [(e & H & ->)|(others & w2 & H2 & H)].
  { unfold generations in H. rewrite (bind_run _ _ _ _ _ (gets_eq _ _)) in H.
    by destruct ((fs ∘ files) w1 !! GENERATIONS) as [[]|]. }
  assert (w2 = w1) as ->.
  { unfold generations in H2. rewrite (bind_run _ _ _ _ _ (gets_eq _ _)) in H2.
    destruct ((fs ∘ files) w1 !! GENERATIONS) as [[]|]; by apply pair_equal_spec in H2 as [_ <-]. }
  apply bind_inv in H as [(e & H & ->)|([] & w3 & H3 & H)].
  { by apply remove_others_spec in H as [? _]. }
  apply remove_others_spec in H3 as (_ & [K3 S3] & F3 & _).
  rewrite (bind_run _ _ _ _ _ (gets_eq _ _)), set_fs_eq in H. apply pair_equal_spec in H as [<- <-].
  destruct Hs1 as [K1 S1]. split; [split; cbn; congruence|].
  intros p Hp. cbn [set_fs_world files fs compose].
  assert (F3p : fsw w3 !! p = fsw w !! p).
  { rewrite F3; [by apply Hf1|]. intros o _ Hne ->. revert Hp. unfold live_paths. intros Hp.
    elem_cases Hp; try discriminate. by apply Hne, gen_dir_inj. }
  rewrite <- F3p, map_lookup_filter. cbn [compose]. destruct (fs (files w3) !! p); [|done].
  cbn. rewrite option_guard_True; [done|]. apply (is_proof_dir_live (r_gen path)). by right.
Qed.

(** Claim C2: retiring never strands the panel.  Once a move has succeeded,
    whatever retiring then meets, in any command and at any attempt, and
    whether it returns, refuses or crashes, the panel's line still runs this
    generation, its executables are exactly this tree's, and its sudo rule and
    its AcceptEnv rule each stand in a main file or in a -next one. *)
Theorem retire_never_strands path w r w' :
  serves path w → plain_rules (fsw w) → link_apart path →
  retire path w = (r, w') → serves path w' ∧ plain_rules (fsw w').
Proof.
  intros S P Ha. unfold retire. intros H.
  apply bind_inv in H as [(e & H & ->)|(touched & w1 & H1 & H)].
  { apply settle_rules_steady in H as [? _]; [done|by split]. }
  apply settle_rules_steady in H1 as [S1 T1]; [|by split]. destruct (T1 _ eq_refl) as [R1 A1].
  apply bind_inv in H as [(e & H & ->)|([] & w2 & H2 & H)].
  { destruct touched; [|done]. apply prove_settled_steady in H as [? _]; done. }
  assert (S2 : steady path w2).
  { destruct touched; [by apply prove_settled_steady in H2 as [? _]|].
    by apply pair_equal_spec in H2 as [_ <-]. }
  apply clean_up_agree in H as [Hs Hag]; [|done]. destruct S2 as [S2 P2].
  split; [by eapply serves_agree|by eapply plain_agree].
Qed.

(** A failed move over a half-retired switch strands the running
    generation.  When the running generation's sudo rule stands only in the
    -next file, as a switch cut short before retiring leaves it, a failed move
    to another generation removes that file: the panel's line still runs the
    old generation, and neither rule file holds its rule. *)
Theorem failed_move_drops_rule old path kb w e w' :
  serves old w → runner_user (r_cfg path) = runner_user (r_cfg old) →
  runner_home (r_cfg path) = runner_home (r_cfg old) → text_at (fsw w) SUDOERS ≠ Some (r_rule old) →
  kb = Some (r_panel_keys old) → move path kb w = (inl e, w') →
  keys_now (r_cfg old) w' = inr (Some (r_panel_keys old)) ∧
  text_at (fsw w') SUDOERS ≠ Some (r_rule old) ∧ text_at (fsw w') SUDOERS_NEXT ≠ Some (r_rule old).
Proof.
  intros (K & _) Hu Hh R -> H.
  assert (Heq : ∀ k, keys_on (r_cfg old) k = keys_on (r_cfg path) k).
  { intros k. unfold keys_on, keys_path. by rewrite Hu, Hh. }
  rewrite Heq in K |- *. apply move_failed in H as (K' & m & F & ->); [|done].
  unfold text_at in *. rewrite !lookup_delete_ne, F, lookup_delete_eq by (done || (unfold beside_paths; not_elem)). done.
Qed.
End facts.
