(* ===== verification/DispatchPathSwitch.v ===== *)
(** What a completed switch leaves, that a second one changes nothing, and
    what the passthrough names may be.  The definitions are those of
    [DispatchPath]; the step lemmas those of [DispatchPathFacts]. *)
From S2P Require Import Prelude PyStr PyNum PyVal Json Encoding Sha256 Effects DispatchPath DispatchPathFacts.

#[local] Open Scope string_scope.

(** * Paths *)

Lemma child_of_gen p o : child_of GENERATIONS p = Some o → p = gen_dir o.
Proof.
  unfold child_of. destruct (strip_prefix _ p) as [r|] eqn:Hr; [|done]. cbn.
  destruct (_ || _); [done|]. intros [= <-]. apply strip_prefix_inv in Hr as ->.
  unfold gen_dir. done.
Qed.

(** * Splitting a text *)

Lemma words_go_ne acc s x : x ∈ words_go acc s → x ≠ "".
Proof.
  revert acc. induction s as [|b s IH]; intros acc; cbn [words_go].
  - case_bool_decide; [by intros ?%elem_of_nil|]. by intros ->%list_elem_of_singleton.
  - destruct (is_space b); [|apply IH]. rewrite elem_of_app. intros [H|H]; [|by apply IH in H].
    case_bool_decide; [by apply elem_of_nil in H|]. by apply list_elem_of_singleton in H as ->.
Qed.
Lemma words_go_some acc s : acc ≠ "" → words_go acc s ≠ [].
Proof.
  revert acc. induction s as [|b s IH]; intros acc Ha; cbn [words_go].
  - by rewrite bool_decide_false.
  - destruct (is_space b); [by rewrite bool_decide_false|]. apply IH. by destruct acc.
Qed.
Lemma words_cons a s : is_space a = false → words (String a s) ≠ [].
Proof. intros Ha. unfold words. cbn [words_go]. rewrite Ha. by apply words_go_some. Qed.

Lemma span_of_inv p s d r : span_of p s = (d, r) → s = d +:+ r ∧ sforall p d = true.
Proof.
  revert d r. induction s as [|a s IH]; intros d r H; cbn in H; [by simplify_eq|].
  destruct (p a) eqn:Hp; [|by simplify_eq]. destruct (span_of p s) as [d' r'] eqn:Hs. simplify_eq.
  destruct (IH _ _ eq_refl) as [-> Hd]. cbn. by rewrite Hp.
Qed.

Lemma quoted_body_plain s rest :
  sforall (λ a, negb (is_char dq a) && negb (is_char bs a)) s = true → quoted_body (s +:+ String dq rest) = Some s.
Proof.
  induction s as [|a s IH]; cbn [sforall String.append quoted_body]; [by rewrite bool_decide_true|].
  unfold is_char. intros [[H1 H2]%andb_prop H]%andb_prop.
  rewrite (bool_decide_false (a = dq)), (bool_decide_false (a = bs)), IH; [done|done|..];
    intros ->; by rewrite bool_decide_true in *.
Qed.

Lemma substring_app a b : String.substring 0 (String.length a) (a +:+ b) = a.
Proof. induction a as [|c a IH]; [by destruct b|]. cbn. by rewrite IH. Qed.

Section facts.
Context {E : Type} `{!Outside E}.
Abbreviation W := (@world E).
Abbreviation fsw w := (fs (files w)).
Implicit Types (w : W) (m : gmap string node).

(** * What a completed switch leaves *)

(** The link stands apart from what a generation is read from, from the
    generations and from the proof keys' directories. *)
Definition link_clear (path : rendered) : Prop :=
  link_apart path ∧ child_of GENERATIONS (cfg_link (r_cfg path)) = None ∧
  is_proof_dir (cfg_link (r_cfg path)) = false.

(** The panel's line, the two executables, the two rules, the link, and
    nothing of an older path. *)
Definition settled (path : rendered) w : Prop :=
  keys_on (r_cfg path) (keys (files w)) = inr (Some (r_panel_keys path)) ∧
  intact (r_gen path) (r_entry path) (r_dispatcher path) (fsw w) ∧
  text_at (fsw w) SUDOERS = Some (r_rule path) ∧
  text_at (fsw w) ACCEPTENV = Some (r_accept path) ∧
  fsw w !! SUDOERS_NEXT = None ∧ fsw w !! ACCEPTENV_NEXT = None ∧
  fsw w !! cfg_link (r_cfg path) = Some (NLink (dispatcher_path (r_gen path))) ∧
  (∀ p o, child_of GENERATIONS p = Some o → o ≠ r_gen path → fsw w !! p = None) ∧
  (∀ p, is_proof_dir p = true → fsw w !! p = None).

(** A child of the generations directory has the directory above it. *)
Definition gens_wf m : Prop :=
  ∀ p o n, child_of GENERATIONS p = Some o → m !! p = Some n →
           ∃ mode uid es, m !! GENERATIONS = Some (NDir mode uid es).

Lemma generations_spec w r w' :
  generations w = (r, w') → gens_wf (fsw w) →
  w' = w ∧ ∃ l, r = inr l ∧ (∀ o, o ∈ l → child_of GENERATIONS (gen_dir o) = Some o) ∧
    ∀ p o, child_of GENERATIONS p = Some o → is_Some (fsw w !! p) ↔ o ∈ l.
Proof.
  unfold generations. rewrite (bind_run _ _ _ _ _ (gets_eq _ _)). cbn [compose]. intros H G.
  destruct (fsw w !! GENERATIONS) as [[|to|mode uid es]|] eqn:Hg; apply pair_equal_spec in H as [<- <-];
    (split; [done|]); eexists; (split; [reflexivity|]).
  3:{ assert (Hin : ∀ o, o ∈ omap (child_of GENERATIONS) (map_to_list (fsw w)).*1 →
        child_of GENERATIONS (gen_dir o) = Some o ∧ is_Some (fsw w !! gen_dir o)).
      { intros o (p & Hp & Ho)%list_elem_of_omap. pose proof (child_of_gen _ _ Ho) as ->. split; [done|].
        apply list_elem_of_fmap in Hp as ([q n] & -> & Hn%elem_of_map_to_list). by exists n. }
      split; [by intros o [? _]%elem_of_sorted_str%Hin|]. intros p o Ho. rewrite elem_of_sorted_str. split.
      - intros [n Hn]. apply list_elem_of_omap. exists p. split; [|done].
        apply list_elem_of_fmap. exists (p, n). split; [done|]. by apply elem_of_map_to_list.
      - intros [_ ?]%Hin. by rewrite (child_of_gen _ _ Ho). }
  all: split; [by intros o ?%elem_of_nil|]; intros p o Ho; split; [|by intros ?%elem_of_nil];
    intros [n Hn]; destruct (G p o n Ho Hn) as (?&?&?&?); simplify_eq.
Qed.

Lemma gens_wf_dir m mode uid es : m !! GENERATIONS = Some (NDir mode uid es) → gens_wf m.
Proof. intros H p o n _ _. eauto. Qed.

Lemma child_of_gen_dir gen : word_of is_hex_char gen = true → child_of GENERATIONS (gen_dir gen) = Some gen.
Proof.
  unfold word_of. intros [Hne Hh]%andb_prop. unfold child_of, gen_dir. rewrite string_app_assoc.
  rewrite strip_prefix_app. cbn. destruct (bool_decide (gen = "")); [done|]. cbn.
  replace (has_char "/" gen) with false; [done|]. symmetry. unfold has_char, sexists.
  apply negb_false_iff. refine (sforall_impl is_hex_char _ _ _ Hh). intros a Ha. unfold is_char.
  rewrite bool_decide_false; [done|]. by intros <-.
Qed.

Definition gens_ready m : Prop := ∃ mode uid es, m !! GENERATIONS = Some (NDir mode uid es).

Lemma install_ready gen e d w b w' :
  install_generation gen e d w = (inr b, w') → word_of is_hex_char gen = true → gens_wf (fsw w) →
  gens_ready (fsw w') ∧ intact gen e d (fsw w') ∧ same_keys w w' ∧
  frame [gen_dir gen; GENERATIONS; stale_of gen] (fsw w) (fsw w').
Proof.
  intros H Hg G. apply install_generation_spec in H as (Hs & Hf & H). destruct b.
  - destruct H as (I & _ & uid & es & H). split_and!; try done. by exists 493%Z, uid, es.
  - destruct H as [-> I]. split_and!; try done. unfold intact, generation_intact in I.
    destruct (fsw w !! gen_dir gen) as [n|] eqn:Hn; [|done].
    apply (G (gen_dir gen) gen n); [by apply child_of_gen_dir|done].
Qed.

(** A rule file written or found: what it then holds. *)
Lemma write_text path text mode check w b w' :
  host_write path text mode check w = (inr b, w') → unlinked (fsw w) path →
  same_keys w w' ∧ frame [path; tmp_of path] (fsw w) (fsw w') ∧ text_at (fsw w') path = Some text.
Proof.
  intros H U. apply host_write_spec in H as [Hs H]. destruct b.
  - destruct H as [-> _]. split_and!; [done| |apply text_at_insert].
    intros p Hp. rewrite lookup_insert_ne, lookup_delete_ne; [done|clear -Hp; set_solver..].
  - destruct H as [-> H]. split_and!; [done..|]. by apply read_text_at.
Qed.

Lemma place_text path text w b w' :
  place_sshd path text w = (inr b, w') → unlinked (fsw w) path →
  same_keys w w' ∧ frame [path; tmp_of path] (fsw w) (fsw w') ∧ text_at (fsw w') path = Some text.
Proof.
  intros H U. apply place_sshd_spec in H as (Hs & Hf & _ & H). split_and!; [done..|]. destruct b.
  - destruct H as [-> _]. apply text_at_insert.
  - destruct H as [-> H]. by apply read_text_at.
Qed.

Lemma remove_gone path w b w' :
  host_remove path w = (inr b, w') →
  same_keys w w' ∧ frame [path] (fsw w) (fsw w') ∧ fsw w' !! path = None.
Proof.
  intros H. apply host_remove_spec in H as (_ & _ & Hs & -> & _).
  split_and!; [done|apply frame_delete; by left|apply lookup_delete_eq].
Qed.

Lemma same_keys_trans w1 w2 w3 : same_keys w1 w2 → same_keys w2 w3 → same_keys w1 w3.
Proof. intros [? ?] [? ?]. split; congruence. Qed.

(** Everything but the link and what is older. *)
Definition ruled (path : rendered) w : Prop :=
  keys_on (r_cfg path) (keys (files w)) = inr (Some (r_panel_keys path)) ∧
  intact (r_gen path) (r_entry path) (r_dispatcher path) (fsw w) ∧
  text_at (fsw w) SUDOERS = Some (r_rule path) ∧
  text_at (fsw w) ACCEPTENV = Some (r_accept path) ∧
  fsw w !! SUDOERS_NEXT = None ∧ fsw w !! ACCEPTENV_NEXT = None ∧ gens_ready (fsw w).

(** What [settle_rules] leaves when it returns. *)
Lemma settle_rules_ok path w t w' :
  settle_rules path w = (inr t, w') → word_of is_hex_char (r_gen path) = true →
  unlinked (fsw w) SUDOERS → unlinked (fsw w) ACCEPTENV → gens_wf (fsw w) → ruled path w'.
Proof.
  unfold settle_rules. intros H Hg U1 U2 G.
  apply bind_ok in H as (b1 & w1 & H1 & H). apply install_ready in H1 as (R1 & I1 & S1 & F1); [|done..].
  apply bind_ok in H as (b2 & w2 & H2 & H).
  assert (F2 : fsw w2 = fsw w1 ∧ keys_on (r_cfg path) (keys (files w2)) = inr (Some (r_panel_keys path))).
  { destruct (keys_on (r_cfg path) (keys (files w1))) as [e|kb] eqn:K.
    - unfold keys_write in H2. unfold mbind, ST_bind in H2. by rewrite keys_read_eq, K in H2.
    - eapply keys_write_spec in H2 as (_ & _ & ? & _ & ? & _); done. }
  destruct F2 as [F2 K2].
  apply bind_ok in H as (b3 & w3 & H3 & H). apply write_text in H3 as (S3 & F3 & T3).
  2:{ unfold unlinked. rewrite F2, F1 by not_elem. exact U1. }
  apply bind_ok in H as (b4 & w4 & H4 & H). apply place_text in H4 as (S4 & F4 & T4).
  2:{ unfold unlinked. rewrite F3, F2, F1 by not_elem. exact U2. }
  apply bind_ok in H as (b5 & w5 & H5 & H). apply remove_gone in H5 as (S5 & F5 & N5).
  apply bind_ok in H as (b6 & w6 & H6 & H). apply remove_gone in H6 as (S6 & F6 & N6).
  apply bind_ok in H as ([] & w7 & H7 & H). apply reload_or_not_files in H7.
  apply pair_equal_spec in H as [_ <-]. unfold ruled. rewrite H7. clear H7.
  pose proof (same_keys_trans _ _ _ (same_keys_trans _ _ _ S3 S4) (same_keys_trans _ _ _ S5 S6)) as [-> _].
  unfold intact, generation_intact, text_at, gens_ready in *.
  split_and!; [done| | | | |done|].
  - by rewrite F6, F5, F4, F3, F2 by not_elem.
  - by rewrite F6, F5, F4 by not_elem.
  - by rewrite F6, F5 by not_elem.
  - by rewrite F6 by not_elem.
  - by rewrite F6, F5, F4, F3, F2 by not_elem.
Qed.

Lemma prove_settled_ok path w w' : prove_settled path w = (inr tt, w') → files w' = files w.
Proof.
  unfold prove_settled. intros H. apply bind_ok in H as (reasons & w1 & H1 & H).
  apply prove_spec in H1 as [<- _]. destruct reasons; [by apply pair_equal_spec in H as [_ <-]|].
  apply bind_ok in H as (? & w2 & _ & H). apply bind_ok in H as (? & w3 & _ & H).
  by apply bind_ok in H as (? & w4 & _ & H).
Qed.

#[local] Ltac in_list := unfold live_paths; repeat first [apply list_elem_of_here|apply list_elem_of_further].

Lemma clean_up_ok path w w' :
  clean_up path w = (inr tt, w') → link_clear path → ruled path w → settled path w'.
Proof.
  unfold clean_up. intros H (La & Lc & Lp) (K & I & R & A & N1 & N2 & (mode & uid & es & G)).
  apply bind_ok in H as (b & w1 & H1 & H). apply host_link_spec in H1 as (S1 & F1 & L1).
  specialize (L1 _ eq_refl).
  assert (Hl : ∀ p, p ∈ GENERATIONS :: live_paths (r_gen path) → fsw w1 !! p = fsw w !! p).
  { intros p Hp. apply F1. destruct (La p Hp) as [? ?]. intros Hq. by elem_cases Hq. }
  assert (G1 : fsw w1 !! GENERATIONS = Some (NDir mode uid es)) by (rewrite Hl; [done|by left]).
  apply bind_ok in H as (others & w2 & H2 & H).
  apply generations_spec in H2 as (-> & l & [= <-] & Hch & Hall); [|by eapply gens_wf_dir].
  apply bind_ok in H as ([] & w3 & H3 & H).
  apply remove_others_spec in H3 as (_ & S3 & F3 & N3 & _).
  rewrite (bind_run _ _ _ _ _ (gets_eq _ _)), set_fs_eq in H. apply pair_equal_spec in H as [_ <-].
  pose proof (same_keys_trans _ _ _ S1 S3) as [Ks _].
  assert (Hf : ∀ p, is_proof_dir p = false →
    filter (λ kn : string * node, is_proof_dir kn.1 = false) (fsw w3) !! p = fsw w3 !! p).
  { intros p Hp. rewrite map_lookup_filter. destruct (fsw w3 !! p); [|done]. cbn. by rewrite option_guard_True. }
  assert (Hlive : ∀ p, p ∈ live_paths (r_gen path) →
    filter (λ kn : string * node, is_proof_dir kn.1 = false) (fsw w3) !! p = fsw w !! p).
  { intros p Hp. rewrite Hf by (apply (is_proof_dir_live (r_gen path)); by right).
    rewrite F3; [apply Hl; by right|]. intros o _ Hne ->. unfold live_paths in Hp.
    elem_cases Hp; try discriminate. by apply Hne, gen_dir_inj. }
  unfold settled, set_fs_world, intact, generation_intact, text_at in *. cbn [files fs keys compose].
  rewrite Ks. rewrite !Hlive by in_list.
  split_and!; try done.
  - rewrite Hf by done. rewrite F3; [done|]. intros o Ho _ Heq. rewrite Heq, (Hch o Ho) in Lc. done.
  - intros p o Ho Hne. pose proof (child_of_gen _ _ Ho) as ->. rewrite map_lookup_filter.
    destruct (decide (o ∈ others)) as [Hin|Hin]; [by rewrite N3|].
    rewrite F3; [|by intros o' ? ? ->%gen_dir_inj]. destruct (fsw w1 !! gen_dir o) eqn:Hp; [|done].
    destruct Hin. apply (Hall _ _ Ho). by rewrite Hp.
  - intros p Hp. rewrite map_lookup_filter. destruct (fsw w3 !! p); [|done]. cbn.
    by rewrite option_guard_False by (rewrite Hp; done).
Qed.

(** What a move leaves of the main rule files and the generations. *)
Lemma move_ok path kb w w' :
  move path kb w = (inr tt, w') → keys_on (r_cfg path) (keys (files w)) = inr kb →
  word_of is_hex_char (r_gen path) = true → gens_wf (fsw w) →
  fsw w' !! SUDOERS = fsw w !! SUDOERS ∧ fsw w' !! ACCEPTENV = fsw w !! ACCEPTENV ∧ gens_wf (fsw w').
Proof.
  unfold move. intros H K Hg G.
  apply bind_ok in H as ([] & w1 & H1 & H).
  apply except_inv in H1 as [([] & H1 & _)|(? & ? & ? & ? & _ & _ & ?)]; [|done].
  pose proof (place_beside_spec _ kb _ _ _ K H1) as [K1 F1].
  assert (R1 : gens_ready (fsw w1)).
  { unfold place_beside in H1. apply bind_ok in H1 as (b1 & w2 & H2 & H1).
    apply install_ready in H2 as (R2 & _); [|done..]. apply bind_ok in H1 as (b2 & w3 & H3 & H1).
    apply host_write_spec in H3 as [_ H3]. apply bind_ok in H1 as (b3 & w4 & H4 & H1).
    apply place_sshd_spec in H4 as (_ & F4 & _). apply pair_equal_spec in H1 as [_ <-].
    unfold gens_ready in *. rewrite F4 by not_elem.
    destruct b2; [destruct H3 as [-> _]|by destruct H3 as [-> _]].
    by rewrite lookup_insert_ne, lookup_delete_ne by discriminate. }
  apply bind_ok in H as ([] & w2 & H2 & H).
  apply except_inv in H2 as [([] & H2 & _)|(? & ? & ? & ? & _ & _ & ?)]; [|done].
  apply (prove_placed_spec _ kb) in H2 as [K2 F2]; [|done].
  apply bind_ok in H as (b & w3 & H3 & H).
  apply except_inv in H3 as [(b' & H3 & _)|(? & ? & ? & ? & _ & _ & ?)]; [|done].
  apply (keys_write_spec _ _ _ _ _ kb) in H3 as (_ & _ & F3 & _); [|done].
  apply except_inv in H as [([] & H & _)|(? & ? & ? & ? & _ & _ & ?)]; [|done].
  apply prove_switched_spec in H. rewrite H. clear H.
  rewrite !F3. split_and!.
  - rewrite F2, F1; [done|unfold beside_paths; not_elem|done..].
  - rewrite F2, F1; [done|unfold beside_paths; not_elem|done..].
  - destruct R1 as (mode & uid & es & R). eapply gens_wf_dir. rewrite F2, R; done.
Qed.

Lemma retire_ok path w w' :
  retire path w = (inr tt, w') → word_of is_hex_char (r_gen path) = true → link_clear path →
  unlinked (fsw w) SUDOERS → unlinked (fsw w) ACCEPTENV → gens_wf (fsw w) → settled path w'.
Proof.
  unfold retire. intros H Hg L U1 U2 G. apply bind_ok in H as (t & w1 & H1 & H).
  apply settle_rules_ok in H1; [|done..]. apply bind_ok in H as ([] & w2 & H2 & H).
  apply clean_up_ok in H; [done|done|]. unfold ruled.
  assert (files w2 = files w1) as ->; [|done].
  destruct t; [by apply prove_settled_ok in H2|by apply pair_equal_spec in H2 as [_ <-]].
Qed.

(** * The generation's name *)

Lemma sforall_substring p n s : sforall p s = true → sforall p (String.substring 0 n s) = true.
Proof.
  revert s. induction n as [|n IH]; intros [|a s] H; try done. cbn in *.
  apply andb_prop in H as [-> H]. by apply IH.
Qed.
Lemma length_substring n s : (n ≤ String.length s)%nat → String.length (String.substring 0 n s) = n.
Proof.
  revert s. induction n as [|n IH]; intros [|a s] H; cbn in *; try done; [lia|]. rewrite IH; lia.
Qed.

Lemma generation_name cfg :
  sforall is_hex_char (generation cfg) = true ∧ String.length (generation cfg) = 12.
Proof.
  unfold generation. cbn zeta. generalize (foldr (λ p s, utf8 p +:+ String zero_char s) ""
    [text_of (cfg_entry cfg); text_of (cfg_dispatcher cfg); sudo_rule (runner_user cfg) "@DISPATCHER@" (names_of cfg);
     acceptenv_rule (runner_user cfg) (names_of cfg); key_line "@ENTRY@" "@KEY@" false ""]). intros s. split.
  - apply sforall_substring, sha256_hex_chars.
  - apply length_substring. rewrite length_sha256_hex. lia.
Qed.

Lemma generation_word cfg : word_of is_hex_char (generation cfg) = true.
Proof.
  destruct (generation_name cfg) as [Hs Hl]. unfold word_of. rewrite Hs. by destruct (generation cfg).
Qed.
#[local] Opaque generation.

(** * The switch *)

Lemma on_refused_inv {A} (c : ST world fault A) handler w a w' :
  on_refused c handler w = (inr a, w') →
  c w = (inr a, w') ∨ ∃ why w1, c w = (inl (Refused why), w1) ∧ handler why w1 = (inr a, w').
Proof. unfold on_refused. destruct (c w) as [[[why|]|b] w1]; intros H; eauto; by simplify_eq. Qed.

Lemma say_inv gen ok s w v w' :
  say gen ok s w = (inr v, w') → v_ok v = ok ∧ v_generation v = gen ∧ w' = w.
Proof.
  unfold say. rewrite (bind_run _ _ _ _ _ (gets_eq _ _)). intros H.
  by apply pair_equal_spec in H as [[= <-] <-].
Qed.

Lemma switch_from_ok path kb blob w v w' :
  switch_from path kb blob w = (inr v, w') → v_ok v = true →
  v_generation v = r_gen path ∧
  ∃ w1, retire path w1 = (inr tt, w') ∧
    ((running_generation (line_for kb blob) = r_gen path ∧ w1 = w) ∨ move path kb w = (inr tt, w1)).
Proof.
  unfold switch_from. cbn zeta. set (running := running_generation _).
  assert (Hfin : ∀ c : bool, ∀ w0, (ps ← (gets wrote : ST _ fault _);
      (if negb (bool_decide (running = r_gen path))
      then say (r_gen path) true ("the panel dispatches through generation " +:+ r_gen path +:+ ", proven, in place of " +:+ describe running)
      else if negb (bool_decide (ps = []))
      then say (r_gen path) true ("generation " +:+ r_gen path +:+ " is running; its rules, key line and link are in place, proven")
      else say (r_gen path) true ("generation " +:+ r_gen path +:+ " is running; nothing to change"))) w0 = (inr v, w') →
      v_generation v = r_gen path ∧ w' = w0).
  { intros _ w0 H. rewrite (bind_run _ _ _ _ _ (gets_eq _ _)) in H.
    destruct (negb _); [|destruct (negb _)]; apply say_inv in H as (_ & ? & ?); done. }
  assert (Hret : ∀ w1 handler, (∀ why w2, handler why w2 = (inr v, w') → v_ok v = false) →
    on_refused (_ ← retire path; ps ← (gets wrote : ST _ fault _);
      (if negb (bool_decide (running = r_gen path))
      then say (r_gen path) true ("the panel dispatches through generation " +:+ r_gen path +:+ ", proven, in place of " +:+ describe running)
      else if negb (bool_decide (ps = []))
      then say (r_gen path) true ("generation " +:+ r_gen path +:+ " is running; its rules, key line and link are in place, proven")
      else say (r_gen path) true ("generation " +:+ r_gen path +:+ " is running; nothing to change"))) handler w1 = (inr v, w') →
    v_ok v = true → v_generation v = r_gen path ∧ retire path w1 = (inr tt, w')).
  { intros w1 handler Hh H Hok. apply on_refused_inv in H as [H|(why & w2 & _ & H)].
    - apply bind_ok in H as ([] & w2 & H2 & H). apply (Hfin true) in H as [? ->]. done.
    - apply Hh in H. congruence. }
  intros H Hok. case_bool_decide as Hr.
  - apply Hret in H as [Hg H]; [|intros why w2 H2; by apply say_inv in H2 as (-> & _)|done].
    split; [done|]. exists w. split; [done|]. by left.
  - apply on_refused_inv in H as [H|(why & w2 & _ & H)].
    + apply bind_ok in H as ([] & w2 & H2 & H).
      apply Hret in H as [Hg H]; [|intros why w3 H3; by apply say_inv in H3 as (-> & _)|done].
      split; [done|]. exists w2. split; [done|]. by right.
    + apply say_inv in H as (Hf & _). congruence.
Qed.

Definition panel_path (cfg : config) (pub : string) : rendered :=
  render cfg (generation cfg) (panel_key_dir cfg +:+ "/id_ed25519") pub.

(** Claim C1: an ok verdict means the path is this tree's, whole, and nothing
    older is left.  The runner's keys hold the panel's line alone, made from
    the one ssh-ed25519 line the panel's public key file holds; the generation
    the verdict names has exactly this tree's two executables; the main sudo
    and AcceptEnv rules are its rules and no -next rule is left; the link
    points at its dispatcher; no other generation and no proof key directory
    stands. *)
Theorem switch_ok_state cfg w v w' :
  switch cfg w = (inr v, w') → v_ok v = true →
  unlinked (fsw w) SUDOERS → unlinked (fsw w) ACCEPTENV → gens_wf (fsw w) →
  link_clear (panel_path cfg "") →
  ∃ pub, read_node 40 (fsw w) (panel_key_dir cfg +:+ "/id_ed25519.pub") = inr (Some pub) ∧
    panel_key_ok (strip pub) = true ∧ v_generation v = generation cfg ∧
    settled (panel_path cfg (strip pub)) w'.
Proof.
  intros H Hok U1 U2 G L. unfold switch in H. cbn zeta in H.
  destruct (negb (bool_decide (passthrough_problem _ = ""))).
  { apply pair_equal_spec in H as [[= <-] <-]. done. }
  apply bind_ok in H as (pub & w1 & H1 & H). apply pair_equal_spec in H1 as [Hpub <-].
  rewrite <-string_app_assoc in Hpub. change ("/id_ed25519" +:+ ".pub") with "/id_ed25519.pub" in Hpub.
  case_bool_decide as Hb; [apply say_inv in H as [Hf _]; congruence|].
  destruct pub as [pub|]; [|done]. cbn [default from_option id] in *.
  destruct (panel_key_ok (strip pub)) eqn:Hk; cbn [negb] in H; [|apply say_inv in H as [Hf _]; congruence].
  exists pub. apply on_refused_inv in H as [H|(why & w2 & _ & H)]; [|apply say_inv in H as [Hf _]; congruence].
  split; [done|]. split; [done|].
  apply bind_ok in H as ([] & w2 & H2 & H).
  assert (w2 = w) as ->.
  { unfold keys_open in H2. rewrite (bind_run _ _ _ _ _ (gets_eq _ _)) in H2.
    destruct (ssh (files w)); [done..|]. case_bool_decide; [|done]. by apply pair_equal_spec in H2 as [_ <-]. }
  apply bind_ok in H as (kb & w3 & H3 & H). rewrite keys_read_eq in H3. apply pair_equal_spec in H3 as [K <-].
  apply switch_from_ok in H as (Hg & w1 & Hr & Hm); [|done]. split; [done|].
  destruct Hm as [[_ ->]|Hm].
  - by apply retire_ok in Hr; [|apply generation_word|..].
  - apply move_ok in Hm as (E1 & E2 & G1); [|done|apply generation_word|done].
    apply retire_ok in Hr; [done|apply generation_word|done|..]; unfold unlinked in *; [by rewrite E1|by rewrite E2|done].
Qed.

(** * The panel's line, read back *)

Lemma b64_not_space a : is_b64_char a = true → is_space a = false.
Proof.
  unfold is_b64_char, is_alnum, is_digit, is_lower, is_upper, is_char, is_space, code_in.
  rewrite !orb_true_iff, !bool_decide_eq_true, !andb_true_iff, !N.leb_le.
  intros [[[[H|H]|H]|<-]|<-]; [..|done|done]; rewrite !orb_false_iff, !andb_false_iff, !N.leb_gt, !N.eqb_neq; lia.
Qed.

(** What the pattern of the panel's public key gives: no line break in it, and
    a second word. *)
Lemma panel_key_shape pub :
  panel_key_ok pub = true →
  sforall (λ c, negb (is_break c)) pub = true ∧ key_blob pub ∈ words pub ∧ key_blob pub ≠ "".
Proof.
  unfold panel_key_ok. destruct (strip_prefix "ssh-ed25519 " pub) as [r|] eqn:Hp; [|done].
  apply strip_prefix_inv in Hp as ->.
  destruct (span_of is_b64_char r) as [b r1] eqn:H1. apply span_of_inv in H1 as [-> B1].
  destruct (span_of (is_char "=") r1) as [e r2] eqn:H2. apply span_of_inv in H2 as [-> B2].
  intros [Hb H3]%andb_prop. apply negb_true_iff, bool_decide_eq_false in Hb.
  assert (Hnb : ∀ p s, (∀ a, p a = true → is_space a = false) → sforall p s = true →
    sforall (λ c, negb (is_break c)) s = true).
  { intros p s Hs. apply sforall_impl. intros a Ha%Hs. by rewrite break_space. }
  split.
  - rewrite !sforall_app. apply andb_true_intro; split; [done|].
    apply andb_true_intro; split; [by apply (Hnb is_b64_char), B1; apply b64_not_space|].
    apply andb_true_intro; split.
    + refine (Hnb (is_char "=") e _ B2). unfold is_char. by intros a <-%bool_decide_eq_true.
    + destruct r2 as [|a r2]; [done|]. apply andb_prop in H3 as [Ha [_ H3]%andb_prop].
      unfold is_char in Ha. apply bool_decide_eq_true in Ha as <-. cbn [sforall].
      apply andb_true_intro; split; [done|]. refine (Hnb _ _ _ H3). intros c. apply negb_true_iff.
  - assert (Hw : words ("ssh-ed25519 " +:+ b +:+ e +:+ r2) = "ssh-ed25519" :: words (b +:+ e +:+ r2)).
    { change ("ssh-ed25519 " +:+ ?s) with ("ssh-ed25519" +:+ String " " s). by rewrite words_app. }
    unfold key_blob. rewrite Hw. destruct (words (b +:+ e +:+ r2)) as [|w ws] eqn:Hws.
    + destruct b as [|a b]; [done|]. cbn [sforall] in B1. apply andb_prop in B1 as [Ha _].
      cbn [String.append] in Hws. by apply words_cons in Hws; [|apply b64_not_space].
    + cbn. split; [apply list_elem_of_further, list_elem_of_here|].
      apply (words_go_ne "" (b +:+ e +:+ r2)). fold (words (b +:+ e +:+ r2)). rewrite Hws. by left.
Qed.

Lemma sforall_hex_plain p s :
  (∀ a, is_hex_char a = true → p a = true) → sforall is_hex_char s = true → sforall p s = true.
Proof. intros Hp. by apply sforall_impl. Qed.

Lemma entry_plain gen : sforall is_hex_char gen = true →
  sforall (λ c, negb (is_break c)) (entry_path gen) = true ∧
  sforall (λ a, negb (is_char dq a) && negb (is_char bs a)) (entry_path gen) = true.
Proof.
  intros Hg. unfold entry_path, gen_dir. rewrite !sforall_app. split.
  - rewrite (sforall_hex_plain _ gen); [done| |done]. intros a Ha.
    by rewrite break_space by (by apply is_hex_char_not_space).
  - rewrite (sforall_hex_plain _ gen); [done| |done]. intros a Ha. unfold is_char.
    rewrite !bool_decide_false; [done|..]; by intros <-.
Qed.

Lemma generation_of_entry_path gen :
  sforall is_hex_char gen = true → String.length gen = 12 → generation_of_entry (entry_path gen) = Some gen.
Proof.
  intros Hs Hl. unfold generation_of_entry, entry_path, gen_dir.
  rewrite <-!string_app_assoc. change (GENERATIONS +:+ "/" +:+ ?s) with ((GENERATIONS +:+ "/") +:+ s).
  rewrite strip_prefix_app. cbn [mbind option_bind]. rewrite <-Hl, substring_app.
  rewrite (bool_decide_true (String.length gen = String.length gen)), Hs, bool_decide_true by done. done.
Qed.

Lemma panel_line_runs gen pub :
  sforall is_hex_char gen = true → String.length gen = 12 → panel_key_ok pub = true →
  running_generation (line_for (Some (HEADER +:+ key_line (entry_path gen) pub false "" +:+ newline_str)) (key_blob pub))
  = gen.
Proof.
  intros Hs Hl Hk. destruct (panel_key_shape pub Hk) as (Hb & Hin & _).
  destruct (entry_plain gen Hs) as [He1 He2].
  assert (Hline : line_for (Some (HEADER +:+ key_line (entry_path gen) pub false "" +:+ newline_str)) (key_blob pub)
    = Some (key_line (entry_path gen) pub false "")).
  { unfold line_for. cbn [default from_option id]. unfold HEADER.
    rewrite <-string_app_assoc. change (String nl "" +:+ ?s) with (String nl s). rewrite splitlines_app by done.
    unfold newline_str. rewrite splitlines_app.
    2:{ unfold key_line. rewrite (bool_decide_true ("" = "")) by done. unfold quoted.
        change (String dq (entry_path gen +:+ String dq "")) with (String dq "" +:+ entry_path gen +:+ String dq "").
        rewrite !sforall_app, He1, Hb. done. }
    cbn [List.filter]. change (splitlines "") with (@nil string).
    replace (carries_key (key_blob pub) _) with false.
    2:{ unfold carries_key. by rewrite andb_false_intro1 by (apply andb_false_intro2; reflexivity). }
    replace (carries_key _ _) with true; [done|]. symmetry. unfold carries_key.
    apply andb_true_intro; split.
    + unfold key_line. rewrite (bool_decide_true ("" = "")) by done. cbn [String.append].
      apply andb_true_intro; split; [|done]. apply negb_true_iff, bool_decide_eq_false.
      unfold strip, strip_of. cbn [rstrip_of]. destruct (rstrip_of _ _); [destruct (is_space "c") eqn:Hc|]; done.
    + apply bool_decide_eq_true. unfold key_line. rewrite !string_app_assoc.
      change (?a +:+ " " +:+ pub) with (a +:+ String " " pub). rewrite <-string_app_assoc.
      change (" " +:+ pub) with (String " " pub). rewrite words_app, elem_of_app. by right. }
  rewrite Hline. cbn [running_generation].
  assert (key_line (entry_path gen) pub false "" =
    ("command=" +:+ String dq "") +:+ (entry_path gen +:+ String dq ("," +:+ KEY_OPTIONS +:+ " " +:+ pub))) as ->.
  { unfold key_line, quoted. rewrite (bool_decide_true ("" = "")) by done.
    cbn [String.append]. by rewrite <-(string_app_assoc (entry_path gen)). }
  unfold command_of, command_here. rewrite strip_prefix_app. cbn [mbind option_bind].
  rewrite quoted_body_plain by done. cbn [mbind option_bind].
  by rewrite generation_of_entry_path.
Qed.

(** * A second run *)

Lemma holding_write path text mode check w :
  text_at (fsw w) path = Some text → host_write path text mode check w = (inr false, w).
Proof.
  intros T. assert (R : read_node 40 (fsw w) path = inr (Some text)).
  { unfold text_at in T. unfold read_node. destruct (fsw w !! path) as [[]|]; by simplify_eq. }
  unfold host_write. rewrite (bind_run _ _ w (Some text) w) by (unfold host_read; by rewrite R).
  by rewrite bool_decide_true.
Qed.

Lemma holding_place path text w :
  text_at (fsw w) path = Some text → place_sshd path text w = (inr false, w).
Proof.
  intros T. assert (R : read_node 40 (fsw w) path = inr (Some text)).
  { unfold text_at in T. unfold read_node. destruct (fsw w !! path) as [[]|]; by simplify_eq. }
  unfold place_sshd. rewrite (bind_run _ _ w (Some text) w) by (unfold host_read; by rewrite R).
  by rewrite (bind_run _ _ _ _ _ (holding_write _ _ _ _ _ T)).
Qed.

Lemma absent_remove path w : fsw w !! path = None → host_remove path w = (inr false, w).
Proof.
  intros N. unfold host_remove. rewrite (bind_run _ _ _ _ _ (gets_eq _ _)). cbn [compose]. by rewrite N.
Qed.

Lemma settled_rules_quiet path w : settled path w → settle_rules path w = (inr false, w).
Proof.
  intros (K & I & R & A & N1 & N2 & _). unfold settle_rules.
  rewrite (bind_run _ _ w false w).
  2:{ unfold install_generation. rewrite (bind_run _ _ _ _ _ (gets_eq _ _)). unfold intact in I. cbn [compose].
      by rewrite I. }
  rewrite (bind_run _ _ w false w).
  2:{ unfold keys_write. rewrite (bind_run _ _ w _ w) by (by rewrite keys_read_eq, K). by rewrite bool_decide_true. }
  rewrite (bind_run _ _ _ _ _ (holding_write _ _ _ _ _ R)), (bind_run _ _ _ _ _ (holding_place _ _ _ A)).
  by rewrite (bind_run _ _ _ _ _ (absent_remove _ _ N1)), (bind_run _ _ _ _ _ (absent_remove _ _ N2)).
Qed.

Lemma settled_clean_up_quiet path w : settled path w → gens_wf (fsw w) → clean_up path w = (inr tt, w).
Proof.
  intros (_ & _ & _ & _ & _ & _ & L & O & P) G. unfold clean_up.
  rewrite (bind_run _ _ w false w).
  2:{ unfold host_link. rewrite (bind_run _ _ _ _ _ (gets_eq _ _)). cbn [compose]. rewrite L.
      by rewrite bool_decide_true. }
  destruct (generations w) as [r w1] eqn:Hg. pose proof Hg as Hg'.
  apply generations_spec in Hg' as (-> & l & -> & Hch & Hall); [|done].
  rewrite (bind_run _ _ _ _ _ Hg).
  destruct (remove_others (r_gen path) l w) as [r w1] eqn:Hr. pose proof Hr as Hr'.
  apply remove_others_spec in Hr' as (-> & _ & _ & _ & Hi).
  assert (w1 = w) as ->.
  { apply Hi. right. intros o Ho. destruct (decide (o = r_gen path)) as [|Hne]; [done|].
    apply (Hall _ _ (Hch o Ho)) in Ho as Hs. rewrite (O _ _ (Hch o Ho) Hne) in Hs. by destruct Hs. }
  rewrite (bind_run _ _ _ _ _ Hr), (bind_run _ _ _ _ _ (gets_eq _ _)), set_fs_eq. cbn [compose].
  rewrite map_filter_id.
  - unfold set_fs_world. by destruct w as [[f s k] wr e].
  - intros p n Hn. cbn. destruct (is_proof_dir p) eqn:Hp; [|done]. by rewrite P in Hn.
Qed.

(** Claim C4: a settled path is left alone.  When the panel's line, the
    executables, the rules and the link are this tree's and nothing older is
    left, a run answers that the generation is running with nothing to change:
    no file is written, no command is run, no randomness or clock is read, and
    the verdict is ok with nothing changed and nothing in what was written. *)
Theorem switch_idempotent cfg pub uid w :
  passthrough_problem (cfg_passthrough cfg) = "" →
  read_node 40 (fsw w) (panel_key_dir cfg +:+ "/id_ed25519.pub") = inr (Some pub) →
  panel_key_ok (strip pub) = true →
  ssh (files w) = SshDir uid → uid = (ids (runner_user cfg)).1 →
  settled (panel_path cfg (strip pub)) w → gens_wf (fsw w) → wrote w = [] →
  switch cfg w = (inr {| v_ok := true; v_changed := false; v_generation := generation cfg; v_wrote := [];
                         v_summary := "generation " +:+ generation cfg +:+ " is running; nothing to change" |}, w).
Proof.
  intros Hn Hp Hk Hs Hu S G Hw. destruct (panel_key_shape _ Hk) as (_ & _ & Hb).
  destruct (generation_name cfg) as [Hg1 Hg2]. unfold switch. cbn zeta. rewrite Hn.
  rewrite (bool_decide_true ("" = "")) by done. cbn [negb].
  rewrite (bind_run _ _ w (Some pub) w).
  2:{ unfold host_read. rewrite <-string_app_assoc.
      change ("/id_ed25519" +:+ ".pub") with "/id_ed25519.pub". by rewrite Hp. }
  cbn [default from_option id]. rewrite bool_decide_false by done. rewrite Hk. cbn [negb].
  unfold on_refused at 1. rewrite (bind_run _ _ w tt w).
  2:{ unfold keys_open. rewrite (bind_run _ _ _ _ _ (gets_eq _ _)), Hs. by rewrite bool_decide_true. }
  pose proof S as (K & _). rewrite (bind_run _ _ w (Some (r_panel_keys (panel_path cfg (strip pub)))) w).
  2:{ rewrite keys_read_eq. by rewrite <-K. }
  unfold switch_from. cbn zeta.
  assert (Hrun : running_generation (line_for (Some (r_panel_keys (panel_path cfg (strip pub)))) (key_blob (strip pub)))
    = generation cfg) by by apply panel_line_runs.
  rewrite Hrun. cbn [render r_gen]. rewrite (bool_decide_true (generation cfg = _)) by done. cbn [negb].
  unfold on_refused. rewrite (bind_run _ _ w tt w).
  2:{ unfold retire. rewrite (bind_run _ _ w false w) by by apply settled_rules_quiet.
      rewrite (bind_run _ _ w tt w) by done. by apply settled_clean_up_quiet. }
  rewrite (bind_run _ _ _ _ _ (gets_eq _ _)), Hw, (bool_decide_true (@nil string = [])) by done. cbn [negb].
  unfold say. rewrite (bind_run _ _ _ _ _ (gets_eq _ _)), Hw. done.
Qed.

(** * The passthrough names *)

Definition name_char (a : ascii) : bool := is_upper a || is_char "_" a.

Lemma split_chars c p s :
  forallb (sforall p) (split c s) = true → sforall (λ a, p a || is_char c a) s = true.
Proof.
  induction s as [|a s IH]; [done|]. cbn [split]. case_bool_decide as Ha.
  - subst. cbn [forallb sforall andb]. unfold is_char at 1. by rewrite bool_decide_true, orb_true_r by done.
  - destruct (split c s) as [|w ws]; cbn [forallb sforall] in *.
    + by intros [[-> _]%andb_prop _]%andb_prop; rewrite IH.
    + intros [[-> Hw]%andb_prop Hws]%andb_prop. by rewrite IH by (by rewrite Hw, Hws).
Qed.

Lemma passthrough_name_chars name :
  passthrough_name name = true →
  sforall name_char name = true ∧ (startswith name "X_FORWARDED_" = true ∨ startswith name "CATENA_" = true).
Proof.
  unfold passthrough_name. destruct (strip_prefix "X_FORWARDED_" name) as [r|] eqn:H1.
  - apply strip_prefix_inv in H1 as ->. intros [_ H]%andb_prop. rewrite sforall_app, startswith_app.
    split; [|by left]. apply andb_true_intro; split; [done|].
    refine (sforall_impl _ _ _ _ H). intros a Ha. unfold name_char. by rewrite Ha.
  - destruct (strip_prefix "CATENA_" name) as [r|] eqn:H2; [|done].
    apply strip_prefix_inv in H2 as ->. intros H. rewrite sforall_app, startswith_app.
    split; [|by right]. apply andb_true_intro; split; [done|]. apply split_chars.
    rewrite forallb_forall in *. intros x Hx%H. by apply andb_prop in Hx as [_ ?].
Qed.

Lemma allowed_names l :
  List.filter (λ v, negb (name_allowed v)) l = [] →
  l = map VStr (omap as_str l) ∧
  ∀ n, n ∈ omap as_str l → passthrough_name n = true ∧ n ∉ FORBIDDEN_NAMES.
Proof.
  induction l as [|v l IH]; [split; [done|by intros n ?%elem_of_nil]|]. cbn [List.filter].
  destruct (name_allowed v) eqn:Hv; cbn [negb]; [|done]. intros [Hl Hn]%IH.
  destruct v; try done. cbn in *. apply andb_prop in Hv as [Hp Hf].
  apply negb_true_iff, bool_decide_eq_false in Hf. split; [by rewrite <-Hl|].
  intros n [->|Hin]%elem_of_cons; auto.
Qed.

(** Only safe names reach sudoers and sshd.  A switch that does
    anything at all runs with a list of names, every one of them spelt with
    capital letters and underscores alone after X_FORWARDED_ or CATENA_ (so no
    wildcard, space, quote or line break), and none of them a name that points
    a root script at code; with any other input it changes no file, runs no
    command and refuses. *)
Theorem passthrough_safe cfg w :
  (∃ v, v_ok v = false ∧ v_changed v = false ∧ switch cfg w = (inr v, w)) ∨
  cfg_passthrough cfg = VList (map VStr (names_of cfg)) ∧
  ∀ n, n ∈ names_of cfg →
    sforall name_char n = true ∧ (startswith n "X_FORWARDED_" = true ∨ startswith n "CATENA_" = true) ∧ n ∉ FORBIDDEN_NAMES.
Proof.
  destruct (decide (passthrough_problem (cfg_passthrough cfg) = "")) as [Hp|Hp].
  - right. unfold names_of. unfold passthrough_problem in Hp. destruct (cfg_passthrough cfg); try done.
    destruct (List.filter _ _) eqn:Hf; [|done]. apply allowed_names in Hf as [Hl Hn].
    split; [by rewrite <-Hl|]. intros n [H1 H2]%Hn. apply passthrough_name_chars in H1 as [? ?]. done.
  - left. exists {| v_ok := false; v_changed := false; v_generation := ""; v_wrote := [];
                    v_summary := passthrough_problem (cfg_passthrough cfg) |}.
    split; [done|]. split; [done|]. unfold switch. cbn zeta. by rewrite bool_decide_false.
Qed.
End facts.

(** * A concrete host *)

#[local] Ltac not_linked := intros to; vm_compute; discriminate.

Module Sample.
(** Outside a host whose [sshd] and [sudo] run the generation a state names:
    the proof is answered for it, and a longer request is refused by the
    entry.  An empty state is a host whose [visudo] refuses every rule. *)
#[local] Instance outside : Outside string := {
  run_cmd argv _ e :=
    (if bool_decide (head argv = Some VISUDO) then
       if bool_decide (e = "") then Completed 1 "" "syntax error" else Completed 0 "" ""
     else if bool_decide (head argv = Some SSH) then
       if bool_decide (last argv = Some PROOF_ACTION)
       then Completed 0 (PROOF_ACTION +:+ " " +:+ e +:+ newline_str +:+ "arrived CATENA_ROLE" +:+ newline_str) ""
       else Completed 2 "" (ENTRY_REFUSAL +:+ " more than one word")
     else Completed 0 "" "", e);
  read_pub _ _ := Some "ssh-ed25519 AAAAB3proof";
  token_hex16 e := ("00112233445566778899aabbccddeeff", e);
  mkdtemp_suffix e := ("k3y", e);
  expiry _ := "20260101000000Z";
  ids user := if bool_decide (user = "root") then (0, 0)%Z else (1001, 1001)%Z
}.

Definition cfg : config := {|
  runner_user := "catena"; runner_home := "/home/catena"; panel_key_dir := "/srv/panel/ssh";
  cfg_link := "/usr/local/sbin/catena-admin-dispatch"; cfg_passthrough := VList [VStr "CATENA_ROLE"];
  cfg_entry := "#!/bin/sh"; cfg_dispatcher := "#!/bin/bash" |}.
Definition pub : string := "ssh-ed25519 AAAAC3panel panel@host".
Definition gen : string := Eval vm_compute in generation cfg.
Definition path : rendered := render cfg gen "/srv/panel/ssh/id_ed25519" pub.
Lemma path_eq : panel_path cfg (strip (pub +:+ newline_str)) = path.
Proof.
  unfold panel_path, path. replace (generation cfg) with gen by (vm_compute; reflexivity).
  replace (strip _) with pub by (vm_compute; reflexivity). reflexivity.
Qed.

(** A host with the panel's key and an empty [~/.ssh]. *)
Definition start (e : string) : @world string := {|
  files := {| fs := {["/srv/panel/ssh/id_ed25519.pub" := NFile (pub +:+ newline_str) 420 0]};
              ssh := SshDir 1001; keys := None |};
  wrote := []; ext := e |}.

Definition said_ok (r : fault + verdict) : bool := match r with inr v => v_ok v | inl _ => false end.

(** The same host with the path of [cfg] running: its rules in the main files,
    or still in the -next ones, the link not yet moved. *)
Definition running_files (next : bool) : list (string * node) :=
    ([("/srv/panel/ssh/id_ed25519.pub", NFile (pub +:+ newline_str) 420 0);
      (gen_dir (r_gen path), NDir 493 0 [("entry", NFile (r_entry path) 493 0); ("dispatcher", NFile (r_dispatcher path) 493 0)]);
      (GENERATIONS, NDir 493 0 [])] ++
     (if next then [(SUDOERS_NEXT, NFile (r_rule path) 288 0); (ACCEPTENV_NEXT, NFile (r_accept path) 420 0)]
      else [(SUDOERS, NFile (r_rule path) 288 0); (ACCEPTENV, NFile (r_accept path) 420 0);
            (cfg_link cfg, NLink (dispatcher_path (r_gen path)))]))%list.
Definition running (next : bool) (e : string) : @world string := {|
  files := {| fs := list_to_map (running_files next); ssh := SshDir 1001; keys := Some (KFile (r_panel_keys path) 1001 1) |};
  wrote := []; ext := e |}.

(** What a tree with another entry writes. *)
Definition newer_cfg : config := {|
  runner_user := "catena"; runner_home := "/home/catena"; panel_key_dir := "/srv/panel/ssh";
  cfg_link := "/usr/local/sbin/catena-admin-dispatch"; cfg_passthrough := VList [VStr "CATENA_ROLE"];
  cfg_entry := "#!/bin/sh -e"; cfg_dispatcher := "#!/bin/bash" |}.
Definition newer_gen : string := Eval vm_compute in generation newer_cfg.
Definition newer : rendered := render newer_cfg newer_gen "/srv/panel/ssh/id_ed25519" pub.

Lemma running_next_serves e : serves path (running true e) ∧ plain_rules (fs (files (running true e))).
Proof.
  split; [split; [|split; [|split]]|split_and!; not_linked].
  - vm_compute. reflexivity.
  - vm_compute. reflexivity.
  - right. vm_compute. reflexivity.
  - right. vm_compute. reflexivity.
Qed.

Lemma running_serves e : serves path (running false e).
Proof. split; [|split; [|split]]; [vm_compute; reflexivity..|left; vm_compute; reflexivity|left; vm_compute; reflexivity]. Qed.

Lemma running_forall (P : string → bool) p n :
  forallb P (map fst (running_files false)) = true → fs (files (running false "")) !! p = Some n → P p = true.
Proof.
  intros Hall Hn. rewrite forallb_forall in Hall. apply Hall, list_elem_of_In.
  unfold running in Hn. cbn [files fs] in Hn. apply elem_of_list_to_map_2 in Hn.
  exact (list_elem_of_fmap_2 fst _ _ Hn).
Qed.

Lemma sample_link_clear g p : link_clear (render cfg g "/srv/panel/ssh/id_ed25519" p).
Proof.
  split; [|split; reflexivity]. intros q Hp. unfold live_paths in Hp. elem_cases Hp; split; vm_compute; discriminate.
Qed.
End Sample.

Section witnesses.
Import Sample.
#[local] Existing Instance outside.

(** A move to [newer] over the running path, whose rules stand in the main
    files, fails, and the running path goes on serving. *)
Lemma move_failure_restores_witness :
  ∃ e w', move newer (Some (r_panel_keys path)) (running false "") = (inl e, w') ∧ serves path w'
  ∧ fs (files w') !! gen_dir newer_gen = None.
Proof.
  destruct (move newer (Some (r_panel_keys path)) (running false "")) as [[e|[]] w'] eqn:H.
  - exists e, w'. destruct (move_failure_restores (Outside0 := outside) newer (Some (r_panel_keys path)) (running false "") e w'
      ltac:(vm_compute; reflexivity) H) as (_ & _ & _ & N & _ & _ & _ & S).
    split; [reflexivity|]. split; [|exact N].
    apply S; [apply running_serves|reflexivity|reflexivity| |vm_compute; reflexivity|vm_compute; reflexivity].
    apply (bool_decide_unpack _). vm_compute. exact I.
  - exfalso. assert (Hf : (move newer (Some (r_panel_keys path)) (running false "")).1 = inr tt) by (rewrite H; reflexivity).
    vm_compute in Hf. discriminate.
Defined.

Lemma retire_never_strands_witness :
  ∃ r w', retire path (running true "") = (r, w') ∧ serves path w' ∧ plain_rules (fs (files w')).
Proof.
  destruct (retire path (running true "")) as [r w'] eqn:H. exists r, w'. split; [reflexivity|].
  exact (retire_never_strands path _ r w' (proj1 (running_next_serves "")) (proj2 (running_next_serves ""))
           (proj1 (sample_link_clear gen pub)) H).
Defined.

Lemma failed_move_drops_rule_witness :
  ∃ e w', move newer (Some (r_panel_keys path)) (running true "") = (inl e, w') ∧
    text_at (fs (files w')) SUDOERS ≠ Some (r_rule path) ∧ text_at (fs (files w')) SUDOERS_NEXT ≠ Some (r_rule path).
Proof.
  destruct (move newer (Some (r_panel_keys path)) (running true "")) as [[e|[]] w'] eqn:H.
  - exists e, w'. split; [reflexivity|].
    refine (proj2 (failed_move_drops_rule path newer _ _ e w' (proj1 (running_next_serves "")) eq_refl eq_refl _ eq_refl H)).
    vm_compute. discriminate.
  - exfalso. assert (Hf : (move newer (Some (r_panel_keys path)) (running true "")).1 = inr tt) by (rewrite H; reflexivity).
    vm_compute in Hf. discriminate.
Defined.

Lemma switch_ok_state_witness :
  ∃ v w', switch cfg (start (generation cfg)) = (inr v, w') ∧ v_ok v = true ∧
    ∃ pub, settled (panel_path cfg (strip pub)) w'.
Proof.
  assert (Hok : said_ok (switch cfg (start (generation cfg))).1 = true) by (vm_compute; reflexivity).
  destruct (switch cfg (start (generation cfg))) as [[e|v] w'] eqn:H; [discriminate|].
  exists v, w'. split; [reflexivity|]. split; [exact Hok|].
  refine (match switch_ok_state cfg _ v w' H Hok _ _ _ (sample_link_clear (generation cfg) "") with
          | ex_intro _ p (conj _ (conj _ (conj _ Hs))) => ex_intro _ p Hs end).
  - not_linked.
  - not_linked.
  - intros p o n Hc Hn. unfold start in Hn. cbn [files fs] in Hn.
    apply lookup_singleton_Some in Hn as [<- _]. discriminate.
Defined.

Lemma switch_idempotent_witness :
  (switch cfg (running false "")).2 = running false "" ∧ settled path (running false "").
Proof.
  assert (S : settled path (running false "")).
  { split; [vm_compute; reflexivity|]. split; [vm_compute; reflexivity|]. split; [vm_compute; reflexivity|].
    split; [vm_compute; reflexivity|]. split; [vm_compute; reflexivity|]. split; [vm_compute; reflexivity|].
    split; [vm_compute; reflexivity|]. split.
    - intros p o Hc Hne. destruct (fs (files (running false "")) !! p) as [n|] eqn:Hn; [exfalso|reflexivity].
      apply (running_forall (λ p, match child_of GENERATIONS p with
             | Some o => bool_decide (o = r_gen path) | None => true end)) in Hn; [|vm_compute; reflexivity].
      cbv beta in Hn. rewrite Hc in Hn. apply bool_decide_eq_true in Hn. contradiction.
    - intros p Hp. destruct (fs (files (running false "")) !! p) as [n|] eqn:Hn; [exfalso|reflexivity].
      apply (running_forall (λ p, negb (is_proof_dir p))) in Hn; [|vm_compute; reflexivity].
      cbv beta in Hn. rewrite Hp in Hn. discriminate. }
  split; [|exact S].
  rewrite (switch_idempotent cfg (pub +:+ newline_str) 1001 (running false "")); [reflexivity|vm_compute; reflexivity|
    vm_compute; reflexivity|vm_compute; reflexivity|reflexivity|reflexivity|rewrite path_eq; exact S| |reflexivity].
  apply (gens_wf_dir _ 493 0%Z []). vm_compute. reflexivity.
Defined.
End witnesses.
