(* ===== verification/LayerTree.v ===== *)
(** [ansible/helpers/fetch_release.py], the unpacking half: a layer's members
    applied to a staging tree, the vetting of its links, and the move of the
    finished trees into place.  A path inside the image is the list of its
    components ([_member_path] drops the empty and [.] ones, and every later
    use splits at the slashes again); a tree maps every path below its root to
    what is there.  A hard link is a second name for a file nobody writes
    again, so it is a copy. *)
From S2P Require Import Prelude PyStr.

#[local] Open Scope string_scope.

Abbreviation path := (list string).

Inductive node :=
  | Dir (mode : Z)
  | File (data : string) (mode : Z)
  | Sym (to : string).
Abbreviation tree := (gmap path node).

(** * Names *)

(** The parts of a name: no empty one and no [.]. *)
Definition plain_part (p : string) : bool := negb (bool_decide (p = "")) && negb (bool_decide (p = ".")).
Definition parts_of (name : string) : path := List.filter plain_part (split "/" name).

Definition member_path (name : string) : res path :=
  if startswith name "/" then Raise FetchError else
  let parts := parts_of name in
  if bool_decide (".." ∈ parts) then Raise FetchError else Ok parts.

(** [_under] *)
Fixpoint under (p prefix : path) {struct prefix} : bool :=
  match prefix, p with
  | [], _ => true
  | x :: prefix, y :: p => bool_decide (x = y) && under p prefix
  | _ :: _, [] => false
  end.
Definition wanted (prefixes : list path) (p : path) : bool := existsb (under p) prefixes.

(** [_prefixes], the requested paths vetted, each once, none inside another. *)
Definition prefix_step (out : list path) (raw : string) : res (list path) :=
  let parts := parts_of raw in
  if bool_decide (parts = []) || bool_decide (".." ∈ parts) then Raise FetchError
  else Ok (if bool_decide (parts ∈ out) then out else out ++ [parts])%list.
Definition prefixes_of (raws : list string) : res (list path) :=
  out ← foldM prefix_step [] raws;
  Ok (List.filter (λ p, negb (existsb (λ q, negb (bool_decide (p = q)) && under p q) out)) out).

(** [path.rpartition("/")] of a path with a last component. *)
Definition leaf_of (p : path) : string := List.last p "".
Definition parent_of (p : path) : path := removelast p.

(** * A tree *)

Fixpoint real_dir_from (create : bool) (t : tree) (here rel : path) : res (tree * bool) :=
  match rel with
  | [] => Ok (t, true)
  | part :: rel =>
      let here := (here ++ [part])%list in
      match t !! here with
      | Some (Dir _) => real_dir_from create t here rel
      | None => if create then real_dir_from create (<[here := Dir 493]> t) here rel else Ok (t, false)
      | Some n =>
          if negb create then Ok (t, false) else
          match n with
          | Sym _ => Raise FetchError
          | _ => real_dir_from create (<[here := Dir 493]> t) here rel
          end
      end
  end.
(** [_real_dir(..., create=True)] and [create=False]. *)
Definition make_dirs (t : tree) (rel : path) : res tree :=
  '(t, _) ← real_dir_from true t [] rel; Ok t.
Fixpoint is_real_dir_from (t : tree) (here rel : path) : bool :=
  match rel with
  | [] => true
  | part :: rel =>
      let here := (here ++ [part])%list in
      match t !! here with Some (Dir _) => is_real_dir_from t here rel | _ => false end
  end.
Definition is_real_dir (t : tree) (rel : path) : bool := is_real_dir_from t [] rel.

(** [_clear]: the entry and all that is below it. *)
Definition clear (t : tree) (p : path) : tree :=
  match t !! p with
  | Some (Dir _) => filter (λ kn, under kn.1 p = false) t
  | Some _ => delete p t
  | None => t
  end.

(** [_empty]'s children, cleared. *)
Definition empty (t : tree) (rel : path) : tree :=
  if is_real_dir t rel
  then filter (λ kn, under kn.1 rel = false ∨ kn.1 = rel) t
  else t.

(** [_remove]: the name comes from a whiteout, and is not vetted.  [.] is the
    directory itself; removing [..] empties it and then fails, its own name
    gone with what was inside. *)
Definition remove (t : tree) (parent : path) (leaf : string) : res tree :=
  if is_real_dir t parent then
    if bool_decide (leaf = "..") then Raise OSError
    else if bool_decide (leaf = ".")
    then if bool_decide (parent = []) then Raise OSError else Ok (clear t parent)
    else Ok (clear t (parent ++ [leaf])%list)
  else Ok t.

(** * A layer *)

Inductive kind :=
  | MDir
  | MReg (data : string)
  | MSym (linkname : string)
  | MLink (linkname : string)
  | MOther.
Record member := { m_name : string; m_kind : kind; m_mode : Z }.

(** The mode without setuid and setgid. *)
Definition vetted_mode (mode : Z) : Z := Z.land (Z.land mode 4095) (Z.lnot (Z.lor 2048 1024)).

Abbreviation modes := (gmap path Z).

(** [_write] *)
Definition write (m : member) (p : path) (prefixes : list path) (t : tree) (dir_modes : modes) :
    res (tree * modes) :=
  match m_kind m with
  | MOther => Ok (t, dir_modes)
  | k =>
      t ← make_dirs t (parent_of p);
      let mode := vetted_mode (m_mode m) in
      match k with
      | MDir =>
          let t := if is_real_dir t p then t else <[p := Dir 493]> (clear t p) in
          Ok (t, <[p := mode]> dir_modes)
      | MReg data => Ok (<[p := File data mode]> (clear t p), dir_modes)
      | MSym to =>
          if bool_decide (to = "") then Raise OSError
          else Ok (<[p := Sym to]> (clear t p), dir_modes)
      | MLink to =>
          let t := clear t p in
          source ← member_path to;
          if negb (wanted prefixes source) then Raise FetchError
          else if negb (is_real_dir t (parent_of source)) then Raise FetchError
          else match t !! source with
               | Some (Dir _) | None => Raise OSError
               | Some n => Ok (<[p := n]> t, dir_modes)
               end
      | MOther => Ok (t, dir_modes)
      end
  end.

Definition WHITEOUT : string := ".wh.".
Definition OPAQUE : string := ".wh..wh..opq".
Definition drop4 (s : string) : string := String.substring 4 (String.length s - 4) s.

(** One member of the first pass: its whiteout, if it is one. *)
Definition whiteout_step (t : tree) (m : member) : res tree :=
  p ← member_path (m_name m);
  let leaf := leaf_of p in
  if bool_decide (leaf = OPAQUE) then Ok (empty t (parent_of p))
  else if startswith leaf WHITEOUT && negb (startswith leaf (WHITEOUT +:+ WHITEOUT))
          && (4 <? String.length leaf)%nat
  then remove t (parent_of p) (drop4 leaf)
  else Ok t.

(** One member of the second pass. *)
Definition member_step (prefixes : list path) (s : tree * modes) (m : member) : res (tree * modes) :=
  p ← member_path (m_name m);
  if negb (bool_decide (p = [])) && negb (startswith (leaf_of p) WHITEOUT) && wanted prefixes p
  then write m p prefixes s.1 s.2
  else Ok s.

Definition apply_layer (prefixes : list path) (s : tree * modes) (layer : list member) : res (tree * modes) :=
  t ← foldM whiteout_step s.1 layer;
  foldM (member_step prefixes) (t, s.2) layer.

(** The layers of an image, in order, over an empty staging tree: the loop of
    [fetch]. *)
Definition apply_layers (prefixes : list path) (layers : list (list member)) : res (tree * modes) :=
  foldM (apply_layer prefixes) (∅, ∅) layers.

(** * Links *)

Definition MAX_HOPS : nat := 40.

(** How a walk over the parts of a target ends: inside, climbing out, or at
    another link. *)
Inductive walked := Inside | Outside | Hop (target : string) (where_ todo : path).

Fixpoint walk (t : tree) (where_ todo : path) : walked :=
  match todo with
  | [] => Inside
  | part :: todo =>
      if bool_decide (part = "") || bool_decide (part = ".") then walk t where_ todo
      else if bool_decide (part = "..") then
        match where_ with [] => Outside | _ => walk t (removelast where_) todo end
      else match t !! (where_ ++ [part])%list with
           | Some (Sym to) => Hop to where_ todo
           | _ => walk t (where_ ++ [part])%list todo
           end
  end.
Fixpoint hops (n : nat) (t : tree) (where_ : path) (target : string) (todo : path) : bool :=
  match n with
  | O => true
  | S n =>
      if startswith target "/" then false else
      match walk t where_ (split "/" target ++ todo)%list with
      | Inside => true
      | Outside => false
      | Hop to where_ todo => hops n t where_ to todo
      end
  end.
Definition resolves_inside (t : tree) (rel : path) (target : string) : bool :=
  hops MAX_HOPS t (parent_of rel) target [].

(** [_check_links]: every link below the prefix, which is a real directory. *)
Definition bad_link (t : tree) (prefix : path) (kn : path * node) : bool :=
  match kn.2 with
  | Sym to => under kn.1 prefix && negb (bool_decide (kn.1 = prefix)) && negb (resolves_inside t kn.1 to)
  | _ => false
  end.
Definition check_links (t : tree) (prefix : path) : res unit :=
  if existsb (bad_link t prefix) (map_to_list t) then Raise FetchError else Ok tt.

(** * The finished trees *)

(** The directories' own modes, once every layer is in. *)
Definition chmod_dirs (t : tree) (dir_modes : modes) : tree :=
  map_imap (λ p n, Some match n with
    | Dir mode => Dir (if is_real_dir t p then default mode (dir_modes !! p) else mode)
    | n => n end) t.

Fixpoint check_dirs (t : tree) (prefixes : list path) : res unit :=
  match prefixes with
  | [] => Ok tt
  | p :: prefixes => if is_real_dir t p then check_dirs t prefixes else Raise FetchError
  end.
Fixpoint check_all_links (t : tree) (prefixes : list path) : res unit :=
  match prefixes with
  | [] => Ok tt
  | p :: prefixes => _ ← check_links t p; check_all_links t prefixes
  end.

(** One tree moved over its previous copy; [dest] keeps what was already
    moved when a later one is refused. *)
Definition below (p : path) (m : tree) : tree := filter (λ kn, under kn.1 p = true) m.
Definition outside (p : path) (m : tree) : tree := filter (λ kn, under kn.1 p = false) m.
Fixpoint move_all (t : tree) (prefixes : list path) (dest : tree) : res unit * tree :=
  match prefixes with
  | [] => (Ok tt, dest)
  | p :: prefixes =>
      match make_dirs dest (parent_of p) with
      | Raise e => (Raise e, dest)
      | Ok dest => move_all t prefixes (below p t ∪ outside p dest)
      end
  end.

(** [_install] *)
Definition install (t : tree) (dir_modes : modes) (prefixes : list path) (dest : tree) : res unit * tree :=
  match (_ ← check_dirs t prefixes; check_all_links t prefixes) with
  | Raise e => (Raise e, dest)
  | Ok _ => move_all (chmod_dirs t dir_modes) prefixes dest
  end.

(** [fetch] once the layers are at hand. *)
Definition unpack (paths : list string) (layers : list (list member)) (dest : tree) : res unit * tree :=
  match (prefixes ← prefixes_of paths; s ← apply_layers prefixes layers; Ok (prefixes, s)) with
  | Raise e => (Raise e, dest)
  | Ok (prefixes, (t, dir_modes)) => install t dir_modes prefixes dest
  end.
