(* ===== verification/LayerTreeFacts.v ===== *)
(** What unpacking promises: nothing outside the requested trees, nothing
    through a link, no setuid file, no link the kernel would follow out of the
    image, and a destination that changes only once everything is vetted.  The
    definitions are those of [LayerTree]. *)
From S2P Require Import Prelude PyStr LayerTree.

#[local] Open Scope string_scope.
Implicit Types (t : tree) (p q : path).

(** * Paths *)

Lemma under_spec p q : under p q = true ↔ ∃ r, p = (q ++ r)%list.
Proof.
  revert p. induction q as [|x q IH]; intros p; cbn; [split; [by exists p|done]|].
  destruct p as [|y p]; [split; [done|by intros [r ?]]|].
  rewrite andb_true_iff, bool_decide_eq_true, IH. split.
  - intros [-> [r ->]]. by exists r.
  - intros [r [= -> ->]]. eauto.
Qed.
Lemma under_refl p : under p p = true.
Proof. apply under_spec. exists []. by rewrite app_nil_r. Qed.
Lemma under_app p q r : under p q = true → under (p ++ r) q = true.
Proof. rewrite !under_spec. intros [s ->]. exists (s ++ r)%list. by rewrite app_assoc. Qed.
Lemma under_trans p q r : under p q = true → under q r = true → under p r = true.
Proof. rewrite !under_spec. intros [s ->] [u ->]. exists (u ++ s)%list. by rewrite app_assoc. Qed.
Lemma under_length p q : under p q = true → (length q ≤ length p)%nat.
Proof. rewrite under_spec. intros [r ->]. rewrite length_app. lia. Qed.

(** Two paths above the same one are one above the other. *)
Lemma under_chain p q r : under p q = true → under p r = true → under q r = true ∨ under r q = true.
Proof.
  revert q r. induction p as [|x p IH]; intros [|y q] [|z r]; cbn; auto; try discriminate.
  rewrite !andb_true_iff, !bool_decide_eq_true. intros [-> H1] [-> H2].
  destruct (IH _ _ H1 H2); [left|right]; by split.
Qed.

Lemma parent_snoc p x : parent_of (p ++ [x]) = p.
Proof. apply removelast_last. Qed.
Lemma leaf_snoc p x : leaf_of (p ++ [x]) = x.
Proof. apply List.last_last. Qed.
Lemma snoc_inv p : p = [] ∨ ∃ q x, p = (q ++ [x])%list.
Proof. destruct p as [|x q] using rev_ind; eauto. Qed.

(** A component that names an entry of its directory. *)
Definition safe_part (x : string) : Prop := x ≠ "" ∧ x ≠ "." ∧ x ≠ ".." ∧ has_char "/" x = false.

Lemma split_no_sep c s : Forall (λ x, has_char c x = false) (split c s).
Proof.
  induction s as [|a s IH]; cbn [split]; [by repeat constructor|].
  case_bool_decide as Ha; [by constructor|].
  assert (Hc : ∀ w, has_char c w = false → has_char c (String a w) = false).
  { intros w Hw. unfold has_char, sexists in *. cbn. unfold is_char at 1.
    by rewrite bool_decide_false by congruence. }
  destruct (split c s) as [|w ws]; [by repeat constructor; apply Hc|]. inversion_clear IH.
  constructor; auto.
Qed.

Lemma member_path_safe name p : member_path name = Ok p → Forall safe_part p.
Proof.
  unfold member_path. destruct (startswith name "/"); [done|]. case_bool_decide as Hd; [done|].
  intros [= <-]. apply Forall_forall. intros x Hx. unfold parts_of in *.
  pose proof Hx as Hy. apply list_elem_of_In, filter_In in Hy as [Hs Hp].
  unfold plain_part in Hp. apply andb_prop in Hp as [H1%negb_true_iff%bool_decide_eq_false H2%negb_true_iff%bool_decide_eq_false].
  apply list_elem_of_In in Hs. pose proof (split_no_sep "/" name) as Hn.
  rewrite Forall_forall in Hn. split_and!; auto. intros ->. by apply Hd.
Qed.

(** * Well-formed trees *)

Definition is_dir t p : Prop := p = [] ∨ ∃ mode, t !! p = Some (Dir mode).
(** Every entry stands in a directory of the tree, and the root is no entry. *)
Definition wf t : Prop := t !! [] = None ∧ ∀ p x n, t !! (p ++ [x])%list = Some n → is_dir t p.

Lemma wf_empty_tree : wf ∅.
Proof. split; [done|]. intros p x n H. by rewrite lookup_empty in H. Qed.

Lemma wf_above t p r n : wf t → t !! (p ++ r)%list = Some n → r ≠ [] → is_dir t p.
Proof.
  intros W. revert n. induction r as [|x r IH] using rev_ind; intros n H Hr; [done|].
  rewrite app_assoc in H. apply W in H as [H|[mode H]].
  - left. by apply app_eq_nil in H as [? _].
  - destruct r as [|y r]; [rewrite app_nil_r in H; by right; exists mode|by eapply IH].
Qed.

Lemma is_real_dir_app t here rel x :
  is_real_dir_from t here (rel ++ [x]) =
  is_real_dir_from t here rel && match t !! (here ++ rel ++ [x])%list with Some (Dir _) => true | _ => false end.
Proof.
  revert here. induction rel as [|y rel IH]; intros here; cbn.
  - by destruct (t !! _) as [[]|].
  - destruct (t !! (here ++ [y])%list) as [[]|]; try done. rewrite IH.
    by rewrite <-(app_assoc here [y]).
Qed.

Lemma is_real_dir_spec t p : wf t → is_real_dir t p = true ↔ is_dir t p.
Proof.
  intros W. unfold is_real_dir. induction p as [|x p IH] using rev_ind; [by split; [left|]|].
  rewrite is_real_dir_app, andb_true_iff. cbn. split.
  - intros [_ H]. right. destruct (t !! _) as [[mode| |]|]; try done. by exists mode.
  - intros [H|[mode H]]; [by destruct p|]. rewrite H. split; [|done]. apply IH.
    by apply W in H.
Qed.

(** Clearing a path takes away what is at it and below it, and nothing else. *)
Lemma clear_lookup t p q : wf t → p ≠ [] → clear t p !! q = if under q p then None else t !! q.
Proof.
  intros W Hp. unfold clear. destruct (under q p) eqn:Hu.
  - destruct (t !! p) as [[mode|d m|to]|] eqn:Ht.
    + rewrite map_lookup_filter. destruct (t !! q); [|done]. cbn. by rewrite option_guard_False by congruence.
    + apply under_spec in Hu as [r ->]. destruct r as [|x r]; [rewrite app_nil_r; apply lookup_delete_eq|].
      rewrite lookup_delete_ne by (intros H; apply (f_equal length) in H; rewrite length_app in H; cbn in H; lia).
      apply eq_None_not_Some. intros [n Hn]. by apply wf_above in Hn as [?|[? ?]]; [|congruence|..].
    + apply under_spec in Hu as [r ->]. destruct r as [|x r]; [rewrite app_nil_r; apply lookup_delete_eq|].
      rewrite lookup_delete_ne by (intros H; apply (f_equal length) in H; rewrite length_app in H; cbn in H; lia).
      apply eq_None_not_Some. intros [n Hn]. by apply wf_above in Hn as [?|[? ?]]; [|congruence|..].
    + apply under_spec in Hu as [r ->]. destruct r as [|x r]; [by rewrite app_nil_r|].
      apply eq_None_not_Some. intros [n Hn]. by apply wf_above in Hn as [?|[? ?]]; [|congruence|..].
  - destruct (t !! p) as [[mode|d m|to]|] eqn:Ht; [|rewrite lookup_delete_ne; [done|]..|done].
    + rewrite map_lookup_filter. destruct (t !! q); [|done]. cbn. by rewrite option_guard_True.
    + intros ->. by rewrite under_refl in Hu.
    + intros ->. by rewrite under_refl in Hu.
Qed.

Lemma under_parent p x q : under p q = true → under (p ++ [x]) q = true.
Proof. apply under_app. Qed.
Lemma not_under_longer p x : under p (p ++ [x]) = false.
Proof.
  apply not_true_is_false. intros H%under_length. rewrite length_app in H. cbn in H. lia.
Qed.

Lemma wf_clear t p : wf t → p ≠ [] → wf (clear t p).
Proof.
  intros W Hp. split; [rewrite clear_lookup by done; destruct (under [] p); [done|apply W]|].
  intros q x n. unfold is_dir. rewrite !clear_lookup by done.
  destruct (under (q ++ [x]) p) eqn:Hu; [done|]. intros H. apply W in H as [H|[mode H]]; [by left|right].
  exists mode. destruct (under q p) eqn:Hq; [|done]. by rewrite (under_parent q x p Hq) in Hu.
Qed.

Lemma is_dir_clear t p x : wf t → is_dir t p → is_dir (clear t (p ++ [x])) p.
Proof.
  intros W [->|[mode H]]; [by left|right]. exists mode.
  rewrite clear_lookup, not_under_longer; [done..|by destruct p].
Qed.

(** Putting an entry where nothing is below. *)
Lemma wf_insert t p x n :
  wf t → is_dir t p → (∀ mode, t !! (p ++ [x])%list ≠ Some (Dir mode)) ∨ (∃ mode, n = Dir mode) →
  wf (<[(p ++ [x])%list := n]> t).
Proof.
  intros [W0 W] Hd Hn. split; [by rewrite lookup_insert_ne by (by destruct p)|].
  intros q y m. destruct (decide (q ++ [y] = p ++ [x])%list) as [Heq|Hne].
  - apply app_inj_tail in Heq as [-> ->]. intros _. destruct Hd as [->|[mode Hd]]; [by left|right].
    exists mode. rewrite lookup_insert_ne; [done|]. intros H. apply (f_equal length) in H.
    rewrite length_app in H. cbn in H. lia.
  - rewrite lookup_insert_ne by congruence. intros H. apply W in H as [->|[mode H]]; [by left|right].
    destruct (decide (p ++ [x] = q)%list) as [<-|Hq].
    + destruct Hn as [Hn|[mode' ->]]; [by apply Hn in H|]. exists mode'. apply lookup_insert_eq.
    + exists mode. by rewrite lookup_insert_ne.
Qed.

Lemma wf_place t p x n : wf t → is_dir t p → wf (<[(p ++ [x])%list := n]> (clear t (p ++ [x]))).
Proof.
  intros W Hd. apply wf_insert.
  - apply wf_clear; [done|by destruct p].
  - by apply is_dir_clear.
  - left. intros mode. rewrite clear_lookup, under_refl; [done..|by destruct p].
Qed.

(** What making the directories down to a path does. *)
Definition made t t' rel : Prop :=
  wf t' ∧ is_dir t' rel ∧
  (∀ p, t' !! p = t !! p ∨ t' !! p = Some (Dir 493) ∧ p ≠ [] ∧ under rel p = true ∧
                           (∀ to, t !! p ≠ Some (Sym to)) ∧ ∀ mode, t !! p ≠ Some (Dir mode)).

Lemma real_dir_made rel t here t' b :
  wf t → is_dir t here → real_dir_from true t here rel = Ok (t', b) → made t t' (here ++ rel).
Proof.
  revert t here. induction rel as [|x rel IH]; intros t here W Hd H; cbn in H.
  { injection H as <- _. rewrite app_nil_r. split; [done|]. split; [done|]. by left. }
  assert (Hgo : ∀ t1, wf t1 → is_dir t1 (here ++ [x]) →
    (∀ p, t1 !! p = t !! p ∨ p = (here ++ [x])%list ∧ t1 !! p = Some (Dir 493) ∧
          (∀ to, t !! p ≠ Some (Sym to)) ∧ ∀ mode, t !! p ≠ Some (Dir mode)) →
    real_dir_from true t1 (here ++ [x]) rel = Ok (t', b) → made t t' (here ++ x :: rel)).
  { intros t1 W1 D1 F1 H1. apply IH in H1 as (W2 & D2 & F2); [|done..].
    rewrite <-(app_assoc here [x]) in D2, F2. cbn [app] in D2, F2. split; [done|]. split; [done|].
    intros p. destruct (F2 p) as [E2|(E2 & P2 & U2 & L2 & N2)].
    - rewrite E2. destruct (F1 p) as [E1|(-> & E1 & L1 & N1)]; [by left|right]. split_and!; try done; [by destruct here|].
      apply under_spec. exists rel. by rewrite <-app_assoc.
    - right. split_and!; try done.
      + intros to Hto. destruct (F1 p) as [E1|(-> & E1 & L1 & N1)]; [apply (L2 to); congruence|by apply (L1 to)].
      + intros m Hm. destruct (F1 p) as [E1|(-> & E1 & L1 & N1)]; [apply (N2 m); congruence|by apply (N1 m)]. }
  assert (Hnew : (∀ mode, t !! (here ++ [x])%list ≠ Some (Dir mode)) →
    (∀ to, t !! (here ++ [x])%list ≠ Some (Sym to)) →
    real_dir_from true (<[(here ++ [x])%list := Dir 493]> t) (here ++ [x]) rel = Ok (t', b) →
    made t t' (here ++ x :: rel)).
  { intros N L. apply Hgo.
    - apply wf_insert; eauto.
    - right. exists 493%Z. apply lookup_insert_eq.
    - intros p. destruct (decide (p = here ++ [x])%list) as [->|Hp]; [right|left].
      + split_and!; try done. apply lookup_insert_eq.
      + by rewrite lookup_insert_ne. }
  destruct (t !! (here ++ [x])%list) as [[mode|d m|to]|] eqn:Hx; [|by apply Hnew|done|by apply Hnew].
  eapply Hgo; [done|right; eauto|by left|done].
Qed.

Lemma make_dirs_made t rel t' : wf t → make_dirs t rel = Ok t' → made t t' rel.
Proof.
  intros W H. unfold make_dirs in H. apply res_bind_Ok in H as ([t1 b] & H & H1).
  injection H1 as <-. by apply real_dir_made in H; [|done|left].
Qed.

(** * Containment *)

(** No setuid and no setgid bit. *)
Definition unprivileged (mode : Z) : Prop := Z.land mode 3072 = 0%Z.

Lemma vetted_unprivileged mode : unprivileged (vetted_mode mode).
Proof.
  unfold unprivileged, vetted_mode. rewrite <-!Z.land_assoc.
  replace (Z.land (Z.lnot (Z.lor 2048 1024)) 3072) with 0%Z by reflexivity. by rewrite !Z.land_0_r.
Qed.

(** An entry unpacking may leave: safe names, inside a requested tree or a
    plain directory on the way to one, no setuid or setgid file. *)
Definition allowed (prefixes : list path) p (n : node) : Prop :=
  Forall safe_part p ∧
  (wanted prefixes p = true ∨ n = Dir 493 ∧ ∃ q, q ∈ prefixes ∧ under q p = true) ∧
  match n with File _ mode => unprivileged mode | _ => True end.
Definition contained (prefixes : list path) (s : tree * modes) : Prop :=
  wf s.1 ∧ (∀ p n, s.1 !! p = Some n → allowed prefixes p n) ∧ ∀ p mode, s.2 !! p = Some mode → unprivileged mode.

Lemma wf_subtree t t' :
  wf t → (∀ p, t' !! p = t !! p ∨ t' !! p = None) →
  (∀ p x n, t' !! (p ++ [x])%list = Some n → p = [] ∨ t' !! p = t !! p) → wf t'.
Proof.
  intros [W0 W] Hs Hc. split; [destruct (Hs []); congruence|].
  intros p x n H. destruct (Hc _ _ _ H) as [->|Hp]; [by left|].
  destruct (Hs (p ++ [x])%list) as [E|E]; [|congruence]. rewrite E in H. apply W in H as [?|[m ?]]; [by left|right].
  exists m. congruence.
Qed.

(** A whiteout only takes away. *)
Lemma whiteout_step_takes t m t' :
  wf t → whiteout_step t m = Ok t' → wf t' ∧ ∀ p, t' !! p = t !! p ∨ t' !! p = None.
Proof.
  intros W H. unfold whiteout_step in H. apply res_bind_Ok in H as (p & _ & H).
  assert (Hclear : ∀ q, q ≠ [] → wf (clear t q) ∧ ∀ p, clear t q !! p = t !! p ∨ clear t q !! p = None).
  { intros q Hq. split; [by apply wf_clear|]. intros r. rewrite clear_lookup by done.
    destruct (under r q); auto. }
  case_bool_decide as Ho.
  - injection H as <-. unfold empty. destruct (is_real_dir t (parent_of p)) eqn:Hr; [|split; auto].
    set (rel := parent_of p) in *. assert (Hl : ∀ q, filter (λ kn : path * node, under kn.1 rel = false ∨ kn.1 = rel) t !! q
      = if decide (under q rel = false ∨ q = rel) then t !! q else None).
    { intros q. rewrite map_lookup_filter. destruct (t !! q); [|by destruct (decide _)]. cbn.
      destruct (decide _); [by rewrite option_guard_True|by rewrite option_guard_False]. }
    assert (Hs : ∀ q, filter (λ kn : path * node, under kn.1 rel = false ∨ kn.1 = rel) t !! q = t !! q ∨
                      filter (λ kn : path * node, under kn.1 rel = false ∨ kn.1 = rel) t !! q = None).
    { intros q. rewrite Hl. destruct (decide _); auto. }
    split; [|done]. refine (wf_subtree t _ W Hs _). intros q x n Hn. rewrite Hl in Hn.
    destruct (decide (under (q ++ [x]) rel = false ∨ (q ++ [x])%list = rel)) as [Hd|Hd]; [|done].
    right. rewrite Hl. destruct (decide _) as [|Hq]; [done|]. exfalso. apply Hq.
    destruct Hd as [Hd|Hd].
    + left. destruct (under q rel) eqn:Hu; [|done]. by rewrite (under_parent q x rel Hu) in Hd.
    + left. rewrite <-Hd. apply not_under_longer.
  - destruct (startswith _ _ && _ && _); [|injection H as <-; split; auto].
    unfold remove in H. destruct (is_real_dir t _); [|injection H as <-; split; auto].
    case_bool_decide; [done|]. case_bool_decide.
    + case_bool_decide; [done|]. injection H as <-. auto.
    + injection H as <-. apply Hclear. by destruct (parent_of p).
Qed.

Lemma contained_sub prefixes t t' dm :
  contained prefixes (t, dm) → wf t' → (∀ p, t' !! p = t !! p ∨ t' !! p = None) → contained prefixes (t', dm).
Proof.
  intros (W & A & D) W' Hs. split; [done|]. split; [|done]. intros p n H. cbn in *.
  destruct (Hs p) as [E|E]; [|congruence]. apply A. congruence.
Qed.

Lemma wanted_spec prefixes p : wanted prefixes p = true ↔ ∃ q, q ∈ prefixes ∧ under p q = true.
Proof.
  unfold wanted. rewrite existsb_exists. split; intros (q & H & ?); exists q; (split; [|done]);
    by apply list_elem_of_In.
Qed.

Lemma allowed_above prefixes p q :
  Forall safe_part p → wanted prefixes p = true → under p q = true → allowed prefixes q (Dir 493).
Proof.
  intros Hs Hw Hu. pose proof Hu as [r ->]%under_spec. apply Forall_app in Hs as [Hs _]. split; [done|].
  split; [|done]. apply wanted_spec in Hw as (pr & Hpr & Hw). destruct (under_chain _ _ _ Hu Hw) as [H|H].
  - left. apply wanted_spec. eauto.
  - right. split; [done|]. eauto.
Qed.

Lemma make_dirs_contained prefixes t dm p rel t' :
  contained prefixes (t, dm) → Forall safe_part p → wanted prefixes p = true → under p rel = true →
  make_dirs t rel = Ok t' → contained prefixes (t', dm) ∧ is_dir t' rel.
Proof.
  intros (W & A & D) Hs Hw Hu H. cbn in *. apply make_dirs_made in H as (W' & D' & F); [|done].
  split; [|done]. split; [done|]. split; [|done]. intros q n Hq. cbn in Hq.
  destruct (F q) as [E|(E & _ & Hrel & _)]; [apply A; congruence|].
  rewrite E in Hq. injection Hq as <-. refine (allowed_above prefixes p q Hs Hw _). by eapply under_trans.
Qed.

Lemma place_contained prefixes t dm p x n :
  contained prefixes (t, dm) → is_dir t p → allowed prefixes (p ++ [x])%list n →
  contained prefixes (<[(p ++ [x])%list := n]> (clear t (p ++ [x])), dm).
Proof.
  intros (W & A & D) Hd Ha. split; [by apply wf_place|]. split; [|done]. intros q m. cbn in *.
  destruct (decide (p ++ [x] = q)%list) as [<-|Hne]; [rewrite lookup_insert_eq; by intros [= <-]|].
  rewrite lookup_insert_ne, clear_lookup by (done || by destruct p). destruct (under _ _); [done|apply A].
Qed.

Lemma write_contained prefixes m p t dm s' :
  contained prefixes (t, dm) → Forall safe_part p → p ≠ [] → wanted prefixes p = true →
  write m p prefixes t dm = Ok s' → contained prefixes s'.
Proof.
  intros C Hs Hp Hw H. destruct (snoc_inv p) as [->|(q & x & ->)]; [done|]. unfold write in H.
  rewrite parent_snoc in H.
  assert (Hu : under (q ++ [x]) q = true) by (apply under_app, under_refl).
  assert (Ha : ∀ n, match n with File _ mode => unprivileged mode | _ => True end → allowed prefixes (q ++ [x])%list n).
  { intros n Hn. split; [done|]. split; [by left|done]. }
  assert (Hgo : ∀ t1, make_dirs t q = Ok t1 → contained prefixes (t1, dm) ∧ is_dir t1 q).
  { intros t1 H1. by eapply make_dirs_contained. }
  destruct (m_kind m) as [|data|to|to|]; [..|by injection H as <-];
    apply res_bind_Ok in H as (t1 & H1 & H); apply Hgo in H1 as [C1 D1].
  - injection H as <-. assert (Hmodes : ∀ t2, contained prefixes (t2, dm) →
      contained prefixes (t2, <[(q ++ [x])%list := vetted_mode (m_mode m)]> dm)).
    { intros t2 (W2 & A2 & D2). split; [done|]. split; [done|]. intros r mode. cbn in *.
      destruct (decide (q ++ [x] = r)%list) as [<-|Hne]; [rewrite lookup_insert_eq|rewrite lookup_insert_ne by done; apply D2].
      intros [= <-]. apply vetted_unprivileged. }
    apply Hmodes. destruct (is_real_dir t1 _); [done|]. apply place_contained; auto.
  - injection H as <-. apply place_contained; auto using vetted_unprivileged.
  - case_bool_decide; [done|]. injection H as <-. apply place_contained; auto.
  - apply res_bind_Ok in H as (source & Hsrc & H).
    destruct (negb (wanted _ _)); [done|]. destruct (negb (is_real_dir _ _)); [done|].
    destruct (clear t1 (q ++ [x]) !! source) as [n|] eqn:Hn; [|done].
    assert (Hf : match n with File _ mode => unprivileged mode | _ => True end).
    { destruct C1 as (W1 & A1 & _). rewrite clear_lookup in Hn by (done || by destruct q).
      destruct (under source _); [done|]. by apply A1 in Hn as (_ & _ & Hn). }
    destruct n; [done|..]; injection H as <-; apply place_contained; auto.
Qed.

Lemma apply_layer_contained prefixes s layer s' :
  contained prefixes s → apply_layer prefixes s layer = Ok s' → contained prefixes s'.
Proof.
  intros C H. unfold apply_layer in H. apply res_bind_Ok in H as (t & H1 & H2).
  assert (C1 : contained prefixes (t, s.2)).
  { refine (foldM_inv (λ t, contained prefixes (t, s.2)) _ _ _ _ _ _ H1); [|by destruct s].
    intros t0 m t1 _ C0 Hw. apply whiteout_step_takes in Hw as [W' Hs]; [|apply C0]. by eapply contained_sub. }
  refine (foldM_inv (contained prefixes) _ _ _ _ _ C1 H2). clear. intros [t dm] m s' _ C H.
  unfold member_step in H. apply res_bind_Ok in H as (p & Hp & H). apply member_path_safe in Hp.
  destruct (negb (bool_decide (p = []))) eqn:H1; [|by injection H as <-].
  destruct (negb (startswith _ _)) eqn:H2; [|by injection H as <-].
  destruct (wanted prefixes p) eqn:H3; [|by injection H as <-]. cbn [andb] in H.
  apply negb_true_iff, bool_decide_eq_false in H1. by eapply write_contained.
Qed.

(** Claim C38: unpacking is contained, for any layers whatever.  When the
    layers apply, every entry stands in real directories all the way to the
    root (so nothing was written through a link), under a name with no empty,
    [.], [..] or slashed part, inside a requested path or a plain 0755
    directory on the way to one; and neither a file nor a directory mode
    carries a setuid or setgid bit. *)
Theorem unpack_contained prefixes layers t dir_modes :
  apply_layers prefixes layers = Ok (t, dir_modes) →
  (∀ p x n, t !! (p ++ [x])%list = Some n →
     is_real_dir t p = true ∧ Forall safe_part (p ++ [x]) ∧
     (wanted prefixes (p ++ [x]) = true ∨ n = Dir 493 ∧ ∃ q, q ∈ prefixes ∧ under q (p ++ [x]) = true) ∧
     match n with File _ mode => Z.land mode 3072 = 0%Z | _ => True end) ∧
  (∀ p mode, dir_modes !! p = Some mode → Z.land mode 3072 = 0%Z).
Proof.
  intros H. assert (C : contained prefixes (t, dir_modes)).
  { unfold apply_layers in H. refine (foldM_inv (contained prefixes) _ _ _ _ _ _ H).
    - intros s l s' _. apply apply_layer_contained.
    - split; [apply wf_empty_tree|]. split; cbn; intros ? ? Hn; by rewrite lookup_empty in Hn. }
  destruct C as (W & A & D). cbn in *. split; [|exact D].
  intros p x n Hn. split; [by apply is_real_dir_spec; [|apply W in Hn]|]. by apply A in Hn as (? & ? & ?).
Qed.

(** * Links, as the kernel follows them *)

(** A part that names an entry. *)
Definition named (x : string) : Prop := x ≠ "" ∧ x ≠ "." ∧ x ≠ "..".

(** A walk from a directory of the image over the parts still to go climbs
    out of the image, following at most [n] more links. *)
Inductive escapes (t : tree) : nat → path → path → Prop :=
  | esc_up n todo : escapes t n [] (".." :: todo)
  | esc_abs n where_ x todo to :
      named x → t !! (where_ ++ [x])%list = Some (Sym to) → startswith to "/" = true →
      escapes t (S n) where_ (x :: todo)
  | esc_skip n where_ x todo :
      x = "" ∨ x = "." → escapes t n where_ todo → escapes t n where_ (x :: todo)
  | esc_parent n where_ x todo :
      escapes t n where_ todo → escapes t n (where_ ++ [x]) (".." :: todo)
  | esc_enter n where_ x todo :
      named x → (∀ to, t !! (where_ ++ [x])%list ≠ Some (Sym to)) →
      escapes t n (where_ ++ [x]) todo → escapes t n where_ (x :: todo)
  | esc_link n where_ x todo to :
      named x → t !! (where_ ++ [x])%list = Some (Sym to) → startswith to "/" = false →
      escapes t n where_ (split "/" to ++ todo) → escapes t (S n) where_ (x :: todo).

(** What a link met with [n] links left leads to. *)
Definition link_escapes t n where_ target todo : Prop :=
  match n with
  | O => False
  | S n => startswith target "/" = true ∨
           startswith target "/" = false ∧ escapes t n where_ (split "/" target ++ todo)
  end.

Lemma walk_spec t n where_ todo :
  escapes t n where_ todo ↔
  match walk t where_ todo with
  | Inside => False
  | Outside => True
  | Hop to w td => link_escapes t n w to td
  end.
Proof.
  revert where_. induction todo as [|x todo IH]; intros where_; cbn [walk]; [split; [inversion 1|done]|].
  destruct (decide (x = "" ∨ x = ".")) as [Hx|Hx].
  { replace (bool_decide (x = "") || bool_decide (x = ".")) with true.
    2:{ symmetry. rewrite orb_true_iff, !bool_decide_eq_true. done. }
    rewrite <-IH. split; [|by apply esc_skip]. inversion 1; subst; unfold named in *; (tauto || by destruct Hx). }
  replace (bool_decide (x = "") || bool_decide (x = ".")) with false.
  2:{ symmetry. rewrite orb_false_iff, !bool_decide_eq_false. tauto. }
  case_bool_decide as Hd; [subst x|].
  { destruct (snoc_inv where_) as [->|(q & y & ->)]; [split; [done|constructor]|].
    rewrite removelast_last. replace (match (q ++ [y])%list with [] => Outside | _ => walk t q todo end) with (walk t q todo)
      by (by destruct q).
    rewrite <-IH. split; [|by constructor]. inversion 1 as [| | | n0 w0 x0 td0 H0 Hn Hw| |]; subst;
      [by destruct q|unfold named in *; tauto|tauto| |unfold named in *; tauto..].
    apply app_inj_tail in Hw as [-> _]. done. }
  assert (Hn : named x) by (unfold named; tauto).
  destruct (t !! (where_ ++ [x])%list) as [[mode|d m|to]|] eqn:Ht.
  4,1,2: rewrite <-IH; split; [|by intros He; apply esc_enter; [|rewrite Ht|]];
    inversion 1; subst; unfold named in *; (done || tauto || congruence).
  cbn. split.
  - inversion 1; subst; try tauto; cbn; [left; congruence|congruence|right; split; congruence].
  - destruct n as [|n]; cbn; [done|]. intros [Ha|[Ha He]]; [by eapply esc_abs|by eapply esc_link].
Qed.

Lemma hops_spec t n where_ target todo :
  hops n t where_ target todo = false ↔ link_escapes t n where_ target todo.
Proof.
  revert where_ target todo. induction n as [|n IH]; intros where_ target todo; cbn [hops link_escapes]; [done|].
  destruct (startswith target "/"); [by split; [left|]|]. rewrite walk_spec.
  destruct (walk t where_ _) as [| |to w td]; [by split; [|intros [?|[_ ?]]]|by split; [right|]|].
  rewrite IH. split; [by right|by intros [?|[_ ?]]].
Qed.

Lemma resolves_outside t rel x to :
  t !! (rel ++ [x])%list = Some (Sym to) → named x →
  resolves_inside t (rel ++ [x]) to = false ↔ escapes t MAX_HOPS rel [x].
Proof.
  intros Ht (H1 & H2 & H3). unfold resolves_inside. rewrite parent_snoc, walk_spec, hops_spec. cbn [walk].
  rewrite !bool_decide_false by done. cbn [orb]. by rewrite Ht.
Qed.

(** The link check is the kernel's own walk.  A link is accepted
    exactly when no walk through it, expanding every link where it sits and
    following up to forty of them as the kernel does, ever climbs above the
    image's root or meets an absolute target. *)
Theorem resolves_inside_exact t rel x to :
  t !! (rel ++ [x])%list = Some (Sym to) → named x →
  resolves_inside t (rel ++ [x]) to = true ↔ ¬ escapes t MAX_HOPS rel [x].
Proof.
  intros Ht Hx. by rewrite <-(resolves_outside _ _ _ _ Ht Hx), not_false_iff_true.
Qed.

(** Walks see nothing of a tree but its links. *)
Definition same_links t t' : Prop := ∀ p to, t !! p = Some (Sym to) ↔ t' !! p = Some (Sym to).
Lemma escapes_links t t' n where_ todo :
  same_links t t' → escapes t n where_ todo → escapes t' n where_ todo.
Proof.
  intros Hl. induction 1; [by constructor|..].
  - eapply esc_abs; [done|by apply Hl|done].
  - by apply esc_skip.
  - by apply esc_parent.
  - apply esc_enter; [done| |done]. intros to Hto. by apply Hl, H0 in Hto.
  - eapply esc_link; [done|by apply Hl|done..].
Qed.

(** * Moving the finished trees into place *)

Lemma chmod_lookup t dm p :
  chmod_dirs t dm !! p = match t !! p with
    | Some (Dir mode) => Some (Dir (if is_real_dir t p then default mode (dm !! p) else mode))
    | o => o end.
Proof. unfold chmod_dirs. rewrite map_lookup_imap. by destruct (t !! p) as [[]|]. Qed.

Lemma chmod_is_dir t dm p : is_dir (chmod_dirs t dm) p ↔ is_dir t p.
Proof.
  unfold is_dir. rewrite chmod_lookup. split; (intros [?|[mode H]]; [by left|right]).
  - destruct (t !! p) as [[m| |]|]; try done. by exists m.
  - rewrite H. eauto.
Qed.
Lemma chmod_links t dm : same_links t (chmod_dirs t dm).
Proof. intros p to. rewrite chmod_lookup. by destruct (t !! p) as [[]|]; split; intros [= ?]; subst. Qed.
Lemma wf_chmod t dm : wf t → wf (chmod_dirs t dm).
Proof.
  intros [W0 W]. split; [by rewrite chmod_lookup, W0|]. intros p x n H. apply chmod_is_dir.
  rewrite chmod_lookup in H. destruct (t !! (p ++ [x])%list) eqn:Hp; [by eapply W|done].
Qed.

(** One tree in place of what stood at its path. *)
Definition placed t p (dest : tree) : tree := below p t ∪ outside p dest.
Lemma placed_lookup t p dest q : placed t p dest !! q = if under q p then t !! q else dest !! q.
Proof.
  assert (Hf : ∀ b (m : tree), filter (λ kn : path * node, under kn.1 p = b) m !! q = if decide (under q p = b) then m !! q else None).
  { intros b m. rewrite map_lookup_filter. destruct (m !! q); [|by destruct (decide _)]. cbn.
    destruct (decide _); [by rewrite option_guard_True|by rewrite option_guard_False]. }
  unfold placed, below, outside. rewrite lookup_union, !Hf.
  destruct (under q p); cbn; [by destruct (t !! q)|by rewrite (left_id_L None _)].
Qed.

Lemma under_snoc_inv q x p : under (q ++ [x]) p = true → under q p = true ∨ p = (q ++ [x])%list.
Proof.
  rewrite !under_spec. intros [r Hr]. destruct (snoc_inv r) as [->|(r' & y & ->)].
  - right. by rewrite app_nil_r in Hr.
  - left. rewrite app_assoc in Hr. apply app_inj_tail in Hr as [-> _]. by exists r'.
Qed.

Lemma wf_placed t q x dest : wf t → wf dest → is_dir dest q → wf (placed t (q ++ [x]) dest).
Proof.
  intros [T0 T] [D0 D] Hd. split; [rewrite placed_lookup; by destruct q|].
  intros r y n. rewrite placed_lookup. unfold is_dir. rewrite placed_lookup.
  destruct (under (r ++ [y]) (q ++ [x])) eqn:Hu.
  - intros Hn. apply under_snoc_inv in Hu as [Hu|Heq].
    + rewrite Hu. by apply T in Hn.
    + apply app_inj_tail in Heq as [<- <-]. by rewrite not_under_longer.
  - intros Hn. destruct (under r (q ++ [x])) eqn:Hr; [by rewrite (under_parent r y _ Hr) in Hu|].
    by apply D in Hn.
Qed.

(** Requested paths: none the root, none inside another. *)
Fixpoint apart (prefixes : list path) : Prop :=
  match prefixes with
  | [] => True
  | p :: prefixes => p ≠ [] ∧ (∀ q, q ∈ prefixes → under p q = false ∧ under q p = false) ∧ apart prefixes
  end.

Lemma make_dirs_refuses t rel e :
  make_dirs t rel = Raise e → ∃ q to, under rel q = true ∧ t !! q = Some (Sym to).
Proof.
  unfold make_dirs. intros H.
  assert (Hgo : ∀ rel t here, real_dir_from true t here rel = Raise e →
    ∃ q r to, r ≠ [] ∧ q = (here ++ r)%list ∧ under (here ++ rel) q = true ∧ t !! q = Some (Sym to)).
  { clear. induction rel as [|x rel IH]; intros t here H; cbn in H; [done|].
    assert (Hrec : ∀ t1, real_dir_from true t1 (here ++ [x]) rel = Raise e →
      (∀ q, (length (here ++ [x]) < length q)%nat → t1 !! q = t !! q) →
      ∃ q r to, r ≠ [] ∧ q = (here ++ r)%list ∧ under (here ++ x :: rel) q = true ∧ t !! q = Some (Sym to)).
    { intros t1 H1 F. apply IH in H1 as (q & r & to & Hr & -> & Hu & Hq).
      exists ((here ++ [x]) ++ r)%list, (x :: r), to. rewrite <-!app_assoc in *. cbn [app] in *. split_and!; try done.
      rewrite <-F; [done|]. rewrite !length_app. destruct r; [done|]. cbn. lia. }
    assert (Hins : ∀ q n, (length (here ++ [x]) < length q)%nat → <[(here ++ [x])%list := n]> t !! q = t !! q).
    { intros q n Hq. rewrite lookup_insert_ne; [done|]. intros <-. lia. }
    destruct (t !! (here ++ [x])%list) as [[mode|d m|to]|] eqn:Hx.
    - by apply (Hrec t).
    - eapply Hrec; [exact H|]. intros q. apply Hins.
    - exists (here ++ [x])%list, [x], to. split_and!; try done. apply under_spec. exists rel. by rewrite <-app_assoc.
    - eapply Hrec; [exact H|]. intros q. apply Hins. }
  destruct (real_dir_from true t [] rel) as [[t1 b]|e'] eqn:Hr; [done|]. injection H as ->.
  apply Hgo in Hr as (q & r & to & _ & -> & Hu & Hq). eauto.
Qed.

(** What moving the trees in does, refused or not. *)
Lemma move_all_spec t prefixes dest r dest' :
  move_all t prefixes dest = (r, dest') → wf t → wf dest → apart prefixes →
  (∀ e, r = Raise e → ∃ p q to, p ∈ prefixes ∧ under p q = true ∧ dest !! q = Some (Sym to)) ∧
  (r = Ok tt →
    wf dest' ∧ (∀ p q, p ∈ prefixes → under q p = true → dest' !! q = t !! q) ∧
    ∀ q, wanted prefixes q = false → dest' !! q = dest !! q ∨
      dest' !! q = Some (Dir 493) ∧ (∃ p, p ∈ prefixes ∧ under p q = true) ∧ ∀ to, dest !! q ≠ Some (Sym to)).
Proof.
  revert dest. induction prefixes as [|p prefixes IH]; intros dest H T D A; cbn [move_all] in H.
  { injection H as <- <-. split; [done|]. intros _. split; [done|]. split; [by intros ? ? ?%elem_of_nil|]. by left. }
  destruct A as (Hp & Hap & A). destruct (snoc_inv p) as [->|(q0 & x & ->)]; [done|].
  rewrite parent_snoc in H. destruct (make_dirs dest q0) as [dest1|e] eqn:Hm.
  2:{ injection H as <- <-. split; [|done]. intros e' [= <-]. apply make_dirs_refuses in Hm as (q & to & Hu & Hq).
      exists (q0 ++ [x])%list, q, to. split_and!; [by left|by apply under_parent|done]. }
  apply make_dirs_made in Hm as (W1 & D1 & F1); [|done].
  change (below (q0 ++ [x]) t ∪ outside (q0 ++ [x]) dest1) with (placed t (q0 ++ [x]) dest1) in H.
  assert (F2 : ∀ q, wanted ((q0 ++ [x])%list :: prefixes) q = false → placed t (q0 ++ [x]) dest1 !! q = dest1 !! q).
  { intros q Hq. cbn in Hq. apply orb_false_iff in Hq as [Hq _]. by rewrite placed_lookup, Hq. }
  apply IH in H as [He Hok]; [|done|by apply wf_placed|done]. split.
  - intros e Hr. destruct (He e Hr) as (p & q & to & Hin & Hu & Hq). exists p, q, to. split; [by right|]. split; [done|].
    rewrite placed_lookup in Hq. destruct (under q (q0 ++ [x])) eqn:Hux.
    + destruct (Hap p Hin) as [_ Hn]. by rewrite (under_trans _ _ _ Hu Hux) in Hn.
    + destruct (F1 q) as [E|(E & _)]; [by rewrite <-E|by rewrite E in Hq].
  - intros Hr. destruct (Hok Hr) as (W' & In' & Out'). split; [done|]. split.
    + intros p q [->|Hin]%elem_of_cons Hu; [|by eapply In'].
      assert (Hw : wanted prefixes q = false).
      { apply not_true_is_false. intros (p & Hin & Hup)%wanted_spec. destruct (Hap p Hin) as [H1 H2].
        destruct (under_chain _ _ _ Hu Hup); congruence. }
      assert (Hpl : placed t (q0 ++ [x]) dest1 !! q = t !! q) by (by rewrite placed_lookup, Hu).
      destruct (Out' q Hw) as [->|(_ & (p & Hin & Hup) & _)]; [done|].
      destruct (Hap p Hin) as [_ H2]. by rewrite (under_trans _ _ _ Hup Hu) in H2.
    + intros q Hq. pose proof (F2 q Hq) as E2. cbn in Hq. apply orb_false_iff in Hq as [_ Hq].
      destruct (Out' q Hq) as [E|(E & (p & Hin & Hup) & L)].
      * rewrite E, E2. destruct (F1 q) as [E1|(E1 & _ & Hu & L1 & _)]; [by left|right].
        split_and!; [done| |done]. exists (q0 ++ [x])%list. split; [by left|by apply under_parent].
      * destruct (F1 q) as [E1|(E1 & _ & Hu & L1 & _)].
        -- right. split_and!; [done|exists p; split; [by right|done]|]. intros to Hto. apply (L to). by rewrite E2, E1.
        -- right. split_and!; [done|exists p; split; [by right|done]|done].
Qed.

(** ** The requested paths *)

Lemma prefixes_of_apart raws prefixes : prefixes_of raws = Ok prefixes → apart prefixes ∧ [] ∉ prefixes.
Proof.
  unfold prefixes_of. intros (out & Ho & H)%res_bind_Ok. injection H as <-.
  assert (Hout : NoDup out ∧ [] ∉ out).
  { refine (foldM_inv (λ out, NoDup out ∧ [] ∉ out) _ _ _ _ _ _ Ho).
    - clear. intros out raw out' _ [Hd Hn] H. unfold prefix_step in H.
      case_bool_decide as H1; [done|]. case_bool_decide; [done|]. injection H as <-. case_bool_decide; [done|].
      split; [apply NoDup_app; split_and!; [done| |apply NoDup_singleton]|].
      + by intros x Hx ->%list_elem_of_singleton.
      + rewrite elem_of_app, list_elem_of_singleton. intros [?|?]; [done|congruence].
    - split; [constructor|by intros ?%elem_of_nil]. }
  destruct Hout as [Hd Hn]. set (f := λ p, negb (existsb _ _)).
  assert (Hf : ∀ p q, p ∈ List.filter f out → q ∈ out → p ≠ q → under p q = false).
  { intros p q [Hp Hfp]%list_elem_of_In%filter_In Hq Hne. unfold f in Hfp. apply negb_true_iff in Hfp.
    apply not_true_is_false. intros Hu. apply not_true_iff_false in Hfp. apply Hfp, existsb_exists.
    exists q. split; [by apply list_elem_of_In|]. rewrite Hu, bool_decide_false; done. }
  assert (Hsub : ∀ p, p ∈ List.filter f out → p ∈ out).
  { intros p [Hp _]%list_elem_of_In%filter_In. by apply list_elem_of_In. }
  clearbody f. split; [|by intros ?%Hsub].
  assert (Hgo : ∀ l, NoDup l → (∀ p, p ∈ List.filter f l → p ∈ List.filter f out) → apart (List.filter f l)).
  { clear Ho. induction l as [|p l IH]; intros Hl Hin; [done|]. cbn [List.filter] in *.
    apply NoDup_cons in Hl as [Hpl Hl]. destruct (f p) eqn:Hfp; [|by apply IH]. split_and!.
    - intros ->. apply Hn, Hsub, Hin. by left.
    - intros q Hq. assert (q ∈ l) by by (apply list_elem_of_In, filter_In in Hq as [? _]; apply list_elem_of_In).
      assert (Hne : p ≠ q) by (by intros ->). split; apply Hf; try done.
      + apply Hin. by left.
      + apply Hsub, Hin. by right.
      + apply Hin. by right.
      + apply Hsub, Hin. by left.
    - apply IH; [done|]. intros q Hq. apply Hin. by right. }
  by apply Hgo.
Qed.

Lemma check_dirs_Ok t prefixes u : check_dirs t prefixes = Ok u → ∀ p, p ∈ prefixes → is_real_dir t p = true.
Proof.
  induction prefixes as [|q prefixes IH]; intros H p Hp; [by apply elem_of_nil in Hp|]. cbn in H.
  destruct (is_real_dir t q) eqn:Hq; [|done]. apply elem_of_cons in Hp as [->|Hp]; [done|by apply IH].
Qed.

Lemma check_all_links_Ok t prefixes u p q to :
  check_all_links t prefixes = Ok u → p ∈ prefixes → under q p = true → q ≠ p → t !! q = Some (Sym to) →
  resolves_inside t q to = true.
Proof.
  intros H Hp Hu Hne Hq. induction prefixes as [|p' prefixes IH]; [by apply elem_of_nil in Hp|]. cbn in H.
  apply res_bind_Ok in H as (u' & H1 & H2). apply elem_of_cons in Hp as [->|Hp]; [|by apply IH].
  unfold check_links in H1. destruct (existsb _ _) eqn:Hb; [done|].
  apply not_true_iff_false in Hb. destruct (resolves_inside t q to) eqn:Hr; [done|]. destruct Hb.
  apply existsb_exists. exists (q, Sym to). split; [by apply list_elem_of_In, elem_of_map_to_list|].
  unfold bad_link. cbn [fst snd]. rewrite Hu, Hr, bool_decide_false; done.
Qed.

(** The staging tree of a run that reached [_install]. *)
Lemma unpack_inv paths layers dest r dest' :
  unpack paths layers dest = (r, dest') →
  (dest' = dest ∧ ∃ e, r = Raise e) ∨
  ∃ prefixes t dm, prefixes_of paths = Ok prefixes ∧ apply_layers prefixes layers = Ok (t, dm) ∧
    contained prefixes (t, dm) ∧ (∀ p, p ∈ prefixes → is_real_dir t p = true) ∧
    (∀ p q to, p ∈ prefixes → under q p = true → q ≠ p → t !! q = Some (Sym to) → resolves_inside t q to = true) ∧
    move_all (chmod_dirs t dm) prefixes dest = (r, dest').
Proof.
  unfold unpack. destruct (prefixes_of paths) as [prefixes|e] eqn:Hp; cbn; [|intros [= <- <-]; left; eauto].
  destruct (apply_layers prefixes layers) as [[t dm]|e] eqn:Ha; cbn; [|intros [= <- <-]; left; eauto].
  unfold install. destruct (_ ← check_dirs t prefixes; _) as [u|e] eqn:Hc; [|intros [= <- <-]; left; eauto].
  apply res_bind_Ok in Hc as (u1 & Hc1 & Hc2). intros H. right. exists prefixes, t, dm. split_and!; try done.
  - refine (foldM_inv (contained prefixes) _ _ _ _ _ _ Ha); [intros s l s' _; apply apply_layer_contained|].
    split; [apply wf_empty_tree|]. split; cbn; intros ? ? Hn; by rewrite lookup_empty in Hn.
  - by eapply check_dirs_Ok.
  - intros p q to. by eapply check_all_links_Ok.
Qed.

(** Claim C39: the destination changes only for a whole, vetted image.  When
    unpacking fails, whatever the layers hold, the destination is what it was,
    unless a link already stood there on the way to a requested path.  When it
    succeeds, what is at and below every requested path is exactly the
    staging tree's, the previous copy gone, and everything else is as it was,
    but for plain directories made on the way. *)
Theorem unpack_all_or_nothing paths layers dest r dest' :
  wf dest → unpack paths layers dest = (r, dest') →
  match r with
  | Raise _ =>
      dest' = dest ∨
      ∃ prefixes p q to, prefixes_of paths = Ok prefixes ∧ p ∈ prefixes ∧ under p q = true ∧ dest !! q = Some (Sym to)
  | Ok _ =>
      ∃ prefixes t dm, prefixes_of paths = Ok prefixes ∧ apply_layers prefixes layers = Ok (t, dm) ∧
        (∀ p, p ∈ prefixes → ∃ mode, dest' !! p = Some (Dir mode)) ∧
        (∀ p q, p ∈ prefixes → under q p = true → dest' !! q = chmod_dirs t dm !! q) ∧
        (∀ q, wanted prefixes q = false → dest' !! q = dest !! q ∨
           dest' !! q = Some (Dir 493) ∧ ∃ p, p ∈ prefixes ∧ under p q = true)
  end.
Proof.
  intros D H. apply unpack_inv in H as [[-> [e ->]]|(prefixes & t & dm & Hp & Ha & C & Hd & _ & H)]; [by left|].
  pose proof (prefixes_of_apart _ _ Hp) as [A Hn]. pose proof C as (W & _ & _).
  apply move_all_spec in H as [He Hok]; [|by apply wf_chmod|done|done]. destruct r as [[]|e].
  - destruct (Hok eq_refl) as (W' & In' & Out'). exists prefixes, t, dm. split_and!; try done.
    + intros p Hin. rewrite (In' p p Hin (under_refl p)).
      assert (Hx : is_dir (chmod_dirs t dm) p) by (apply chmod_is_dir, is_real_dir_spec; auto).
      destruct Hx as [->|Hx]; done.
    + intros q Hq. destruct (Out' q Hq) as [?|(? & ? & _)]; auto.
  - right. destruct (He e eq_refl) as (p & q & to & ? & ? & ?). by exists prefixes, p, q, to.
Qed.

(** Nothing installed leads out.  After unpacking over a destination
    with no links of its own outside the requested paths, no walk through any
    link of the destination, following up to forty links as the kernel does
    with the destination as its root, climbs out of it. *)
Theorem unpacked_links_stay_inside paths layers dest dest' prefixes p x to :
  wf dest → unpack paths layers dest = (Ok tt, dest') → prefixes_of paths = Ok prefixes →
  (∀ q to, wanted prefixes q = false → dest !! q ≠ Some (Sym to)) →
  dest' !! (p ++ [x])%list = Some (Sym to) → ¬ escapes dest' MAX_HOPS p [x].
Proof.
  intros D H Hp0 L Hl He. apply unpack_inv in H as [[_ [e ?]]|(prefixes' & t & dm & Hp & Ha & C & Hd & Hc & H)]; [done|].
  rewrite Hp in Hp0. injection Hp0 as ->. pose proof (prefixes_of_apart _ _ Hp) as [A Hn]. pose proof C as (W & Al & _).
  apply move_all_spec in H as [_ Hok]; [|by apply wf_chmod|done|done].
  destruct (Hok eq_refl) as (W' & In' & Out').
  assert (Hsame : same_links dest' t).
  { intros q l. rewrite (chmod_links t dm q l). destruct (wanted prefixes q) eqn:Hw.
    - apply wanted_spec in Hw as (pr & Hin & Hu). by rewrite (In' pr q Hin Hu).
    - split.
      + intros Hq. destruct (Out' q Hw) as [E|(E & _)]; [|congruence]. rewrite E in Hq. by apply L in Hq.
      + intros Hq. apply (chmod_links t dm) in Hq. apply Al in Hq as (_ & [?|[? _]] & _); [congruence|done]. }
  apply (escapes_links _ t) in He; [|done]. apply Hsame in Hl. pose proof (Al _ _ Hl) as (Hs & Hw & _).
  apply Forall_app in Hs as [_ Hs]. apply Forall_inv in Hs as (? & ? & ? & _).
  destruct Hw as [Hw|[? _]]; [|done]. apply wanted_spec in Hw as (pr & Hin & Hu).
  apply (resolves_outside t p x to) in He; [|done|done]. rewrite (Hc pr) in He; try done.
  intros <-. apply Hd, is_real_dir_spec in Hin; [|done]. destruct Hin as [?|[m ?]]; [by destruct p|congruence].
Qed.

(** * What a layer does *)

(** A member of the layer that hides a path below it: an opaque marker of a
    directory above, or a whiteout of the path or of one above. *)
Definition hides (m : member) p : Prop :=
  ∃ q, member_path (m_name m) = Ok q ∧
    if bool_decide (leaf_of q = OPAQUE) then under p (parent_of q) = true ∧ p ≠ parent_of q
    else startswith (leaf_of q) WHITEOUT = true ∧ startswith (leaf_of q) (WHITEOUT +:+ WHITEOUT) = false ∧
         (4 < String.length (leaf_of q))%nat ∧ drop4 (leaf_of q) ≠ "." ∧ drop4 (leaf_of q) ≠ ".." ∧
         under p (parent_of q ++ [drop4 (leaf_of q)]) = true.

Lemma below_real_dir t q p : wf t → is_real_dir t q = false → under p q = true → p ≠ q → t !! p = None.
Proof.
  intros W Hr Hu Hne. apply under_spec in Hu as [r ->]. apply eq_None_not_Some. intros [n Hn].
  apply wf_above in Hn; [|done|intros ->; by rewrite app_nil_r in Hne].
  apply is_real_dir_spec in Hn; [congruence|done].
Qed.

Lemma whiteout_hides t m t' p : wf t → whiteout_step t m = Ok t' → hides m p → t' !! p = None.
Proof.
  intros W H (q & Hq & Hh). unfold whiteout_step in H. rewrite Hq in H. cbn [mbind res_bind] in H.
  case_bool_decide as Ho.
  - injection H as <-. destruct Hh as [Hu Hne]. unfold empty.
    destruct (is_real_dir t (parent_of q)) eqn:Hr; [|by eapply below_real_dir].
    rewrite map_lookup_filter. destruct (t !! p); [|done]. cbn. rewrite option_guard_False; [done|].
    intros [?|?]; congruence.
  - destruct Hh as (H1 & H2 & H3 & H4 & H5 & Hu). rewrite H1, H2 in H. cbn [andb negb] in H.
    rewrite (proj2 (Nat.ltb_lt _ _) H3) in H. unfold remove in H.
    set (x := drop4 (leaf_of q)) in *. set (d := parent_of q) in *.
    destruct (is_real_dir t d) eqn:Hr.
    + rewrite !bool_decide_false in H by done. injection H as <-. rewrite clear_lookup, Hu; [done..|by destruct d].
    + injection H as <-. apply (below_real_dir t d); [done..| |].
      * eapply under_trans; [done|]. apply under_app, under_refl.
      * intros ->. by rewrite not_under_longer in Hu.
Qed.

(** The entries a write may change. *)
Lemma write_frame m p prefixes t dm s' q :
  wf t → p ≠ [] → write m p prefixes t dm = Ok s' →
  s'.1 !! q = t !! q ∨ under q p = true ∨ under p q = true ∧ s'.1 !! q = Some (Dir 493).
Proof.
  intros W Hp H. destruct (snoc_inv p) as [->|(d & x & ->)]; [done|]. unfold write in H. rewrite parent_snoc in H.
  destruct (under q (d ++ [x])) eqn:Hu; [by right; left|].
  assert (Hpl : ∀ t1 n, wf t1 → <[(d ++ [x])%list := n]> (clear t1 (d ++ [x])) !! q = t1 !! q).
  { intros t1 n W1. rewrite lookup_insert_ne; [|intros <-; by rewrite under_refl in Hu].
    rewrite clear_lookup, Hu; [done..|by destruct d]. }
  assert (Hgo : ∀ t1, make_dirs t d = Ok t1 → wf t1 ∧ (t1 !! q = t !! q ∨ under (d ++ [x]) q = true ∧ t1 !! q = Some (Dir 493))).
  { intros t1 H1. apply make_dirs_made in H1 as (W1 & _ & F); [|done]. split; [done|].
    destruct (F q) as [?|(? & _ & Hq & _)]; [by left|right]. split; [by apply under_parent|done]. }
  destruct (m_kind m) as [|data|to|to|]; [..|injection H as <-; by left];
    apply res_bind_Ok in H as (t1 & H1 & H); apply Hgo in H1 as [W1 H1].
  - injection H as <-. cbn [fst]. destruct (is_real_dir t1 _); [|rewrite Hpl by done]; destruct H1; auto.
  - injection H as <-. cbn [fst]. rewrite Hpl by done. destruct H1; auto.
  - case_bool_decide; [done|]. injection H as <-. cbn [fst]. rewrite Hpl by done. destruct H1; auto.
  - apply res_bind_Ok in H as (source & _ & H).
    destruct (negb (wanted _ _)); [done|]. destruct (negb (is_real_dir _ _)); [done|].
    destruct (clear t1 (d ++ [x]) !! source) as [[]|]; try done; injection H as <-; cbn [fst];
      rewrite Hpl by done; destruct H1; auto.
Qed.

Lemma write_wf m p prefixes t dm s' : wf t → p ≠ [] → write m p prefixes t dm = Ok s' → wf s'.1.
Proof.
  intros W Hp H. destruct (snoc_inv p) as [->|(d & x & ->)]; [done|]. unfold write in H. rewrite parent_snoc in H.
  assert (Hgo : ∀ t1, make_dirs t d = Ok t1 → wf t1 ∧ is_dir t1 d).
  { intros t1 H1. by apply make_dirs_made in H1 as (W1 & D1 & _). }
  destruct (m_kind m) as [|data|to|to|]; [..|by injection H as <-];
    apply res_bind_Ok in H as (t1 & H1 & H); apply Hgo in H1 as [W1 D1].
  - injection H as <-. cbn [fst]. destruct (is_real_dir t1 _); [done|by apply wf_place].
  - injection H as <-. by apply wf_place.
  - case_bool_decide; [done|]. injection H as <-. by apply wf_place.
  - apply res_bind_Ok in H as (source & _ & H).
    destruct (negb (wanted _ _)); [done|]. destruct (negb (is_real_dir _ _)); [done|].
    destruct (clear t1 (d ++ [x]) !! source) as [[]|]; try done; injection H as <-; by apply wf_place.
Qed.

(** A member that is written: its path. *)
Definition lands (prefixes : list path) (m : member) p : Prop :=
  member_path (m_name m) = Ok p ∧ p ≠ [] ∧ startswith (leaf_of p) WHITEOUT = false ∧ wanted prefixes p = true.

Lemma member_step_frame prefixes s m s' q :
  wf s.1 → member_step prefixes s m = Ok s' →
  wf s'.1 ∧ (s'.1 !! q = s.1 !! q ∨
             ∃ p, lands prefixes m p ∧ (under q p = true ∨ under p q = true ∧ s'.1 !! q = Some (Dir 493))).
Proof.
  intros W H. unfold member_step in H. apply res_bind_Ok in H as (p & Hp & H).
  destruct (negb (bool_decide (p = []))) eqn:H1; [|injection H as <-; auto].
  destruct (negb (startswith _ _)) eqn:H2; [|injection H as <-; auto].
  destruct (wanted prefixes p) eqn:H3; [|injection H as <-; auto]. cbn [andb] in H.
  apply negb_true_iff, bool_decide_eq_false in H1. apply negb_true_iff in H2.
  split; [by eapply write_wf|]. destruct (write_frame _ _ _ _ _ _ q W H1 H) as [?|?]; [by left|right].
  by exists p.
Qed.

(** An entry comes from below and unhidden, or from the layer.
    Whatever stands in the tree after a layer either stood there before, with
    no whiteout and no opaque marker of this layer covering it, wherever in
    the layer the marker is listed, or is at, above or below a member this
    layer writes. *)
Theorem layer_origin prefixes t dm layer s' p n :
  wf t → apply_layer prefixes (t, dm) layer = Ok s' → s'.1 !! p = Some n →
  (t !! p = Some n ∧ ∀ m, m ∈ layer → ¬ hides m p) ∨
  ∃ m q, m ∈ layer ∧ lands prefixes m q ∧ (under p q = true ∨ under q p = true ∧ n = Dir 493).
Proof.
  intros W H Hn. unfold apply_layer in H. apply res_bind_Ok in H as (t1 & H1 & H2). cbn [fst snd] in *.
  assert (W1 : wf t1 ∧ (t1 !! p = t !! p ∨ t1 !! p = None) ∧ ∀ m, m ∈ layer → hides m p → t1 !! p = None).
  { clear H2 Hn. revert t W H1. induction layer as [|m layer IH]; intros t W H1; cbn in H1.
    - injection H1 as <-. split_and!; [done|by left|by intros m ?%elem_of_nil].
    - apply res_bind_Ok in H1 as (t2 & Hs & H1). pose proof (whiteout_step_takes _ _ _ W Hs) as [W2 T2].
      apply IH in H1 as (W1 & T1 & A1); [|done]. split_and!; [done|destruct T1 as [->|]; auto|].
      intros m' [->|Hm]%elem_of_cons Hh; [|by eapply A1].
      rewrite (whiteout_hides _ _ _ _ W Hs Hh) in T1. by destruct T1. }
  destruct W1 as (W1 & T1 & A1).
  assert (Hor : wf s'.1 ∧ ∀ n, s'.1 !! p = Some n → t1 !! p = Some n ∨
    ∃ m q, m ∈ layer ∧ lands prefixes m q ∧ (under p q = true ∨ under q p = true ∧ n = Dir 493)).
  { refine (foldM_inv (λ s, wf s.1 ∧ ∀ n, s.1 !! p = Some n → t1 !! p = Some n ∨
      ∃ m q, m ∈ layer ∧ lands prefixes m q ∧ (under p q = true ∨ under q p = true ∧ n = Dir 493)) _ _ _ _ _ _ H2);
      [|split; [done|by left]].
    intros s m s2 Hm [Ws Hs] Hstep. destruct (member_step_frame _ _ _ _ p Ws Hstep) as [W2 Hf]. split; [done|].
    intros n2 Hn2. destruct Hf as [E|(q & Hl & Hu)]; [apply Hs; congruence|right]. exists m, q. split_and!; try done.
    destruct Hu as [?|[? E]]; [by left|right]. split; [done|congruence]. }
  destruct (proj2 Hor n Hn) as [E|?]; [left|by right]. split; [destruct T1; congruence|].
  intros m Hm Hh. rewrite (A1 m Hm Hh) in E. done.
Qed.

(** A file the layer adds is there.  A regular file at a requested
    path, with no later member of its layer at its path or above or below it,
    is in the tree with its bytes and its mode, less setuid and setgid,
    whatever the lower layers held there and whatever the layer's whiteouts. *)
Theorem layer_file_lands prefixes t dm before m after s' p data :
  wf t → apply_layer prefixes (t, dm) (before ++ m :: after)%list = Ok s' →
  lands prefixes m p → m_kind m = MReg data →
  (∀ m' q, m' ∈ after → lands prefixes m' q → under p q = false ∧ under q p = false) →
  s'.1 !! p = Some (File data (vetted_mode (m_mode m))).
Proof.
  intros W H Hl Hk Ha. unfold apply_layer in H. apply res_bind_Ok in H as (t1 & H1 & H2). cbn [fst snd] in *.
  assert (W1 : wf t1).
  { refine (foldM_inv wf _ _ _ _ _ W H1). intros t2 m2 t3 _ W2 Hs. by apply whiteout_step_takes in Hs as [? _]. }
  rewrite foldM_app in H2. apply res_bind_Ok in H2 as (s2 & H2 & H3).
  assert (W2 : wf s2.1).
  { refine (foldM_inv (λ s, wf s.1) _ _ _ _ _ _ H2); [|done]. intros s3 m3 s4 _ W3 Hs.
    by apply (member_step_frame _ _ _ _ p) in Hs as [? _]. }
  cbn in H3. apply res_bind_Ok in H3 as (s3 & H3 & H4).
  assert (H5 : wf s3.1 ∧ s3.1 !! p = Some (File data (vetted_mode (m_mode m)))).
  { pose proof (member_step_frame _ _ _ _ p W2 H3) as [W3 _]. split; [done|].
    destruct Hl as (Hp & Hne & Hw & Hwant). unfold member_step in H3. rewrite Hp in H3. cbn [mbind res_bind] in H3.
    rewrite Hw, Hwant, bool_decide_false in H3 by done. cbn [negb andb] in H3. unfold write in H3. rewrite Hk in H3.
    apply res_bind_Ok in H3 as (t4 & _ & H3). injection H3 as <-. apply lookup_insert_eq. }
  clear H3. refine (proj2 (foldM_inv (λ s, wf s.1 ∧ s.1 !! p = Some (File data (vetted_mode (m_mode m)))) _ _ _ _ _ H5 H4)).
  intros s4 m4 s5 Hin [W4 H6] Hs. destruct (member_step_frame _ _ _ _ p W4 Hs) as [W5 Hf]. split; [done|].
  destruct Hf as [->|(q & Hq & Hu)]; [done|]. destruct (Ha _ _ Hin Hq) as [U1 U2].
  destruct Hu as [?|[? _]]; congruence.
Qed.

Definition x_layer : list member := [
  {| m_name := "usr/x"; m_kind := MDir; m_mode := 493 |};
  {| m_name := "usr/x/up"; m_kind := MSym "../.."; m_mode := 511 |}].
Definition y_layer : list member := [
  {| m_name := "opt/y"; m_kind := MDir; m_mode := 493 |};
  {| m_name := "opt/y/e"; m_kind := MSym "../../usr/x/up/.."; m_mode := 511 |}].
Definition x_dest : tree := (unpack ["usr/x"] [x_layer] ∅).2.
Definition y_dest : tree := (unpack ["opt/y"] [y_layer] x_dest).2.

(** Vetted twice, a link can still lead out.  Two unpackings with
    different requested paths into one destination both succeed, each link
    inside its own image, and leave a link the kernel follows out of the
    destination: the second image's link goes through a name that is a link
    only because of the first. *)
Theorem two_unpacks_escape :
  (unpack ["usr/x"] [x_layer] ∅).1 = Ok tt ∧ (unpack ["opt/y"] [y_layer] x_dest).1 = Ok tt ∧
  y_dest !! ["opt"; "y"; "e"] = Some (Sym "../../usr/x/up/..") ∧ escapes y_dest MAX_HOPS ["opt"; "y"] ["e"].
Proof.
  assert (Hl : y_dest !! ["opt"; "y"; "e"] = Some (Sym "../../usr/x/up/..")) by (vm_compute; reflexivity).
  split; [vm_compute; reflexivity|]. split; [vm_compute; reflexivity|]. split; [exact Hl|].
  apply (resolves_outside y_dest ["opt"; "y"] "e" _ Hl); [split_and!; discriminate|]. vm_compute. reflexivity.
Qed.

(** A whiteout's own target is not vetted: [.wh..] in a directory removes that
    directory. *)
Example whiteout_dot_removes_parent :
  whiteout_step {[["usr"] := Dir 493; ["usr"; "lib"] := Dir 493]}
    {| m_name := "usr/.wh.."; m_kind := MReg ""; m_mode := 420 |} = Ok ∅.
Proof. vm_compute. reflexivity. Qed.

(** * A concrete image *)

Module Image.
(** A base layer and one over it that hides a file, adds one of its own and
    links to it. *)
Definition base : list member := [
  {| m_name := "usr/share"; m_kind := MDir; m_mode := 493 |};
  {| m_name := "usr/share/old"; m_kind := MReg "old"; m_mode := 420 |};
  {| m_name := "usr/share/tool"; m_kind := MReg "#!"; m_mode := 3565 |}].
Definition tool : member := {| m_name := "usr/share/new"; m_kind := MReg "new"; m_mode := 2541 |}.
Definition upper : list member := [
  {| m_name := "usr/share/.wh.old"; m_kind := MReg ""; m_mode := 420 |};
  {| m_name := "usr/share/link"; m_kind := MSym "../share/tool"; m_mode := 511 |}; tool].
Definition prefixes : list path := [["usr"; "share"]].
Definition dest0 : tree := {[["IMAGE"] := File "old image" 420; ["usr"] := Dir 493; ["usr"; "share"] := Dir 493;
                              ["usr"; "share"; "stale"] := File "stale" 420]}.
Lemma staged_ok : is_ok (apply_layers prefixes [base; upper]) = true.
Proof. vm_compute. reflexivity. Qed.
Definition staged : tree * modes := get_ok _ staged_ok.
Definition unpacked : tree := (unpack ["usr/share/"] [base; upper] dest0).2.

Lemma staged_eq : apply_layers prefixes [base; upper] = Ok (staged.1, staged.2).
Proof. rewrite <-surjective_pairing. apply get_ok_eq. Qed.
Lemma unpacked_eq : unpack ["usr/share/"] [base; upper] dest0 = (Ok tt, unpacked).
Proof.
  assert (H : (unpack ["usr/share/"] [base; upper] dest0).1 = Ok tt) by (vm_compute; reflexivity).
  unfold unpacked. rewrite <-H. apply surjective_pairing.
Qed.

(** A finite tree is well-formed when a check of its entries says so. *)
Definition wf_check (t : tree) : bool :=
  forallb (λ kn, negb (bool_decide (kn.1 = [])) &&
                 match parent_of kn.1 with
                 | [] => true
                 | p => match t !! p with Some (Dir _) => true | _ => false end end) (map_to_list t).
Lemma wf_check_wf t : wf_check t = true → wf t.
Proof.
  unfold wf_check. rewrite forallb_forall. intros H.
  assert (Hall : ∀ p n, t !! p = Some n → p ≠ [] ∧ match parent_of p with
     | [] => true | p => match t !! p with Some (Dir _) => true | _ => false end end = true).
  { intros p n Hn. specialize (H (p, n)). cbn in H. rewrite andb_true_iff, negb_true_iff, bool_decide_eq_false in H.
    apply H. by apply list_elem_of_In, elem_of_map_to_list. }
  split.
  - destruct (t !! []) eqn:H0; [|done]. by apply Hall in H0 as [? _].
  - intros p x n Hn. apply Hall in Hn as [_ Hn]. rewrite parent_snoc in Hn. destruct p as [|y p]; [by left|right].
    destruct (t !! (y :: p)) as [[mode| |]|]; try done. by exists mode.
Qed.
Lemma dest0_wf : wf dest0.
Proof. apply wf_check_wf. vm_compute. reflexivity. Qed.
End Image.

Section witnesses.
Import Image.

Lemma unpack_contained_witness :
  is_real_dir staged.1 ["usr"; "share"] = true ∧ staged.2 !! ["usr"; "share"] = Some 493%Z.
Proof.
  destruct (unpack_contained prefixes [base; upper] staged.1 staged.2 staged_eq) as [H _].
  split; [|vm_compute; reflexivity]. destruct (H ["usr"; "share"] "new" (File "new" 493)) as [Hd _]; [vm_compute; reflexivity|exact Hd].
Defined.

Lemma resolves_inside_exact_witness :
  resolves_inside staged.1 ["usr"; "share"; "link"] "../share/tool" = true ∧ ¬ escapes staged.1 MAX_HOPS ["usr"; "share"] ["link"].
Proof.
  split; [vm_compute; reflexivity|].
  apply (resolves_inside_exact staged.1 ["usr"; "share"] "link" "../share/tool").
  - vm_compute. reflexivity.
  - split_and!; discriminate.
  - vm_compute. reflexivity.
Defined.

Lemma unpack_all_or_nothing_witness :
  ∃ prefixes, prefixes_of ["usr/share/"] = Ok prefixes ∧ ∀ p, p ∈ prefixes → ∃ mode, unpacked !! p = Some (Dir mode).
Proof.
  destruct (unpack_all_or_nothing ["usr/share/"] [base; upper] dest0 (Ok tt) unpacked dest0_wf unpacked_eq)
    as (ps & t & dm & H1 & _ & H2 & _). exists ps. split; [exact H1|exact H2].
Defined.

Lemma unpacked_links_stay_inside_witness :
  ¬ escapes unpacked MAX_HOPS ["usr"; "share"] ["link"].
Proof.
  apply (unpacked_links_stay_inside ["usr/share/"] [base; upper] dest0 unpacked prefixes ["usr"; "share"] "link" "../share/tool"
           dest0_wf unpacked_eq).
  - vm_compute. reflexivity.
  - intros q to _ H. apply elem_of_map_to_list in H. vm_compute in H.
    repeat (apply elem_of_cons in H as [H|H]; [discriminate|]). by apply elem_of_nil in H.
  - vm_compute. reflexivity.
Defined.

Lemma layer_origin_witness :
  ∃ s', apply_layer prefixes (∅, ∅) base = Ok s' ∧
    ∃ m q, m ∈ base ∧ lands prefixes m q ∧ (under ["usr"; "share"; "old"] q = true ∨
      under q ["usr"; "share"; "old"] = true ∧ File "old" 420 = Dir 493).
Proof.
  assert (Hv : match apply_layer prefixes (∅, ∅) base with Ok s => s.1 !! ["usr"; "share"; "old"] | Raise _ => None end
    = Some (File "old" 420)) by (vm_compute; reflexivity).
  destruct (apply_layer prefixes (∅, ∅) base) as [s'|e] eqn:H; [|discriminate Hv].
  exists s'. split; [reflexivity|].
  destruct (layer_origin prefixes ∅ ∅ base s' ["usr"; "share"; "old"] (File "old" 420) wf_empty_tree H) as [[Hn _]|Hl].
  - exact Hv.
  - discriminate Hn.
  - exact Hl.
Defined.

Lemma layer_file_lands_witness :
  ∃ s', apply_layer prefixes (∅, ∅) upper = Ok s' ∧ s'.1 !! ["usr"; "share"; "new"] = Some (File "new" 493).
Proof.
  assert (Hv : is_ok (apply_layer prefixes (∅, ∅) upper) = true) by (vm_compute; reflexivity).
  destruct (apply_layer prefixes (∅, ∅) upper) as [s'|e] eqn:H; [|discriminate Hv].
  exists s'. split; [reflexivity|].
  refine (layer_file_lands prefixes ∅ ∅ (take 2 upper) tool [] s' ["usr"; "share"; "new"] "new" wf_empty_tree H _ _ _).
  - split_and!; [vm_compute; reflexivity|discriminate|vm_compute; reflexivity|vm_compute; reflexivity].
  - reflexivity.
  - intros m q Hm. by apply elem_of_nil in Hm.
Defined.
End witnesses.
