(* ===== verification/ReleaseRef.v ===== *)
(** [ansible/helpers/catena_admin_release.py]'s rules and
    [ansible/helpers/fetch_release.py]'s naming half: the highest release tag,
    the parts of an image reference, and which source names the image. *)
From S2P Require Import Prelude PyStr PyNum PyVal Json Encoding ImagePin.

#[local] Open Scope string_scope.

(** * The highest release tag *)

(** [int] of the three numbers of [^v?(\d+)\.(\d+)\.(\d+)$]; a tag read here is
    stripped, so [$] is its end. *)
Definition match_release (tag : string) : option (N * N * N) :=
  '(major, s) ← number (drop_v tag);
  '(minor, s) ← char_number "." s;
  '(patch, s) ← char_number "." s;
  if bool_decide (s = "") then Some (major, minor, patch) else None.

Definition version_gt (a b : N * N * N) : bool :=
  let '(a1, a2, a3) := a in
  let '(b1, b2, b3) := b in
  (b1 <? a1)%N || ((a1 =? b1)%N && ((b2 <? a2)%N || ((a2 =? b2)%N && (b3 <? a3)%N))).

Definition newest_step (best : string * option (N * N * N)) (tag : string) : string * option (N * N * N) :=
  match match_release (strip tag) with
  | None => best
  | Some key =>
      match best.2 with
      | None => (strip tag, Some key)
      | Some best_key => if version_gt key best_key then (strip tag, Some key) else best
      end
  end.
Definition newest_release (tags : list string) : string := (foldl newest_step ("", None) tags).1.

(** * References *)

(** [split_repository]: the registry host and the path on it. *)
Definition split_repository (repository : string) : res (string * string) :=
  let repository := strip_char "/" (strip repository) in
  if bool_decide (repository = "") then Raise ResolveError else
  let '(head, _, rest) := partition "/" repository in
  if negb (bool_decide (rest = "")) && (has_char "." head || has_char ":" head || bool_decide (head = "localhost"))
  then Ok (head, rest)
  else Ok ("registry-1.docker.io", repository).

Definition is_word_char (a : ascii) : bool := is_alnum a || is_char "_" a.
Definition drop_prefix (n : nat) (s : string) : string := String.substring n (String.length s - n) s.

(** [_DIGEST]: sha256: and sixty-four hexadecimal digits. *)
Definition digest_ok (s : string) : bool :=
  startswith s "sha256:" && (String.length s =? 71)%nat && sforall is_hex_char (drop_prefix 7 s).
(** [_TAG]: at most 128 characters. *)
Definition tag_ok (s : string) : bool :=
  match s with
  | EmptyString => false
  | String a rest =>
      is_word_char a && sforall (λ a, is_word_char a || is_char "." a || is_char "-" a) rest
      && (String.length rest <=? 127)%nat
  end.
(** [_HOST]: a name, perhaps with a port. *)
Definition host_char (a : ascii) : bool := is_alnum a || is_char "." a || is_char "-" a.
Definition host_ok (s : string) : bool :=
  let '(name, port, n) := partition ":" s in
  negb (bool_decide (name = "")) && sforall host_char name
  && (negb port || (negb (bool_decide (n = "")) && sforall is_digit n)).
(** [_PATH]: components of lower-case letters and digits joined by [.], [_] and
    [-], between slashes. *)
Definition low_alnum (a : ascii) : bool := is_lower a || is_digit a.
Fixpoint last_char (s : string) : option ascii :=
  match s with
  | EmptyString => None
  | String a EmptyString => Some a
  | String _ s => last_char s
  end.
Definition component_ok (s : string) : bool :=
  match s, last_char s with
  | String a _, Some z =>
      low_alnum a && low_alnum z
      && sforall (λ a, low_alnum a || is_char "." a || is_char "_" a || is_char "-" a) s
  | _, _ => false
  end.
Definition path_ok (s : string) : bool := forallb component_ok (split "/" s).

Record ref := { r_repository : string; r_host : string; r_path : string; r_tag : string; r_digest : string }.

(** [Ref.name] *)
Definition ref_name (r : ref) : string :=
  r_repository r +:+ (if bool_decide (r_tag r = "") then "" else ":" +:+ r_tag r)
  +:+ (if bool_decide (r_digest r = "") then "" else "@" +:+ r_digest r).

(** [parsed._replace(digest=...)] *)
Definition with_digest (d : string) (r : ref) : ref :=
  {| r_repository := r_repository r; r_host := r_host r; r_path := r_path r; r_tag := r_tag r; r_digest := d |}.

Definition parse_ref (s : string) : res ref :=
  let s := strip s in
  let '(name, _, digest) := partition "@" s in
  if bool_decide (name = "") then Raise FetchError else
  if negb (bool_decide (digest = "")) && negb (digest_ok digest) then Raise FetchError else
  let '(repository, tag) := split_ref (VStr name) in
  '(host, path) ← split_repository repository;
  if host_ok host && path_ok path && (bool_decide (tag = "") || tag_ok tag)
  then Ok {| r_repository := repository; r_host := host; r_path := path; r_tag := tag; r_digest := digest |}
  else Raise FetchError.

(** * The host's own answers *)

(** [pinned_image]: the store's text when the file exists. *)
Definition pinned_image (repository : string) (store : option string) : res string :=
  match store with
  | None => Ok ""
  | Some text =>
      doc ← loads text;
      match doc with
      | VDict d => Ok (catena_image_pinned (vget "image_pins" d) repository)
      | _ => Raise FetchError
      end
  end.

(** What [docker service inspect] did, when docker is installed. *)
Record inspected := { i_returncode : Z; i_stdout : string }.
Definition swarm_image (repository : string) (done : option inspected) : string :=
  match done with
  | None => ""
  | Some done =>
      let image := if bool_decide (i_returncode done = 0%Z) then strip (i_stdout done) else "" in
      if bool_decide ((split_ref (VStr image)).1 = repository) then image else ""
  end.

(** * The highest release tag, as promised *)

(** The order of two versions. *)
Definition version_le (a b : N * N * N) : Prop := version_gt a b = false.

Lemma version_le_spec a1 a2 a3 b1 b2 b3 :
  version_le (a1, a2, a3) (b1, b2, b3) ↔
  (a1 < b1 ∨ a1 = b1 ∧ (a2 < b2 ∨ a2 = b2 ∧ a3 <= b3))%N.
Proof.
  unfold version_le, version_gt. rewrite orb_false_iff, andb_false_iff, orb_false_iff, andb_false_iff,
    !N.ltb_ge, !N.eqb_neq. lia.
Qed.
Lemma version_le_refl a : version_le a a.
Proof. destruct a as [[a1 a2] a3]. apply version_le_spec. lia. Qed.
Lemma version_le_trans a b c : version_le a b → version_le b c → version_le a c.
Proof. destruct a as [[? ?] ?], b as [[? ?] ?], c as [[? ?] ?]. rewrite !version_le_spec. lia. Qed.
Lemma version_gt_le a b : version_gt a b = true → version_le b a.
Proof.
  destruct a as [[a1 a2] a3], b as [[b1 b2] b3]. rewrite version_le_spec. unfold version_gt.
  rewrite orb_true_iff, andb_true_iff, orb_true_iff, andb_true_iff, !N.ltb_lt, !N.eqb_eq. lia.
Qed.

(** What a prefix of the tags has given. *)
Definition best_of (tags : list string) (best : string * option (N * N * N)) : Prop :=
  match best.2 with
  | None => best.1 = "" ∧ ∀ t, t ∈ tags → match_release (strip t) = None
  | Some key =>
      (∃ t, t ∈ tags ∧ best.1 = strip t ∧ match_release (strip t) = Some key) ∧
      ∀ t key', t ∈ tags → match_release (strip t) = Some key' → version_le key' key
  end.

Lemma newest_step_best tags best t : best_of tags best → best_of (tags ++ [t]) (newest_step best t).
Proof.
  assert (Hin : ∀ u, u ∈ (tags ++ [t])%list ↔ u ∈ tags ∨ u = t).
  { intros u. by rewrite elem_of_app, list_elem_of_singleton. }
  unfold best_of, newest_step. destruct best as [b [key|]]; cbn [fst snd].
  - intros [(u & Hu & -> & Hk) Hmax]. destruct (match_release (strip t)) as [kt|] eqn:Ht; cbn [fst snd].
    + destruct (version_gt kt key) eqn:Hg; cbn [fst snd].
      * split; [exists t; rewrite Hin; split_and!; auto|]. intros v kv [Hv| ->]%Hin Hkv.
        -- eapply version_le_trans; [by eapply Hmax|by apply version_gt_le].
        -- rewrite Ht in Hkv. injection Hkv as <-. apply version_le_refl.
      * split; [exists u; rewrite Hin; split_and!; auto|]. intros v kv [Hv| ->]%Hin Hkv; [by eapply Hmax|].
        rewrite Ht in Hkv. by injection Hkv as <-.
    + split; [exists u; rewrite Hin; split_and!; auto|]. intros v kv [Hv| ->]%Hin Hkv; [by eapply Hmax|congruence].
  - intros [-> Hnone]. destruct (match_release (strip t)) as [kt|] eqn:Ht; cbn [fst snd].
    + split; [exists t; rewrite Hin; split_and!; auto|]. intros v kv [Hv| ->]%Hin Hkv; [by rewrite Hnone in Hkv|].
      rewrite Ht in Hkv. injection Hkv as <-. apply version_le_refl.
    + split; [done|]. intros v [Hv| ->]%Hin; auto.
Qed.

Lemma newest_best l tags best : best_of tags best → best_of (tags ++ l) (foldl newest_step best l).
Proof.
  revert tags best. induction l as [|t l IH]; intros tags best H; [by rewrite app_nil_r|]. cbn [foldl].
  change (t :: l) with ([t] ++ l)%list. rewrite app_assoc. by apply IH, newest_step_best.
Qed.

(** The highest release wins, and only a release can.  The answer is
    the empty string exactly when no tag is a plain vX.Y.Z release (so a
    pre-release or a build never wins); otherwise it is one of the tags,
    stripped, it is a release, and no release among the tags is higher. *)
Theorem newest_release_highest tags :
  (newest_release tags = "" ∧ ∀ t, t ∈ tags → match_release (strip t) = None) ∨
  ∃ t key, t ∈ tags ∧ newest_release tags = strip t ∧ match_release (strip t) = Some key ∧
    ∀ t' key', t' ∈ tags → match_release (strip t') = Some key' → version_gt key' key = false.
Proof.
  assert (H : best_of tags (foldl newest_step ("", None) tags)).
  { apply (newest_best tags []). split; [done|]. by intros t ?%elem_of_nil. }
  unfold newest_release, best_of in *. destruct (foldl _ _ tags) as [b [key|]]; cbn [fst snd] in *; [right|by left].
  destruct H as [(t & Ht & Hb & Hk) Hmax]. exists t, key. by split_and!.
Qed.

(** * A reference, named and read back *)

Lemma drop_prefix_app a b : drop_prefix (String.length a) (a +:+ b) = b.
Proof.
  unfold drop_prefix. rewrite length_sapp. replace (_ + _ - _)%nat with (String.length b) by lia.
  induction a as [|x a IH]; [|done]. induction b as [|y b IH]; [done|]. cbn in *. by rewrite IH.
Qed.

Lemma digest_no_space d : digest_ok d = true → sforall (λ a, negb (is_space a)) d = true ∧ d ≠ "".
Proof.
  unfold digest_ok. intros [[[r ->]%startswith_inv _]%andb_prop Hh]%andb_prop. split; [|done].
  change 7 with (String.length "sha256:") in Hh. rewrite drop_prefix_app in Hh. rewrite sforall_app.
  apply andb_true_intro; split; [done|]. refine (sforall_impl_neg _ _ _ _ Hh). apply is_hex_char_not_space.
Qed.

Lemma parse_ref_parts s r :
  parse_ref s = Ok r → host_ok (r_host r) = true ∧ path_ok (r_path r) = true ∧
  (r_digest r = "" ∨ digest_ok (r_digest r) = true).
Proof.
  unfold parse_ref. destruct (partition "@" (strip s)) as [[name found] digest].
  destruct (bool_decide (name = "")); [done|]. destruct (negb _ && _) eqn:Hd; [done|].
  destruct (split_ref _) as [rep tag]. intros ([host path] & _ & H)%res_bind_Ok.
  destruct (host_ok host && _ && _) eqn:Hok; [|done]. injection H as <-. cbn.
  apply andb_prop in Hok as [[? ?]%andb_prop _]. split_and!; [done..|].
  apply andb_false_iff in Hd as [Hd|Hd]; [left|right; by apply negb_false_iff].
  by apply negb_false_iff, bool_decide_eq_true in Hd.
Qed.

(** What [parse_ref] splits a tagged reference into. *)
Lemma parse_ref_inv s r :
  parse_ref s = Ok r → r_tag r ≠ "" →
  let name := r_repository r +:+ ":" +:+ r_tag r in
  strip name = name ∧ has_char "@" name = false ∧ split_ref (VStr name) = (r_repository r, r_tag r) ∧
  split_repository (r_repository r) = Ok (r_host r, r_path r) ∧
  host_ok (r_host r) && path_ok (r_path r) && (bool_decide (r_tag r = "") || tag_ok (r_tag r)) = true.
Proof.
  unfold parse_ref. pose proof (partition_inv "@" (strip s)) as (Hno & _ & _).
  destruct (partition "@" (strip s)) as [[name found] digest]. cbn [fst snd] in *.
  case_bool_decide as Hne; [done|]. destruct (negb _ && _); [done|].
  destruct (split_ref (VStr name)) as [repository tag] eqn:Hs. intros H Ht.
  apply res_bind_Ok in H as ([host path] & Hr & H).
  destruct (host_ok host && _ && _) eqn:Hok; [|done]. injection H as <-. cbn in *.
  assert (Hname : strip name = repository +:+ String ":" tag ∧ has_char "@" (strip name) = false).
  { unfold split_ref in Hs. destruct (bool_decide (strip name = "")); [by injection Hs as _ <-|].
    pose proof (partition_inv "@" (strip name)) as (Hn1 & Hn2 & Hn3).
    assert (Hat : has_char "@" (strip name) = false).
    { unfold has_char, sexists in *. apply negb_false_iff in Hno. apply negb_false_iff. by apply sforall_strip. }
    rewrite partition_none in Hs by done. cbn [fst] in Hs.
    pose proof (rpartition_inv ":" (strip name)) as Hrp. destruct (rpartition ":" (strip name)) as [[h []] t].
    - cbn [negb orb] in Hs. destruct (has_char "/" t); injection Hs as <- <-; [done|]. done.
    - by injection Hs as _ <-. }
  destruct Hname as [Hn Hat]. change (":" +:+ tag) with (String ":" tag). rewrite <-Hn. split_and!; [apply strip_idemp|done| |done|done].
  rewrite <-Hs. unfold split_ref. by rewrite strip_idemp.
Qed.

(** A tagged reference is read back as it was named.  Whatever
    digest is resolved for it, and also with none, the name of a parsed
    reference parses to the same registry host, path, repository, tag and
    digest. *)
Theorem parse_ref_name s r d :
  parse_ref s = Ok r → r_tag r ≠ "" → d = "" ∨ digest_ok d = true →
  parse_ref (ref_name (with_digest d r)) = Ok (with_digest d r).
Proof.
  intros H Ht Hd. apply parse_ref_inv in H as (Hs & Hat & Hsplit & Hrepo & Hok); [|done].
  set (name := r_repository r +:+ ":" +:+ r_tag r) in *.
  assert (Hne : name ≠ "") by (unfold name; by destruct (r_repository r)).
  assert (Hname : ref_name (with_digest d r) = name +:+ (if bool_decide (d = "") then "" else "@" +:+ d)).
  { unfold ref_name, with_digest, name. cbn [r_repository r_tag r_digest]. rewrite (bool_decide_false (r_tag r = "")) by done.
    by rewrite <-!string_app_assoc. }
  assert (Hpart : partition "@" (strip (name +:+ (if bool_decide (d = "") then "" else "@" +:+ d))) = (name, negb (bool_decide (d = "")), d)).
  { case_bool_decide as Hd0; [subst; by rewrite string_app_nil_r, Hs, partition_none|].
    destruct Hd as [|Hd]; [done|]. apply digest_no_space in Hd as [Hsp _].
    rewrite strip_app; [by apply partition_app|done|done| |done].
    apply rstrip_of_none. by rewrite sforall_app, Hsp. }
  unfold parse_ref. rewrite Hname, Hpart, (bool_decide_false (name = "")) by done.
  replace (negb (bool_decide (d = "")) && negb (digest_ok d)) with false.
  2:{ symmetry. destruct Hd as [-> | ->]; [done|by rewrite andb_false_r]. }
  rewrite Hsplit, Hrepo. cbn [mbind res_bind]. by rewrite Hok.
Qed.
