(* ===== verification/UrlLib.v ===== *)
(** The parts of Python's [urllib.parse] the program uses: splitting an
    address, resolving a redirect against it, and encoding a query.  They
    follow the library of Python 3.11.2, the oldest the program supports. *)
From S2P Require Import Prelude PyStr Encoding Sha256.

#[local] Open Scope string_scope.

Record url := { u_scheme : string; u_netloc : string; u_path : string; u_query : string; u_fragment : string }.

Definition is_scheme_char (a : ascii) : bool := is_alnum a || is_char "+" a || is_char "-" a || is_char "." a.

(** Tabs, carriage returns and newlines are dropped from an address. *)
Definition unsafe_char (a : ascii) : bool := let n := code a in (n =? 9)%N || (n =? 10)%N || (n =? 13)%N.
Fixpoint drop_unsafe (s : string) : string :=
  match s with
  | EmptyString => EmptyString
  | String a s => if unsafe_char a then drop_unsafe s else String a (drop_unsafe s)
  end.

Definition netloc_end (a : ascii) : bool := is_char "/" a || is_char "?" a || is_char "#" a.
Fixpoint until (stop : ascii → bool) (s : string) : string * string :=
  match s with
  | EmptyString => ("", "")
  | String a s' => if stop a then ("", s) else let '(h, t) := until stop s' in (String a h, t)
  end.

(** [urlsplit]; a netloc with one square bracket is refused. *)
Definition urlsplit (text default_scheme : string) : res url :=
  let text := drop_unsafe text in
  let '(scheme, rest) :=
    match partition ":" text with
    | (head, true, tail) =>
        if negb (bool_decide (head = "")) && sforall is_scheme_char head then (lower head, tail)
        else (default_scheme, text)
    | _ => (default_scheme, text)
    end in
  let '(netloc, rest) :=
    if startswith rest "//" then until netloc_end (String.substring 2 (String.length rest - 2) rest) else ("", rest) in
  if negb (Bool.eqb (has_char "[" netloc) (has_char "]" netloc)) then Raise ValueError else
  let '(rest, _, fragment) := partition "#" rest in
  let '(path, _, query) := partition "?" rest in
  Ok {| u_scheme := scheme; u_netloc := netloc; u_path := path; u_query := query; u_fragment := fragment |}.

(** [SplitResult.hostname] and [.port], [None] where Python's are. *)
Definition hostinfo (u : url) : string * string :=
  let '(_, _, info) := rpartition "@" (u_netloc u) in
  let '(_, bracket, bracketed) := partition "[" info in
  if (bracket : bool)
  then let '(host, _, rest) := partition "]" bracketed in let '(_, _, port) := partition ":" rest in (host, port)
  else let '(host, _, port) := partition ":" info in (host, port).
Definition hostname (u : url) : option string :=
  let host := (hostinfo u).1 in
  if bool_decide (host = "") then None
  else let '(name, percent, zone) := partition "%" host in Some (lower name +:+ (if (percent : bool) then "%" else "") +:+ zone).
Definition port_of (u : url) : res (option Z) :=
  let port := (hostinfo u).2 in
  if bool_decide (port = "") then Ok None
  else if negb (sforall is_digit port) then Raise ValueError
  else let n := Z.of_N (digits_val port) in if (n <=? 65535)%Z then Ok (Some n) else Raise ValueError.

(** [urlunsplit], for a scheme that takes a netloc. *)
Definition urlunsplit (u : url) : string :=
  let path := u_path u in
  let text :=
    if negb (bool_decide (u_netloc u = "")) || negb (startswith path "//")
    then "//" +:+ u_netloc u +:+ (if negb (bool_decide (path = "")) && negb (startswith path "/") then "/" +:+ path else path)
    else path in
  u_scheme u +:+ ":" +:+ text
  +:+ (if bool_decide (u_query u = "") then "" else "?" +:+ u_query u)
  +:+ (if bool_decide (u_fragment u = "") then "" else "#" +:+ u_fragment u).

(** The path's last parameters, after a semicolon of its last component. *)
Definition split_params (path : string) : string * string :=
  let '(dir, slash, leaf) := rpartition "/" path in
  let '(leaf, _, params) := partition ";" leaf in
  ((if slash then dir +:+ "/" +:+ leaf else leaf), params).
Definition join_params (path params : string) : string :=
  if bool_decide (params = "") then path else path +:+ ";" +:+ params.

(** [..] goes up, [.] stays. *)
Definition resolve_segment (acc : list string) (seg : string) : list string :=
  if bool_decide (seg = "..") then removelast acc
  else if bool_decide (seg = ".") then acc else (acc ++ [seg])%list.

(** The non-empty middle of a list, its ends kept. *)
Definition squeeze (l : list string) : list string :=
  match l with
  | [] => []
  | x :: l => x :: (List.filter (λ s, negb (bool_decide (s = ""))) (removelast l)
                    ++ match last l with Some y => [y] | None => [] end)%list
  end.

(** [urljoin] against an http or https address. *)
Definition urljoin (base text : string) : res string :=
  if bool_decide (base = "") then Ok text else
  if bool_decide (text = "") then Ok base else
  b ← urlsplit base "";
  u ← urlsplit text (u_scheme b);
  if negb (bool_decide (u_scheme u = u_scheme b)) then Ok text else
  let '(bpath, bparams) := split_params (u_path b) in
  let '(path, params) := split_params (u_path u) in
  if negb (bool_decide (u_netloc u = "")) then Ok (urlunsplit u) else
  if bool_decide (path = "") && bool_decide (params = "") then
    Ok (urlunsplit {| u_scheme := u_scheme u; u_netloc := u_netloc b; u_path := join_params bpath bparams;
                      u_query := if bool_decide (u_query u = "") then u_query b else u_query u;
                      u_fragment := u_fragment u |})
  else
    let base_parts := let l := split "/" bpath in
                      if bool_decide (last l = Some "") then l else removelast l in
    let segments := if startswith path "/" then split "/" path
                    else squeeze (base_parts ++ split "/" path)%list in
    let resolved := foldl resolve_segment [] segments in
    let resolved := match last segments with
                    | Some seg => if bool_decide (seg = ".") || bool_decide (seg = "..") then (resolved ++ [""])%list
                                  else resolved
                    | None => resolved end in
    let joined := sjoin "/" resolved in
    Ok (urlunsplit {| u_scheme := u_scheme u; u_netloc := u_netloc b;
                      u_path := join_params (if bool_decide (joined = "") then "/" else joined) params;
                      u_query := u_query u; u_fragment := u_fragment u |}).

(** ** Queries *)

Definition unreserved (a : ascii) : bool :=
  is_alnum a || is_char "_" a || is_char "." a || is_char "-" a || is_char "~" a.
Definition percent_digit (n : N) : ascii := ascii_of_N (if (n <? 10)%N then 48 + n else 55 + n).
Definition quote_char (a : ascii) : string :=
  if unreserved a then String a ""
  else if is_char " " a then "+"
  else String "%" (String (percent_digit (code a / 16)) (String (percent_digit (code a mod 16)) "")).
Fixpoint quote_bytes (s : string) : string :=
  match s with EmptyString => "" | String a s => quote_char a +:+ quote_bytes s end.
(** [quote_plus] *)
Definition quote_plus (s : string) : string := quote_bytes (utf8 s).
(** [quote], which leaves slashes alone *)
Fixpoint quote_path_bytes (s : string) : string :=
  match s with
  | EmptyString => ""
  | String a s => (if is_char "/" a then String a "" else if is_char " " a then "%20" else quote_char a) +:+ quote_path_bytes s
  end.
Definition quote_path (s : string) : string := quote_path_bytes (utf8 s).
Definition urlencode (params : list (string * string)) : string :=
  sjoin "&" (map (λ '(k, v), quote_plus k +:+ "=" +:+ quote_plus v) params).
Example join1 : urljoin "https://ghcr.io/v2/a/b?x=1" "../c/./d" = Ok "https://ghcr.io/v2/c/d".
Proof. vm_compute. reflexivity. Qed.
Example join2 : urljoin "https://ghcr.io/v2/a" "https://x.y/z?q#f" = Ok "https://x.y/z?q#f".
Proof. vm_compute. reflexivity. Qed.
Example join3 : urljoin "https://ghcr.io/v2/a" "//h/p;q=1" = Ok "https://h/p;q=1".
Proof. vm_compute. reflexivity. Qed.
Example join4 : urljoin "https://ghcr.io" "x/.." = Ok "https://ghcr.io/".
Proof. vm_compute. reflexivity. Qed.
