(* ===== verification/IpAddress.v ===== *)
(** What [ansible/helpers/tailnet_reachability.py] uses of Python's standard
    library: [shlex.split] and [ipaddress]: addresses and networks of both
    families, read from text (Python 3.11). *)
From S2P Require Import Prelude PyStr PyNum.

#[local] Open Scope string_scope.

(** * [shlex.split(text)] *)

Definition squote : ascii := ascii_of_N 39.
Definition dquote : ascii := ascii_of_N 34.
Definition backslash : ascii := ascii_of_N 92.
Definition shlex_space (a : ascii) : bool :=
  let n := code a in (n =? 32)%N || (n =? 9)%N || (n =? 13)%N || (n =? 10)%N.
Definition is_quote (a : ascii) : bool := is_char squote a || is_char dquote a.

(** The lexer's states: between words, inside one, inside a quote, after a
    backslash in a word or in a double quote. *)
Inductive lexing := Between | Word | Quoted (q : ascii) | Escape (back : lexing).

(** One word as far as it is read; [quoted] keeps a word that is empty. *)
Fixpoint shlex_go (st : lexing) (token : string) (quoted : bool) (s : string) : res (list string) :=
  let emit rest := if negb (bool_decide (token = "")) || quoted then (token :: rest)%list else rest in
  let add a := token +:+ String a "" in
  match s with
  | EmptyString =>
      match st with
      | Quoted _ | Escape _ => Raise ValueError
      | Between | Word => Ok (emit [])
      end
  | String a s =>
      match st with
      | Between =>
          if shlex_space a then rest ← shlex_go Between "" false s; Ok (emit rest)
          else if is_char backslash a then shlex_go (Escape Word) token quoted s
          else if is_quote a then shlex_go (Quoted a) token quoted s
          else shlex_go Word (String a "") quoted s
      | Word =>
          if shlex_space a then rest ← shlex_go Between "" false s; Ok (emit rest)
          else if is_quote a then shlex_go (Quoted a) token quoted s
          else if is_char backslash a then shlex_go (Escape Word) token quoted s
          else shlex_go Word (add a) quoted s
      | Quoted q =>
          if is_char q a then shlex_go Word token true s
          else if is_char backslash a && is_char dquote q then shlex_go (Escape (Quoted q)) token true s
          else shlex_go (Quoted q) (add a) true s
      | Escape (Quoted q) =>
          (* inside quotes only the quote and the backslash are escaped *)
          if is_char backslash a || is_char q a then shlex_go (Quoted q) (add a) quoted s
          else shlex_go (Quoted q) (token +:+ String backslash (String a "")) quoted s
      | Escape back => shlex_go back (add a) quoted s
      end
  end.

Definition shlex_split (s : string) : res (list string) := shlex_go Between "" false s.

(** * Addresses *)

Inductive family := V4 | V6.
#[export] Instance family_eq_dec : EqDecision family.
Proof. solve_decision. Defined.

Definition width (f : family) : Z := match f with V4 => 32 | V6 => 128 end.

Record ip := { ip_version : family; ip_int : Z; scope_id : option string }.
#[export] Instance ip_eq_dec : EqDecision ip.
Proof. solve_decision. Defined.

(** [IPv4Address._parse_octet]: one to three ASCII digits, no leading zero, at most 255. *)
Definition parse_octet (s : string) : option Z :=
  if bool_decide (s = "") || negb (sforall is_digit s) || (3 <? String.length s)%nat then None
  else if negb (bool_decide (s = "0")) && startswith s "0" then None
  else let n := Z.of_N (digits_val s) in if (255 <? n)%Z then None else Some n.

Definition ip4_int (s : string) : option Z :=
  match split "." s with
  | [a; b; c; d] =>
      a ← parse_octet a; b ← parse_octet b; c ← parse_octet c; d ← parse_octet d;
      Some (((a * 256 + b) * 256 + c) * 256 + d)%Z
  | _ => None
  end.

Definition hex_value (a : ascii) : option Z :=
  if is_digit a then Some (Z.of_N (code a) - 48)%Z
  else if code_in 97 102 a then Some (Z.of_N (code a) - 87)%Z
  else if code_in 65 70 a then Some (Z.of_N (code a) - 55)%Z
  else None.
Fixpoint hex_go (acc : Z) (s : string) : option Z :=
  match s with
  | EmptyString => Some acc
  | String a s => v ← hex_value a; hex_go (16 * acc + v)%Z s
  end.
(** [IPv6Address._parse_hextet]: one to four hexadecimal digits. *)
Definition parse_hextet (s : string) : option Z :=
  if bool_decide (s = "") || (4 <? String.length s)%nat then None else hex_go 0 s.

(** The hextets of a text split on its colons; a dotted last part counts two. *)
Inductive part := Text (s : string) | Value (n : Z).
Definition part_empty (p : part) : bool := match p with Text s => bool_decide (s = "") | Value _ => false end.
Definition part_val (p : part) : option Z := match p with Text s => parse_hextet s | Value n => Some n end.

Definition ip6_parts (s : string) : option (list part) :=
  let ws := split ":" s in
  if (length ws <? 3)%nat then None else
  let final := default "" (last ws) in
  if has_char "." final then
    v ← ip4_int final;
    Some (map Text (removelast ws) ++ [Value (Z.shiftr v 16); Value (Z.land v 65535)])%list
  else Some (map Text ws).

(** The index of the only empty part between the first and the last, if any;
    no value when there are two. *)
Fixpoint skip_index (i : nat) (ps : list part) : option (option nat) :=
  match ps with
  | [] | [_] => Some None
  | p :: ps =>
      r ← skip_index (S i) ps;
      if part_empty p then match r with None => Some (Some i) | Some _ => None end else Some r
  end.

Definition hextets (ps : list part) : option Z :=
  foldl (λ acc p, a ← acc; v ← part_val p; Some (a * 65536 + v)%Z) (Some 0%Z) ps.

(** [IPv6Address._ip_int_from_string] *)
Definition ip6_int (s : string) : option Z :=
  if bool_decide (s = "") then None else
  ps ← ip6_parts s;
  if (9 <? length ps)%nat then None else
  let n := length ps in
  let empty_first := part_empty (default (Text "") (head ps)) in
  let empty_last := part_empty (default (Text "") (last ps)) in
  skip ← skip_index 1 (tail ps);
  match skip with
  | Some i =>
      let hi := (if empty_first then i - 1 else i)%nat in
      let lo := (if empty_last then n - i - 1 - 1 else n - i - 1)%nat in
      if (empty_first && negb (hi =? 0)%nat) || (empty_last && negb (lo =? 0)%nat) then None else
      if (8 <=? hi + lo)%nat then None else
      h ← hextets (take hi ps);
      l ← hextets (drop (n - lo) ps);
      Some (Z.shiftl h (16 * (8 - Z.of_nat hi)) + l)%Z
  | None =>
      if negb (n =? 8)%nat || empty_first || empty_last then None else hextets ps
  end.

(** [IPv6Address._split_scope_id] *)
Definition split_scope (s : string) : option (string * option string) :=
  match partition "%" s with
  | (addr, false, _) => Some (addr, None)
  | (addr, true, id) => if bool_decide (id = "") || has_char "%" id then None else Some (addr, Some id)
  end.

Definition ip4_address (s : string) : option ip :=
  if has_char "/" s then None else n ← ip4_int s; Some {| ip_version := V4; ip_int := n; scope_id := None |}.
Definition ip6_address (s : string) : option ip :=
  if has_char "/" s then None else
  '(addr, scope) ← split_scope s;
  n ← ip6_int addr; Some {| ip_version := V6; ip_int := n; scope_id := scope |}.

Definition or_value_error {A} (r : option A) : res A :=
  match r with Some a => Ok a | None => Raise ValueError end.

(** [ipaddress.ip_address(text)] *)
Definition ip_address (s : string) : res ip :=
  or_value_error (match ip4_address s with Some a => Some a | None => ip6_address s end).

(** [a <= b] for two addresses of one family: [functools.total_ordering] over
    [__lt__] and [__eq__], which compares the scope too. *)
Definition ip_le (a b : ip) : bool := (ip_int a <? ip_int b)%Z || bool_decide (a = b).

(** * Networks *)

Record network := { net_version : family; net_int : Z; net_mask : Z }.

Definition all_ones (f : family) : Z := (Z.shiftl 1 (width f) - 1)%Z.
(** The mask of a prefix length. *)
Definition mask_of (f : family) (prefixlen : Z) : Z :=
  Z.lxor (all_ones f) (Z.shiftr (all_ones f) prefixlen).

Definition prefix_of_digits (f : family) (s : string) : option Z :=
  if bool_decide (s = "") || negb (sforall is_digit s) then None
  else let n := Z.of_N (digits_val s) in if (n <=? width f)%Z then Some n else None.

(** [_prefix_from_ip_int]: the length whose mask an integer is, counting its
    zero bits on the right. *)
Fixpoint zero_bits (fuel : nat) (n : Z) : Z :=
  match fuel with
  | O => 0
  | S fuel => if Z.testbit n 0 then 0 else 1 + zero_bits fuel (Z.shiftr n 1)
  end.
Definition prefix_of_int (n : Z) : option Z :=
  let zeroes := zero_bits 32 n in
  let len := (32 - zeroes)%Z in
  if bool_decide (Z.shiftr n zeroes = Z.shiftl 1 len - 1)%Z then Some len else None.

(** [_make_netmask]: a prefix length; for IPv4 also a netmask or a hostmask. *)
Definition make_netmask (f : family) (mask : string) : option Z :=
  match prefix_of_digits f mask, f with
  | Some n, _ => Some (mask_of f n)
  | None, V6 => None
  | None, V4 =>
      n ← ip4_int mask;
      match prefix_of_int n with
      | Some len => Some (mask_of V4 len)
      | None => len ← prefix_of_int (Z.lxor n (all_ones V4)); Some (mask_of V4 len)
      end
  end.

(** [IPv4Network(text, strict)], [IPv6Network(text, strict)] *)
Definition family_network (f : family) (strict : bool) (s : string) : option network :=
  let address t := match f with V4 => ip4_address t | V6 => ip6_address t end in
  let make a mask :=
    if strict && negb (bool_decide (Z.land (ip_int a) mask = ip_int a)) then None
    else Some {| net_version := f; net_int := Z.land (ip_int a) mask; net_mask := mask |} in
  match split "/" s with
  | [addr] => a ← address addr; make a (mask_of f (width f))
  | [addr; mask] => a ← address addr; m ← make_netmask f mask; make a m
  | _ => None
  end.

(** [ipaddress.ip_network(text, strict)] *)
Definition ip_network (strict : bool) (s : string) : res network :=
  or_value_error (match family_network V4 strict s with
                  | Some n => Some n
                  | None => family_network V6 strict s
                  end).

(** [address in network] *)
Definition in_network (a : ip) (n : network) : bool :=
  bool_decide (ip_version a = net_version n) && bool_decide (Z.land (ip_int a) (net_mask n) = net_int n).

(** ** The readers, run *)

Example ip6_mixed : ip_address "::ffff:1.2.3.4" = Ok {| ip_version := V6; ip_int := 281470698652420; scope_id := None |}.
Proof. vm_compute. reflexivity. Qed.
Example ip4_zero_padded : ip_address "01.2.3.4" = Raise ValueError.
Proof. vm_compute. reflexivity. Qed.
Example ip_host_bits : ip_network true "100.64.0.1/10" = Raise ValueError.
Proof. vm_compute. reflexivity. Qed.
Example ip_hostmask : ip_network false "100.64.0.1/0.0.0.255" = ip_network true "100.64.0.0/24".
Proof. vm_compute. reflexivity. Qed.
