(* ===== verification/TailnetFirewallFacts.v ===== *)
(** The traversal the kernel makes of a ruleset, given which rules really
    match the packet, and the walk of [TailnetFirewall] against it. *)
From S2P Require Import Prelude PyStr PyNum PyVal IpAddress TailnetFirewall.

#[local] Open Scope string_scope.

(** * The kernel's traversal *)

Definition line_action (t : table) (line : string) : res (option action) :=
  tokens ← shlex_split line;
  target ← target_of tokens;
  Ok (match target with None => None | Some (goto, target) => Some (action_of t goto target) end).

Section kernel.
Context (t : table) (truth : string → bool).

(** What the rest of a chain decides for the packet. *)
Inductive passes : list string → verdict → Prop :=
  | passes_end : passes [] RETURN
  | passes_miss line ls v : truth line = false → passes ls v → passes (line :: ls) v
  | passes_count line ls v : line_action t line = Ok None → passes ls v → passes (line :: ls) v
  | passes_on line ls v : line_action t line = Ok (Some CarryOn) → passes ls v → passes (line :: ls) v
  | passes_stop line ls v :
      truth line = true → line_action t line = Ok (Some (Stop v)) → passes (line :: ls) v
  | passes_back line ls c v :
      truth line = true → line_action t line = Ok (Some (Enter false c)) →
      passes (chain_rules t c) RETURN → passes ls v → passes (line :: ls) v
  | passes_enter line ls goto c v :
      truth line = true → line_action t line = Ok (Some (Enter goto c)) →
      passes (chain_rules t c) v → v ≠ RETURN ∨ goto = true → passes (line :: ls) v.
End kernel.

(** The packet through the hooks: [true] when every table lets it on. *)
Inductive inbound (tables : dict table) (truth : string → bool) : list (string * string) → bool → Prop :=
  | inbound_end : inbound tables truth [] true
  | inbound_absent tname name hooks b :
      dhas name (rules (default empty_table (dget tname tables))) = false →
      inbound tables truth hooks b → inbound tables truth ((tname, name) :: hooks) b
  | inbound_drop tname name hooks t :
      t = default empty_table (dget tname tables) → dhas name (rules t) = true →
      passes t truth (chain_rules t name) DROP → inbound tables truth ((tname, name) :: hooks) false
  | inbound_policy tname name hooks t :
      t = default empty_table (dget tname tables) → dhas name (rules t) = true →
      passes t truth (chain_rules t name) RETURN → dget name (policy t) = Some "DROP" →
      inbound tables truth ((tname, name) :: hooks) false
  | inbound_through tname name hooks t v b :
      t = default empty_table (dget tname tables) → dhas name (rules t) = true →
      passes t truth (chain_rules t name) v →
      v = ACCEPT ∨ v = RETURN ∧ dget name (policy t) ≠ Some "DROP" →
      inbound tables truth hooks b → inbound tables truth ((tname, name) :: hooks) b.

(** A truth the decided rules agree with. *)
Definition agrees (own : list ip) (truth : string → bool) : Prop :=
  ∀ line tokens b, shlex_split line = Ok tokens → rule_matches own tokens = Ok (Some b) → truth line = b.

(** Every rule that leaves a chain early without a verdict is decided. *)
Definition returns_decided (own : list ip) (t : table) : Prop :=
  ∀ name line act m, line ∈ chain_rules t name → read_rule own t line = Ok (Some (act, m)) →
    act = Stop RETURN ∨ (∃ c, act = Enter true c) → m ≠ None.

(** * The walk of one chain *)

Section walk.
Context (own : list ip) (tname : string) (t : table) (truth : string → bool).
Context (Htruth : agrees own truth) (Hreturns : returns_decided own t).

(** A chain walked without a report: no kernel traversal of it drops the
    packet, and one that returns is walked as returning. *)
Definition safe_chain (ls : list string) (v : verdict) : Prop :=
  v ≠ DROP ∧ ∀ kv, passes t truth ls kv → kv ≠ DROP ∧ (kv = RETURN → v = RETURN).

Definition walks (ls : list string) (reasons reasons' : list string) (v : verdict) : Prop :=
  reasons `prefix_of` reasons' ∧ (reasons' = reasons → safe_chain ls v).

Lemma line_action_spec line r :
  read_rule own t line = Ok r → line_action t line = Ok (fst <$> r).
Proof.
  unfold read_rule, line_action. destruct (shlex_split line) as [tokens|]; [|done]. cbn [mbind res_bind].
  destruct (target_of tokens) as [[[g c]|]|]; cbn [mbind res_bind]; try done; [|by intros [= <-]].
  destruct (rule_matches own tokens); [|done]. cbn [mbind res_bind]. by intros [= <-].
Qed.

Lemma decided_truth line act b : read_rule own t line = Ok (Some (act, Some b)) → truth line = b.
Proof.
  unfold read_rule. destruct (shlex_split line) as [tokens|] eqn:E; [|done]. cbn [mbind res_bind].
  destruct (target_of tokens) as [[[g c]|]|]; cbn [mbind res_bind]; try done.
  destruct (rule_matches own tokens) as [m|] eqn:Em; [|done]. cbn. intros [= <- ->].
  by eapply Htruth.
Qed.

Lemma prefix_grows (l l' : list string) x : (l ++ [x])%list `prefix_of` l' → l `prefix_of` l' ∧ l' ≠ l.
Proof.
  intros [k ->]. split; [exists (x :: k); by rewrite <- app_assoc|].
  intros H. apply (f_equal length) in H. rewrite !length_app in H. cbn in H. lia.
Qed.

(** A rule that cannot end the chain for the packet leaves it to the rest. *)
Lemma safe_skip line ls v act :
  line_action t line = Ok act →
  (truth line = true → match act with
                       | None | Some CarryOn | Some (Stop ACCEPT) => True
                       | Some (Enter g c) => g = false ∧ ∃ v', safe_chain (chain_rules t c) v'
                       | _ => False
                       end) →
  safe_chain ls v → safe_chain (line :: ls) v.
Proof.
  intros Ha Hskip [Hd Hs]. split; [done|]. intros kv Hk.
  inversion Hk; subst; rewrite ?Ha in *; simplify_eq; eauto.
  - specialize (Hskip ltac:(done)). by destruct kv.
  - destruct (Hskip ltac:(done)) as (-> & v' & Hd' & Hs').
    match goal with H : passes _ _ (chain_rules _ _) _ |- _ => destruct (Hs' _ H) end. naive_solver.
Qed.

Lemma safe_stop line ls v :
  truth line = true → line_action t line = Ok (Some (Stop v)) → v ≠ DROP → safe_chain (line :: ls) v.
Proof.
  intros Ht Ha Hv. split; [done|]. intros kv Hk. inversion Hk; subst; rewrite ?Ha in *; simplify_eq; congruence || auto.
Qed.

Lemma safe_enter line ls g c v :
  truth line = true → line_action t line = Ok (Some (Enter g c)) → v ≠ RETURN ∨ g = true →
  safe_chain (chain_rules t c) v → safe_chain (line :: ls) v.
Proof.
  intros Ht Ha Hv [Hd Hs]. split; [done|]. intros kv Hk.
  inversion Hk; subst; rewrite ?Ha in *; simplify_eq; try congruence; [|by apply Hs].
  match goal with H : passes _ _ (chain_rules _ _) _ |- _ => destruct (Hs _ H) end. naive_solver.
Qed.

Definition undecided_leaves (ls : list string) : Prop :=
  ∀ line act m, line ∈ ls → read_rule own t line = Ok (Some (act, m)) →
    act = Stop RETURN ∨ (∃ c, act = Enter true c) → m ≠ None.

Definition sub_walks (sub : option (string → list string → res (list string * verdict))) : Prop :=
  ∀ chain c rs rs' v, sub = Some chain → chain c rs = Ok (rs', v) → walks (chain_rules t c) rs rs' v.

Lemma walks_grew ls reasons x reasons' v : (reasons ++ [x])%list `prefix_of` reasons' → walks ls reasons reasons' v.
Proof. intros [Hp Hn]%prefix_grows. by split. Qed.

(** A rule that may match: the rest is only as safe as the rule allows. *)
Lemma scan_rule name sub line ls act m reasons reasons' v :
  sub_walks sub → undecided_leaves (line :: ls) →
  (∀ rs rs' v, scan own tname t name sub ls rs = Ok (rs', v) → walks ls rs rs' v) →
  read_rule own t line = Ok (Some (act, m)) → m ≠ Some false →
  scan own tname t name sub (line :: ls) reasons = Ok (reasons', v) → walks (line :: ls) reasons reasons' v.
Proof.
  intros Hsub Hret IH E Hm H. pose proof (line_action_spec _ _ E) as Ha. cbn in Ha.
  cbn [scan] in H. rewrite E in H. cbn [mbind res_bind] in H.
  assert (Hdec : m = None ∨ m = Some true ∧ truth line = true).
  { destruct m as [[]|]; [right|done|by left]. split; [done|]. by eapply decided_truth. }
  assert (Hskip : ∀ rs, scan own tname t name sub ls rs = Ok (reasons', v) → reasons `prefix_of` rs →
    (reasons' = reasons → rs = reasons → safe_chain ls v → safe_chain (line :: ls) v) →
    walks (line :: ls) reasons reasons' v).
  { intros rs H0 Hp Hs. destruct (IH _ _ _ H0) as [Hp' Hs']. split; [by etrans|]. intros ->.
    assert (rs = reasons) as ->; [|by auto]. by apply (anti_symm prefix). }
  destruct act as [[| |]|g c|]; destruct m as [[]|]; try done; cbn in H;
    rewrite ?bool_decide_true, ?bool_decide_false in H by done; cbn in H.
  - simplify_eq. split; [done|]. intros _. destruct Hdec as [?|[_ ?]]; [done|]. by eapply safe_stop.
  - eapply Hskip; [done..|]. intros _ _. by eapply safe_skip.
  - simplify_eq. by eapply walks_grew.
  - by eapply walks_grew, IH.
  - simplify_eq. split; [done|]. intros _. destruct Hdec as [?|[_ ?]]; [done|]. by eapply safe_stop.
  - exfalso. eapply (Hret line); [by left|done|by left|done].
  - destruct Hdec as [?|[_ Ht]]; [done|]. destruct sub as [chain|]; [|simplify_eq; by eapply walks_grew].
    apply res_bind_Ok in H as ([rs1 v1] & H1 & H). destruct (Hsub _ _ _ _ _ eq_refl H1) as [Hp Hs].
    destruct (negb _ || g) eqn:Eg.
    + simplify_eq. split; [done|]. intros ->. eapply safe_enter; [done..| |by auto].
      destruct g; [by right|left]. by case_bool_decide.
    + apply orb_false_iff in Eg as [_ ->].
      eapply Hskip; [done..|]. intros _ -> Hl. eapply safe_skip; [done| |done]. intros _. split; [done|]. exists v1. auto.
  - destruct sub as [chain|]; [|simplify_eq; by eapply walks_grew].
    apply res_bind_Ok in H as ([rs1 v1] & H1 & H). destruct (Hsub _ _ _ _ _ eq_refl H1) as [Hp Hs].
    eapply Hskip; [done..|]. intros _ -> Hl. eapply safe_skip; [done| |done]. intros _. split; [|eauto].
    destruct g; [|done]. exfalso. eapply (Hret line); [by left|done|right; by eexists|done].
  - eapply Hskip; [done..|]. intros _ _. by eapply safe_skip.
  - eapply Hskip; [done..|]. intros _ _. by eapply safe_skip.
Qed.

Lemma scan_walks name sub ls reasons reasons' v :
  sub_walks sub → undecided_leaves ls →
  scan own tname t name sub ls reasons = Ok (reasons', v) → walks ls reasons reasons' v.
Proof.
  intros Hsub. revert reasons reasons' v.
  induction ls as [|line ls IH]; intros reasons reasons' v Hret H.
  { cbn in H. simplify_eq. split; [done|]. intros _. split; [done|]. intros kv Hk. by inversion Hk. }
  assert (Hrest : ∀ rs rs' v, scan own tname t name sub ls rs = Ok (rs', v) → walks ls rs rs' v).
  { intros rs rs' v0. apply IH. intros l act m Hl. apply Hret. by right. }
  destruct (read_rule own t line) as [[[act m]|]|e] eqn:E.
  - destruct (decide (m = Some false)) as [->|Hm]; [|by eapply scan_rule].
    pose proof (decided_truth _ _ _ E) as Hf. apply line_action_spec in E as Ha.
    cbn [scan] in H. rewrite E in H. cbn in H. destruct (Hrest _ _ _ H) as [? Hs]. split; [done|].
    intros Heq. eapply safe_skip; [done|congruence|auto].
  - apply line_action_spec in E as Ha. cbn [scan] in H. rewrite E in H. cbn in H.
    destruct (Hrest _ _ _ H) as [? Hs]. split; [done|]. intros Heq. eapply safe_skip; [done|done|auto].
  - cbn [scan] in H. by rewrite E in H.
Qed.

Lemma chain_walks room name reasons reasons' v :
  chain own tname t room name reasons = Ok (reasons', v) → walks (chain_rules t name) reasons reasons' v.
Proof.
  revert name reasons reasons' v. induction room as [|room IH]; intros name reasons reasons' v H; cbn [chain] in H.
  - eapply scan_walks; [| |done]; [done|]. intros line act m. apply Hreturns.
  - eapply scan_walks; [| |done]; [|intros line act m; apply Hreturns].
    intros ch c rs rs' v' [= <-] Hc. by eapply IH.
Qed.
End walk.

Section hooks.
Context (own : list ip) (tables : dict table) (truth : string → bool).
Context (Htruth : agrees own truth).
Context (Hreturns : ∀ tname, returns_decided own (default empty_table (dget tname tables))).

Lemma walk_hooks_grows hooks reasons reasons' :
  walk_hooks own tables hooks reasons = Ok reasons' → reasons `prefix_of` reasons'.
Proof.
  revert reasons. induction hooks as [|[tname name] hooks IH]; intros reasons H; cbn [walk_hooks] in H; [by simplify_eq|].
  destruct (negb _); [by apply IH|]. apply res_bind_Ok in H as ([rs v] & Hc & H).
  apply chain_walks with (truth := truth) in Hc as [Hp _]; [|done|apply Hreturns].
  etrans; [done|]. destruct v; [destruct (bool_decide _) in H| |destruct (bool_decide _) in H]; simplify_eq; auto.
  by exists [tname +:+ ": nothing in " +:+ name +:+ " accepts it and its policy is DROP"].
Qed.

(** The rest of the hooks start from no reason when the whole ends with none. *)
Lemma hook_inv tname name hooks :
  walk_hooks own tables ((tname, name) :: hooks) [] = Ok [] →
  let t := default empty_table (dget tname tables) in
  dhas name (rules t) = true → ∃ v, safe_chain t truth (chain_rules t name) v ∧
    match v with
    | DROP => False
    | RETURN => dget name (policy t) ≠ Some "DROP" ∧ walk_hooks own tables hooks [] = Ok []
    | ACCEPT => tname = "filter" ∨ walk_hooks own tables hooks [] = Ok []
    end.
Proof.
  intros H t Hd. cbn [walk_hooks] in H. fold t in H. rewrite Hd in H. cbn [negb] in H.
  apply res_bind_Ok in H as ([rs v] & Hc & H).
  apply chain_walks with (truth := truth) in Hc as [Hp Hs]; [|done|apply Hreturns].
  assert (rs = []) as ->.
  { assert (rs `prefix_of` []) as [k Hk]; [|by destruct rs].
    destruct v; [destruct (bool_decide _) in H| |destruct (bool_decide _) in H]; simplify_eq; [done|..|by eapply walk_hooks_grows].
    all: try by eapply walk_hooks_grows. 1: done. by destruct rs. }
  exists v. specialize (Hs eq_refl). split; [done|].
  destruct v; [|by destruct Hs|]; revert H; case_bool_decide; naive_solver.
Qed.

Lemma walk_hooks_sound hooks b :
  (∀ i tname name, hooks !! i = Some (tname, name) → tname = "filter" → S i = length hooks) →
  walk_hooks own tables hooks [] = Ok [] → inbound tables truth hooks b → b = true.
Proof.
  intros Hlast H Hin. revert Hlast H.
  induction Hin as [|tname name hooks b Ha Hin IH|tname name hooks t -> Hd Hp|tname name hooks t -> Hd Hp Hpol
    |tname name hooks t v b -> Hd Hp Hv Hin IH]; intros Hlast H; [done|..].
  { apply IH; [|cbn [walk_hooks] in H; by rewrite Ha in H].
    intros i tn n Hi Hf. specialize (Hlast (S i) tn n Hi Hf). cbn in Hlast. lia. }
  all: destruct (hook_inv _ _ _ H Hd) as (v' & [_ Hs] & Hcase); destruct (Hs _ Hp) as [Hkv Hret]; try done.
  - rewrite (Hret eq_refl) in Hcase. by destruct Hcase.
  - assert (Hrest : walk_hooks own tables hooks [] = Ok [] → b = true).
    { apply IH. intros i tn n Hi Hf. specialize (Hlast (S i) tn n Hi Hf). cbn in Hlast. lia. }
    destruct v'; [|done|apply Hrest, Hcase]. destruct Hcase as [Hf|?]; [|auto].
    specialize (Hlast 0 _ _ eq_refl Hf). destruct hooks; [|done]. by inversion Hin.
Qed.
End hooks.

(** Claim C13: a ruleset [walk_inbound] has nothing to report of is one the
    kernel lets the packet through: whatever rules really match it, as long
    as they include the decided ones as decided and no undecided rule leaves
    a chain early (RETURN, or [-g]), the kernel's traversal of the hooks does
    not drop it, in a chain nor by a policy. *)
Theorem walk_inbound_sound own tables truth b :
  agrees own truth → (∀ tname, returns_decided own (default empty_table (dget tname tables))) →
  walk_inbound own tables = Ok [] → inbound tables truth INBOUND b → b = true.
Proof.
  intros Ht Hr H Hin. unfold walk_inbound in H.
  destruct (walk_hooks own tables INBOUND []) as [l|] eqn:E; [|done]. cbn in H. simplify_eq.
  assert (l = []) as -> by by apply fromkeys_nil.
  eapply walk_hooks_sound; [done..| |done|done].
  intros i tname name Hi ->. destruct i as [|[|[|[|[|i]]]]]; cbn in Hi; discriminate || reflexivity.
Qed.

(** * A ruleset, run *)

(** A truth that takes the undecided rules as [d] says. *)
Definition truth_with (own : list ip) (d : string → bool) (line : string) : bool :=
  match tokens ← shlex_split line; rule_matches own tokens with Ok (Some b) => b | _ => d line end.
Lemma truth_with_agrees own d : agrees own (truth_with own d).
Proof. intros line tokens b Hs Hm. unfold truth_with. rewrite Hs. cbn. by rewrite Hm. Qed.

Definition leaves_decided (own : list ip) (t : table) (line : string) : bool :=
  match read_rule own t line with
  | Ok (Some (Stop RETURN, None)) | Ok (Some (Enter true _, None)) => false
  | _ => true
  end.
Definition table_decided (own : list ip) (t : table) : bool :=
  forallb (λ '(_, lines), forallb (leaves_decided own t) lines) (rules t).

Lemma elem_of_dget_dict {V} k (v : V) d : dget k d = Some v → (k, v) ∈ d.
Proof.
  induction d as [|[k' v'] d IH]; cbn; [done|]. case_bool_decide; [intros; simplify_eq; by left|].
  intros ?. right. auto.
Qed.

Lemma table_decided_ok own t : table_decided own t = true → returns_decided own t.
Proof.
  intros H name line act m Hin Hr Hact ->. unfold table_decided in H.
  rewrite forallb_forall in H. unfold chain_rules in Hin.
  destruct (dget name (rules t)) as [lines|] eqn:E; [|by apply elem_of_nil in Hin].
  apply elem_of_dget_dict, list_elem_of_In in E. specialize (H _ E). cbn in H.
  rewrite forallb_forall in H. apply list_elem_of_In in Hin. specialize (H _ Hin).
  unfold leaves_decided in H. rewrite Hr in H. destruct Hact as [->|[c ->]]; done.
Qed.

Lemma tables_decided_ok own tables :
  forallb (λ '(_, t), table_decided own t) tables = true →
  ∀ tname, returns_decided own (default empty_table (dget tname tables)).
Proof.
  rewrite forallb_forall. intros H tname. apply table_decided_ok.
  destruct (dget tname tables) as [t|] eqn:E; [|done].
  apply elem_of_dget_dict, list_elem_of_In in E. by apply (H _ E).
Qed.

Module Ruleset.
Definition own : list ip := [{| ip_version := V4; ip_int := 1681915907; scope_id := None |}].
Definition text (early : string) : string := sjoin (String nl "")
  ["*filter"; ":INPUT DROP [0:0]"; ":ts-input - [0:0]"; "-A INPUT -j ts-input"; early;
   "-A INPUT -p tcp -m tcp --dport 22 -j ACCEPT"; "-A ts-input ! -i tailscale0 -j DROP";
   "-A ts-input -m limit --limit 5/min -j ACCEPT"; "COMMIT"].

Definition limited : dict table := Eval vm_compute in
  match parse_ruleset (text "-A INPUT -d 100.64.0.9 -j RETURN") with Ok t => t | _ => [] end.
Definition returning : dict table := Eval vm_compute in
  match parse_ruleset (text "-A INPUT -s 100.64.0.0/10 -j RETURN") with Ok t => t | _ => [] end.
Definition truth : string → bool := truth_with own (λ _, true).

Lemma limited_passes : inbound limited truth INBOUND true.
Proof.
  do 4 (apply inbound_absent; [vm_compute; reflexivity|]).
  eapply inbound_through; [reflexivity|vm_compute; reflexivity| |by left|apply inbound_end].
  eapply passes_enter; [vm_compute; reflexivity..| |by left].
  apply passes_miss; [vm_compute; reflexivity|].
  eapply passes_stop; vm_compute; reflexivity.
Qed.
End Ruleset.

(** An undecided RETURN is passed over: the walk reports nothing of a ruleset
    whose kernel traversal, the rule matching, drops the packet. *)
Example undecided_return_passed_over :
  walk_inbound Ruleset.own Ruleset.returning = Ok [] ∧
  agrees Ruleset.own (truth_with Ruleset.own (λ line, bool_decide (line = "-A INPUT -s 100.64.0.0/10 -j RETURN"))) ∧
  inbound Ruleset.returning
    (truth_with Ruleset.own (λ line, bool_decide (line = "-A INPUT -s 100.64.0.0/10 -j RETURN"))) INBOUND false.
Proof.
  split; [vm_compute; reflexivity|]. split; [apply truth_with_agrees|].
  do 4 (apply inbound_absent; [vm_compute; reflexivity|]).
  eapply inbound_policy; [reflexivity|vm_compute; reflexivity| |vm_compute; reflexivity].
  eapply passes_back; [vm_compute; reflexivity..| |].
  - do 2 (apply passes_miss; [vm_compute; reflexivity|]). apply passes_end.
  - eapply passes_stop; vm_compute; reflexivity.
Qed.

Lemma walk_inbound_sound_witness : inbound Ruleset.limited Ruleset.truth INBOUND true ∧ true = true.
Proof.
  split; [exact Ruleset.limited_passes|].
  apply (walk_inbound_sound Ruleset.own Ruleset.limited Ruleset.truth true).
  - apply truth_with_agrees.
  - apply tables_decided_ok. vm_compute. reflexivity.
  - vm_compute. reflexivity.
  - exact Ruleset.limited_passes.
Defined.
