(* ===== verification/TailnetReachability.v ===== *)
(** [ansible/helpers/tailnet_reachability.py]: the control server's record of
    this host, the peers and the ping, the tailnet policy, the firewall of
    both families, and [check] and [main], which ask them in turn.  Commands,
    requests and the clock are outside; every exchange is kept in order. *)
From S2P Require Import Prelude PyStr PyNum PyVal Json Encoding Sha256 Effects UrlLib IpAddress TailnetFirewall.

#[local] Open Scope string_scope.

(** * Outside *)

Record completed := { returncode : Z; stdout : string; stderr : string }.
Record request := { h_method : string; h_url : string; h_headers : dict string; h_data : option string }.

(** How a computation stops: the operating system's refusal, a timeout, the
    [RuntimeError] of the code, or an exception raised over some text. *)
Inductive fault :=
  | OsRefused (text : string)
  | TimedOut
  | RuntimeError (text : string)
  | Raised (e : exn) (over : string).

(** What opening a request comes to. *)
Inductive opened :=
  | Answered (status : Z) (body : string)
  | StatusError (status : Z)
  | NoAnswer
  | HttpFault (f : fault).

(** Commands, requests, the clock; and the text Python gives an exception it
    raises over a text. *)
Class Outside (E : Type) := {
  run_cmd : list string → E → (fault + completed) * E;
  open_url : request → E → opened * E;
  tick : E → E;
  error_text : exn → string → string
}.

Section host.
Context {E : Type} `{!Outside E}.

Record world := { ran : list (list string * (fault + completed));
                  asked : list (request * opened);
                  slept : nat; ext : E }.
Abbreviation M := (ST world fault).

Definition pure {A} (r : res A) : M A := lift (λ e, Raised e "") r.

Definition run (argv : list string) : M completed := λ w,
  let '(r, e) := run_cmd argv (ext w) in
  (r, {| ran := (ran w ++ [(argv, r)])%list; asked := asked w; slept := slept w; ext := e |}).

Definition sleep : M unit := λ w,
  (inr tt, {| ran := ran w; asked := asked w; slept := S (slept w); ext := tick (ext w) |}).

(** [_http]: the status and the parsed body, or [None]. *)
Definition http_result (o : opened) : fault + (Z * val) :=
  match o with
  | Answered status body =>
      inr (status, match loads (if bool_decide (body = "") then "null" else body) with Ok v => v | Raise _ => VNone end)
  | StatusError code => inr (code, VNone)
  | NoAnswer => inr (0%Z, VNone)
  | HttpFault f => inl f
  end.
Definition http (q : request) : M (Z * val) := λ w,
  let '(o, e) := open_url q (ext w) in
  (http_result o, {| ran := ran w; asked := (asked w ++ [(q, o)])%list; slept := slept w; ext := e |}).

(** * The host's own view *)

Definition last_chars (n : nat) (s : string) : string := String.substring (String.length s - n) n s.

Definition local_status : M val :=
  r ← run ["tailscale"; "status"; "--json"];
  if bool_decide (returncode r = 0%Z) then lift (λ e, Raised e (stdout r)) (loads (stdout r))
  else throw (RuntimeError ("`tailscale status --json` exited " +:+ str_of_int (returncode r) +:+ ": "
                            +:+ last_chars 300 (strip (stderr r)))).

(** [(status.get("Self") or {}).get(k)] *)
Definition self_field (k : string) (status : val) : res val :=
  s ← attr_get "Self" status; attr_get k (val_or s (VDict [])).

(** [ipaddress.ip_address(a)] *)
Definition val_ip (v : val) : res ip :=
  let of_int z :=
    if (z <? 0)%Z then Raise ValueError
    else if (z <=? all_ones V4)%Z then Ok {| ip_version := V4; ip_int := z; scope_id := None |}
    else if (z <=? all_ones V6)%Z then Ok {| ip_version := V6; ip_int := z; scope_id := None |}
    else Raise ValueError in
  match v with
  | VInt z => of_int z
  | VBool b => of_int (if b then 1%Z else 0%Z)
  | _ => ip_address (py_str v)
  end.

Definition own_addresses (status : val) : res (list ip) :=
  v ← self_field "TailscaleIPs" status; l ← iter_or v; mapM_res val_ip l.

(** * The control server *)

(** [(cfg.get(k) or d)], then a method of strings *)
Definition cfg_text (k d : string) (cfg : val) : res string :=
  v ← attr_get k cfg;
  match val_or v (VStr d) with VStr s => Ok s | _ => Raise AttributeError end.

Definition tailscale_control (status cfg : val) : M (list string) :=
  id ← pure (self_field "ID" status);
  let node_id := str_or id in
  if bool_decide (node_id = "") then mret ["`tailscale status` names no node id for this host"] else
  api ← pure (cfg_text "TAILSCALE_API_BASE" "https://api.tailscale.com/api/v2" cfg);
  let base := rstrip_char "/" api in
  client_id ← pure (attr_get "TAILSCALE_OAUTH_CLIENT_ID" cfg);
  secret ← pure (attr_get "TAILSCALE_OAUTH_CLIENT_SECRET" cfg);
  if negb (truthy client_id && truthy secret)
  then mret ["no Tailscale OAuth client is stored, so the control server cannot be asked"] else
  let auth := b64encode (utf8 (py_str client_id +:+ ":" +:+ py_str secret)) in
  '(code, token) ← http {| h_method := "POST"; h_url := base +:+ "/oauth/token";
    h_headers := [("Authorization", "Basic " +:+ auth); ("Content-Type", "application/x-www-form-urlencoded")];
    h_data := Some (urlencode [("grant_type", "client_credentials")]) |};
  let access := match token with VDict d => vget "access_token" d | _ => VNone end in
  if negb (bool_decide (code = 200%Z)) || negb (truthy access)
  then mret ["the OAuth client did not exchange for a token (HTTP " +:+ str_of_int code +:+ ")"] else
  '(code, device) ← http {| h_method := "GET"; h_url := base +:+ "/device/" +:+ quote_path node_id +:+ "?fields=all";
    h_headers := [("Authorization", "Bearer " +:+ py_str access)]; h_data := None |};
  if bool_decide (code = 403%Z)
  then mret ["the OAuth client cannot read devices: add Devices > Core (read) to its scopes in the Tailscale admin console"] else
  match device with
  | VDict d =>
      if bool_decide (code = 200%Z) then
        mret ((if truthy (vget "connectedToControl" d) then []
               else ["the control server does not see this server connected"]) ++
              (if truthy (vget "blocksIncomingConnections" d)
               then ["this server refuses incoming tailnet connections (shields up), so no device can reach it"]
               else []))%list
      else mret ["the control server has no readable record of device " +:+ node_id +:+ " (HTTP " +:+ str_of_int code +:+ ")"]
  | _ => mret ["the control server has no readable record of device " +:+ node_id +:+ " (HTTP " +:+ str_of_int code +:+ ")"]
  end.

(** [next((n for n in nodes if n.get("nodeKey") == node_key), None)] *)
Fixpoint find_node (node_key : string) (nodes : list val) : res (option val) :=
  match nodes with
  | [] => Ok None
  | n :: nodes =>
      k ← attr_get "nodeKey" n;
      if py_eq k (VStr node_key) then Ok (Some n) else find_node node_key nodes
  end.

Definition headscale_control (status cfg : val) : M (option (list string)) :=
  key ← pure (attr_get "HEADSCALE_API_KEY" cfg);
  if negb (truthy key) then mret None else
  public ← pure (self_field "PublicKey" status);
  let node_key := str_or public in
  url ← pure (cfg_text "HEADSCALE_URL" "" cfg);
  let base := rstrip_char "/" url in
  '(code, body) ← http {| h_method := "GET"; h_url := base +:+ "/api/v1/node";
    h_headers := [("Authorization", "Bearer " +:+ py_str key)]; h_data := None |};
  match body with
  | VDict d =>
      if bool_decide (code = 200%Z) then
        nodes ← pure (iter_or (vget "nodes" d));
        node ← pure (find_node node_key nodes);
        match node with
        | None => mret (Some ["the Headscale server has no node with this server's key"])
        | Some n =>
            online ← pure (attr_get "online" n);
            mret (Some (if truthy online then [] else ["the Headscale server does not see this server online"]))
        end
      else mret (Some ["the Headscale server did not list its nodes (HTTP " +:+ str_of_int code +:+ ")"])
  | _ => mret (Some ["the Headscale server did not list its nodes (HTTP " +:+ str_of_int code +:+ ")"])
  end.

(** * Peers *)

Definition MAX_PEERS : nat := 5.
Definition ATTEMPTS : nat := 7.

(** [own_tags & set(tags)] is not empty. *)
Definition hashable (v : val) : bool := match v with VList _ | VDict _ => false | _ => true end.
Definition shares_tag (own_tags : list string) (tags : list val) : res bool :=
  if forallb hashable tags then Ok (existsb (λ t, existsb (py_eq (VStr t)) tags) own_tags) else Raise TypeError.

(** [sorted(addrs, key=lambda a: ":" in a)] *)
Definition v4_first (addrs : list val) : res (list val) :=
  keyed ← mapM_res (λ a, six ← py_in ":" a; Ok (six, a)) addrs;
  Ok ((filter (λ p : bool * val, p.1 = false) keyed).*2 ++ (filter (λ p : bool * val, p.1 = true) keyed).*2)%list.

Definition peer : Type := val * list val.

Fixpoint eligible (own_tags : list string) (ps : list val) : res (list peer) :=
  match ps with
  | [] => Ok []
  | p :: ps =>
      online ← attr_get "Online" p;
      if negb (truthy online) then eligible own_tags ps else
      tags ← attr_get "Tags" p;
      tags ← iter_or tags;
      shared ← shares_tag own_tags tags;
      if (shared : bool) then eligible own_tags ps else
      addrs ← attr_get "TailscaleIPs" p;
      addrs ← iter_or addrs;
      addrs ← v4_first addrs;
      match addrs with
      | [] => eligible own_tags ps
      | a :: _ =>
          dotted ← py_in "." a;
          if (dotted : bool) then
            name ← attr_get "HostName" p;
            rest ← eligible own_tags ps; Ok ((val_or name a, addrs) :: rest)
          else eligible own_tags ps
      end
  end.
Definition eligible_peers (status : val) (own_tags : list string) : res (list peer) :=
  p ← attr_get "Peer" status;
  match val_or p (VDict []) with
  | VDict d => eligible own_tags d.*2
  | _ => Raise AttributeError
  end.

Definition ping_argv (a : string) : list string :=
  ["tailscale"; "ping"; "--tsmp"; "--c"; "3"; "--timeout"; "5s"; a].
Fixpoint ping_each (peers : list peer) : M val :=
  match peers with
  | [] => mret (VStr "")
  | (name, addrs) :: peers =>
      a ← pure (as_str_r (default VNone (head addrs)));
      r ← run (ping_argv a);
      if bool_decide (returncode r = 0%Z) then mret name else ping_each peers
  end.
Definition ping_a_peer (peers : list peer) : M val := ping_each (take MAX_PEERS peers).

(** * The tailnet policy *)

Definition TCP : Z := 6.
Definition proto_names : list (Z * string) :=
  [(1, "icmp"); (6, "tcp"); (17, "udp"); (58, "icmpv6"); (132, "sctp")]%Z.

(** [try: ... except ValueError: return False] *)
Definition or_false (r : res bool) : res bool :=
  match r with Raise ValueError => Ok false | r => r end.

Definition holds_text (spec : string) (addr : ip) : res bool :=
  if bool_decide (spec = "*") then Ok true
  else if startswith spec "cap:" then Ok false
  else or_false
    (if has_char "/" spec then n ← ip_network true spec; Ok (in_network addr n)
     else match split "-" spec with
     | [lo; hi] =>
         lo ← ip_address lo; hi ← ip_address hi;
         Ok (bool_decide (ip_version lo = ip_version hi) && bool_decide (ip_version hi = ip_version addr) &&
             ip_le lo addr && ip_le addr hi)
     | _ => a ← ip_address spec; Ok (bool_decide (a = addr))
     end).
Definition holds (spec : val) (addr : ip) : res bool :=
  match spec with VStr s => holds_text s addr | _ => Raise AttributeError end.

(** [any(p(x) for x in l)]: up to the first that holds. *)
Fixpoint any_res {A} (p : A → res bool) (l : list A) : res bool :=
  match l with [] => Ok false | x :: l => b ← p x; if (b : bool) then Ok true else any_res p l end.

(** [d[k]] on any value *)
Definition item (k : string) (v : val) : res val :=
  match v with VDict d => getitem k d | _ => Raise TypeError end.
Definition as_number (v : val) : res Z :=
  match v with VInt z => Ok z | VBool b => Ok (if b then 1 else 0)%Z | _ => Raise TypeError end.

(** [z in v] *)
Definition int_in (z : Z) (v : val) : res bool :=
  match v with
  | VList l => Ok (existsb (py_eq (VInt z)) l)
  | VDict _ => Ok false
  | _ => Raise TypeError
  end.

Definition opens_port (d : val) (dst : ip) : res bool :=
  i ← item "IP" d;
  h ← holds i dst;
  if negb h then Ok false else
  p ← item "Ports" d; first ← item "First" p; first ← as_number first;
  if negb (first <=? SSH_PORT)%Z then Ok false else
  p ← item "Ports" d; final ← item "Last" p; final ← as_number final;
  Ok (SSH_PORT <=? final)%Z.

Definition allows_ssh (rule : val) (src dst : ip) : res bool :=
  protos ← attr_get "IPProto" rule;
  tcp ← (if truthy protos then int_in TCP protos else Ok true);
  if negb tcp then Ok false else
  srcs ← attr_get "SrcIPs" rule;
  srcs ← iter_or srcs;
  source ← any_res (λ s, holds s src) srcs;
  if negb source then Ok false else
  dsts ← attr_get "DstPorts" rule;
  dsts ← iter_or dsts;
  any_res (λ d, opens_port d dst) dsts.

(** ** What a refusal says of the policy *)

(** [", ".join(items[:most]) + ...]; a string's items are its characters. *)
Definition sliceable (v : val) : res (list val) :=
  match v with VList l => Ok l | VStr s => Ok (chars s) | _ => Raise TypeError end.
Definition brief (items : list val) (most : nat) : res string :=
  shown ← mapM_res as_str_r (take most items);
  Ok (sjoin ", " shown +:+
      (if (most <? length items)%nat then " and " +:+ str_of_int (Z.of_nat (length items - most)) +:+ " more" else "")).

Definition port_range (pr : val) : res string :=
  first ← item "First" pr; last ← item "Last" pr;
  Ok (if py_eq first (VInt 0) && py_eq last (VInt 65535) then "*"
      else if py_eq first last then py_str first
      else py_str first +:+ "-" +:+ py_str last).

Definition proto_name (p : val) : res string :=
  if hashable p then
    Ok (default (py_str p) (snd <$> find (λ '(n, _), py_eq p (VInt n)) proto_names))
  else Raise TypeError.

Definition describe_dst (d : val) : res val :=
  i ← item "IP" d; p ← item "Ports" d; r ← port_range p;
  Ok (VStr (py_str i +:+ ":" +:+ r)).
Definition text_or (s d : string) : string := if bool_decide (s = "") then d else s.
Definition describe (rule : val) : res val :=
  srcs ← attr_get "SrcIPs" rule;
  srcs ← sliceable (val_or srcs (VList []));
  srcs ← brief srcs 3;
  let srcs := text_or srcs "no source" in
  dsts ← attr_get "DstPorts" rule;
  if negb (truthy dsts) then Ok (VStr ("[capability grants only, from " +:+ srcs +:+ "]")) else
  protos ← attr_get "IPProto" rule;
  protos ← iter_or protos;
  protos ← mapM_res proto_name protos;
  dsts ← py_iter dsts;
  dsts ← mapM_res describe_dst dsts;
  dsts ← brief dsts 3;
  Ok (VStr ("[" +:+ text_or (sjoin "/" protos) "tcp/udp/icmp" +:+ " from " +:+ srcs +:+ " to " +:+ dsts +:+ "]")).

Definition exn_name (e : exn) : string :=
  match e with
  | ValueError => "ValueError" | KeyError => "KeyError" | TypeError => "TypeError"
  | AttributeError => "AttributeError" | _ => "Exception"
  end.

(** The source and destination pairs of one family. *)
Definition address_pairs (peers : list peer) (own : list ip) : res (list (ip * ip)) :=
  l ← mapM_res (λ '(_, addrs),
        srcs ← mapM_res val_ip addrs;
        Ok (concat (map (λ src, map (pair src) (filter (λ dst, ip_version src = ip_version dst) own)) srcs))) peers;
  Ok (concat l).

(** The rules, [None] when one lets a pair in, else what they let in. *)
Definition read_policy (netmap : string) (pairs : list (ip * ip)) : res (option (list val)) :=
  v ← loads netmap;
  rules ← item "PacketFilterRules" v;
  rules ← iter_or rules;
  allowed ← any_res (λ rule, any_res (λ '(src, dst), allows_ssh rule src dst) pairs) rules;
  if (allowed : bool) then Ok None else Some <$> mapM_res describe rules.

Definition peer_names (peers : list peer) : res string :=
  sjoin ", " <$> mapM_res (λ p : peer, as_str_r p.1) (take MAX_PEERS peers).

Definition policy_reasons (status : val) (peers : list peer) (own_tags : list string) : M (list string) :=
  own ← pure (own_addresses status);
  pairs ← pure (address_pairs peers own);
  r ← run ["tailscale"; "debug"; "netmap"];
  if negb (bool_decide (returncode r = 0%Z))
  then mret ["could not read the tailnet policy this server received (`tailscale debug netmap` exited "
             +:+ str_of_int (returncode r) +:+ ": " +:+ last_chars 300 (strip (stderr r)) +:+ ")"] else
  match read_policy (stdout r) pairs with
  | Raise e =>
      if bool_decide (e ∈ [ValueError; KeyError; TypeError; AttributeError])
      then mret ["could not parse the tailnet policy this server received from `tailscale debug netmap` ("
                 +:+ exn_name e +:+ ": " +:+ error_text e (stdout r) +:+ ")"]
      else throw (Raised e (stdout r))
  | Ok None => mret []
  | Ok (Some allows) =>
      let tags := if bool_decide (own_tags = []) then "" else " (" +:+ sjoin ", " (sorted_str own_tags) +:+ ")" in
      names ← pure (peer_names peers);
      shown ← pure (brief allows 5);
      mret ["the tailnet policy lets none of " +:+ names +:+ " open SSH (TCP port 22) to this server" +:+ tags
            +:+ ": it lets in " +:+ text_or shown "nothing"]
  end.

(** * The firewall *)

Definition firewalls : list (string * family) := [("iptables-save", V4); ("ip6tables-save", V6)].

Definition firewall_step (own : list ip) (reasons : list string) (tf : string * family) : M (list string) :=
  let '(tool, version) := tf in
  let addrs := filter (λ a, ip_version a = version) own in
  if bool_decide (addrs = []) then mret reasons else
  let unreadable why := (reasons ++ ["could not read this server's firewall (" +:+ tool +:+ why +:+ ")"])%list in
  r ← catch (r ← run [tool]; mret (inr r : string + completed))
            (λ e, match e with OsRefused text => mret (inl text) | _ => throw e end);
  match r with
  | inl text => mret (unreadable (": " +:+ text))
  | inr r =>
      if negb (bool_decide (returncode r = 0%Z))
      then mret (unreadable (" exited " +:+ str_of_int (returncode r)))
      else
        tables ← pure (parse_ruleset (stdout r));
        why ← pure (walk_inbound addrs tables);
        mret (reasons ++ map (λ w, "this server's firewall drops SSH arriving over the tailnet ("
                                   +:+ tool +:+ ", " +:+ w +:+ ")") why)%list
  end.

Definition firewall_reasons (status : val) : M (list string) :=
  own ← pure (own_addresses status);
  if bool_decide (own = [])
  then mret ["`tailscale status` names no tailnet address for this server, so its firewall cannot be checked"]
  else foldST (firewall_step own) [] firewalls.

(** * The check *)

(** What one attempt leaves: the reasons, the notes, the status and the peers. *)
Record attempted := { reasons : list string; notes : list string; status : val; peers : list peer }.
Definition because (why : string) : attempted := {| reasons := [why]; notes := []; status := VNone; peers := [] |}.

Record settings := { headscale : bool; require_peer : bool; own_tags : list string }.
Definition read_settings (cfg : val) : res settings :=
  provider ← cfg_text "TAILNET_PROVIDER" "tailscale" cfg;
  required ← cfg_text "TAILNET_REQUIRE_PEER" "0" cfg;
  tags ← cfg_text "TAILNET_OWN_TAGS" "" cfg;
  Ok {| headscale := bool_decide (lower (strip provider) = "headscale");
        require_peer := bool_decide (strip required = "1");
        own_tags := remove_dups (filter (λ t, t ≠ "") (map strip (split "," tags))) |}.

Definition ask_control (s : settings) (status cfg : val) : M (list string * list string) :=
  if headscale s then
    control ← headscale_control status cfg;
    match control with
    | Some reasons => mret (reasons, [])
    | None =>
        mret (if require_peer s
              then (["no Headscale API key is stored, so the control server cannot confirm this server is online; enter one in catena-admin > Settings > Admin access tunnel"], [])
              else ([], ["Headscale not asked (no API key stored)"]))
    end
  else reasons ← tailscale_control status cfg; mret (reasons, []).

Definition attempt (s : settings) (cfg : val) : M attempted :=
  st ← catch (st ← local_status; mret (inr st : string + val))
             (λ e, match e with
                   | RuntimeError text => mret (inl text)
                   | Raised ValueError over => mret (inl (error_text ValueError over))
                   | _ => throw e
                   end);
  match st with
  | inl text => mret (because text)
  | inr status =>
      state ← pure (attr_get "BackendState" status);
      if negb (py_eq state (VStr "Running"))
      then mret (because ("tailscale is " +:+ py_repr state +:+ ", not Running")) else
      '(why, notes) ← ask_control s status cfg;
      if negb (require_peer s && bool_decide (why = []))
      then mret {| reasons := why; notes := notes; status := status; peers := [] |} else
      peers ← pure (eligible_peers status (own_tags s));
      if bool_decide (peers = [])
      then mret {| reasons := ["no other device is online on the tailnet: turn Tailscale on on the device used to administer this server, then apply again"];
                   notes := notes; status := status; peers := peers |} else
      answered ← ping_a_peer peers;
      if truthy answered
      then mret {| reasons := []; notes := (notes ++ [py_str answered +:+ " answered through the tunnel"])%list;
                   status := status; peers := peers |}
      else
        names ← pure (peer_names peers);
        mret {| reasons := ["none of " +:+ names +:+ " answered a ping through the tunnel"];
                notes := notes; status := status; peers := peers |}
  end.

(** The attempts left, a pause before each but the first. *)
Fixpoint attempts (more : nat) (s : settings) (cfg : val) : M attempted :=
  o ← attempt s cfg;
  match more with
  | O => mret o
  | S more => if bool_decide (reasons o = []) then mret o else _ ← sleep; attempts more s cfg
  end.

Record outcome := { v_ok : bool; v_reasons : list string; v_summary : string }.

Definition check (cfg : val) : M outcome :=
  s ← pure (read_settings cfg);
  o ← attempts (ATTEMPTS - 1) s cfg;
  why ← (if require_peer s && bool_decide (reasons o = [])
         then policy ← policy_reasons (status o) (peers o) (own_tags s);
              firewall ← firewall_reasons (status o);
              mret (policy ++ firewall)%list
         else mret (reasons o));
  mret (if bool_decide (why = [])
        then {| v_ok := true; v_reasons := [];
                v_summary := "the tailnet confirms this server is reachable" +:+
                             (if bool_decide (notes o = []) then "" else ": " +:+ sjoin "; " (notes o)) |}
        else {| v_ok := false; v_reasons := why; v_summary := sjoin "; " why |}).

(** [main]: the JSON printed, for the JSON read. *)
Definition main (stdin : string) : M string :=
  cfg ← lift (λ e, Raised e stdin) (loads stdin);
  v ← check cfg;
  mret (dumps default_style (VDict [("ok", VBool (v_ok v)); ("reasons", VList (map VStr (v_reasons v)));
                                    ("summary", VStr (v_summary v))])).
End host.
