(* ===== verification/TailnetReachabilityFacts.v ===== *)
(** What a passing [check] of [TailnetReachability] rests on, and where the
    credentials it is given can go. *)
From S2P Require Import Prelude PyStr PyNum PyVal Json Encoding Sha256 Effects UrlLib IpAddress TailnetFirewall TailnetReachability.

#[local] Open Scope string_scope.

Create HintDb talks discriminated.

Section facts.
Context {E : Type} `{!Outside E}.
Abbreviation W := (@world E).
Implicit Types (w : W).

(** * What runs and what is asked *)

Definition status_argv : list string := ["tailscale"; "status"; "--json"].
(** [status] is what [tailscale status --json] printed in this run. *)
Definition read_as (status : val) w : Prop :=
  ∃ r, (status_argv, inr r) ∈ ran w ∧ returncode r = 0%Z ∧ loads (stdout r) = Ok status.

(** An address of a peer of [status] that is online and bears none of the
    tags. *)
Definition peer_address (status : val) (tags : list string) (a : string) : Prop :=
  ∃ d p online ts ts' ips addrs, attr_get "Peer" status = Ok (VDict d) ∧ p ∈ d.*2 ∧
    attr_get "Online" p = Ok online ∧ truthy online = true ∧
    attr_get "Tags" p = Ok ts ∧ iter_or ts = Ok ts' ∧ shares_tag tags ts' = Ok false ∧
    attr_get "TailscaleIPs" p = Ok ips ∧ iter_or ips = Ok addrs ∧ VStr a ∈ addrs.

(** The commands [check] runs: constants, and a ping of a peer's address. *)
Inductive command_of (cfg : val) w : list string → Prop :=
  | Constant argv : argv ∈ [status_argv; ["tailscale"; "debug"; "netmap"]; ["iptables-save"]; ["ip6tables-save"]] →
      command_of cfg w argv
  | Ping status s a : read_as status w → read_settings cfg = Ok s → peer_address status (own_tags s) a →
      command_of cfg w (ping_argv a).

Definition provider_is (headscale : bool) (cfg : val) : Prop :=
  ∃ p, cfg_text "TAILNET_PROVIDER" "tailscale" cfg = Ok p ∧ bool_decide (lower (strip p) = "headscale") = headscale.
Definition api_base (cfg : val) : res string :=
  api ← cfg_text "TAILSCALE_API_BASE" "https://api.tailscale.com/api/v2" cfg; Ok (rstrip_char "/" api).

(** The requests [check] makes, in full. *)
Inductive request_of (cfg : val) w : request → Prop :=
  | TokenRequest base client_id secret : provider_is false cfg → api_base cfg = Ok base →
      attr_get "TAILSCALE_OAUTH_CLIENT_ID" cfg = Ok client_id → attr_get "TAILSCALE_OAUTH_CLIENT_SECRET" cfg = Ok secret →
      request_of cfg w {| h_method := "POST"; h_url := base +:+ "/oauth/token";
        h_headers := [("Authorization", "Basic " +:+ b64encode (utf8 (py_str client_id +:+ ":" +:+ py_str secret)));
                      ("Content-Type", "application/x-www-form-urlencoded")];
        h_data := Some "grant_type=client_credentials" |}
  | DeviceRequest base status id q body d : provider_is false cfg → api_base cfg = Ok base →
      read_as status w → self_field "ID" status = Ok id →
      (q, Answered 200 body) ∈ asked w → h_url q = base +:+ "/oauth/token" → loads body = Ok (VDict d) →
      request_of cfg w {| h_method := "GET"; h_url := base +:+ "/device/" +:+ quote_path (str_or id) +:+ "?fields=all";
        h_headers := [("Authorization", "Bearer " +:+ py_str (vget "access_token" d))]; h_data := None |}
  | NodesRequest url key : provider_is true cfg → cfg_text "HEADSCALE_URL" "" cfg = Ok url →
      attr_get "HEADSCALE_API_KEY" cfg = Ok key →
      request_of cfg w {| h_method := "GET"; h_url := rstrip_char "/" url +:+ "/api/v1/node";
        h_headers := [("Authorization", "Bearer " +:+ py_str key)]; h_data := None |}.

Definition grows w w' : Prop := ran w `prefix_of` ran w' ∧ asked w `prefix_of` asked w'.
#[local] Instance grows_preorder : PreOrder grows.
Proof. split; [by intros ?|]. intros w1 w2 w3 [H1 H2] [H3 H4]. split; by etrans. Qed.
Lemma grows_ran w w' x : grows w w' → x ∈ ran w → x ∈ ran w'.
Proof. intros [[l ->] _] H. apply elem_of_app. by left. Qed.
Lemma grows_asked w w' x : grows w w' → x ∈ asked w → x ∈ asked w'.
Proof. intros [_ [l ->]] H. apply elem_of_app. by left. Qed.
Lemma read_as_kept status w w' : grows w w' → read_as status w → read_as status w'.
Proof. intros Hg (r & Hr & ?). exists r. split; [by eapply grows_ran|done]. Qed.
Lemma command_kept cfg w w' argv : grows w w' → command_of cfg w argv → command_of cfg w' argv.
Proof. intros Hg []; [by constructor|]. econstructor; [by eapply read_as_kept|done..]. Qed.
Lemma request_kept cfg w w' q : grows w w' → request_of cfg w q → request_of cfg w' q.
Proof.
  intros Hg []; [by econstructor|econstructor; [done|done|by eapply read_as_kept|done|by eapply grows_asked|done..]|by econstructor].
Qed.

(** What is run and asked from [w] to [w'] is of those. *)
Definition talks (cfg : val) w w' : Prop :=
  ∃ commands requests, ran w' = (ran w ++ commands)%list ∧ asked w' = (asked w ++ requests)%list ∧
    Forall (command_of cfg w' ∘ fst) commands ∧ Forall (request_of cfg w' ∘ fst) requests.
Lemma talks_grows cfg w w' : talks cfg w w' → grows w w'.
Proof. intros (l & k & H1 & H2 & _). split; [by exists l|by exists k]. Qed.
#[local] Instance talks_preorder cfg : PreOrder (talks cfg).
Proof.
  split; [intros w; exists [], []; by rewrite !app_nil_r|].
  intros w1 w2 w3 (l1 & k1 & R1 & A1 & Fl1 & Fk1) H2. pose proof (talks_grows _ _ _ H2) as Hg.
  destruct H2 as (l2 & k2 & R2 & A2 & Fl2 & Fk2). exists (l1 ++ l2)%list, (k1 ++ k2)%list.
  rewrite R2, R1, A2, A1, !app_assoc. split_and!; [done..| |]; apply Forall_app; (split; [|done]);
    eapply Forall_impl; [done| |done|]; intros ?; [by apply command_kept|by apply request_kept].
Qed.

(** From where [K] holds, which then goes on holding. *)
Class Kept (K : W → Prop) := kept w w' : grows w w' → K w → K w'.
Definition given (K : W → Prop) cfg w w' : Prop := grows w w' ∧ (K w → talks cfg w w').
#[local] Instance given_preorder K cfg : Kept K → PreOrder (given K cfg).
Proof.
  intros HK. split; [by intros w; split|]. intros w1 w2 w3 [G1 T1] [G2 T2]. split; [by etrans|].
  intros H. etrans; [by apply T1|]. by apply T2, (kept w1).
Qed.
#[local] Instance read_as_Kept status : Kept (read_as status).
Proof. intros ??. by apply read_as_kept. Qed.
Lemma given_weaken K cfg w w' : talks cfg w w' → given K cfg w w'.
Proof. intros H. split; [by eapply talks_grows|done]. Qed.
Lemma talks_given {A} K cfg (c : ST W fault A) : runs_in (talks cfg) c → runs_in (given K cfg) c.
Proof. intros Hc w r w' H. by eapply given_weaken, Hc. Qed.

Lemma run_grows argv : runs_in grows (run argv).
Proof.
  intros w r w' H. unfold run in H. destruct (run_cmd argv (ext w)) as [o e]. simplify_eq. split; cbn; [by eexists|done].
Qed.
Lemma http_grows q : runs_in grows (http q).
Proof.
  intros w r w' H. unfold http in H. destruct (open_url q (ext w)) as [o e]. simplify_eq. split; cbn; [done|by eexists].
Qed.
Lemma run_talks K cfg argv : Kept K → (∀ w, K w → command_of cfg w argv) → runs_in (given K cfg) (run argv).
Proof.
  intros HK Hp w r w' H. pose proof (run_grows _ _ _ _ H) as Hg. split; [done|]. intros Hw.
  assert (command_of cfg w' argv) by (by apply Hp, (kept w)).
  unfold run in H. destruct (run_cmd argv (ext w)) as [o e]. simplify_eq.
  exists [(argv, r)], []. cbn. rewrite app_nil_r. split_and!; [done..|by apply Forall_singleton|done].
Qed.
Lemma http_talks K cfg q : Kept K → (∀ w, K w → request_of cfg w q) → runs_in (given K cfg) (http q).
Proof.
  intros HK Hp w r w' H. pose proof (http_grows _ _ _ _ H) as Hg. split; [done|]. intros Hw.
  assert (request_of cfg w' q) by (by apply Hp, (kept w)).
  unfold http in H. destruct (open_url q (ext w)) as [o e]. simplify_eq.
  exists [], [(q, o)]. cbn. rewrite app_nil_r. split_and!; [done..|by apply Forall_singleton].
Qed.
Lemma sleep_talks cfg : runs_in (talks cfg) sleep.
Proof. intros w r w' H. unfold sleep in H. simplify_eq. exists [], []. by rewrite !app_nil_r. Qed.

(** What the first computation left is known to the second. *)
Lemma given_bind {A B} (K : W → Prop) (K' : A → W → Prop) cfg (c : ST W fault A) (f : A → ST W fault B) :
  Kept K → runs_in (given K cfg) c → (∀ w a w', K w → c w = (inr a, w') → K' a w') →
  (∀ a, runs_in (given (K' a) cfg) (f a)) → runs_in (given K cfg) (c ≫= f).
Proof.
  intros HK Hc HK' Hf w r w' [(e & H & _)|(a & w1 & H1 & H)]%bind_inv; [by eapply Hc|].
  apply Hc in H1 as Hc1. apply Hf in H as [Hg Ht]. destruct Hc1 as [Hg1 Ht1]. split; [by etrans|]. intros Hw.
  etrans; [by apply Ht1|]. apply Ht. by eapply HK'.
Qed.

(** A computation made of commands, requests and tests talks as they do. *)
Ltac talk :=
  repeat first
    [ solve [auto with talks nocore]
    | apply runs_ret; apply _ | apply runs_throw; apply _
    | apply run_talks; [apply _|]; intros; constructor; by set_solver
    | apply runs_lift_bind; [apply _|]; intros ? ?
    | apply runs_catch; [apply _| |intros ?]
    | apply runs_bind; [apply _| |intros ?]
    | progress unfold pure | apply runs_lift; apply _
    | case_match ].

(** What ran, and what was asked, after [w0] and up to [w]. *)
Definition ran_since w0 w (x : list string * (fault + completed)) : Prop := ∃ l, ran w = (ran w0 ++ l)%list ∧ x ∈ l.
Definition asked_since w0 w (x : request * opened) : Prop := ∃ l, asked w = (asked w0 ++ l)%list ∧ x ∈ l.
Lemma ran_since_wider w0 w1 w w' x : grows w0 w1 → grows w w' → ran_since w1 w x → ran_since w0 w' x.
Proof.
  intros [[l1 E1] _] [[l2 E2] _] (l & El & Hx). exists (l1 ++ l ++ l2)%list. rewrite E2, El, E1, !app_assoc. split; [done|].
  rewrite !elem_of_app. by left; right.
Qed.
Lemma asked_since_wider w0 w1 w w' x : grows w0 w1 → grows w w' → asked_since w1 w x → asked_since w0 w' x.
Proof.
  intros [_ [l1 E1]] [_ [l2 E2]] (l & El & Hx). exists (l1 ++ l ++ l2)%list. rewrite E2, El, E1, !app_assoc. split; [done|].
  rewrite !elem_of_app. by left; right.
Qed.
Lemma run_ok argv w r w' : run argv w = (inr r, w') → ran_since w w' (argv, inr r).
Proof.
  unfold run. destruct (run_cmd argv (ext w)) as [o e]. intros H. simplify_eq. eexists. split; [done|]. by apply list_elem_of_singleton.
Qed.
Lemma http_ok q w code v w' :
  http q w = (inr (code, v), w') → code = 200%Z → v ≠ VNone → ∃ body, asked_since w w' (q, Answered 200 body) ∧ loads body = Ok v.
Proof.
  unfold http. destruct (open_url q (ext w)) as [o e]. intros H Hc Hv. simplify_eq.
  destruct o as [status body| | |]; simplify_eq/=; try done. exists body. split.
  - eexists. split; [done|]. by apply list_elem_of_singleton.
  - destruct (bool_decide_reflect (body = "")) as [->|]; [by vm_compute in Hv|]. by destruct (loads body).
Qed.

Lemma tailscale_talks cfg status : provider_is false cfg → runs_in (given (read_as status) cfg) (tailscale_control status cfg).
Proof.
  intros Hp. unfold tailscale_control, pure. apply runs_lift_bind; [apply _|]. intros id Hid. case_match; [talk|].
  apply runs_lift_bind; [apply _|]. intros api Hapi.
  assert (api_base cfg = Ok (rstrip_char "/" api)) as Hbase by (unfold api_base; by rewrite Hapi).
  apply runs_lift_bind; [apply _|]. intros client Hclient. apply runs_lift_bind; [apply _|]. intros secret Hsecret. case_match; [talk|].
  set (q := {| h_method := "POST" |}).
  apply (given_bind _ (λ '(code, token) w, read_as status w ∧ (code = 200%Z → token ≠ VNone →
    ∃ body, (q, Answered 200 body) ∈ asked w ∧ loads body = Ok token))); [apply _|..].
  - apply http_talks; [apply _|]. intros w _. by eapply (TokenRequest cfg w _ client secret).
  - intros w [code token] w' Hr H1. split; [by eapply read_as_kept; [eapply http_grows|]|]. intros Hc Hn.
    destruct (http_ok _ _ _ _ _ H1 Hc Hn) as (body & (l & -> & ?) & ?). exists body. split; [|done]. apply elem_of_app. by right.
  - intros [code token].
    assert (Kept (λ w, read_as status w ∧ (code = 200%Z → token ≠ VNone → ∃ body, (q, Answered 200 body) ∈ asked w ∧ loads body = Ok token))).
    { intros w w' Hg [Hr Hb]. split; [by eapply read_as_kept|]. intros Hc Hn. destruct (Hb Hc Hn) as (body & ? & ?).
      exists body. split; [by eapply grows_asked|done]. }
    case_match eqn:Hok; [talk|]. apply orb_false_iff in Hok as [Hc Ht].
    apply negb_false_iff, bool_decide_eq_true in Hc as ->. destruct token as [| | | | | |d]; try done.
    apply runs_bind; [apply _| |intros [code2 device]; talk].
    apply http_talks; [apply _|]. intros w [Hr Hb]. destruct (Hb eq_refl) as (body & Hin & Hl); [done|].
    by eapply (DeviceRequest cfg w _ status id q body d).
Qed.

Lemma headscale_talks cfg status K : Kept K → provider_is true cfg → runs_in (given K cfg) (headscale_control status cfg).
Proof.
  intros HK Hp. unfold headscale_control. talk. all: apply http_talks; [done|]; intros; by eapply NodesRequest.
Qed.

Lemma v4_first_elem addrs sorted a : v4_first addrs = Ok sorted → a ∈ sorted → a ∈ addrs.
Proof.
  unfold v4_first. intros (keyed & Hk & [= <-])%res_bind_Ok Ha.
  assert (∃ b, (b, a) ∈ keyed) as [b Hb].
  { apply elem_of_app in Ha as [([b a'] & -> & H)%list_elem_of_fmap|([b a'] & -> & H)%list_elem_of_fmap];
      apply list_elem_of_filter in H as [_ H]; by exists b. }
  destruct (mapM_res_elem _ _ _ _ Hk Hb) as (a' & Ha' & H). by apply res_bind_Ok in H as (six & _ & [= _ ->]).
Qed.
Lemma eligible_elem tags ps peers name addrs a : eligible tags ps = Ok peers → (name, addrs) ∈ peers → head addrs = Some (VStr a) →
  ∃ p online ts ts' ips addrs', p ∈ ps ∧ attr_get "Online" p = Ok online ∧ truthy online = true ∧
    attr_get "Tags" p = Ok ts ∧ iter_or ts = Ok ts' ∧ shares_tag tags ts' = Ok false ∧
    attr_get "TailscaleIPs" p = Ok ips ∧ iter_or ips = Ok addrs' ∧ VStr a ∈ addrs'.
Proof.
  intros H Hin Hh. revert peers H Hin. induction ps as [|p ps IH]; intros peers H Hin; cbn [eligible] in H; [simplify_eq; by apply elem_of_nil in Hin|].
  assert (eligible tags ps = Ok peers → ∃ p' online ts ts' ips addrs', p' ∈ p :: ps ∧ attr_get "Online" p' = Ok online ∧ truthy online = true ∧
    attr_get "Tags" p' = Ok ts ∧ iter_or ts = Ok ts' ∧ shares_tag tags ts' = Ok false ∧
    attr_get "TailscaleIPs" p' = Ok ips ∧ iter_or ips = Ok addrs' ∧ VStr a ∈ addrs') as Hlater.
  { intros He. destruct (IH _ He Hin) as (p' & online & ts & ts' & ips & addrs' & ? & ?). exists p', online, ts, ts', ips, addrs'.
    split; [by right|done]. }
  apply res_bind_Ok in H as (online & Ho & H). destruct (truthy online) eqn:Eo; cbn [negb] in H; [|by apply Hlater].
  apply res_bind_Ok in H as (ts & Hts & H). apply res_bind_Ok in H as (ts' & Hts' & H).
  apply res_bind_Ok in H as ([] & Hsh & H); [by apply Hlater|].
  apply res_bind_Ok in H as (ips & Hips & H). apply res_bind_Ok in H as (addrs' & Ha' & H). apply res_bind_Ok in H as (sorted & Hsort & H).
  destruct sorted as [|x sorted]; [by apply Hlater|].
  apply res_bind_Ok in H as ([] & _ & H); [|by apply Hlater].
  apply res_bind_Ok in H as (nm & _ & H). apply res_bind_Ok in H as (rest & Hrest & [= <-]).
  apply elem_of_cons in Hin as [[= -> ->]|Hin].
  - exists p, online, ts, ts', ips, addrs'. split_and!; [by left|done..|]. cbn in Hh. injection Hh as ->.
    eapply v4_first_elem; [exact Hsort|by left].
  - destruct (IH _ Hrest Hin) as (p' & online' & ts2 & ts2' & ips' & addrs2 & ? & ?). exists p', online', ts2, ts2', ips', addrs2.
    split; [by right|done].
Qed.
Lemma eligible_address status tags peers name addrs a :
  eligible_peers status tags = Ok peers → (name, addrs) ∈ peers → head addrs = Some (VStr a) → peer_address status tags a.
Proof.
  unfold eligible_peers. intros (v & Hv & H)%res_bind_Ok Hin Hh. unfold val_or in H.
  destruct (truthy v); [|injection H as <-; by apply elem_of_nil in Hin].
  destruct v as [| | | | | |d]; try done. destruct (eligible_elem _ _ _ _ _ _ H Hin Hh) as (p & online & ts & ts' & ips & addrs' & ?).
  by exists d, p, online, ts, ts', ips, addrs'.
Qed.

Lemma ping_talks cfg status s ps : read_settings cfg = Ok s → eligible_peers status (own_tags s) = Ok ps →
  runs_in (given (read_as status) cfg) (ping_a_peer ps).
Proof.
  intros Hs Hps. unfold ping_a_peer. assert (∀ x, x ∈ take MAX_PEERS ps → x ∈ ps) as Hsub.
  { intros x (i & Hi & _)%elem_of_take. by apply list_elem_of_lookup_2 in Hi. }
  revert Hsub. generalize (take MAX_PEERS ps). intros l Hsub.
  induction l as [|[name addrs] l IH]; cbn [ping_each]; [talk|].
  apply runs_lift_bind; [apply _|]. intros a Ha.
  apply runs_bind; [apply _| |intros r; case_match; [talk|]; apply IH; intros; apply Hsub; by right].
  apply run_talks; [apply _|]. intros w Hw. eapply Ping; [done|done|]. eapply (eligible_address _ _ _ name addrs); [done|apply Hsub; by left|].
  destruct addrs as [|v addrs]; [done|]. cbn in Ha |- *. destruct v; by simplify_eq/=.
Qed.

#[local] Instance anything_Kept : Kept (λ _, True).
Proof. by intros ????. Qed.
Lemma given_talks {A} cfg (c : ST W fault A) : runs_in (given (λ _, True) cfg) c → runs_in (talks cfg) c.
Proof. intros Hc w r w' H. by apply (Hc _ _ _ H). Qed.
Lemma constant_talks cfg argv : argv ∈ [status_argv; ["tailscale"; "debug"; "netmap"]; ["iptables-save"]; ["ip6tables-save"]] →
  runs_in (talks cfg) (run argv).
Proof. intros Ha. apply given_talks, run_talks; [apply _|]. intros. by constructor. Qed.
#[local] Hint Resolve sleep_talks : talks.
#[local] Hint Extern 1 (runs_in _ (run _)) => apply constant_talks; unfold status_argv; set_solver : talks.

Lemma local_status_talks cfg : runs_in (talks cfg) local_status.
Proof. unfold local_status. talk. Qed.
Lemma policy_talks cfg status peers tags : runs_in (talks cfg) (policy_reasons status peers tags).
Proof. unfold policy_reasons. talk. Qed.

Lemma firewall_step_talks cfg own rs tool f :
  (tool, f) ∈ firewalls → runs_in (talks cfg) (firewall_step own rs (tool, f)).
Proof.
  intros Htf. assert (tool = "iptables-save" ∨ tool = "ip6tables-save") as [-> | ->].
  { unfold firewalls in Htf. rewrite !elem_of_cons, elem_of_nil in Htf. naive_solver. }
  all: unfold firewall_step; talk.
Qed.

Lemma firewall_talks cfg status : runs_in (talks cfg) (firewall_reasons status).
Proof.
  unfold firewall_reasons. apply runs_lift_bind; [apply _|]. intros own _. case_match; [talk|].
  apply runs_foldST; [apply _|]. intros rs [tool f]. apply firewall_step_talks.
Qed.
#[local] Hint Resolve local_status_talks policy_talks firewall_talks : talks.

Lemma local_status_ok w status w' : local_status w = (inr status, w') →
  ∃ r, ran w' = (ran w ++ [(status_argv, inr r)])%list ∧ asked w' = asked w ∧ returncode r = 0%Z ∧ loads (stdout r) = Ok status.
Proof.
  unfold local_status. intros (r & w1 & H1 & H)%bind_ok. unfold run in H1.
  destruct (run_cmd _ (ext w)) as [o e]. simplify_eq. case_bool_decide as Hc; [|done].
  destruct (loads (stdout r)) as [v|?] eqn:Hl; cbn in H; [|by apply pair_equal_spec in H as [? _]]. apply pair_equal_spec in H as [[= <-] <-].
  by exists r.
Qed.
Lemma local_status_read w status w' : local_status w = (inr status, w') → read_as status w'.
Proof.
  intros (r & Hr & _ & ? & ?)%local_status_ok. exists r. split; [|done]. rewrite Hr. apply elem_of_app. right. by apply list_elem_of_singleton.
Qed.

Lemma read_provider cfg s : read_settings cfg = Ok s → provider_is (headscale s) cfg.
Proof.
  unfold read_settings. intros (p & Hp & H)%res_bind_Ok. apply res_bind_Ok in H as (? & _ & H). apply res_bind_Ok in H as (? & _ & [= <-]).
  by exists p.
Qed.
Lemma ask_control_talks cfg s status : read_settings cfg = Ok s → runs_in (given (read_as status) cfg) (ask_control s status cfg).
Proof.
  intros Hs%read_provider. unfold ask_control. destruct (headscale s).
  - apply runs_bind; [apply _|apply headscale_talks; [apply _|done]|]. intros. talk.
  - apply runs_bind; [apply _|by apply tailscale_talks|]. intros. talk.
Qed.

(** What one attempt does with the status it read. *)
Lemma attempt_talks cfg s : read_settings cfg = Ok s → runs_in (talks cfg) (attempt s cfg).
Proof.
  intros Hs. apply given_talks. unfold attempt.
  apply (given_bind _ (λ r w, match r with inr status => read_as status w | inl _ => True end)); [apply _|..].
  - apply talks_given. talk.
  - intros w [text|status] w' _ H; [done|]. apply catch_ok in H as [H|([] & w1 & _ & H)]; try by apply pair_equal_spec in H as [? _].
    + apply bind_ok in H as (st & w1 & H1 & H). apply ret_ok in H as [[= ->] ->]. by eapply local_status_read.
    + destruct e; by apply pair_equal_spec in H as [? _].
  - intros [text|status]; [talk|]. pose proof (ask_control_talks cfg s status Hs).
    unfold pure. apply runs_lift_bind; [apply _|]. intros state _. case_match; [talk|].
    apply runs_bind; [apply _|done|]. intros [why notes]. case_match; [talk|].
    apply runs_lift_bind; [apply _|]. intros ps Hps. case_match; [talk|].
    pose proof (ping_talks cfg status s ps Hs Hps). talk.
Qed.

Lemma attempts_talks cfg s more : read_settings cfg = Ok s → runs_in (talks cfg) (attempts more s cfg).
Proof.
  intros Hs. pose proof (attempt_talks cfg s Hs).
  induction more as [|more IH]; cbn [attempts]; (apply runs_bind; [apply _|done|intros o]); talk.
Qed.

Lemma check_talks cfg : runs_in (talks cfg) (check cfg).
Proof.
  unfold check, pure. apply runs_lift_bind; [apply _|]. intros s Hs. pose proof (attempts_talks cfg s (ATTEMPTS - 1) Hs). talk.
Qed.

(** Claim C14: the credentials stay where they are meant to.  Whatever the
    settings, and whatever answers come back or faults stop it, [check] runs
    only its constant commands and pings of the addresses [tailscale status]
    gave for a peer; it asks only the control server of the provider
    [TAILNET_PROVIDER] names, with these requests: the OAuth client for a
    token, in the header, then the token it was given, for the device whose id
    [tailscale status] gave; or the Headscale key, in the header, for the
    nodes.  No credential is in a URL, a body or a command line. *)
Theorem credentials_confined cfg w r w' :
  check cfg w = (r, w') →
  ∃ commands requests,
    ran w' = (ran w ++ commands)%list ∧ asked w' = (asked w ++ requests)%list ∧
    Forall (command_of cfg w' ∘ fst) commands ∧ Forall (request_of cfg w' ∘ fst) requests.
Proof. apply check_talks. Qed.

(** * What a passing check rests on *)

(** After [w0], the control server answered that it sees this node, and lets
    it be reached. *)
Definition tailscale_sees (status cfg : val) w0 w : Prop :=
  ∃ base id q body d,
    asked_since w0 w (q, Answered 200 body) ∧ h_url q = base +:+ "/device/" +:+ quote_path (str_or id) +:+ "?fields=all" ∧
    api_base cfg = Ok base ∧ self_field "ID" status = Ok id ∧ str_or id ≠ "" ∧ loads body = Ok (VDict d) ∧
    truthy (vget "connectedToControl" d) = true ∧ truthy (vget "blocksIncomingConnections" d) = false.
Definition headscale_sees (status cfg : val) w0 w : Prop :=
  ∃ url public q body d nodes n online,
    asked_since w0 w (q, Answered 200 body) ∧ h_url q = rstrip_char "/" url +:+ "/api/v1/node" ∧
    cfg_text "HEADSCALE_URL" "" cfg = Ok url ∧ self_field "PublicKey" status = Ok public ∧ loads body = Ok (VDict d) ∧
    iter_or (vget "nodes" d) = Ok nodes ∧ n ∈ nodes ∧
    (∃ k, attr_get "nodeKey" n = Ok k ∧ py_eq k (VStr (str_or public)) = true) ∧
    attr_get "online" n = Ok online ∧ truthy online = true.
Definition control_sees (cfg status : val) w0 w : Prop :=
  provider_is true cfg ∧ headscale_sees status cfg w0 w ∨ provider_is false cfg ∧ tailscale_sees status cfg w0 w.

(** A peer of the status, online and with none of this host's tags, answered
    the ping of an address of its. *)
Definition peer_answered (status : val) (tags : list string) w0 w : Prop :=
  ∃ a r, peer_address status tags a ∧ ran_since w0 w (ping_argv a, inr r) ∧ returncode r = 0%Z.

(** The policy this host received has a rule that opens TCP 22 from an
    address of a peer to one of this host's, of the same family. *)
Definition policy_admits (status : val) (peers : list peer) w0 w : Prop :=
  ∃ own r netmap prules rules rule src dst name addrs a,
    own_addresses status = Ok own ∧ ran_since w0 w (["tailscale"; "debug"; "netmap"], inr r) ∧ returncode r = 0%Z ∧
    loads (stdout r) = Ok netmap ∧ item "PacketFilterRules" netmap = Ok prules ∧ iter_or prules = Ok rules ∧
    rule ∈ rules ∧ (name, addrs) ∈ peers ∧ a ∈ addrs ∧ val_ip a = Ok src ∧ dst ∈ own ∧
    ip_version src = ip_version dst ∧ allows_ssh rule src dst = Ok true.

(** The ruleset of each family this host has an address of was read, and the
    walk of it reports nothing. *)
Definition ruleset_passes (own : list ip) (tool : string) (f : family) w0 w : Prop :=
  ∃ r tables, ran_since w0 w ([tool], inr r) ∧ returncode r = 0%Z ∧
    parse_ruleset (stdout r) = Ok tables ∧ walk_inbound (filter (λ a, ip_version a = f) own) tables = Ok [].
Definition firewall_admits (status : val) w0 w : Prop :=
  ∃ own, own_addresses status = Ok own ∧ own ≠ [] ∧
    ∀ tool f, (tool, f) ∈ firewalls → filter (λ a, ip_version a = f) own ≠ [] → ruleset_passes own tool f w0 w.

(** What was seen between two states was seen between any wider ones. *)
Section wider.
Context (w0 w1 w w' : W) (G0 : grows w0 w1) (G1 : grows w w').
Lemma control_wider cfg status : control_sees cfg status w1 w → control_sees cfg status w0 w'.
Proof.
  intros [[Hp (url & public & q & body & d & nodes & n & online & Hin & ?)]|[Hp (base & id & q & body & d & Hin & ?)]]; [left|right].
  - split; [done|]. exists url, public, q, body, d, nodes, n, online. split; [by eapply asked_since_wider|done].
  - split; [done|]. exists base, id, q, body, d. split; [by eapply asked_since_wider|done].
Qed.
Lemma answered_wider status tags : peer_answered status tags w1 w → peer_answered status tags w0 w'.
Proof. intros (a & r & ? & Hr & ?). exists a, r. split_and!; [done|by eapply ran_since_wider|done]. Qed.
Lemma policy_wider status peers : policy_admits status peers w1 w → policy_admits status peers w0 w'.
Proof.
  intros (own & r & netmap & prules & rules & rule & src & dst & name & addrs & a & ? & Hr & ?).
  exists own, r, netmap, prules, rules, rule, src, dst, name, addrs, a. split_and!; [done|by eapply ran_since_wider|..]; naive_solver.
Qed.
Lemma ruleset_wider own tool f : ruleset_passes own tool f w1 w → ruleset_passes own tool f w0 w'.
Proof. intros (r & tables & Hr & ?). exists r, tables. split; [by eapply ran_since_wider|done]. Qed.
Lemma firewall_wider status : firewall_admits status w1 w → firewall_admits status w0 w'.
Proof. intros (own & ? & ? & Hf). exists own. split_and!; [done..|]. intros. by apply ruleset_wider, Hf. Qed.
End wider.

Lemma tailscale_control_ok status cfg w w' :
  tailscale_control status cfg w = (inr [], w') → tailscale_sees status cfg w w'.
Proof.
  intros H. unfold tailscale_control, pure in H.
  apply lift_bind_ok in H as (id & Hid & H). case_bool_decide as Hn; [by apply ret_ok in H as [? _]|].
  apply lift_bind_ok in H as (api & Hapi & H).
  apply lift_bind_ok in H as (client & _ & H). apply lift_bind_ok in H as (secret & _ & H).
  destruct (negb _); [by apply ret_ok in H as [? _]|].
  apply bind_ok in H as ([code token] & w1 & H1 & H). destruct (negb _ || _); [by apply ret_ok in H as [? _]|].
  apply bind_ok in H as ([code2 device] & w2 & H2 & H). case_bool_decide; [by apply ret_ok in H as [? _]|].
  destruct device as [| | | | | |d]; try by apply ret_ok in H as [? _].
  case_bool_decide as Hc; [|by apply ret_ok in H as [? _]].
  apply ret_ok in H as [H ->]. destruct (http_ok _ _ _ _ _ H2 Hc) as (body & Hb & Hl); [done|].
  eexists (rstrip_char "/" api), id, _, body, d.
  split_and!; [by eapply asked_since_wider; [by eapply http_grows|done|exact Hb]|done|unfold api_base; by rewrite Hapi|done..| |].
  all: destruct (truthy (vget "connectedToControl" d)), (truthy (vget "blocksIncomingConnections" d)); done.
Qed.

Lemma find_node_ok k nodes n :
  find_node k nodes = Ok (Some n) → n ∈ nodes ∧ ∃ v, attr_get "nodeKey" n = Ok v ∧ py_eq v (VStr k) = true.
Proof.
  induction nodes as [|m nodes IH]; cbn [find_node]; [done|]. intros (v & Hv & H)%res_bind_Ok.
  destruct (py_eq v _) eqn:Ek; [simplify_eq; split; [by left|eauto]|]. destruct (IH H). split; [by right|done].
Qed.

Lemma headscale_control_ok status cfg w w' :
  headscale_control status cfg w = (inr (Some []), w') → headscale_sees status cfg w w'.
Proof.
  intros H. unfold headscale_control, pure in H. apply lift_bind_ok in H as (key & _ & H).
  destruct (negb _); [by apply ret_ok in H as [? _]|].
  apply lift_bind_ok in H as (public & Hp & H). apply lift_bind_ok in H as (url & Hurl & H).
  apply bind_ok in H as ([code body] & w1 & H1 & H).
  destruct body as [| | | | | |d]; try by apply ret_ok in H as [? _].
  case_bool_decide as Hc; [|by apply ret_ok in H as [? _]].
  apply lift_bind_ok in H as (nodes & Hnodes & H). apply lift_bind_ok in H as ([n|] & Hn & H);
    [|by apply ret_ok in H as [? _]].
  apply lift_bind_ok in H as (online & Ho & H). apply ret_ok in H as [H ->].
  destruct (http_ok _ _ _ _ _ H1 Hc) as (body & Hb & Hl); [done|]. apply find_node_ok in Hn as [Hn Hk].
  eexists url, public, _, body, d, nodes, n, online. split_and!; [exact Hb|done..|].
  by destruct (truthy online).
Qed.

Lemma ping_ok status tags peers w name w' :
  (∀ n addrs a, (n, addrs) ∈ peers → head addrs = Some (VStr a) → peer_address status tags a) →
  ping_each peers w = (inr name, w') → truthy name = true → peer_answered status tags w w'.
Proof.
  revert w. induction peers as [|[n addrs] peers IH]; intros w Hp H Ht; cbn [ping_each] in H; [by apply ret_ok in H as [-> _]|].
  apply lift_bind_ok in H as (a & Ha & H). apply bind_ok in H as (r & w1 & H1 & H).
  case_bool_decide as Hr.
  - apply ret_ok in H as [-> ->]. apply run_ok in H1. exists a, r. split_and!; [|done..]. apply (Hp n addrs); [by left|].
    destruct addrs as [|v addrs]; [done|]. cbn in Ha |- *. destruct v; by simplify_eq/=.
  - eapply answered_wider; [by eapply run_grows|done|]. eapply IH; [|done..]. intros n' as' a' Hin. apply (Hp n'). by right.
Qed.
Lemma any_res_true {A} (p : A → res bool) l : any_res p l = Ok true → ∃ x, x ∈ l ∧ p x = Ok true.
Proof.
  induction l as [|x l IH]; cbn; [done|]. intros ([] & Hb & H)%res_bind_Ok; [exists x; split; [by left|done]|].
  destruct (IH H) as (y & ? & ?). exists y. split; [by right|done].
Qed.

Lemma address_pairs_ok peers own pairs src dst :
  address_pairs peers own = Ok pairs → (src, dst) ∈ pairs →
  ∃ name addrs a, (name, addrs) ∈ peers ∧ a ∈ addrs ∧ val_ip a = Ok src ∧ dst ∈ own ∧ ip_version src = ip_version dst.
Proof.
  unfold address_pairs. intros (l & Hl & H)%res_bind_Ok Hin. simplify_eq.
  apply list_elem_of_In, in_concat in Hin as (ps & Hps & Hin). apply list_elem_of_In in Hps, Hin.
  destruct (mapM_res_elem _ _ _ _ Hl Hps) as ([name addrs] & Hp & Hf).
  apply res_bind_Ok in Hf as (srcs & Hsrcs & Hf). simplify_eq.
  apply list_elem_of_In, in_concat in Hin as (qs & Hqs & Hin).
  apply in_map_iff in Hqs as (s & <- & Hs). apply in_map_iff in Hin as (d & Hd & Hin). simplify_eq.
  apply list_elem_of_In in Hs, Hin. apply list_elem_of_filter in Hin as [Hv Hin].
  destruct (mapM_res_elem _ _ _ _ Hsrcs Hs) as (a & Ha & Hip). by exists name, addrs, a.
Qed.

Lemma policy_ok status peers tags w w' :
  policy_reasons status peers tags w = (inr [], w') → policy_admits status peers w w'.
Proof.
  intros H. unfold policy_reasons, pure in H.
  apply lift_bind_ok in H as (own & Hown & H). apply lift_bind_ok in H as (pairs & Hpairs & H).
  apply bind_ok in H as (r & w1 & H1 & H). apply run_ok in H1.
  case_bool_decide as Hr; cbn [negb] in H; [|by apply ret_ok in H as [? _]].
  destruct (read_policy _ _) as [[allows|]|e] eqn:Ep.
  - apply lift_bind_ok in H as (names & _ & H). apply lift_bind_ok in H as (shown & _ & H). by apply ret_ok in H as [? _].
  - apply ret_ok in H as [_ ->]. unfold read_policy in Ep.
    apply res_bind_Ok in Ep as (netmap & Hn & Ep). apply res_bind_Ok in Ep as (prules & Hp & Ep).
    apply res_bind_Ok in Ep as (rules & Hrules & Ep). apply res_bind_Ok in Ep as ([] & Hany & Ep); [|by destruct (mapM_res _ _)].
    apply any_res_true in Hany as (rule & Hrule & ([src dst] & Hin & Ha)%any_res_true).
    destruct (address_pairs_ok _ _ _ _ _ Hpairs Hin) as (name & addrs & a & ?&?&?&?&?).
    by exists own, r, netmap, prules, rules, rule, src, dst, name, addrs, a; split_and!.
  - case_bool_decide; [by apply ret_ok in H as [? _]|done].
Qed.

(** One family's step adds no reason only when its ruleset passes. *)
Lemma firewall_step_ok own rs tool f w rs' w' :
  firewall_step own rs (tool, f) w = (inr rs', w') →
  rs `prefix_of` rs' ∧ (rs' = rs → filter (λ a, ip_version a = f) own ≠ [] → ruleset_passes own tool f w w').
Proof.
  intros H. unfold firewall_step in H. case_bool_decide as Hown; [by apply ret_ok in H as [-> ->]|].
  assert (Hgrew : ∀ x, rs `prefix_of` (rs ++ [x])%list ∧ (rs ++ [x] ≠ rs)%list).
  { intros x. split; [by eexists|]. intros Hx. apply (f_equal length) in Hx. rewrite length_app in Hx. cbn in Hx. lia. }
  apply bind_ok in H as ([text|r] & w1 & H1 & H); [apply ret_ok in H as [-> _]; by split; [apply Hgrew|intros ?%Hgrew]|].
  case_bool_decide as Hr; cbn [negb] in H; [|apply ret_ok in H as [-> _]; by split; [apply Hgrew|intros ?%Hgrew]].
  apply lift_bind_ok in H as (tables & Ht & H). apply lift_bind_ok in H as (why & Hwhy & H).
  apply ret_ok in H as [-> ->]. split; [by eexists|]. intros Heq _.
  assert (why = []) as ->.
  { apply (f_equal length) in Heq. rewrite length_app, length_map in Heq. by destruct why; [|cbn in Heq; lia]. }
  assert (ran_since w w1 ([tool], inr r)) as Hran.
  { unfold catch in H1. destruct ((r ← run [tool]; mret (inr r)) w) as [[e|v] w2] eqn:Ec.
    - by destruct e.
    - simplify_eq. apply bind_ok in Ec as (r2 & w3 & H3 & Ec). apply ret_ok in Ec as [Ec ->]. simplify_eq. by apply run_ok in H3. }
  by exists r, tables.
Qed.

Lemma firewall_ok status w w' : firewall_reasons status w = (inr [], w') → firewall_admits status w w'.
Proof.
  intros H. unfold firewall_reasons, pure in H. apply lift_bind_ok in H as (own & Hown & H).
  case_bool_decide as Hne; [by apply ret_ok in H as [? _]|]. exists own. split_and!; [done..|].
  unfold firewalls in H. cbn [foldST] in H.
  apply bind_ok in H as (rs1 & w1 & H1 & H). apply bind_ok in H as (rs2 & w2 & H2 & H).
  apply ret_ok in H as [<- ->].
  pose proof (talks_grows _ _ _ (firewall_step_talks VNone own [] "iptables-save" V4 ltac:(by left) _ _ _ H1)) as G1.
  pose proof (talks_grows _ _ _ (firewall_step_talks VNone own rs1 "ip6tables-save" V6 ltac:(right; by left) _ _ _ H2)) as G2.
  apply firewall_step_ok in H1 as [_ H1]. apply firewall_step_ok in H2 as [Hp H2].
  assert (rs1 = []) as -> by (destruct Hp as [k Hk]; by destruct rs1).
  intros tool f Htf Hf. unfold firewalls in Htf. rewrite !elem_of_cons, elem_of_nil in Htf.
  destruct Htf as [Htf|[Htf|[]]]; simplify_eq.
  - by eapply ruleset_wider; [|exact G2|by apply H1].
  - by eapply ruleset_wider; [exact G1| |by apply H2].
Qed.

Lemma ask_control_ok s status cfg notes w w' : read_settings cfg = Ok s →
  require_peer s = true → ask_control s status cfg w = (inr ([], notes), w') → control_sees cfg status w w'.
Proof.
  intros Hs%read_provider Hreq H. unfold ask_control in H. destruct (headscale s).
  - apply bind_ok in H as ([rs|] & w1 & H1 & H); [|rewrite Hreq in H; by apply ret_ok in H as [? _]].
    apply ret_ok in H as [H ->]. simplify_eq. left. split; [done|]. by eapply headscale_control_ok.
  - apply bind_ok in H as (rs & w1 & H1 & H). apply ret_ok in H as [H ->]. simplify_eq. right. split; [done|]. by eapply tailscale_control_ok.
Qed.

(** What one attempt that ends without a reason has seen, after the status it
    read. *)
Definition confirmed (s : settings) (cfg status : val) (peers : list peer) w0 w : Prop :=
  attr_get "BackendState" status = Ok (VStr "Running") ∧ control_sees cfg status w0 w ∧
  eligible_peers status (own_tags s) = Ok peers ∧ peer_answered status (own_tags s) w0 w.

Lemma attempt_ok s cfg w o w' : read_settings cfg = Ok s →
  require_peer s = true → attempt s cfg w = (inr o, w') → reasons o = [] →
  ∃ w1, local_status w = (inr (status o), w1) ∧ grows w1 w' ∧ confirmed s cfg (status o) (peers o) w1 w'.
Proof.
  intros Hset Hreq H Ho. unfold attempt, pure in H.
  apply bind_ok in H as ([text|st] & w1 & H1 & H); [by apply ret_ok in H as [-> _]|].
  assert (local_status w = (inr st, w1)) as Hst1.
  { apply catch_ok in H1 as [H1|(e & w2 & _ & H1)].
    - apply bind_ok in H1 as (st' & w2 & H1 & H2). apply ret_ok in H2 as [[= ->] ->]. done.
    - destruct e as [| | |[]]; by apply pair_equal_spec in H1 as [? _]. }
  apply lift_bind_ok in H as (state & Hst & H). destruct (py_eq state _) eqn:Es; cbn [negb] in H; [|by apply ret_ok in H as [-> _]].
  apply py_eq_text in Es as ->. apply bind_ok in H as ([why notes] & w2 & H2 & H). rewrite Hreq in H.
  case_bool_decide as Hw; cbn [negb andb] in H; [subst|apply ret_ok in H as [-> _]; done].
  apply lift_bind_ok in H as (ps & Hps & H). case_bool_decide; [by apply ret_ok in H as [-> _]|].
  apply bind_ok in H as (name & w3 & H3 & H).
  pose proof (ask_control_talks cfg s st Hset _ _ _ H2) as [G2 _].
  pose proof (ping_talks cfg st s ps Hset Hps _ _ _ H3) as [G3 _].
  apply ask_control_ok in H2; [|done..].
  destruct (truthy name) eqn:Hn; [|apply lift_bind_ok in H as (names & _ & H); by apply ret_ok in H as [-> _]].
  apply ret_ok in H as [-> ->]. exists w1. split_and!; [done|by etrans|]. split_and!; [done| |done|].
  - by apply (control_wider w1 w1 w2 w3).
  - apply (answered_wider w1 w2 w3 w3); [done..|]. eapply ping_ok; [|exact H3|done]. cbn [status own_tags].
    intros n addrs a (i & Hi & _)%elem_of_take. apply list_elem_of_lookup_2 in Hi. by eapply eligible_address.
Qed.

Lemma attempts_last more s cfg w o w' : read_settings cfg = Ok s →
  attempts more s cfg w = (inr o, w') → ∃ w1, grows w w1 ∧ attempt s cfg w1 = (inr o, w').
Proof.
  intros Hs. pose proof (attempt_talks cfg s Hs) as Ht.
  revert w. induction more as [|more IH]; intros w H; cbn [attempts] in H;
    apply bind_ok in H as (o1 & w1 & H1 & H).
  - apply ret_ok in H as [-> ->]. by exists w.
  - case_bool_decide; [apply ret_ok in H as [-> ->]; by exists w|]. apply bind_ok in H as ([] & w2 & H2 & H).
    destruct (IH _ H) as (w3 & Hg & H3). exists w3. split; [|done].
    etrans; [exact (talks_grows _ _ _ (Ht _ _ _ H1))|]. etrans; [exact (talks_grows _ _ _ (sleep_talks cfg _ _ _ H2))|done].
Qed.

(** Claim C12: a passing check, with a peer required, means what it says.  In
    its last attempt [tailscale status --json] printed a status, and after
    that: the control server of the provider the settings name answered that
    it sees the node of that status (and, for Tailscale, that the node accepts
    connections); a peer of that status, online and with none of this host's
    tags, answered the ping; the policy this host received opens TCP 22 from
    an address of such a peer to one of this host's of the same family; and
    for each family this host has an address of in that status, its ruleset
    was read and the walk found nothing against it. *)
Theorem reachable_confirmed cfg s w v w' :
  read_settings cfg = Ok s → require_peer s = true → check cfg w = (inr v, w') → v_ok v = true →
  ∃ w0 w1 r status peers, grows w w0 ∧ ran w1 = (ran w0 ++ [(["tailscale"; "status"; "--json"], inr r)])%list ∧ asked w1 = asked w0 ∧
    returncode r = 0%Z ∧ loads (stdout r) = Ok status ∧ grows w1 w' ∧
    confirmed s cfg status peers w1 w' ∧ policy_admits status peers w1 w' ∧ firewall_admits status w1 w'.
Proof.
  intros Hs Hreq H Hv. unfold check, pure in H. rewrite Hs in H.
  apply lift_bind_ok in H as (s' & Hs' & H). simplify_eq.
  apply bind_ok in H as (o & wa & H1 & H). apply bind_ok in H as (why & w2 & H2 & H).
  apply ret_ok in H as [-> ->]. case_bool_decide as Hwhy; [|done]. subst why.
  rewrite Hreq in H2. destruct (bool_decide_reflect (reasons o = [])) as [Ho|]; cbn [andb] in H2;
    [|by apply ret_ok in H2 as [? _]].
  apply attempts_last in H1 as (w0 & G0 & H1); [|done]. apply attempt_ok in H1 as (w1 & Hst & G1 & Hb & Hc & He & Hp); [|done..].
  apply bind_ok in H2 as (policy & w3 & H3 & H2). apply bind_ok in H2 as (fw & w4 & H4 & H2).
  apply ret_ok in H2 as [Hnil ->]. symmetry in Hnil. apply app_eq_nil in Hnil as [-> ->].
  pose proof (talks_grows _ _ _ (policy_talks cfg _ _ _ _ _ _ H3)) as G3.
  pose proof (talks_grows _ _ _ (firewall_talks cfg _ _ _ _ H4)) as G4.
  assert (grows w1 w3) by (by etrans). assert (grows wa w4) by (by etrans).
  destruct (local_status_ok _ _ _ Hst) as (r & Hr & Ha & Hr0 & Hl).
  exists w0, w1, r, (status o), (peers o). split_and!; [done..|by etrans|split_and!; [done| |done|]| |].
  - by apply (control_wider w1 w1 wa w4).
  - by apply (answered_wider w1 w1 wa w4).
  - apply (policy_wider w1 wa w3 w4); [done..|]. by eapply policy_ok.
  - apply (firewall_wider w1 w3 w4 w4); [done..|]. by apply firewall_ok.
Qed.
End facts.

(** * A tailnet, run *)

Module Tailnet.
Definition said (v : val) : completed := {| returncode := 0; stdout := dumps default_style v; stderr := "" |}.
Definition status : val := VDict
  [("BackendState", VStr "Running");
   ("Self", VDict [("ID", VStr "n1"); ("TailscaleIPs", VList [VStr "100.64.0.3"])]);
   ("Peer", VDict [("k1", VDict [("Online", VBool true); ("HostName", VStr "laptop"); ("Tags", VNone);
                                 ("TailscaleIPs", VList [VStr "fd7a::5"; VStr "100.64.0.5"])])])].
Definition netmap : val := VDict
  [("PacketFilterRules", VList [VDict [("SrcIPs", VList [VStr "100.64.0.0/10"]);
     ("DstPorts", VList [VDict [("IP", VStr "*"); ("Ports", VDict [("First", VInt 22); ("Last", VInt 22)])]])]])].
Definition ruleset : string := sjoin (String nl "")
  ["*filter"; ":INPUT DROP [0:0]"; "-A INPUT -i tailscale+ -p tcp --dport 22 -j ACCEPT"; "COMMIT"].
Definition cfg : val := VDict
  [("TAILSCALE_OAUTH_CLIENT_ID", VStr "id"); ("TAILSCALE_OAUTH_CLIENT_SECRET", VStr "secret");
   ("TAILNET_REQUIRE_PEER", VStr "1"); ("TAILNET_OWN_TAGS", VStr "tag:catena")].

Definition answer (argv : list string) : fault + completed :=
  if bool_decide (argv = ["tailscale"; "status"; "--json"]) then inr (said status)
  else if bool_decide (argv = ["tailscale"; "debug"; "netmap"]) then inr (said netmap)
  else if bool_decide (argv = ["iptables-save"]) then inr {| returncode := 0; stdout := ruleset; stderr := "" |}
  else if bool_decide (argv = ping_argv "100.64.0.5") then inr {| returncode := 0; stdout := ""; stderr := "" |}
  else inl (OsRefused "no such file").
Definition opens (q : request) : opened :=
  Answered 200 (dumps default_style
    (VDict (if bool_decide (h_method q = "POST") then [("access_token", VStr "t")] else [("connectedToControl", VBool true)]))).
#[local] Instance outside : Outside unit := {|
  run_cmd argv e := (answer argv, e); open_url q e := (opens q, e); tick e := e; error_text _ _ := ""
|}.
Definition start : world (E := unit) := {| ran := []; asked := []; slept := 0; ext := () |}.
Definition passed (r : fault + outcome) : bool := match r with inr v => v_ok v | inl _ => false end.

Lemma check_passes : passed (check cfg start).1 = true.
Proof. vm_compute. reflexivity. Qed.
Lemma settings_read : is_ok (read_settings cfg) = true.
Proof. vm_compute. reflexivity. Qed.
End Tailnet.

(** The status of the passing attempt names the node and the peer, and both
    were seen. *)
Lemma reachable_confirmed_witness :
  ∃ v w', check (Outside0 := Tailnet.outside) Tailnet.cfg Tailnet.start = (inr v, w') ∧ v_ok v = true ∧
    ∃ status w0 w1, tailscale_sees status Tailnet.cfg w1 w' ∧ peer_answered status ["tag:catena"] w1 w' ∧ firewall_admits status w0 w'.
Proof.
  pose proof Tailnet.check_passes as H.
  destruct (check (Outside0 := Tailnet.outside) Tailnet.cfg Tailnet.start) as [[f|v] w'] eqn:Ec; [done|].
  exists v, w'. split; [done|]. split; [exact H|].
  destruct (reachable_confirmed (Outside0 := Tailnet.outside) Tailnet.cfg (get_ok _ Tailnet.settings_read) _ v w'
    (get_ok_eq _ _) eq_refl Ec H) as (w0 & w1 & r & status & peers & _ & _ & _ & _ & _ & _ & (_ & Hc & _ & Hp) & _ & Hf).
  exists status, w1, w1. split; [|split; [exact Hp|exact Hf]].
  destruct Hc as [[(p & Hp1 & Hp2) _]|[_ Hc]]; [|exact Hc].
  vm_compute in Hp1. injection Hp1 as <-. vm_compute in Hp2. discriminate Hp2.
Defined.

Lemma credentials_confined_witness :
  ∃ r w' commands requests,
    check (Outside0 := Tailnet.outside) Tailnet.cfg Tailnet.start = (r, w') ∧
    ran w' = (ran Tailnet.start ++ commands)%list ∧ asked w' = (asked Tailnet.start ++ requests)%list ∧
    Forall (command_of Tailnet.cfg w' ∘ fst) commands ∧ Forall (request_of Tailnet.cfg w' ∘ fst) requests.
Proof.
  destruct (check (Outside0 := Tailnet.outside) Tailnet.cfg Tailnet.start) as [r w'] eqn:Ec.
  destruct (credentials_confined (Outside0 := Tailnet.outside) Tailnet.cfg _ _ _ Ec) as (l & k & H).
  by exists r, w', l, k.
Defined.
