(* ===== verification/FetchRelease.v ===== *)
(** [ansible/helpers/fetch_release.py], the registry half, with the token and
    tag rules of [ansible/helpers/catena_admin_release.py]: requests and their
    redirects, the bearer token, the retries, the manifests and blobs checked
    against the digests that name them, and [fetch] and [main], which join
    them to [ReleaseRef] and [LayerTree].  The network is what an opened
    request answers; a layer's members are what the tar reader yields. *)
From S2P Require Import Prelude PyStr PyNum PyVal Json Encoding Sha256 ReleaseRef LayerTree Effects UrlLib.

#[local] Open Scope string_scope.

(** * Requests *)

Record request := { q_url : string; q_headers : dict string; q_method : string }.
Record response := { p_headers : dict string; p_body : string }.

(** How a computation stops: an HTTP status, a body cut short, another error
    of the connection or the operating system, an exception of the code's, or
    the pages a run is given read and another one offered. *)
Inductive fault :=
  | HTTPError (status : Z) (headers : dict string)
  | IncompleteRead
  | ConnectionFailed
  | Raised (e : exn)
  | StillPaging.

(** What is outside: the answer to a request (which changes only the state of
    the network), and the members a layer's bytes hold. *)
Class Network (E : Type) := {
  open_url : request → E → (fault + response) * E;
  read_members : string → string → res (list member)
}.

Section network.
Context {E : Type} `{!Network E}.

(** The requests sent so far, the registry's token, the destination. *)
Record world := { sent : list request; token : string; dest : tree; net : E }.
Abbreviation M := (ST world fault).

Definition refuse {A} : M A := throw (Raised FetchError).
Definition opener (q : request) : M response := λ w,
  let '(r, e) := open_url q (net w) in
  (r, {| sent := (sent w ++ [q])%list; token := token w; dest := dest w; net := e |}).
Definition set_token (t : string) : M unit :=
  modify (λ w, {| sent := sent w; token := t; dest := dest w; net := net w |}).
Definition set_dest (d : tree) : M unit :=
  modify (λ w, {| sent := sent w; token := token w; dest := d; net := net w |}).

(** A header, whatever the case of its name. *)
Fixpoint header (name : string) (hs : dict string) : option string :=
  match hs with
  | [] => None
  | (k, v) :: hs => if bool_decide (lower k = lower name) then Some v else header name hs
  end.

(** * The registry *)

Record registry := { g_host : string; g_insecure_http : bool; g_attempts : nat }.

Definition REDIRECTS : list Z := [301; 302; 303; 307; 308]%Z.
Definition MAX_REDIRECTS : nat := 5.

Definition scheme_of (u : string) : res string := u_scheme <$> urlsplit u "".
Definition netloc_of (u : string) : res string := u_netloc <$> urlsplit u "".

Definition redirect (q : request) (location : string) : res request :=
  u ← urljoin (q_url q) location;
  here ← netloc_of (q_url q);
  there ← netloc_of u;
  Ok {| q_url := u;
        q_headers := if bool_decide (there = here) then q_headers q else ddel "Authorization" (q_headers q);
        q_method := q_method q |}.

(** [Registry._send], with the hops it may still follow. *)
Fixpoint send_from (g : registry) (hops : nat) (q : request) : M response :=
  match hops with
  | O => refuse
  | S hops =>
      scheme ← lift Raised (scheme_of (q_url q));
      if negb (bool_decide (scheme = "https") || (bool_decide (scheme = "http") && g_insecure_http g)) then refuse else
      catch (opener q) (λ e,
        match e with
        | HTTPError status hs =>
            match (if bool_decide (status ∈ REDIRECTS) then header "Location" hs else None) with
            | None | Some EmptyString => throw e
            | Some location =>
                q ← lift Raised (redirect q location);
                send_from g hops q
            end
        | _ => throw e
        end)
  end.
Definition send (g : registry) (q : request) : M response := send_from g (S MAX_REDIRECTS) q.

Definition base_of (g : registry) : string := (if g_insecure_http g then "http" else "https") +:+ "://" +:+ g_host g.

(** [Registry._request] *)
Definition make_request (u method accept token : string) : request :=
  {| q_url := u;
     q_headers := ("Accept", accept) :: (if bool_decide (token = "") then [] else [("Authorization", "Bearer " +:+ token)]);
     q_method := method |}.

(** ** The bearer token *)

(** [_BEARER_PARAM.findall]: every word="value", the last of a name kept. *)
Fixpoint bearer_params (fuel : nat) (word s : string) : dict string :=
  match fuel, s with
  | S fuel, String a s' =>
      if is_word_char a then bearer_params fuel (word +:+ String a "") s'
      else if is_char "=" a && negb (bool_decide (word = "")) then
        match s' with
        | String b s'' =>
            if bool_decide (b = dq) then
              match partition dq s'' with
              | (value, true, rest) => (word, value) :: bearer_params fuel "" rest
              | _ => bearer_params fuel "" s'
              end
            else bearer_params fuel "" s'
        | EmptyString => []
        end
      else bearer_params fuel "" s'
  | _, _ => []
  end.

(** [_bearer_challenge] *)
Definition bearer_challenge (status : Z) (hs : dict string) : option (dict string) :=
  if bool_decide (status = 401%Z) then
    let h := default "" (header "WWW-Authenticate" hs) in
    if startswith (lower h) "bearer "
    then Some (foldl (λ d kv, dset kv.1 kv.2 d) [] (bearer_params (S (String.length h)) "" h))
    else None
  else None.

Definition realm_url (realm : string) (challenge : dict string) : string :=
  let params := List.filter (λ kv, (bool_decide (kv.1 = "service") || bool_decide (kv.1 = "scope"))
                                   && negb (bool_decide (kv.2 = ""))) challenge in
  realm +:+ (if has_char "?" realm then "&" else "?") +:+ urlencode params.

(** [_fetch_token] *)
Definition fetch_token (g : registry) (challenge : dict string) : M string :=
  match dget "realm" challenge with
  | None | Some EmptyString => throw (Raised ResolveError)
  | Some realm =>
      r ← send g (make_request (realm_url realm challenge) "GET" "application/json" "");
      doc ← lift Raised (loads (p_body r));
      d ← lift Raised (match doc with VDict d => Ok d | _ => Raise AttributeError end);
      let t := val_or (vget "token" d) (val_or (vget "access_token" d) (VStr "")) in
      if truthy t then mret (py_str t) else throw (Raised ResolveError)
  end.

(** [Registry._open] *)
Definition open_path (g : registry) (path method accept : string) : M response :=
  let u := base_of g +:+ path in
  t ← gets token;
  catch (send g (make_request u method accept t)) (λ e,
    match e with
    | HTTPError status hs =>
        match bearer_challenge status hs with
        | Some challenge =>
            t ← fetch_token g challenge;
            _ ← set_token t;
            send g (make_request u method accept t)
        | None => throw e
        end
    | _ => throw e
    end).

(** [_transient] *)
Definition transient (e : fault) : bool :=
  match e with
  | HTTPError status _ => bool_decide (status ∈ [502; 503; 504]%Z)
  | IncompleteRead | ConnectionFailed => true
  | Raised e => bool_decide (e = OSError)
  | StillPaging => false
  end.

(** [Registry._retry], with the attempts left after this one. *)
Fixpoint retry_from {A} (tries : nat) (once : M A) : M A :=
  catch once (λ e,
    match tries with
    | O => throw e
    | S tries => if transient e then retry_from tries once else throw e
    end).
Definition retry {A} (g : registry) (once : M A) : M A := retry_from (g_attempts g - 1) once.

(** [Registry.get] *)
Definition get (g : registry) (path method accept : string) : M response := retry g (open_path g path method accept).

Definition sha256 (body : string) : string := "sha256:" +:+ sha256_hex body.

(** The size a descriptor gives, when it is an integer. *)
Definition int_size (v : val) : option Z :=
  match v with VInt z => Some z | VBool b => Some (Z.b2z b) | _ => None end.

(** [Registry.download], the blob's bytes. *)
Definition download (g : registry) (repo_path digest : string) (size : val) : M string :=
  body ← retry g (
    r ← open_path g ("/v2/" +:+ repo_path +:+ "/blobs/" +:+ digest) "GET" "*/*";
    match int_size size with
    | Some n => if bool_decide (Z.of_nat (String.length (p_body r)) < n)%Z then throw IncompleteRead else mret (p_body r)
    | None => mret (p_body r)
    end);
  if bool_decide (sha256 body = digest) then mret body else refuse.

(** * What names what *)

Definition MANIFEST_ACCEPT : string :=
  "application/vnd.oci.image.index.v1+json, application/vnd.oci.image.manifest.v1+json, application/vnd.docker.distribution.manifest.list.v2+json, application/vnd.docker.distribution.manifest.v2+json".
(** [_LAYER_MODES] *)
Definition layer_mode (media : string) : option string :=
  if bool_decide (media = "application/vnd.oci.image.layer.v1.tar+gzip") then Some "r|gz"
  else if bool_decide (media = "application/vnd.docker.image.rootfs.diff.tar.gzip") then Some "r|gz"
  else if bool_decide (media = "application/vnd.oci.image.layer.v1.tar") then Some "r|"
  else None.

(** [_manifest] *)
Definition manifest (g : registry) (repo_path digest : string) : M (dict val) :=
  r ← get g ("/v2/" +:+ repo_path +:+ "/manifests/" +:+ digest) "GET" MANIFEST_ACCEPT;
  if negb (bool_decide (sha256 (p_body r) = digest)) then refuse else
  doc ← lift Raised (loads (p_body r));
  match doc with VDict d => mret d | _ => refuse end.

Definition str_is (v : val) (s : string) : bool := py_eq v (VStr s).

(** [_platform_entry]: the digest of the first entry for the platform. *)
Fixpoint platform_entry_of (os_name arch variant : string) (entries : list val) : res string :=
  match entries with
  | [] => Raise FetchError
  | entry :: entries =>
      match entry with
      | VDict e =>
          match vget "platform" e with
          | VDict p =>
              if str_is (vget "os" p) os_name && str_is (vget "architecture" p) arch
                 && (bool_decide (variant = "") || str_is (vget "variant" p) variant)
              then if digest_ok (py_str (vget "digest" e)) then Ok (py_str (vget "digest" e)) else Raise FetchError
              else platform_entry_of os_name arch variant entries
          | _ => platform_entry_of os_name arch variant entries
          end
      | _ => platform_entry_of os_name arch variant entries
      end
  end.
Definition platform_entry (entries : val) (platform : string) : res string :=
  let go os_name arch variant :=
    platform_entry_of os_name arch variant (match entries with VList l => l | _ => [] end) in
  match split "/" platform with
  | [os_name; arch] => go os_name arch ""
  | [os_name; arch; variant] => go os_name arch variant
  | _ => Raise FetchError
  end.

(** A layer: its digest, its size and how its tar is read. *)
Record layer := { l_digest : string; l_size : val; l_mode : string }.
Definition layer_of (v : val) : res layer :=
  match v with
  | VDict d =>
      if digest_ok (py_str (vget "digest" d)) then
        match vget "mediaType" d with
        | VStr media =>
            match layer_mode media with
            | Some mode => Ok {| l_digest := py_str (vget "digest" d); l_size := vget "size" d; l_mode := mode |}
            | None => Raise FetchError
            end
        | VList _ | VDict _ => Raise TypeError
        | _ => Raise FetchError
        end
      else Raise FetchError
  | _ => Raise FetchError
  end.

(** [image_layers] *)
Definition image_layers (g : registry) (repo_path digest platform : string) : M (list layer) :=
  doc ← manifest g repo_path digest;
  doc ← (if dhas "manifests" doc then
           entry ← lift Raised (platform_entry (vget "manifests" doc) platform);
           manifest g repo_path entry
         else mret doc);
  match vget "layers" doc with
  | VList layers => lift Raised (mapM_res layer_of layers)
  | _ => refuse
  end.

(** [host_platform] *)
Definition host_platform (machine : string) : res string :=
  if bool_decide (machine = "x86_64") || bool_decide (machine = "amd64") then Ok "linux/amd64"
  else if bool_decide (machine = "aarch64") || bool_decide (machine = "arm64") then Ok "linux/arm64"
  else Raise FetchError.

(** * Resolving *)

(** [_next_page] *)
Fixpoint remove_spaces (s : string) : string :=
  match s with
  | EmptyString => EmptyString
  | String a s => if bool_decide (a = " "%char) then remove_spaces s else String a (remove_spaces s)
  end.
Definition rel_next : string := "rel=" +:+ String dq ("next" +:+ String dq "").
Definition between_angles (part : string) : option string :=
  match partition "<" part with
  | (before, true, after) =>
      if has_char ">" before then None else
      match partition ">" after with (page, true, _) => Some page | _ => None end
  | _ => None
  end.
Definition next_page (hs : dict string) : string :=
  let link := default "" (header "Link" hs) in
  default "" (head (omap between_angles (List.filter (λ part, scontains rel_next (remove_spaces part)) (split "," link)))).

(** [list_tags], within a number of pages: a registry may offer a new page for
    ever. *)
Fixpoint tag_pages (fuel : nat) (g : registry) (page : string) (seen tags : list string) : M (list string) :=
  match fuel with
  | O => throw StillPaging
  | S fuel =>
      if bool_decide (page = "") || bool_decide (page ∈ seen) then mret tags else
      r ← get g page "GET" "application/json";
      doc ← lift Raised (loads (p_body r));
      d ← lift Raised (match doc with VDict d => Ok d | _ => Raise AttributeError end);
      more ← lift Raised (iter_or (vget "tags" d));
      tag_pages fuel g (next_page (p_headers r)) (page :: seen) (tags ++ map py_str more)%list
  end.
Definition list_tags (fuel : nat) (g : registry) (path : string) : M (list string) :=
  tag_pages fuel g ("/v2/" +:+ path +:+ "/tags/list?n=100") [] [].

(** [connect(host)]: a registry with no token yet. *)
Definition connected {A} (g : registry) (host : string) (c : registry → M A) : M A :=
  _ ← set_token "";
  c {| g_host := host; g_insecure_http := g_insecure_http g; g_attempts := g_attempts g |}.

(** [latest_release] *)
Definition latest_release (fuel : nat) (g : registry) (repository : string) : M string :=
  '(_, path) ← lift Raised (split_repository repository);
  tags ← list_tags fuel g path;
  let version := newest_release tags in
  if bool_decide (version = "") then refuse else mret (repository +:+ ":" +:+ version).

(** [manifest_digest] *)
Definition manifest_digest (g : registry) (repo_path tag : string) : M string :=
  let path := "/v2/" +:+ repo_path +:+ "/manifests/" +:+ tag in
  r ← get g path "HEAD" MANIFEST_ACCEPT;
  let digest := strip (default "" (header "Docker-Content-Digest" (p_headers r))) in
  if digest_ok digest then mret digest else
  r ← get g path "GET" MANIFEST_ACCEPT;
  mret (sha256 (p_body r)).

(** What the host and the command line say; a docker that timed out is an
    [OSError], caught as it is. *)
Record inputs := {
  n_repository : string;
  n_image : string;
  n_release : string;
  n_store : option string;
  n_docker : res (option inspected);
  n_machine : string;
  n_platform : string;
  n_paths : list string
}.

(** The five sources, each asked only when the ones before named nothing. *)
Definition find_ref (fuel : nat) (g : registry) (n : inputs) : M string :=
  if negb (bool_decide (n_image n = "")) then mret (n_image n) else
  if negb (bool_decide (n_release n = "")) then mret (n_repository n +:+ ":" +:+ n_release n) else
  pinned ← lift Raised (pinned_image (n_repository n) (n_store n));
  if negb (bool_decide (pinned = "")) then mret pinned else
  done ← lift Raised (n_docker n);
  let running := swarm_image (n_repository n) done in
  if negb (bool_decide (running = "")) then mret running else
  '(host, _) ← lift Raised (split_repository (n_repository n));
  connected g host (λ g, latest_release fuel g (n_repository n)).

(** [resolve_ref] *)
Definition resolve_ref (fuel : nat) (g : registry) (n : inputs) : M string :=
  found ← find_ref fuel g n;
  parsed ← lift Raised (parse_ref found);
  if negb (bool_decide (r_digest parsed = "")) then mret (ref_name parsed) else
  if bool_decide (r_tag parsed = "") then refuse else
  d ← connected g (r_host parsed) (λ g, manifest_digest g (r_path parsed) (r_tag parsed));
  mret (ref_name (with_digest d parsed)).

(** * Fetching *)

Definition fetch_layer (g : registry) (repo_path : string) (prefixes : list path) (s : tree * modes) (l : layer) :
    M (tree * modes) :=
  blob ← download g repo_path (l_digest l) (l_size l);
  members ← lift Raised (read_members (l_mode l) blob);
  lift Raised (apply_layer prefixes s members).

(** [fetch]: the destination changes in [install] and when IMAGE is replaced. *)
Definition fetch (g : registry) (n : inputs) (ref : string) : M unit :=
  image ← lift Raised (parse_ref ref);
  if bool_decide (r_digest image = "") then refuse else
  prefixes ← lift Raised (prefixes_of (n_paths n));
  platform ← (if bool_decide (n_platform n = "") then lift Raised (host_platform (n_machine n)) else mret (n_platform n));
  connected g (r_host image) (λ g,
    layers ← image_layers g (r_path image) (r_digest image) platform;
    '(t, dir_modes) ← foldST (fetch_layer g (r_path image) prefixes) (∅, ∅) layers;
    d ← gets dest;
    let '(r, d) := install t dir_modes prefixes d in
    _ ← set_dest d;
    _ ← lift Raised r;
    match d !! ["IMAGE"] with
    | Some (Dir _) => throw (Raised OSError)
    | _ => set_dest (<[["IMAGE"] := File (ref_name image +:+ String nl "") 420]> d)
    end).

(** [main], its arguments read: resolve, perhaps fetch, and print the
    reference; an error it names is exit 1 with nothing printed. *)
Definition caught (e : fault) : bool :=
  match e with
  | HTTPError _ _ | IncompleteRead | ConnectionFailed => true
  | Raised e => bool_decide (e ∈ [FetchError; ResolveError; OSError; ValueError])
  | StillPaging => false
  end.
Definition main (fuel : nat) (g : registry) (n : inputs) (resolve_only : bool) : M (Z * string) :=
  catch (ref ← resolve_ref fuel g n;
         _ ← (if resolve_only then mret tt else fetch g n ref);
         mret (0%Z, ref +:+ String nl ""))
        (λ e, if caught e then mret (1%Z, "") else throw e).
End network.
