(* ===== verification/FetchReleaseFacts.v ===== *)
(** What fetching promises: the registry's token goes to the registry alone,
    over https; what is unpacked is named, byte for byte, by the resolved
    digest; errors worth waiting out are retried a bounded number of times;
    and the image resolved is the first source's, by digest.  The definitions
    are those of [FetchRelease]. *)
From S2P Require Import Prelude PyStr PyNum PyVal Json Encoding Sha256 ReleaseRef LayerTree LayerTreeFacts Effects UrlLib FetchRelease.

#[local] Open Scope string_scope.

Section facts.
Context {E : Type} `{!Network E}.
Abbreviation W := (@world E).
Implicit Types (w : W) (g : registry).

(** * Where the token goes *)

Definition has_token (q : request) : Prop := is_Some (dget "Authorization" (q_headers q)).
(** A request the registry may send: over https, or http when that was asked
    for, and to the registry's own host if it carries the token. *)
Definition confined g (q : request) : Prop :=
  (scheme_of (q_url q) = Ok "https" ∨ g_insecure_http g = true ∧ scheme_of (q_url q) = Ok "http") ∧
  (has_token q → netloc_of (q_url q) = Ok (g_host g)).
Definition sends g w w' : Prop := ∃ new, sent w' = (sent w ++ new)%list ∧ Forall (confined g) new.

#[local] Instance sends_preorder g : PreOrder (sends g).
Proof.
  split.
  - intros w. exists []. by rewrite app_nil_r.
  - intros w1 w2 w3 (n1 & E1 & H1) (n2 & E2 & H2). exists (n1 ++ n2)%list.
    by rewrite E2, E1, app_assoc, Forall_app.
Qed.

Lemma sends_same g w w' : sent w' = sent w → sends g w w'.
Proof. intros H. exists []. by rewrite H, app_nil_r. Qed.

Lemma sends_set_token g t : runs_in (sends g) (set_token t).
Proof. apply runs_modify. intros w. by apply sends_same. Qed.
Lemma sends_set_dest g d : runs_in (sends g) (set_dest d).
Proof. apply runs_modify. intros w. by apply sends_same. Qed.

Lemma opener_sends g q : confined g q → runs_in (sends g) (opener q).
Proof.
  intros Hq w r w' H. unfold opener in H. destruct (open_url q (net w)) as [r' e].
  apply pair_equal_spec in H as [_ <-]. exists [q]. split; [done|]. by constructor.
Qed.

(** A redirect keeps the token only where it was. *)
Lemma redirect_token q location q' :
  redirect q location = Ok q' → NoDup (dkeys (q_headers q)) →
  NoDup (dkeys (q_headers q')) ∧ (has_token q' → has_token q ∧ netloc_of (q_url q') = netloc_of (q_url q)).
Proof.
  unfold redirect. intros (u & _ & H)%res_bind_Ok Hd. apply res_bind_Ok in H as (here & Hh & H).
  apply res_bind_Ok in H as (there & Ht & H). injection H as <-. unfold has_token. cbn. case_bool_decide as Heq.
  - split; [done|]. intros Ha. split; [done|]. congruence.
  - split; [by apply NoDup_ddel|]. rewrite dget_ddel_eq by done. by intros [? ?].
Qed.

(** ** Every address the registry builds is on its host *)

Lemma drop_unsafe_app a b : drop_unsafe (a +:+ b) = drop_unsafe a +:+ drop_unsafe b.
Proof. induction a as [|x a IH]; [done|]. cbn. destruct (unsafe_char x); [done|]. cbn. by rewrite IH. Qed.
Lemma drop_unsafe_id a : sforall (λ x, negb (unsafe_char x)) a = true → drop_unsafe a = a.
Proof. induction a as [|x a IH]; [done|]. cbn. intros [Hx%negb_true_iff Ha]%andb_prop. by rewrite Hx, IH. Qed.
Lemma until_app stop a b x s : sforall (λ c, negb (stop c)) a = true → stop x = true → b = String x s →
  until stop (a +:+ b) = (a, b).
Proof.
  intros Ha Hx ->. induction a as [|y a IH]; cbn; [by rewrite Hx|]. cbn in Ha. apply andb_prop in Ha as [Hy Ha].
  apply negb_true_iff in Hy. rewrite Hy. cbn in IH. by rewrite IH.
Qed.

Definition host_text (s : string) : Prop := sforall (λ a, host_char a || is_char ":" a) s = true.

Lemma host_ok_text s : host_ok s = true → host_text s.
Proof.
  unfold host_ok, host_text. pose proof (partition_inv ":" s) as (_ & Hs & Hn).
  destruct (partition ":" s) as [[name port] n]. cbn [fst snd] in *. intros [[_ Hname]%andb_prop Hp]%andb_prop.
  rewrite Hs. rewrite sforall_app. apply andb_true_intro; split.
  - refine (sforall_impl _ _ _ _ Hname). intros a Ha. by rewrite Ha.
  - destruct port; [|by rewrite Hn]. apply andb_prop in Hp as [_ Hp]. cbn [sforall].
    apply andb_true_intro; split; [done|]. refine (sforall_impl _ _ _ _ Hp). intros a Ha.
    unfold host_char, is_alnum. by rewrite Ha.
Qed.

Lemma urlsplit_base scheme host rest default_scheme :
  bool_decide (scheme = "") = false → sforall is_scheme_char scheme = true → has_char ":" scheme = false →
  sforall (λ a, negb (unsafe_char a)) scheme = true → host_text host →
  u_netloc <$> urlsplit (scheme +:+ ":" +:+ "//" +:+ host +:+ "/" +:+ rest) default_scheme = Ok host.
Proof.
  intros Hne Hsc Hcol Hun Hh. unfold urlsplit.
  assert (Hc : ∀ p, (∀ a, host_char a || is_char ":" a = true → p a = true) → sforall p host = true).
  { intros p Hp. exact (sforall_impl _ _ _ Hp Hh). }
  assert (Hdrop : drop_unsafe (scheme +:+ ":" +:+ "//" +:+ host +:+ "/" +:+ rest) =
    scheme +:+ String ":" ("//" +:+ (host +:+ String "/" (drop_unsafe rest)))).
  { rewrite drop_unsafe_app, drop_unsafe_id by done. f_equal. rewrite !drop_unsafe_app.
    rewrite (drop_unsafe_id host); [done|]. apply Hc, ascii_imp. vm_compute. reflexivity. }
  rewrite Hdrop, partition_app by done. rewrite Hne, Hsc. cbn [negb andb].
  rewrite startswith_app. change 2%nat with (String.length "//") at 1 2.
  fold (drop_prefix (String.length "//") ("//" +:+ (host +:+ String "/" (drop_unsafe rest)))).
  rewrite drop_prefix_app.
  rewrite (until_app netloc_end host _ "/"%char (drop_unsafe rest)); [|apply Hc, ascii_imp; vm_compute; reflexivity|done|done].
  assert (Hbr : has_char "[" host = false ∧ has_char "]" host = false).
  { unfold has_char, sexists. rewrite !negb_false_iff. split; apply Hc, ascii_imp; vm_compute; reflexivity. }
  destruct Hbr as [-> ->]. cbn [Bool.eqb negb].
  destruct (partition "#" _) as [[r1 f1] fr]. destruct (partition "?" r1) as [[r2 f2] qu]. done.
Qed.

Lemma base_netloc g path :
  host_text (g_host g) → startswith path "/" = true → netloc_of (base_of g +:+ path) = Ok (g_host g).
Proof.
  intros Hh Hp. apply startswith_inv in Hp as [rest ->]. unfold netloc_of, base_of.
  rewrite <-!string_app_assoc. change ("://" +:+ ?x) with (":" +:+ "//" +:+ x).
  destruct (g_insecure_http g); by apply urlsplit_base.
Qed.

(** * What the registry's calls relate *)

(** A relation the confined requests and the token's changes keep, every call
    of a registry keeps. *)
Section runs_net.
Context (g : registry) (R : W → W → Prop) `{!PreOrder R} (Hh : host_text (g_host g)).
Context (Hopen : ∀ q, confined g q → runs_in R (opener q)) (Htok : ∀ t, runs_in R (set_token t)).

Lemma send_from_runs hops q :
  NoDup (dkeys (q_headers q)) → (has_token q → netloc_of (q_url q) = Ok (g_host g)) →
  runs_in R (send_from g hops q).
Proof.
  revert q. induction hops as [|hops IH]; intros q Hd Hq; cbn [send_from]; [apply runs_throw, _|].
  apply runs_lift_bind; [apply _|]. intros scheme Hs.
  destruct (negb _) eqn:Hn; [apply runs_throw, _|].
  assert (Hc : confined g q).
  { split; [|done]. apply negb_false_iff, orb_true_iff in Hn as [Hn|Hn].
    - left. apply bool_decide_eq_true in Hn. congruence.
    - right. apply andb_prop in Hn as [Hn ?]. apply bool_decide_eq_true in Hn. split; congruence. }
  apply runs_catch; [apply _|by apply Hopen|]. intros [status hs| | | |]; try apply runs_throw, _.
  destruct (if bool_decide _ then _ else _) as [[|a location]|]; try apply runs_throw, _.
  apply runs_lift_bind; [apply _|]. intros q' Hr. apply redirect_token in Hr as [Hd' Hq']; [|done].
  apply IH; [done|]. intros Ht. destruct (Hq' Ht) as [Ht' ->]. auto.
Qed.

Lemma make_request_NoDup u m a t : NoDup (dkeys (q_headers (make_request u m a t))).
Proof.
  unfold make_request. cbn. case_bool_decide; cbn; [apply NoDup_singleton|].
  apply NoDup_cons. split; [by intros ?%list_elem_of_singleton|apply NoDup_singleton].
Qed.

Lemma fetch_token_runs challenge : runs_in R (fetch_token g challenge).
Proof.
  unfold fetch_token. destruct (dget "realm" challenge) as [[|a realm]|]; try apply runs_throw, _.
  apply runs_bind; [apply _| |intros r].
  - apply send_from_runs; [apply make_request_NoDup|]. intros [v Hv]. done.
  - do 2 (apply runs_lift_bind; [apply _|]; intros ? _). destruct (truthy _); [apply runs_ret, _|apply runs_throw, _].
Qed.

Lemma open_path_runs path method accept :
  startswith path "/" = true → runs_in R (open_path g path method accept).
Proof.
  intros Hp. unfold open_path. apply runs_gets_bind; [apply _|]. intros t.
  assert (Hs : ∀ t, runs_in R (send g (make_request (base_of g +:+ path) method accept t))).
  { intros t'. apply send_from_runs; [apply make_request_NoDup|]. intros _. by apply base_netloc. }
  apply runs_catch; [apply _|done|]. intros [status hs| | | |]; try apply runs_throw, _.
  destruct (bearer_challenge status hs); [|apply runs_throw, _].
  apply runs_bind; [apply _|apply fetch_token_runs|]. intros t'.
  apply runs_bind; [apply _|apply Htok|]. done.
Qed.

Lemma retry_runs {A} (once : ST W fault A) : runs_in R once → runs_in R (retry g once).
Proof.
  intros Ho. unfold retry. induction (g_attempts g - 1)%nat as [|n IH]; cbn [retry_from];
    (apply runs_catch; [apply _|done|]; intros e); [apply runs_throw, _|].
  destruct (transient e); [done|apply runs_throw, _].
Qed.

Lemma get_runs path method accept :
  startswith path "/" = true → runs_in R (get g path method accept).
Proof. intros. by apply retry_runs, open_path_runs. Qed.

Lemma download_runs repo d size : runs_in R (download g repo d size).
Proof.
  unfold download. apply runs_bind; [apply _| |].
  - apply retry_runs, runs_bind; [apply _|by apply open_path_runs|]. intros r.
    destruct (int_size size) as [n|]; [|apply runs_ret, _]. case_bool_decide; [apply runs_throw, _|apply runs_ret, _].
  - intros body. case_bool_decide; [apply runs_ret, _|apply runs_throw, _].
Qed.

Lemma manifest_runs repo d : runs_in R (manifest g repo d).
Proof.
  unfold manifest. apply runs_bind; [apply _|by apply get_runs|]. intros r.
  destruct (negb _); [apply runs_throw, _|]. apply runs_lift_bind; [apply _|]. intros doc _.
  destruct doc; try apply runs_throw, _. apply runs_ret, _.
Qed.

Lemma image_layers_runs repo d platform : runs_in R (image_layers g repo d platform).
Proof.
  unfold image_layers. apply runs_bind; [apply _|by apply manifest_runs|]. intros doc.
  apply runs_bind; [apply _| |].
  - destruct (dhas _ _); [|apply runs_ret, _]. apply runs_lift_bind; [apply _|]. intros e _. by apply manifest_runs.
  - intros doc'. destruct (vget "layers" doc'); try apply runs_throw, _. apply runs_lift, _.
Qed.

End runs_net.

(** The token stays with the registry.  Whatever the network answers
    while an image is fetched, with any redirects, challenges and retries, and
    however the fetch ends, every request it sends is over https, unless plain
    http was asked for, and a request carries the bearer token only to the
    very host the image reference names. *)
Theorem fetch_token_confined g n ref image w r w' :
  parse_ref ref = Ok image → fetch g n ref w = (r, w') →
  ∃ new, sent w' = (sent w ++ new)%list ∧
    ∀ q, q ∈ new →
      (scheme_of (q_url q) = Ok "https" ∨ g_insecure_http g = true ∧ scheme_of (q_url q) = Ok "http") ∧
      (is_Some (dget "Authorization" (q_headers q)) → netloc_of (q_url q) = Ok (r_host image)).
Proof.
  intros Hp H. set (g' := {| g_host := r_host image; g_insecure_http := g_insecure_http g; g_attempts := g_attempts g |}).
  assert (Hh : host_text (g_host g')).
  { apply host_ok_text. by apply parse_ref_parts in Hp as [? _]. }
  assert (Hs : runs_in (sends g') (fetch g n ref)).
  { unfold fetch. apply runs_lift_bind; [apply _|]. intros image' Hi. rewrite Hp in Hi. injection Hi as <-.
    case_bool_decide; [apply runs_throw, _|]. apply runs_lift_bind; [apply _|]. intros prefixes _.
    apply runs_bind; [apply _|case_bool_decide; [apply runs_lift, _|apply runs_ret, _]|]. intros platform.
    unfold connected. apply runs_bind; [apply _|apply sends_set_token|]. intros []. fold g'.
    apply runs_bind; [apply _|apply image_layers_runs; [apply _|done|apply opener_sends|apply sends_set_token]|]. intros layers.
    apply runs_bind; [apply _| |].
    - apply runs_foldST; [apply _|]. intros s l _. unfold fetch_layer.
      apply runs_bind; [apply _|apply download_runs; [apply _|done|apply opener_sends|apply sends_set_token]|]. intros blob.
      apply runs_lift_bind; [apply _|]. intros members _. apply runs_lift, _.
    - intros [t dm]. apply runs_gets_bind; [apply _|]. intros d. destruct (install t dm prefixes d) as [ri di].
      apply runs_bind; [apply _|apply sends_set_dest|]. intros []. apply runs_lift_bind; [apply _|]. intros [] _.
      destruct (di !! ["IMAGE"]) as [[| |]|]; try apply runs_throw, _; apply sends_set_dest. }
  destruct (Hs _ _ _ H) as (new & Hn & Hf). exists new. split; [done|]. intros q Hq. rewrite Forall_forall in Hf. by apply Hf.
Qed.

(** * What is unpacked is what was named *)

(** The blobs of the image a digest names: the manifest that hashes to it, or
    the platform's manifest an index that hashes to it names, lists their
    digests. *)
Definition lists_layers (doc : dict val) (layers : list layer) : Prop :=
  ∃ vs, vget "layers" doc = VList vs ∧ mapM_res layer_of vs = Ok layers.
Definition names_manifest (digest : string) (doc : dict val) : Prop :=
  ∃ body, sha256 body = digest ∧ loads body = Ok (VDict doc).
Definition names_layers (digest platform : string) (layers : list layer) : Prop :=
  ∃ doc, names_manifest digest doc ∧
    if dhas "manifests" doc
    then ∃ entry doc', platform_entry (vget "manifests" doc) platform = Ok entry ∧
           names_manifest entry doc' ∧ lists_layers doc' layers
    else lists_layers doc layers.

Lemma manifest_names g repo digest w doc w' :
  manifest g repo digest w = (inr doc, w') → names_manifest digest doc.
Proof.
  unfold manifest. intros H. apply bind_ok in H as (r & w1 & _ & H). case_bool_decide as Hd; [|done].
  cbn [negb] in H. apply bind_ok in H as (v & w2 & H1 & H). destruct (loads (p_body r)) as [v'|] eqn:Hl; [|done].
  apply pair_equal_spec in H1 as [[= ->] ->]. destruct v; try done. apply pair_equal_spec in H as [[= ->] _].
  by exists (p_body r).
Qed.

Lemma image_layers_names g repo digest platform w layers w' :
  image_layers g repo digest platform w = (inr layers, w') → names_layers digest platform layers.
Proof.
  unfold image_layers. intros H. apply bind_ok in H as (doc & w1 & H1 & H). apply manifest_names in H1.
  exists doc. split; [done|]. apply bind_ok in H as (doc' & w2 & H2 & H).
  assert (Hl : lists_layers doc' layers).
  { unfold lists_layers. destruct (vget "layers" doc'); try done. exists l. split; [done|].
    destruct (mapM_res layer_of l); [|done]. by apply pair_equal_spec in H as [[= ->] _]. }
  destruct (dhas "manifests" doc).
  - apply bind_ok in H2 as (entry & w3 & H3 & H2). apply manifest_names in H2.
    destruct (platform_entry _ _) as [entry'|] eqn:Hp; [|done]. apply pair_equal_spec in H3 as [[= ->] _].
    by exists entry, doc'.
  - by apply pair_equal_spec in H2 as [[= ->] _].
Qed.

Lemma download_names g repo digest size w body w' :
  download g repo digest size w = (inr body, w') → sha256 body = digest.
Proof.
  unfold download. intros H. apply bind_ok in H as (b & w1 & _ & H). case_bool_decide as Hd; [|done].
  by apply pair_equal_spec in H as [[= ->] _].
Qed.

(** The members a layer whose bytes hash to its digest holds. *)
Definition layer_members (l : layer) (ms : list member) : Prop :=
  ∃ blob, sha256 blob = l_digest l ∧ read_members (l_mode l) blob = Ok ms.

Lemma fetch_layers_names g repo prefixes layers s w s' w' :
  foldST (fetch_layer g repo prefixes) s layers w = (inr s', w') →
  ∃ mss, Forall2 layer_members layers mss ∧ foldM (apply_layer prefixes) s mss = Ok s'.
Proof.
  revert s w. induction layers as [|l layers IH]; intros s w H; cbn [foldST] in H.
  { apply pair_equal_spec in H as [[= ->] _]. exists []. by split. }
  apply bind_ok in H as (s1 & w1 & H1 & H). unfold fetch_layer in H1.
  apply bind_ok in H1 as (blob & w2 & H2 & H1). apply download_names in H2.
  apply bind_ok in H1 as (ms & w3 & H3 & H1). destruct (read_members _ _) as [ms'|] eqn:Hr; [|done].
  apply pair_equal_spec in H3 as [[= ->] _]. destruct (apply_layer prefixes s ms) as [s1'|] eqn:Ha; [|done].
  apply pair_equal_spec in H1 as [[= ->] _]. apply IH in H as (mss & Hf & Hm). exists (ms :: mss).
  split; [constructor; [by exists blob|done]|]. cbn. by rewrite Ha.
Qed.

Definition same_dest w w' : Prop := dest w' = dest w.
#[local] Instance same_dest_preorder : PreOrder same_dest.
Proof. split; [by intros w|]. intros w1 w2 w3 H1 H2. unfold same_dest in *. congruence. Qed.
Lemma opener_same_dest q : runs_in same_dest (opener q).
Proof.
  intros w r w' H. unfold opener in H. destruct (open_url q (net w)). by apply pair_equal_spec in H as [_ <-].
Qed.

Lemma set_token_same_dest t : runs_in same_dest (set_token t).
Proof. by apply runs_modify. Qed.

(** Claim C36: what a fetch unpacks is named byte for byte by the digest.  A
    successful fetch found a manifest that hashes to the reference's digest,
    through it (and, from an index, through the manifest of the platform that
    the index names by digest) the layers, and for every layer a blob that
    hashes to the digest listed; the destination is then what unpacking those
    layers' members in that order makes of it, with IMAGE recording the
    reference. *)
Theorem fetch_verified g n ref w w' :
  fetch g n ref w = (inr tt, w') →
  ∃ image platform layers mss d,
    parse_ref ref = Ok image ∧ digest_ok (r_digest image) = true ∧
    names_layers (r_digest image) platform layers ∧ Forall2 layer_members layers mss ∧
    unpack (n_paths n) mss (dest w) = (Ok tt, d) ∧
    dest w' = <[["IMAGE"] := File (ref_name image +:+ String nl "") 420]> d.
Proof.
  unfold fetch. intros H. apply bind_ok in H as (image & w1 & H1 & H).
  destruct (parse_ref ref) as [image'|] eqn:Hp; [|done]. apply pair_equal_spec in H1 as [[= ->] <-].
  pose proof (parse_ref_parts _ _ Hp) as (Hhost & _ & Hd).
  case_bool_decide as Hne; [done|]. destruct Hd as [|Hd]; [done|].
  apply bind_ok in H as (prefixes & w1 & H1 & H). destruct (prefixes_of (n_paths n)) as [ps|] eqn:Hps; [|done].
  apply pair_equal_spec in H1 as [[= ->] <-]. apply bind_ok in H as (platform & w1 & H1 & H).
  assert (w1 = w) as -> by (destruct (bool_decide _); [destruct (host_platform _)|]; by apply pair_equal_spec in H1 as [_ <-]).
  clear H1. unfold connected in H. apply bind_ok in H as ([] & w1 & H1 & H).
  apply pair_equal_spec in H1 as [_ <-]. set (w1 := {| sent := _ |}) in H.
  set (g' := {| g_host := _ |}) in H. apply bind_ok in H as (layers & w2 & H2 & H).
  assert (E2 : dest w2 = dest w).
  { refine (image_layers_runs g' same_dest _ _ _ _ _ _ _ _ _ H2); [by apply host_ok_text|intros q _; apply opener_same_dest|apply set_token_same_dest]. }
  apply image_layers_names in H2. apply bind_ok in H as ([t dm] & w3 & H3 & H).
  assert (E3 : dest w3 = dest w2).
  { refine (runs_foldST same_dest _ _ _ _ _ _ _ H3). intros s l _. unfold fetch_layer.
    apply runs_bind; [apply _|apply download_runs; [apply _|by apply host_ok_text|intros q _; apply opener_same_dest|apply set_token_same_dest]|].
    intros blob. apply runs_lift_bind; [apply _|]. intros ms _. apply runs_lift, _. }
  apply fetch_layers_names in H3 as (mss & Hmss & Hap).
  apply bind_ok in H as (d0 & w4 & H4 & H). apply pair_equal_spec in H4 as [[= <-] <-]. rewrite E3, E2 in H.
  destruct (install t dm prefixes (dest w)) as [ri di] eqn:Hi. apply bind_ok in H as ([] & w4 & H4 & H).
  apply bind_ok in H as ([] & w5 & H5 & H). destruct ri as [[]|]; [|done]. apply pair_equal_spec in H5 as [_ <-].
  exists image, platform, layers, mss, di. split_and!; try done.
  - unfold unpack, apply_layers. rewrite Hps. cbn. by rewrite Hap.
  - destruct (di !! ["IMAGE"]) as [[| |]|]; try done; by apply pair_equal_spec in H as [_ <-].
Qed.

(** * Retries *)

(** A call run a number of times, every run but the last met with a transient
    fault. *)
Inductive ran {A} (once : ST W fault A) : nat → W → fault + A → W → Prop :=
  | ran_once w r w' : once w = (r, w') → ran once 1 w r w'
  | ran_again k w e w1 r w' :
      once w = (inl e, w1) → transient e = true → ran once k w1 r w' → ran once (S k) w r w'.

Lemma retry_from_ran {A} (once : ST W fault A) tries w r w' :
  retry_from tries once w = (r, w') →
  ∃ k, (1 ≤ k ≤ S tries)%nat ∧ ran once k w r w' ∧
       (k = S tries ∨ match r with inr _ => True | inl e => transient e = false end).
Proof.
  revert w. induction tries as [|tries IH]; intros w H; cbn [retry_from] in H; unfold catch in H;
    destruct (once w) as [[e|a] w1] eqn:Ho.
  - apply pair_equal_spec in H as [<- <-]. exists 1%nat. split; [lia|]. split; [by constructor|by left].
  - apply pair_equal_spec in H as [<- <-]. exists 1%nat. split; [lia|]. split; [by constructor|by left].
  - destruct (transient e) eqn:Ht.
    + apply IH in H as (k & Hk & Hr & Hl). exists (S k). split; [lia|]. split; [by eapply ran_again|].
      destruct Hl as [->|Hl]; [by left|by right].
    + apply pair_equal_spec in H as [<- <-]. exists 1%nat. split; [lia|]. split; [by constructor|by right].
  - apply pair_equal_spec in H as [<- <-]. exists 1%nat. split; [lia|]. split; [by constructor|by right].
Qed.

(** Claim C37: a call is retried a bounded number of times, and only for what
    waiting may mend.  A read of the registry always ends, after between one
    and as many tries as it is allowed; every try before the last met a
    transient fault, the last one's outcome is the answer, and a transient
    fault is the answer only when no try was left. *)
Theorem retry_bounded {A} g (once : ST W fault A) w :
  let '(r, w') := retry g once w in
  ∃ k, (1 ≤ k ≤ Nat.max 1 (g_attempts g))%nat ∧ ran once k w r w' ∧
    (k = Nat.max 1 (g_attempts g) ∨ match r with inr _ => True | inl e => transient e = false end).
Proof.
  destruct (retry g once w) as [r w'] eqn:H. apply retry_from_ran in H.
  by replace (Nat.max 1 (g_attempts g)) with (S (g_attempts g - 1)) by lia.
Qed.

(** * The image resolved *)

Lemma sha256_digest_ok body : digest_ok (sha256 body) = true.
Proof.
  unfold digest_ok, sha256. rewrite startswith_app. change 7 with (String.length "sha256:") at 2.
  rewrite drop_prefix_app, sha256_hex_chars, length_sapp, length_sha256_hex. done.
Qed.

Lemma manifest_digest_ok g repo tag w d w' : manifest_digest g repo tag w = (inr d, w') → digest_ok d = true.
Proof.
  unfold manifest_digest. intros H. apply bind_ok in H as (r & w1 & _ & H).
  destruct (digest_ok (strip _)) eqn:Hok; [by apply pair_equal_spec in H as [[= <-] _]|].
  apply bind_ok in H as (r2 & w2 & _ & H). apply pair_equal_spec in H as [[= <-] _]. apply sha256_digest_ok.
Qed.

(** What is resolved names one image, by digest.  A reference comes
    from the first source that names one: the command line's image before its
    release, before the host's pin, before the running service, before the
    registry's newest release; no later source is asked (and nothing is sent
    before the last); the answer carries a sha256 digest, the source's own
    when it has one, on the host and path the source names. *)
Theorem resolve_ref_by_digest fuel g n w name w' :
  resolve_ref fuel g n w = (inr name, w') →
  ∃ found w1 image, find_ref fuel g n w = (inr found, w1) ∧ parse_ref found = Ok image ∧
    (∃ d, name = ref_name (with_digest d image) ∧ digest_ok d = true ∧ (r_digest image ≠ "" → d = r_digest image)) ∧
    (found = n_image n ∨ n_image n = "" ∧
     (found = n_repository n +:+ ":" +:+ n_release n ∧ n_release n ≠ "" ∨ n_release n = "" ∧
      (pinned_image (n_repository n) (n_store n) = Ok found ∨ pinned_image (n_repository n) (n_store n) = Ok "" ∧
       ∃ done, n_docker n = Ok done ∧
         (swarm_image (n_repository n) done = found ∨ swarm_image (n_repository n) done = "" ∧
          ∃ version, found = n_repository n +:+ ":" +:+ version)))) ∧
    (sent w1 = sent w ∨ n_image n = "" ∧ n_release n = "" ∧ pinned_image (n_repository n) (n_store n) = Ok "").
Proof.
  unfold resolve_ref. intros H. apply bind_ok in H as (found & w1 & H1 & H).
  apply bind_ok in H as (image & w2 & H2 & H). apply lift_ok in H2 as [Hp ->].
  exists found, w1, image. split; [done|]. split; [done|]. split; [|clear H].
  - destruct (parse_ref_parts _ _ Hp) as (_ & _ & Hd). case_bool_decide as Hne; cbn [negb] in H.
    + case_bool_decide; [done|]. apply bind_ok in H as (d & w3 & H3 & H). apply pair_equal_spec in H as [[= <-] _].
      unfold connected in H3. apply bind_ok in H3 as ([] & w4 & _ & H3). exists d.
      split; [done|]. split; [by eapply manifest_digest_ok|done].
    + apply pair_equal_spec in H as [[= <-] _]. exists (r_digest image). destruct Hd as [|Hd]; [done|].
      split; [by destruct image|done].
  - unfold find_ref in H1. case_bool_decide as Hi; cbn [negb] in H1; [|apply pair_equal_spec in H1 as [[= <-] <-]; auto].
    case_bool_decide as Hr; cbn [negb] in H1; [|apply pair_equal_spec in H1 as [[= <-] <-]; auto 10].
    apply bind_ok in H1 as (pinned & w3 & H3 & H1). apply lift_ok in H3 as [Hpin ->].
    case_bool_decide as Hpe; cbn [negb] in H1; [|apply pair_equal_spec in H1 as [[= <-] <-]; auto 10]. subst pinned.
    apply bind_ok in H1 as (done & w3 & H3 & H1). apply lift_ok in H3 as [Hdone ->].
    case_bool_decide as Hs; cbn [negb] in H1; [|apply pair_equal_spec in H1 as [[= <-] <-]; eauto 12].
    apply bind_ok in H1 as ([host path] & w3 & H3 & H1). apply lift_ok in H3 as [_ ->].
    unfold connected in H1. apply bind_ok in H1 as ([] & w4 & _ & H1). unfold latest_release in H1.
    apply bind_ok in H1 as ([h2 p2] & w5 & _ & H1). apply bind_ok in H1 as (tags & w6 & _ & H1).
    destruct (bool_decide _); [done|]. apply pair_equal_spec in H1 as [[= <-] _].
    split; [|right; by split_and!]. right. split; [done|]. right. split; [done|]. right. split; [done|].
    exists done. split; [done|]. right. split; [done|]. eauto.
Qed.
End facts.

(** The next page of a tag list is appended to the registry's address as it is:
    a page that starts with a dot names another host, and a whole address, as
    the header may hold, names none. *)
Example next_page_leaves_the_host :
  let g := {| g_host := "reg.example"; g_insecure_http := false; g_attempts := 3 |} in
  let link u := [("Link", "<" +:+ u +:+ ">; " +:+ rel_next)] in
  netloc_of (base_of g +:+ next_page (link ".evil.test/v2/x")) = Ok "reg.example.evil.test" ∧
  netloc_of (base_of g +:+ next_page (link "https://reg.example/v2/x")) = Ok "reg.examplehttps:".
Proof. vm_compute. split; reflexivity. Qed.

(** * A concrete registry *)

Module Hub.
Definition blob : string := "layer one".
Definition manifest_body : string := dumps default_style (VDict [("layers", VList [VDict [
  ("mediaType", VStr "application/vnd.oci.image.layer.v1.tar");
  ("digest", VStr ("sha256:" +:+ sha256_hex blob)); ("size", VInt 9)]])]).
Definition digest : string := Eval vm_compute in "sha256:" +:+ sha256_hex manifest_body.
Definition image_name : string := "reg.example/a/b:v1.2.3@" +:+ digest.

(** A registry that asks for a token, redirects blobs to another host, and
    serves one image. *)
#[local] Instance hub : Network unit := {
  open_url q e :=
    (if scontains "auth.example" (q_url q) then
       inr {| p_headers := []; p_body := dumps default_style (VDict [("token", VStr "t0ken")]) |}
     else if scontains "cdn.example" (q_url q) then inr {| p_headers := []; p_body := blob |}
     else if bool_decide (dget "Authorization" (q_headers q) = None) then
       inl (HTTPError 401 [("www-authenticate", "Bearer realm=" +:+ String dq ("https://auth.example/token" +:+ String dq ""))])
     else if scontains "/blobs/" (q_url q) then inl (HTTPError 307 [("Location", "https://cdn.example/b")])
     else inr {| p_headers := []; p_body := manifest_body |}, e);
  read_members _ _ := Ok [{| m_name := "usr/share/tool"; m_kind := MReg "new"; m_mode := 493 |}]
}.
Definition g : registry := {| g_host := ""; g_insecure_http := false; g_attempts := 3 |}.
Definition n : inputs := {|
  n_repository := "reg.example/a/b"; n_image := image_name; n_release := ""; n_store := None; n_docker := Ok None;
  n_machine := "x86_64"; n_platform := ""; n_paths := ["usr/share"] |}.
Definition w0 : @world unit := {| sent := []; token := ""; dest := ∅; net := tt |}.
Lemma fetched : (fetch g n image_name w0).1 = inr tt.
Proof. vm_compute. reflexivity. Qed.
Lemma parsed : is_ok (parse_ref image_name) = true.
Proof. vm_compute. reflexivity. Qed.
End Hub.

Section witnesses.
Import Hub.
#[local] Existing Instance hub.

Lemma fetch_token_confined_witness :
  ∃ r w' image, fetch g n image_name w0 = (r, w') ∧ parse_ref image_name = Ok image ∧
    ∃ new, sent w' = new ∧ ∀ q, q ∈ new → is_Some (dget "Authorization" (q_headers q)) → netloc_of (q_url q) = Ok (r_host image).
Proof.
  destruct (fetch g n image_name w0) as [r w'] eqn:H. exists r, w', (get_ok _ parsed). split; [reflexivity|].
  split; [apply get_ok_eq|].
  destruct (fetch_token_confined g n image_name _ w0 r w' (get_ok_eq _ parsed) H) as (new & Hn & Hq).
  exists new. split; [exact Hn|]. intros q Hin. exact (proj2 (Hq q Hin)).
Defined.

Lemma fetch_verified_witness :
  ∃ w' (d : tree), fetch g n image_name w0 = (inr tt, w') ∧ d !! ["usr"; "share"; "tool"] = Some (File "new" 493) ∧
    ∃ image, parse_ref image_name = Ok image ∧ ∃ platform layers, names_layers (r_digest image) platform layers.
Proof.
  pose proof fetched as Hok. assert (Hd : dest (fetch g n image_name w0).2 !! ["usr"; "share"; "tool"] = Some (File "new" 493))
    by (vm_compute; reflexivity).
  destruct (fetch g n image_name w0) as [r w'] eqn:H. cbn [fst snd] in *. subst r. exists w', (dest w').
  split; [reflexivity|]. split; [exact Hd|].
  destruct (fetch_verified g n image_name w0 w' H) as (image & platform & layers & mss & d & Hp & _ & Hn & _).
  exists image. split; [exact Hp|]. exists platform, layers. exact Hn.
Defined.

Lemma resolve_ref_by_digest_witness :
  ∃ w' image, resolve_ref 1 g n w0 = (inr image_name, w') ∧ parse_ref image_name = Ok image.
Proof.
  assert (Hr : (resolve_ref 1 g n w0).1 = inr image_name) by (vm_compute; reflexivity).
  destruct (resolve_ref 1 g n w0) as [r w'] eqn:H. cbn [fst] in Hr. subst r.
  destruct (resolve_ref_by_digest 1 g n w0 image_name w' H) as (found & w1 & image & Hf & Hp & _).
  exists w', image. split; [reflexivity|]. assert (Hfound : (find_ref 1 g n w0).1 = inr image_name) by (vm_compute; reflexivity).
  rewrite Hf in Hfound. injection Hfound as ->. exact Hp.
Defined.

Lemma parse_ref_name_witness :
  ∃ r, parse_ref (ref_name (with_digest "" r)) = Ok (with_digest "" r) ∧ r_tag r = "v1.2.3".
Proof.
  exists (get_ok _ parsed). split; [|vm_compute; reflexivity].
  apply (parse_ref_name image_name); [apply get_ok_eq|vm_compute; discriminate|left; reflexivity].
Defined.
End witnesses.
