(* ===== verification/SwarmService.v ===== *)
(** [ansible/playbooks/filter_plugins/swarm_service_drift.py]: docker's memory
    sizes and durations read to integers, the hardening flags of a service to
    create, and the flags that bring a live one to the declared values. *)
From S2P Require Import Prelude PyStr PyNum PyVal.

#[local] Open Scope string_scope.

(** * Reading values *)

(** [d.get(k, dflt)], and [d.get(k, {}) or {}] *)
Definition get_default (k : string) (dflt v : val) : res val :=
  match v with VDict d => Ok (default dflt (dget k d)) | _ => Raise AttributeError end.
Definition get_dict (k : string) (v : val) : res val :=
  x ← get_default k (VDict []) v; Ok (val_or x (VDict [])).

Definition BYTE_SUFFIXES : list (ascii * Z) :=
  [("b"%char, 1); ("k"%char, 1024); ("m"%char, 1024 ^ 2); ("g"%char, 1024 ^ 3); ("t"%char, 1024 ^ 4)]%Z.

Definition suffix_of (a : ascii) : option Z := snd <$> find (λ '(c, _), bool_decide (c = a)) BYTE_SUFFIXES.
Fixpoint cut_last (s : string) : option (string * ascii) :=
  match s with
  | EmptyString => None
  | String a EmptyString => Some (EmptyString, a)
  | String a s => '(pre, b) ← cut_last s; Some (String a pre, b)
  end.

Definition as_bytes (value : val) : res Z :=
  match value with
  | VInt z => Ok z
  | VStr s =>
      let text := rstrip_of (λ a, is_char "i" a || is_char "b" a) (lower (strip s)) in
      match cut_last text with
      | None => Raise ValueError
      | Some (pre, a) =>
          let '(text, multiplier) := match suffix_of a with Some m => (pre, m) | None => (text, 1%Z) end in
          magnitude ← py_float text;
          float_trunc (float_scale magnitude multiplier)
      end
  | _ => Raise ValueError
  end.

Definition DURATION_UNITS : list (string * Z) :=
  [("ns", 1); ("us", 1000); ("ms", 1000000); ("s", 1000000000); ("m", 60 * 1000000000); ("h", 3600 * 1000000000)]%Z.
(** [c.isdigit()] below code point 256: the superscripts are digits too. *)
Definition char_isdigit (a : ascii) : bool :=
  is_digit a || (code a =? 178)%N || (code a =? 179)%N || (code a =? 185)%N.

(** The unit the text starts with, and whether it takes two characters. *)
Definition unit_at (s : string) : option (Z * bool) :=
  match find (λ '(u, _), startswith s u) DURATION_UNITS with
  | Some (u, scale) => Some (scale, (String.length u =? 2)%nat)
  | None => None
  end.

Fixpoint nanos_go (number : string) (total : Z) (s : string) : res Z :=
  match s with
  | EmptyString => if bool_decide (number = "") then Ok total else Raise ValueError
  | String a rest =>
      if char_isdigit a || is_char "." a then nanos_go (number +:+ String a "") total rest else
      match unit_at s with
      | None => Raise ValueError
      | Some (scale, two) =>
          if bool_decide (number = "") then Raise ValueError else
          f ← py_float number;
          n ← float_trunc (float_scale f scale);
          if (two : bool) then match rest with String _ rest => nanos_go "" (total + n) rest | EmptyString => Raise ValueError end
          else nanos_go "" (total + n) rest
      end
  end.

Definition as_nanos (value : val) : res Z :=
  match value with
  | VInt z => Ok z
  | VStr s => if bool_decide (strip s = "") then Raise ValueError else nanos_go "" 0 (lower (strip s))
  | _ => Raise ValueError
  end.

(** * Images *)

Definition strip_digest (image_ref : val) : string :=
  match image_ref with VStr s => (partition "@" s).1.1 | _ => "" end.

Definition same_image (live want : val) : bool :=
  let want := py_str want in
  if has_char "@" want then bool_decide (py_str live = want)
  else bool_decide (strip_digest live = want).

Definition health_test (cmd : string) : val := VList [VStr "CMD-SHELL"; VStr cmd].

Definition first_of (inspect : val) : val :=
  match inspect with
  | VList (x :: _) => x
  | VDict _ => inspect
  | _ => VDict []
  end.

(** * Flags *)

(** [if k in desired: ...] *)
Definition declared (k : string) (desired : dict val) (f : val → res (list string)) : res (list string) :=
  match dget k desired with Some v => f v | None => Ok [] end.
(** A flag with its value, when declared. *)
Definition flag (name k : string) (desired : dict val) : list string :=
  match dget k desired with Some v => [name; py_str v] | None => [] end.

Definition health_flags (desired : dict val) : list string :=
  flag "--health-cmd" "health_cmd" desired ++ flag "--health-interval" "health_interval" desired ++
  flag "--health-retries" "health_retries" desired ++ flag "--health-start-period" "health_start_period" desired.

Definition swarm_service_create_args (desired : val) : res (list string) :=
  match desired with
  | VDict d =>
      constraints ← py_iter (default (VList []) (dget "constraints" d));
      Ok (flag "--limit-memory" "limit_memory" d ++ flag "--reserve-memory" "reserve_memory" d ++
          flag "--stop-grace-period" "stop_grace_period" d ++
          flag "--update-failure-action" "update_failure_action" d ++
          flag "--update-monitor" "update_monitor" d ++
          flag "--update-max-failure-ratio" "update_max_failure_ratio" d ++
          flag "--update-order" "update_order" d ++
          concat (map (λ c, ["--constraint"; py_str c]) constraints) ++
          (if dhas "health_cmd" d then health_flags d else []))%list
  | _ => Raise ValueError
  end.

(** ** The drift *)

(** The flag of a declared key when the live value is not the declared one. *)
Definition unless (same : bool) (name : string) (v : val) : list string :=
  if same then [] else [name; py_str v].

Definition drift_by (live_of : res val) (read : val → res Z) (name : string) (v : val) : res (list string) :=
  live ← live_of; n ← read v; Ok (unless (py_eq live (VInt n)) name v).
Definition drift_eq (live_of : res val) (name : string) (v : val) : res (list string) :=
  live ← live_of; Ok (unless (py_eq live v) name v).
Definition drift_ratio (update v : val) : res (list string) :=
  live ← get_default "MaxFailureRatio" (VInt 0) update;
  live ← as_float live; want ← as_float v;
  Ok (unless (float_eqb live want) "--update-max-failure-ratio" v).

(** Constraints both ways; docker prints them as strings. *)
Definition without (l keep : list string) : list string := sorted_str (remove_dups (filter (λ x, x ∉ keep) l)).
Definition drift_constraints (placement v : val) : res (list string) :=
  live ← get_default "Constraints" VNone placement;
  live ← iter_or live; live ← mapM_res as_str_r live;
  want ← py_iter v;
  let want := map py_str want in
  Ok (concat (map (λ c, ["--constraint-rm"; c]) (without live want)) ++
      concat (map (λ c, ["--constraint-add"; c]) (without want live)))%list.

(** Whether a field of the live healthcheck is not the declared one. *)
Definition health_field (health : val) (d : dict val) (k field : string) (read : val → res Z) (changed : bool) : res bool :=
  match dget k d with
  | Some v => if changed then Ok true else
      live ← get_default field (VInt 0) health; n ← read v; Ok (negb (py_eq live (VInt n)))
  | None => Ok changed
  end.

Definition drift_health (container : val) (d : dict val) (cmd : val) : res (list string) :=
  health ← get_dict "Healthcheck" container;
  test ← get_default "Test" VNone health;
  let changed := negb (py_eq (val_or test (VList [])) (health_test (py_str cmd))) in
  changed ← health_field health d "health_interval" "Interval" as_nanos changed;
  changed ← health_field health d "health_retries" "Retries" as_int changed;
  changed ← health_field health d "health_start_period" "StartPeriod" as_nanos changed;
  Ok (if (changed : bool) then health_flags d else []).

Definition swarm_service_drift (inspect desired : val) : res (list string) :=
  match desired with
  | VDict d =>
      spec ← get_dict "Spec" (first_of inspect);
      task ← get_dict "TaskTemplate" spec;
      container ← get_dict "ContainerSpec" task;
      resources ← get_dict "Resources" task;
      update ← get_dict "UpdateConfig" spec;
      placement ← get_dict "Placement" task;
      image ← declared "image" d (λ v, live ← get_default "Image" (VStr "") container;
                                       Ok (unless (same_image live v) "--image" v));
      limits ← get_dict "Limits" resources;
      limit ← declared "limit_memory" d (drift_by (get_default "MemoryBytes" (VInt 0) limits) as_bytes "--limit-memory");
      reservations ← get_dict "Reservations" resources;
      reserve ← declared "reserve_memory" d
                  (drift_by (get_default "MemoryBytes" (VInt 0) reservations) as_bytes "--reserve-memory");
      grace ← declared "stop_grace_period" d
                (drift_by (get_default "StopGracePeriod" (VInt 0) container) as_nanos "--stop-grace-period");
      action ← declared "update_failure_action" d
                 (drift_eq (get_default "FailureAction" (VStr "") update) "--update-failure-action");
      monitor ← declared "update_monitor" d (drift_by (get_default "Monitor" (VInt 0) update) as_nanos "--update-monitor");
      ratio ← declared "update_max_failure_ratio" d (drift_ratio update);
      order ← declared "update_order" d (drift_eq (get_default "Order" (VStr "") update) "--update-order");
      constraints ← declared "constraints" d (drift_constraints placement);
      health ← declared "health_cmd" d (drift_health container d);
      Ok (image ++ limit ++ reserve ++ grace ++ action ++ monitor ++ ratio ++ order ++ constraints ++ health)%list
  | _ => Raise ValueError
  end.
