(* ===== verification/SwarmServiceFacts.v ===== *)
(** What the drift of [SwarmService] decides: it is empty exactly when every
    declared value is the live one, and what it sets is what a create sets. *)
From S2P Require Import Prelude PyStr PyNum PyVal SwarmService.

#[local] Open Scope string_scope.

(** * A converged service *)

(** The parts of a live service the drift reads. *)
Record parts := { p_container : val; p_limits : val; p_reservations : val; p_update : val; p_placement : val }.
Definition live_parts (inspect : val) : res parts :=
  spec ← get_dict "Spec" (first_of inspect);
  task ← get_dict "TaskTemplate" spec;
  container ← get_dict "ContainerSpec" task;
  resources ← get_dict "Resources" task;
  update ← get_dict "UpdateConfig" spec;
  placement ← get_dict "Placement" task;
  limits ← get_dict "Limits" resources;
  reservations ← get_dict "Reservations" resources;
  Ok {| p_container := container; p_limits := limits; p_reservations := reservations;
        p_update := update; p_placement := placement |}.

(** A live number is what a declared value reads as. *)
Definition reads_as (read : val → res Z) (live : res val) (v : val) : Prop :=
  ∃ x n, live = Ok x ∧ read v = Ok n ∧ py_eq x (VInt n) = true.

Definition health_in_sync (container : val) (d : dict val) (cmd : val) : Prop :=
  ∃ health test, get_dict "Healthcheck" container = Ok health ∧ get_default "Test" VNone health = Ok test ∧
    py_eq (val_or test (VList [])) (health_test (py_str cmd)) = true ∧
    (∀ v, dget "health_interval" d = Some v → reads_as as_nanos (get_default "Interval" (VInt 0) health) v) ∧
    (∀ v, dget "health_retries" d = Some v → reads_as as_int (get_default "Retries" (VInt 0) health) v) ∧
    (∀ v, dget "health_start_period" d = Some v → reads_as as_nanos (get_default "StartPeriod" (VInt 0) health) v).

(** The live set of constraints is the declared one. *)
Definition constraints_in_sync (placement v : val) : Prop :=
  ∃ x live texts want, get_default "Constraints" VNone placement = Ok x ∧ iter_or x = Ok live ∧
    mapM_res as_str_r live = Ok texts ∧ py_iter v = Ok want ∧ ∀ c, c ∈ texts ↔ c ∈ map py_str want.

(** Every declared key of a service holds live. *)
Record in_sync (p : parts) (d : dict val) : Prop := {
  sync_image v : dget "image" d = Some v →
    ∃ live, get_default "Image" (VStr "") (p_container p) = Ok live ∧ same_image live v = true;
  sync_limit v : dget "limit_memory" d = Some v → reads_as as_bytes (get_default "MemoryBytes" (VInt 0) (p_limits p)) v;
  sync_reserve v : dget "reserve_memory" d = Some v →
    reads_as as_bytes (get_default "MemoryBytes" (VInt 0) (p_reservations p)) v;
  sync_grace v : dget "stop_grace_period" d = Some v →
    reads_as as_nanos (get_default "StopGracePeriod" (VInt 0) (p_container p)) v;
  sync_action v : dget "update_failure_action" d = Some v →
    ∃ live, get_default "FailureAction" (VStr "") (p_update p) = Ok live ∧ py_eq live v = true;
  sync_monitor v : dget "update_monitor" d = Some v → reads_as as_nanos (get_default "Monitor" (VInt 0) (p_update p)) v;
  sync_ratio v : dget "update_max_failure_ratio" d = Some v →
    ∃ x live want, get_default "MaxFailureRatio" (VInt 0) (p_update p) = Ok x ∧ as_float x = Ok live ∧
      as_float v = Ok want ∧ float_eqb live want = true;
  sync_order v : dget "update_order" d = Some v →
    ∃ live, get_default "Order" (VStr "") (p_update p) = Ok live ∧ py_eq live v = true;
  sync_constraints v : dget "constraints" d = Some v → constraints_in_sync (p_placement p) v;
  sync_health v : dget "health_cmd" d = Some v → health_in_sync (p_container p) d v
}.

Lemma unless_nil same name v : unless same name v = [] ↔ same = true.
Proof. by destruct same. Qed.

Lemma declared_nil k d f :
  declared k d f = Ok [] ↔ ∀ v, dget k d = Some v → f v = Ok [].
Proof.
  unfold declared. destruct (dget k d); split; try done; [by intros ? ? [= <-]|by intros H; apply H].
Qed.

Lemma drift_by_nil live read name v : drift_by live read name v = Ok [] ↔ reads_as read live v.
Proof.
  unfold drift_by, reads_as. destruct live as [x|]; cbn [mbind res_bind]; [|split; [done|by intros (?&?&?&?)]].
  destruct (read v) as [n|]; cbn [mbind res_bind]; [|split; [done|by intros (?&?&?&?&?)]].
  split; [intros [= H%unless_nil]; eauto|]. intros (x' & n' & ? & ? & Hs). simplify_eq. by rewrite Hs.
Qed.

Lemma drift_eq_nil live name v : drift_eq live name v = Ok [] ↔ ∃ x, live = Ok x ∧ py_eq x v = true.
Proof.
  unfold drift_eq. destruct live as [x|]; cbn [mbind res_bind]; [|split; [done|by intros (?&?&?)]].
  split; [intros [= H%unless_nil]; eauto|]. intros (x' & ? & Hs). simplify_eq. by rewrite Hs.
Qed.

Lemma without_nil l keep : without l keep = [] ↔ ∀ c, c ∈ l → c ∈ keep.
Proof.
  unfold without. split.
  - intros H c Hc. destruct (decide (c ∈ keep)) as [|Hk]; [done|exfalso].
    assert (c ∈ sorted_str (remove_dups (filter (λ x, x ∉ keep) l))) as Hin; [|rewrite H in Hin; by apply elem_of_nil in Hin].
    rewrite elem_of_sorted_str, elem_of_remove_dups. by apply list_elem_of_filter.
  - intros H. replace (filter (λ x, x ∉ keep) l) with (@nil string); [done|].
    symmetry. apply elem_of_nil_inv. intros x [Hk Hl]%list_elem_of_filter. auto.
Qed.

Lemma concat_flags_nil (f : string) l : concat (map (λ c, [f; c]) l) = [] ↔ l = [].
Proof. by destruct l. Qed.

Lemma drift_ratio_nil update v :
  drift_ratio update v = Ok [] ↔
  ∃ x live want, get_default "MaxFailureRatio" (VInt 0) update = Ok x ∧ as_float x = Ok live ∧
    as_float v = Ok want ∧ float_eqb live want = true.
Proof.
  unfold drift_ratio. split.
  - intros (x & Hx & H)%res_bind_Ok. apply res_bind_Ok in H as (live & Hl & H).
    apply res_bind_Ok in H as (want & Hw & H). injection H as H%unless_nil. by exists x, live, want.
  - intros (x & live & want & -> & Hl & Hw & He). cbn [mbind res_bind]. rewrite Hl. cbn [mbind res_bind].
    rewrite Hw. cbn [mbind res_bind]. by rewrite He.
Qed.

Lemma drift_constraints_nil placement v : drift_constraints placement v = Ok [] ↔ constraints_in_sync placement v.
Proof.
  unfold drift_constraints, constraints_in_sync. split.
  - intros (x & Hx & H)%res_bind_Ok. apply res_bind_Ok in H as (live & Hl & H).
    apply res_bind_Ok in H as (texts & Ht & H). apply res_bind_Ok in H as (want & Hw & H).
    injection H as H. apply app_eq_nil in H as [H1 H2].
    rewrite concat_flags_nil in H1, H2. rewrite without_nil in H1, H2.
    exists x, live, texts, want. split_and!; [done..|]. split; auto.
  - intros (x & live & texts & want & -> & Hl & Ht & Hw & Hs). cbn [mbind res_bind]. rewrite Hl. cbn [mbind res_bind].
    rewrite Ht. cbn [mbind res_bind]. rewrite Hw. cbn [mbind res_bind].
    rewrite (proj2 (without_nil texts (map py_str want))), (proj2 (without_nil (map py_str want) texts)); [done|..];
      intros c; by rewrite Hs.
Qed.

Lemma health_field_same health d k field read changed r :
  health_field health d k field read changed = Ok r →
  r = false ↔ changed = false ∧ ∀ v, dget k d = Some v → reads_as read (get_default field (VInt 0) health) v.
Proof.
  unfold health_field. destruct (dget k d) as [v|] eqn:Ek; [|intros [= <-]; naive_solver].
  destruct changed; [intros [= <-]; naive_solver|].
  destruct (get_default _ _ _) as [x|] eqn:El; cbn [mbind res_bind]; [|done].
  destruct (read v) as [n|] eqn:En; cbn [mbind res_bind]; [|done]. intros [= <-]. split.
  - intros Hs%negb_false_iff. split; [done|]. intros ? [= <-]. by exists x, n.
  - intros [_ H]. destruct (H v eq_refl) as (x' & n' & ? & ? & Hs). simplify_eq. assert (n' = n) as -> by congruence. by apply negb_false_iff.
Qed.

Lemma health_field_ok health d k field read :
  (∀ v, dget k d = Some v → reads_as read (get_default field (VInt 0) health) v) →
  health_field health d k field read false = Ok false.
Proof.
  intros H. unfold health_field. destruct (dget k d) as [v|]; [|done].
  destruct (H v eq_refl) as (x & n & -> & Hn & Hs). cbn [mbind res_bind]. rewrite Hn. cbn [mbind res_bind]. by rewrite Hs.
Qed.

Lemma health_flags_nil d v : dget "health_cmd" d = Some v → health_flags d ≠ [].
Proof. intros H. unfold health_flags, flag. by rewrite H. Qed.

Lemma drift_health_nil container d cmd :
  dget "health_cmd" d = Some cmd → drift_health container d cmd = Ok [] ↔ health_in_sync container d cmd.
Proof.
  intros Hc. unfold drift_health, health_in_sync. split.
  - intros (health & Hh & H)%res_bind_Ok. apply res_bind_Ok in H as (test & Ht & H).
    apply res_bind_Ok in H as (c1 & H1 & H). apply res_bind_Ok in H as (c2 & H2 & H).
    apply res_bind_Ok in H as (c3 & H3 & H). destruct c3; [injection H as H; exfalso; exact (health_flags_nil _ _ Hc H)|].
    destruct (proj1 (health_field_same _ _ _ _ _ _ _ H3) eq_refl) as [-> F3].
    destruct (proj1 (health_field_same _ _ _ _ _ _ _ H2) eq_refl) as [-> F2].
    destruct (proj1 (health_field_same _ _ _ _ _ _ _ H1) eq_refl) as [Hs%negb_false_iff F1].
    exists health, test. by split_and!.
  - intros (health & test & -> & Ht & Hs & F1 & F2 & F3). cbn [mbind res_bind]. rewrite Ht. cbn [mbind res_bind].
    rewrite Hs. cbn [negb].
    rewrite (health_field_ok _ _ _ _ _ F1). cbn [mbind res_bind].
    rewrite (health_field_ok _ _ _ _ _ F2). cbn [mbind res_bind]. by rewrite (health_field_ok _ _ _ _ _ F3).
Qed.

(** Claim C33: a live service is reported converged exactly when it is.  For a
    service whose inspection has the parts docker prints, the drift is empty
    if and only if every declared key holds live: the image under the pin's
    own terms, sizes and durations as the numbers they read to, the
    constraints as a set, every declared field of the healthcheck; a key not
    declared is not looked at. *)
Theorem drift_nil_iff inspect p d :
  live_parts inspect = Ok p → swarm_service_drift inspect (VDict d) = Ok [] ↔ in_sync p d.
Proof.
  intros Hp. unfold live_parts in Hp.
  apply res_bind_Ok in Hp as (spec & E1 & Hp). apply res_bind_Ok in Hp as (task & E2 & Hp).
  apply res_bind_Ok in Hp as (container & E3 & Hp). apply res_bind_Ok in Hp as (resources & E4 & Hp).
  apply res_bind_Ok in Hp as (update & E5 & Hp). apply res_bind_Ok in Hp as (placement & E6 & Hp).
  apply res_bind_Ok in Hp as (limits & E7 & Hp). apply res_bind_Ok in Hp as (reservations & E8 & Hp). simplify_eq.
  unfold swarm_service_drift.
  rewrite E1; cbn [mbind res_bind]; rewrite E2; cbn [mbind res_bind]; rewrite E3; cbn [mbind res_bind];
    rewrite E4; cbn [mbind res_bind]; rewrite E5; cbn [mbind res_bind]; rewrite E6; cbn [mbind res_bind].
  rewrite E7, E8. cbn [mbind res_bind].
  set (image := λ v, live ← get_default "Image" (VStr "") container; Ok (unless (same_image live v) "--image" v)).
  assert (Himage : ∀ v, image v = Ok [] ↔
    ∃ live, get_default "Image" (VStr "") container = Ok live ∧ same_image live v = true).
  { intros v. unfold image. destruct (get_default _ _ container) as [x|]; cbn [mbind res_bind];
      [|split; [done|by intros (?&?&?)]].
    split; [intros [= H%unless_nil]; eauto|]. intros (x' & ? & Hs). simplify_eq. by rewrite Hs. }
  split.
  - intros H.
    repeat match type of H with context [?r ≫= _] => let E := fresh "D" in apply res_bind_Ok in H as (? & E & H) end.
    injection H as H. repeat (apply app_eq_nil in H as [-> H]). subst.
    rewrite declared_nil in D, D0, D1, D2, D3, D4, D5, D6, D7, D8.
    split; cbn; intros v Hv.
    + by apply Himage, D.
    + eapply drift_by_nil, D0, Hv.
    + eapply drift_by_nil, D1, Hv.
    + eapply drift_by_nil, D2, Hv.
    + eapply drift_eq_nil, D3, Hv.
    + eapply drift_by_nil, D4, Hv.
    + by apply drift_ratio_nil, D5.
    + eapply drift_eq_nil, D6, Hv.
    + by apply drift_constraints_nil, D7.
    + apply drift_health_nil; [done|]. by apply D8.
  - intros [S1 S2 S3 S4 S5 S6 S7 S8 S9 S10]; cbn in *.
    rewrite (proj2 (declared_nil "image" d image)) by (intros v Hv; apply Himage; auto). cbn [mbind res_bind].
    repeat (rewrite (proj2 (declared_nil _ d _)) by
      (intros v Hv; first [apply drift_by_nil | apply drift_eq_nil | apply drift_ratio_nil | apply drift_constraints_nil
                          | apply drift_health_nil; [done|]]; auto); cbn [mbind res_bind]).
    done.
Qed.

Module Postgres.
Definition desired : dict val :=
  [("image", VStr "postgres:18"); ("limit_memory", VStr "1.5g"); ("stop_grace_period", VStr "1m30s");
   ("update_max_failure_ratio", VInt 0); ("constraints", VList [VStr "node.role==manager"]);
   ("health_cmd", VStr "pg_isready"); ("health_interval", VStr "10s")].
Definition inspect : val := VList [VDict [("Spec", VDict
  [("TaskTemplate", VDict
     [("ContainerSpec", VDict
        [("Image", VStr "postgres:18@sha256:00"); ("StopGracePeriod", VInt 90000000000);
         ("Healthcheck", VDict [("Test", VList [VStr "CMD-SHELL"; VStr "pg_isready"]); ("Interval", VInt 10000000000)])]);
      ("Resources", VDict [("Limits", VDict [("MemoryBytes", VInt 1610612736)])]);
      ("Placement", VDict [("Constraints", VList [VStr "node.role==manager"])])])])]].
Lemma parts_read : is_ok (live_parts inspect) = true.
Proof. reflexivity. Qed.
End Postgres.

Lemma drift_nil_iff_witness : in_sync (get_ok _ Postgres.parts_read) Postgres.desired.
Proof.
  apply (drift_nil_iff Postgres.inspect _ Postgres.desired (get_ok_eq _ Postgres.parts_read)).
  vm_compute. reflexivity.
Defined.
