(* ===== verification/SwarmNaming.v ===== *)
(** [ansible/playbooks/filter_plugins/swarm_naming.py]: the regular expression
    a swarm task container's name is found by, and what it matches. *)
From stdpp Require Import pretty.
From S2P Require Import Prelude PyStr PyNum PyVal Json JsonFacts.

#[local] Open Scope string_scope.

Definition token_char (a : ascii) : bool := is_alnum a || is_char "_" a || is_char "." a || is_char "-" a.
(** [_validate_token] *)
Definition validate_token (name : val) : res string :=
  match name with
  | VStr s => if bool_decide (s = "") || negb (sforall token_char s) then Raise ValueError else Ok s
  | _ => Raise ValueError
  end.
(** [re.escape] *)
Definition specials : string := "()[]{}?*+-|^$\.&~#" +:+ String " " (String "009" (String "010" (String "013" (String "011" (String "012" ""))))).
Definition is_special (a : ascii) : bool := has_char a specials.
Fixpoint escape (s : string) : string :=
  match s with
  | EmptyString => ""
  | String a s => if is_special a then String "\" (String a (escape s)) else String a (escape s)
  end.
(** A slot is an integer, and [True] is one. *)
Definition slot_text (slot : val) : res string :=
  match slot with
  | VInt n => if (n <? 1)%Z then Raise ValueError else Ok (py_str slot)
  | VBool b => if b then Ok (py_str slot) else Raise ValueError
  | _ => Raise ValueError
  end.
Definition swarm_container_regex (stack_name service_name slot : val) : res string :=
  stack ← validate_token stack_name;
  service ← validate_token service_name;
  n ← slot_text slot;
  Ok ("^" +:+ escape stack +:+ "_" +:+ escape service +:+ "\." +:+ n +:+ "\.[a-z0-9]+$").

(** * What such an expression matches *)

(** The expressions of this shape: anchored, of characters and escaped
    characters, with classes of letters and digits repeated. *)
Inductive item := Lit (a : ascii) | Repeat (p : ascii → bool).
Definition lower_or_digit (a : ascii) : bool := is_lower a || is_digit a.
Definition CLASS : string := "[a-z0-9]+".
Fixpoint items (fuel : nat) (pattern : string) : option (list item) :=
  match fuel with
  | O => None
  | S fuel =>
      if bool_decide (pattern = "$") then Some []
      else match strip_prefix CLASS pattern with
      | Some rest => cons (Repeat lower_or_digit) <$> items fuel rest
      | None =>
          match pattern with
          | String "\" (String a rest) => cons (Lit a) <$> items fuel rest
          | String a rest => if is_special a then None else cons (Lit a) <$> items fuel rest
          | EmptyString => None
          end
      end
  end.
Definition compile (pattern : string) : option (list item) :=
  match pattern with String "^" rest => items (S (String.length rest)) rest | _ => None end.
(** Whether a line is of the items in turn, each repetition taking one
    character or more. *)
Fixpoint accepts (l : list item) (s : string) : bool :=
  match l with
  | [] => bool_decide (s = "")
  | Lit a :: l => match s with String b s => bool_decide (a = b) && accepts l s | EmptyString => false end
  | Repeat p :: l =>
      (fix more s := match s with String b s => p b && (accepts l s || more s) | EmptyString => false end) s
  end.

(** ** Facts *)

Definition lits (s : string) : list item := map Lit (String.list_ascii_of_string s).
Lemma accepts_lits s l t : accepts (lits s ++ l)%list t = match strip_prefix s t with Some r => accepts l r | None => false end.
Proof.
  revert t. induction s as [|a s IH]; intros t; [done|]. cbn. destruct t as [|b t]; [done|]. by case_bool_decide; cbn.
Qed.
Lemma accepts_repeat p t : accepts [Repeat p] t = negb (bool_decide (t = "")) && sforall p t.
Proof.
  cbn. induction t as [|b t IH]; [done|]. cbn in *. rewrite IH. destruct (p b); cbn; [|done]. by destruct t.
Qed.

Lemma escape_app a b : escape (a +:+ b) = escape a +:+ escape b.
Proof. induction a as [|x a IH]; [done|]. cbn. rewrite IH. by destruct (is_special x). Qed.
Lemma plain_alnum a : is_alnum a = true → negb (is_special a) = true.
Proof. revert a. apply ascii_imp. by vm_compute. Qed.
Lemma escape_alnum s : sforall is_alnum s = true → escape s = s.
Proof.
  induction s as [|a s IH]; [done|]. cbn. intros [Ha%plain_alnum%negb_true_iff Hs]%andb_prop. rewrite Ha. by rewrite IH.
Qed.
Lemma token_plain a : token_char a = true → negb (is_char "$" a) && negb (is_char "[" a) && negb (is_char "\" a) = true.
Proof. revert a. apply ascii_imp. by vm_compute. Qed.

(** One character, escaped or not. *)
Lemma items_char a fuel rest : token_char a = true →
  items (S fuel) (escape (String a "") +:+ rest) = (cons (Lit a)) <$> items fuel rest.
Proof.
  intros Ha. apply token_plain in Ha. rewrite !andb_true_iff, !negb_true_iff in Ha. unfold is_char in Ha.
  destruct Ha as [[H1 H2] H3]. apply bool_decide_eq_false in H1, H2, H3.
  unfold escape. destruct (is_special a) eqn:Ea; cbn [String.append items strip_prefix CLASS].
  - rewrite bool_decide_false by done. by rewrite bool_decide_false.
  - rewrite bool_decide_false by congruence. rewrite bool_decide_false by done. rewrite Ea.
    destruct a as [[] [] [] [] [] [] [] []]; try reflexivity. by destruct H3.
Qed.
Lemma items_escape s fuel rest : sforall token_char s = true →
  items (String.length s + fuel) (escape s +:+ rest) = (λ l, lits s ++ l)%list <$> items fuel rest.
Proof.
  induction s as [|a s IH]; [cbn; by destruct (items fuel rest)|]. intros [Ha Hs]%andb_prop.
  change (String a s) with (String a "" +:+ s). rewrite escape_app, <-string_app_assoc, length_sapp. cbn [String.length Nat.add].
  rewrite items_char by done. rewrite IH by done. by destruct (items fuel rest).
Qed.
Lemma items_more (fuel fuel' : nat) pattern l : items fuel pattern = Some l → (fuel ≤ fuel')%nat → items fuel' pattern = Some l.
Proof.
  revert fuel' pattern l. induction fuel as [|fuel IH]; intros [|fuel'] pattern l H Hf; [done..|lia|]. cbn [items] in *.
  assert (∀ rest l0, items fuel rest = Some l0 → items fuel' rest = Some l0) as IH' by (intros; eapply IH; [done|lia]).
  case_bool_decide; [done|]. destruct (strip_prefix CLASS pattern) as [rest|].
  { destruct (items fuel rest) eqn:E; [|done]. by rewrite (IH' _ _ E). }
  destruct pattern as [|a rest]; [done|].
  assert (∀ a0 rest0, cons (Lit a0) <$> items fuel rest0 = Some l → cons (Lit a0) <$> items fuel' rest0 = Some l) as IH2.
  { intros a0 rest0 Hl. destruct (items fuel rest0) eqn:E; [|done]. by rewrite (IH' _ _ E). }
  destruct a as [[] [] [] [] [] [] [] []]; try (destruct (is_special _); [done|by apply IH2]).
  destruct rest as [|b rest]; [done|]. by apply IH2.
Qed.

Lemma validated name s : validate_token name = Ok s → name = VStr s ∧ s ≠ "" ∧ sforall token_char s = true.
Proof.
  destruct name as [| | | |t| |]; try done. cbn. case_bool_decide; [done|]. destruct (sforall token_char t) eqn:E; [|done].
  by intros [= <-].
Qed.
Lemma slot_alnum slot n : slot_text slot = Ok n → sforall is_alnum n = true.
Proof.
  destruct slot as [|[]|z| | | |]; try done; [by intros [= <-]|]. cbn. destruct (z <? 1)%Z eqn:Hz; [done|]. intros [= <-].
  destruct z as [|p|p]; [done| |done]. cbn. unfold str_of_int.
  assert (0 < N.pos p)%N as Hp0 by done.
  destruct (pretty_N_go_spec (N.pos p) "" Hp0) as (c & d & Hp & Hc & _ & Hd & _).
  match goal with |- sforall _ ?t = _ => change t with (pretty_N_go (N.pos p) "") end. rewrite Hp, string_app_nil_r. cbn. unfold is_alnum at 1. rewrite Hc. cbn.
  eapply sforall_impl; [|exact Hd]. intros a. unfold is_alnum. by intros ->.
Qed.

(** Claim C40: the expression made for a stack, a service and a slot is one that
    matches exactly the names swarm gives that slot's tasks: the stack, an
    underscore, the service, the slot and a task's id of lower-case letters
    and digits, dots between. *)
Theorem regex_exact stack_name service_name slot pattern :
  swarm_container_regex stack_name service_name slot = Ok pattern →
  ∃ stack service n l, stack_name = VStr stack ∧ service_name = VStr service ∧ slot_text slot = Ok n ∧ compile pattern = Some l
    ∧ ∀ line, accepts l line = true ↔
        ∃ id, id ≠ "" ∧ sforall lower_or_digit id = true ∧ line = stack +:+ "_" +:+ service +:+ "." +:+ n +:+ "." +:+ id.
Proof.
  unfold swarm_container_regex. intros (stack & Hs & H)%res_bind_Ok. apply res_bind_Ok in H as (service & Hv & H).
  apply res_bind_Ok in H as (n & Hn & H). injection H as <-.
  apply validated in Hs as (-> & _ & Hs). apply validated in Hv as (-> & _ & Hv). pose proof (slot_alnum _ _ Hn) as Ha.
  set (name := stack +:+ "_" +:+ service +:+ "." +:+ n +:+ ".").
  exists stack, service, n, (lits name ++ [Repeat lower_or_digit])%list. split_and!; [done..| |].
  - assert (sforall token_char name = true) as Ht.
    { unfold name. rewrite !sforall_app, Hs, Hv. cbn. rewrite !andb_true_r.
      eapply sforall_impl; [|exact Ha]. intros a. unfold token_char. by intros ->. }
    assert (escape stack +:+ "_" +:+ escape service +:+ "\." +:+ n +:+ "\.[a-z0-9]+$" = escape name +:+ CLASS +:+ "$") as Hp.
    { unfold name. rewrite !escape_app, (escape_alnum n) by done. by rewrite <-!string_app_assoc. }
    change (compile ("^" +:+ (escape stack +:+ "_" +:+ escape service +:+ "\." +:+ n +:+ "\.[a-z0-9]+$")) = Some (lits name ++ [Repeat lower_or_digit])%list).
    rewrite Hp. cbn [compile String.append]. pose proof (items_escape name 2 (CLASS +:+ "$") Ht) as Hi.
    eapply items_more; [rewrite Hi; reflexivity|]. rewrite !length_sapp. cbn [String.length CLASS].
    assert (String.length name ≤ String.length (escape name))%nat.
    { generalize name. intros s. induction s as [|a s IH]; [done|]. cbn. destruct (is_special a); cbn; lia. }
    lia.
  - intros line. rewrite accepts_lits. split.
    + destruct (strip_prefix name line) as [id|] eqn:E; [|done]. apply strip_prefix_inv in E as ->. rewrite accepts_repeat.
      intros [Hid Hf]%andb_prop. apply negb_true_iff, bool_decide_eq_false in Hid. exists id. split_and!; [done..|].
      unfold name. by rewrite <-!string_app_assoc.
    + intros (id & Hid & Hf & ->). replace (stack +:+ "_" +:+ service +:+ "." +:+ n +:+ "." +:+ id) with (name +:+ id)
        by (unfold name; by rewrite <-!string_app_assoc).
      rewrite strip_prefix_app, accepts_repeat, Hf. by rewrite bool_decide_false.
Qed.
Lemma regex_exact_witness :
  ∃ l, compile "^my\-app_web\.2\.[a-z0-9]+$" = Some l ∧ accepts l "my-app_web.2.x1y2" = true ∧ accepts l "my-app-web-2" = false.
Proof.
  destruct (regex_exact (VStr "my-app") (VStr "web") (VInt 2) "^my\-app_web\.2\.[a-z0-9]+$" ltac:(by vm_compute))
    as (stack & service & n & l & [= <-] & [= <-] & Hn & Hc & Hl).
  vm_compute in Hn. injection Hn as <-. exists l. split_and!; [exact Hc| |].
  - apply Hl. exists "x1y2". by vm_compute.
  - apply not_true_iff_false. intros (id & _ & _ & H)%Hl. discriminate H.
Defined.
