(* ===== verification/SettingsFilters.v ===== *)
(** Filters of [ansible/playbooks/filter_plugins] over the operator's settings:
    the sign-in page's name ([keycloak_signin_name.py]), the realm's mail
    settings ([keycloak_mail_settings.py]), the choice of outgoing mail
    ([smtp_resolve.py]), the endpoint of a backup repository
    ([restic_repo_endpoint.py]) and the names of a scanned host key
    ([keyscan_alias.py]).  A realm is its representation, a mapping. *)
From S2P Require Import Prelude PyStr PyNum PyVal Json Encoding Sha256.

#[local] Open Scope string_scope.

(** * The name of the sign-in page *)

Definition keycloak_signin_name_html (name : val) : string := "<b>" +:+ py_str name +:+ "</b>".
Definition forms (name : val) : val * val := (name, VStr (keycloak_signin_name_html name)).
Definition same_forms (x y : val * val) : bool := py_eq x.1 y.1 && py_eq x.2 y.2.
Definition attribute_of (realm : dict val) (attribute : string) : res val := attr_get attribute (val_or (vget "attributes" realm) (VDict [])).
(** [["-s"; "key=" + json.dumps(value)]], key by key. *)
Definition kcadm_sets (sets : list (string * string)) : list string :=
  flat_map (λ '(key, value), ["-s"; key +:+ "=" +:+ dumps default_style (VStr value)]) sets.
Definition keycloak_signin_name_sets (realm : dict val) (name : val) (attribute : string) : res (list string) :=
  let name := strip (str_or name) in
  if bool_decide (name = "") then Ok [] else
  let current := (val_or (vget "displayName" realm) (VStr ""), val_or (vget "displayNameHtml" realm) (VStr "")) in
  recorded ← attribute_of realm attribute;
  let catenas := match recorded with
    | VNone => same_forms current (forms (VStr name)) || same_forms current (forms (VStr ""))
    | _ => same_forms current (forms recorded)
    end in
  if negb catenas || (py_eq recorded (VStr name) && same_forms current (forms (VStr name))) then Ok [] else
  Ok (kcadm_sets [("displayName", name); ("displayNameHtml", keycloak_signin_name_html (VStr name)); ("attributes." +:+ attribute, name)]).

(** * The realm's mail settings *)

Definition FIELDS : list string := ["host"; "port"; "from"; "fromDisplayName"; "replyTo"; "replyToDisplayName"; "envelopeFrom"; "user"; "auth"; "ssl"; "starttls"].
Definition FLAGS : list string := ["auth"; "ssl"; "starttls"].
Definition field_text (key : string) (value : val) : string :=
  let text := match value with VNone => "" | v => strip (py_str v) end in
  if bool_decide (key ∈ FLAGS) then lower text else text.
(** [_project] *)
Definition project (smtp : val) : res (dict val) :=
  foldr (λ key r, value ← attr_get key (val_or smtp (VDict [])); out ← r;
    Ok (if bool_decide (field_text key value = "") then out else (key, VStr (field_text key value)) :: out)) (Ok []) FIELDS.
Definition fingerprint_of (projected : dict val) : string := sha256_hex (utf8 (dumps compact_style (sort_keys (VDict projected)))).
Definition keycloak_mail_fingerprint (smtp : val) : res string := p ← project smtp; Ok (fingerprint_of p).
Definition keycloak_mail_follows (realm : val) (attribute : string) : res bool :=
  realm ← as_dict_r (val_or realm (VDict []));
  current ← project (vget "smtpServer" realm);
  recorded ← attribute_of realm attribute;
  match current, recorded with
  | [], _ | _, VNone => Ok true
  | _, _ => print ← keycloak_mail_fingerprint (VDict current); Ok (py_eq (VStr print) recorded)
  end.
Definition keycloak_mail_record_sets (realm : dict val) (wanted : val) (attribute : string) : res (list string) :=
  wanted_print ← keycloak_mail_fingerprint wanted;
  held ← keycloak_mail_fingerprint (vget "smtpServer" realm);
  if negb (bool_decide (held = wanted_print)) then Ok [] else
  recorded ← attribute_of realm attribute;
  if py_eq recorded (VStr wanted_print) then Ok [] else Ok (kcadm_sets [("attributes." +:+ attribute, wanted_print)]).

(** * Outgoing mail *)

Definition IMPLICIT_TLS_PORT : Z := 465.
(** A provider's host, port and, where it has one for every account, user. *)
Definition KNOWN : dict (string * Z * option string) := [
  ("resend", ("smtp.resend.com", 587%Z, Some "resend")); ("brevo", ("smtp-relay.brevo.com", 587%Z, None))].
Definition ROUTED : list string := map fst KNOWN ++ ["server"].
Record smtp := { m_enabled : bool; m_host : string; m_port : Z; m_implicit_tls : bool; m_user : string; m_sender : string }.
Definition given (v : val) : string := strip (str_or v).
(** The port as given, else the submission port. *)
Definition port_of (port : val) : Z :=
  let text := strip (py_str port) in
  if bool_decide (text = "") then 587%Z else match py_int text with Ok n => n | Raise _ => 587%Z end.
Definition catena_smtp_resolve (provider host port user sender fallback_sender : val) : smtp :=
  let choice := lower (given provider) in
  let resolved_sender := if bool_decide (given sender = "") then given fallback_sender else given sender in
  if negb (bool_decide (choice ∈ ROUTED)) then
    {| m_enabled := false; m_host := ""; m_port := 587; m_implicit_tls := false; m_user := ""; m_sender := resolved_sender |}
  else match dget choice KNOWN with
  | Some (known_host, known_port, known_user) =>
      {| m_enabled := true; m_host := known_host; m_port := known_port; m_implicit_tls := bool_decide (known_port = IMPLICIT_TLS_PORT);
         m_user := match known_user with Some u => u | None => given user end; m_sender := resolved_sender |}
  | None =>
      {| m_enabled := true; m_host := given host; m_port := port_of port; m_implicit_tls := bool_decide (port_of port = IMPLICIT_TLS_PORT);
         m_user := given user; m_sender := resolved_sender |}
  end.

(** * The endpoint of a backup repository *)

(** [s.split("/", 1)[0]] *)
Definition before_slash (s : string) : string := (partition slash s).1.1.
Definition endpoint (scheme rest : string) : string :=
  let netloc := before_slash rest in if bool_decide (netloc = "") then "" else scheme +:+ "://" +:+ netloc.
Definition restic_repo_endpoint (repo : val) : string :=
  match repo with
  | VStr s =>
      match strip_prefix "s3:" (strip s) with
      | None => ""
      | Some rest =>
          match strip_prefix "http://" rest, strip_prefix "https://" rest with
          | Some tail, _ => endpoint "http" tail
          | None, Some tail => endpoint "https" tail
          | None, None => endpoint "https" rest
          end
      end
  | _ => ""
  end.

(** * The names of a scanned host key *)

(** One line: its first field is the scanned host. *)
Definition alias_line (alias : string) (replace : bool) (raw : string) : string :=
  let line := rstrip_char nl raw in
  let stripped := lstrip_of is_space line in
  if bool_decide (stripped = "") || startswith stripped "#" then line
  else
    let rewritten := λ head sep rest, if replace then alias +:+ String sep rest else alias +:+ "," +:+ head +:+ String sep rest in
    match partition " " line with
    | (head, true, rest) => rewritten head " "%char rest
    | _ => match partition "009" line with (head, true, rest) => rewritten head "009"%char rest | _ => line end
    end.
Definition as_line (v : val) : res string := match v with VStr s => Ok s | _ => Raise AttributeError end.
Definition keyscan_alias_lines (lines : val) (alias : val) (replace : bool) : res (list string) :=
  match lines, alias with
  | VNone, _ => Ok []
  | _, VStr a =>
      if bool_decide (a = "") then Raise ValueError else
      l ← (match lines with VStr s => Ok (splitlines s) | v => items ← py_iter v; mapM_res as_line items end);
      Ok (map (alias_line a replace) l)
  | _, _ => Raise ValueError
  end.
Definition keyscan_alias (lines : val) (alias : val) (replace : bool) : res string :=
  l ← keyscan_alias_lines lines alias replace; Ok (sjoin newline_str l +:+ newline_str).

(** * What the filters keep *)

(** A realm whose page and record are of one name follows the domain, once, and
    a page a person renamed is left alone whatever the domain. *)
Definition shows (realm : dict val) (name : val) : Prop :=
  val_or (vget "displayName" realm) (VStr "") = name ∧ val_or (vget "displayNameHtml" realm) (VStr "") = VStr (keycloak_signin_name_html name).
Lemma py_eq_str a b : py_eq (VStr a) (VStr b) = bool_decide (a = b).
Proof. done. Qed.
Lemma signin_name_follows realm attribute old new : strip new = new → new ≠ "" →
  shows realm (VStr old) → attribute_of realm attribute = Ok (VStr old) →
  keycloak_signin_name_sets realm (VStr new) attribute =
    Ok (if bool_decide (new = old) then []
        else kcadm_sets [("displayName", new); ("displayNameHtml", "<b>" +:+ new +:+ "</b>"); ("attributes." +:+ attribute, new)]).
Proof.
  intros Hs Hne [Hd Hh] Ha. unfold keycloak_signin_name_sets. assert (strip (str_or (VStr new)) = new) as ->.
  { unfold str_or, truthy. by case_bool_decide. }
  rewrite bool_decide_false by done. rewrite Ha. cbn [mbind res_bind]. rewrite Hd, Hh. unfold same_forms, forms. cbn [fst snd].
  rewrite !py_eq_str, bool_decide_true by done. rewrite (bool_decide_true (_ = _ :> string)) by done. cbn [andb negb orb].
  destruct (decide (new = old)) as [->|Hno]; [by rewrite !bool_decide_true|].
  rewrite (bool_decide_false (old = new)) by done. cbn. by rewrite bool_decide_false.
Qed.
Lemma renamed_page_kept realm attribute name recorded : attribute_of realm attribute = Ok (VStr recorded) →
  same_forms (val_or (vget "displayName" realm) (VStr ""), val_or (vget "displayNameHtml" realm) (VStr "")) (forms (VStr recorded)) = false →
  keycloak_signin_name_sets realm name attribute = Ok [].
Proof. intros Ha Hf. unfold keycloak_signin_name_sets. case_bool_decide; [done|]. rewrite Ha. cbn. by rewrite Hf. Qed.

(** Mail settings the record does not match are a person's, and what was
    recorded of the settings held is not recorded again. *)
Lemma recorded_once realm wanted attribute print : keycloak_mail_fingerprint wanted = Ok print →
  keycloak_mail_fingerprint (vget "smtpServer" realm) = Ok print → attribute_of realm attribute = Ok (VStr print) →
  keycloak_mail_record_sets realm wanted attribute = Ok [].
Proof.
  intros Hw Hh Ha. unfold keycloak_mail_record_sets. rewrite Hw. cbn [mbind res_bind]. rewrite Hh. cbn [mbind res_bind].
  rewrite bool_decide_true by done. cbn [negb]. rewrite Ha. cbn [mbind res_bind]. by rewrite py_eq_str, bool_decide_true.
Qed.
(** Mail is routed only by a known provider or the operator's server, and TLS
    is implicit on its port alone. *)
Lemma smtp_tls provider host port user sender fallback :
  let m := catena_smtp_resolve provider host port user sender fallback in
  m_implicit_tls m = bool_decide (m_port m = IMPLICIT_TLS_PORT) ∧ (m_enabled m = true ↔ lower (given provider) ∈ ROUTED).
Proof.
  intros m. subst m. unfold catena_smtp_resolve. cbn zeta. destruct (bool_decide (lower (given provider) ∈ ROUTED)) eqn:Hr; cbn [negb].
  - apply bool_decide_eq_true in Hr. by destruct (dget (lower (given provider)) KNOWN) as [[[h p] u]|].
  - apply bool_decide_eq_false in Hr. by split.
Qed.

(** A line that starts with a blank is cut at it: its host stays, and an alias
    of nothing goes before it. *)
Example blank_before_host : alias_line "a" true " host ssh-ed25519 AAAA" = "a host ssh-ed25519 AAAA".
Proof. by vm_compute. Qed.
Example endpoints : map (λ s, restic_repo_endpoint (VStr s)) ["s3:s3.example.com/bucket"; "s3:http://10.0.0.1:9000/b"; "sftp:host:/b"; "s3:/b"]
  = ["https://s3.example.com"; "http://10.0.0.1:9000"; ""; ""].
Proof. by vm_compute. Qed.
