(* ===== verification/AdminService.v ===== *)
(** [ansible/playbooks/filter_plugins/catena_admin_service.py]: the names of
    swarm secrets after their content, the ones a rotation leaves behind, the
    panel's whole [docker service create] argv, and the flags that bring its
    live environment, secrets and networks to the declared ones. *)
From S2P Require Import Prelude PyStr PyNum PyVal Encoding Sha256 SwarmService.

#[local] Open Scope string_scope.

(** [v[k]] *)
Definition item (k : string) (v : val) : res val :=
  match v with VDict d => getitem k d | _ => Raise TypeError end.

(** * Mounts and secrets *)

Definition MOUNTS : list (string * string * bool) :=
  [("/var/lib/catena/admin", "/var/lib/catena/admin", false);
   ("/etc/catena/admin-ssh", "/etc/catena/admin-ssh", true);
   ("/var/backups/catena-export", "/var/backups/catena-export", true);
   ("/var/lib/catena", "/var/lib/catena", true);
   ("/etc/catena/admin-actions.yml", "/etc/catena/admin-actions.yml", true);
   ("/etc/catena/extra-tiles.yml", "/etc/catena/extra-tiles.yml", true);
   ("/run/systemd/journal/socket", "/run/systemd/journal/socket", false)].

Definition SECRET_MOUNT_DIR : string := "/run/secrets".

Definition secret_name (base value : string) : string :=
  base +:+ "-" +:+ String.substring 0 8 (sha256_hex (utf8 value)).

Definition secret_entry (spec : val) : res (list val) :=
  v ← attr_get "value" spec;
  let value := str_or v in
  if bool_decide (strip value = "") then Ok [] else
  base ← item "base" spec;
  target ← item "target" spec;
  Ok [VDict [("name", VStr (secret_name (py_str base) value)); ("target", VStr (py_str target)); ("value", VStr value)]].
(** [specs or []], a loop over it *)
Definition secret_entries (specs : val) : res (list val) :=
  l ← iter_or specs; entries ← mapM_res secret_entry l; Ok (concat entries).

Definition task_template (inspect : val) : res val :=
  let inspect := match inspect with VList (x :: _) => x | VList [] => VDict [] | _ => inspect end in
  match inspect with
  | VDict _ => spec ← get_dict "Spec" inspect; get_dict "TaskTemplate" spec
  | _ => Ok (VDict [])
  end.
Definition container_spec (inspect : val) : res val := task ← task_template inspect; get_dict "ContainerSpec" task.

(** [re.match("^(?:b1|b2|...)-[0-9a-f]{8}$", n)]: the end also before a final newline. *)
Definition is_hex8 (s : string) : bool := (String.length s =? 8)%nat && sforall is_hex_char s.
Definition chop_newline (s : string) : string :=
  match cut_last s with Some (pre, a) => if bool_decide (a = nl) then pre else s | None => s end.
Definition names_base (n base : string) : bool :=
  let pre := base +:+ "-" in
  let fits s := startswith s pre && is_hex8 (String.substring (String.length pre) (String.length s - String.length pre) s) in
  fits n || fits (chop_newline n).

(** The names a service mounts. *)
Definition mounted_by (label : string) (service : val) : res (list string) :=
  c ← container_spec service;
  entries ← get_default (label +:+ "s") VNone c;
  entries ← iter_or entries;
  names ← mapM_res (λ e, match e with VDict d => Ok [str_or (vget (label +:+ "Name") d)] | _ => Ok [] end) entries;
  Ok (concat names).

Definition secrets_unmounted (names : list string) (services : val) (bases : list val) (kind : string) : res (list string) :=
  if bool_decide (bases = []) then Ok [] else
  let label := if bool_decide (kind = "config") then "Config" else "Secret" in
  services ← iter_or services;
  mounted ← mapM_res (mounted_by label) services;
  let mounted := concat mounted in
  Ok (sorted_str (filter (λ n, existsb (names_base n) (map py_str bases) = true ∧ n ∉ mounted) names)).

(** * The environment and the argv *)

(** [(spec.get(k) or {}).items()] *)
Definition items_or (k : string) (spec : val) : res (dict val) :=
  v ← attr_get k spec;
  match val_or v (VDict []) with VDict d => Ok d | _ => Raise AttributeError end.

Definition file_env (env : dict string) (secret : val) : res (dict string) :=
  target ← item "target" secret;
  let target := py_str target in
  Ok (dset (target +:+ "_FILE") (SECRET_MOUNT_DIR +:+ "/" +:+ target) env).
Definition catena_admin_full_env (spec : val) : res (dict string) :=
  plain ← items_or "env" spec;
  let env := foldl (λ env '(k, v), dset k (py_str v) env) [] plain in
  secrets ← attr_get "secrets" spec;
  secrets ← iter_or secrets;
  foldM file_env env secrets.

Definition mount_arg (source destination : string) (readonly : bool) : string :=
  let arg := "type=bind,source=" +:+ source +:+ ",destination=" +:+ destination in
  if readonly then arg +:+ ",readonly" else arg.

Definition secret_arg (secret : val) : res string :=
  name ← item "name" secret; target ← item "target" secret;
  Ok ("--secret=source=" +:+ py_str name +:+ ",target=" +:+ py_str target).

(** [not spec.get(key) or not str(spec.get(key)).strip()] *)
Definition missing (d : dict val) (key : string) : bool :=
  negb (truthy (vget key d)) || bool_decide (strip (py_str (vget key d)) = "").

Definition env_args (env : dict string) : list string :=
  map (λ k, "--env=" +:+ k +:+ "=" +:+ default "" (dget k env)) (sorted_str (dkeys env)).

Definition catena_admin_service_argv (spec : val) : res (list val) :=
  match spec with
  | VDict d =>
      if existsb (missing d) ["name"; "image"; "networks"; "ui_port"; "direct_port"] then Raise ValueError else
      match vget "networks" d with
      | VList networks =>
          let group := strip (str_or (vget "group" d)) in
          secrets ← iter_or (vget "secrets" d);
          secrets ← mapM_res secret_arg secrets;
          env ← catena_admin_full_env spec;
          hardening ← iter_or (vget "hardening" d);
          Ok (map VStr (["docker"; "service"; "create"; "--detach"; "--name=" +:+ py_str (vget "name" d)] ++
                        map (λ n, "--network=" +:+ py_str n) networks ++
                        ["--restart-condition=any";
                         "--publish=mode=host,published=" +:+ py_str (vget "ui_port" d) +:+
                         ",target=" +:+ py_str (vget "direct_port" d);
                         "--host=host.docker.internal:host-gateway"] ++
                        (if bool_decide (group = "") then [] else ["--group=" +:+ group]) ++
                        map (λ '(s, t, ro), "--mount=" +:+ mount_arg s t ro) MOUNTS ++
                        secrets ++ env_args env) ++
              hardening ++ [VStr (py_str (vget "image" d))])%list
      | _ => Raise ValueError
      end
  | _ => Raise ValueError
  end.

(** * Drift *)

Definition env_entry (live : dict string) (entry : val) : dict string :=
  let '(key, _, value) := partition "=" (py_str entry) in dset key value live.

(** The sorted difference of two sets of names. *)
Definition catena_admin_env_drift (inspect env : val) : res (list string) :=
  match env with
  | VDict env =>
      c ← container_spec inspect;
      entries ← get_default "Env" VNone c;
      entries ← iter_or entries;
      let live := foldl env_entry [] entries in
      let adds := filter (λ k, dget k live ≠ Some (py_str (vget k env))) (sorted_str (dkeys env)) in
      Ok (concat (map (λ k, ["--env-add"; k +:+ "=" +:+ py_str (vget k env)]) adds) ++
          concat (map (λ k, ["--env-rm"; k]) (without (dkeys live) (dkeys env))))%list
  | _ => Raise ValueError
  end.

Definition live_secret (live : dict string) (entry : val) : res (dict string) :=
  match entry with
  | VDict d =>
      let name := str_or (vget "SecretName" d) in
      file ← attr_get "Name" (val_or (vget "File" d) (VDict []));
      Ok (if bool_decide (name = "") then live else dset name (str_or file) live)
  | _ => Ok live
  end.
Definition wanted_secret (want : dict string) (s : val) : res (dict string) :=
  name ← item "name" s; target ← item "target" s; Ok (dset (py_str name) (py_str target) want).

Definition catena_admin_secret_drift (inspect secrets : val) : res (list string) :=
  c ← container_spec inspect;
  entries ← get_default "Secrets" VNone c;
  entries ← iter_or entries;
  live ← foldM live_secret [] entries;
  secrets ← iter_or secrets;
  want ← foldM wanted_secret [] secrets;
  Ok (concat (map (λ n, ["--secret-rm"; n]) (without (dkeys live) (dkeys want))) ++
      concat (map (λ n, ["--secret-add"; "source=" +:+ n +:+ ",target=" +:+ default "" (dget n want)])
                  (without (dkeys want) (dkeys live))))%list.

Definition wanted_network (want : dict string) (kv : string * val) : res (dict string) :=
  let '(name, net_id) := kv in
  let id := strip (str_or net_id) in
  if bool_decide (id = "") then Raise ValueError else Ok (dset id name want).

Definition catena_admin_network_drift (inspect network_ids : val) : res (list string) :=
  match network_ids with
  | VDict ids =>
      want ← foldM wanted_network [] ids;
      task ← task_template inspect;
      entries ← get_default "Networks" VNone task;
      entries ← iter_or entries;
      let live := concat (map (λ e, match e with VDict d => [str_or (vget "Target" d)] | _ => [] end) entries) in
      Ok (concat (map (λ t, ["--network-rm"; t]) (without live (dkeys want))) ++
          concat (map (λ i, ["--network-add"; default "" (dget i want)]) (without (dkeys want) live)))%list
  | _ => Raise ValueError
  end.
