(* ===== verification/AdminServiceFacts.v ===== *)
(** The panel's service of [AdminService]: its environment flags converge, no
    secret's value reaches its argv and every mounted secret is announced, and
    what a rotation prunes is exactly what it left behind. *)
From S2P Require Import Prelude PyStr PyNum PyVal Encoding Sha256 SwarmService AdminService.

#[local] Open Scope string_scope.

(** * The environment converges *)

(** What docker makes of the flags: an addition sets the variable before the
    first equals sign, a removal takes one away. *)
Fixpoint apply_env (flags : list string) (live : dict string) : dict string :=
  match flags with
  | f :: x :: flags =>
      apply_env flags (if bool_decide (f = "--env-add") then env_entry live (VStr x) else ddel x live)
  | _ => live
  end.

(** The live environment of an inspection. *)
Definition live_env (inspect : val) : res (dict string) :=
  c ← container_spec inspect;
  entries ← get_default "Env" VNone c;
  entries ← iter_or entries;
  Ok (foldl env_entry [] entries).

Definition wanted_env (env : dict val) : dict string := map (λ '(k, v), (k, py_str v)) env.

Lemma dget_wanted k env : dget k (wanted_env env) = py_str <$> dget k env.
Proof. induction env as [|[k' v] env IH]; cbn; [done|]. by case_bool_decide. Qed.
Lemma dkeys_wanted env : dkeys (wanted_env env) = dkeys env.
Proof. unfold dkeys, wanted_env. induction env as [|[k v] env IH]; cbn; [done|]. by f_equal. Qed.

Definition add_flags (value : string → string) (ks : list string) : list string :=
  concat (map (λ k, ["--env-add"; k +:+ "=" +:+ value k]) ks).
Definition rm_flags (ks : list string) : list string := concat (map (λ k, ["--env-rm"; k]) ks).

Lemma apply_adds value ks rest live :
  Forall (λ k, has_char "=" k = false) ks →
  apply_env (add_flags value ks ++ rest) live = apply_env rest (foldl (λ l k, dset k (value k) l) live ks).
Proof.
  intros Hk. revert live. induction Hk as [|k ks Hk _ IH]; intros live; [done|].
  unfold add_flags in *. cbn [map concat app apply_env]. rewrite bool_decide_true by done. rewrite IH. f_equal.
  unfold env_entry. cbn [py_str].
  change ("=" +:+ value k) with (String "=" (value k)). by rewrite partition_app.
Qed.
Lemma apply_rms ks live : apply_env (rm_flags ks) live = foldl (λ l k, ddel k l) live ks.
Proof. revert live. induction ks as [|k ks IH]; intros live; [done|]. cbn. by rewrite <-IH. Qed.

Lemma dget_sets (value : string → string) ks live k :
  dget k (foldl (λ l k, dset k (value k) l) live ks) = if decide (k ∈ ks) then Some (value k) else dget k live.
Proof.
  revert live. induction ks as [|k' ks IH]; intros live; cbn [foldl].
  - rewrite decide_False; [done|]. by apply not_elem_of_nil.
  - rewrite IH, dget_dset. destruct (decide (k ∈ ks)) as [Hk|Hk].
    + rewrite decide_True; [done|]. by right.
    + destruct (decide (k = k')) as [->|Hn].
      * rewrite decide_True; [done|]. by left.
      * rewrite decide_False; [done|]. by intros [?|?]%elem_of_cons.
Qed.
Lemma NoDup_sets (value : string → string) ks live :
  NoDup (dkeys live) → NoDup (dkeys (foldl (λ l k, dset k (value k) l) live ks)).
Proof. revert live. induction ks as [|k ks IH]; intros live H; [done|]. cbn. apply IH. by apply NoDup_dset. Qed.

Lemma dget_dels {V} ks (live : dict V) k :
  NoDup (dkeys live) →
  dget k (foldl (λ l k, ddel k l) live ks) = if decide (k ∈ ks) then None else dget k live.
Proof.
  revert live. induction ks as [|k' ks IH]; intros live Hd; cbn [foldl].
  - rewrite decide_False; [done|]. by apply not_elem_of_nil.
  - rewrite IH by by apply NoDup_ddel. destruct (decide (k ∈ ks)) as [Hk|Hk].
    + rewrite decide_True; [done|]. by right.
    + destruct (decide (k = k')) as [->|Hn].
      * rewrite decide_True by by left. by apply dget_ddel_eq.
      * rewrite decide_False by by intros [?|?]%elem_of_cons. by apply dget_ddel_ne.
Qed.

Lemma NoDup_live_env entries : NoDup (dkeys (foldl env_entry [] entries)).
Proof.
  apply (foldl_inv (λ l, NoDup (dkeys l))); [|constructor]. intros l e _ Hl.
  unfold env_entry. destruct (partition _ _) as [[? ?] ?]. by apply NoDup_dset.
Qed.

Lemma elem_of_without x l keep : x ∈ without l keep ↔ x ∈ l ∧ x ∉ keep.
Proof. unfold without. rewrite elem_of_sorted_str, elem_of_remove_dups, list_elem_of_filter. tauto. Qed.

(** Claim C34: the environment flags converge the service.  Docker's reading of
    the flags turns the live environment of the inspection into exactly the
    declared one, variables left by an older deploy removed; and there are no
    flags only if it already was. *)
Theorem env_drift_converges inspect env flags :
  NoDup (dkeys env) → Forall (λ k, has_char "=" k = false) (dkeys env) →
  catena_admin_env_drift inspect (VDict env) = Ok flags →
  ∃ live, live_env inspect = Ok live ∧ dict_equiv (apply_env flags live) (wanted_env env) ∧
    (flags = [] → dict_equiv live (wanted_env env)).
Proof.
  intros Hnd Heq H. unfold catena_admin_env_drift in H. unfold live_env.
  apply res_bind_Ok in H as (c & -> & H). apply res_bind_Ok in H as (e & He & H).
  apply res_bind_Ok in H as (l & Hl & H). cbn [mbind res_bind]. rewrite He. cbn [mbind res_bind]. rewrite Hl.
  cbn [mbind res_bind]. set (live := foldl env_entry [] l) in *. exists live. split; [done|].
  pose proof (NoDup_live_env l) as Hlive. fold live in Hlive.
  set (value := λ k, py_str (vget k env)) in *.
  set (adds := filter (λ k, dget k live ≠ Some (value k)) (sorted_str (dkeys env))) in *.
  assert (Hall : dict_equiv (apply_env flags live) (wanted_env env)).
  { assert (flags = add_flags value adds ++ rm_flags (without (dkeys live) (dkeys env)))%list as ->
      by (injection H as <-; reflexivity).
    intros k. rewrite apply_adds, apply_rms, dget_dels, dget_sets, dget_wanted by
      (try apply NoDup_sets; try done; apply Forall_forall; intros x [_ Hx]%list_elem_of_filter;
       rewrite elem_of_sorted_str in Hx; rewrite Forall_forall in Heq; auto).
    destruct (decide (k ∈ dkeys env)) as [Hk|Hk].
    - rewrite decide_False by (intros [_ ?]%elem_of_without; done).
      apply elem_of_dkeys in Hk as Hk'. destruct Hk' as [v Hv]. rewrite Hv. cbn.
      assert (Hval : value k = py_str v) by (unfold value, vget; by rewrite Hv).
      destruct (decide (k ∈ adds)) as [|Ha]; [by rewrite Hval|].
      destruct (decide (dget k live = Some (value k))) as [->|Hn]; [by rewrite Hval|].
      exfalso. apply Ha, list_elem_of_filter. split; [done|]. by rewrite elem_of_sorted_str.
    - apply dget_None in Hk as Hk'. rewrite Hk'. cbn. case_decide as Hw; [done|].
      rewrite decide_False.
      + apply dget_None. intros Hin. apply Hw, elem_of_without. by split.
      + intros [_ Hx]%list_elem_of_filter. by rewrite elem_of_sorted_str in Hx. }
  split; [done|]. intros ->. exact Hall.
Qed.

(** * Names after their content *)


Definition suffix (value : string) : string := String.substring 0 8 (sha256_hex (utf8 value)).
Lemma suffix_hex8 value : is_hex8 (suffix value) = true.
Proof.
  unfold is_hex8, suffix. rewrite length_substring_0 by (rewrite length_sha256_hex; lia).
  apply sforall_substring_0, sha256_hex_chars.
Qed.

Lemma fits_name base t : is_hex8 t = true →
  let s := base +:+ "-" +:+ t in let pre := base +:+ "-" in
  startswith s pre && is_hex8 (String.substring (String.length pre) (String.length s - String.length pre) s) = true.
Proof.
  intros Ht s pre. subst s pre. rewrite (string_app_assoc base "-" t).
  rewrite startswith_app, substring_app_r, length_sapp, Nat.add_comm, Nat.add_sub, substring_all. by rewrite Ht.
Qed.

Lemma cut_last_app s a : cut_last (s +:+ String a "") = Some (s, a).
Proof.
  induction s as [|b s IH]; [done|]. cbn [String.append cut_last]. rewrite IH.
  destruct (s +:+ String a "") eqn:Es; [|done]. by destruct s.
Qed.
Lemma cut_last_inv s pre a : cut_last s = Some (pre, a) → s = pre +:+ String a "".
Proof.
  revert pre. induction s as [|b s IH]; intros pre H; cbn [cut_last] in H; [done|].
  destruct s as [|c s]; [by simplify_eq|].
  destruct (cut_last (String c s)) as [[pre' b']|] eqn:Ec; [|done]. cbn in H. simplify_eq. by rewrite (IH _ eq_refl).
Qed.

Lemma cut_last_None s : cut_last s = None → s = "".
Proof.
  induction s as [|a s IH]; [done|]. cbn [cut_last]. destruct s as [|b s]; [done|].
  destruct (cut_last (String b s)) as [[? ?]|]; [done|]. intros _. by discriminate (IH eq_refl).
Qed.

(** No newline ends a name made after a content. *)
Lemma chop_hex s t : is_hex8 t = true → chop_newline (s +:+ t) = s +:+ t.
Proof.
  intros [Hl Hh]%andb_true_iff. unfold chop_newline. destruct (cut_last (s +:+ t)) as [[pre a]|] eqn:Ec; [|done].
  case_bool_decide as Ha; [|done]. subst a. exfalso.
  destruct (cut_last t) as [[pt b]|] eqn:Et; [|by rewrite (cut_last_None _ Et) in Hl].
  apply cut_last_inv in Et as ->. rewrite string_app_assoc, cut_last_app in Ec. simplify_eq.
  rewrite sforall_app in Hh. apply andb_true_iff in Hh as [_ Hh]. by vm_compute in Hh.
Qed.


(** A name made for one base is recognised as that base's and no other's. *)
Lemma names_base_iff b value c : names_base (secret_name b value) c = true ↔ c = b.
Proof.
  change (secret_name b value) with (b +:+ "-" +:+ suffix value).
  pose proof (suffix_hex8 value) as Hs. unfold names_base.
  rewrite (string_app_assoc b "-"), chop_hex, <-(string_app_assoc b "-") by done. rewrite orb_diag. split.
  - intros [H1 H2]%andb_true_iff. apply startswith_inv in H1 as [r Hr].
    rewrite Hr in H2. rewrite substring_app_r, length_sapp, Nat.add_comm, Nat.add_sub, substring_all in H2.
    apply andb_true_iff in Hs as [Hs _], H2 as [H2 _]. apply Nat.eqb_eq in Hs, H2.
    rewrite <-string_app_assoc in Hr. symmetry in Hr. eapply length_eq_app; [|exact Hr].
    apply (f_equal String.length) in Hr. rewrite !length_sapp, Hs, H2 in Hr. lia.
  - intros ->. by apply fits_name.
Qed.

(** The names the services of an inspection mount. *)
Definition all_mounted (kind : string) (services : val) : res (list string) :=
  services ← iter_or services;
  mounted ← mapM_res (mounted_by (if bool_decide (kind = "config") then "Config" else "Secret")) services;
  Ok (concat mounted).

(** A prune takes what a rotation left and nothing else.  Every name
    it gives is one of the names asked about, mounted by no service; and a
    name made after a value's content for a base is given exactly when it is
    there, its own base is asked for and no service mounts it: a secret of
    another base, whatever prefix they share, is never given. *)
Theorem secrets_unmounted_exact names services bases kind out :
  secrets_unmounted names services bases kind = Ok out → bases ≠ [] →
  ∃ mounted, all_mounted kind services = Ok mounted ∧
    (∀ n, n ∈ out → n ∈ names ∧ n ∉ mounted) ∧
    (∀ b value, secret_name b value ∈ out ↔
       secret_name b value ∈ names ∧ b ∈ map py_str bases ∧ secret_name b value ∉ mounted).
Proof.
  intros H Hb. unfold secrets_unmounted in H. rewrite bool_decide_false in H by done. cbn zeta in H. unfold all_mounted.
  apply res_bind_Ok in H as (l & -> & H). apply res_bind_Ok in H as (m & Hm & H). cbn [mbind res_bind].
  rewrite Hm. cbn [mbind res_bind]. injection H as <-. exists (concat m). split; [done|]. split.
  - intros n. rewrite elem_of_sorted_str, list_elem_of_filter. tauto.
  - intros b value. rewrite elem_of_sorted_str, list_elem_of_filter, existsb_exists. split.
    + intros [[(c & Hc & Hn%names_base_iff) Hu] Hin]. subst c. by rewrite <-list_elem_of_In in Hc.
    + intros (Hin & Hbase & Hu). split_and!; [|done..]. exists b.
      rewrite <-list_elem_of_In. split; [done|]. by apply names_base_iff.
Qed.

(** * What travels in the argv *)

Lemma Ok_inj {A} (a b : A) : Ok a = Ok b → b = a.
Proof. by intros [= ->]. Qed.

(** Two secrets that mount alike, whatever else they hold. *)
Definition same_mount (s s' : val) : Prop := item "name" s = item "name" s' ∧ item "target" s = item "target" s'.

Lemma mapM_res_Forall2 {A B} (f : A → res B) l l' :
  Forall2 (λ x y, f x = f y) l l' → mapM_res f l = mapM_res f l'.
Proof. induction 1 as [|x y l l' E _ IH]; [done|]. cbn [mapM_res]. by rewrite E, IH. Qed.
Lemma foldM_Forall2 {A S} (f : S → A → res S) s l l' :
  Forall2 (λ x y, ∀ s, f s x = f s y) l l' → foldM f s l = foldM f s l'.
Proof.
  intros H. revert s. induction H as [|x y l l' E _ IH]; intros s; [done|]. cbn [foldM]. rewrite E.
  destruct (f s y); [|done]. apply IH.
Qed.

Lemma full_env_same d l l' :
  Forall2 same_mount l l' →
  catena_admin_full_env (VDict (dset "secrets" (VList l) d)) = catena_admin_full_env (VDict (dset "secrets" (VList l') d)).
Proof.
  intros H. unfold catena_admin_full_env, items_or, attr_get, vget. cbn [mbind res_bind].
  rewrite !dget_dset_eq, !dget_dset_ne by done.
  destruct (match val_or _ _ with VDict _ => _ | _ => _ end); [|done]. cbn [mbind res_bind from_option id].
  rewrite !iter_or_list. cbn [mbind res_bind]. apply foldM_Forall2.
  eapply Forall2_impl; [done|]. intros s s' [_ Ht] env. unfold file_env. by rewrite Ht.
Qed.

Lemma file_env_dget env s env' k v :
  file_env env s = Ok env' → dget k env = Some v → (∀ t, k = t +:+ "_FILE" → v = SECRET_MOUNT_DIR +:+ "/" +:+ t) →
  dget k env' = Some v.
Proof.
  intros (t & Ht & H)%res_bind_Ok Hk Hv. cbv zeta in H. injection H as <-. rewrite dget_dset. case_decide; [|done]. f_equal. symmetry. exact (Hv _ H).
Qed.

Lemma sapp_suffix_inj a b c : a +:+ c = b +:+ c → a = b.
Proof.
  intros H. eapply length_eq_app; [|exact H]. apply (f_equal String.length) in H. rewrite !length_sapp in H. lia.
Qed.

Lemma file_envs_dget env l env' s t :
  foldM file_env env l = Ok env' → s ∈ l → item "target" s = Ok t →
  dget (py_str t +:+ "_FILE") env' = Some (SECRET_MOUNT_DIR +:+ "/" +:+ py_str t).
Proof.
  revert env. induction l as [|x l IH]; intros env H Hs Ht; [by apply elem_of_nil in Hs|].
  cbn [foldM] in H. destruct (file_env env x) as [env1|] eqn:E1; [|done].
  apply elem_of_cons in Hs as [<-|Hs]; [|by eapply IH].
  unfold file_env in E1. rewrite Ht in E1. cbn in E1. injection E1 as E1.
  assert (H1 : dget (py_str t +:+ "_FILE") env1 = Some (SECRET_MOUNT_DIR +:+ "/" +:+ py_str t)).
  { rewrite <-E1. apply dget_dset_eq. }
  clear E1 IH. cbn [mbind res_bind] in H. revert env1 H H1. induction l as [|y l IH]; intros env1 H H1; cbn [foldM] in H; [injection H as <-; exact H1|].
  destruct (file_env env1 y) as [env2|] eqn:E2; [|done]. eapply IH; [exact H|].
  eapply file_env_dget; [exact E2|exact H1|]. intros t' Ht'. apply sapp_suffix_inj in Ht'. by rewrite Ht'.
Qed.

(** Only paths travel.  The argv of the panel depends on its secrets
    through their names and targets alone, so no value a secret carries is in
    it; and each secret mounted is announced by its path: the argv sets
    <target>_FILE to the file the secret is mounted at. *)
Theorem argv_secret_free d l argv :
  catena_admin_service_argv (VDict (dset "secrets" (VList l) d)) = Ok argv →
  (∀ l', Forall2 same_mount l l' → catena_admin_service_argv (VDict (dset "secrets" (VList l') d)) = Ok argv) ∧
  (∀ s t, s ∈ l → item "target" s = Ok t →
     VStr ("--env=" +:+ (py_str t +:+ "_FILE") +:+ "=" +:+ SECRET_MOUNT_DIR +:+ "/" +:+ py_str t) ∈ argv).
Proof.
  intros H. split.
  - intros l' Hl. rewrite <-H. unfold catena_admin_service_argv. unfold missing, vget.
    cbn [existsb]. rewrite !dget_dset_eq, !dget_dset_ne by done. cbn [from_option id].
    rewrite (full_env_same d l l') by done. rewrite !iter_or_list. cbn [mbind res_bind].
    rewrite (mapM_res_Forall2 secret_arg l l'); [done|].
    eapply Forall2_impl; [done|]. intros s s' [Hn Ht]. unfold secret_arg. by rewrite Hn, Ht.
  - intros s t Hs Ht. unfold catena_admin_service_argv in H. destruct (existsb _ _); [done|].
    destruct (vget "networks" _) as [| | | | |networks|]; try done.
    apply res_bind_Ok in H as (secrets & _ & H). apply res_bind_Ok in H as (args & _ & H).
    apply res_bind_Ok in H as (env & Henv & H). apply res_bind_Ok in H as (hardening & _ & H).
    apply Ok_inj in H as ->. apply elem_of_app. left. apply list_elem_of_In, in_map, list_elem_of_In.
    rewrite !elem_of_app. right. right. right. right. right. right.
    unfold catena_admin_full_env in Henv. apply res_bind_Ok in Henv as (plain & _ & Henv).
    apply res_bind_Ok in Henv as (x & Hx & Henv). apply res_bind_Ok in Henv as (l0 & Hl0 & Henv).
    unfold attr_get, vget in Hx. rewrite dget_dset_eq in Hx. injection Hx as <-. cbn [from_option id] in Hl0.
    rewrite iter_or_list in Hl0. injection Hl0 as <-.
    pose proof (file_envs_dget _ _ _ _ _ Henv Hs Ht) as Hk.
    apply list_elem_of_In, in_map_iff. exists (py_str t +:+ "_FILE"). rewrite Hk. split; [done|].
    rewrite <-list_elem_of_In, elem_of_sorted_str, elem_of_dkeys. by eexists.
Qed.

(** * A panel, run *)

Module Panel.
Definition inspect : val := VList [VDict [("Spec", VDict [("TaskTemplate", VDict [("ContainerSpec", VDict
  [("Env", VList [VStr "OLD_HOST=x"; VStr "URL=https://a?b=c"]);
   ("Secrets", VList [VDict [("SecretName", VStr "session-00000000")]])])])])]].
Definition env : dict val := [("URL", VStr "https://new"); ("PORT", VInt 8080)].
Definition secret (value : string) : val :=
  VDict [("name", VStr "session-ab"); ("target", VStr "SESSION_KEY"); ("value", VStr value)].
Definition spec : dict val :=
  [("name", VStr "catena-admin"); ("image", VStr "ghcr.io/catenahq/catena-admin:1.0.0");
   ("networks", VList [VStr "catena-network"]); ("ui_port", VInt 8443); ("direct_port", VInt 8080)].
Definition bases : list val := [VStr "session"; VStr "oidc"].
Definition names : list string := ["session-00000000"; secret_name "session" "v1"; secret_name "session-ui" "v1"].

Lemma drifts : is_ok (catena_admin_env_drift inspect (VDict env)) = true.
Proof. vm_compute. reflexivity. Qed.
Lemma prunes : is_ok (secrets_unmounted names (VList [inspect]) bases "secret") = true.
Proof. vm_compute. reflexivity. Qed.
Lemma renders : is_ok (catena_admin_service_argv (VDict (dset "secrets" (VList [secret "s3cr3t"]) spec))) = true.
Proof. vm_compute. reflexivity. Qed.
End Panel.

Lemma env_drift_converges_witness :
  ∃ live, live_env Panel.inspect = Ok live ∧ dict_equiv (apply_env (get_ok _ Panel.drifts) live) (wanted_env Panel.env).
Proof.
  destruct (env_drift_converges Panel.inspect Panel.env (get_ok _ Panel.drifts)) as (live & H1 & H2 & _).
  - apply (bool_decide_unpack _). reflexivity.
  - apply (bool_decide_unpack _). reflexivity.
  - apply get_ok_eq.
  - by exists live.
Defined.

Lemma secrets_unmounted_exact_witness :
  ∃ mounted, all_mounted "secret" (VList [Panel.inspect]) = Ok mounted ∧
    (secret_name "session" "v1" ∈ get_ok _ Panel.prunes ↔
     secret_name "session" "v1" ∈ Panel.names ∧ "session" ∈ map py_str Panel.bases ∧ secret_name "session" "v1" ∉ mounted).
Proof.
  destruct (secrets_unmounted_exact Panel.names (VList [Panel.inspect]) Panel.bases "secret" (get_ok _ Panel.prunes))
    as (mounted & H1 & _ & H2); [apply get_ok_eq|discriminate|].
  exists mounted. split; [exact H1|exact (H2 "session" "v1")].
Defined.

Lemma argv_secret_free_witness :
  catena_admin_service_argv (VDict (dset "secrets" (VList [Panel.secret "other"]) Panel.spec)) = Ok (get_ok _ Panel.renders).
Proof.
  apply (argv_secret_free Panel.spec [Panel.secret "s3cr3t"] _ (get_ok_eq _ Panel.renders)).
  constructor; [split; reflexivity|constructor].
Defined.
