(* ===== verification/Tier1Stack.v ===== *)
(** [ansible/playbooks/filter_plugins/tier1_stack.py]: one spec per service
    rendered as the compose mapping [docker stack config] validates, and the
    roster the roles accumulate their specs in. *)
From S2P Require Import Prelude PyStr PyNum PyVal Json SwarmService.

#[local] Open Scope string_scope.

Definition RESTART_DELAY : string := "5s".
Definition REQUIRED : list string := ["name"; "image"].
(** The keys swarm cannot honour; a reason for each is in the message. *)
Definition REFUSED : list string := ["depends_on"; "restart"; "network_mode"; "group"; "group_add"].

(** * Mounts *)

Definition mount_field (fields : dict string) (part : string) : dict string :=
  let '(key, sep, value) := partition "=" (strip part) in
  dset (strip key) (if (sep : bool) then strip value else "true") fields.

Definition field_or (k1 k2 : string) (fields : dict string) : string :=
  let v := default "" (dget k1 fields) in
  if bool_decide (v = "") then default "" (dget k2 fields) else v.

Definition swarm_mount_to_compose (mount : val) : res string :=
  let fields := foldl mount_field [] (split "," (py_str mount)) in
  let source := field_or "source" "src" fields in
  let dest := field_or "destination" "target" fields in
  if bool_decide (source = "") || bool_decide (dest = "") then Raise ValueError else
  let readonly := bool_decide (lower (default "" (dget "readonly" fields)) ∈ ["true"; "1"]) in
  Ok (source +:+ ":" +:+ dest +:+ (if readonly then ":ro" else "")).

(** * One service *)

(** [if key in spec: out[name] = f(spec[key])] *)
Definition put (key name : string) (f : val → res val) (spec out : dict val) : res (dict val) :=
  match dget key spec with Some v => x ← f v; Ok (dset name x out) | None => Ok out end.
(** [if x: out[name] = x] *)
Definition put_if (name : string) (x : val) (out : dict val) : dict val :=
  if truthy x then dset name x out else out.

Definition text (v : val) : res val := Ok (VStr (py_str v)).
Definition number (v : val) : res val := VInt <$> as_int v.
(** [[str(x) for x in spec.get(k) or []]] *)
Definition texts (k : string) (spec : dict val) : res (list string) :=
  l ← iter_or (vget k spec); Ok (map py_str l).
Definition text_list (k : string) (spec : dict val) : res val :=
  l ← texts k spec; Ok (VList (map VStr l)).

Definition update_action (v : val) : res val :=
  if bool_decide (py_str v = "rollback") then Raise ValueError else text v.

Definition deploy_block (spec : dict val) : res val :=
  replicas ← number (default (VInt 1) (dget "replicas" spec));
  let deploy := [("replicas", replicas);
                 ("restart_policy", VDict [("condition", VStr "any"); ("delay", VStr RESTART_DELAY)])] in
  let deploy := if bool_decide (strip (str_or (vget "mode" spec)) = "global")
                then ddel "replicas" (dset "mode" (VStr "global") deploy) else deploy in
  resources ← put "limit_memory" "limits" (λ v, Ok (VDict [("memory", VStr (py_str v))])) spec [];
  resources ← put "reserve_memory" "reservations" (λ v, Ok (VDict [("memory", VStr (py_str v))])) spec resources;
  let deploy := put_if "resources" (VDict resources) deploy in
  update ← put "update_failure_action" "failure_action" update_action spec [];
  update ← put "update_monitor" "monitor" text spec update;
  update ← put "update_order" "order" text spec update;
  update ← put "update_max_failure_ratio" "max_failure_ratio" (λ v, VFloat <$> as_float v) spec update;
  let deploy := put_if "update_config" (VDict update) deploy in
  constraints ← texts "constraints" spec;
  Ok (VDict (match constraints with
             | [] => deploy
             | _ => dset "placement" (VDict [("constraints", VList (map VStr constraints))]) deploy
             end)).

Definition healthcheck (spec : dict val) : res val :=
  match dget "health_cmd" spec with
  | None => Ok VNone
  | Some cmd =>
      hc ← put "health_interval" "interval" text spec [("test", VList [VStr "CMD-SHELL"; VStr (py_str cmd)])];
      hc ← put "health_retries" "retries" number spec hc;
      hc ← put "health_start_period" "start_period" text spec hc;
      Ok (VDict hc)
  end.

Definition port_entry (port : val) : res val :=
  match port with
  | VDict d =>
      if dhas "host_ip" d then Raise ValueError else
      target ← getitem "target" d; target ← number target;
      published ← getitem "published" d; published ← number published;
      Ok (VDict [("target", target); ("published", published);
                 ("protocol", VStr (py_str (default (VStr "tcp") (dget "protocol" d))));
                 ("mode", VStr (py_str (default (VStr "host") (dget "mode" d))))])
  | _ => Raise ValueError
  end.
Definition ports (spec : dict val) : res (list val) :=
  l ← iter_or (vget "ports" spec); mapM_res port_entry l.

(** A content-hashed secret has a source and a target, a plain one a name. *)
Definition secret_entry (secret : val) : res val :=
  match secret with
  | VDict d =>
      let source := str_or (val_or (vget "name" d) (vget "source" d)) in
      let target := str_or (vget "target" d) in
      if bool_decide (source = "") || bool_decide (target = "") then Raise ValueError
      else Ok (VDict [("source", VStr source); ("target", VStr target)])
  | _ => text secret
  end.
Definition secrets (spec : dict val) : res (list val) :=
  l ← iter_or (vget "secrets" spec); mapM_res secret_entry l.

(** [{str(k): str(v) for k, v in sorted(m.items())}] when [m] is not empty *)
Definition sorted_texts (v : val) : res val :=
  match v with
  | VDict d => Ok (VDict (map (λ '(k, v), (k, VStr (py_str v))) (sort_items d)))
  | _ => Raise AttributeError
  end.
Definition put_map (key name : string) (spec out : dict val) : res (dict val) :=
  if truthy (vget key spec) then m ← sorted_texts (vget key spec); Ok (dset name m out) else Ok out.

Definition service (spec : val) : res val :=
  match spec with
  | VDict d =>
      if existsb (λ k, bool_decide (strip (str_or (vget k d)) = "")) REQUIRED then Raise ValueError else
      if existsb (λ k, dhas k d) REFUSED then Raise ValueError else
      deploy ← deploy_block d;
      let out := [("image", VStr (py_str (vget "image" d))); ("deploy", deploy)] in
      out ← put "stop_grace_period" "stop_grace_period" text d out;
      networks ← text_list "networks" d;
      let out := put_if "networks" networks out in
      out ← put_map "environment" "environment" d out;
      ss ← secrets d;
      let out := put_if "secrets" (VList ss) out in
      volumes ← text_list "volumes" d;
      let out := put_if "volumes" volumes out in
      ps ← ports d;
      let out := put_if "ports" (VList ps) out in
      hosts ← text_list "extra_hosts" d;
      let out := put_if "extra_hosts" hosts out in
      out ← put_map "container_labels" "labels" d out;
      hc ← healthcheck d;
      let out := put_if "healthcheck" hc out in
      out ← put "command" "command" (λ v, VList <$> py_iter v) d out;
      out ← put "user" "user" text d out;
      Ok (VDict out)
  | _ => Raise ValueError
  end.

(** * The roster and the stack *)

Definition tier1_spec_upsert (existing spec : val) : res val :=
  n ← attr_get "name" (val_or spec (VDict []));
  let name := strip (str_or n) in
  if bool_decide (name = "") then Raise ValueError else
  l ← iter_or existing;
  kept ← mapM_res (λ s, n ← attr_get "name" s;
                        Ok (if bool_decide (str_or n = name) then [] else [s])) l;
  Ok (VList (concat kept ++ [spec]))%list.

Definition spec_name (spec : val) : string :=
  match spec with VDict d => strip (str_or (vget "name" d)) | _ => "" end.
Definition render_one (rendered : dict val) (spec : val) : res (dict val) :=
  let name := spec_name spec in
  if dhas name rendered then Raise ValueError else
  s ← service spec; Ok (dset name s rendered).

Definition secret_source (secret : val) : string :=
  match secret with VDict d => py_str (val_or (vget "name" d) (vget "source" d)) | _ => py_str secret end.
(** The named volume a mount names, if it is one. *)
Definition volume_source (vol : val) : list string :=
  let source := (partition ":" (py_str vol)).1.1 in
  if bool_decide (source = "") || startswith source "/" then [] else [source].

(** [spec.get(k) or []] of every service, each entry as the names it declares *)
Definition named (k : string) (f : val → list string) (services : list val) : res (list string) :=
  l ← mapM_res (λ spec, v ← attr_get k spec; l ← iter_or v; Ok (concat (map f l))) services;
  Ok (concat l).

Definition external (names : list string) : val :=
  VDict (map (λ n, (n, VDict [("external", VBool true)])) (sorted_str (remove_dups names))).

Definition tier1_stack_render (services : val) : res val :=
  match services with
  | VList ((_ :: _) as l) =>
      rendered ← foldM render_one [] l;
      networks ← named "networks" (λ n, [py_str n]) l;
      secrets ← named "secrets" (λ s, [secret_source s]) l;
      volumes ← named "volumes" volume_source l;
      let out := [("services", VDict rendered)] in
      let out := put_if "networks" (external networks) out in
      let out := put_if "volumes" (external volumes) out in
      let out := put_if "secrets" (external secrets) out in
      Ok (VDict out)
  | _ => Raise ValueError
  end.
