(* ===== verification/Tier1StackFacts.v ===== *)
(** What the rendered stack of [Tier1Stack] promises: whatever its services
    mention is declared, external, and nothing else is; and a roster built by
    upserts has one spec per name. *)
From S2P Require Import Prelude PyStr PyNum PyVal Json SwarmService Tier1Stack.

#[local] Open Scope string_scope.

(** * Lookups *)

Lemma put_dget key name f spec out out' k :
  put key name f spec out = Ok out' → k ≠ name → dget k out' = dget k out.
Proof.
  unfold put. destruct (dget key spec) as [v|]; [|by intros [= ->]].
  intros (x & _ & H)%res_bind_Ok Hk. injection H as <-. by apply dget_dset_ne.
Qed.
Lemma put_map_dget key name spec out out' k :
  put_map key name spec out = Ok out' → k ≠ name → dget k out' = dget k out.
Proof.
  unfold put_map. destruct (truthy _); [|by intros [= ->]].
  intros (x & _ & H)%res_bind_Ok Hk. injection H as <-. by apply dget_dset_ne.
Qed.
Lemma put_if_dget name x out k : k ≠ name → dget k (put_if name x out) = dget k out.
Proof. intros Hk. unfold put_if. destruct (truthy x); [by apply dget_dset_ne|done]. Qed.
Lemma put_if_eq name x out : dget name out = None → dget name (put_if name x out) = if truthy x then Some x else None.
Proof. intros H. unfold put_if. destruct (truthy x); [by apply dget_dset_eq|done]. Qed.

(** A list field of a service or of a stack. *)
Definition entries (k : string) (d : dict val) : list val := match vget k d with VList l => l | _ => [] end.

Lemma entries_put_if k l (d d' : dict val) :
  dget k d = dget k (put_if k (VList l) d') → dget k d' = None → entries k d = l.
Proof.
  intros H Hn. unfold entries, vget. rewrite H, put_if_eq by done. cbn. by destruct l.
Qed.

(** The names a rendered service mentions. *)
Definition secret_of (s : val) : string := match s with VDict e => str_or (vget "source" e) | _ => py_str s end.
Definition mentions (k : string) (d : dict val) : list string :=
  let l := entries k d in
  if bool_decide (k = "networks") then map py_str l
  else if bool_decide (k = "volumes") then concat (map volume_source l)
  else map secret_of l.

(** The names a spec declares under a key, as the renderer collects them. *)
Definition collected (k : string) (v : val) : list string :=
  if bool_decide (k = "networks") then [py_str v]
  else if bool_decide (k = "volumes") then volume_source v
  else [secret_source v].

Lemma concat_single {A B} (f : A → B) l : concat (map (λ x, [f x]) l) = map f l.
Proof. induction l as [|x l IH]; [done|]. cbn. by rewrite IH. Qed.

Lemma secret_entry_source v s : secret_entry v = Ok s → secret_of s = secret_source v.
Proof.
  unfold secret_entry, secret_of, secret_source, text. destruct v as [| | | | | |d]; try (by intros [= <-]).
  case_match eqn:Hb; [done|]. intros [= <-]. unfold vget at 1. cbn [dget]. rewrite bool_decide_true by done. cbn [from_option id].
  rewrite str_or_str. apply orb_false_iff in Hb as [Hb _]. apply bool_decide_eq_false in Hb.
  revert Hb. unfold str_or. by destruct (truthy _).
Qed.

Lemma mapM_res_map {A B C} (f : A → res B) (g : B → C) (h : A → C) l l' :
  (∀ x y, f x = Ok y → g y = h x) → mapM_res f l = Ok l' → map g l' = map h l.
Proof.
  intros Hf. revert l'. induction l as [|x l IH]; intros l' H; cbn [mapM_res] in H; [by injection H as <-|].
  apply res_bind_Ok in H as (y & Hy & H). apply res_bind_Ok in H as (ys & Hys & H). injection H as <-.
  cbn. by rewrite (Hf _ _ Hy), (IH _ Hys).
Qed.

(** A rendered service mentions what its spec declares. *)
Lemma service_mentions spec s k :
  service spec = Ok s → k ∈ ["networks"; "volumes"; "secrets"] →
  ∃ d v l, s = VDict d ∧ attr_get k spec = Ok v ∧ iter_or v = Ok l ∧ mentions k d = concat (map (collected k) l).
Proof.
  intros H Hk. unfold service in H. destruct spec as [| | | | | |sp]; try done.
  destruct (existsb _ REQUIRED); [done|]. destruct (existsb _ REFUSED); [done|].
  apply res_bind_Ok in H as (deploy & _ & H). cbv zeta in H.
  apply res_bind_Ok in H as (o1 & P1 & H). apply res_bind_Ok in H as (nets & Hnets & H).
  apply res_bind_Ok in H as (o2 & P2 & H). apply res_bind_Ok in H as (ss & Hss & H).
  apply res_bind_Ok in H as (vols & Hvols & H). apply res_bind_Ok in H as (ps & _ & H).
  apply res_bind_Ok in H as (hosts & _ & H). apply res_bind_Ok in H as (o3 & P3 & H).
  apply res_bind_Ok in H as (hc & _ & H). apply res_bind_Ok in H as (o4 & P4 & H).
  apply res_bind_Ok in H as (o5 & P5 & H). injection H as <-.
  unfold text_list, texts in Hnets, Hvols.
  apply res_bind_Ok in Hnets as (? & (ln & Hln & [= <-])%res_bind_Ok & [= <-]).
  apply res_bind_Ok in Hvols as (? & (lv & Hlv & [= <-])%res_bind_Ok & [= <-]).
  unfold secrets in Hss. apply res_bind_Ok in Hss as (ls & Hls & Hss).
  assert (Hout : ∀ k, k ∈ ["networks"; "volumes"; "secrets"] → dget k o5 = dget k (put_if "volumes" (VList (map VStr (map py_str lv)))
     (put_if "secrets" (VList ss) o2))).
  { intros k' Hk'. rewrite !elem_of_cons, elem_of_nil in Hk'.
    rewrite (put_dget _ _ _ _ _ _ _ P5), (put_dget _ _ _ _ _ _ _ P4) by (intros ->; naive_solver).
    rewrite put_if_dget, (put_map_dget _ _ _ _ _ _ P3), put_if_dget, put_if_dget by (intros ->; naive_solver). done. }
  assert (H2 : ∀ k, k ∈ ["networks"; "volumes"; "secrets"] →
     dget k o2 = dget k (put_if "networks" (VList (map VStr (map py_str ln))) o1)).
  { intros k' Hk'. rewrite !elem_of_cons, elem_of_nil in Hk'. rewrite (put_map_dget _ _ _ _ _ _ P2); [done|]. intros ->. naive_solver. }
  assert (H1 : ∀ k, k ∈ ["networks"; "volumes"; "secrets"] → dget k o1 = None).
  { intros k' Hk'. rewrite !elem_of_cons, elem_of_nil in Hk'. rewrite (put_dget _ _ _ _ _ _ _ P1) by (intros ->; naive_solver).
    cbn [dget]. rewrite !bool_decide_false; [done|..]; intros ->; naive_solver. }
  clear P1 P2 P3 P4 P5.
  assert (E : entries "networks" o5 = map VStr (map py_str ln) ∧ entries "volumes" o5 = map VStr (map py_str lv) ∧
              entries "secrets" o5 = ss).
  { split_and!.
    - apply (entries_put_if _ _ _ o1); [|apply H1; by left].
      rewrite Hout, !put_if_dget, H2 by (done || by left). done.
    - eapply entries_put_if; [apply Hout; right; by left|].
      rewrite put_if_dget, H2, put_if_dget, H1 by (done || (right; by left)). done.
    - apply (entries_put_if _ _ _ o2); [|rewrite H2, put_if_dget, H1 by (done || (right; right; by left)); done].
      rewrite Hout, put_if_dget by (done || (right; right; by left)). done. }
  destruct E as (En & Ev & Es). unfold attr_get, mentions, collected.
  rewrite !elem_of_cons, elem_of_nil in Hk. destruct Hk as [-> |[-> |[-> |[]]]]; eexists o5, _, _;
    (split; [done|]); (split; [done|]); (split; [eassumption|]).
  - rewrite !bool_decide_true by done. rewrite En, concat_single, !map_map. by apply map_ext.
  - rewrite bool_decide_false, bool_decide_true by done. rewrite Ev, !map_map. done.
  - rewrite !bool_decide_false by done. rewrite Es, concat_single. eapply mapM_res_map; [|exact Hss].
    apply secret_entry_source.
Qed.

(** * The whole stack *)

Lemma rendered_services acc l r :
  foldM render_one acc l = Ok r →
  (∀ name s, dget name r = Some s ↔ dget name acc = Some s ∨ (dget name acc = None ∧ ∃ spec, spec ∈ l ∧ spec_name spec = name ∧ service spec = Ok s)) ∧
  (∀ spec, spec ∈ l → dget (spec_name spec) acc = None ∧ ∃ s, service spec = Ok s ∧ dget (spec_name spec) r = Some s).
Proof.
  revert acc. induction l as [|x l IH]; intros acc H; cbn [foldM] in H.
  { injection H as <-. split; [|by intros ? ?%elem_of_nil]. intros name s. split; [by left|].
    intros [?|(_ & spec & Hs & _)]; [done|by apply elem_of_nil in Hs]. }
  apply res_bind_Ok in H as (acc1 & H1 & H). unfold render_one in H1. cbv zeta in H1.
  destruct (dhas (spec_name x) acc) eqn:Hh; [done|]. unfold dhas in Hh. apply bool_decide_eq_false in Hh.
  apply eq_None_not_Some in Hh. apply res_bind_Ok in H1 as (s & Hs & H1). injection H1 as <-.
  destruct (IH _ H) as [Hr Hl]. split.
  - intros name s0. rewrite Hr, !dget_dset. split.
    + intros [Hd|(Hn & spec & Hin & E1 & E2)]; case_decide; simplify_eq; [|by left|].
      * right. split; [done|]. exists x. split; [by left|done].
      * right. split; [done|]. exists spec. split; [by right|done].
    + intros [Hd|(Hn & spec & Hin & E1 & E2)].
      * left. rewrite decide_False; [done|]. intros ->. congruence.
      * apply elem_of_cons in Hin as [->|Hin]; [left; rewrite decide_True by done; congruence|].
        destruct (decide (name = spec_name x)) as [En|]; [|right; split; [done|by exists spec]].
        exfalso. destruct (Hl _ Hin) as [Hd _]. by rewrite E1, En, dget_dset_eq in Hd.
  - intros spec [->|Hin]%elem_of_cons.
    + split; [done|]. exists s. split; [done|]. apply Hr. left. apply dget_dset_eq.
    + destruct (Hl _ Hin) as [Hd Hs']. split; [|done]. rewrite dget_dset in Hd. by case_decide.
Qed.

Lemma named_collected k f l names :
  named k f l = Ok names →
  ∀ n, n ∈ names ↔ ∃ spec v es, spec ∈ l ∧ attr_get k spec = Ok v ∧ iter_or v = Ok es ∧ n ∈ concat (map f es).
Proof.
  unfold named. intros (ls & Hls & H)%res_bind_Ok n. injection H as <-. revert ls Hls.
  induction l as [|x l IH]; intros ls Hls; cbn [mapM_res] in Hls.
  { injection Hls as <-. split; [by intros ?%elem_of_nil|]. intros (?&?&?&H&_). by apply elem_of_nil in H. }
  apply res_bind_Ok in Hls as (y & Hy & Hls). apply res_bind_Ok in Hls as (ys & Hys & Hls). injection Hls as <-.
  apply res_bind_Ok in Hy as (v & Hv & Hy). apply res_bind_Ok in Hy as (es & Hes & Hy). injection Hy as <-.
  cbn [concat]. rewrite elem_of_app, (IH _ Hys). split.
  - intros [Hn|(spec & v' & es' & Hin & ?)]; [exists x, v, es; split_and!; [by left|done..]|].
    exists spec, v', es'. split; [by right|done].
  - intros (spec & v' & es' & [->|Hin]%elem_of_cons & Hv' & Hes' & Hn); [left; assert (v' = v) as -> by congruence; by assert (es' = es) as -> by congruence|].
    right. by exists spec, v', es'.
Qed.

Lemma dget_external n names :
  dget n (map (λ n, (n, VDict [("external", VBool true)])) names) = if decide (n ∈ names) then Some (VDict [("external", VBool true)]) else None.
Proof.
  induction names as [|m names IH]; cbn [map dget].
  - rewrite decide_False; [done|]. by apply not_elem_of_nil.
  - destruct (bool_decide_reflect (n = m)) as [->|Hn]; [rewrite decide_True; [done|by left]|]. rewrite IH.
    destruct (decide (n ∈ names)); [rewrite decide_True; [done|by right]|].
    rewrite decide_False; [done|]. by intros [?|?]%elem_of_cons.
Qed.

(** A name is declared, external, at the top level of the stack. *)
Definition declares (out : dict val) (k n : string) : Prop :=
  ∃ m, dget k out = Some (VDict m) ∧ dget n m = Some (VDict [("external", VBool true)]).

Lemma declares_put out k names n :
  dget k out = None → declares (put_if k (external names) out) k n ↔ n ∈ names.
Proof.
  intros Hk. unfold declares. rewrite put_if_eq by done. set (l := sorted_str (remove_dups names)).
  assert (Hl : n ∈ l ↔ n ∈ names) by (unfold l; by rewrite elem_of_sorted_str, elem_of_remove_dups).
  unfold external. fold l. rewrite <-Hl. clearbody l. split.
  - intros (m & Hm & Hn). destruct (truthy _); [|done]. injection Hm as <-. rewrite dget_external in Hn. by case_decide.
  - intros Hin. eexists. split; [|rewrite dget_external, decide_True by done; reflexivity]. by destruct l; [apply elem_of_nil in Hin|].
Qed.
Lemma declares_put_ne out k k' x n : k ≠ k' → declares (put_if k' x out) k n ↔ declares out k n.
Proof. intros Hk. unfold declares. by rewrite put_if_dget. Qed.

(** The stack declares what its services mention, and nothing else.
    Every network, named volume and secret a rendered service mentions is
    declared at the top level as external, so no service mounts a name docker
    would create; every name declared there is mentioned by a service; and
    the services are the specs', one each under its own name. *)
Theorem render_declares l out :
  tier1_stack_render (VList l) = Ok (VDict out) →
  ∃ rendered, dget "services" out = Some (VDict rendered) ∧
    (∀ name s, dget name rendered = Some s ↔ ∃ spec, spec ∈ l ∧ spec_name spec = name ∧ service spec = Ok s) ∧
    ∀ k n, k ∈ ["networks"; "volumes"; "secrets"] →
      declares out k n ↔ ∃ name d, dget name rendered = Some (VDict d) ∧ n ∈ mentions k d.
Proof.
  intros H. unfold tier1_stack_render in H. destruct l as [|x l']; [done|]. set (l := x :: l') in *.
  apply res_bind_Ok in H as (rendered & Hr & H). apply res_bind_Ok in H as (nets & Hn & H).
  apply res_bind_Ok in H as (secs & Hs & H). apply res_bind_Ok in H as (vols & Hv & H). injection H as <-.
  destruct (rendered_services _ _ _ Hr) as [Hserv Hall].
  assert (Hsvc : ∀ name s, dget name rendered = Some s ↔ ∃ spec, spec ∈ l ∧ spec_name spec = name ∧ service spec = Ok s).
  { intros name s. rewrite Hserv. cbn [dget]. split; [intros [Hx|[_ Hx]]; [discriminate Hx|exact Hx]|intros Hx; right; by split]. }
  exists rendered. split; [by rewrite !put_if_dget|]. split; [exact Hsvc|]. intros k n Hk.
  assert (Hment : (∃ spec v es, spec ∈ l ∧ attr_get k spec = Ok v ∧ iter_or v = Ok es ∧ n ∈ concat (map (collected k) es)) ↔
                  ∃ name d, dget name rendered = Some (VDict d) ∧ n ∈ mentions k d).
  { split.
    - intros (spec & v & es & Hin & Ha & He & Hc). destruct (Hall _ Hin) as (_ & s & Hsp & Hd).
      destruct (service_mentions _ _ k Hsp Hk) as (d & v' & es' & -> & Ha' & He' & Hm).
      assert (v' = v) as -> by congruence. assert (es' = es) as -> by congruence.
      exists (spec_name spec), d. by rewrite Hm.
    - intros (name & d & (spec & Hin & _ & Hsp)%Hsvc & Hm).
      destruct (service_mentions _ _ k Hsp Hk) as (d' & v & es & [= <-] & Ha & He & Hc). rewrite Hc in Hm.
      by exists spec, v, es. }
  rewrite <-Hment. clear Hment. rewrite !elem_of_cons, elem_of_nil in Hk. destruct Hk as [-> |[-> |[-> |[]]]].
  - rewrite !declares_put_ne, declares_put by done. exact (named_collected _ _ _ _ Hn n).
  - rewrite declares_put_ne, declares_put by (done || by rewrite !put_if_dget). exact (named_collected _ _ _ _ Hv n).
  - rewrite declares_put by by rewrite !put_if_dget. exact (named_collected _ _ _ _ Hs n).
Qed.

(** * The roster *)

(** A spec under a name of its own, with no space around it. *)
Definition plain_spec (s : val) : Prop :=
  ∃ d n, s = VDict d ∧ vget "name" d = VStr n ∧ strip n = n ∧ n ≠ "".
Definition roster_ok (l : list val) : Prop := Forall plain_spec l ∧ NoDup (map spec_name l).

Lemma plain_name s : plain_spec s → ∃ n, attr_get "name" s = Ok n ∧ str_or n = spec_name s ∧ strip (spec_name s) = spec_name s ∧ spec_name s ≠ "".
Proof.
  intros (d & n & -> & Hn & Hs & Hne). exists (VStr n). unfold attr_get, spec_name. rewrite Hn, str_or_str, Hs. by split_and!.
Qed.

(** What an upsert keeps of the entries before it. *)
Definition others (name : string) (l : list val) : list val := filter (λ s, spec_name s ≠ name) l.

Lemma upsert_kept name l :
  Forall plain_spec l →
  ∃ kept, mapM_res (λ s, n ← attr_get "name" s; Ok (if bool_decide (str_or n = name) then [] else [s])) l = Ok kept ∧
    concat kept = others name l.
Proof.
  induction 1 as [|s l Hs _ (kept & IH & Hc)]; [by exists []|].
  destruct (plain_name _ Hs) as (n & Hn & Hstr & _). cbn [mapM_res]. rewrite Hn. cbn [mbind res_bind].
  rewrite IH. cbn [mbind res_bind]. eexists. split; [done|]. unfold others in *. rewrite filter_cons. cbn [concat].
  rewrite Hc, Hstr. case_bool_decide; [rewrite decide_False by naive_solver|rewrite decide_True by done]; done.
Qed.

Lemma others_ok name l : roster_ok l → roster_ok (others name l) ∧ name ∉ map spec_name (others name l).
Proof.
  intros [Hp Hd]. unfold others. split; [split|].
  - apply Forall_forall. intros s [_ Hs]%list_elem_of_filter. rewrite Forall_forall in Hp. auto.
  - clear Hp. induction l as [|s l IH]; [constructor|]. cbn [map] in Hd. apply NoDup_cons in Hd as [Hs Hd].
    rewrite filter_cons. case_decide; [|by apply IH]. cbn [map]. apply NoDup_cons. split; [|by apply IH].
    intros Hin. apply Hs. apply list_elem_of_In, in_map_iff in Hin as (s' & E & Hin).
    apply list_elem_of_In, list_elem_of_filter in Hin as [_ Hin]. rewrite <-E. apply list_elem_of_In, in_map. by apply list_elem_of_In.
  - intros Hin. apply list_elem_of_In, in_map_iff in Hin as (s' & E & Hin).
    apply list_elem_of_In, list_elem_of_filter in Hin as [Hne _]. done.
Qed.

Lemma rendered_ok acc l :
  (∀ s, s ∈ l → dget (spec_name s) acc = None) → NoDup (map spec_name l) → Forall (λ s, is_ok (service s) = true) l →
  ∃ r, foldM render_one acc l = Ok r.
Proof.
  intros Hacc Hnd Hok. revert acc Hacc Hnd. induction Hok as [|s l Hs _ IH]; intros acc Hacc Hnd; [by exists acc|].
  cbn [map] in Hnd. apply NoDup_cons in Hnd as [Hn Hnd]. cbn [foldM].
  assert (Hf : dhas (spec_name s) acc = false).
  { unfold dhas. apply bool_decide_eq_false. rewrite Hacc by by left. by intros []. }
  assert (∃ x, service s = Ok x) as [x Hx] by (exists (get_ok _ Hs); apply get_ok_eq).
  assert (E : render_one acc s = Ok (dset (spec_name s) x acc)).
  { unfold render_one. cbv zeta. by rewrite Hf, Hx. }
  rewrite E. cbn [mbind res_bind]. apply IH; [|done].
  intros s' Hs'. rewrite dget_dset_ne; [apply Hacc; by right|]. intros En. apply Hn. rewrite <-En.
  apply list_elem_of_In, in_map. by apply list_elem_of_In.
Qed.

Lemma named_ok k f l :
  k ∈ ["networks"; "volumes"; "secrets"] → Forall (λ s, is_ok (service s) = true) l → ∃ names, named k f l = Ok names.
Proof.
  intros Hk Hok. unfold named.
  assert (H : ∃ ls, mapM_res (λ spec, v ← attr_get k spec; es ← iter_or v; Ok (concat (map f es))) l = Ok ls).
  { induction Hok as [|s l Hs _ (ls & IH)]; [by exists []|].
    destruct (service_mentions s (get_ok _ Hs) k (get_ok_eq _ Hs) Hk) as (d & v & es & _ & Ha & He & _).
    cbn [mapM_res]. rewrite Ha. cbn [mbind res_bind]. rewrite He. cbn [mbind res_bind]. rewrite IH. by eexists. }
  destruct H as [ls ->]. by eexists.
Qed.

(** The roster keeps one spec per name.  Upserting a named spec into
    a roster of specs under names of their own gives such a roster again: the
    spec is in it, in place of any of its name, with every other entry; and a
    roster so built always renders when each of its services does. *)
Theorem roster_upsert l spec :
  roster_ok l → plain_spec spec →
  ∃ l', tier1_spec_upsert (VList l) spec = Ok (VList l') ∧ roster_ok l' ∧
    (∀ s, s ∈ l' ↔ s = spec ∨ s ∈ l ∧ spec_name s ≠ spec_name spec) ∧
    (Forall (λ s, is_ok (service s) = true) l' → is_ok (tier1_stack_render (VList l')) = true).
Proof.
  intros Hl Hs. destruct (plain_name _ Hs) as (n & Hn & Hstr & Hstrip & Hne).
  destruct (upsert_kept (spec_name spec) l (proj1 Hl)) as (kept & Hk & Hc).
  destruct (others_ok (spec_name spec) l Hl) as [[Hp Hd] Hnot].
  exists (others (spec_name spec) l ++ [spec])%list.
  assert (Hok : roster_ok (others (spec_name spec) l ++ [spec])).
  { split; [apply Forall_app; split; [done|by apply Forall_singleton]|]. rewrite map_app. apply NoDup_app.
    split_and!; [done| |apply NoDup_singleton]. intros x Hx ->%list_elem_of_singleton. done. }
  split; [|split; [done|split]].
  - unfold tier1_spec_upsert. assert (val_or spec (VDict []) = spec) as ->.
    { destruct Hs as (d & m & -> & Hm & _). unfold val_or. destruct d; [by vm_compute in Hm|done]. }
    rewrite Hn. cbn [mbind res_bind]. rewrite Hstr, Hstrip, bool_decide_false by done.
    assert (iter_or (VList l) = Ok l) as -> by (unfold iter_or; by destruct l). cbn [mbind res_bind].
    rewrite Hk. cbn [mbind res_bind]. by rewrite Hc.
  - intros s. rewrite elem_of_app, list_elem_of_singleton. unfold others. rewrite list_elem_of_filter. naive_solver.
  - intros Hserv. assert (Hne' : (others (spec_name spec) l ++ [spec] ≠ [])%list) by (by destruct (others _ _)).
    generalize dependent (others (spec_name spec) l ++ [spec])%list. intros l' [_ Hnd] Hserv Hne'.
    unfold tier1_stack_render. destruct l' as [|s0 l']; [done|].
    destruct (rendered_ok [] (s0 :: l')) as [r ->]; [done..|]. cbn [mbind res_bind].
    destruct (named_ok "networks" (λ n, [py_str n]) _ ltac:(by left) Hserv) as [? ->].
    destruct (named_ok "secrets" (λ s, [secret_source s]) _ ltac:(right; right; by left) Hserv) as [? ->].
    by destruct (named_ok "volumes" volume_source _ ltac:(right; by left) Hserv) as [? ->].
Qed.

(** * A plane, run *)

Module Plane.
Definition traefik (image : string) : val := VDict
  [("name", VStr "catena-traefik"); ("image", VStr image); ("networks", VList [VStr "catena-network"; VStr "host"]);
   ("secrets", VList [VDict [("name", VStr "cf-0a1b2c3d"); ("target", VStr "CF_TOKEN")]]);
   ("volumes", VList [VStr "traefik-acme:/acme"; VStr "/var/run/docker.sock:/var/run/docker.sock:ro"])].
Definition postgres : val := VDict
  [("name", VStr "catena-postgres"); ("image", VStr "postgres:18"); ("limit_memory", VStr "512m");
   ("secrets", VList [VStr "pgpass"]); ("ports", VList [VDict [("target", VInt 5432); ("published", VStr "5432")]])].
Definition stack : dict val := Eval vm_compute in
  match tier1_stack_render (VList [traefik "traefik:3"; postgres]) with Ok (VDict d) => d | _ => [] end.
Lemma rendered : tier1_stack_render (VList [traefik "traefik:3"; postgres]) = Ok (VDict stack).
Proof. vm_compute. reflexivity. Qed.
Lemma traefik_plain image : plain_spec (traefik image).
Proof. eexists _, "catena-traefik". split_and!; reflexivity || discriminate. Qed.
Lemma postgres_plain : plain_spec postgres.
Proof. eexists _, "catena-postgres". split_and!; reflexivity || discriminate. Qed.
End Plane.

(** A name with a space around it is not the name its own entry is looked up
    under: upserting it twice keeps both entries, and the stack then refuses
    to render. *)
Example padded_name_twice :
  let spec := VDict [("name", VStr " x"); ("image", VStr "i:1")] in
  ∃ l, (r ← tier1_spec_upsert (VList []) spec; tier1_spec_upsert r spec) = Ok (VList l) ∧ length l = 2%nat ∧
    tier1_stack_render (VList l) = Raise ValueError ∧ is_ok (tier1_stack_render (VList [spec])) = true.
Proof. eexists. split; [vm_compute; reflexivity|]. by vm_compute. Qed.

Lemma render_declares_witness :
  ∃ rendered, dget "services" Plane.stack = Some (VDict rendered) ∧
    (declares Plane.stack "volumes" "traefik-acme" ↔
     ∃ name d, dget name rendered = Some (VDict d) ∧ "traefik-acme" ∈ mentions "volumes" d).
Proof.
  destruct (render_declares [Plane.traefik "traefik:3"; Plane.postgres] Plane.stack Plane.rendered)
    as (rendered & H1 & _ & H2).
  exists rendered. split; [exact H1|apply H2; right; by left].
Defined.

Lemma roster_upsert_witness :
  ∃ l', tier1_spec_upsert (VList [Plane.traefik "traefik:3"; Plane.postgres]) (Plane.traefik "traefik:4") = Ok (VList l') ∧
    roster_ok l'.
Proof.
  destruct (roster_upsert [Plane.traefik "traefik:3"; Plane.postgres] (Plane.traefik "traefik:4")) as (l' & H1 & H2 & _).
  - split; [repeat constructor; [apply Plane.traefik_plain|apply Plane.postgres_plain]|].
    apply (bool_decide_unpack _). reflexivity.
  - apply Plane.traefik_plain.
  - by exists l'.
Defined.
