(* ===== verification/Host.v ===== *)
(** A host's process as the scripts see it: its files, the commands that ran,
    the random bytes drawn and everything outside (other programs and what
    they reach, temporary names, refusals of the operating system), which only
    commands and file operations move.  A file's text is the one Python reads:
    decoded, its newlines translated. *)
From S2P Require Import Prelude PyStr PyNum PyVal Effects.

#[local] Open Scope string_scope.

Record file := { f_text : string; f_mode : Z }.
(** What a command printed is its text as the code reads it: decoded, its
    newlines translated where the pipe is a text one. *)
Record completed := { returncode : Z; stdout : string; stderr : string }.

(** How a run stops: a [SystemExit] with a text or with a code, or an exception. *)
Inductive fault :=
  | Exit (text : string)
  | Died (code : Z)
  | Raised (e : exn).

(** Commands see the environment and the files they are given; [mkstemp] names
    a file; [refuses] is whether the operating system refuses an operation on
    a path; [urandom_at] is the stream of [os.urandom]; [umask_mode] the mode
    of a file made with no mode of its own. *)
Class Outside (E : Type) := {
  run_cmd : list string → dict string → gmap string file → E → (exn + completed) * E;
  mkstemp : gmap string file → E → (exn + string) * E;
  refuses : string → E → bool * E;
  urandom_at : nat → ascii;
  umask_mode : Z
}.

Section host.
Context {E : Type} `{!Outside E}.

Record world := { files : gmap string file;
                  ran : list (list string * dict string * (exn + completed));
                  pos : nat; ext : E }.
Abbreviation M := (ST world fault).

Definition pure {A} (r : res A) : M A := lift Raised r.
Definition set_files (f : gmap string file → gmap string file) (w : world) : world :=
  {| files := f (files w); ran := ran w; pos := pos w; ext := ext w |}.

(** An operation on a path, which the operating system may refuse. *)
Definition op_on (path : string) : M unit := λ w,
  let '(no, e) := refuses path (ext w) in
  (if no then inl (Raised OSError) else inr tt,
   {| files := files w; ran := ran w; pos := pos w; ext := e |}).

Definition exists_path (path : string) : M bool := gets (λ w, bool_decide (is_Some (files w !! path))).

Definition read_text (path : string) : M string :=
  op_on path;; f ← gets (λ w, files w !! path);
  match f with Some f => mret (f_text f) | None => throw (Raised OSError) end.

(** Opening a file to write: created with [mode], or emptied. *)
Definition open_write (path : string) (mode : Z) : M unit :=
  op_on path;;
  modify (set_files (λ fs, <[path := {| f_text := "";
    f_mode := match fs !! path with Some f => f_mode f | None => mode end |}]> fs)).
Definition put_text (path text : string) : M unit :=
  op_on path;;
  modify (set_files (alter (λ f, {| f_text := text; f_mode := f_mode f |}) path)).
Definition chmod (path : string) (mode : Z) : M unit :=
  op_on path;; modify (set_files (alter (λ f, {| f_text := f_text f; f_mode := mode |}) path)).
Definition unlink (path : string) : M unit := op_on path;; modify (set_files (delete path)).
Definition replace_file (src dst : string) : M unit :=
  op_on src;;
  modify (set_files (λ fs, match fs !! src with Some f => <[dst := f]> (delete src fs) | None => fs end)).
Definition write_text (path text : string) : M unit := open_write path umask_mode;; put_text path text.

(** [try: c] / [finally: f] *)
Definition finally {A} (c : M A) (f : M unit) : M A := λ w,
  let '(r, w) := c w in
  match f w with (inl e, w) => (inl e, w) | (inr _, w) => (r, w) end.

(** An environment of strings with no NUL in them, as [subprocess] asks. *)
Definition env_string (kv : string * val) : res (string * string) :=
  match kv.2 with
  | VStr s => if has_char "000" s then Raise ValueError else Ok (kv.1, s)
  | _ => Raise TypeError
  end.

Definition spawn (argv : list string) (env : dict string) : M completed := λ w,
  let '(r, e) := run_cmd argv env (files w) (ext w) in
  (match r with inl x => inl (Raised x) | inr c => inr c end,
   {| files := files w; ran := (ran w ++ [(argv, env, r)])%list; pos := pos w; ext := e |}).
Definition run (argv : list string) (env : dict val) : M completed :=
  env ← pure (mapM_res env_string env); spawn argv env.
(** [mkstemp]: a new file of its owner's. *)
Definition make_temp : M string := λ w,
  let '(r, e) := mkstemp (files w) (ext w) in
  match r with
  | inl x => (inl (Raised x), {| files := files w; ran := ran w; pos := pos w; ext := e |})
  | inr name => (inr name, {| files := <[name := {| f_text := ""; f_mode := 384 |}]> (files w);
                              ran := ran w; pos := pos w; ext := e |})
  end.

Lemma op_on_inv path w u w' : op_on path w = (inr u, w') → files w' = files w ∧ ran w' = ran w.
Proof. unfold op_on. destruct (refuses path (ext w)) as [[] e]; intros H; simplify_eq; done. Qed.
Lemma read_text_inv path w text w' : read_text path w = (inr text, w') →
  ∃ f, files w !! path = Some f ∧ text = f_text f ∧ files w' = files w ∧ ran w' = ran w.
Proof.
  intros (u & w1 & [Hf Hr]%op_on_inv & H)%bind_ok. apply bind_ok in H as (o & w2 & Hg & H).
  apply pair_equal_spec in Hg as [[= <-] <-]. rewrite <-Hf, <-Hr. destruct (files w1 !! path) as [f|]; [|done].
  apply ret_ok in H as [-> ->]. by exists f.
Qed.
Lemma spawn_inv argv env w c w' : spawn argv env w = (inr c, w') →
  files w' = files w ∧ ran w' = (ran w ++ [(argv, env, inr c)])%list.
Proof. unfold spawn. destruct (run_cmd _ _ _ _) as [[x|c'] e]; intros H; simplify_eq; done. Qed.
End host.
