(* ===== verification/ResticKey.v ===== *)
(** [ansible/scripts/catena-restic-key.py]: the one writer of the backup
    password and the one creator of a restic repository.  It runs
    on [Host]'s world. *)
From S2P Require Import Prelude PyStr PyNum PyVal Json Encoding Effects Host OnboxConfig.

#[local] Open Scope string_scope.

(** What the process is started with. *)
Record settings := { environ : dict string; store_path : string; pass_file : string; held_file : string }.

Definition PW : string := "backup_restic_password".

Section engine.
Context {E : Type} `{!Outside E}.
Abbreviation M := (ST (@world E) fault).

Definition urandom_b64 : M string := λ w,
  let '(b, p) := urandom urandom_at 48 (pos w) in
  (inr (b64encode b), {| files := files w; ran := ran w; pos := p; ext := ext w |}).

Context (cfg : settings).

(** * The store, the temporary password files and the hold *)

(** [_load_store] *)
Definition load_store : M store :=
  there ← exists_path (store_path cfg);
  if negb (there : bool) then mret {| secrets := []; config := [] |} else
  text ← read_text (store_path cfg);
  raw ← pure (loads text);
  match raw with
  | VDict raw =>
      s ← pure (section_of "secrets" raw);
      c ← pure (section_of "config" raw);
      mret {| secrets := s; config := c |}
  | _ => throw (Raised AttributeError)
  end.

(** [d.get(k, "")] *)
Definition get_or_empty (k : string) (d : dict val) : val := default (VStr "") (dget k d).

Definition restic_env (st : store) : dict val :=
  dset "AWS_SECRET_ACCESS_KEY" (get_or_empty "backup_s3_secret_key" (secrets st))
    (dset "AWS_ACCESS_KEY_ID" (get_or_empty "backup_s3_access_key" (secrets st))
      (dset "RESTIC_REPOSITORY" (get_or_empty "BACKUP_RESTIC_REPO" (config st))
        (map (λ '(k, s), (k, VStr s)) (environ cfg)))).

Definition write_secret_file (value : val) : M string :=
  name ← make_temp;
  text ← pure (as_str_r value);
  put_text name (text +:+ String nl "");;
  chmod name 384;;
  mret name.

Definition NO_REPOSITORY : Z := 10.
Definition WRONG_PASSWORD : Z := 12.

Definition cat_config (env : dict val) (password : val) : M Z :=
  pf ← write_secret_file password;
  finally (r ← run ["restic"; "cat"; "config"; "--no-lock"] (dset "RESTIC_PASSWORD_FILE" (VStr pf) env);
           mret (returncode r))
          (unlink pf).

Definition opens (env : dict val) (password : val) : M bool :=
  rc ← cat_config env password; mret (bool_decide (rc = 0%Z)).

(** [_save_store]: the document the sections are written into, and the file
    replaced; a file that holds no object is a [TypeError]. *)
Definition store_doc : M val :=
  there ← exists_path (store_path cfg);
  if (there : bool) then text ← read_text (store_path cfg); pure (loads text) else mret (VDict []).
Definition save_store (st : store) : M unit :=
  let p := store_path cfg in
  doc ← store_doc;
  match doc with
  | VDict doc =>
      open_write (p +:+ ".tmp") 384;;
      put_text (p +:+ ".tmp") (dump_text st doc);;
      replace_file (p +:+ ".tmp") p;;
      chmod p 384
  | _ => throw (Raised TypeError)
  end.

(** [_held]: [None] while the backups do not wait. *)
Definition held : M (option (dict val)) :=
  there ← exists_path (held_file cfg);
  if negb (there : bool) then mret None else
  catch (text ← read_text (held_file cfg); raw ← pure (loads text); mret (Some (default [] (as_dict raw))))
        (λ e, match e with
              | Raised OSError | Raised ValueError => mret (Some [])
              | _ => throw e
              end).

(** * Locations *)

Definition strip_scheme (acc : string * string) (prefix : string) : string * string :=
  let '(scheme, rest) := acc in
  if startswith rest (prefix +:+ "://")
  then (prefix, String.substring (String.length prefix + 3) (String.length rest) rest) else acc.

(** [_location] of a text. *)
Definition location_of (repo : string) : option (string * string * string) :=
  if negb (startswith repo "s3:") then None else
  let '(scheme, rest) :=
    foldl strip_scheme ("https", String.substring 3 (String.length repo) repo) ["http"; "https"] in
  let '(host, _, path) := partition "/" rest in
  let path := strip_char "/" path in
  if bool_decide (host = "") || bool_decide (path = "") then None else Some (scheme, host, path).

Definition location (repo : val) : res (option (string * string * string)) :=
  match repo with VStr s => Ok (location_of s) | _ => Raise AttributeError end.

Definition rclone_location (env : dict val) : res (option (dict val * string)) :=
  repo ← getitem "RESTIC_REPOSITORY" env;
  loc ← location repo;
  match loc with
  | None => Ok None
  | Some (scheme, host, path) =>
      ak ← getitem "AWS_ACCESS_KEY_ID" env;
      sk ← getitem "AWS_SECRET_ACCESS_KEY" env;
      Ok (Some (dupdate env [
        ("RCLONE_CONFIG_DEST_TYPE", VStr "s3");
        ("RCLONE_CONFIG_DEST_PROVIDER", VStr "Other");
        ("RCLONE_CONFIG_DEST_ENDPOINT", VStr (scheme +:+ "://" +:+ host));
        ("RCLONE_CONFIG_DEST_ACCESS_KEY_ID", ak);
        ("RCLONE_CONFIG_DEST_SECRET_ACCESS_KEY", sk)], "dest:" +:+ path))
  end.

Definition RCLONE_DIR_NOT_FOUND : Z := 3.

(** Its first entry answers; else the exit code does. *)
Definition first_line (s : string) : string := (partition nl s).1.1.
Definition location_holds_anything (env : dict val) : M (option bool) :=
  loc ← pure (rclone_location env);
  match loc with
  | None => mret None
  | Some (renv, path) =>
      r ← run ["rclone"; "lsf"; path] renv;
      mret (if negb (bool_decide (strip (first_line (stdout r)) = "")) then Some true
            else if bool_decide (returncode r = 0%Z) || bool_decide (returncode r = RCLONE_DIR_NOT_FOUND)
            then Some false else None)
  end.

(** * The operations *)

Definition failed (text : string) : dict val := [("ok", VBool false); ("error", VStr text)].
Definition with_password (p : val) (st : store) : store := with_secrets (dset PW p (secrets st)) st.

Definition write_pass_file (new : string) : M unit :=
  write_text (pass_file cfg) (new +:+ String nl "");; chmod (pass_file cfg) 384.

Definition set_password (st : store) (new : string) : M (dict val) :=
  let current := get_or_empty PW (secrets st) in
  if negb (truthy current) then mret (failed "no current restic password on-box to re-key from") else
  let env := restic_env st in
  repo ← pure (getitem "RESTIC_REPOSITORY" env);
  if negb (truthy repo) then mret (failed "backup repo not configured") else
  cur_pf ← write_secret_file current;
  new_pf ← write_secret_file (VStr new);
  r ← finally (run ["restic"; "key"; "passwd"; "--new-password-file"; new_pf]
                   (dset "RESTIC_PASSWORD_FILE" (VStr cur_pf) env))
              (unlink cur_pf;; unlink new_pf);
  if negb (bool_decide (returncode r = 0%Z))
  then mret (failed ("restic key passwd failed: " +:+ String.substring 0 200 (stderr r))) else
  save_store (with_password (VStr new) st);;
  write_pass_file new;;
  mret [("ok", VBool true)].

Definition generated (new : string) : dict val := [("ok", VBool true); ("password", VStr new)].

(** A first password, or one for a destination of its own. *)
Definition mint_and_keep (st : store) (replace : bool) : M (dict val) :=
  new ← urandom_b64;
  let env := restic_env st in
  repo ← pure (getitem "RESTIC_REPOSITORY" env);
  refusal ← (if truthy repo then
               rc ← cat_config env (VStr new);
               mret (if bool_decide (rc = WRONG_PASSWORD) then
                       Some "the repository already holds backups encrypted under another password. Restore this server from it on the Restore page, or point Settings at an empty repository"
                     else if negb (bool_decide (rc = NO_REPOSITORY)) then
                       Some ("could not read the repository (restic exit " +:+ str_of_int rc +:+ "); check its address and keys")
                     else None)
             else mret None);
  match refusal with
  | Some text => mret (failed text)
  | None =>
      save_store (with_password (VStr new) st);;
      (if replace then write_pass_file new else mret tt);;
      mret (generated new)
  end.

(** The adopted destination's repository, re-keyed. *)
Definition rekey_fresh (st : store) (hold : dict val) : M (dict val) :=
  if negb (py_eq (vget "choice" hold) (VStr "fresh"))
  then mret (failed "the backup destination is the one the restore brought back; a new password is made for a new destination, or when the Restore page's choice is a fresh repository")
  else
  new ← urandom_b64;
  result ← set_password st new;
  mret (if truthy (vget "ok" result) then generated new else result).

Definition cmd_generate (st : store) (replace : bool) : M (dict val) :=
  if truthy (vget PW (secrets st)) then
    if negb replace then mret (failed "a backup encryption password already exists; validate or rotate it instead") else
    hold ← held;
    match hold with
    | None => mret (failed "a new backup encryption password replaces the stored one only while the backups wait after a restore; rotate it instead")
    | Some hold =>
        here ← pure (location (get_or_empty "BACKUP_RESTIC_REPO" (config st)));
        match here with
        | None => mret (failed "the backup destination is not a repository address; save one in Settings")
        | Some here =>
            if bool_decide (Some here = location_of (str_or (vget "settings" hold)))
            then rekey_fresh st hold
            else mint_and_keep st replace
        end
    end
  else mint_and_keep st replace.

Definition create (env : dict val) (password : val) : M (dict val) :=
  pf ← write_secret_file password;
  r ← finally (run ["restic"; "init"] (dset "RESTIC_PASSWORD_FILE" (VStr pf) env)) (unlink pf);
  if negb (bool_decide (returncode r = 0%Z))
  then mret (failed ("restic init failed: " +:+ String.substring 0 200 (stderr r)))
  else mret [("ok", VBool true); ("repository", VStr "created")].

Definition cmd_init (st : store) : M (dict val) :=
  let env := restic_env st in
  let password := get_or_empty PW (secrets st) in
  repo ← pure (getitem "RESTIC_REPOSITORY" env);
  ak ← pure (getitem "AWS_ACCESS_KEY_ID" env);
  sk ← pure (getitem "AWS_SECRET_ACCESS_KEY" env);
  if negb (truthy repo && truthy ak && truthy sk) then mret (failed "no backup destination is saved") else
  if negb (truthy password)
  then mret (failed "no backup encryption password is stored yet; generate it on the Settings page") else
  rc ← cat_config env password;
  if bool_decide (rc = 0%Z) then mret [("ok", VBool true); ("repository", VStr "exists")] else
  if bool_decide (rc = WRONG_PASSWORD)
  then mret (failed "the destination holds a repository encrypted under another password. Restore this server from it on the Restore page, or point Settings at an empty bucket") else
  if negb (bool_decide (rc = NO_REPOSITORY))
  then mret (failed ("could not read the destination (restic exit " +:+ str_of_int rc +:+ "); check its address and keys")) else
  holds ← location_holds_anything env;
  match holds with
  | None => mret (failed "could not list the destination, so nothing was created there; check its address and keys")
  | Some true => mret (failed "the destination holds files that are not a restic repository. Point Settings at an empty bucket, or at a prefix nothing else uses")
  | Some false => create env password
  end.

Definition cmd_validate (st : store) (req : dict val) : M (dict val) :=
  let password := str_or (vget "password" req) in
  if bool_decide (password = "") then mret (failed "no password supplied") else
  if negb (truthy (vget "BACKUP_RESTIC_REPO" (config st))) then mret (failed "backup repo not configured") else
  ok ← opens (restic_env st) (VStr password);
  mret [("ok", VBool ok)].

Definition cmd_rotate (st : store) (req : dict val) : M (dict val) :=
  hold ← held;
  match hold with
  | Some _ => mret (failed "the backups wait after a restore of this server, and nothing is written to the repository until the destination is confirmed, or a new one saved, in Settings")
  | None =>
      let new := str_or (vget "new_password" req) in
      if bool_decide (new = "") then mret (failed "no new password supplied") else set_password st new
  end.

(** [main]: the text printed and the exit code. *)
Definition operation (req : dict val) : M (dict val) :=
  st ← load_store;
  let op := vget "op" req in
  if py_eq op (VStr "generate") then cmd_generate st (bool_decide (vget "replace" req = VBool true))
  else if py_eq op (VStr "validate") then cmd_validate st req
  else if py_eq op (VStr "rotate") then cmd_rotate st req
  else if py_eq op (VStr "init") then cmd_init st
  else throw (Exit ("unknown op " +:+ py_repr op)).

Definition main (stdin : string) : M (string * Z) :=
  raw ← pure (loads (if bool_decide (stdin = "") then "{}" else stdin));
  match raw with
  | VDict req =>
      result ← operation req;
      mret (dumps default_style (VDict result), if truthy (vget "ok" result) then 0%Z else 1%Z)
  | _ => throw (Exit "expected a JSON object on stdin")
  end.
End engine.
