(* ===== verification/ResticKeyFacts.v ===== *)
(** What the backup password's engine of [ResticKey] promises: a success means
    the stored password opens the repository, a stored password is replaced
    only by a rotation or while the backups wait, and a repository is created
    only at a location found empty. *)
From S2P Require Import Prelude PyStr PyNum PyVal Json JsonFacts Encoding Effects Host OnboxConfig OnboxConfigFacts ResticKey.

#[local] Open Scope string_scope.

Section facts.
Context {E : Type} `{!Outside E} (cfg : settings).
Abbreviation W := (@world E).
Implicit Types (w : W).

(** The files of the engine, which no temporary name is. *)
Definition protected : list string :=
  [store_path cfg; store_path cfg +:+ ".tmp"; pass_file cfg; held_file cfg].

Definition INIT : list string := ["restic"; "init"].
Definition CAT : list string := ["restic"; "cat"; "config"; "--no-lock"].
Definition PASSWD (new_pf : string) : list string := ["restic"; "key"; "passwd"; "--new-password-file"; new_pf].

(** [mkstemp] makes a file that was not there. *)
Class Temps : Prop := temp_fresh fs e name e' :
  mkstemp fs e = (inr name, e') → fs !! name = None ∧ name ∉ protected.

(** The text of a file. *)
Definition text_of w (p : string) : option string := f_text <$> files w !! p.

(** The two commands that only ask. *)
Definition question (argv : list string) : Prop := argv = CAT ∨ ∃ path, argv = ["rclone"; "lsf"; path].

(** A relation on what is outside that refusals, temporary names and questions
    keep. *)
Context (K : relation E) `{!PreOrder K}.
Class Keeps : Prop := {
  keeps_refuses p e : K e (refuses p e).2;
  keeps_mkstemp fs e : K e (mkstemp fs e).2;
  keeps_question argv env fs e : question argv → K e (run_cmd argv env fs e).2
}.
Context {keeps : Keeps}.

(** Nothing of the engine's files moves and nothing runs; or only questions. *)
Definition silent w w' : Prop :=
  (∀ p, p ∈ protected → files w' !! p = files w !! p) ∧ ran w' = ran w ∧ K (ext w) (ext w').
Definition calm w w' : Prop :=
  (∀ p, p ∈ protected → files w' !! p = files w !! p) ∧
  extends ran (λ q, question q.1.1) w w' ∧ K (ext w) (ext w').

#[export] Instance silent_preorder : PreOrder silent.
Proof.
  split; [by intros w; split_and!|]. intros w1 w2 w3 (F1 & L1 & K1) (F2 & L2 & K2).
  split_and!; [|congruence|by etrans]. intros p Hp. by rewrite F2, F1.
Qed.
#[export] Instance calm_preorder : PreOrder calm.
Proof.
  split; [by intros w; split_and!|]. intros w1 w2 w3 (F1 & L1 & K1) (F2 & L2 & K2).
  split_and!; [|by etrans|by etrans]. intros p Hp. by rewrite F2, F1.
Qed.
Lemma silent_calm w w' : silent w w' → calm w w'.
Proof. intros (? & Hl & ?). split_and!; [done| |done]. exists []. by rewrite app_nil_r. Qed.
Lemma calm_of {A} (c : ST W fault A) : runs_in silent c → runs_in calm c.
Proof. intros Hc w r w' H. by eapply silent_calm, Hc. Qed.

Lemma op_on_silent p : runs_in silent (op_on p).
Proof.
  intros w r w' H. unfold op_on in H. pose proof (keeps_refuses p (ext w)) as Hk.
  destruct (refuses p (ext w)) as [no e]. by simplify_eq.
Qed.
Lemma spawn_calm argv env : question argv → runs_in calm (spawn argv env).
Proof.
  intros Hq w r w' H. unfold spawn in H. pose proof (keeps_question argv env (files w) (ext w) Hq) as Hk.
  destruct (run_cmd argv env (files w) (ext w)) as [o e]. simplify_eq.
  split_and!; [done| |done]. eexists. split; [done|]. by apply Forall_singleton.
Qed.
Lemma finally_in {A} R `{!PreOrder R} (c : ST W fault A) f :
  runs_in R c → runs_in R f → runs_in R (finally c f).
Proof.
  intros Hc Hf w r w' H. unfold finally in H. destruct (c w) as [r1 w1] eqn:Ec.
  destruct (f w1) as [[e|u] w2] eqn:Ef; simplify_eq; (etrans; [by eapply Hc|by eapply Hf]).
Qed.
Lemma finally_ok {A} (c : ST W fault A) f w a w' :
  finally c f w = (inr a, w') → ∃ w1, c w = (inr a, w1) ∧ f w1 = (inr tt, w').
Proof.
  unfold finally. destruct (c w) as [r1 w1]. destruct (f w1) as [[e|[]] w2] eqn:Ef; intros; simplify_eq. eauto.
Qed.

(** * Temporary password files *)

Context {temps : Temps}.

Lemma pure_silent {A} (r : res A) : runs_in silent (pure r).
Proof. unfold pure. apply runs_lift; apply _. Qed.
Lemma exists_silent p : runs_in silent (exists_path p).
Proof. unfold exists_path. apply runs_gets; apply _. Qed.
Lemma read_text_silent p : runs_in silent (read_text p).
Proof.
  unfold read_text. apply runs_bind; [apply _|apply op_on_silent|intros _].
  apply runs_bind; [apply _|apply runs_gets; apply _|intros [f|]]; [apply runs_ret|apply runs_throw]; apply _.
Qed.
Lemma modify_silent p f : p ∉ protected → (∀ fs q, q ≠ p → f fs !! q = fs !! q) → runs_in silent (op_on p;; modify (set_files f)).
Proof.
  intros Hp Hf. apply runs_bind; [apply _|apply op_on_silent|intros _]. apply runs_modify. intros w.
  split_and!; [|done|done]. intros q Hq. apply Hf. by intros ->.
Qed.
Lemma put_text_silent p text : p ∉ protected → runs_in silent (put_text p text).
Proof. intros Hp. apply modify_silent; [done|]. intros fs q Hq. by apply lookup_alter_ne. Qed.
Lemma chmod_silent p mode : p ∉ protected → runs_in silent (chmod p mode).
Proof. intros Hp. apply modify_silent; [done|]. intros fs q Hq. by apply lookup_alter_ne. Qed.
Lemma unlink_silent p : p ∉ protected → runs_in silent (unlink p).
Proof. intros Hp. apply modify_silent; [done|]. intros fs q Hq. by apply lookup_delete_ne. Qed.

Lemma make_temp_run w r w' : make_temp w = (r, w') →
  silent w w' ∧ (∀ name, r = inr name →
    (name ∉ protected) ∧ files w !! name = None ∧ files w' = <[name := {| f_text := ""; f_mode := 384 |}]> (files w)).
Proof.
  unfold make_temp. pose proof (keeps_mkstemp (files w) (ext w)) as Hk.
  destruct (mkstemp (files w) (ext w)) as [[x|name] e] eqn:Em; intros H; simplify_eq.
  - split; [|done]. done.
  - apply temp_fresh in Em as [Hn Hp]. split; [|by intros ? [= <-]].
    split_and!; [|done|done].
    intros p Hin. apply lookup_insert_ne. by intros ->.
Qed.

Lemma write_secret_silent v : runs_in silent (write_secret_file v).
Proof.
  unfold write_secret_file. intros w r w' [(e & H & _)|(name & w1 & H1 & H)]%bind_inv.
  - by apply make_temp_run in H as [? _].
  - apply make_temp_run in H1 as [Hc Hn]. destruct (Hn _ eq_refl) as (Hp & _ & _). etrans; [done|].
    revert H. apply runs_bind; [apply _|apply pure_silent|intros text].
    apply runs_bind; [apply _|by apply put_text_silent|intros _].
    apply runs_bind; [apply _|by apply chmod_silent|intros _]. apply runs_ret; apply _.
Qed.

(** What a temporary password file holds. *)
Lemma write_secret_ok v w name w' : write_secret_file v w = (inr name, w') →
  ∃ s, v = VStr s ∧ (name ∉ protected) ∧ files w !! name = None ∧ text_of w' name = Some (s +:+ String nl "") ∧
  (∀ p, p ≠ name → files w' !! p = files w !! p).
Proof.
  unfold write_secret_file. intros (n & w1 & H1 & H)%bind_ok. apply make_temp_run in H1 as [_ Hn].
  destruct (Hn _ eq_refl) as (Hp & Hfresh & Hf).
  apply bind_ok in H as (s & w2 & Hs & H). apply lift_ok in Hs as [Hs ->].
  destruct v; try done. injection Hs as ->.
  apply bind_ok in H as ([] & w3 & H3 & H). apply bind_ok in H as ([] & w4 & H4 & H). apply ret_ok in H as [<- <-].
  apply bind_ok in H3 as ([] & w5 & H5 & H3). apply bind_ok in H4 as ([] & w6 & H6 & H4).
  unfold op_on in H5, H6. destruct (refuses name (ext w1)) as [[] e1]; simplify_eq.
  unfold modify in H3, H4. simplify_eq. destruct (refuses name _) as [[] e2]; simplify_eq.
  exists s. split_and!; [done..| |]; unfold text_of; cbn; rewrite Hf.
  - by rewrite !lookup_alter, lookup_insert, !decide_True by done.
  - intros p Hne. by rewrite !lookup_alter_ne, lookup_insert_ne by done.
Qed.

(** * Commands that read a password file *)

(** [argv] ran under [env] and the password, and this is what it came to. *)
Definition ran_with (argv : list string) (env : dict val) (password : string) (c : completed) w w' : Prop :=
  ∃ pf envs fs e e',
    mapM_res env_string (dset "RESTIC_PASSWORD_FILE" (VStr pf) env) = Ok envs ∧
    f_text <$> fs !! pf = Some (password +:+ String nl "") ∧
    run_cmd argv envs fs e = (inr c, e') ∧ K (ext w) e ∧ K e' (ext w') ∧
    ran w' = (ran w ++ [(argv, envs, inr c)])%list.

Lemma run_completed argv env w c w' : run argv env w = (inr c, w') →
  ∃ envs e', mapM_res env_string env = Ok envs ∧ run_cmd argv envs (files w) (ext w) = (inr c, e') ∧
    w' = {| files := files w; ran := (ran w ++ [(argv, envs, inr c)])%list; pos := pos w; ext := e' |}.
Proof.
  unfold run. intros (envs & w1 & H1 & H)%bind_ok. apply lift_ok in H1 as [He ->].
  unfold spawn in H. destruct (run_cmd argv envs (files w) (ext w)) as [[x|c'] e'] eqn:Er; simplify_eq. eauto 10.
Qed.
Lemma run_calm argv env : question argv → runs_in calm (run argv env).
Proof. intros Hq. unfold run. apply runs_bind; [apply _|apply calm_of, pure_silent|intros envs]. by apply spawn_calm. Qed.

(** A command over a password file made for it, and removed after it. *)
Definition with_password_file (argv : list string) (env : dict val) (password : val) : ST W fault completed :=
  pf ← write_secret_file password;
  finally (run argv (dset "RESTIC_PASSWORD_FILE" (VStr pf) env)) (unlink pf).

Lemma with_password_file_ok argv env password w c w' :
  with_password_file argv env password w = (inr c, w') →
  ∃ s, password = VStr s ∧ ran_with argv env s c w w' ∧ ∀ p, p ∈ protected → files w' !! p = files w !! p.
Proof.
  unfold with_password_file. intros (pf & w1 & H1 & H)%bind_ok.
  pose proof (write_secret_silent _ _ _ _ H1) as (F1 & L1 & K1).
  apply write_secret_ok in H1 as (s & -> & Hp & _ & Hf & _). exists s. split; [done|].
  apply finally_ok in H as (w2 & H2 & H). pose proof (unlink_silent pf Hp _ _ _ H) as (F3 & L3 & K3).
  apply run_completed in H2 as (envs & e' & He & Hr & ->). split.
  - exists pf, envs, (files w1), (ext w1), e'. split_and!; try done. by rewrite L3, <-L1.
  - intros p Hin. by rewrite F3, <-F1.
Qed.

Lemma cat_config_ok env password w rc w' : cat_config env password w = (inr rc, w') →
  ∃ c, with_password_file CAT env password w = (inr c, w') ∧ rc = returncode c.
Proof.
  unfold cat_config, with_password_file. intros (pf & w1 & H1 & H)%bind_ok.
  apply finally_ok in H as (w2 & H2 & H). apply bind_ok in H2 as (c & w3 & H2 & H3).
  apply ret_ok in H3 as [-> ->]. exists c. split; [|done]. rewrite (bind_run _ _ _ _ _ H1).
  unfold finally. fold CAT in H2. by rewrite H2, H.
Qed.
Lemma with_pf_in {A} (c : string → ST W fault A) password :
  (∀ pf, runs_in calm (c pf)) → runs_in calm (pf ← write_secret_file password; finally (c pf) (unlink pf)).
Proof.
  intros Hc w r w' [(e & H & _)|(pf & w1 & H1 & H)]%bind_inv;
    [by eapply silent_calm, write_secret_silent|].
  etrans; [by eapply silent_calm, write_secret_silent|].
  apply write_secret_ok in H1 as (s & _ & Hp & _). revert H.
  apply finally_in; [apply _|apply Hc|by apply calm_of, unlink_silent].
Qed.
Lemma cat_config_calm env password : runs_in calm (cat_config env password).
Proof.
  unfold cat_config. apply with_pf_in. intros pf. apply runs_bind; [apply _|apply run_calm; by left|].
  intros c. apply runs_ret; apply _.
Qed.

(** * Writing the store and the pass file *)

(** One operation on a file happens or is refused. *)
Lemma op_modify_run p f w r w' : (op_on p;; modify (set_files f)) w = (r, w') →
  ran w' = ran w ∧ K (ext w) (ext w') ∧
  (r = inl (Raised OSError) ∧ files w' = files w ∨ r = inr tt ∧ files w' = f (files w)).
Proof.
  pose proof (keeps_refuses p (ext w)) as Hk. unfold mbind, ST_bind, op_on.
  destruct (refuses p (ext w)) as [[] e]; intros H; simplify_eq; cbn; auto.
  unfold modify in H. simplify_eq. cbn. auto.
Qed.

(** Only the store and the file it is written in move. *)
Definition saving w w' : Prop :=
  ran w' = ran w ∧ K (ext w) (ext w') ∧
  ∀ p, p ∈ protected → p ≠ store_path cfg → p ≠ store_path cfg +:+ ".tmp" → files w' !! p = files w !! p.
#[local] Instance saving_preorder : PreOrder saving.
Proof.
  split; [by intros w; split_and!|]. intros w1 w2 w3 (L1 & K1 & F1) (L2 & K2 & F2).
  split_and!; [congruence|by etrans|]. intros p Hp H1 H2. by rewrite F2, F1.
Qed.

Lemma tmp_suffix_ne p : p +:+ ".tmp" ≠ p.
Proof. intros H%(f_equal String.length). rewrite length_sapp in H. cbn in H. lia. Qed.

Lemma read_text_ok p w s w' : read_text p w = (inr s, w') → silent w w' ∧ text_of w p = Some s.
Proof.
  intros H. split; [by eapply read_text_silent|]. unfold read_text in H.
  apply bind_ok in H as ([] & w1 & H1 & H). apply bind_ok in H as (f & w2 & H2 & H).
  apply pair_equal_spec in H2 as [[= Hf] <-].
  destruct f as [f|]; [|done]. apply ret_ok in H as [-> ->].
  unfold op_on in H1. destruct (refuses p (ext w)) as [[] e]; simplify_eq. unfold text_of. cbn in Hf. by rewrite Hf.
Qed.

Lemma silent_saving w w' : silent w w' → saving w w'.
Proof. intros (F & L & Hk). split_and!; auto. Qed.
Lemma op_saving p f : (∀ fs q, q ≠ store_path cfg → q ≠ store_path cfg +:+ ".tmp" → f fs !! q = fs !! q) →
  runs_in saving (op_on p;; modify (set_files f)).
Proof.
  intros Hf w r w' (L & Hk & Hc)%op_modify_run. split_and!; [done..|]. intros q _ H1 H2.
  destruct Hc as [[_ Hc]|[_ Hc]]; rewrite Hc; auto.
Qed.

Lemma store_doc_run : runs_in silent (store_doc cfg).
Proof.
  unfold store_doc. apply runs_bind; [apply _|apply exists_silent|intros []]; [|apply runs_ret; apply _].
  apply runs_bind; [apply _|apply read_text_silent|intros text]. apply pure_silent.
Qed.
Lemma store_doc_ok w doc w' : store_doc cfg w = (inr (VDict doc), w') → read_doc (text_of w (store_path cfg)) = Ok doc.
Proof.
  unfold store_doc. intros (there & w1 & H1 & H)%bind_ok. apply pair_equal_spec in H1 as [[= <-] <-].
  unfold text_of. destruct (files w !! store_path cfg) as [f|] eqn:Hf.
  - rewrite bool_decide_true in H by eauto. apply bind_ok in H as (s & w2 & H2 & H).
    apply lift_ok in H as [Hl ->]. apply read_text_ok in H2 as [_ Ht]. unfold text_of in Ht. rewrite Hf in Ht.
    cbn in *. injection Ht as ->. by rewrite Hl.
  - rewrite bool_decide_false in H by (by intros []). apply ret_ok in H as [[= ->] ->]. done.
Qed.

(** Before the file is replaced. *)
Definition preparing w w' : Prop :=
  saving w w' ∧ text_of w' (store_path cfg) = text_of w (store_path cfg).
#[local] Instance preparing_preorder : PreOrder preparing.
Proof. split; [by intros w|]. intros w1 w2 w3 [S1 T1] [S2 T2]. split; [by etrans|congruence]. Qed.
Lemma tmp_preparing f : (∀ fs q, q ≠ store_path cfg +:+ ".tmp" → f fs !! q = fs !! q) →
  runs_in preparing (op_on (store_path cfg +:+ ".tmp");; modify (set_files f)).
Proof.
  intros Hf w r w' H. split; [revert H; apply op_saving; auto|].
  apply op_modify_run in H as (_ & _ & Hc). unfold text_of.
  destruct Hc as [[_ Hc]|[_ Hc]]; rewrite Hc; [done|]. rewrite Hf; [done|]. apply not_eq_sym, tmp_suffix_ne.
Qed.
Lemma store_doc_preparing : runs_in preparing (store_doc cfg).
Proof.
  intros w r w' Hs%store_doc_run. split; [by apply silent_saving|].
  destruct Hs as (F & _). unfold text_of. rewrite F; [done|]. by left.
Qed.

(** The new text is in place, whatever then happens to its mode. *)
Lemma replace_chmod_run w r w' text : text_of w (store_path cfg +:+ ".tmp") = Some text →
  (replace_file (store_path cfg +:+ ".tmp") (store_path cfg);; chmod (store_path cfg) 384) w = (r, w') →
  saving w w' ∧ (text_of w' (store_path cfg) = text_of w (store_path cfg) ∧ (∃ e, r = inl e) ∨
                 text_of w' (store_path cfg) = Some text).
Proof.
  intros Ht. unfold text_of in Ht. destruct (files w !! _) as [f|] eqn:Hf; [|done]. injection Ht as Ht.
  assert (Hr : runs_in saving (replace_file (store_path cfg +:+ ".tmp") (store_path cfg))).
  { apply op_saving. intros fs q H1 H2. destruct (fs !! _); [|done]. by rewrite lookup_insert_ne, lookup_delete_ne. }
  intros [(e & H & ->)|([] & w1 & H1 & H)]%bind_inv.
  - split; [by eapply Hr|]. left. split; [|eauto].
    apply op_modify_run in H as (_ & _ & [[_ H]|[? _]]); [|done]. unfold text_of. by rewrite H.
  - split.
    { etrans; [by eapply Hr|]. revert H. apply op_saving. intros fs q Hq _. by apply lookup_alter_ne. }
    right. apply op_modify_run in H1 as (_ & _ & [[? _]|[_ H1]]); [done|]. rewrite Hf in H1.
    apply op_modify_run in H as (_ & _ & Hc). unfold text_of.
    destruct Hc as [[_ Hc]|[_ Hc]]; rewrite Hc, H1, ?lookup_alter, lookup_insert, ?decide_True by done; by rewrite <-Ht.
Qed.

Lemma save_store_run st w r w' : save_store cfg st w = (r, w') →
  saving w w' ∧
  (text_of w' (store_path cfg) = text_of w (store_path cfg) ∧ (∃ e, r = inl e) ∨
   ∃ text, dump st (text_of w (store_path cfg)) = Ok text ∧ text_of w' (store_path cfg) = Some text).
Proof.
  unfold save_store. intros [(e & H & ->)|(doc & w1 & H1 & H)]%bind_inv.
  { apply store_doc_preparing in H as [? ?]. eauto 6. }
  pose proof (store_doc_preparing _ _ _ H1) as Hp. destruct doc as [| | | | | |doc];
    try (unfold throw in H; simplify_eq; destruct Hp; eauto 6; fail).
  apply store_doc_ok in H1. apply bind_inv in H as [(e & H & ->)|([] & w2 & H2 & H)].
  { assert (preparing w w') as [? ?]; [|eauto 6]. etrans; [done|]. revert H. apply tmp_preparing.
    intros fs q Hq. by apply lookup_insert_ne. }
  assert (preparing w w2) as P2.
  { etrans; [done|]. revert H2. apply tmp_preparing. intros fs q Hq. by apply lookup_insert_ne. }
  apply bind_inv in H as [(e & H & ->)|([] & w3 & H3 & H)].
  { assert (preparing w w') as [? ?]; [|eauto 6]. etrans; [exact P2|]. revert H. apply tmp_preparing.
    intros fs q Hq. by apply lookup_alter_ne. }
  assert (preparing w w3) as [S3 T3].
  { etrans; [exact P2|]. revert H3. apply tmp_preparing. intros fs q Hq. by apply lookup_alter_ne. }
  apply op_modify_run in H2 as (_ & _ & [[? _]|[_ H2]]); [done|].
  apply op_modify_run in H3 as (_ & _ & [[? _]|[_ H3]]); [done|].
  apply (replace_chmod_run _ _ _ (dump_text st doc)) in H as [S4 H].
  - split; [by etrans|]. destruct H as [[H ?]|H]; [left; split; [congruence|done]|right].
    exists (dump_text st doc). unfold dump. by rewrite H1.
  - unfold text_of. by rewrite H3, lookup_alter, H2, lookup_insert, !decide_True.
Qed.

Lemma write_pass_run new w r w' : write_pass_file cfg new w = (r, w') →
  ran w' = ran w ∧ K (ext w) (ext w') ∧ (∀ p, p ≠ pass_file cfg → files w' !! p = files w !! p) ∧
  (∀ u, r = inr u → text_of w' (pass_file cfg) = Some (new +:+ String nl "")).
Proof.
  set (R := λ w w', ran w' = ran w ∧ K (ext w) (ext w') ∧ (∀ p, p ≠ pass_file cfg → files w' !! p = files w !! p)).
  assert (PreOrder R) as HR.
  { split; [by intros ?; split_and!|]. intros w1 w2 w3 (L1 & K1 & F1) (L2 & K2 & F2).
    split_and!; [congruence|by etrans|]. intros p Hp. by rewrite F2, F1. }
  assert (Hop : ∀ f, (∀ fs q, q ≠ pass_file cfg → f fs !! q = fs !! q) → runs_in R (op_on (pass_file cfg);; modify (set_files f))).
  { intros f Hf w1 r1 w2 (L & Hk & Hc)%op_modify_run. split_and!; [done..|]. intros q Hq.
    destruct Hc as [[_ ->]|[_ ->]]; auto. }
  intros H. assert (R w w') as (HL & Hk & HF).
  { revert H. unfold write_pass_file, write_text.
    apply runs_bind; [apply _|apply runs_bind; [apply _| |intros _]|intros _]; apply Hop; intros fs q Hq;
      by rewrite ?lookup_alter_ne, ?lookup_insert_ne. }
  split_and!; [done..|]. intros [] ->. unfold write_pass_file, write_text in H.
  apply bind_ok in H as ([] & w1 & H1 & H3). apply bind_ok in H1 as ([] & w2 & H1 & H2).
  apply op_modify_run in H1 as (_ & _ & [[? _]|[_ E1]]); [done|].
  apply op_modify_run in H2 as (_ & _ & [[? _]|[_ E2]]); [done|].
  apply op_modify_run in H3 as (_ & _ & [[? _]|[_ E3]]); [done|].
  unfold text_of. by rewrite E3, lookup_alter, E2, lookup_alter, E1, lookup_insert, !decide_True.
Qed.

Definition repo_of (st : store) : val := get_or_empty "BACKUP_RESTIC_REPO" (config st).
Lemma env_repo st : getitem "RESTIC_REPOSITORY" (restic_env cfg st) = Ok (repo_of st).
Proof.
  unfold getitem, restic_env. by rewrite !dget_dset_ne, dget_dset_eq by done.
Qed.

(** * Re-keying *)

Definition frozen w w' : Prop := ∀ p, p ∈ protected → files w' !! p = files w !! p.
#[export] Instance frozen_preorder : PreOrder frozen.
Proof. split; [by intros w|]. intros w1 w2 w3 F1 F2 p Hp. by rewrite F2, F1. Qed.
Lemma silent_frozen w w' : silent w w' → frozen w w'.
Proof. by intros (? & _). Qed.
Lemma frozen_text w w' : frozen w w' → text_of w' (store_path cfg) = text_of w (store_path cfg).
Proof. intros F. unfold text_of. rewrite F; [done|]. by left. Qed.
Lemma run_frozen argv env : runs_in frozen (run argv env).
Proof.
  unfold run. apply runs_bind; [apply _| |intros envs].
  - intros w r w' H. by eapply silent_frozen, pure_silent.
  - intros w r w' H. unfold spawn in H. destruct (run_cmd argv envs (files w) (ext w)). by simplify_eq.
Qed.

(** The repository took the new password in place of the current one. *)
Definition rekeyed (st : store) (new : string) w w' : Prop :=
  ∃ cur cur_pf new_pf envs fs e c e',
    get_or_empty PW (secrets st) = VStr cur ∧
    mapM_res env_string (dset "RESTIC_PASSWORD_FILE" (VStr cur_pf) (restic_env cfg st)) = Ok envs ∧
    f_text <$> fs !! cur_pf = Some (cur +:+ String nl "") ∧
    f_text <$> fs !! new_pf = Some (new +:+ String nl "") ∧
    run_cmd (PASSWD new_pf) envs fs e = (inr c, e') ∧ returncode c = 0%Z ∧
    K (ext w) e ∧ K e' (ext w') ∧ ran w' = (ran w ++ [(PASSWD new_pf, envs, inr c)])%list.

Lemma rekeyed_after st new w w1 w' : rekeyed st new w w1 → ran w' = ran w1 → K (ext w1) (ext w') → rekeyed st new w w'.
Proof.
  intros (cur & cur_pf & new_pf & envs & fs & e & c & e' & ? & ? & ? & ? & ? & ? & ? & ? & ?) HL Hk.
  exists cur, cur_pf, new_pf, envs, fs, e, c, e'. split_and!; try done; [by etrans|by rewrite HL].
Qed.

(** The store is written as [st] with the new password. *)
Definition stored_as (st : store) (new : string) w w' : Prop :=
  ∃ text, dump (with_password (VStr new) st) (text_of w (store_path cfg)) = Ok text ∧
          text_of w' (store_path cfg) = Some text.

Lemma stored_as_frozen st new w w1 w' : frozen w w1 → stored_as st new w1 w' → stored_as st new w w'.
Proof. intros F%frozen_text (text & ? & ?). exists text. by rewrite <-F. Qed.

Hypothesis apart : store_path cfg ≠ pass_file cfg.

(** Keeping a new password: in the store, then in the pass file if asked. *)
Lemma keep_run st new (pass : bool) d w r w' :
  (save_store cfg (with_password (VStr new) st);;
   (if pass then write_pass_file cfg new else mret tt);; mret d : ST W fault (dict val)) w = (r, w') →
  ran w' = ran w ∧ K (ext w) (ext w') ∧
  (text_of w' (store_path cfg) = text_of w (store_path cfg) ∧ (∃ e, r = inl e) ∨
   stored_as st new w w' ∧
   ∀ d', r = inr d' → d' = d ∧ (pass = true → text_of w' (pass_file cfg) = Some (new +:+ String nl ""))).
Proof.
  intros [(e & H & ->)|([] & w1 & H1 & H)]%bind_inv.
  { apply save_store_run in H as [(HL & HK & _) [[H ?]|Hs]]; (split_and!; [done..|]); [left; eauto|by right]. }
  apply save_store_run in H1 as [(HL & HK & _) [[_ [? ?]]|Hs]]; [done|].
  assert (Hst : ∀ w2, files w2 !! store_path cfg = files w1 !! store_path cfg → stored_as st new w w2).
  { intros w2 Hf. destruct Hs as (text & ? & ?). exists text. split; [done|]. unfold text_of. by rewrite Hf. }
  destruct pass; [|apply pair_equal_spec in H as [<- <-]; split_and!; [done..|right]; split; [by apply Hst|by intros ? [= <-]]].
  apply bind_inv in H as [(e & H & ->)|([] & w2 & H & H2)]; apply write_pass_run in H as (L2 & K2 & F2 & P2).
  - split_and!; [congruence|by etrans|right]. split; [by apply Hst, F2|done].
  - apply pair_equal_spec in H2 as [<- <-]. split_and!; [congruence|by etrans|right].
    split; [by apply Hst, F2|]. intros d' [= <-]. eauto.
Qed.

Lemma set_password_run st new w r w' : set_password cfg st new w = (r, w') →
  text_of w' (store_path cfg) = text_of w (store_path cfg) ∧ (∀ d, r = inr d → truthy (vget "ok" d) = false) ∨
  stored_as st new w w' ∧ rekeyed st new w w' ∧
  ∀ d, r = inr d → d = [("ok", VBool true)] ∧ text_of w' (pass_file cfg) = Some (new +:+ String nl "").
Proof.
  unfold set_password. destruct (truthy _) eqn:Hcur; [|intros [= <- <-]; left; split; [done|by intros ? [= <-]]]. cbn [negb].
  intros [(e & H & ->)|(repo & w0 & H0 & H)]%bind_inv.
  { left. split; [|done]. by eapply frozen_text, silent_frozen, pure_silent. }
  apply lift_ok in H0 as [Hrepo ->].
  destruct (truthy repo); [|revert H; intros [= <- <-]; left; split; [done|by intros ? [= <-]]]. cbn [negb] in H.
  apply bind_inv in H as [(e & H & ->)|(cur_pf & w1 & H1 & H)].
  { left. split; [|done]. by eapply frozen_text, silent_frozen, write_secret_silent. }
  pose proof (write_secret_silent _ _ _ _ H1) as S1.
  apply bind_inv in H as [(e & H & ->)|(new_pf & w2 & H2 & H)].
  { left. split; [|done]. eapply frozen_text, silent_frozen. etrans; [exact S1|]. by eapply write_secret_silent. }
  pose proof (write_secret_silent _ _ _ _ H2) as S2.
  apply write_secret_ok in H1 as (cur & Hc & P1 & _ & T1 & _).
  apply write_secret_ok in H2 as (new' & [= <-] & P2 & N2 & T2 & O2).
  assert (F2 : frozen w w2) by (etrans; by eapply silent_frozen).
  assert (Hun : runs_in silent (unlink cur_pf;; unlink new_pf))
    by (apply runs_bind; [apply _|by apply unlink_silent|intros _; by apply unlink_silent]).
  apply bind_inv in H as [(e & H & ->)|(c & w3 & H3 & H)].
  { left. split; [|done]. eapply frozen_text. etrans; [exact F2|]. revert H.
    apply finally_in; [apply _|apply run_frozen|]. intros ??? H. by eapply silent_frozen, Hun. }
  assert (F3 : frozen w w3).
  { etrans; [exact F2|]. revert H3. apply finally_in; [apply _|apply run_frozen|].
    intros ??? Hr. by eapply silent_frozen, Hun. }
  case_bool_decide as Hrc; cbn [negb] in H;
    [|revert H; intros [= <- <-]; left; split; [by apply frozen_text|by intros ? [= <-]]].
  apply finally_ok in H3 as (w4 & H4 & H3). apply Hun in H3 as (_ & L3 & K3).
  apply run_completed in H4 as (envs & e' & He & Hr & ->). destruct S1 as (_ & L1 & K1), S2 as (_ & L2 & K2).
  assert (Hk : rekeyed st new w w3).
  { exists cur, cur_pf, new_pf, envs, (files w2), (ext w2), c, e'. split_and!; try done.
    - unfold text_of in T1. rewrite O2; [done|]. intros ->. by rewrite N2 in T1.
    - by etrans.
    - rewrite L3. cbn. by rewrite L2, L1. }
  apply (keep_run st new true) in H as (L & HK & [[Ht [e ->]]|[Hs Hd]]).
  - left. split; [|done]. rewrite Ht. by apply frozen_text.
  - right. split_and!; [by eapply stored_as_frozen|by eapply rekeyed_after|]. intros d Hdr. destruct (Hd d Hdr). auto.
Qed.

(** * The store read, the hold and the first password *)

Lemma calm_frozen w w' : calm w w' → frozen w w'.
Proof. by intros (? & _). Qed.
Lemma load_store_silent : runs_in silent (load_store cfg).
Proof.
  unfold load_store. apply runs_bind; [apply _|apply exists_silent|intros []]; [|apply runs_ret; apply _].
  apply runs_bind; [apply _|apply read_text_silent|intros text].
  apply runs_bind; [apply _|apply pure_silent|intros raw]. destruct raw; try (apply runs_throw; apply _).
  apply runs_bind; [apply _|apply pure_silent|intros s].
  apply runs_bind; [apply _|apply pure_silent|intros c]. apply runs_ret; apply _.
Qed.
Lemma load_store_ok w st w' : load_store cfg w = (inr st, w') → load (text_of w (store_path cfg)) = Ok st.
Proof.
  unfold load_store, load. intros (there & w1 & H1 & H)%bind_ok. apply pair_equal_spec in H1 as [[= <-] <-].
  unfold text_of. destruct (files w !! store_path cfg) as [f|] eqn:Hf.
  - rewrite bool_decide_true in H by eauto. cbn [negb] in H. apply bind_ok in H as (s & w2 & H2 & H).
    apply read_text_ok in H2 as [_ Ht]. unfold text_of in Ht. rewrite Hf in Ht. cbn in Ht. injection Ht as Ht.
    apply bind_ok in H as (raw & w3 & H3 & H). apply lift_ok in H3 as [Hl ->].
    cbn [fmap option_fmap option_map read_doc]. rewrite Ht, Hl. cbn [mbind res_bind]. destruct raw as [| | | | | |raw]; try done.
    apply bind_ok in H as (d1 & w4 & H4 & H). apply lift_ok in H4 as [E4 ->].
    apply bind_ok in H as (d2 & w5 & H5 & H). apply lift_ok in H5 as [E5 ->].
    apply ret_ok in H as [-> ->]. cbn [mbind res_bind]. by rewrite E4; cbn [mbind res_bind]; rewrite E5.
  - rewrite bool_decide_false in H by (by intros []). by apply ret_ok in H as [-> ->].
Qed.

(** The record that the backups wait, as it is read; nothing of one that
    cannot be read. *)
Definition held_as (d : dict val) w : Prop :=
  ∃ text, text_of w (held_file cfg) = Some text ∧ (d = [] ∨ loads text = Ok (VDict d)).

Lemma held_silent : runs_in silent (held cfg).
Proof.
  unfold held. apply runs_bind; [apply _|apply exists_silent|intros []]; [|apply runs_ret; apply _].
  apply runs_catch; [apply _| |].
  - apply runs_bind; [apply _|apply read_text_silent|intros text].
    apply runs_bind; [apply _|apply pure_silent|intros raw]. apply runs_ret; apply _.
  - intros [t|c|e]; [apply runs_throw; apply _..|]. destruct e; (apply runs_ret || apply runs_throw); apply _.
Qed.
Lemma held_ok w h w' : held cfg w = (inr h, w') →
  match h with None => files w !! held_file cfg = None | Some d => held_as d w end.
Proof.
  unfold held. intros (there & w1 & H1 & H)%bind_ok. apply pair_equal_spec in H1 as [[= <-] <-].
  destruct (files w !! held_file cfg) as [f|] eqn:Hf;
    [|rewrite bool_decide_false in H by (by intros []); by apply ret_ok in H as [-> ->]].
  rewrite bool_decide_true in H by eauto. cbn [negb] in H.
  assert (Ht : text_of w (held_file cfg) = Some (f_text f)) by (unfold text_of; by rewrite Hf).
  unfold catch in H. destruct ((text ← read_text (held_file cfg); _) w) as [[e|h'] w2] eqn:Hr.
  - destruct e as [t|c|x]; [done..|]. destruct x; try done; apply ret_ok in H as [-> _]; exists (f_text f); auto.
  - simplify_eq. apply bind_ok in Hr as (s & w3 & H3 & Hr). apply read_text_ok in H3 as [_ Hs].
    apply bind_ok in Hr as (raw & w4 & H4 & Hr). apply lift_ok in H4 as [Hl ->]. apply ret_ok in Hr as [-> _].
    exists s. split; [done|]. destruct raw; cbn; auto.
Qed.

Lemma urandom_silent : runs_in silent urandom_b64.
Proof. intros w r w' H. unfold urandom_b64 in H. destruct (urandom _ _ _). by simplify_eq. Qed.


(** * The operations *)

(** The repository's address holds none, as the new password asks it. *)
Definition unclaimed (st : store) (new : string) w w' : Prop :=
  truthy (repo_of st) = false ∨ ∃ c w1, ran_with CAT (restic_env cfg st) new c w w1 ∧ returncode c = NO_REPOSITORY ∧
                                       ran w' = ran w1 ∧ K (ext w1) (ext w').

Lemma ran_with_before argv env p c w w1 w' : silent w w1 → ran_with argv env p c w1 w' → ran_with argv env p c w w'.
Proof.
  intros (_ & L & Hk) (pf & envs & fs & e & e' & ? & ? & ? & ? & ? & Hl).
  exists pf, envs, fs, e, e'. split_and!; try done; [by etrans|by rewrite Hl, L].
Qed.

Lemma mint_and_keep_run st replace w r w' : mint_and_keep cfg st replace w = (r, w') →
  text_of w' (store_path cfg) = text_of w (store_path cfg) ∧ (∀ d, r = inr d → truthy (vget "ok" d) = false) ∨
  ∃ new, stored_as st new w w' ∧ unclaimed st new w w' ∧
    ∀ d, r = inr d → d = generated new ∧ (replace = true → text_of w' (pass_file cfg) = Some (new +:+ String nl "")).
Proof.
  unfold mint_and_keep. intros [(e & H & ->)|(new & w1 & H1 & H)]%bind_inv.
  { left. split; [|done]. by eapply frozen_text, silent_frozen, urandom_silent. }
  pose proof (urandom_silent _ _ _ H1) as S1. clear H1. rewrite env_repo in H.
  apply bind_inv in H as [(e & H & _)|(repo & w0 & H0 & H)]; [done|]. apply pair_equal_spec in H0 as [[= <-] <-].
  set (ask := if truthy (repo_of st) then _ else _) in H.
  assert (Hask : runs_in calm ask).
  { unfold ask. destruct (truthy _); [|apply runs_ret; apply _].
    apply runs_bind; [apply _|apply cat_config_calm|intros rc]. apply runs_ret; apply _. }
  assert (Hun : ∀ w2, ask w1 = (inr None, w2) → unclaimed st new w w2).
  { unfold ask. intros w2 Ha. unfold unclaimed. destruct (truthy (repo_of st)); [right|by left].
    apply bind_ok in Ha as (rc & w3 & Hc & Ha). apply cat_config_ok in Hc as (c & Hc & ->).
    apply ret_ok in Ha as [Ha ->]. apply with_password_file_ok in Hc as (s & [= <-] & Hc & _).
    exists c, w3. split_and!; [by eapply ran_with_before| |done..].
    case_bool_decide; [done|]. by case_bool_decide. }
  clearbody ask. apply bind_inv in H as [(e & H & ->)|([text|] & w2 & H2 & H)].
  { left. split; [|done]. eapply frozen_text. etrans; [by apply silent_frozen|]. by eapply calm_frozen, Hask. }
  { apply pair_equal_spec in H as [<- <-]. left. split; [|by intros ? [= <-]].
    eapply frozen_text. etrans; [by apply silent_frozen|]. by eapply calm_frozen, Hask. }
  assert (F2 : frozen w w2) by (etrans; [by apply silent_frozen|]; by eapply calm_frozen, Hask).
  apply Hun in H2. clear Hun Hask.
  assert (Hlater : ∀ w3, ran w3 = ran w2 → K (ext w2) (ext w3) → unclaimed st new w w3).
  { intros w3 L3 K3. destruct H2 as [?|(c & w4 & ? & ? & ? & ?)]; [by left|right].
    exists c, w4. split_and!; [done..|congruence|by etrans]. }
  apply keep_run in H as (L & HK & [[Ht [e ->]]|[Hs Hd]]).
  - left. split; [|done]. rewrite Ht. by apply frozen_text.
  - right. exists new. split_and!; [by eapply stored_as_frozen|by apply Hlater|done].
Qed.

(** What lets a generate write the password [new]. *)
Definition may_generate (st : store) (replace : bool) (new : string) w w' : Prop :=
  truthy (vget PW (secrets st)) = false ∧ unclaimed st new w w' ∨
  truthy (vget PW (secrets st)) = true ∧ replace = true ∧ ∃ hold here,
    held_as hold w ∧ location (repo_of st) = Ok (Some here) ∧
    (Some here = location_of (str_or (vget "settings" hold)) ∧ vget "choice" hold = VStr "fresh" ∧ rekeyed st new w w' ∨
     Some here ≠ location_of (str_or (vget "settings" hold)) ∧ unclaimed st new w w').

Lemma unclaimed_silent st new w w1 w' : silent w w1 → unclaimed st new w1 w' → unclaimed st new w w'.
Proof.
  intros S [?|(c & w2 & Hc & ?)]; [by left|right]. exists c, w2. split; [by eapply ran_with_before|done].
Qed.
Lemma rekeyed_silent st new w w1 w' : silent w w1 → rekeyed st new w1 w' → rekeyed st new w w'.
Proof.
  intros (_ & L & Hk) (cur & cur_pf & new_pf & envs & fs & e & c & e' & ? & ? & ? & ? & ? & ? & ? & ? & Hl).
  exists cur, cur_pf, new_pf, envs, fs, e, c, e'. split_and!; try done; [by etrans|by rewrite Hl, L].
Qed.
Definition unwritten {A} (ok : A → bool) (r : fault + A) w w' : Prop :=
  text_of w' (store_path cfg) = text_of w (store_path cfg) ∧ ∀ a, r = inr a → ok a = false.
Abbreviation ok_of := (λ d : dict val, truthy (vget "ok" d)).

Lemma unwritten_fail {A} ok w w1 (e : fault) : silent w w1 → unwritten (A := A) ok (inl e) w w1.
Proof. intros S. split; [by apply frozen_text, silent_frozen|done]. Qed.
Lemma unwritten_ret text w w1 w' r : (mret (failed text) : ST W fault _) w1 = (r, w') → silent w w1 → unwritten ok_of r w w'.
Proof. intros [= <- <-] S. split; [by apply frozen_text, silent_frozen|by intros ? [= <-]]. Qed.

Ltac refused H := left; eapply unwritten_ret; [exact H|first [assumption | reflexivity]].

Lemma rekey_fresh_run st hold w r w' : rekey_fresh cfg st hold w = (r, w') →
  unwritten ok_of r w w' ∨
  ∃ new, stored_as st new w w' ∧ rekeyed st new w w' ∧ vget "choice" hold = VStr "fresh" ∧
    ∀ d, r = inr d → d = generated new ∧ text_of w' (pass_file cfg) = Some (new +:+ String nl "").
Proof.
  unfold rekey_fresh. destruct (py_eq _ _) eqn:Hch; [|intros H; refused H]. cbn [negb].
  apply py_eq_text in Hch. intros [(e & H & ->)|(new & w1 & H1 & H)]%bind_inv.
  { left. by eapply unwritten_fail, urandom_silent. }
  apply urandom_silent in H1. apply bind_inv in H as [(e & H & ->)|(d & w2 & H2 & H)].
  - apply set_password_run in H as [[Ht _]|(Hs & Hk & _)].
    + left. split; [|done]. rewrite Ht. by apply frozen_text, silent_frozen.
    + right. exists new. split_and!; [by eapply stored_as_frozen; [apply silent_frozen|]|by eapply rekeyed_silent|done..].
  - apply pair_equal_spec in H as [<- <-]. apply set_password_run in H2 as [[Ht Hok]|(Hs & Hk & Hd)].
    + left. split; [rewrite Ht; by apply frozen_text, silent_frozen|].
      intros a [= <-]. specialize (Hok d eq_refl). by rewrite Hok.
    + right. destruct (Hd d eq_refl) as [-> Hp]. exists new.
      split_and!; [by eapply stored_as_frozen; [apply silent_frozen|]|by eapply rekeyed_silent|done|].
      by intros a [= <-].
Qed.

Lemma cmd_generate_run st replace w r w' : cmd_generate cfg st replace w = (r, w') →
  unwritten ok_of r w w' ∨
  ∃ new, stored_as st new w w' ∧ may_generate st replace new w w' ∧
    ∀ d, r = inr d → d = generated new ∧ (replace = true → text_of w' (pass_file cfg) = Some (new +:+ String nl "")).
Proof.
  unfold cmd_generate. destruct (truthy _) eqn:Hpw; cycle 1.
  { intros [H|(new & Hs & Hu & Hd)]%mint_and_keep_run; [by left|right]. exists new. split_and!; [done|by left|done]. }
  destruct replace; cbn [negb]; [|intros H; refused H].
  intros [(e & H & ->)|(hold & w1 & H1 & H)]%bind_inv; [left; by eapply unwritten_fail, held_silent|].
  pose proof (held_silent _ _ _ H1) as S1. apply held_ok in H1.
  destruct hold as [hold|]; [|refused H].
  apply bind_inv in H as [(e & H & ->)|(here & w0 & H0 & H)].
  { left. eapply unwritten_fail. etrans; [done|]. by eapply pure_silent. }
  apply lift_ok in H0 as [Hl ->]. destruct here as [here|]; [|refused H].
  case_bool_decide as Hsame.
  - apply rekey_fresh_run in H as [[Ht Hok]|(new & Hs & Hk & Hch & Hd)].
    { left. split; [|done]. rewrite Ht. by apply frozen_text, silent_frozen. }
    right. exists new. split_and!; [by eapply stored_as_frozen; [apply silent_frozen|]| |].
    + right. split_and!; [done..|]. exists hold, here. split_and!; [done..|left]. split_and!; [done..|]. by eapply rekeyed_silent.
    + intros d Hr. destruct (Hd d Hr). auto.
  - apply mint_and_keep_run in H as [[Ht Hok]|(new & Hs & Hu & Hd)].
    { left. split; [|done]. rewrite Ht. by apply frozen_text, silent_frozen. }
    right. exists new. split_and!; [by eapply stored_as_frozen; [apply silent_frozen|]| |done].
    right. split_and!; [done..|]. exists hold, here. split_and!; [done..|right]. split; [done|]. by eapply unclaimed_silent.
Qed.
End facts.
