(* ===== verification/ResticKeyOutcomes.v ===== *)
(** The outcomes of a run of [ResticKey]'s [main], over the step lemmas of
    [ResticKeyFacts]: when the stored password may change, when a repository
    is created, and what a success says of the repository. *)
From S2P Require Import Prelude PyStr PyNum PyVal Json JsonFacts Encoding Effects Host OnboxConfig OnboxConfigFacts ResticKey ResticKeyFacts.

#[local] Open Scope string_scope.

(** A refusal that wrote nothing. *)
Ltac refused H := left; eapply unwritten_ret; [exact H|first [eassumption | reflexivity]].

Section runs.
Context {E : Type} `{!Outside E} (cfg : settings) (K : relation E) `{!PreOrder K}.
Context {keeps : Keeps K} {temps : Temps cfg} (apart : store_path cfg ≠ pass_file cfg).
Abbreviation W := (@world E).
Implicit Types (w : W).

(** The request, as [main] reads it. *)
Definition request_of (stdin : string) (req : dict val) : Prop :=
  loads (if bool_decide (stdin = "") then "{}" else stdin) = Ok (VDict req).

Lemma main_inv stdin w r w' : main cfg stdin w = (r, w') →
  (w' = w ∧ ∃ e, r = inl e) ∨
  ∃ req r', request_of stdin req ∧ operation cfg req w = (r', w') ∧
    r = match r' with
        | inl e => inl e
        | inr d => inr (dumps default_style (VDict d), if truthy (vget "ok" d) then 0%Z else 1%Z)
        end.
Proof.
  unfold main, request_of. intros [(e & H & ->)|(raw & w1 & H1 & H)]%bind_inv.
  { left. unfold pure, lift in H. destruct (loads _); [done|]. unfold throw in H. simplify_eq. eauto. }
  apply lift_ok in H1 as [Hl ->]. destruct raw as [| | | | | |req]; try (left; unfold throw in H; simplify_eq; eauto; fail).
  right. apply bind_inv in H as [(e & H & ->)|(d & w2 & H2 & H)].
  - exists req, (inl e). done.
  - apply pair_equal_spec in H as [<- <-]. exists req, (inr d). done.
Qed.

Lemma cmd_rotate_run st req w r w' : cmd_rotate cfg st req w = (r, w') →
  unwritten cfg (λ d, truthy (vget "ok" d)) r w w' ∨
  ∃ new, new = str_or (vget "new_password" req) ∧ files w !! held_file cfg = None ∧
    stored_as cfg st new w w' ∧ rekeyed cfg K st new w w' ∧
    ∀ d, r = inr d → d = [("ok", VBool true)] ∧ text_of w' (pass_file cfg) = Some (new +:+ String nl "").
Proof.
  unfold cmd_rotate. intros [(e & H & ->)|(hold & w1 & H1 & H)]%bind_inv.
  { left. eapply unwritten_fail. by eapply (held_silent cfg K). }
  pose proof (held_silent cfg K _ _ _ H1) as S1. apply (held_ok cfg K) in H1.
  destruct hold as [hold|]; [refused H|]. case_bool_decide; [refused H|].
  apply (set_password_run cfg K apart) in H as [[Ht Hok]|(Hs & Hk & Hd)].
  - left. split; [|done]. rewrite Ht. by eapply frozen_text, silent_frozen.
  - right. eexists. split_and!; [done|done|by eapply stored_as_frozen; [eapply silent_frozen|]|by eapply rekeyed_silent|done].
Qed.

(** * Creating a repository *)

Lemma run_inv argv env w r w' : run argv env w = (r, w') →
  (w' = w ∧ ∃ e, r = inl e) ∨
  ∃ envs x e', mapM_res env_string env = Ok envs ∧ run_cmd argv envs (files w) (ext w) = (x, e') ∧
    w' = {| files := files w; ran := (ran w ++ [(argv, envs, x)])%list; pos := pos w; ext := e' |} ∧
    r = match x with inl e => inl (Raised e) | inr c => inr c end.
Proof.
  unfold run. intros [(e & H & ->)|(envs & w1 & H1 & H)]%bind_inv.
  - left. unfold pure, lift in H. destruct (mapM_res _ _); [done|]. unfold throw in H. simplify_eq. eauto.
  - apply lift_ok in H1 as [He ->]. right. unfold spawn in H.
    destruct (run_cmd argv envs (files w) (ext w)) as [x e'] eqn:Er. simplify_eq. eauto 10.
Qed.

(** The location was listed and nothing was there. *)
Definition listed_empty (st : store) w w' : Prop :=
  ∃ scheme host path renv renvs c,
    rclone_location (restic_env cfg st) = Ok (Some (renv, "dest:" +:+ path)) ∧
    location (repo_of st) = Ok (Some (scheme, host, path)) ∧
    dget "RCLONE_CONFIG_DEST_ENDPOINT" renv = Some (VStr (scheme +:+ "://" +:+ host)) ∧
    mapM_res env_string renv = Ok renvs ∧
    strip (first_line (stdout c)) = "" ∧ (returncode c = 0%Z ∨ returncode c = RCLONE_DIR_NOT_FOUND) ∧
    ran w' = (ran w ++ [(["rclone"; "lsf"; "dest:" +:+ path], renvs, inr c)])%list.

Lemma rclone_location_inv st loc : rclone_location (restic_env cfg st) = Ok (Some loc) →
  ∃ scheme host path, location (repo_of st) = Ok (Some (scheme, host, path)) ∧ loc.2 = "dest:" +:+ path ∧
    dget "RCLONE_CONFIG_DEST_ENDPOINT" loc.1 = Some (VStr (scheme +:+ "://" +:+ host)).
Proof.
  unfold rclone_location. rewrite env_repo. cbn [mbind res_bind]. intros (o & Hl & H)%res_bind_Ok.
  destruct o as [[[scheme host] path]|]; [|done]. inv_ok. subst. exists scheme, host, path. split_and!; [done..|].
  cbn [fst dupdate foldl snd]. by rewrite !dget_dset_ne, dget_dset_eq by done.
Qed.

Lemma holds_calm env : runs_in (calm cfg K) (location_holds_anything env).
Proof.
  unfold location_holds_anything. apply runs_bind; [apply _|by eapply calm_of, pure_silent|intros [[renv path]|]];
    [|apply runs_ret; apply _].
  apply runs_bind; [apply _|apply run_calm; [apply _..|]; right; eauto|intros c]. apply runs_ret; apply _.
Qed.
Lemma holds_ok st w w' : location_holds_anything (restic_env cfg st) w = (inr (Some false), w') → listed_empty st w w'.
Proof.
  unfold location_holds_anything. intros (loc & w1 & H1 & H)%bind_ok. apply lift_ok in H1 as [Hl ->].
  destruct loc as [[renv path]|]; [|by apply ret_ok in H as [? _]].
  apply bind_ok in H as (c & w2 & H2 & H). apply ret_ok in H as [Hc ->].
  apply run_completed in H2 as (renvs & e' & He & _ & ->).
  pose proof (rclone_location_inv _ _ Hl) as (scheme & host & path' & Hloc & Hp & Hep). cbn in Hp, Hep. subst path.
  case_bool_decide as Hf; cbn [negb] in Hc; [|done].
  exists scheme, host, path', renv, renvs, c. split_and!; try done.
  case_bool_decide; [by left|]. case_bool_decide; [by right|done].
Qed.

(** [restic init] ran with the password; a success is its exit code. *)
Definition init_ran (env : dict val) (password : string) (r : fault + dict val) w w' : Prop :=
  ∃ pf envs fs e x e',
    mapM_res env_string (dset "RESTIC_PASSWORD_FILE" (VStr pf) env) = Ok envs ∧
    f_text <$> fs !! pf = Some (password +:+ String nl "") ∧
    run_cmd INIT envs fs e = (x, e') ∧ K (ext w) e ∧ K e' (ext w') ∧
    ran w' = (ran w ++ [(INIT, envs, x)])%list ∧
    ∀ d, r = inr d → truthy (vget "ok" d) = true → ∃ c, x = inr c ∧ returncode c = 0%Z.

Lemma create_run env password w r w' : create env password w = (r, w') →
  (calm cfg K w w' ∧ ∃ e, r = inl e) ∨
  ∃ s, password = VStr s ∧ frozen cfg w w' ∧ init_ran env s r w w'.
Proof.
  unfold create. intros [(e & H & ->)|(pf & w1 & H1 & H)]%bind_inv.
  { left. split; [|eauto]. by eapply silent_calm, write_secret_silent. }
  pose proof (write_secret_silent cfg K _ _ _ _ H1) as S1.
  apply (write_secret_ok cfg K) in H1 as (s & -> & Hp & _ & Tf & _).
  destruct (run ["restic"; "init"] (dset "RESTIC_PASSWORD_FILE" (VStr pf) env) w1) as [r2 w2] eqn:H2.
  destruct (unlink pf w2) as [r4 w4] eqn:H4. pose proof (unlink_silent cfg K pf Hp _ _ _ H4) as S4.
  assert (Hw : w' = w4 ∧ (∀ d, r = inr d → truthy (vget "ok" d) = true → ∃ c, r2 = inr c ∧ returncode c = 0%Z) ∧
               (∀ e, r2 = inl e → ∃ e, r = inl e)).
  { unfold mbind, ST_bind in H. unfold finally in H. rewrite H2, H4 in H.
    destruct r4 as [e|u]; [simplify_eq; split_and!; [done|by intros ? [=]|by eauto]|].
    destruct r2 as [e|c]; [simplify_eq; split_and!; [done|by intros ? [=]|by eauto]|].
    case_bool_decide; cbn [negb] in H; apply pair_equal_spec in H as [<- <-];
      (split_and!; [done| |by intros ? [=]]); intros d [= <-]; [by eauto|done]. }
  destruct Hw as (-> & Hok & Herr). clear H.
  apply run_inv in H2 as [[-> [e ->]]|(envs & x & e' & He & Hr & -> & ->)].
  - left. split; [|by eapply Herr]. apply silent_calm. by etrans.
  - right. exists s. split; [done|]. destruct S1 as (F1 & L1 & K1), S4 as (F4 & L4 & K4). split.
    + intros p Hin. rewrite F4, <-F1 by done. done.
    + exists pf, envs, (files w1), (ext w1), x, e'. split_and!; try done.
      * rewrite L4. cbn. by rewrite L1.
      * intros d Hd Ht. destruct (Hok d Hd Ht) as (c & Hc & ?). destruct x; simplify_eq. eauto.
Qed.

(** What an [init] did: nothing but ask, or create where it found nothing. *)
Definition init_outcome (st : store) (r : fault + dict val) w w' : Prop :=
  frozen cfg w w' ∧
  (calm cfg K w w' ∧ (∀ d, r = inr d → truthy (vget "ok" d) = true →
     ∃ s c, get_or_empty PW (secrets st) = VStr s ∧ ran_with K CAT (restic_env cfg st) s c w w' ∧ returncode c = 0%Z) ∨
   ∃ s c w1 w2, get_or_empty PW (secrets st) = VStr s ∧
     ran_with K CAT (restic_env cfg st) s c w w1 ∧ returncode c = NO_REPOSITORY ∧
     listed_empty st w1 w2 ∧ init_ran (restic_env cfg st) s r w2 w').
Lemma init_asked st r w w' : calm cfg K w w' → (∀ d, r = inr d → truthy (vget "ok" d) = false) → init_outcome st r w w'.
Proof. intros Hc Hr. split; [by eapply calm_frozen|]. left. split; [done|]. intros d Hd. by rewrite Hr. Qed.
Lemma init_refused st text w w1 r w' :
  (mret (failed text) : ST W fault _) w1 = (r, w') → calm cfg K w w1 → init_outcome st r w w'.
Proof. intros [= <- <-] Hc. apply init_asked; [done|by intros ? [= <-]]. Qed.

Lemma cmd_init_run st w r w' : cmd_init cfg st w = (r, w') → init_outcome st r w w'.
Proof.
  unfold cmd_init. rewrite env_repo.
  intros [(e & H & _)|(repo & w0 & H0 & H)]%bind_inv; [done|]. apply pair_equal_spec in H0 as [[= <-] <-].
  apply bind_inv in H as [(e & H & ->)|(ak & w1 & H1 & H)];
    [apply init_asked; [by eapply silent_calm, pure_silent|done]|].
  apply lift_ok in H1 as [_ ->]. apply bind_inv in H as [(e & H & ->)|(sk & w1 & H1 & H)];
    [apply init_asked; [by eapply silent_calm, pure_silent|done]|].
  apply lift_ok in H1 as [_ ->].
  destruct (truthy (repo_of st) && _ && _); [|eapply init_refused; [exact H|reflexivity]].
  destruct (truthy _); [|eapply init_refused; [exact H|reflexivity]]. cbn [negb] in H.
  apply bind_inv in H as [(e & H & ->)|(rc & w1 & H1 & H)]; [apply init_asked; [by eapply cat_config_calm|done]|].
  pose proof (cat_config_calm cfg K _ _ _ _ _ H1) as C1.
  apply cat_config_ok in H1 as (c & H1 & ->). apply (with_password_file_ok cfg K) in H1 as (s & Hs & Hcat & _).
  case_bool_decide as R0.
  { apply pair_equal_spec in H as [<- <-]. split; [by eapply calm_frozen|]. left. split; [done|]. intros d _ _. eauto. }
  case_bool_decide; [by eapply init_refused|].
  case_bool_decide as R10; cbn [negb] in H; [|by eapply init_refused].
  apply bind_inv in H as [(e & H & ->)|(holds & w2 & H2 & H)].
  { apply init_asked; [|done]. etrans; [done|]. by eapply holds_calm. }
  pose proof (holds_calm _ _ _ _ H2) as C2. assert (C12 : calm cfg K w w2) by by etrans.
  destruct holds as [[]|]; [by eapply init_refused| |by eapply init_refused].
  apply holds_ok in H2. apply create_run in H as [[C3 [e ->]]|(s' & Hs' & F3 & Hi)].
  { apply init_asked; [|done]. by etrans. }
  split; [etrans; [by eapply calm_frozen|done]|]. right.
  exists s, c, w1, w2. rewrite Hs in Hs'. injection Hs' as <-. done.
Qed.

Lemma cmd_validate_calm st req : runs_in (calm cfg K) (cmd_validate cfg st req).
Proof.
  unfold cmd_validate. case_bool_decide; [apply runs_ret; apply _|].
  destruct (negb _); [apply runs_ret; apply _|]. apply runs_bind; [apply _| |intros ok; apply runs_ret; apply _].
  unfold opens. apply runs_bind; [apply _|by apply cat_config_calm|intros rc; apply runs_ret; apply _].
Qed.

(** What a validation that says ok asked, and of what. *)
Lemma cmd_validate_ok st req d w w' : cmd_validate cfg st req w = (inr d, w') → truthy (vget "ok" d) = true →
  str_or (vget "password" req) ≠ "" ∧ truthy (repo_of st) = true ∧
  ∃ c, ran_with K CAT (restic_env cfg st) (str_or (vget "password" req)) c w w' ∧ returncode c = 0%Z.
Proof.
  unfold cmd_validate. case_bool_decide as Hp; [intros [[= <-] _]%pair_equal_spec; done|].
  destruct (truthy (vget "BACKUP_RESTIC_REPO" (config st))) eqn:Hr; cbn [negb]; [|intros [[= <-] _]%pair_equal_spec; done].
  intros (ok & w1 & H1 & H)%bind_ok Hok. apply ret_ok in H as [-> ->]. split_and!; [done| |].
  { unfold repo_of, get_or_empty. unfold vget in Hr. by destruct (dget _ (config st)). }
  unfold opens in H1. apply bind_ok in H1 as (rc & w2 & H1 & H). apply ret_ok in H as [-> ->].
  apply cat_config_ok in H1 as (c & H1 & ->). apply (with_password_file_ok cfg K) in H1 as (s & [= <-] & Hc & _).
  exists c. split; [done|]. by case_bool_decide.
Qed.

(** Which operation a run is, over the store it read. *)
Lemma operation_inv req w r w' : operation cfg req w = (r, w') →
  (silent cfg K w w' ∧ ∃ e, r = inl e) ∨
  ∃ st w1, load (text_of w (store_path cfg)) = Ok st ∧ silent cfg K w w1 ∧
    (vget "op" req = VStr "generate" ∧ cmd_generate cfg st (bool_decide (vget "replace" req = VBool true)) w1 = (r, w') ∨
     vget "op" req = VStr "validate" ∧ cmd_validate cfg st req w1 = (r, w') ∨
     vget "op" req = VStr "rotate" ∧ cmd_rotate cfg st req w1 = (r, w') ∨
     vget "op" req = VStr "init" ∧ cmd_init cfg st w1 = (r, w')).
Proof.
  unfold operation. intros [(e & H & ->)|(st & w1 & H1 & H)]%bind_inv.
  { left. split; [by eapply load_store_silent|eauto]. }
  pose proof (load_store_silent cfg K _ _ _ H1) as S1. apply (load_store_ok cfg K) in H1.
  destruct (py_eq _ (VStr "generate")) eqn:Eg; [right; apply py_eq_text in Eg; eauto 10|].
  destruct (py_eq _ (VStr "validate")) eqn:Ev; [right; apply py_eq_text in Ev; eauto 10|].
  destruct (py_eq _ (VStr "rotate")) eqn:Er; [right; apply py_eq_text in Er; eauto 10|].
  destruct (py_eq _ (VStr "init")) eqn:Ei; [right; apply py_eq_text in Ei; eauto 10|].
  left. unfold throw in H. simplify_eq. eauto.
Qed.

Lemma may_generate_silent st replace new w w1 w' :
  silent cfg K w w1 → may_generate cfg K st replace new w1 w' → may_generate cfg K st replace new w w'.
Proof.
  intros S [[? Hu]|(? & ? & hold & here & Hh & ? & Hc)].
  - left. split; [done|]. by eapply unclaimed_silent.
  - right. split_and!; [done..|]. exists hold, here. split_and!; [|done|].
    + destruct Hh as (text & Ht & ?). exists text. split; [|done]. rewrite <-Ht. unfold text_of.
      destruct S as (F & _). rewrite F; [done|]. unfold protected. set_solver.
    + destruct Hc as [(? & ? & ?)|[? ?]]; [left|right]; split_and!; try done;
        [by eapply rekeyed_silent|by eapply unclaimed_silent].
Qed.
End runs.

(** * When the stored password changes *)

Section replaced.
Context {E : Type} `{!Outside E} (cfg : settings).
Context {temps : Temps cfg} (apart : store_path cfg ≠ pass_file cfg).

Abbreviation any := (λ _ _ : E, True).

#[export] Instance any_preorder : PreOrder any.
Proof. by split. Qed.
#[export] Instance any_keeps : Keeps any.
Proof. by split. Qed.

(** Claim C16: However a run ends, the store's file is as it was, or it is the
    stored document with one key of one section changed, the backup password,
    everything else kept; and then the run was a rotation, with no restore
    being waited out, whose repository took the new password; or a generate,
    where none was stored and no repository answered at the location, or
    asked to replace it while the backups wait after a restore: for another
    location with no repository, or for the restored one re-keyed because the
    hold chose a fresh repository. *)
Theorem password_replaced_only stdin w r w' :
  main cfg stdin w = (r, w') →
  text_of w' (store_path cfg) = text_of w (store_path cfg) ∨
  ∃ req st new, request_of stdin req ∧ load (text_of w (store_path cfg)) = Ok st ∧ stored_as cfg st new w w' ∧
    (vget "op" req = VStr "rotate" ∧ files w !! held_file cfg = None ∧
       new = str_or (vget "new_password" req) ∧ rekeyed cfg any st new w w' ∨
     vget "op" req = VStr "generate" ∧
       may_generate cfg any st (bool_decide (vget "replace" req = VBool true)) new w w').
Proof.
  intros [[-> _]|(req & r' & Hq & H & _)]%main_inv; [by left|].
  apply (operation_inv cfg any) in H as [[S _]|(st & w1 & Hl & S & H)]; [left; by eapply frozen_text, silent_frozen|].
  pose proof (silent_frozen _ _ _ _ S) as F1.
  assert (Hkeep : text_of w' (store_path cfg) = text_of w1 (store_path cfg) →
                  text_of w' (store_path cfg) = text_of w (store_path cfg)) by (intros ->; by apply frozen_text).
  destruct H as [[Hop H]|[[Hop H]|[[Hop H]|[Hop H]]]].
  - apply (cmd_generate_run cfg any apart) in H as [[Ht _]|(new & Hs & Hg & _)]; [left; auto|right].
    exists req, st, new. split_and!; [done|done|by eapply stored_as_frozen|right]. split; [done|].
    by eapply may_generate_silent.
  - left. apply Hkeep. by eapply frozen_text, calm_frozen, (cmd_validate_calm cfg any).
  - apply (cmd_rotate_run cfg any apart) in H as [[Ht _]|(new & Hn & Hh & Hs & Hk & _)]; [left; auto|right].
    exists req, st, new. split_and!; [done|done|by eapply stored_as_frozen|left]. split_and!; [done| |done|].
    + rewrite <-Hh. destruct S as (F & _). rewrite F; [done|]. unfold protected. set_solver.
    + by eapply rekeyed_silent.
  - left. apply Hkeep. apply frozen_text. by apply (cmd_init_run cfg any) in H as [? _].
Qed.
End replaced.

(** * When a repository is created *)

Lemma env_strings_get k d d' v : mapM_res env_string d = Ok d' → dget k d = Some v →
  ∃ s, v = VStr s ∧ dget k d' = Some s.
Proof.
  revert d'. induction d as [|[k0 v0] d IH]; intros d'; cbn; [done|].
  intros ([k1 s1] & H1 & (d1 & H2 & [= <-])%res_bind_Ok)%res_bind_Ok Hg.
  unfold env_string in H1. cbn in H1. destruct v0; try done. destruct (has_char _ _); [done|]. injection H1 as <- <-.
  cbn. case_bool_decide; [|by eapply IH]. injection Hg as <-. eauto.
Qed.

Lemma env_repo_string cfg st pf envs : mapM_res env_string (dset "RESTIC_PASSWORD_FILE" (VStr pf) (restic_env cfg st)) = Ok envs →
  ∃ repo, repo_of st = VStr repo ∧ dget "RESTIC_REPOSITORY" envs = Some repo.
Proof.
  intros He. eapply env_strings_get; [done|]. rewrite dget_dset_ne by done.
  pose proof (env_repo cfg st) as Hr. unfold getitem in Hr. by destruct (dget _ _); simplify_eq.
Qed.

Section created.
Context {E : Type} `{!Outside E} (cfg : settings).
Context {temps : Temps cfg} (apart : store_path cfg ≠ pass_file cfg).
Abbreviation W := (@world E).
Implicit Types (w : W).
Abbreviation any := (λ _ _ : E, True).

Definition creates_none : relation W := extends ran (λ q, q.1.1 ≠ INIT).

Lemma same_ran w w' : ran w' = ran w → creates_none w w'.
Proof. intros L. exists []. by rewrite app_nil_r. Qed.
Lemma calm_creates_none w w' : calm cfg any w w' → creates_none w w'.
Proof.
  intros (_ & (l & L & Hl) & _). exists l. split; [done|]. eapply Forall_impl; [done|].
  intros q [->|[? ->]]; done.
Qed.
Lemma silent_creates_none w w' : silent cfg any w w' → creates_none w w'.
Proof. intros (_ & L & _). by apply same_ran. Qed.
Lemma run_creates_none argv env : argv ≠ INIT → runs_in creates_none (run argv env).
Proof.
  intros Hn w r w' [[-> _]|(envs & x & e' & _ & _ & -> & _)]%run_inv; [by apply same_ran|].
  eexists. split; [done|]. by apply Forall_singleton.
Qed.

Lemma set_password_creates_none st new : runs_in creates_none (set_password cfg st new).
Proof.
  assert (Hs : ∀ A (c : ST W fault A), runs_in (silent cfg any) c → runs_in creates_none c)
    by (intros A c Hc w r w' H; by eapply silent_creates_none, Hc).
  unfold set_password. destruct (truthy _); [|apply runs_ret; apply _]. cbn [negb].
  apply runs_bind; [apply _|by apply Hs, pure_silent|intros repo].
  destruct (truthy repo); [|apply runs_ret; apply _]. cbn [negb].
  apply runs_bind; [apply _|by apply Hs, write_secret_silent|intros cur_pf].
  apply runs_bind; [apply _|by apply Hs, write_secret_silent|intros new_pf].
  apply runs_bind; [apply _| |intros c].
  - apply finally_in; [apply _|by apply run_creates_none|].
    apply runs_bind; [apply _| |intros []]; intros w r w' (L & _)%(op_modify_run any); by apply same_ran.
  - destruct (negb _); [apply runs_ret; apply _|].
    apply runs_bind; [apply _| |intros []].
    { intros w r w' [(L & _) _]%(save_store_run cfg any). by apply same_ran. }
    apply runs_bind; [apply _| |intros []; apply runs_ret; apply _].
    intros w r w' (L & _)%(write_pass_run cfg any). by apply same_ran.
Qed.
Lemma mint_creates_none st replace : runs_in creates_none (mint_and_keep cfg st replace).
Proof.
  unfold mint_and_keep. apply runs_bind; [apply _| |intros new].
  { intros w r w' H. by eapply silent_creates_none, urandom_silent. }
  apply runs_bind; [apply _| |intros repo].
  { intros w r w' H. by eapply silent_creates_none, pure_silent. }
  apply runs_bind; [apply _| |intros [text|]].
  { destruct (truthy repo); [|apply runs_ret; apply _]. apply runs_bind; [apply _| |intros rc; apply runs_ret; apply _].
    intros w r w' H. by eapply calm_creates_none, cat_config_calm. }
  { apply runs_ret; apply _. }
  apply runs_bind; [apply _| |intros []].
  { intros w r w' [(L & _) _]%(save_store_run cfg any). by apply same_ran. }
  apply runs_bind; [apply _| |intros []; apply runs_ret; apply _].
  destruct replace; [|apply runs_ret; apply _].
  intros w r w' (L & _)%(write_pass_run cfg any). by apply same_ran.
Qed.
Lemma generate_creates_none st replace : runs_in creates_none (cmd_generate cfg st replace).
Proof.
  unfold cmd_generate. destruct (truthy _); [|apply mint_creates_none].
  destruct (negb _); [apply runs_ret; apply _|]. apply runs_bind; [apply _| |intros [hold|]].
  { intros w r w' H. by eapply silent_creates_none, (held_silent cfg any). }
  2: { apply runs_ret; apply _. }
  apply runs_bind; [apply _| |intros [here|]].
  { intros w r w' H. by eapply silent_creates_none, pure_silent. }
  2: { apply runs_ret; apply _. }
  case_bool_decide as Hb; [|apply mint_creates_none]. unfold rekey_fresh. destruct (negb _); [apply runs_ret; apply _|].
  apply runs_bind; [apply _| |intros new].
  { intros w r w' H. by eapply silent_creates_none, urandom_silent. }
  apply runs_bind; [apply _|apply set_password_creates_none|intros d; apply runs_ret; apply _].
Qed.
Lemma rotate_creates_none st req : runs_in creates_none (cmd_rotate cfg st req).
Proof.
  unfold cmd_rotate. apply runs_bind; [apply _| |intros [hold|]].
  { intros w r w' H. by eapply silent_creates_none, (held_silent cfg any). }
  { apply runs_ret; apply _. }
  case_bool_decide; [apply runs_ret; apply _|apply set_password_creates_none].
Qed.

(** If a run runs [restic init], it is the third and last of its
    commands: the repository's own question came first and answered that
    there is none, the listing of the same endpoint and path came second and
    found nothing, and all three were given the same address. *)
Theorem init_only_empty stdin w r w' l env x :
  main cfg stdin w = (r, w') → ran w' = (ran w ++ l)%list → (INIT, env, x) ∈ l →
  ∃ env1 c1 env2 c2 repo scheme host path,
    l = [(CAT, env1, inr c1); (["rclone"; "lsf"; "dest:" +:+ path], env2, inr c2); (INIT, env, x)] ∧
    returncode c1 = NO_REPOSITORY ∧
    strip (first_line (stdout c2)) = "" ∧ (returncode c2 = 0%Z ∨ returncode c2 = RCLONE_DIR_NOT_FOUND) ∧
    dget "RESTIC_REPOSITORY" env1 = Some repo ∧ dget "RESTIC_REPOSITORY" env = Some repo ∧
    location_of repo = Some (scheme, host, path) ∧
    dget "RCLONE_CONFIG_DEST_ENDPOINT" env2 = Some (scheme +:+ "://" +:+ host).
Proof.
  intros H Hl Hin. assert (Hno : ¬ creates_none w w').
  { intros (l' & Hl' & Hf). rewrite Hl' in Hl. apply app_inv_head in Hl as ->.
    rewrite Forall_forall in Hf. by apply (Hf _ Hin). }
  apply main_inv in H as [[-> _]|(req & r' & _ & H & _)]; [by destruct Hno|].
  apply (operation_inv cfg any) in H as [[S _]|(st & w1 & _ & S & H)]; [by destruct Hno; eapply silent_creates_none|].
  assert (Hno1 : ¬ creates_none w1 w').
  { intros Hc. apply Hno. etrans; [by eapply silent_creates_none|done]. }
  destruct H as [[_ H]|[[_ H]|[[_ H]|[_ H]]]];
    [by destruct Hno1; eapply generate_creates_none| |by destruct Hno1; eapply rotate_creates_none|].
  { destruct Hno1. by eapply calm_creates_none, cmd_validate_calm. }
  apply (cmd_init_run cfg any apart) in H as [_ [[Hc _]|(s & c & w2 & w3 & _ & Hcat & R10 & Hls & Hi)]];
    [by destruct Hno1; eapply calm_creates_none|].
  destruct Hcat as (pf1 & env1 & fs1 & e1 & e1' & He1 & _ & _ & _ & _ & L1).
  destruct Hls as (scheme & host & path & renv & env2 & c2 & _ & Hloc & Hep & He2 & Hf & Hrc & L2).
  destruct Hi as (pf3 & env3 & fs3 & e3 & x3 & e3' & He3 & _ & _ & _ & _ & L3 & _).
  destruct S as (_ & L0 & _). rewrite L3, L2, L1, L0, <-!app_assoc in Hl. apply app_inv_head in Hl as <-.
  cbn in Hin. elem_cases Hin; [done|done|]. injection Hin as -> ->.
  destruct (env_repo_string _ _ _ _ He1) as (repo & Hr & Hg1). destruct (env_repo_string _ _ _ _ He3) as (repo3 & Hr3 & Hg3).
  rewrite Hr in Hr3. injection Hr3 as <-. rewrite Hr in Hloc. cbn in Hloc. injection Hloc as Hloc.
  destruct (env_strings_get _ _ _ _ He2 Hep) as (ep & [= <-] & Hep2).
  exists env1, c, env2, c2, repo, scheme, host, path. done.
Qed.
End created.

(** * What a success says of the repository *)

Section opens.
Context {E : Type} `{!Outside E} (cfg : settings).
Context {temps : Temps cfg} (apart : store_path cfg ≠ pass_file cfg).
Abbreviation W := (@world E).
Implicit Types (w : W).

(** The repositories reachable from here: by address, the passwords that open
    one, or [None] where there is none. *)
Context (keys_at : string → E → option (list string)).
Definition same_keys : relation E := λ e e', ∀ repo, keys_at repo e' = keys_at repo e.
#[export] Instance same_keys_preorder : PreOrder same_keys.
Proof. split; [by intros e|]. intros e1 e2 e3 H1 H2 repo. by rewrite H2. Qed.

Definition opened_by (repo password : string) e : Prop :=
  ∃ ks, keys_at repo e = Some ks ∧ strip password ∈ ks.

(** The documented behaviour of restic over a password file, whose text it
    strips: [cat config] exits 0 when the password opens the repository and 10
    when there is none, [init] makes one the password opens, [key passwd]
    leaves it opened by the new one; refusals of the host, temporary names and
    questions change no repository. *)
Class Restic : Prop := {
  restic_keeps : Keeps same_keys;
  restic_cat env fs e c e' repo pf password :
    run_cmd CAT env fs e = (inr c, e') → dget "RESTIC_REPOSITORY" env = Some repo →
    dget "RESTIC_PASSWORD_FILE" env = Some pf → f_text <$> fs !! pf = Some password →
    (returncode c = 0%Z → opened_by repo password e) ∧
    (returncode c = NO_REPOSITORY → keys_at repo e = None);
  restic_init env fs e c e' repo pf password :
    run_cmd INIT env fs e = (inr c, e') → returncode c = 0%Z → dget "RESTIC_REPOSITORY" env = Some repo →
    dget "RESTIC_PASSWORD_FILE" env = Some pf → f_text <$> fs !! pf = Some password →
    opened_by repo password e';
  restic_passwd env fs e c e' repo new_pf password :
    run_cmd (PASSWD new_pf) env fs e = (inr c, e') → returncode c = 0%Z → dget "RESTIC_REPOSITORY" env = Some repo →
    f_text <$> fs !! new_pf = Some password → opened_by repo password e'
}.
Context {restic : Restic}.
#[local] Existing Instance restic_keeps.

Lemma strip_line s : strip (s +:+ String nl "") = strip s.
Proof. unfold strip, strip_of. by rewrite rstrip_of_tail. Qed.
Lemma opened_line repo s e : opened_by repo (s +:+ String nl "") e → opened_by repo s e.
Proof. intros (ks & ? & Hk). exists ks. by rewrite <-strip_line. Qed.
Lemma opened_later repo s e e' : same_keys e e' → opened_by repo s e → opened_by repo s e'.
Proof. intros Hk (ks & ? & ?). exists ks. by rewrite Hk. Qed.
Lemma env_pf_string pf d envs : mapM_res env_string (dset "RESTIC_PASSWORD_FILE" (VStr pf) d) = Ok envs →
  dget "RESTIC_PASSWORD_FILE" envs = Some pf.
Proof.
  intros He. destruct (env_strings_get "RESTIC_PASSWORD_FILE" _ _ (VStr pf) He) as (s & [= <-] & Hs); [by rewrite dget_dset_eq|done].
Qed.

Lemma rekeyed_opens st new w w' repo :
  repo_of st = VStr repo → rekeyed cfg same_keys st new w w' → opened_by repo new (ext w').
Proof.
  intros Hr (cur & cur_pf & new_pf & envs & fs & e & c & e' & _ & He & _ & Hf & Hrun & Hrc & _ & Hk & _).
  destruct (env_repo_string _ _ _ _ He) as (repo' & Hr' & Hg). rewrite Hr in Hr'. injection Hr' as <-.
  eapply opened_later; [done|]. eapply opened_line, restic_passwd; eauto.
Qed.
Lemma asked_opens st s c w w' repo : repo_of st = VStr repo →
  ran_with same_keys CAT (restic_env cfg st) s c w w' → returncode c = 0%Z → opened_by repo s (ext w').
Proof.
  intros Hr (pf & envs & fs & e & e' & He & Hf & Hrun & Hk1 & Hk2 & _) Hrc.
  destruct (env_repo_string _ _ _ _ He) as (repo' & Hr' & Hg). rewrite Hr in Hr'. injection Hr' as <-.
  eapply opened_later; [done|]. pose proof (keeps_question same_keys CAT envs fs e (or_introl eq_refl)) as Hq.
  rewrite Hrun in Hq. eapply opened_later; [exact Hq|]. eapply opened_line.
  eapply (restic_cat _ _ _ _ _ _ _ _ Hrun); eauto using env_pf_string.
Qed.
Lemma init_opens st s d w w' repo : repo_of st = VStr repo → truthy (vget "ok" d) = true →
  init_ran same_keys (restic_env cfg st) s (inr d) w w' → opened_by repo s (ext w').
Proof.
  intros Hr Hok (pf & envs & fs & e & x & e' & He & Hf & Hrun & _ & Hk & _ & Hd).
  destruct (Hd d eq_refl Hok) as (c & -> & Hrc).
  destruct (env_repo_string _ _ _ _ He) as (repo' & Hr' & Hg). rewrite Hr in Hr'. injection Hr' as <-.
  eapply opened_later; [done|]. eapply opened_line, restic_init; eauto using env_pf_string.
Qed.
Lemma unclaimed_free st new w w' repo :
  repo_of st = VStr repo → repo ≠ "" → unclaimed cfg same_keys st new w w' → keys_at repo (ext w') = None.
Proof.
  intros Hr Hne [Ht|(c & w1 & (pf & envs & fs & e & e' & He & Hf & Hrun & Hk1 & Hk2 & _) & Hrc & _ & Hk3)].
  { rewrite Hr in Ht. cbn in Ht. by rewrite bool_decide_false in Ht. }
  destruct (env_repo_string _ _ _ _ He) as (repo' & Hr' & Hg). rewrite Hr in Hr'. injection Hr' as <-.
  rewrite (Hk3 repo), (Hk2 repo).
  pose proof (keeps_question same_keys CAT envs fs e (or_introl eq_refl)) as Hq. rewrite Hrun in Hq. cbn in Hq. rewrite (Hq repo).
  eapply (restic_cat _ _ _ _ _ _ _ _ Hrun); eauto using env_pf_string.
Qed.

(** The new store, read back. *)
Lemma stored_load st new w w' : load (text_of w (store_path cfg)) = Ok st → stored_as cfg st new w w' →
  ∃ st', load (text_of w' (store_path cfg)) = Ok st' ∧ vget PW (secrets st') = VStr new ∧
    ∀ repo, repo_of st' = VStr repo → repo_of st = VStr repo.
Proof.
  intros Hl (text & Hd & Ht). pose proof (wf_load _ _ Hl) as Hwf.
  unfold dump in Hd. apply res_bind_Ok in Hd as (doc & Hdoc & [= <-]).
  assert (Hwf' : wf_store (with_password (VStr new) st)).
  { destruct Hwf as [Hs Hc]. split; [|done]. cbn. apply wf_dset; [constructor|done]. }
  exists (sorted_store (with_password (VStr new) st)). rewrite Ht, load_dump_text; [|done|by eapply wf_read_doc].
  split_and!; [done| |].
  - rewrite vget_sorted_secret by done. cbn. unfold vget. by rewrite dget_dset_eq.
  - intros repo. unfold repo_of, get_or_empty. cbn [sorted_store config with_password with_secrets]. destruct Hwf as [_ Hc].
    rewrite dget_sort_dict by by apply wf_keys. destruct (dget _ _) as [v|]; cbn; [|done].
    destruct v; cbn; done.
Qed.

(** Claim C17: what a run that prints success, and exits with 0, promises, by
    its operation; there are four.  After a rotation the stored password is the
    requested one, in the pass file too, and it opens the repository the store
    names; after an [init] the stored password opens that repository; after a
    generate the stored password is the printed one, and the repository at the
    store's address is opened by it or does not exist yet; after a validate
    the store is what it was, and the password that was asked about, not empty,
    opens the repository the store names. *)
Theorem restic_ok_opens stdin w out w' :
  main cfg stdin w = (inr (out, 0%Z), w') →
  ∃ req st', request_of stdin req ∧ load (text_of w' (store_path cfg)) = Ok st' ∧
    vget "op" req ∈ [VStr "generate"; VStr "validate"; VStr "rotate"; VStr "init"] ∧
    (vget "op" req = VStr "rotate" → ∃ new, vget PW (secrets st') = VStr new ∧ new = str_or (vget "new_password" req) ∧
       text_of w' (pass_file cfg) = Some (new +:+ String nl "") ∧
       ∀ repo, repo_of st' = VStr repo → opened_by repo new (ext w')) ∧
    (vget "op" req = VStr "init" → ∃ password, get_or_empty PW (secrets st') = VStr password ∧
       ∀ repo, repo_of st' = VStr repo → opened_by repo password (ext w')) ∧
    (vget "op" req = VStr "generate" → ∃ new, vget PW (secrets st') = VStr new ∧
       out = dumps default_style (VDict (generated new)) ∧
       ∀ repo, repo_of st' = VStr repo → repo ≠ "" → keys_at repo (ext w') = None ∨ opened_by repo new (ext w')) ∧
    (vget "op" req = VStr "validate" → text_of w' (store_path cfg) = text_of w (store_path cfg) ∧
       str_or (vget "password" req) ≠ "" ∧ truthy (repo_of st') = true ∧
       ∀ repo, repo_of st' = VStr repo → opened_by repo (str_or (vget "password" req)) (ext w')).
Proof.
  intros [[_ [? ?]]|(req & r' & Hq & H & Hr)]%main_inv; [done|]. destruct r' as [e|d]; [done|].
  destruct (truthy (vget "ok" d)) eqn:Hok; [|done]. injection Hr as ->. exists req.
  apply (operation_inv cfg same_keys) in H as [[_ [? ?]]|(st & w1 & Hl & S & H)]; [done|].
  pose proof (silent_frozen _ _ _ _ S) as F1.
  destruct H as [[Hop H]|[[Hop H]|[[Hop H]|[Hop H]]]].
  - apply (cmd_generate_run cfg same_keys apart) in H as [[_ Hn]|(new & Hs & Hg & Hd)]; [by rewrite (Hn d) in Hok|].
    destruct (Hd d eq_refl) as [-> _]. apply (stored_as_frozen _ _ _ _ _ _ F1) in Hs.
    destruct (stored_load _ _ _ _ Hl Hs) as (st' & Hl' & Hp & Hrepo). exists st'. rewrite Hop.
    split_and!; [done|done|by left|done|done| |done]. intros _. exists new. split_and!; [done..|]. intros repo Hr Hne. apply Hrepo in Hr.
    destruct Hg as [[_ Hu]|(_ & _ & hold & here & _ & _ & [(_ & _ & Hk)|[_ Hu]])];
      [left; by eapply unclaimed_free|right; by eapply rekeyed_opens|left; by eapply unclaimed_free].
  - pose proof (cmd_validate_calm cfg same_keys _ _ _ _ _ H) as C. exists st. rewrite Hop.
    assert (text_of w' (store_path cfg) = text_of w (store_path cfg)) as Ht
      by (etrans; [by eapply frozen_text, calm_frozen|by apply frozen_text]).
    split_and!; [done|by rewrite Ht|by right; left|done..|]. intros _.
    apply (cmd_validate_ok cfg same_keys) in H as (Hp & Hr & c & Hc & Hc0); [|done]. split_and!; [done..|].
    intros repo Hrepo. by eapply asked_opens.
  - apply (cmd_rotate_run cfg same_keys apart) in H as [[_ Hn]|(new & Hn & _ & Hs & Hk & Hd)]; [by rewrite (Hn d) in Hok|].
    destruct (Hd d eq_refl) as [-> Hp]. apply (stored_as_frozen _ _ _ _ _ _ F1) in Hs.
    destruct (stored_load _ _ _ _ Hl Hs) as (st' & Hl' & Hpw & Hrepo). exists st'. rewrite Hop.
    split_and!; [done|done|by do 2 right; left| |done..]. intros _. exists new. split_and!; [done..|]. intros repo Hr. apply Hrepo in Hr.
    by eapply rekeyed_opens.
  - apply (cmd_init_run cfg same_keys apart) in H as [F Hc]. exists st. rewrite Hop.
    split_and!; [done| |by do 3 right; left|done| |done..].
    { rewrite <-Hl. f_equal. etrans; [by apply frozen_text|by apply frozen_text]. }
    intros _. destruct Hc as [[_ Hx]|(s & c & w2 & w3 & Hs & _ & _ & _ & Hi)].
    + destruct (Hx d eq_refl Hok) as (s & c & Hs & Hcat & R0). exists s. split; [done|]. intros repo Hr.
      by eapply asked_opens.
    + exists s. split; [done|]. intros repo Hr. by eapply init_opens.
Qed.
End opens.

(** * A host with one bucket *)

Module Vault.
Record vault := { repos : gmap string (list string); taken : nat; full : bool }.

Definition cfg : settings :=
  {| environ := [("PATH", "/usr/bin")]; store_path := "/etc/catena/config.json";
     pass_file := "/etc/catena/restic.pass"; held_file := "/var/lib/catena/backup-held.json" |}.

Definition exits (rc : Z) (e : vault) : (exn + completed) * vault :=
  (inr {| returncode := rc; stdout := ""; stderr := "" |}, e).
Definition with_repo (repo : string) (ks : list string) (e : vault) : vault :=
  {| repos := <[repo := ks]> (repos e); taken := taken e; full := full e |}.

Definition password_of (env : dict string) (fs : gmap string file) : option string :=
  pf ← dget "RESTIC_PASSWORD_FILE" env; f ← fs !! pf; Some (strip (f_text f)).
Definition new_of (argv : list string) (fs : gmap string file) : option string :=
  match argv with
  | [a; b; c; d; pf] =>
      if bool_decide (PASSWD pf = argv) then f ← fs !! pf; Some (strip (f_text f)) else None
  | _ => None
  end.

Definition restic (argv : list string) (env : dict string) (fs : gmap string file) (e : vault) :
    (exn + completed) * vault :=
  match dget "RESTIC_REPOSITORY" env, password_of env fs with
  | Some repo, Some password =>
      match repos e !! repo with
      | None => if bool_decide (argv = CAT) then exits 10 e
                else if bool_decide (argv = INIT) then exits 0 (with_repo repo [password] e) else exits 1 e
      | Some ks => if negb (bool_decide (password ∈ ks)) then exits 12 e
                   else if bool_decide (argv = CAT) then exits 0 e
                   else match new_of argv fs with
                        | Some new => exits 0 (with_repo repo [new] e)
                        | None => exits 1 e
                        end
      end
  | _, _ => exits 1 e
  end.

#[export] Instance outside : Outside vault := {
  run_cmd argv env fs e := if bool_decide (head argv = Some "rclone") then exits 0 e else restic argv env fs e;
  mkstemp fs e :=
    let name := "/tmp/catena-restic-" +:+ str_of_int (Z.of_nat (taken e)) +:+ ".pass" in
    (if bool_decide (fs !! name = None) then inr name else inl OSError,
     {| repos := repos e; taken := S (taken e); full := full e |});
  refuses p e := (full e && bool_decide (p = "/etc/catena/config.json.tmp"), e);
  urandom_at _ := "a"%char;
  umask_mode := 420 }.

#[export] Instance temps : Temps cfg.
Proof.
  intros fs e name e'. cbn [mkstemp outside]. case_bool_decide as Hf; [|by intros].
  intros [= <- _]. split; [exact Hf|]. intros H. unfold protected in H. elem_cases H; discriminate H.
Qed.

Definition keys_at (repo : string) (e : vault) : option (list string) := repos e !! repo.

Lemma restic_asks argv env fs e : argv = CAT → (restic argv env fs e).2 = e.
Proof.
  intros ->. unfold restic. repeat (case_match; try reflexivity).
Qed.

Lemma restic_eq argv env fs e : head argv ≠ Some "rclone" → run_cmd argv env fs e = restic argv env fs e.
Proof. intros H. cbn [run_cmd outside]. by rewrite bool_decide_false. Qed.
Lemma password_of_eq env fs pf text :
  dget "RESTIC_PASSWORD_FILE" env = Some pf → f_text <$> fs !! pf = Some text → password_of env fs = Some (strip text).
Proof.
  intros H1 H2. unfold password_of. rewrite H1. cbn [mbind option_bind].
  destruct (fs !! pf) as [f|]; [|discriminate H2]. cbn in H2. injection H2 as <-. reflexivity.
Qed.

#[export] Instance restic_laws : Restic keys_at.
Proof.
  split.
  - split; [reflexivity|intros ?? ?; reflexivity|]. intros argv env fs e [->|[path ->]] repo; [|reflexivity].
    rewrite restic_eq by discriminate. by rewrite restic_asks.
  - intros env fs e c e' repo pf text H Hr Hp Hf. rewrite restic_eq in H by discriminate.
    unfold restic in H. rewrite Hr, (password_of_eq _ _ _ _ Hp Hf) in H. unfold opened_by, keys_at.
    destruct (repos e !! repo) as [ks|]; [|injection H as <- <-; split; [discriminate|reflexivity]].
    case_bool_decide as Hin; injection H as <- <-; (split; [|discriminate]); [eauto|discriminate].
  - intros env fs e c e' repo pf text H Hrc Hr Hp Hf. rewrite restic_eq in H by discriminate.
    unfold restic in H. rewrite Hr, (password_of_eq _ _ _ _ Hp Hf) in H. unfold opened_by, keys_at.
    destruct (repos e !! repo) as [ks|].
    + case_bool_decide; injection H as <- <-; discriminate.
    + injection H as <- <-. cbn. rewrite lookup_insert, decide_True by reflexivity. eexists. split; [reflexivity|]. by left.
  - intros env fs e c e' repo new_pf text H Hrc Hr Hf. rewrite restic_eq in H by discriminate.
    unfold restic in H. rewrite Hr in H. unfold opened_by, keys_at.
    destruct (password_of env fs) as [pw|]; [|injection H as <- <-; discriminate].
    destruct (repos e !! repo) as [ks|]; [|injection H as <- <-; discriminate].
    case_bool_decide; cbn [negb] in H; [|injection H as <- <-; discriminate].
    rewrite bool_decide_false in H by discriminate. unfold new_of, PASSWD in H. rewrite bool_decide_true in H by reflexivity.
    destruct (fs !! new_pf) as [f|]; [|discriminate Hf]. cbn in Hf. injection Hf as <-. injection H as <- <-.
    cbn. rewrite lookup_insert, decide_True by reflexivity. eexists. split; [reflexivity|]. by left.
Qed.

(** A store with a destination, with and without a password. *)
Definition text (password : string) : string :=
  dumps default_style (VDict [("secrets", VDict [("backup_s3_access_key", VStr "ak"); ("backup_s3_secret_key", VStr "sk");
                                                ("backup_restic_password", VStr password)]);
                              ("config", VDict [("BACKUP_RESTIC_REPO", VStr "s3:ep/bucket")]);
                              ("schedules", VInt 3)]).
Definition w0 (password : string) (ks : option (list string)) (held full : bool) : world :=
  {| files := (if held then <["/var/lib/catena/backup-held.json" := {| f_mode := 384; f_text :=
                 dumps default_style (VDict [("settings", VStr "s3:https://ep/bucket/"); ("choice", VStr "fresh")]) |}]> else id)
              {["/etc/catena/config.json" := {| f_text := text password; f_mode := 384 |}]};
     ran := []; pos := 0;
     ext := {| repos := match ks with Some ks => {["s3:ep/bucket" := ks]} | None => ∅ end; taken := 0; full := full |} |}.
Definition rotate : string := dumps default_style (VDict [("op", VStr "rotate"); ("new_password", VStr "new")]).
Definition init : string := dumps default_style (VDict [("op", VStr "init")]).
Definition fresh : string := dumps default_style (VDict [("op", VStr "generate"); ("replace", VBool true)]).

Definition out (r : (fault + string * Z) * world (E := vault)) : fault + string * Z := r.1.
End Vault.

Section witnesses.
Import Vault.

Lemma password_replaced_only_witness :
  let w := w0 "old" (Some ["old"]) false false in
  let w' := (main cfg rotate w).2 in
  text_of w' (store_path cfg) ≠ text_of w (store_path cfg) ∧
  (text_of w' (store_path cfg) = text_of w (store_path cfg) ∨
  ∃ req st new, request_of rotate req ∧ load (text_of w (store_path cfg)) = Ok st ∧ stored_as cfg st new w w' ∧
    (vget "op" req = VStr "rotate" ∧ files w !! held_file cfg = None ∧
       new = str_or (vget "new_password" req) ∧ rekeyed cfg (λ _ _, True) st new w w' ∨
     vget "op" req = VStr "generate" ∧
       may_generate cfg (λ _ _, True) st (bool_decide (vget "replace" req = VBool true)) new w w')).
Proof.
  intros w w'. split; [vm_compute; discriminate|].
  eapply (password_replaced_only cfg); [discriminate|apply surjective_pairing].
Defined.

Lemma init_only_empty_witness :
  let w := w0 "old" None false false in
  let w' := (main cfg init w).2 in
  ∃ env1 c1 env2 c2 repo scheme host path env,
    ran w' = [(CAT, env1, inr c1); (["rclone"; "lsf"; "dest:" +:+ path], env2, inr c2);
              (INIT, env, inr {| returncode := 0; stdout := ""; stderr := "" |})] ∧
    location_of repo = Some (scheme, host, path).
Proof.
  intros w w'.
  assert (Hr : ∃ l env, ran w' = l ∧ (INIT, env, inr {| returncode := 0; stdout := ""; stderr := "" |}) ∈ l).
  { vm_compute. do 2 eexists. split; [reflexivity|]. right. right. left. }
  destruct Hr as (l & env & Hl & Hin).
  destruct (init_only_empty cfg ltac:(discriminate) init w _ w' l env _ (surjective_pairing _) Hl Hin)
    as (env1 & c1 & env2 & c2 & repo & scheme & host & path & -> & _ & _ & _ & _ & _ & Hloc & _).
  exists env1, c1, env2, c2, repo, scheme, host, path, env. split; [exact Hl|exact Hloc].
Defined.

Lemma restic_ok_opens_witness :
  let w := w0 "old" (Some ["old"]) true false in
  let w' := (main cfg fresh w).2 in
  ∃ st' new, load (text_of w' (store_path cfg)) = Ok st' ∧ vget PW (secrets st') = VStr new ∧
    opened_by keys_at "s3:ep/bucket" new (ext w').
Proof.
  intros w w'.
  set (new := "YWFhYWFhYWFhYWFhYWFhYWFhYWFhYWFhYWFhYWFhYWFhYWFhYWFhYWFhYWFhYWFh").
  assert (Hm : main cfg fresh w = (inr (dumps default_style (VDict (generated new)), 0%Z), w')).
  { unfold w'. rewrite (surjective_pairing (main cfg fresh w)) at 1. apply pair_equal_spec. split; [vm_compute; reflexivity|reflexivity]. }
  destruct (restic_ok_opens cfg ltac:(discriminate) keys_at fresh w _ w' Hm) as (req & st' & Hq & Hl & _ & _ & _ & Hg & _).
  assert (Hop : vget "op" req = VStr "generate").
  { assert (Hq' : request_of fresh [("op", VStr "generate"); ("replace", VBool true)]) by reflexivity.
    unfold request_of in Hq, Hq'. rewrite Hq in Hq'. injection Hq' as ->. reflexivity. }
  destruct (Hg Hop) as (p & Hp & Hout & Hrepo). exists st', p. split; [exact Hl|]. split; [exact Hp|].
  assert (Hr : ∃ st, load (text_of w' (store_path cfg)) = Ok st ∧ repo_of st = VStr "s3:ep/bucket")
    by (vm_compute; eexists; split; reflexivity).
  destruct Hr as (st & Hst & Hr). rewrite Hl in Hst. injection Hst as <-.
  destruct (Hrepo _ Hr ltac:(discriminate)) as [Hn|Ho]; [|exact Ho].
  exfalso. revert Hn. vm_compute. discriminate.
Defined.

(** A full disk between the re-key and the store: the repository is left under
    a password that is kept nowhere and was printed to nobody. *)
Example fresh_password_lost :
  let w := w0 "old" (Some ["old"]) true true in
  let '(r, w') := main cfg fresh w in
  r = inl (Raised OSError) ∧ text_of w' (store_path cfg) = text_of w (store_path cfg) ∧
  text_of w' (pass_file cfg) = None ∧
  keys_at "s3:ep/bucket" (ext w') = Some ["YWFhYWFhYWFhYWFhYWFhYWFhYWFhYWFhYWFhYWFhYWFhYWFhYWFhYWFhYWFhYWFh"].
Proof. vm_compute. done. Qed.
End witnesses.
