(* ===== verification/TailnetCheck.v ===== *)
(** [ansible/scripts/catena-tailnet-check.py]: whether the tailnet credentials
    a Settings save would store can join, asked of Tailscale or of the
    Headscale server.  What is outside, and the record of what was asked, are
    those of [TailnetReachability]. *)
From S2P Require Import Prelude PyStr PyNum PyVal Json Encoding Sha256 Effects UrlLib TailnetReachability.

#[local] Open Scope string_scope.

Definition TAILSCALE_API : string := "https://api.tailscale.com/api/v2".
Definition HEADSCALE_MIN_VERSION : Z * Z := (0, 29)%Z.

Section check.
Context {E : Type} `{!Outside E}.
Abbreviation M := (ST (@world E) fault).

(** [_http]: a [ValueError] on the way is no answer either. *)
Definition http : request → M (Z * val) := λ q,
  catch (TailnetReachability.http q) (λ f,
    match f with Raised ValueError _ => mret (0%Z, VNone) | _ => throw f end).

(** [str(req.get(k) or "").strip()] *)
Definition setting (k : string) (req : dict val) : string := strip (str_or (vget k req)).

Definition tags (req : dict val) : list string :=
  List.filter (λ t, negb (bool_decide (t = ""))) (map strip (split "," (str_or (vget "TAILSCALE_TAGS" req)))).

Definition token_request (client_id secret : string) : request := {|
  h_method := "POST"; h_url := TAILSCALE_API +:+ "/oauth/token";
  h_headers := [("Authorization", "Basic " +:+ b64encode (utf8 (client_id +:+ ":" +:+ secret)));
                ("Content-Type", "application/x-www-form-urlencoded")];
  h_data := Some (urlencode [("grant_type", "client_credentials")]) |}.
Definition key_body (tags : list string) : string :=
  dumps default_style (VDict [
    ("capabilities", VDict [("devices", VDict [("create", VDict [
       ("reusable", VBool false); ("ephemeral", VBool true); ("preauthorized", VBool true);
       ("tags", VList (map VStr tags))])])]);
    ("expirySeconds", VInt 60)]).
Definition key_request (access : string) (tags : list string) : request := {|
  h_method := "POST"; h_url := TAILSCALE_API +:+ "/tailnet/-/keys";
  h_headers := [("Authorization", "Bearer " +:+ access); ("Content-Type", "application/json")];
  h_data := Some (key_body tags) |}.
Definition devices_request (access : string) : request := {|
  h_method := "GET"; h_url := TAILSCALE_API +:+ "/tailnet/-/devices";
  h_headers := [("Authorization", "Bearer " +:+ access)]; h_data := None |}.

(** The token of an answer: an object whose [access_token] is not empty. *)
Definition access_of (token : val) : option string :=
  match token with
  | VDict d => if truthy (vget "access_token" d) then Some (py_str (vget "access_token" d)) else None
  | _ => None
  end.

Definition check_tailscale (req : dict val) : M string :=
  let client_id := setting "tailscale_oauth_client_id" req in
  let secret := setting "tailscale_oauth_client_secret" req in
  if bool_decide (client_id = "") || bool_decide (secret = "")
  then mret "the Tailscale OAuth client ID and secret are both required" else
  let tags := tags req in
  if bool_decide (tags = [])
  then mret "the private network tags are empty; the server joins under them, for example tag:vps" else
  '(code, token) ← http (token_request client_id secret);
  match (if bool_decide (code = 200%Z) then access_of token else None) with
  | None => mret ("Tailscale refused the OAuth client (HTTP " +:+ str_of_int code +:+ "); check the client ID and secret")
  | Some access =>
      '(code, _) ← http (key_request access tags);
      if negb (bool_decide (code = 200%Z))
      then mret ("the OAuth client cannot create keys tagged " +:+ sjoin ", " tags +:+ " (HTTP " +:+ str_of_int code
                 +:+ "): give it the Auth Keys write scope and those tags, and declare the tags in the tailnet policy") else
      '(code, _) ← http (devices_request access);
      if negb (bool_decide (code = 200%Z))
      then mret ("the OAuth client cannot read devices (HTTP " +:+ str_of_int code
                 +:+ "): the Lockdown asks Tailscale whether this server is connected before it closes public SSH, which needs the Devices > Core read scope")
      else mret ""
  end.

(** [_VERSION.match]: the first two numbers of [v?(\d+)\.(\d+)\.(\d+)]. *)
Fixpoint span_digits (s : string) : string * string :=
  match s with
  | String a s' => if is_digit a then let '(d, r) := span_digits s' in (String a d, r) else ("", s)
  | EmptyString => ("", "")
  end.
Definition some_digits (s : string) : option (string * string) :=
  let '(d, r) := span_digits s in if bool_decide (d = "") then None else Some (d, r).
Definition after_char (c : ascii) (s : string) : option string :=
  match s with String a s' => if is_char c a then Some s' else None | EmptyString => None end.
Definition match_version (s : string) : option (string * string) :=
  '(major, r) ← some_digits (default s (after_char "v" s));
  r ← after_char "." r;
  '(minor, r) ← some_digits r;
  r ← after_char "." r;
  _ ← some_digits r;
  Some (major, minor).

Definition version_request (url : string) : request := {|
  h_method := "GET"; h_url := url +:+ "/version"; h_headers := []; h_data := None |}.
Definition minimum : string :=
  sjoin "." [str_of_int HEADSCALE_MIN_VERSION.1; str_of_int HEADSCALE_MIN_VERSION.2].

Definition headscale_version_reason (url : string) : M string :=
  '(code, body) ← http (version_request url);
  if bool_decide (code = 0%Z) then mret ("the Headscale server at " +:+ url +:+ " does not answer") else
  let version := match body with VDict d => str_or (vget "version" d) | _ => "" end in
  if negb (bool_decide (code = 200%Z)) || bool_decide (version = "")
  then mret ("the Headscale server at " +:+ url +:+ " does not report its version (GET /version answered HTTP "
             +:+ str_of_int code +:+ "); Headscale " +:+ minimum +:+ " or later is required") else
  match match_version version with
  | None => mret ("the Headscale server at " +:+ url +:+ " reports version " +:+ repr_str version
                  +:+ ", which is not a release number; Headscale " +:+ minimum +:+ " or later is required")
  | Some (major, minor) =>
      major ← pure (py_int major); minor ← pure (py_int minor);
      if (major <? HEADSCALE_MIN_VERSION.1)%Z
         || ((major =? HEADSCALE_MIN_VERSION.1)%Z && (minor <? HEADSCALE_MIN_VERSION.2)%Z)
      then mret ("the Headscale server at " +:+ url +:+ " runs " +:+ version +:+ "; Headscale " +:+ minimum +:+ " or later is required")
      else mret ""
  end.

Definition user_request (url api_key : string) : request := {|
  h_method := "GET"; h_url := url +:+ "/api/v1/user";
  h_headers := [("Authorization", "Bearer " +:+ api_key)]; h_data := None |}.

(** [{str(u.get("name") or "") for u in body.get("users") or []}] *)
Definition user_names (body : dict val) : res (list string) :=
  users ← iter_or (vget "users" body);
  mapM_res (λ u, name ← attr_get "name" u; Ok (str_or name)) users.

Definition check_headscale (req : dict val) : M string :=
  let url := rstrip_char "/" (setting "TAILNET_CONTROL_URL" req) in
  parts ← pure (urlsplit url "");
  if negb (bool_decide (u_scheme parts ∈ ["http"; "https"]))
  then mret "the Headscale server address must start with http:// or https://" else
  let api_key := setting "headscale_api_key" req in
  let preauth := setting "headscale_preauth_key" req in
  if bool_decide (api_key = "") && bool_decide (preauth = "")
  then mret "a Headscale API key or pre-authentication key is required" else
  let user := setting "HEADSCALE_USER" req in
  if negb (bool_decide (api_key = "")) && bool_decide (user = "")
  then mret "the Headscale user is required: the server's key is minted for that user" else
  reason ← headscale_version_reason url;
  if negb (bool_decide (reason = "")) || bool_decide (api_key = "") then mret reason else
  '(code, body) ← http (user_request url api_key);
  if bool_decide (code = 0%Z) then mret ("the Headscale server at " +:+ url +:+ " does not answer") else
  match (if bool_decide (code = 200%Z) then as_dict body else None) with
  | None => mret ("the Headscale server refused the API key (HTTP " +:+ str_of_int code +:+ ")")
  | Some body =>
      names ← pure (user_names body);
      if bool_decide (user ∈ names) then mret "" else mret ("the Headscale server has no user named " +:+ user)
  end.

Definition check (req : dict val) : M (dict val) :=
  let provider := lower (setting "TAILNET_PROVIDER" req) in
  reason ← (if bool_decide (provider = "tailscale") then check_tailscale req
            else if bool_decide (provider = "headscale") then check_headscale req
            else mret ("unknown tailnet provider " +:+ repr_str provider));
  mret [("valid", VBool (bool_decide (reason = ""))); ("reason", VStr reason)].

(** [main]: the text printed and the exit code. *)
Definition main (stdin : string) : M (string * Z) :=
  result ← match loads (if bool_decide (stdin = "") then "{}" else stdin) with
           | Ok (VDict req) => check req
           | _ => mret [("valid", VBool false); ("reason", VStr "the request is not a JSON object")]
           end;
  mret (dumps default_style (VDict result), if truthy (vget "valid" result) then 0%Z else 1%Z).
End check.

Example version_release : match_version "v0.29.0-beta.1" = Some ("0", "29"). Proof. reflexivity. Qed.
Example version_two_numbers : match_version "0.29" = None. Proof. reflexivity. Qed.
Example version_spaced : match_version "0x.29.1" = None. Proof. reflexivity. Qed.
