(* ===== verification/TailnetCheckFacts.v ===== *)
(** What a valid verdict of [TailnetCheck] rests on, and that no verdict
    depends on the text of a credential. *)
From S2P Require Import Prelude PyStr PyNum PyVal Json Encoding Sha256 Effects UrlLib TailnetReachability TailnetCheck.

#[local] Open Scope string_scope.

Section facts.
Context {E : Type} `{!Outside E}.
Abbreviation W := (@world E).
Implicit Types (w : W).

Lemma http_run q w r w' : TailnetCheck.http q w = (r, w') →
  ∃ o, (o, ext w') = open_url q (ext w) ∧ asked w' = (asked w ++ [(q, o)])%list ∧
    r = match http_result o with inl (Raised ValueError _) => inr (0%Z, VNone) | x => x end.
Proof.
  unfold TailnetCheck.http, catch, TailnetReachability.http.
  destruct (open_url q (ext w)) as [o e]. destruct (http_result o) as [f|a] eqn:Ho.
  - destruct f as [| | |[] ]; intros H; apply pair_equal_spec in H as [<- <-]; exists o; rewrite ?Ho; done.
  - intros [= <- <-]. exists o. by rewrite Ho.
Qed.

(** A status other than 0 is an answer that was opened. *)
Definition answered (q : request) (code : Z) (v : val) w w' : Prop :=
  ∃ o, asked w' = (asked w ++ [(q, o)])%list ∧ http_result o = inr (code, v).

Lemma http_answered q w code v w' : TailnetCheck.http q w = (inr (code, v), w') → code ≠ 0%Z → answered q code v w w'.
Proof.
  intros (o & _ & Hl & Hr)%http_run Hne. exists o. split; [done|].
  destruct (http_result o) as [[| | |[] ]|a]; simplify_eq; done.
Qed.

(** * A valid verdict *)

Definition tailscale_proved (req : dict val) w w' : Prop :=
  let client_id := setting "tailscale_oauth_client_id" req in
  let secret := setting "tailscale_oauth_client_secret" req in
  client_id ≠ "" ∧ secret ≠ "" ∧ tags req ≠ [] ∧ ∃ token access v2 v3 w1 w2,
    answered (token_request client_id secret) 200 token w w1 ∧ access_of token = Some access ∧
    answered (key_request access (tags req)) 200 v2 w1 w2 ∧ answered (devices_request access) 200 v3 w2 w'.

Definition version_proved (url : string) w w' : Prop :=
  ∃ d major minor x y, answered (version_request url) 200 (VDict d) w w' ∧
    match_version (str_or (vget "version" d)) = Some (major, minor) ∧
    py_int major = Ok x ∧ py_int minor = Ok y ∧ (0 < x ∨ x = 0 ∧ 29 ≤ y)%Z.

Definition headscale_proved (req : dict val) w w' : Prop :=
  let url := rstrip_char "/" (setting "TAILNET_CONTROL_URL" req) in
  let api_key := setting "headscale_api_key" req in
  let user := setting "HEADSCALE_USER" req in
  (∃ parts, urlsplit url "" = Ok parts ∧ u_scheme parts ∈ ["http"; "https"]) ∧
  (api_key = "" ∧ setting "headscale_preauth_key" req ≠ "" ∧ version_proved url w w' ∨
   api_key ≠ "" ∧ user ≠ "" ∧ ∃ w1 body names, version_proved url w w1 ∧
     answered (user_request url api_key) 200 (VDict body) w1 w' ∧ user_names body = Ok names ∧ user ∈ names).

Lemma tailscale_ok req w w' : check_tailscale req w = (inr "", w') → tailscale_proved req w w'.
Proof.
  unfold check_tailscale, tailscale_proved. case_bool_decide as H1; [done|]. case_bool_decide as H2; [done|].
  cbn [orb]. case_bool_decide as H3; [done|]. intros ([code token] & w1 & Ht & H)%bind_ok.
  case_bool_decide as H4; [subst code|done]. apply http_answered in Ht; [|done].
  destruct (access_of token) as [access|] eqn:Ha; [|done].
  apply bind_ok in H as ([code v2] & w2 & Hk & H). case_bool_decide as H5; cbn [negb] in H; [subst code|done].
  apply http_answered in Hk; [|done]. apply bind_ok in H as ([code v3] & w3 & Hd & H).
  case_bool_decide as H6; cbn [negb] in H; [subst code|done]. apply http_answered in Hd; [|done].
  apply ret_ok in H as [_ ->]. split_and!; [done..|]. eauto 10.
Qed.

Lemma version_confirmed url w w' : headscale_version_reason url w = (inr "", w') → version_proved url w w'.
Proof.
  unfold headscale_version_reason. intros ([code body] & w1 & Hv & H)%bind_ok.
  case_bool_decide as H0; [done|]. apply http_answered in Hv; [|done]. cbv zeta in H.
  case_bool_decide as H1; cbn [negb orb] in H; [subst code|done]. case_bool_decide as H2; [done|].
  destruct (match_version _) as [[major minor]|] eqn:Hm; [|done].
  apply lift_bind_ok in H as (x & Hx & H). apply lift_bind_ok in H as (y & Hy & H).
  destruct (_ || _) eqn:Hle; [done|]. apply ret_ok in H as [_ ->].
  destruct body as [| | | | | |d]; try done. exists d, major, minor, x, y. split_and!; [done..|].
  cbn in Hle. lia.
Qed.

Lemma headscale_ok req w w' : check_headscale req w = (inr "", w') → headscale_proved req w w'.
Proof.
  unfold check_headscale, headscale_proved. intros (parts & Hp & H)%lift_bind_ok.
  case_bool_decide as H1; cbn [negb] in H; [|done]. split; [eauto|].
  destruct (bool_decide_reflect (setting "headscale_api_key" req = "")) as [Hk|Hk]; cbn [andb negb] in H.
  - case_bool_decide as H2; [done|]. left. apply bind_ok in H as (reason & w1 & Hv & H).
    rewrite orb_true_r in H. apply ret_ok in H as [<- ->]. split_and!; [done..|]. by apply version_confirmed.
  - case_bool_decide as H2; [done|]. right. split_and!; [done..|]. apply bind_ok in H as (reason & w1 & Hv & H).
    rewrite orb_false_r in H. case_bool_decide as H3; cbn [negb] in H; [subst reason|by apply ret_ok in H as [<- _]].
    apply bind_ok in H as ([code body] & w2 & Hu & H). case_bool_decide as H4; [done|].
    apply http_answered in Hu; [|done]. case_bool_decide as H5; [subst code|done].
    destruct body as [| | | | | |d]; try done. cbn [as_dict] in H. apply lift_bind_ok in H as (names & Hn & H).
    case_bool_decide as H6; [|done]. apply ret_ok in H as [_ ->]. apply version_confirmed in Hv. eauto 10.
Qed.

(** A valid verdict is one the control server confirmed, in order
    and with nothing else asked: for Tailscale the stored client exchanged for
    a token, which minted a key under exactly the stored tags and read the
    device list; for Headscale an http address whose server reports a version
    of at least 0.29, and lists the stored user to the API key, when there is
    one (a pre-authentication key is needed when there is none). *)
Theorem valid_confirmed req w result w' :
  check req w = (inr result, w') → vget "valid" result = VBool true →
  let provider := lower (setting "TAILNET_PROVIDER" req) in
  provider = "tailscale" ∧ tailscale_proved req w w' ∨ provider = "headscale" ∧ headscale_proved req w w'.
Proof.
  unfold check. intros (reason & w1 & Hr & H)%bind_ok Hv. apply ret_ok in H as [-> ->].
  change (VBool (bool_decide (reason = "")) = VBool true) in Hv.
  injection Hv as ->%bool_decide_eq_true_1. cbv zeta.
  case_bool_decide as Ht; [left; split; [done|by apply tailscale_ok]|].
  case_bool_decide as Hh; [right; split; [done|by apply headscale_ok]|].
  by apply ret_ok in Hr as [? _].
Qed.
End facts.

(** * Two runs that differ in the credentials *)

Definition CREDENTIALS : list string :=
  ["tailscale_oauth_client_id"; "tailscale_oauth_client_secret"; "headscale_api_key"; "headscale_preauth_key"].

(** Requests with the same settings, each credential blank in both or neither. *)
Definition same_but_credentials (req1 req2 : dict val) : Prop :=
  (∀ k, k ∉ CREDENTIALS → vget k req1 = vget k req2) ∧
  (∀ k, k ∈ CREDENTIALS → setting k req1 = "" ↔ setting k req2 = "").

(** The token exchange may answer with different tokens; every other answer is
    the same. *)
Definition same_answer (url : string) (o1 o2 : opened) : Prop :=
  o1 = o2 ∨ url = TAILSCALE_API +:+ "/oauth/token" ∧ ∃ code t1 t2,
    http_result o1 = inr (code, t1) ∧ http_result o2 = inr (code, t2) ∧ (access_of t1 = None ↔ access_of t2 = None).

Section blind.
Context {E : Type} `{!Outside E}.
Abbreviation W := (@world E).
Implicit Types (w : W).

(** Two outsides that take both runs' credentials for good, or both for bad. *)
Context (alike : relation E).
Class Alike : Prop := alike_open q1 q2 e1 e2 :
  h_method q1 = h_method q2 → h_url q1 = h_url q2 → alike e1 e2 →
  same_answer (h_url q1) (open_url q1 e1).1 (open_url q2 e2).1 ∧ alike (open_url q1 e1).2 (open_url q2 e2).2.
Context {alike_law : Alike}.

(** Two computations whose results are related from alike states. *)
Definition sync {A} (R : relation A) (c1 c2 : ST W fault A) : Prop :=
  ∀ w1 w2, alike (ext w1) (ext w2) →
    alike (ext (c1 w1).2) (ext (c2 w2).2) ∧
    match (c1 w1).1, (c2 w2).1 with
    | inl f1, inl f2 => f1 = f2
    | inr a1, inr a2 => R a1 a2
    | _, _ => False
    end.

Lemma sync_ret {A} (R : relation A) a1 a2 : R a1 a2 → sync R (mret a1) (mret a2).
Proof. by intros HR w1 w2 Hw. Qed.
Lemma sync_bind {A B} (R : relation A) (S : relation B) c1 c2 f1 f2 :
  sync R c1 c2 → (∀ a1 a2, R a1 a2 → sync S (f1 a1) (f2 a2)) → sync S (c1 ≫= f1) (c2 ≫= f2).
Proof.
  intros Hc Hf w1 w2 Hw. specialize (Hc w1 w2 Hw). unfold mbind, ST_bind.
  destruct (c1 w1) as [[e1|a1] w1'], (c2 w2) as [[e2|a2] w2']; cbn in Hc; destruct Hc as [Ha HR]; try done.
  by apply Hf.
Qed.
Lemma sync_pure_bind {A B} (S : relation B) (r : res A) (f1 f2 : A → ST W fault B) :
  (∀ a, r = Ok a → sync S (f1 a) (f2 a)) → sync S (pure r ≫= f1) (pure r ≫= f2).
Proof. intros Hf. destruct r as [a|e]; [exact (Hf a eq_refl)|by intros w1 w2 Hw]. Qed.

(** The same question, whatever credential it carries. *)
Definition same_result (url : string) (a1 a2 : Z * val) : Prop :=
  a1 = a2 ∨ url = TAILSCALE_API +:+ "/oauth/token" ∧ a1.1 = a2.1 ∧ (access_of a1.2 = None ↔ access_of a2.2 = None).
Lemma sync_http q1 q2 : h_method q1 = h_method q2 → h_url q1 = h_url q2 →
  sync (same_result (h_url q1)) (TailnetCheck.http q1) (TailnetCheck.http q2).
Proof.
  intros Hm Hu w1 w2 Hw. destruct (alike_open q1 q2 _ _ Hm Hu Hw) as [Hs Ha].
  destruct (TailnetCheck.http q1 w1) as [r1 w1'] eqn:H1, (TailnetCheck.http q2 w2) as [r2 w2'] eqn:H2.
  apply http_run in H1 as (o1 & E1 & _ & ->). apply http_run in H2 as (o2 & E2 & _ & ->).
  rewrite <-E1, <-E2 in Hs, Ha. cbn in *. split; [done|].
  destruct Hs as [->|(Hurl & code & t1 & t2 & -> & -> & Ht)]; [|by right].
  destruct (http_result o2) as [[| | |[] ]|a]; try done; by left.
Qed.
Lemma sync_ask {B} q1 q2 (f1 f2 : Z * val → ST W fault B) S : h_method q1 = h_method q2 → h_url q1 = h_url q2 →
  h_url q1 ≠ TAILSCALE_API +:+ "/oauth/token" →
  (∀ a, sync S (f1 a) (f2 a)) → sync S (TailnetCheck.http q1 ≫= f1) (TailnetCheck.http q2 ≫= f2).
Proof.
  intros Hm Hu Hn Hf. eapply sync_bind; [by apply sync_http|]. intros a1 a2 [->|[? _]]; [apply Hf|done].
Qed.

Context (req1 req2 : dict val) (same : same_but_credentials req1 req2).

Lemma same_setting k : k ∉ CREDENTIALS → setting k req1 = setting k req2.
Proof. intros Hk. unfold setting. by rewrite (proj1 same k Hk). Qed.
Lemma same_blank k : k ∈ CREDENTIALS → bool_decide (setting k req1 = "") = bool_decide (setting k req2 = "").
Proof. intros Hk. apply bool_decide_ext, same, Hk. Qed.
Lemma same_tags : tags req1 = tags req2.
Proof. unfold tags. rewrite (proj1 same) by not_elem. done. Qed.

Lemma sync_tailscale : sync eq (check_tailscale req1) (check_tailscale req2).
Proof.
  unfold check_tailscale. rewrite same_tags, !same_blank by (unfold CREDENTIALS; set_solver).
  destruct (_ || _); [by apply sync_ret|]. cbv zeta. case_bool_decide; [by apply sync_ret|].
  eapply sync_bind; [by apply sync_http|]. intros [code1 t1] [code2 t2] Hr.
  assert (code2 = code1 ∧ (access_of t1 = None ↔ access_of t2 = None)) as [-> Ht].
  { destruct Hr as [[= -> ->]|(_ & ? & ?)]; done. }
  clear Hr. case_bool_decide; [|by apply sync_ret].
  destruct (access_of t1) as [a1|], (access_of t2) as [a2|]; [|naive_solver..|by apply sync_ret].
  apply sync_ask; [done..|]. intros [code v]. destruct (negb _); [by apply sync_ret|].
  apply sync_ask; [done..|]. intros [code' v']. destruct (negb _); by apply sync_ret.
Qed.

Lemma url_not_token url path : path ∈ ["/version"; "/api/v1/user"] → url +:+ path ≠ TAILSCALE_API +:+ "/oauth/token".
Proof.
  intros Hp H. pose proof (f_equal String.length H) as Hl. rewrite length_sapp in Hl.
  assert (Hs : String.substring (String.length url) 6 (url +:+ path) = String.substring 0 6 path) by apply substring_app_r.
  rewrite H in Hs. elem_cases Hp; cbn in Hl.
  - replace (String.length url) with 36%nat in Hs by lia. discriminate Hs.
  - replace (String.length url) with 32%nat in Hs by lia. discriminate Hs.
Qed.

Lemma sync_version url : sync eq (headscale_version_reason url) (headscale_version_reason url).
Proof.
  unfold headscale_version_reason. apply sync_ask; [done..| |].
  { apply url_not_token. set_solver. }
  intros [code v]. case_bool_decide; [by apply sync_ret|]. cbv zeta. destruct (_ || _); [by apply sync_ret|].
  destruct (match_version _) as [[major minor]|]; [|by apply sync_ret].
  apply sync_pure_bind. intros x _. apply sync_pure_bind. intros y _. destruct (_ || _); by apply sync_ret.
Qed.

Lemma sync_headscale : sync eq (check_headscale req1) (check_headscale req2).
Proof.
  unfold check_headscale. rewrite !same_blank by (unfold CREDENTIALS; set_solver).
  rewrite (same_setting "TAILNET_CONTROL_URL" ltac:(not_elem)), (same_setting "HEADSCALE_USER" ltac:(not_elem)).
  apply sync_pure_bind. intros parts _. destruct (negb _); [by apply sync_ret|]. cbv zeta.
  destruct (_ && _); [by apply sync_ret|]. destruct (_ && _); [by apply sync_ret|].
  eapply sync_bind; [apply sync_version|]. intros reason ? <-. destruct (_ || _); [by apply sync_ret|].
  apply sync_ask; [done..| |].
  { apply url_not_token. set_solver. }
  intros [code v]. case_bool_decide; [by apply sync_ret|].
  destruct (if bool_decide _ then _ else _) as [body|]; [|by apply sync_ret].
  apply sync_pure_bind. intros names _. case_bool_decide; by apply sync_ret.
Qed.

(** The verdict carries no credential: two saves that differ only in
    the text of their credentials, each present in both or in neither, print
    the same verdict, reason and all, when the servers treat them alike (the
    tokens they are given may differ). *)
Theorem verdict_blind_to_credentials w1 w2 :
  alike (ext w1) (ext w2) → (check req1 w1).1 = (check req2 w2).1.
Proof.
  intros Hw. assert (Hs : sync eq (check req1) (check req2)).
  { unfold check. cbv zeta. rewrite (same_setting "TAILNET_PROVIDER" ltac:(not_elem)).
    apply (sync_bind eq); [|intros reason ? <-; by apply sync_ret].
    case_bool_decide; [apply sync_tailscale|]. case_bool_decide; [apply sync_headscale|by apply sync_ret]. }
  destruct (Hs w1 w2 Hw) as [_ Hr]. by destruct (check req1 w1).1, (check req2 w2).1; subst.
Qed.
End blind.

(** * A tailnet that gives each client its own token *)

Module Control.
#[export] Instance outside : Outside string := {
  run_cmd _ e := (inl TimedOut, e);
  open_url q token :=
    (if bool_decide (h_url q = TAILSCALE_API +:+ "/oauth/token")
     then Answered 200 (dumps default_style (VDict [("access_token", VStr token)]))
     else if bool_decide (h_url q = TAILSCALE_API +:+ "/tailnet/-/devices") then StatusError 403
     else Answered 200 "{}", token);
  tick e := e;
  error_text _ s := s }.

(** Two such servers with tokens of plain letters. *)
Definition alike (t1 t2 : string) : Prop := t1 ∈ ["kAbC"; "kXyZ"] ∧ t2 ∈ ["kAbC"; "kXyZ"].

#[export] Instance alike_law : Alike alike.
Proof.
  intros q1 q2 t1 t2 _ Hu [H1 H2]. cbn [open_url outside fst snd]. rewrite <-Hu. split; [|done].
  case_bool_decide as Ht; [right|left; done]. split; [done|].
  elem_cases H1; elem_cases H2; do 3 eexists; repeat split; try (vm_compute; reflexivity); by intros.
Qed.

Definition request (id secret : string) : dict val :=
  [("TAILNET_PROVIDER", VStr "tailscale"); ("TAILSCALE_TAGS", VStr "tag:vps, tag:web");
   ("tailscale_oauth_client_id", VStr id); ("tailscale_oauth_client_secret", VStr secret)].
Definition w0 (token : string) : world (E := string) := {| ran := []; asked := []; slept := 0; ext := token |}.
End Control.

Module Accepting.
#[export] Instance outside : Outside unit := {
  run_cmd _ e := (inl TimedOut, e);
  open_url q e :=
    (if bool_decide (h_url q = TAILSCALE_API +:+ "/oauth/token")
     then Answered 200 (dumps default_style (VDict [("access_token", VStr "tok")])) else Answered 200 "{}", e);
  tick e := e;
  error_text _ s := s }.
End Accepting.

#[local] Existing Instances Control.outside Control.alike_law Accepting.outside.

Lemma valid_confirmed_witness :
  let req := Control.request "cid" "secret" in
  ∃ w', tailscale_proved (E := unit) req {| ran := []; asked := []; slept := 0; ext := tt |} w' ∧
        length (asked w') = 3%nat.
Proof.
  intros req. set (w := {| ran := []; asked := []; slept := 0; ext := tt |}).
  set (r := check (E := unit) req w). exists r.2.
  assert (Hr : r = (inr [("valid", VBool true); ("reason", VStr "")], r.2))
    by (rewrite (surjective_pairing r) at 1; apply pair_equal_spec; split; [vm_compute; reflexivity|reflexivity]).
  split; [|vm_compute; reflexivity].
  destruct (valid_confirmed req w _ r.2 Hr eq_refl) as [[_ H]|[H _]]; [exact H|].
  exfalso. revert H. vm_compute. discriminate.
Defined.

Lemma verdict_blind_to_credentials_witness :
  (check (Control.request "cid" "one") (Control.w0 "kAbC")).1 = (check (Control.request "id2" "other") (Control.w0 "kXyZ")).1.
Proof.
  apply (verdict_blind_to_credentials Control.alike).
  - split; [|intros k Hk; elem_cases Hk; vm_compute; split; discriminate || reflexivity].
    intros k Hk. unfold Control.request, CREDENTIALS in *. vget_simpl. unfold vget. cbn.
    repeat case_bool_decide; subst; try reflexivity; exfalso; apply Hk; set_solver.
  - split; set_solver.
Defined.

(** An address [urlsplit] refuses ends the check with no verdict printed. *)
Example bad_address_no_verdict :
  (TailnetCheck.main (E := unit)
     (dumps default_style (VDict [("TAILNET_PROVIDER", VStr "headscale"); ("TAILNET_CONTROL_URL", VStr "http://[")]))
     {| ran := []; asked := []; slept := 0; ext := tt |}).1 = inl (Raised ValueError "").
Proof. vm_compute. reflexivity. Qed.
