(* ===== verification/KeycloakFlows.v ===== *)
(** [ansible/playbooks/filter_plugins/keycloak_signin_flows.py]: the sign-in
    flows of the realm under their versioned aliases, the digests that tell a
    hand edit, the generation the next converge builds them under, and the
    flows nothing needs any more. *)
From S2P Require Import Prelude PyStr PyNum PyVal Json Encoding Sha256.

#[local] Open Scope string_scope.

Definition BROWSER : string := "catena-browser".
Definition SIGNIN : string := "catena-signin-".
Definition POST_BROKER : string := "catena-post-broker-login".
Definition TIERS : dict (list string) :=
  [("admin", ["catena-tier-admin"]); ("staff", ["catena-tier-admin"; "catena-tier-staff"])].
Definition PLACEHOLDER : string := "@".

(** * Flows, steps and configs *)

Definition flow_of (alias description : string) (top : bool) (executions : list val) : val :=
  VDict [("alias", VStr alias); ("description", VStr description); ("providerId", VStr "basic-flow");
         ("topLevel", VBool top); ("builtIn", VBool false); ("authenticationExecutions", VList executions)].
Definition step_of (authenticator requirement : string) (priority : Z) (config : option string) : val :=
  VDict ([("authenticator", VStr authenticator); ("requirement", VStr requirement); ("priority", VInt priority)]
         ++ match config with Some c => [("authenticatorConfig", VStr c)] | None => [] end)%list.
Definition sub (alias requirement : string) (priority : Z) : val :=
  VDict [("flowAlias", VStr alias); ("requirement", VStr requirement); ("priority", VInt priority);
         ("authenticatorFlow", VBool true)].

Definition browser_steps (flow : string) : list val := [
  step_of "auth-cookie" "ALTERNATIVE" 10 None;
  step_of "auth-spnego" "DISABLED" 20 None;
  step_of "identity-provider-redirector" "ALTERNATIVE" 25 None;
  sub (flow +:+ " organization") "ALTERNATIVE" 26;
  sub (flow +:+ " forms") "ALTERNATIVE" 30].

Definition form_flows (flow : string) (password_only : bool) : list val :=
  ([flow_of (flow +:+ " organization") "Organization identity-first login." false
      [sub (flow +:+ " conditional organization") "CONDITIONAL" 10];
    flow_of (flow +:+ " conditional organization") "Whether the organization identity-first login applies." false
      [step_of "conditional-user-configured" "REQUIRED" 10 None; step_of "organization" "ALTERNATIVE" 20 None]]
   ++ (if password_only then
         [flow_of (flow +:+ " forms") "Username and password, then the second factor." false
            [step_of "auth-username-password-form" "REQUIRED" 10 None;
             sub (flow +:+ " conditional 2FA") "CONDITIONAL" 20]]
       else
         [flow_of (flow +:+ " forms") "Username and password or emailed code, then the second factor." false
            [sub (flow +:+ " credential") "REQUIRED" 10; sub (flow +:+ " conditional 2FA") "CONDITIONAL" 20];
          flow_of (flow +:+ " credential") "The username and password form, or a code emailed to a client." false
            [step_of "auth-username-password-form" "ALTERNATIVE" 10 None;
             step_of "catena-client-email-code" "ALTERNATIVE" 20 None]])
   ++ [flow_of (flow +:+ " conditional 2FA") "Whether a second factor is required." false
         [step_of "conditional-user-configured" "REQUIRED" 10 None;
          step_of "conditional-credential" "REQUIRED" 20 (Some (flow +:+ "-conditional-credential"));
          step_of "auth-otp-form" "ALTERNATIVE" 30 None;
          step_of "webauthn-authenticator" "DISABLED" 40 None;
          step_of "auth-recovery-authn-code-form" "DISABLED" 50 None]])%list.

Definition config_of (alias : string) (config : dict val) : val :=
  VDict [("alias", VStr alias); ("config", VDict config)].
Definition second_factor_config (flow : string) : val :=
  config_of (flow +:+ "-conditional-credential") [("credentials", VStr "webauthn-passwordless")].
Definition role_config (alias role : string) : val :=
  config_of alias [("condUserRole", VStr role); ("negate", VStr "true")].

(** A builder's flows and configs. *)
Definition built : Type := list val * list val.

Definition browser (flow : string) : built :=
  (flow_of flow "Browser sign-in for applications open to every account." true (browser_steps flow)
     :: form_flows flow false,
   [second_factor_config flow]).

(** One step per admitted role, at the tens from [first]. *)
Definition role_checks (prefix : string) (first : Z) (admitted : list string) : list val :=
  imap (λ i role, step_of "conditional-user-role" "REQUIRED" ((Z.of_nat i + first) * 10)
                          (Some (prefix +:+ "-without-" +:+ role))) admitted.
Definition role_configs (prefix : string) (admitted : list string) : list val :=
  map (λ role, role_config (prefix +:+ "-without-" +:+ role) role) admitted.
Definition refusal_step (priority : Z) : val := step_of "catena-tier-refusal" "REQUIRED" priority None.

Definition tier (flow name : string) (admitted : list string) : built :=
  ([flow_of flow ("Browser sign-in for applications open to the " +:+ name +:+ " tier.") true
      [sub (flow +:+ " sign-in") "REQUIRED" 10; sub (flow +:+ " tier check") "CONDITIONAL" 20];
    flow_of (flow +:+ " sign-in") "The steps of the realm's browser flow." false (browser_steps flow);
    flow_of (flow +:+ " tier check") "Denies an account holding none of the tier roles this flow admits." false
      (role_checks flow 1 admitted ++ [refusal_step ((Z.of_nat (length admitted) + 1) * 10)])]
   ++ form_flows flow (bool_decide (name = "admin")),
   role_configs flow admitted ++ [second_factor_config flow])%list.

Definition post_broker_tier (flow name : string) (admitted : list string) : built :=
  let prefix := flow +:+ "-" +:+ name in
  ([flow_of (flow +:+ " " +:+ name)
      ("Denies an account holding none of the tier roles " +:+ SIGNIN +:+ name +:+ " admits, at an application bound to it.") false
      (step_of "conditional-client-scope" "REQUIRED" 10 (Some (prefix +:+ "-scope"))
         :: role_checks prefix 2 admitted ++ [refusal_step ((Z.of_nat (length admitted) + 2) * 10)])],
   config_of (prefix +:+ "-scope") [("client_scope", VStr (SIGNIN +:+ name)); ("negate", VStr "false")]
     :: role_configs prefix admitted)%list.
Definition post_broker (flow : string) : built :=
  let tops := imap (λ i t, sub (flow +:+ " " +:+ t.1) "CONDITIONAL" ((Z.of_nat i + 1) * 10)) TIERS in
  let tiers := map (λ t, post_broker_tier flow t.1 t.2) TIERS in
  (flow_of flow "After a sign-in through an external identity provider: the tier check of the application's sign-in flow." true
     (tops ++ [step_of "allow-access-authenticator" "REQUIRED" ((Z.of_nat (length TIERS) + 1) * 10) None])
     :: concat (map fst tiers),
   concat (map snd tiers))%list.

Definition builders : dict (string → built) :=
  ([(BROWSER, browser); (POST_BROKER, post_broker)]
   ++ map (λ t, (SIGNIN +:+ t.1, λ flow, tier flow t.1 t.2)) TIERS)%list.

(** The digest of a document in canonical form. *)
Definition canonical_digest (v : val) : string := sha256_hex (utf8 (dumps compact_style (sort_keys v))).

Definition version (build : string → built) (generation : val) : res string :=
  let '(flows, configs) := build PLACEHOLDER in
  g ← as_int generation;
  Ok (String.substring 0 8 (canonical_digest (VDict [("flows", VList flows); ("configs", VList configs); ("generation", VInt g)]))).

(** What [keycloak_signin_flows] returns. *)
Record realm_flows := {
  aliases : dict string;
  bases : list string;
  authenticationFlows : list val;
  authenticatorConfig : list val
}.

Definition build_step (generation : val) (acc : dict string * built) (b : string * (string → built)) :
    res (dict string * built) :=
  let '(named, (flows, configs)) := acc in
  v ← version b.2 generation;
  let alias := b.1 +:+ "-v" +:+ v in
  let '(fs, cs) := b.2 alias in
  Ok (dset b.1 alias named, ((flows ++ fs)%list, (configs ++ cs)%list)).

Definition keycloak_signin_flows (generation : val) : res realm_flows :=
  '(named, (flows, configs)) ← foldM (build_step generation) ([], ([], [])) builders;
  b ← match dget BROWSER named with Some a => Ok a | None => Raise KeyError end;
  a ← match dget (SIGNIN +:+ "admin") named with Some a => Ok a | None => Raise KeyError end;
  s ← match dget (SIGNIN +:+ "staff") named with Some a => Ok a | None => Raise KeyError end;
  p ← match dget POST_BROKER named with Some a => Ok a | None => Raise KeyError end;
  Ok {| aliases := [("browser", b); ("admin", a); ("staff", s); ("post_broker_login", p)];
        bases := dkeys named; authenticationFlows := flows; authenticatorConfig := configs |}.

(** * Hand edits *)

Definition PROJECTED : list string :=
  ["level"; "index"; "priority"; "requirement"; "authenticationFlow"; "providerId"; "displayName"; "description"; "alias"].

Definition dict_or (v : val) : res (dict val) :=
  if truthy v then match v with VDict d => Ok d | _ => Raise AttributeError end else Ok [].

Definition keycloak_flow_digest (read : val) : res string :=
  flow ← (attr_get "flow" read ≫= dict_or);
  rows ← (attr_get "executions" read ≫= iter_or);
  rows ← mapM_res (λ row, fields ← mapM_res (λ key, v ← attr_get key row; Ok (key, v)) PROJECTED; Ok (VDict fields)) rows;
  Ok (canonical_digest (VDict [("flow", VDict (List.filter (λ kv, negb (bool_decide (kv.1 = "id"))) flow));
                               ("executions", VList rows)])).

Definition digest_line (digests : dict (option string)) (line : string) : res (dict (option string)) :=
  let '(alias, _, body) := partition "009" line in
  if bool_decide (alias = "") then Ok digests else
  read ← (if bool_decide (body = "") then Ok VNone else loads body);
  digest ← match read with VNone => Ok None | _ => Some <$> keycloak_flow_digest read end;
  Ok (dset alias digest digests).

Definition keycloak_flow_digests (listing : val) : res (dict (option string)) :=
  foldM digest_line [] (splitlines (str_or listing)).

(** A digest as the record holds it. *)
Definition digest_val (d : option string) : val := match d with Some s => VStr s | None => VNone end.

Definition keycloak_flow_generation (record : val) (observed : dict (option string)) : res Z :=
  if negb (truthy record) then Ok 0%Z else
  match record with
  | VDict r =>
      generation ← as_int (default (VInt 0) (dget "generation" r));
      recorded ← dict_or (vget "flows" r);
      Ok (if existsb (λ kv, negb (py_eq (digest_val (default None (dget kv.1 observed))) kv.2)) recorded
          then generation + 1 else generation)%Z
  | _ => Raise AttributeError
  end.

Definition keycloak_flow_record (generation : val) (observed : dict (option string)) : res val :=
  g ← as_int generation;
  Ok (VDict [("generation", VInt g);
             ("flows", VDict (sort_items (map (λ kv, (kv.1, digest_val kv.2)) observed)))]).

(** * Flows nothing needs *)

Definition hashable (v : val) : bool := match v with VList _ | VDict _ => false | _ => true end.
Definition in_set (v : val) (l : list val) : res bool :=
  if hashable v then Ok (existsb (py_eq v) l) else Raise TypeError.

(** [any(alias == base or alias.startswith(base + "-v") for base in bases)] *)
Fixpoint names_base (alias : val) (bases : list string) : res bool :=
  match bases with
  | [] => Ok false
  | base :: bases =>
      if py_eq alias (VStr base) then Ok true else
      match alias with
      | VStr a => if startswith a (base +:+ "-v") then Ok true else names_base alias bases
      | _ => Raise AttributeError
      end
  end.

Definition stale_step (current bound : list val) (bases : list string) (stale : list (val * val)) (flow : val) :
    res (list (val * val)) :=
  flow ← as_dict_r flow;
  alias ← getitem "alias" flow;
  if negb (truthy (vget "topLevel" flow)) then Ok stale else
  is_current ← in_set alias current;
  if (is_current : bool) then Ok stale else
  is_bound ← in_set alias bound;
  if (is_bound : bool) then Ok stale else
  id ← getitem "id" flow;
  id_bound ← in_set id bound;
  if (id_bound : bool) then Ok stale else
  ours ← names_base alias bases;
  Ok (if (ours : bool) then stale ++ [(id, alias)] else stale)%list.

Definition keycloak_flow_stale (listing : dict val) (build : realm_flows) : res (list (val * val)) :=
  let current := map (λ kv, VStr kv.2) (aliases build) in
  bound ← (getitem "bound" listing ≫= py_iter);
  if negb (forallb hashable bound) then Raise TypeError else
  flows ← (getitem "flows" listing ≫= py_iter);
  foldM (stale_step current bound (bases build)) [] flows.
