(* ===== verification/KeycloakFlowsFacts.v ===== *)
(** What [KeycloakFlows] promises: the flows of a build refer only to each
    other, a hand edit and only a hand edit moves the generation, and no flow
    in use is named stale. *)
From S2P Require Import Prelude PyStr PyNum PyVal Json JsonFacts Encoding Sha256 KeycloakFlows.

#[local] Open Scope string_scope.

(** * What a flow names *)

Definition text (k : string) (v : val) : string :=
  match v with VDict d => default "" (as_str (vget k d)) | _ => "" end.
Definition alias : val → string := text "alias".
Definition top (flow : val) : bool :=
  match flow with VDict d => truthy (vget "topLevel" d) | _ => false end.
(** The texts its steps hold under a key. *)
Definition refs (k : string) (flow : val) : list string :=
  match flow with
  | VDict d =>
      match vget "authenticationExecutions" d with
      | VList steps => omap (λ s, match s with VDict s => as_str (vget k s) | _ => None end) steps
      | _ => []
      end
  | _ => []
  end.

(** Flows and configs that refer to each other and to nothing else: [tops] are
    the top-level flows, every other flow is a sub-flow of one of them. *)
Record closed (tops : list string) (b : built) : Prop := {
  closed_NoDup : NoDup (map alias b.1);
  closed_configs : NoDup (map alias b.2);
  closed_top f : f ∈ b.1 → top f = bool_decide (alias f ∈ tops);
  closed_tops a : a ∈ tops → a ∈ map alias b.1;
  closed_sub f a : f ∈ b.1 → a ∈ refs "flowAlias" f → a ∈ map alias b.1 ∧ a ∉ tops;
  closed_used f : f ∈ b.1 → top f = false → ∃ f', f' ∈ b.1 ∧ alias f ∈ refs "flowAlias" f';
  closed_config f c : f ∈ b.1 → c ∈ refs "authenticatorConfig" f → c ∈ map alias b.2
}.

(** The aliases of a builder: the flow's, followed by fixed words. *)
Definition under_flow (flow : string) (b : built) : Prop :=
  (∀ a, a ∈ map alias b.1 → ∃ s, a = flow +:+ s) ∧ (∀ a, a ∈ map alias b.2 → ∃ s, a = flow +:+ s).

Lemma suffixes_NoDup flow (l : list string) : NoDup l → NoDup (map (String.append flow) l).
Proof.
  intros H. assert (Inj (=) (=) (String.append flow)) by (intros a b; apply sapp_inj). by apply (NoDup_fmap_2 _).
Qed.
Lemma suffix_ne flow s : s ≠ "" → bool_decide (flow +:+ s = flow) = false.
Proof.
  intros Hs. apply bool_decide_eq_false_2. intros H. apply Hs, (sapp_inj flow). by rewrite string_app_nil_r.
Qed.

(** Membership among suffixes of one flow, decided on the suffixes. *)
Lemma elem_suffix flow s l : flow +:+ s ∈ map (String.append flow) l ↔ s ∈ l.
Proof.
  rewrite list_elem_of_fmap. split; [|eauto]. intros (s' & H & ?). by apply sapp_inj in H as ->.
Qed.

(** A closed set, from its suffixes: every check is on fixed words. *)
Record plan := { p_flows : list (string * list string * list string); p_configs : list string }.
Definition plan_names (p : plan) : list string := map (λ x, x.1.1) (p_flows p).
Definition plan_ok (p : plan) : bool :=
  bool_decide (NoDup (plan_names p)) && bool_decide (NoDup (p_configs p)) &&
  bool_decide ("" ∈ plan_names p) &&
  forallb (λ x, forallb (λ a, bool_decide (a ∈ plan_names p) && negb (bool_decide (a = ""))) x.1.2 &&
                forallb (λ c, bool_decide (c ∈ p_configs p)) x.2 &&
                (bool_decide (x.1.1 = "") || existsb (λ y, bool_decide (x.1.1 ∈ y.1.2)) (p_flows p))) (p_flows p).
Definition shape (f : val) : string * bool * list string * list string :=
  (alias f, top f, refs "flowAlias" f, refs "authenticatorConfig" f).
Definition shape_of (flow : string) (x : string * list string * list string) : string * bool * list string * list string :=
  (flow +:+ x.1.1, bool_decide (x.1.1 = ""), map (String.append flow) x.1.2, map (String.append flow) x.2).
Definition follows (flow : string) (p : plan) (b : built) : Prop :=
  map shape b.1 = map (shape_of flow) (p_flows p) ∧ map alias b.2 = map (String.append flow) (p_configs p).

Definition browser_plan : plan := {|
  p_flows := [("", [" organization"; " forms"], []); (" organization", [" conditional organization"], []);
              (" conditional organization", [], []); (" forms", [" credential"; " conditional 2FA"], []);
              (" credential", [], []); (" conditional 2FA", [], ["-conditional-credential"])];
  p_configs := ["-conditional-credential"] |}.
Definition tier_plan (roles : list string) (password_only : bool) : plan := {|
  p_flows := ([("", [" sign-in"; " tier check"], []); (" sign-in", [" organization"; " forms"], []);
               (" tier check", [], map (String.append "-without-") roles);
               (" organization", [" conditional organization"], []); (" conditional organization", [], [])]
              ++ (if password_only then [(" forms", [" conditional 2FA"], [])]
                  else [(" forms", [" credential"; " conditional 2FA"], []); (" credential", [], [])])
              ++ [(" conditional 2FA", [], ["-conditional-credential"])])%list;
  p_configs := (map (String.append "-without-") roles ++ ["-conditional-credential"])%list |}.
Definition post_broker_plan : plan := {|
  p_flows := [("", [" admin"; " staff"], []);
              (" admin", [], ["-admin-scope"; "-admin-without-catena-tier-admin"]);
              (" staff", [], ["-staff-scope"; "-staff-without-catena-tier-admin"; "-staff-without-catena-tier-staff"])];
  p_configs := ["-admin-scope"; "-admin-without-catena-tier-admin";
                "-staff-scope"; "-staff-without-catena-tier-admin"; "-staff-without-catena-tier-staff"] |}.

Ltac follow := split; cbn; unfold shape_of; rewrite <-?string_app_assoc, ?string_app_nil_r; reflexivity.
Lemma browser_follows flow : follows flow browser_plan (browser flow).
Proof. follow. Qed.
Lemma admin_follows flow : follows flow (tier_plan ["catena-tier-admin"] true) (tier flow "admin" ["catena-tier-admin"]).
Proof. follow. Qed.
Lemma staff_follows flow :
  follows flow (tier_plan ["catena-tier-admin"; "catena-tier-staff"] false)
               (tier flow "staff" ["catena-tier-admin"; "catena-tier-staff"]).
Proof. follow. Qed.
Lemma post_broker_follows flow : follows flow post_broker_plan (post_broker flow).
Proof. follow. Qed.

Section plan.
Context (flow : string) (p : plan) (b : built) (Hok : plan_ok p = true) (Hb : follows flow p b).

Lemma flow_shape f : f ∈ b.1 → ∃ x, x ∈ p_flows p ∧ shape f = shape_of flow x.
Proof.
  intros Hf. assert (Hs : shape f ∈ map shape b.1) by (apply list_elem_of_fmap; eauto).
  rewrite (proj1 Hb) in Hs. apply list_elem_of_fmap in Hs as (x & ? & ?). eauto.
Qed.
Lemma shape_flow x : x ∈ p_flows p → ∃ f, f ∈ b.1 ∧ shape f = shape_of flow x.
Proof.
  intros Hx. assert (Hs : shape_of flow x ∈ map (shape_of flow) (p_flows p)) by (apply list_elem_of_fmap; eauto).
  rewrite <-(proj1 Hb) in Hs. apply list_elem_of_fmap in Hs as (f & ? & ?). eauto.
Qed.
Lemma names_plan : map alias b.1 = map (String.append flow) (plan_names p).
Proof.
  unfold plan_names. rewrite map_map. transitivity (map (λ s, s.1.1.1) (map shape b.1)); [by rewrite map_map|].
  by rewrite (proj1 Hb), map_map.
Qed.

Lemma plan_spec : NoDup (plan_names p) ∧ NoDup (p_configs p) ∧ "" ∈ plan_names p ∧
  ∀ x, x ∈ p_flows p → (∀ a, a ∈ x.1.2 → a ∈ plan_names p ∧ a ≠ "") ∧ (∀ c, c ∈ x.2 → c ∈ p_configs p) ∧
                       (x.1.1 = "" ∨ ∃ y, y ∈ p_flows p ∧ x.1.1 ∈ y.1.2).
Proof.
  unfold plan_ok in Hok. apply andb_prop in Hok as [Hok1 Hall]. apply andb_prop in Hok1 as [Hok1 Htop].
  apply andb_prop in Hok1 as [Hn Hc]. apply bool_decide_eq_true_1 in Hn, Hc, Htop. split_and!; [done..|].
  rewrite forallb_forall in Hall. setoid_rewrite <-list_elem_of_In in Hall.
  intros x H. specialize (Hall x H). apply andb_prop in Hall as [Hall Hu]. apply andb_prop in Hall as [Hs Hcf].
  rewrite forallb_forall in Hs, Hcf. setoid_rewrite <-list_elem_of_In in Hs. setoid_rewrite <-list_elem_of_In in Hcf.
  split_and!.
  - intros a Ha. specialize (Hs a Ha). apply andb_prop in Hs as [H1 H2].
    apply bool_decide_eq_true_1 in H1. apply negb_true_iff, bool_decide_eq_false_1 in H2. done.
  - intros c Hcc. specialize (Hcf c Hcc). by apply bool_decide_eq_true_1 in Hcf.
  - apply orb_prop in Hu as [Hu|Hu]; [left; by apply bool_decide_eq_true_1 in Hu|right].
    apply existsb_exists in Hu as (y & Hy & Hu). apply bool_decide_eq_true_1 in Hu. apply list_elem_of_In in Hy. eauto.
Qed.

Lemma plan_closed : closed [flow] b ∧ under_flow flow b.
Proof.
  destruct plan_spec as (Hn & Hc & Htop & Hx). split.
  - split.
    + rewrite names_plan. by apply suffixes_NoDup.
    + rewrite (proj2 Hb). by apply suffixes_NoDup.
    + intros f (x & H & Hs)%flow_shape. injection Hs as -> -> _ _. apply bool_decide_ext.
      rewrite list_elem_of_singleton. split; [intros ->; apply string_app_nil_r|].
      intros Hf. apply (sapp_inj flow). by rewrite string_app_nil_r.
    + intros a ->%list_elem_of_singleton. rewrite names_plan. rewrite <-(string_app_nil_r flow) at 1. by apply elem_suffix.
    + intros f a (x & H & Hs)%flow_shape Ha. injection Hs as _ _ Hr _. rewrite Hr in Ha.
      apply list_elem_of_fmap in Ha as (s & -> & Hin). destruct (proj1 (Hx x H) s Hin) as [Hn1 Hn2].
      rewrite names_plan. split; [by apply elem_suffix|]. rewrite list_elem_of_singleton. intros He. apply Hn2.
      apply (sapp_inj flow). by rewrite string_app_nil_r.
    + intros f (x & H & Hs)%flow_shape Ht. injection Hs as Ha Htf _ _. rewrite Ht in Htf.
      destruct (proj2 (proj2 (Hx x H))) as [He|(y & Hy & Hin)]; [by rewrite He in Htf|].
      destruct (shape_flow y Hy) as (f' & Hf' & Hs'). exists f'. split; [done|].
      injection Hs' as _ _ Hr _. rewrite Ha, Hr. by apply elem_suffix.
    + intros f c (x & H & Hs)%flow_shape Hcf. injection Hs as _ _ _ Hr. rewrite Hr in Hcf.
      apply list_elem_of_fmap in Hcf as (s & -> & Hin). rewrite (proj2 Hb). apply elem_suffix. by apply (Hx x H).
  - split; intros a Ha; [rewrite names_plan in Ha|rewrite (proj2 Hb) in Ha];
      apply list_elem_of_fmap in Ha as (s & -> & _); eauto.
Qed.
End plan.

Lemma browser_closed flow : closed [flow] (browser flow) ∧ under_flow flow (browser flow).
Proof. apply (plan_closed flow browser_plan); [reflexivity|apply browser_follows]. Qed.
Lemma post_broker_closed flow : closed [flow] (post_broker flow) ∧ under_flow flow (post_broker flow).
Proof. apply (plan_closed flow post_broker_plan); [reflexivity|apply post_broker_follows]. Qed.
Lemma admin_closed flow :
  closed [flow] (tier flow "admin" ["catena-tier-admin"]) ∧ under_flow flow (tier flow "admin" ["catena-tier-admin"]).
Proof. eapply plan_closed; [|apply admin_follows]; reflexivity. Qed.
Lemma staff_closed flow (roles := ["catena-tier-admin"; "catena-tier-staff"]) :
  closed [flow] (tier flow "staff" roles) ∧ under_flow flow (tier flow "staff" roles).
Proof. eapply plan_closed; [|apply staff_follows]; reflexivity. Qed.

(** Two closed sets with different names are one. *)
Lemma closed_app tops1 tops2 b1 b2 : closed tops1 b1 → closed tops2 b2 →
  (∀ a, a ∈ map alias b1.1 → a ∉ map alias b2.1) → (∀ a, a ∈ map alias b1.2 → a ∉ map alias b2.2) →
  closed (tops1 ++ tops2) (b1.1 ++ b2.1, b1.2 ++ b2.2)%list.
Proof.
  intros C1 C2 Hn Hc.
  assert (alias_in : ∀ f (l : list val), f ∈ l → alias f ∈ map alias l) by (intros; apply list_elem_of_fmap; eauto).
  split; cbn [fst snd]; rewrite ?map_app.
  - apply NoDup_app. split_and!; [apply C1|done|apply C2].
  - apply NoDup_app. split_and!; [apply C1|done|apply C2].
  - intros f [Hf|Hf]%elem_of_app; [rewrite (closed_top _ _ C1)|rewrite (closed_top _ _ C2)]; try done;
      apply bool_decide_ext; rewrite elem_of_app; split; [auto| |auto|]; (intros [?|Ht]; [try done|try done]); exfalso.
    + by eapply Hn; [eapply alias_in|eapply closed_tops].
    + by eapply Hn; [eapply (closed_tops _ _ C1)|eapply alias_in].
  - intros a [Ha|Ha]%elem_of_app; apply elem_of_app; [left|right]; by eapply closed_tops.
  - intros f a [Hf|Hf]%elem_of_app Ha; rewrite !elem_of_app.
    + destruct (closed_sub _ _ C1 f a Hf Ha) as [? ?]. split; [by left|]. intros [?|?]; [done|].
      by eapply Hn; [|eapply closed_tops].
    + destruct (closed_sub _ _ C2 f a Hf Ha) as [? ?]. split; [by right|]. intros [?|?]; [|done].
      by eapply Hn; [eapply (closed_tops _ _ C1)|].
  - intros f [Hf|Hf]%elem_of_app Ht.
    + destruct (closed_used _ _ C1 f Hf Ht) as (f' & ? & ?). exists f'. rewrite elem_of_app. auto.
    + destruct (closed_used _ _ C2 f Hf Ht) as (f' & ? & ?). exists f'. rewrite elem_of_app. auto.
  - intros f c [Hf|Hf]%elem_of_app Hin; apply elem_of_app; [left|right]; by eapply closed_config.
Qed.
Lemma closed_same tops tops' b : (∀ a, a ∈ tops ↔ a ∈ tops') → closed tops b → closed tops' b.
Proof.
  intros Hs []. split; auto.
  - intros f Hf. rewrite closed_top0 by done. by apply bool_decide_ext.
  - intros a Ha. apply closed_tops0, Hs, Ha.
  - intros f a Hf Ha. rewrite <-Hs. eauto.
Qed.

(** * The build *)

Definition version_text (v : string) : Prop := String.length v = 8%nat ∧ sforall is_hex_char v = true.
Lemma version_ok build g v : version build g = Ok v → version_text v.
Proof.
  unfold version. destruct (build PLACEHOLDER). intros (z & _ & [= <-])%res_bind_Ok. split.
  - apply length_substring_0. unfold canonical_digest. rewrite length_sha256_hex. lia.
  - apply sforall_substring_0, sha256_hex_chars.
Qed.

Definition alias_at (base v : string) : string := base +:+ "-v" +:+ v.
Definition admin_tier (flow : string) : built := tier flow "admin" ["catena-tier-admin"].
Definition staff_tier (flow : string) : built := tier flow "staff" ["catena-tier-admin"; "catena-tier-staff"].

Lemma build_inv g build : keycloak_signin_flows g = Ok build → ∃ v1 v2 v3 v4,
  Forall version_text [v1; v2; v3; v4] ∧
  let f1 := alias_at BROWSER v1 in let f2 := alias_at POST_BROKER v2 in
  let f3 := alias_at "catena-signin-admin" v3 in let f4 := alias_at "catena-signin-staff" v4 in
  build = {| aliases := [("browser", f1); ("admin", f3); ("staff", f4); ("post_broker_login", f2)];
             bases := [BROWSER; POST_BROKER; "catena-signin-admin"; "catena-signin-staff"];
             authenticationFlows := ((((browser f1).1 ++ (post_broker f2).1) ++ (admin_tier f3).1) ++ (staff_tier f4).1)%list;
             authenticatorConfig := ((((browser f1).2 ++ (post_broker f2).2) ++ (admin_tier f3).2) ++ (staff_tier f4).2)%list |}.
Proof.
  unfold keycloak_signin_flows.
  change builders with [(BROWSER, browser); (POST_BROKER, post_broker); ("catena-signin-admin", admin_tier);
                        ("catena-signin-staff", staff_tier)].
  intros H. apply res_bind_Ok in H as ([named [flows configs]] & Hf & H). cbn [foldM] in Hf.
  apply res_bind_Ok in Hf as (a1 & H1 & Hf). apply res_bind_Ok in Hf as (a2 & H2 & Hf).
  apply res_bind_Ok in Hf as (a3 & H3 & Hf). apply res_bind_Ok in Hf as (a4 & H4 & [= ->]).
  unfold build_step in H1. cbn [fst snd] in H1. apply res_bind_Ok in H1 as (v1 & V1 & H1).
  fold (alias_at BROWSER v1) in H1. rewrite (surjective_pairing (browser (alias_at BROWSER v1))) in H1. injection H1 as <-.
  unfold build_step in H2. cbn [fst snd] in H2. apply res_bind_Ok in H2 as (v2 & V2 & H2).
  fold (alias_at POST_BROKER v2) in H2. rewrite (surjective_pairing (post_broker _)) in H2. injection H2 as <-.
  unfold build_step in H3. cbn [fst snd] in H3. apply res_bind_Ok in H3 as (v3 & V3 & H3).
  fold (alias_at "catena-signin-admin" v3) in H3. rewrite (surjective_pairing (admin_tier _)) in H3. injection H3 as <-.
  unfold build_step in H4. cbn [fst snd] in H4. apply res_bind_Ok in H4 as (v4 & V4 & H4).
  fold (alias_at "catena-signin-staff" v4) in H4. rewrite (surjective_pairing (staff_tier _)) in H4. injection H4 as <- <- <-.
  exists v1, v2, v3, v4. split; [by eauto 10 using version_ok, Forall_cons_2, Forall_nil_2|].
  cbv zeta. injection H as <-. reflexivity.
Qed.

Definition apart (f g : string) : Prop := ∀ s s', f +:+ s ≠ g +:+ s'.
Lemma under_apart f g b b' : under_flow f b → under_flow g b' → apart f g →
  (∀ a, a ∈ map alias b.1 → a ∉ map alias b'.1) ∧ (∀ a, a ∈ map alias b.2 → a ∉ map alias b'.2).
Proof.
  intros [F1 C1] [F2 C2] Ha. split; intros a H1 H2.
  - apply F1 in H1 as (s & ->). apply F2 in H2 as (s' & H). by eapply Ha.
  - apply C1 in H1 as (s & ->). apply C2 in H2 as (s' & H). by eapply Ha.
Qed.
Lemma apart_join b1 b2 b' :
  (∀ a : string, a ∈ map alias b1 → a ∉ map alias b') → (∀ a, a ∈ map alias b2 → a ∉ map alias b') →
  ∀ a, a ∈ map alias (b1 ++ b2)%list → a ∉ map alias b'.
Proof. intros H1 H2 a. rewrite map_app. intros [?|?]%elem_of_app; auto. Qed.
Ltac far := unfold apart, alias_at; intros s s'; discriminate.

(** The realm's flows are complete and self-contained, under any
    generation: no two flows and no two configs share an alias; the four
    aliases are top-level flows, the only ones, each its base with a version
    of 8 hexadecimal digits; every sub-flow a step names is there and is not
    top-level, every config a step names is there, and every flow that is not
    top-level is a sub-flow of some flow. *)
Theorem flows_closed g build : keycloak_signin_flows g = Ok build →
  closed (map snd (aliases build)) (authenticationFlows build, authenticatorConfig build) ∧
  dkeys (aliases build) = ["browser"; "admin"; "staff"; "post_broker_login"] ∧
  ∀ a, a ∈ map snd (aliases build) → ∃ base v, base ∈ bases build ∧ a = alias_at base v ∧ version_text v.
Proof.
  intros (v1 & v2 & v3 & v4 & Hv & ->)%build_inv. cbv zeta. rewrite !Forall_cons in Hv.
  destruct Hv as (V1 & V2 & V3 & V4 & _).
  set (f1 := alias_at BROWSER v1). set (f2 := alias_at POST_BROKER v2).
  set (f3 := alias_at "catena-signin-admin" v3). set (f4 := alias_at "catena-signin-staff" v4).
  destruct (browser_closed f1) as [C1 U1].
  destruct (post_broker_closed f2) as [C2 U2].
  destruct (admin_closed f3) as [C3 U3].
  destruct (staff_closed f4) as [C4 U4].
  destruct (under_apart _ _ _ _ U1 U2 ltac:(far)) as [N12 P12].
  destruct (under_apart _ _ _ _ U1 U3 ltac:(far)) as [N13 P13]. destruct (under_apart _ _ _ _ U2 U3 ltac:(far)) as [N23 P23].
  destruct (under_apart _ _ _ _ U1 U4 ltac:(far)) as [N14 P14]. destruct (under_apart _ _ _ _ U2 U4 ltac:(far)) as [N24 P24].
  destruct (under_apart _ _ _ _ U3 U4 ltac:(far)) as [N34 P34].
  cbn [aliases authenticationFlows authenticatorConfig bases map snd dkeys fst]. split_and!; [|done|].
  - pose proof (closed_app _ _ _ _ C1 C2 N12 P12) as C12.
    pose proof (closed_app _ _ _ _ C12 C3 (apart_join _ _ _ N13 N23) (apart_join _ _ _ P13 P23)) as C123.
    pose proof (closed_app _ _ _ _ C123 C4 (apart_join _ _ _ (apart_join _ _ _ N14 N24) N34)
                  (apart_join _ _ _ (apart_join _ _ _ P14 P24) P34)) as C1234.
    eapply closed_same; [|exact C1234]. intros a. cbn [app]. clear. clearbody f1 f2 f3 f4. rewrite !elem_of_cons. tauto.
  - clear -V1 V2 V3 V4. intros a Ha. elem_cases Ha; do 2 eexists; (split_and!; [|reflexivity|done]); clear; rewrite !elem_of_cons; auto.
Qed.

Lemma flows_closed_witness : is_ok (keycloak_signin_flows (VInt 3)) = true ∧
  match keycloak_signin_flows (VInt 3) with
  | Ok build => closed (map snd (aliases build)) (authenticationFlows build, authenticatorConfig build)
  | Raise _ => False
  end.
Proof.
  assert (Hok : is_ok (keycloak_signin_flows (VInt 3)) = true) by (vm_compute; reflexivity). split; [exact Hok|].
  destruct (keycloak_signin_flows (VInt 3)) as [build|] eqn:Hb; [|discriminate Hok].
  exact (proj1 (flows_closed _ _ Hb)).
Defined.

(** * Hand edits *)

Lemma dict_or_dict d : dict_or (VDict d) = Ok d.
Proof. by destruct d. Qed.
Lemma digest_val_eq a b : py_eq (digest_val a) (digest_val b) = bool_decide (a = b).
Proof.
  destruct a as [a|], b as [b|]; cbn; [|by rewrite bool_decide_false..|by rewrite bool_decide_true].
  apply bool_decide_ext. split; [by intros ->|by intros [= ->]].
Qed.

Lemma recorded_generation g l seen :
  keycloak_flow_generation (VDict [("generation", VInt g); ("flows", VDict l)]) seen =
  Ok (if existsb (λ kv, negb (py_eq (digest_val (default None (dget kv.1 seen))) kv.2)) l then g + 1 else g)%Z.
Proof. by destruct l. Qed.

(** After a converge records generation [g] and the digests it
    observed, the next one builds under [g] exactly when every recorded flow
    still reads as recorded, and under the next generation as soon as one
    reads differently or is gone; flows that were not recorded do not count. *)
Theorem hand_edit_moves g observed seen record :
  NoDup (dkeys observed) → keycloak_flow_record (VInt g) observed = Ok record →
  ((∀ alias d, dget alias observed = Some d → default None (dget alias seen) = d) →
     keycloak_flow_generation record seen = Ok g) ∧
  (∀ alias d, dget alias observed = Some d → default None (dget alias seen) ≠ d →
     keycloak_flow_generation record seen = Ok (g + 1)%Z).
Proof.
  intros Hn [= <-].
  assert (Hin : ∀ alias v, (alias, v) ∈ sort_items (map (λ kv, (kv.1, digest_val kv.2)) observed) ↔
                           ∃ d, dget alias observed = Some d ∧ v = digest_val d).
  { intros alias v. rewrite sort_items_Permutation, list_elem_of_fmap. split.
    - intros ([alias' d] & [= -> ->] & Hd). exists d. split; [|done]. by apply elem_of_dget.
    - intros (d & Hd & ->). exists (alias, d). split; [done|]. by apply elem_of_dget. }
  rewrite recorded_generation.
  split.
  - intros Hsame. destruct (existsb _ _) eqn:He; [|done]. apply existsb_exists in He as ([alias v] & Hv & He).
    apply list_elem_of_In, Hin in Hv as (d & Hd & ->). cbn in He.
    rewrite digest_val_eq, (Hsame _ _ Hd), bool_decide_true in He; done.
  - intros alias d Hd Hne. destruct (existsb _ _) eqn:He; [done|]. exfalso. apply not_true_iff_false in He. apply He.
    apply existsb_exists. exists (alias, digest_val d). split; [apply list_elem_of_In, Hin; eauto|].
    cbn. by rewrite digest_val_eq, bool_decide_false.
Qed.

Lemma hand_edit_moves_witness :
  let observed := [("b-v1", Some "x"); ("a-v1", Some "y")] in
  let seen := [("a-v1", Some "y"); ("b-v1", Some "z")] in
  ∃ record, keycloak_flow_record (VInt 4) observed = Ok record ∧
    keycloak_flow_generation record observed = Ok 4%Z ∧ keycloak_flow_generation record seen = Ok 5%Z.
Proof.
  intros observed seen. eexists. split; [reflexivity|].
  assert (Hn : NoDup (dkeys observed)) by (cbn; apply NoDup_cons; split; [not_elem|apply NoDup_singleton]).
  split.
  - apply (hand_edit_moves 4 observed observed _ Hn eq_refl). intros alias d Hd. by rewrite Hd.
  - apply (proj2 (hand_edit_moves 4 observed seen _ Hn eq_refl) "b-v1" (Some "x")); [reflexivity|discriminate].
Defined.

(** * Stale flows *)

Lemma in_set_spec v l b : in_set v l = Ok b → (b = false ↔ ∀ x, x ∈ l → py_eq v x = false).
Proof.
  unfold in_set. destruct (hashable v); [|done]. intros [= <-]. rewrite <-not_true_iff_false, existsb_exists. split.
  - intros Hn x Hx. apply not_true_iff_false. intros He. apply Hn. exists x. by rewrite <-list_elem_of_In.
  - intros Hf (x & Hx%list_elem_of_In & He). by rewrite Hf in He.
Qed.
Lemma names_base_spec alias bases b : names_base alias bases = Ok b → b = true ↔
  ∃ a base, alias = VStr a ∧ base ∈ bases ∧ (a = base ∨ startswith a (base +:+ "-v") = true).
Proof.
  induction bases as [|base bases IH]; cbn; [intros [= <-]; split; [done|]; intros (? & ? & _ & []%elem_of_nil & _)|].
  destruct (py_eq alias (VStr base)) eqn:He.
  { intros [= <-]. apply py_eq_text in He as ->. split; [|done]. intros _. exists base, base. set_solver. }
  destruct alias as [| | | |a| |]; try done. destruct (startswith a _) eqn:Hs.
  { intros [= <-]. split; [|done]. intros _. exists a, base. set_solver. }
  intros Hb. rewrite IH by done. split; intros (a' & base' & [= <-] & Hin & Hc).
  - exists a, base'. split_and!; [done|by right|done].
  - exists a, base'. apply elem_of_cons in Hin as [->|Hin]; [|done]. exfalso.
    destruct Hc as [->|?]; [|congruence]. cbn in He. by rewrite bool_decide_true in He.
Qed.

(** A top-level flow under one of the bases that is not current, and that
    nothing names by alias or by id. *)
Definition stale_flow (current bound : list val) (bases : list string) (id alias flow : val) : Prop :=
  ∃ d, flow = VDict d ∧ dget "id" d = Some id ∧ dget "alias" d = Some alias ∧ truthy (vget "topLevel" d) = true ∧
    (∀ x, x ∈ current → py_eq alias x = false) ∧ (∀ x, x ∈ bound → py_eq alias x = false ∧ py_eq id x = false) ∧
    ∃ a base, alias = VStr a ∧ base ∈ bases ∧ (a = base ∨ startswith a (base +:+ "-v") = true).

Lemma stale_step_spec current bound bases stale flow stale' :
  stale_step current bound bases stale flow = Ok stale' →
  ∃ more, stale' = (stale ++ more)%list ∧ ∀ p, p ∈ more ↔ stale_flow current bound bases p.1 p.2 flow.
Proof.
  unfold stale_step. intros (d & Hd & H)%res_bind_Ok. destruct flow as [| | | | | |d']; simplify_eq/=.
  apply res_bind_Ok in H as (alias & Ha & H). unfold getitem in Ha. destruct (dget "alias" d) as [alias'|] eqn:Hal; simplify_eq.
  assert (Hnone : ∀ s, (∀ id alias', ¬ stale_flow current bound bases id alias' (VDict d)) → stale = s →
            ∃ more, s = (stale ++ more)%list ∧ ∀ p, p ∈ more ↔ stale_flow current bound bases p.1 p.2 (VDict d)).
  { intros s Hno <-. exists []. rewrite app_nil_r. split; [done|]. intros p. rewrite elem_of_nil. split; [done|]. by intros ?%Hno. }
  destruct (truthy _) eqn:Ht; cbn [negb] in H; [|injection H as <-; apply Hnone; [|done]; intros ?? (? & ?); naive_solver congruence].
  apply res_bind_Ok in H as (cur & Hc%in_set_spec & H). destruct cur.
  { injection H as <-. apply Hnone; [|done]. intros id a (? & [= <-] & _ & Ha & _ & Hcur & _). rewrite Hal in Ha. injection Ha as <-.
    by apply Hc in Hcur. }
  apply res_bind_Ok in H as (bnd & Hb%in_set_spec & H). destruct bnd.
  { injection H as <-. apply Hnone; [|done]. intros id a (? & [= <-] & _ & Ha & _ & _ & Hbd & _). rewrite Hal in Ha. injection Ha as <-.
    assert (true = false) by (apply Hb; intros x Hx; by apply Hbd). done. }
  apply res_bind_Ok in H as (id & Hid & H). unfold getitem in Hid. destruct (dget "id" d) as [id'|] eqn:Hi; simplify_eq.
  apply res_bind_Ok in H as (ib & Hib%in_set_spec & H). destruct ib.
  { injection H as <-. apply Hnone; [|done]. intros id' a (? & [= <-] & Hid' & _ & _ & _ & Hbd & _). rewrite Hi in Hid'. injection Hid' as <-.
    assert (true = false) by (apply Hib; intros x Hx; by apply Hbd). done. }
  apply res_bind_Ok in H as (ours & Ho%names_base_spec & [= <-]). destruct ours.
  - exists [(id, alias)]. split; [done|]. intros [id2 a2]. rewrite list_elem_of_singleton. cbn. split.
    + intros [= -> ->]. exists d. split_and!; try done; [by apply Hc|intros x Hx; split; [by apply Hb|by apply Hib]|by apply Ho].
    + intros (? & [= <-] & ? & ? & _). congruence.
  - apply Hnone; [|done]. intros id' a (? & [= <-] & _ & Ha & _ & _ & _ & Hx). rewrite Hal in Ha. injection Ha as <-.
    by apply Ho in Hx.
Qed.

(** The flows named stale are exactly the top-level flows under one
    of Catena's bases that the build does not name and that nothing bound
    names, by alias or by id: a flow in use, or current, never is. *)
Theorem stale_exact listing build stale :
  keycloak_flow_stale listing build = Ok stale →
  ∃ flows bound, getitem "flows" listing ≫= py_iter = Ok flows ∧ getitem "bound" listing ≫= py_iter = Ok bound ∧
    ∀ id alias, (id, alias) ∈ stale ↔
      ∃ flow, flow ∈ flows ∧ stale_flow (map (λ kv, VStr kv.2) (aliases build)) bound (bases build) id alias flow.
Proof.
  unfold keycloak_flow_stale. intros (bound & Hb & H)%res_bind_Ok. destruct (forallb hashable bound); [|done]. cbn [negb] in H.
  apply res_bind_Ok in H as (flows & Hf & H). exists flows, bound. split_and!; [done..|]. clear Hf Hb.
  set (current := map _ _) in *. clearbody current.
  assert (Hgen : ∀ acc, foldM (stale_step current bound (bases build)) acc flows = Ok stale →
    ∀ p, p ∈ stale ↔ p ∈ acc ∨ ∃ flow, flow ∈ flows ∧ stale_flow current bound (bases build) p.1 p.2 flow).
  { clear H. induction flows as [|flow flows IH]; intros acc H p; cbn in H.
    - injection H as <-. split; [by left|]. intros [?|(? & []%elem_of_nil & _)]; done.
    - apply res_bind_Ok in H as (acc' & (more & -> & Hm)%stale_step_spec & H). rewrite (IH _ H p), elem_of_app, Hm.
      setoid_rewrite elem_of_cons. naive_solver. }
  intros id alias. rewrite (Hgen _ H). cbn. rewrite elem_of_nil. naive_solver.
Qed.

(** A flow a person made, whose alias merely starts like a version of ours,
    is named stale, and so deleted. *)
Definition demo_build : realm_flows :=
  {| aliases := [("browser", "catena-browser-v02a90a50")]; bases := [BROWSER]; authenticationFlows := []; authenticatorConfig := [] |}.
Definition demo_flow (id alias : string) : val :=
  VDict [("id", VStr id); ("alias", VStr alias); ("topLevel", VBool true)].
Definition demo_listing : dict val :=
  [("flows", VList [demo_flow "1" "catena-browser-v02a90a50"; demo_flow "2" "catena-browser-v00000000";
                    demo_flow "3" "catena-browser-vpn users"; demo_flow "4" "catena-browser-v11111111"]);
   ("bound", VList [VStr "4"])].
Example hand_made_flow_stale :
  keycloak_flow_stale demo_listing demo_build =
  Ok [(VStr "2", VStr "catena-browser-v00000000"); (VStr "3", VStr "catena-browser-vpn users")].
Proof. reflexivity. Qed.

Lemma stale_exact_witness :
  ∃ stale, keycloak_flow_stale demo_listing demo_build = Ok stale ∧ (VStr "2", VStr "catena-browser-v00000000") ∈ stale ∧
    (VStr "4", VStr "catena-browser-v11111111") ∉ stale.
Proof.
  eexists. split; [vm_compute; reflexivity|]. split; [by left|].
  destruct (stale_exact demo_listing demo_build _ eq_refl) as (flows & bound & _ & [= <-] & Hs). intros Hin.
  apply Hs in Hin as (flow & _ & d & _ & _ & _ & _ & _ & Hb & _). destruct (Hb (VStr "4")) as [_ Hid]; [by left|].
  discriminate Hid.
Defined.
