(* ===== verification/RenderKnobs.v ===== *)
(** [ansible/helpers/render_knobs.py]: the one place the knob registry's shape
    is enforced, the order in which an inventory's [.env] lists its keys, and
    the text of that file.  The registry is the document the YAML reader
    yields; a mapping's keys are strings. *)
From S2P Require Import Prelude PyStr PyNum PyVal.

#[local] Open Scope string_scope.

Definition RESIDENCES : list string := ["store"; "controller"; "host"].
Definition KINDS : list string := ["secret"; "text"; "choice"].
Definition SECTIONS : list string := ["secrets"; "config"].
Definition GROUPS : list string :=
  ["tunnel"; "backup"; "mail"; "alerts"; "share"; "access"; "license"; "hostnames"; "subdomains"; "server"; "vulnerabilities"].
Definition PANEL_OPTION_SOURCES : list string := ["timezones"; "cloudflare_zones"].
Definition GUI_SUGGESTION_SOURCES : list string := ["ssh_keys"].
Definition LANGS : list string := ["en"; "fr"].
Definition KNOB_FIELDS : list string :=
  ["key"; "residence"; "var"; "env"; "panel"; "step"; "label"; "help"; "depends"; "required"; "gui_suggestions_from"; "gui_choice"].
Definition GUI_CHOICES : list string := ["public"; "private"].
Definition GUI_STEP_FIELDS : list string := ["name"; "title"; "doc"; "note"].
Definition ENV_WIDTH : nat := 74.
(** [ENV_UNQUOTABLE]: space, tab, hash, both quotes and the dollar. *)
Definition unquotable (a : ascii) : bool := existsb (N.eqb (code a)) [32; 9; 35; 34; 39; 36]%N.

(** * Validation *)

(** [_require]: the text of the error names the key and is left out. *)
Definition require (b : bool) : res unit := if b then Ok tt else Raise KnobError.

Definition is_dict (v : val) : bool := match v with VDict _ => true | _ => false end.
Definition is_list (v : val) : bool := match v with VList _ => true | _ => false end.
Definition is_str (v : val) : bool := match v with VStr _ => true | _ => false end.
Definition is_bool (v : val) : bool := match v with VBool _ => true | _ => false end.
Definition is_none (v : val) : bool := match v with VNone => true | _ => false end.
(** [isinstance(v, str) and v] *)
Definition filled (v : val) : bool := is_str v && truthy v.
(** [v in names] for names that are strings *)
Definition one_of (v : val) (names : list string) : bool := existsb (λ n, py_eq v (VStr n)) names.
Definition no_unknown (fields : list string) (d : dict val) : bool :=
  forallb (λ k, bool_decide (k ∈ fields)) (dkeys d).
Fixpoint each {A} (f : A → res unit) (l : list A) : res unit :=
  match l with [] => Ok tt | x :: l => f x;; each f l end.
(** A check made when a key is there. *)
Definition when_has (k : string) (d : dict val) (f : val → res unit) : res unit :=
  match dget k d with Some v => f v | None => Ok tt end.

Definition check_text (value : val) (required : list string) : res unit :=
  match value with
  | VDict d =>
      require (no_unknown LANGS d);;
      each (λ lang, require (match vget lang d with VStr s => negb (bool_decide (strip s = "")) | _ => false end)) required
  | _ => Raise KnobError
  end.

(** The panel's [kind] decides its options; then the default and the source. *)
Definition check_panel (panel : val) : res unit :=
  match panel with
  | VDict p =>
      each (λ k, require (dhas k p)) ["group"; "section"; "kind"; "optional"];;
      require (one_of (vget "group" p) GROUPS);;
      require (one_of (vget "section" p) SECTIONS);;
      require (one_of (vget "kind" p) KINDS);;
      require (is_bool (vget "optional" p));;
      let options := vget "options" p in
      (if py_eq (vget "kind" p) (VStr "choice")
       then require (is_list options && truthy options);; require (forallb is_str (default [] (as_list options)))
       else require (is_none options));;
      let default_ := vget "default" p in
      (if is_none default_ then Ok tt else
         require (negb (py_eq (vget "kind" p) (VStr "secret")));;
         require (filled default_);;
         if is_none options then Ok tt else require (existsb (py_eq default_) (default [] (as_list options))));;
      let source := vget "options_from" p in
      if is_none source then Ok tt else
        require (one_of source PANEL_OPTION_SOURCES);; require (py_eq (vget "kind" p) (VStr "text"))
  | _ => Raise KnobError
  end.

Definition check_env (env : val) (sections : list string) : res unit :=
  match env with
  | VDict e =>
      (if is_list (vget "section" e) || is_dict (vget "section" e) then Raise TypeError else Ok tt);;
      require (one_of (vget "section" e) sections);;
      match vget "default" e with
      | VStr d =>
          require (sforall (λ a, negb (unquotable a)) d);;
          (let options := vget "options" e in
           if is_none options then Ok tt else
             require (is_list options && truthy options);;
             require (forallb is_str (default [] (as_list options)));;
             require (existsb (py_eq (VStr d)) (default [] (as_list options))));;
          (let example := vget "example" e in
           if is_none example then Ok tt else require (filled example);; require (bool_decide (d = "")));;
          let reseed := vget "reseed" e in
          if is_none reseed then Ok tt else require (bool_decide (reseed = VBool true))
      | _ => Raise KnobError
      end
  | _ => Raise KnobError
  end.

(** [doc.get(k) or []], which has to be a list. *)
Definition list_or (k : string) (doc : dict val) : res (list val) :=
  match val_or (vget k doc) (VList []) with VList l => Ok l | _ => Raise KnobError end.

(** The [.env] sections, by name. *)
Definition section_step (names : list string) (section : val) : res (list string) :=
  match section with
  | VDict s =>
      match vget "name" s with
      | VStr name =>
          require (negb (bool_decide (name = "")));;
          require (filled (vget "title" s));;
          require (negb (bool_decide (name ∈ names)));;
          Ok (names ++ [name])%list
      | _ => Raise KnobError
      end
  | _ => Raise KnobError
  end.

Definition gui_step (names : list string) (step : val) : res (list string) :=
  match step with
  | VDict s =>
      match vget "name" s with
      | VStr name =>
          require (negb (bool_decide (name = "")));;
          require (negb (bool_decide (name ∈ names)));;
          require (no_unknown GUI_STEP_FIELDS s);;
          each (λ k, match dget k s with Some v => check_text v LANGS | None => Raise KnobError end) ["title"; "doc"];;
          when_has "note" s (λ v, check_text v LANGS);;
          Ok (names ++ [name])%list
      | _ => Raise KnobError
      end
  | _ => Raise KnobError
  end.

(** The [step], [env] and [help] of an entry. *)
Definition check_asked (steps : list string) (e : dict val) : res unit :=
  match dget "step" e with
  | Some step =>
      require (one_of step steps);; require (dhas "env" e);;
      require (dhas "label" e);; check_text (vget "label" e) LANGS;;
      require (dhas "help" e);; check_text (vget "help" e) LANGS
  | None =>
      if dhas "env" e then require (dhas "help" e);; check_text (vget "help" e) ["en"]
      else require (negb (dhas "help" e))
  end.

Definition check_gui_choice (e : dict val) (choice : val) : res unit :=
  match choice with
  | VDict c =>
      require (bool_decide (sorted_str (dkeys c) = sorted_str GUI_CHOICES));;
      each (λ option, check_text (vget option c) LANGS) GUI_CHOICES;;
      require (negb (truthy (vget "required" e)))
  | _ => Raise KnobError
  end.

(** One entry, of either list. *)
Definition entry_step (steps : list string) (seen : list string) (entry : val) : res (list string) :=
  match entry with
  | VDict e =>
      match vget "key" e with
      | VStr key =>
          require (negb (bool_decide (key = "")));;
          require (negb (bool_decide (key ∈ seen)));;
          require (no_unknown KNOB_FIELDS e);;
          when_has "panel" e check_panel;;
          require (negb (dhas "env" e && truthy (vget "panel" e)));;
          check_asked steps e;;
          each (λ field, when_has field e (λ _, require (dhas "step" e)))
            ["required"; "gui_suggestions_from"; "label"; "gui_choice"];;
          when_has "gui_choice" e (check_gui_choice e);;
          when_has "required" e (λ v, require (is_bool v));;
          when_has "gui_suggestions_from" e (λ v, require (one_of v GUI_SUGGESTION_SOURCES));;
          Ok (seen ++ [key])%list
      | _ => Raise KnobError
      end
  | _ => Raise KnobError
  end.

Definition secret_check (entry : val) : res unit :=
  e ← as_dict_r entry;
  require (negb (dhas "residence" e));;
  require (negb (dhas "env" e));;
  let panel := vget "panel" e in
  if truthy panel then
    p ← as_dict_r panel;
    require (py_eq (vget "section" p) (VStr "secrets"));; require (py_eq (vget "kind" p) (VStr "secret"))
  else Ok tt.

Definition config_check (sections : list string) (entry : val) : res unit :=
  e ← as_dict_r entry;
  let residence := vget "residence" e in
  require (one_of residence RESIDENCES);;
  when_has "var" e (λ _, require (py_eq residence (VStr "store")));;
  when_has "env" e (λ env,
    check_env env sections;;
    reseed ← attr_get "reseed" env;
    require (negb (truthy reseed) || py_eq residence (VStr "store")));;
  let panel := vget "panel" e in
  if truthy panel then
    p ← as_dict_r panel;
    require (py_eq residence (VStr "store"));; require (py_eq (vget "section" p) (VStr "config"))
  else Ok tt.

(** Under a key of an entry: the text its [env] or its [step] names. *)
Definition env_section (entry : val) : list val :=
  match entry with
  | VDict e => match dget "env" e with Some (VDict v) => [vget "section" v] | _ => [] end
  | _ => []
  end.
Definition step_asked (entry : val) : list val :=
  match entry with VDict e => match dget "step" e with Some s => [s] | None => [] end | _ => [] end.
Definition all_used (names : list string) (used : list val) : bool :=
  forallb (λ n, existsb (λ u, py_eq u (VStr n)) used) names.

(** The choice fields and their options. *)
Definition choice_step (choices : dict val) (entry : val) : res (dict val) :=
  e ← as_dict_r entry;
  kind ← attr_get "kind" (default (VDict []) (dget "panel" e));
  if py_eq kind (VStr "choice") then
    key ← (getitem "key" e ≫= as_str_r);
    panel ← (getitem "panel" e ≫= as_dict_r);
    options ← getitem "options" panel;
    Ok (dset key options choices)
  else Ok choices.

Definition depends_check (choices : dict val) (entry : val) : res unit :=
  e ← as_dict_r entry;
  match vget "depends" e with
  | VNone => Ok tt
  | VDict d =>
      require (dhas "choice" d && dhas "values" d);;
      match vget "choice" d with
      | VStr governor =>
          require (dhas governor choices);;
          values ← py_iter (vget "values" d);
          offered ← py_iter (vget governor choices);
          require (forallb (λ v, existsb (py_eq v) offered) values);;
          require (truthy (vget "panel" e))
      | VList _ | VDict _ => Raise TypeError
      | _ => Raise KnobError
      end
  | _ => Raise KnobError
  end.

(** [load] of the parsed document. *)
Definition load (doc : val) : res (dict val) :=
  match doc with
  | VDict doc =>
      require (py_eq (vget "version" doc) (VInt 1));;
      secrets ← list_or "secrets" doc;
      config ← list_or "config" doc;
      require (match vget "env_header" doc with VStr s => negb (bool_decide (strip s = "")) | _ => false end);;
      env_sections ← list_or "env_sections" doc;
      require (negb (bool_decide (env_sections = [])));;
      section_names ← foldM section_step [] env_sections;
      gui_steps ← list_or "gui_steps" doc;
      require (negb (bool_decide (gui_steps = [])));;
      step_names ← foldM gui_step [] gui_steps;
      _ ← foldM (entry_step step_names) [] (secrets ++ config)%list;
      each secret_check secrets;;
      each (config_check section_names) config;;
      require (all_used section_names (flat_map env_section config));;
      require (all_used step_names (flat_map step_asked (secrets ++ config)%list));;
      choices ← foldM choice_step [] (secrets ++ config)%list;
      each (depends_check choices) (secrets ++ config)%list;;
      Ok doc
  | _ => Raise KnobError
  end.

(** * The order of the keys *)

Definition by_section_step (by_section : dict (list val)) (entry : val) : res (dict (list val)) :=
  env ← attr_get "env" entry;
  if truthy env then
    section ← match env with VDict e => getitem "section" e ≫= as_str_r | _ => Raise TypeError end;
    Ok (dset section (default [] (dget section by_section) ++ [entry])%list by_section)
  else Ok by_section.
Definition env_by_section (doc : dict val) : res (dict (list val)) :=
  config ← (getitem "config" doc ≫= py_iter); foldM by_section_step [] config.

Definition entries_of (by_section : dict (list val)) (section : val) : res (list val) :=
  s ← as_dict_r section; name ← (getitem "name" s ≫= as_str_r); Ok (default [] (dget name by_section)).
Definition env_knobs (doc : dict val) : res (list val) :=
  by_section ← env_by_section doc;
  sections ← (getitem "env_sections" doc ≫= py_iter);
  l ← mapM_res (entries_of by_section) sections;
  Ok (concat l).

(** * Wrapped text *)

(** [textwrap]'s white space, and a tab to the next multiple of eight. *)
Definition wrap_space (a : ascii) : bool := code_in 9 13 a || (code a =? 32)%N.
Fixpoint blanks (n : nat) (s : string) : string :=
  match n with 0 => s | S n => String " " (blanks n s) end.
Fixpoint expandtabs (col : nat) (s : string) : string :=
  match s with
  | EmptyString => ""
  | String a s =>
      if (code a =? 9)%N then let n := 8 - col mod 8 in blanks n (expandtabs (col + n) s)
      else if (code a =? 10)%N || (code a =? 13)%N then String a (expandtabs 0 s)
      else String a (expandtabs (S col) s)
  end.
Definition munge (s : string) : string :=
  smap (λ a, if wrap_space a then " "%char else a) (expandtabs 0 s).

(** The words and the white space between them, in order. *)
Fixpoint chunks_go (in_space : bool) (acc : string) (s : string) : list string :=
  let flush rest := if bool_decide (acc = "") then rest else acc :: rest in
  match s with
  | EmptyString => flush []
  | String a s =>
      if Bool.eqb (wrap_space a) in_space then chunks_go in_space (acc +:+ String a "") s
      else flush (chunks_go (wrap_space a) (String a "") s)
  end.
Definition chunks (s : string) : list string := chunks_go false "" s.

Definition blank_chunk (c : string) : bool := bool_decide (strip c = "").
(** The chunks that fit, and the rest. *)
Fixpoint fit (width : nat) (l : list string) : list string * list string :=
  match l with
  | [] => ([], [])
  | c :: l' =>
      if (String.length c <=? width)%nat
      then let '(line, rest) := fit (width - String.length c) l' in (c :: line, rest)
      else ([], l)
  end.
(** One line: a chunk that is too long has a line of its own. *)
Definition next_line (width : nat) (l : list string) : list string * list string :=
  match fit width l with
  | ([], c :: rest) => ([c], rest)
  | r => r
  end.
Definition drop_last_blank (line : list string) : list string :=
  match rev line with
  | c :: l => if blank_chunk c then rev l else line
  | [] => []
  end.
Fixpoint wrap_chunks (fuel : nat) (started : bool) (width : nat) (l : list string) : list string :=
  match fuel, l with
  | _, [] | 0, _ => []
  | S fuel, c :: l' =>
      let l := if started && blank_chunk c then l' else l in
      let '(line, rest) := next_line width l in
      let line := drop_last_blank line in
      if bool_decide (line = []) then wrap_chunks fuel started width rest
      else sjoin "" line :: wrap_chunks fuel true width rest
  end.
Definition wrap (s : string) : list string :=
  let l := chunks (munge s) in wrap_chunks (length l) false ENV_WIDTH l.

(** * The file *)

(** [_comment]: the lines so far, and the paragraph being gathered. *)
Definition flush (acc : list string * list string) : list string :=
  let '(out, paragraph) := acc in
  if bool_decide (paragraph = []) then out
  else (out ++ map (String.append "# ") (wrap (sjoin " " paragraph)))%list.
Definition comment_step (acc : list string * list string) (line : string) : list string * list string :=
  if bool_decide (strip line = "") then ((flush acc ++ ["#"])%list, [])
  else if startswith line " " || startswith line (String "009" "")
  then ((flush acc ++ [rstrip_of is_space ("# " +:+ line)])%list, [])
  else (acc.1, (acc.2 ++ [strip line])%list).
Definition comment (text : string) : list string :=
  flush (foldl comment_step ([], []) (splitlines (strip_char nl text))).

(** [s.ljust(n, c)] *)
Fixpoint pad (c : ascii) (n : nat) : string := match n with 0 => "" | S n => String c (pad c n) end.
Definition ljust (n : nat) (c : ascii) (s : string) : string := s +:+ pad c (n - String.length s).

(** [_comment(v)] of a value: blank for a false one. *)
Definition comment_of (v : val) : res (list string) :=
  match val_or v (VStr "") with VStr s => Ok (comment s) | _ => Raise AttributeError end.

Definition render_entry (entry : val) : res (list string) :=
  e ← as_dict_r entry;
  help ← (getitem "help" e ≫= as_dict_r);
  en ← getitem "en" help;
  text ← comment_of en;
  env ← (getitem "env" e ≫= as_dict_r);
  options ← (let o := vget "options" env in
             if truthy o then l ← (py_iter o ≫= mapM_res as_str_r); Ok (comment ("One of: " +:+ sjoin ", " l +:+ ".")) else Ok []);
  let example := vget "example" env in
  key ← getitem "key" e;
  default_ ← getitem "default" env;
  Ok ([""] ++ text ++ options
      ++ (if truthy example then comment ("For example: " +:+ py_str example) else [])
      ++ [py_str key +:+ "=" +:+ py_str default_])%list.

Definition render_section (by_section : dict (list val)) (section : val) : res (list string) :=
  s ← as_dict_r section;
  title ← getitem "title" s;
  doc ← (if truthy (vget "doc" s) then c ← comment_of (vget "doc" s); Ok ("#" :: c) else Ok []);
  entries ← entries_of by_section section;
  blocks ← mapM_res render_entry entries;
  Ok ([""; ljust 78 "-" ("# --- " +:+ py_str title +:+ " ")] ++ doc ++ concat blocks)%list.

Definition env_lines (doc : dict val) : res (list string) :=
  header ← (getitem "env_header" doc ≫= comment_of);
  by_section ← env_by_section doc;
  sections ← (getitem "env_sections" doc ≫= py_iter);
  blocks ← mapM_res (render_section by_section) sections;
  Ok (header ++ concat blocks)%list.
Definition render_env (doc : dict val) : res string :=
  lines ← env_lines doc; Ok (sjoin newline_str lines +:+ newline_str).

Example wrap_words : wrap "aa  bb" = ["aa  bb"]. Proof. reflexivity. Qed.
Example comment_shape :
  comment ("One" +:+ newline_str +:+ "two." +:+ newline_str +:+ newline_str +:+ "    cmd  ") = ["# One two."; "#"; "#     cmd"].
Proof. reflexivity. Qed.
