(* ===== verification/RenderKnobsFacts.v ===== *)
(** What an accepted registry promises: every knob with an [.env] home is
    listed exactly once, in the order of the sections, and every comment line
    of the rendered file is one commented line. *)
From S2P Require Import Prelude PyStr PyNum PyVal RenderKnobs.

#[local] Open Scope string_scope.

(** * What acceptance says *)

Lemma require_ok b u : require b = Ok u → b = true.
Proof. by destruct b. Qed.
Lemma then_ok {A} (c : res unit) (d : res A) a : (c ≫= λ _, d) = Ok a → c = Ok tt ∧ d = Ok a.
Proof. intros ([] & ? & ?)%res_bind_Ok. done. Qed.
Lemma each_ok {A} (f : A → res unit) l x : each f l = Ok tt → x ∈ l → f x = Ok tt.
Proof.
  intros H Hx. induction l as [|y l IH]; [by apply elem_of_nil in Hx|]. cbn in H.
  apply then_ok in H as [H1 H2]. apply elem_of_cons in Hx as [->|Hx]; auto.
Qed.
Lemma one_of_in v names : one_of v names = true → ∃ n, n ∈ names ∧ v = VStr n.
Proof.
  intros (n & Hn & Hv)%existsb_exists. exists n. apply py_eq_text in Hv as ->. by apply list_elem_of_In in Hn.
Qed.

(** A section's name, and the section of an entry's [env]. *)
Definition name_of (section : val) : string :=
  match section with VDict s => str_or (vget "name" s) | _ => "" end.
Definition home (entry : val) : option string :=
  match entry with
  | VDict e => match dget "env" e with
               | Some (VDict env) => match dget "section" env with Some (VStr n) => Some n | _ => None end
               | _ => None
               end
  | _ => None
  end.

(** An accepted [env] names a section, and has a default that can stand on its
    line unquoted. *)
Definition options_ok (v : val) : Prop := v = VNone ∨ ∃ l, v = VList (map VStr l).
Definition example_ok (v : val) : Prop := v = VNone ∨ ∃ s, v = VStr s.
Definition env_fields (sections : list string) (env : val) : Prop :=
  ∃ d n default_, env = VDict d ∧ dget "section" d = Some (VStr n) ∧ n ∈ sections ∧
    dget "default" d = Some (VStr default_) ∧ sforall (λ a, negb (unquotable a)) default_ = true ∧
    options_ok (vget "options" d) ∧ example_ok (vget "example" d).
Definition env_ok (sections : list string) (e : dict val) : Prop :=
  match dget "env" e with None => True | Some env => env_fields sections env end.

Lemma is_none_true v : is_none v = true → v = VNone.
Proof. by destruct v. Qed.
Lemma strings_ok l : forallb is_str l = true → ∃ names, l = map VStr names.
Proof.
  induction l as [|v l IH]; [by exists []|]. cbn. intros [Hv Hl]%andb_true_iff. destruct (IH Hl) as [names ->].
  destruct v as [| | | |s| |]; try done. by exists (s :: names).
Qed.
Lemma filled_str v : filled v = true → ∃ s, v = VStr s.
Proof. unfold filled. destruct v; try done. eauto. Qed.
(** A check made of a value that may be absent. *)
Lemma unless_none v c : (if is_none v then Ok tt else c) = Ok tt → v = VNone ∨ c = Ok tt.
Proof. destruct (is_none v) eqn:E; [left; by apply is_none_true|by right]. Qed.

Lemma check_env_ok env sections : check_env env sections = Ok tt → env_fields sections env.
Proof.
  destruct env as [| | | | | |d]; try done. cbn [check_env]. intros [_ H]%then_ok. apply then_ok in H as [H1 H].
  apply require_ok, one_of_in in H1 as (n & Hn & Hs). unfold env_fields. unfold vget in Hs. exists d, n.
  destruct (dget "section" d) as [v|]; cbn in Hs; simplify_eq. unfold vget in H at 1.
  destruct (dget "default" d) as [[| | | |def| |]|]; try done. cbn [from_option id] in H.
  apply then_ok in H as [Hd H]. apply then_ok in H as [Ho H]. apply then_ok in H as [He _].
  exists def. split_and!; [done..|by eapply require_ok| |].
  - apply unless_none in Ho as [Ho|Ho]; [by left|]. right. apply then_ok in Ho as [Hl Ho]. apply then_ok in Ho as [Hf _].
    apply require_ok, andb_true_iff in Hl as [Hl _]. apply require_ok in Hf.
    destruct (vget "options" d) as [| | | | |l|]; try done. apply strings_ok in Hf as [names Hf]. exists names. by rewrite <-Hf.
  - apply unless_none in He as [He|He]; [by left|]. right. apply then_ok in He as [Hf _]. by eapply filled_str, require_ok.
Qed.

Lemma config_check_ok sections entry : config_check sections entry = Ok tt →
  ∃ e, entry = VDict e ∧ env_ok sections e.
Proof.
  unfold config_check. intros (e & He & H)%res_bind_Ok. destruct entry; simplify_eq/=. exists e. split; [done|].
  apply then_ok in H as [_ H]. apply then_ok in H as [_ H]. apply then_ok in H as [H _].
  unfold when_has in H. unfold env_ok. destruct (dget "env" e) as [env|]; [|done].
  apply then_ok in H as [H _]. by apply check_env_ok.
Qed.

(** A knob's key, and the help above its key in the [.env]. *)
Definition help_en (e : dict val) : Prop :=
  ∃ help en, dget "help" e = Some (VDict help) ∧ dget "en" help = Some (VStr en).
Definition knob_ok (entry : val) : Prop :=
  ∃ e key, entry = VDict e ∧ dget "key" e = Some (VStr key) ∧ (dhas "env" e = true → help_en e).

Lemma vget_str k (d : dict val) s : vget k d = VStr s → dget k d = Some (VStr s).
Proof. unfold vget. destruct (dget k d); cbn; [by intros ->|done]. Qed.
Lemma check_text_en v required : check_text v required = Ok tt → "en" ∈ required →
  ∃ help en, v = VDict help ∧ dget "en" help = Some (VStr en).
Proof.
  destruct v as [| | | | | |d]; try done. cbn [check_text]. intros [_ H]%then_ok Hin. exists d.
  apply (each_ok _ _ "en") in H; [|done]. apply require_ok in H.
  destruct (vget "en" d) as [| | | |en| |] eqn:E; try done. exists en. split; [done|]. by apply vget_str.
Qed.
Lemma check_help e (required : list string) : "en" ∈ required → check_text (vget "help" e) required = Ok tt → help_en e.
Proof.
  intros Hin H. eapply check_text_en in H as (help & en & Hh & He); [|done]. exists help, en. split; [|done].
  unfold vget in Hh. destruct (dget "help" e); by simplify_eq/=.
Qed.
Lemma check_asked_ok steps e : check_asked steps e = Ok tt → dhas "env" e = true → help_en e.
Proof.
  unfold check_asked. intros H Henv. destruct (dget "step" e).
  - do 5 apply then_ok in H as [_ H]. eapply (check_help e LANGS); [set_solver|done].
  - rewrite Henv in H. apply then_ok in H as [_ H]. eapply (check_help e ["en"]); [set_solver|done].
Qed.
Lemma entry_step_ok steps seen entry seen' : entry_step steps seen entry = Ok seen' → knob_ok entry.
Proof.
  destruct entry as [| | | | | |e]; try done. cbn [entry_step]. destruct (vget "key" e) as [| | | |key| |] eqn:Hk; try done.
  intros H. do 5 apply then_ok in H as [_ H]. apply then_ok in H as [Ha _].
  exists e, key. split_and!; [done|by apply vget_str|]. by eapply check_asked_ok.
Qed.
Lemma entries_ok steps seen l seen' : foldM (entry_step steps) seen l = Ok seen' → Forall knob_ok l.
Proof.
  revert seen. induction l as [|x l IH]; intros seen H; [constructor|]. cbn in H. apply res_bind_Ok in H as (s & H1 & H).
  constructor; [by eapply entry_step_ok|by eapply IH].
Qed.

(** A section's name and title. *)
Definition section_ok (s : val) : Prop :=
  ∃ d title, s = VDict d ∧ dget "name" d = Some (VStr (name_of s)) ∧ dget "title" d = Some (VStr title).

Lemma section_names_ok sections names : foldM section_step [] sections = Ok names →
  names = map name_of sections ∧ NoDup names ∧ Forall section_ok sections.
Proof.
  assert (Hgen : ∀ acc, NoDup acc → foldM section_step acc sections = Ok names →
    names = (acc ++ map name_of sections)%list ∧ NoDup names ∧
    Forall section_ok sections).
  { induction sections as [|s sections IH]; intros acc Hacc H; cbn in H.
    - injection H as <-. rewrite app_nil_r. done.
    - apply res_bind_Ok in H as (acc' & H1 & H). destruct s as [| | | | | |d]; try done. cbn [section_step] in H1.
      unfold vget in H1. destruct (dget "name" d) as [[| | | |name| |]|] eqn:Hn; try done. cbn [from_option id] in H1.
      apply then_ok in H1 as [_ H1]. apply then_ok in H1 as [Ht H1]. apply then_ok in H1 as [Hd [= <-]].
      apply require_ok, filled_str in Ht as [title Ht%vget_str].
      apply require_ok, negb_true_iff, bool_decide_eq_false_1 in Hd.
      assert (Hname : name_of (VDict d) = name) by (cbn; unfold vget; rewrite Hn; apply str_or_str).
      apply IH in H as (-> & ? & ?); [|apply NoDup_app; split_and!; [done|set_solver|apply NoDup_singleton]].
      rewrite <-app_assoc in *. cbn [map app] in *. rewrite Hname. split_and!; [done|done|]. constructor; [|done].
      exists d, title. by rewrite Hname. }
  intros H. destruct (Hgen [] ltac:(constructor) H) as (? & ? & ?). done.
Qed.

Record accepted (doc : dict val) (config sections : list val) : Prop := {
  acc_config : val_or (vget "config" doc) (VList []) = VList config;
  acc_sections : vget "env_sections" doc = VList sections;
  acc_names : NoDup (map name_of sections);
  acc_named : Forall section_ok sections;
  acc_entries : Forall (λ entry, ∃ e, entry = VDict e ∧ env_ok (map name_of sections) e) config;
  acc_used : all_used (map name_of sections) (flat_map env_section config) = true;
  acc_some : sections ≠ [];
  acc_knobs : Forall knob_ok config;
  acc_header : ∃ header, dget "env_header" doc = Some (VStr header)
}.

Lemma load_accepted doc doc' : RenderKnobs.load (VDict doc) = Ok doc' →
  doc' = doc ∧ ∃ config sections, accepted doc config sections.
Proof.
  cbn [RenderKnobs.load]. intros [_ H]%then_ok. apply res_bind_Ok in H as (secrets & _ & H).
  apply res_bind_Ok in H as (config & Hc & H). apply then_ok in H as [Hh H].
  apply res_bind_Ok in H as (sections & Hs & H). apply then_ok in H as [Hne H].
  apply res_bind_Ok in H as (names & Hn & H). apply res_bind_Ok in H as (steps & _ & H). apply then_ok in H as [_ H].
  apply res_bind_Ok in H as (step_names & _ & H). apply res_bind_Ok in H as (seen & Hk & H).
  apply then_ok in H as [_ H]. apply then_ok in H as [He H]. apply then_ok in H as [Hu H]. apply then_ok in H as [_ H].
  apply res_bind_Ok in H as (choices & _ & H). apply then_ok in H as [_ [= <-]]. split; [done|].
  exists config, sections. apply section_names_ok in Hn as (-> & Hnd & Hf).
  unfold list_or in Hc, Hs. apply require_ok in Hu. apply require_ok, negb_true_iff, bool_decide_eq_false_1 in Hne.
  split; try done.
  - by destruct (val_or (vget "config" doc) _); simplify_eq.
  - unfold val_or in Hs. destruct (truthy (vget "env_sections" doc)); [by destruct (vget "env_sections" doc); simplify_eq|].
    by injection Hs as <-.
  - apply Forall_forall. intros entry Hin. by eapply config_check_ok, each_ok.
  - by apply entries_ok, Forall_app in Hk as [_ Hk].
  - apply require_ok in Hh. destruct (vget "env_header" doc) as [| | | |header| |] eqn:E; try done.
    exists header. by apply vget_str.
Qed.

(** * The order of the keys *)

(** Entries sorted into buckets: each entry is in the one bucket its name
    opens, so the buckets together are the entries that have one. *)
Definition bucket {A} (name : A → option string) (n : string) (l : list A) : list A :=
  filter (λ x, name x = Some n) l.

Lemma bucket_cons {A} (name : A → option string) n x l :
  bucket name n (x :: l) = ((if decide (name x = Some n) then [x] else []) ++ bucket name n l)%list.
Proof. unfold bucket. rewrite filter_cons. by destruct decide. Qed.

Lemma buckets_perm {A} (name : A → option string) (names : list string) (l : list A) :
  NoDup names → (∀ x n, x ∈ l → name x = Some n → n ∈ names) →
  concat (map (λ n, bucket name n l) names) ≡ₚ filter (λ x, is_Some (name x)) l.
Proof.
  intros Hnd. induction l as [|x l IH]; intros Hin.
  { cbn. clear Hnd Hin. induction names; cbn; auto. }
  assert (Hsplit : ∀ names, NoDup names →
    concat (map (λ n, bucket name n (x :: l)) names) ≡ₚ
    ((if decide (Exists (λ n, name x = Some n) names) then [x] else []) ++ concat (map (λ n, bucket name n l) names))%list).
  { clear. intros names. induction names as [|m names IH]; intros Hnd; cbn [map concat].
    - rewrite decide_False; [done|]. by inversion 1.
    - apply NoDup_cons in Hnd as [Hm Hnd]. rewrite bucket_cons, (IH Hnd).
      destruct (decide (name x = Some m)) as [Hx|Hx].
      + rewrite (decide_True (P := Exists _ (m :: names))) by by left.
        rewrite decide_False; [done|]. intros (n & Hn & ?)%Exists_exists. congruence.
      + rewrite (decide_ext (Exists (λ n, name x = Some n) (m :: names)) (Exists (λ n, name x = Some n) names))
          by (rewrite Exists_cons; tauto).
        cbn [app]. by destruct decide; cbn [app]; [rewrite Permutation_middle|]. }
  rewrite (Hsplit names Hnd), (IH (λ y n Hy, Hin y n (list_elem_of_further _ _ _ Hy))), filter_cons.
  destruct (name x) as [n|] eqn:Hx.
  - rewrite !decide_True; try done. apply Exists_exists. exists n. split; [|done]. apply (Hin x); [left|done].
  - rewrite (decide_False (P := is_Some None)) by (by intros [? ?]). rewrite decide_False; [done|].
    by intros (n & _ & ?)%Exists_exists.
Qed.

Lemma by_section_some acc e d n : dget "env" e = Some (VDict d) → dget "section" d = Some (VStr n) →
  by_section_step acc (VDict e) = Ok (dset n (default [] (dget n acc) ++ [VDict e])%list acc).
Proof.
  intros He Hs. unfold by_section_step. cbn [attr_get]. unfold vget. rewrite He. cbn.
  rewrite bool_decide_false by (intros ->%nil_length_inv; done). cbn. unfold getitem. by rewrite Hs.
Qed.
Lemma by_section_none acc e : dget "env" e = None → by_section_step acc (VDict e) = Ok acc.
Proof. intros He. unfold by_section_step. cbn [attr_get]. unfold vget. by rewrite He. Qed.

Lemma env_by_section_fold sections config : Forall (λ entry, ∃ e, entry = VDict e ∧ env_ok sections e) config → ∀ acc, 
  ∃ by_section, foldM by_section_step acc config = Ok by_section ∧
    ∀ n, default [] (dget n by_section) = (default [] (dget n acc) ++ bucket home n config)%list.
Proof.
  induction 1 as [|entry config (e & -> & He) _ IH]; intros acc.
  { exists acc. split; [done|]. intros. by rewrite app_nil_r. }
  cbn [foldM]. unfold env_ok in He. destruct (dget "env" e) as [env|] eqn:Henv.
  - destruct He as (d & n & def & -> & Hs & _). rewrite (by_section_some acc e d n Henv Hs). cbn [mbind res_bind].
    destruct (IH (dset n (default [] (dget n acc) ++ [VDict e])%list acc)) as (by_s & -> & Hby).
    exists by_s. split; [done|]. intros m. rewrite Hby, bucket_cons. cbn [home]. rewrite Henv, Hs, dget_dset.
    destruct (decide (m = n)) as [->|Hm].
    + rewrite (decide_True (P := Some n = Some n)) by done. cbn. by rewrite <-app_assoc.
    + rewrite (decide_False (P := Some n = Some m)) by congruence. done.
  - rewrite (by_section_none acc e Henv). cbn [mbind res_bind]. destruct (IH acc) as (by_s & -> & Hby).
    exists by_s. split; [done|]. intros m. rewrite Hby, bucket_cons. cbn [home]. rewrite Henv. done.
Qed.

Lemma accepted_config doc config sections : accepted doc config sections → vget "config" doc = VList config.
Proof.
  intros [Hc _ _ _ _ Hused Hsome _ _]. unfold val_or in Hc. destruct (truthy (vget "config" doc)); [done|].
  injection Hc as <-. destruct sections; [done|]. cbn in Hused. done.
Qed.
Lemma getitem_list k doc l : vget k doc = VList l → getitem k doc = Ok (VList l).
Proof. unfold vget, getitem. destruct (dget k doc); cbn; [by intros ->|done]. Qed.

(** The entries under each section's name, and their list in order. *)
Lemma accepted_by_section doc config sections : accepted doc config sections →
  ∃ by_s, env_by_section doc = Ok by_s ∧ (∀ n, default [] (dget n by_s) = bucket home n config) ∧
    env_knobs doc = Ok (concat (map (λ s, bucket home (name_of s) config) sections)).
Proof.
  intros Hacc. pose proof (accepted_config _ _ _ Hacc) as Hconfig. destruct Hacc as [_ Hs _ Hnamed Hentries _ _ _ _].
  destruct (env_by_section_fold _ _ Hentries []) as (by_s & Hby & Hdef).
  assert (Hl : env_by_section doc = Ok by_s).
  { unfold env_by_section. rewrite (getitem_list _ _ _ Hconfig). exact Hby. }
  exists by_s. split_and!; [done|done|]. unfold env_knobs. rewrite Hl. cbn [mbind res_bind].
  rewrite (getitem_list _ _ _ Hs). cbn [mbind res_bind py_iter].
  assert (mapM_res (entries_of by_s) sections = Ok (map (λ s, bucket home (name_of s) config) sections)) as ->; [|done].
  clear -Hnamed Hdef. induction Hnamed as [|s sections (d & title & -> & Hd & _) _ IH]; [done|].
  cbn [mapM_res entries_of as_dict_r mbind res_bind]. unfold getitem. rewrite Hd. cbn [mbind res_bind as_str_r].
  rewrite Hdef, IH. done.
Qed.

(** What the [.env] of an accepted registry carries.  Each knob of
    the configuration that has an [.env] home is listed, exactly once, under
    the section it names, in the running order of the sections and, within
    one, in the order of the registry; nothing else is listed. *)
Theorem env_knobs_complete doc doc' : RenderKnobs.load (VDict doc) = Ok doc' →
  ∃ config sections l,
    vget "config" doc' = VList config ∧ vget "env_sections" doc' = VList sections ∧ env_knobs doc' = Ok l ∧
    l = concat (map (λ s, filter (λ entry, home entry = Some (name_of s)) config) sections) ∧
    l ≡ₚ filter (λ entry, is_Some (home entry)) config.
Proof.
  intros (-> & config & sections & Hacc)%load_accepted. destruct (accepted_by_section _ _ _ Hacc) as (_ & _ & _ & Hl).
  pose proof (accepted_config _ _ _ Hacc) as Hconfig. destruct Hacc as [_ Hs Hnd _ Hentries _ _ _ _].
  exists config, sections, (concat (map (λ s, bucket home (name_of s) config) sections)). split_and!; [done..|].
  rewrite <-(map_map name_of (λ n, bucket home n config)). apply buckets_perm; [done|].
  intros entry n Hin Hn. rewrite Forall_forall in Hentries. destruct (Hentries _ Hin) as (e & -> & He).
  cbn [home] in Hn. unfold env_ok in He. destruct (dget "env" e); [|done].
  destruct He as (d & m & ? & -> & Hm & ? & _). rewrite Hm in Hn. by simplify_eq.
Qed.

(** A registry of two keys, of which the second is asked for. *)
Definition sample_text (s : string) : val := VDict [("en", VStr s); ("fr", VStr s)].
Definition sample_panel : dict val :=
  [("key", VStr "ALERTS"); ("residence", VStr "store");
   ("panel", VDict [("group", VStr "alerts"); ("section", VStr "config"); ("kind", VStr "choice");
                    ("optional", VBool false); ("options", VList [VStr "on"; VStr "off"]); ("default", VStr "on")])].
Definition sample_port : dict val :=
  [("key", VStr "HOST_SSH_PORT"); ("residence", VStr "controller"); ("step", VStr "server");
   ("label", sample_text "Port"); ("help", sample_text "The port of the first login.");
   ("env", VDict [("section", VStr "ssh"); ("default", VStr "22")])].
Definition sample_name : dict val :=
  [("key", VStr "ADMIN_EMAIL"); ("residence", VStr "store"); ("help", VDict [("en", VStr "Whose server it is.")]);
   ("env", VDict [("section", VStr "owner"); ("default", VStr ""); ("example", VStr "you@example.com")])].
Definition sample_registry : dict val :=
  [("version", VInt 1); ("env_header", VStr "What this server is.");
   ("env_sections", VList [VDict [("name", VStr "owner"); ("title", VStr "Owner")];
                           VDict [("name", VStr "ssh"); ("title", VStr "First login"); ("doc", VStr "Only once.")]]);
   ("gui_steps", VList [VDict [("name", VStr "server"); ("title", sample_text "Server"); ("doc", sample_text "Yours.")]]);
   ("secrets", VList [VDict [("key", VStr "smtp_password")]]);
   ("config", VList [VDict sample_port; VDict sample_panel; VDict sample_name])].

Lemma sample_accepted : RenderKnobs.load (VDict sample_registry) = Ok sample_registry.
Proof. vm_compute. reflexivity. Qed.

Lemma env_knobs_complete_witness :
  RenderKnobs.load (VDict sample_registry) = Ok sample_registry ∧
  env_knobs sample_registry = Ok [VDict sample_name; VDict sample_port].
Proof.
  split; [exact sample_accepted|].
  destruct (env_knobs_complete sample_registry sample_registry sample_accepted) as (config & sections & l & Hc & Hs & Hl & Heq & _).
  rewrite Hl, Heq. injection Hc as <-. injection Hs as <-. reflexivity.
Defined.
