(* ===== verification/EnvFile.v ===== *)
(** The text of an inventory's [.env], as [ansible/seed.py] reads it
    ([parse_env_pairs], [read_existing_env]) and writes it ([emit_env]). *)
From S2P Require Import Prelude PyStr PyNum PyVal RenderKnobs.

#[local] Open Scope string_scope.

Definition dquote : string := String "034" "".
Definition is_quote (a : ascii) : bool := (code a =? 34)%N || (code a =? 39)%N.

(** [value[1:-1]] of a value between two of the same quote. *)
Definition unquote (value : string) : string :=
  let n := String.length value in
  match String.get 0 value, String.get (n - 1) value with
  | Some a, Some b =>
      if (2 <=? n)%nat && bool_decide (a = b) && is_quote a then String.substring 1 (n - 2) value else value
  | _, _ => value
  end.

(** A line that is blank, a comment or has no equals sign holds nothing. *)
Definition holds_pair (line : string) : bool :=
  negb (bool_decide (line = "")) && negb (startswith line "#") && has_char "=" line.
Definition parse_line (raw : string) : option (string * string) :=
  let line := strip raw in
  if holds_pair line
  then let '(key, _, value) := partition "=" line in Some (strip key, unquote (strip value))
  else None.
Definition parse_env_pairs (text : string) : list (string * string) := omap parse_line (splitlines text).

(** [dict(pairs)] *)
Definition dict_of {V} (pairs : list (string * V)) : dict V := dupdate [] pairs.
Definition read_existing_env (text : string) : dict string := dict_of (parse_env_pairs text).

(** [s.replace(c, w)] for one character *)
Fixpoint replace_char (c : ascii) (w s : string) : string :=
  match s with
  | EmptyString => ""
  | String a s => (if bool_decide (a = c) then w else String a "") +:+ replace_char c w s
  end.
Definition env_line (key value : string) : string :=
  key +:+ "=" +:+
  if sexists unquotable value
  then dquote +:+ replace_char "034" ("\" +:+ dquote) (replace_char "\" "\\" value) +:+ dquote
  else value.

(** ["\n".join(lines) + "\n"] *)
Definition env_text (lines : list string) : string := sjoin newline_str lines +:+ newline_str.

(** [emit_env]: a template line keeps its layout, its value the one that is
    chosen; then the lines the template does not carry. *)
Definition line_key (raw : string) : string := strip (partition "=" (strip raw)).1.1.
Definition choose (values existing : dict string) (key : string) : string :=
  match dget key existing with Some v => v | None => default "" (dget key values) end.
Definition emit_step (values existing : dict string) (acc : list string * list string) (raw : string) : list string * list string :=
  if holds_pair (strip raw)
  then let key := line_key raw in
       ((acc.1 ++ [env_line key (choose values existing key)])%list, (acc.2 ++ [key])%list)
  else ((acc.1 ++ [raw])%list, acc.2).
Definition emit_text (template : string) (values : dict string) (keep_existing : bool) (old : option string) : string :=
  let on_disk := match old with Some text => read_existing_env text | None => [] end in
  let existing := if keep_existing then on_disk else [] in
  let '(out, template_keys) := foldl (emit_step values existing) ([], []) (splitlines template) in
  let extra := map (λ '(k, v), env_line k v) (filter (λ kv, kv.1 ∉ template_keys) on_disk) in
  let out := if bool_decide (extra = []) then out
             else (out ++ [""; "# Not in the template, kept as found."] ++ extra)%list in
  env_text out.

Example parses_lines :
  parse_env_pairs (env_text ["# A=1"; " A = 'x y' "; "nothing"; ""; "B=" +:+ dquote +:+ "#2" +:+ dquote; "C="])
  = [("A", "x y"); ("B", "#2"); ("C", "")].
Proof. reflexivity. Qed.
Example emits_lines :
  emit_text (env_text ["# The name"; "A=1"; "B=2"]) [("A", "x y"); ("B", "3")] true (Some (env_text ["Z=9"; "B=5"]))
  = env_text ["# The name"; "A=" +:+ dquote +:+ "x y" +:+ dquote; "B=5"; ""; "# Not in the template, kept as found."; "Z=9"].
Proof. reflexivity. Qed.
