(* ===== verification/EnvFileFacts.v ===== *)
(** An inventory's [.env] reads back as what was written into it, a second
    writing changes nothing, and the file the registry renders lists the
    registry's keys with their defaults. *)
From S2P Require Import Prelude PyStr PyNum PyVal RenderKnobs RenderKnobsFacts EnvFile.

#[local] Open Scope string_scope.

(** * Lines *)

Definition one_line (s : string) : Prop := sforall (λ a, negb (is_break a)) s = true.

Lemma one_line_app a b : one_line (a +:+ b) ↔ one_line a ∧ one_line b.
Proof. unfold one_line. rewrite sforall_app. apply andb_true_iff. Qed.

Lemma splitlines_text l : Forall one_line l → l ≠ [] → splitlines (env_text l) = l.
Proof.
  unfold env_text, sjoin. induction l as [|a l IH]; [done|]. intros [Ha Hl]%Forall_cons _. cbn [String.concat].
  destruct l as [|b l]; [exact (splitlines_app a "" Ha)|].
  rewrite <-!string_app_assoc. etrans; [exact (splitlines_app a _ Ha)|]. f_equal. by apply IH.
Qed.

Lemma parse_text l : Forall one_line l → parse_env_pairs (env_text l) = omap parse_line l.
Proof.
  intros Hl. unfold parse_env_pairs. destruct l as [|a l]; [reflexivity|]. by rewrite splitlines_text.
Qed.

Lemma splitlines_go_one_line n acc s : (String.length s ≤ n)%nat → one_line acc → Forall one_line (splitlines_go acc s).
Proof.
  revert acc s. induction n as [|n IH]; intros acc s Hn Hacc.
  { destruct s; [|cbn in Hn; lia]. cbn. case_bool_decide; repeat constructor; done. }
  destruct s as [|a s]; cbn; [case_bool_decide; repeat constructor; done|]. cbn in Hn.
  destruct (is_break a) eqn:Ha.
  - constructor; [done|]. destruct s as [|b s]; [constructor|]. cbn in Hn. destruct (_ && _); apply IH; cbn; done || lia.
  - apply IH; [lia|]. apply one_line_app. split; [done|]. unfold one_line. cbn. by rewrite Ha.
Qed.
Lemma splitlines_one_line s : Forall one_line (splitlines s).
Proof. by eapply splitlines_go_one_line. Qed.

(** * A written line, read back *)

Definition no_char (c : ascii) (s : string) : Prop := has_char c s = false.
Lemma no_char_forall c s : no_char c s ↔ sforall (λ a, negb (is_char c a)) s = true.
Proof. unfold no_char, has_char, sexists. by destruct (sforall _ s). Qed.

Record good_key (k : string) : Prop := {
  key_strip : strip k = k;
  key_equals : no_char "=" k;
  key_hash : startswith k "#" = false;
  key_line : one_line k
}.

(** A value that stands on one line and that quoting, which escapes, and
    reading, which does not undo it, leave as it is. *)
Record plain (v : string) : Prop := {
  plain_line : one_line v;
  plain_bare : sexists unquotable v = false → strip v = v;
  plain_quoted : sexists unquotable v = true → no_char "\" v ∧ no_char "034" v
}.

Lemma replace_char_none c w s : no_char c s → replace_char c w s = s.
Proof.
  intros H%no_char_forall. induction s as [|a s IH]; [done|]. cbn in *. apply andb_true_iff in H as [Ha H].
  unfold is_char in Ha. rewrite bool_decide_false by (intros ->; by rewrite bool_decide_true in Ha). cbn. by rewrite IH.
Qed.

Lemma get_last s a : String.get (String.length s) (s +:+ String a "") = Some a.
Proof. induction s as [|b s IH]; [done|]. exact IH. Qed.

Lemma unquote_quoted v : unquote (dquote +:+ v +:+ dquote) = v.
Proof.
  unfold unquote, dquote. rewrite !length_sapp. cbn [String.length String.append].
  change (String.get 0 (String "034" (v +:+ String "034" ""))) with (Some ("034"%char)).
  replace (1 + (String.length v + 1) - 1)%nat with (S (String.length v)) by lia.
  replace (String.get (S (String.length v)) (String "034" (v +:+ String "034" ""))) with (Some ("034"%char))
    by (symmetry; apply get_last).
  replace (2 <=? 1 + (String.length v + 1))%nat with true by (symmetry; apply Nat.leb_le; lia).
  replace (1 + (String.length v + 1) - 2)%nat with (String.length v) by lia. apply substring_prefix.
Qed.
Lemma unquotable_quote a : is_quote a = true → unquotable a = true.
Proof. by apply ascii_imp. Qed.
Lemma unquote_bare v : sexists unquotable v = false → unquote v = v.
Proof.
  intros H. unfold unquote. destruct v as [|a v]; [done|]. unfold sexists in H. cbn [sforall] in H.
  apply negb_false_iff, andb_true_iff in H as [Ha%negb_true_iff _].
  change (String.get 0 (String a v)) with (Some a). destruct (String.get _ _); [|done].
  destruct (is_quote a) eqn:Hq; [by rewrite (unquotable_quote a Hq) in Ha|]. by rewrite andb_false_r.
Qed.

Definition written (v : string) : string := if sexists unquotable v then dquote +:+ v +:+ dquote else v.
Lemma env_line_plain k v : plain v → env_line k v = k +:+ "=" +:+ written v.
Proof.
  intros [_ _ Hq]. unfold env_line, written. destruct (sexists unquotable v); [|done].
  destruct (Hq eq_refl) as [H1 H2]. rewrite (replace_char_none "\" _ v), replace_char_none by done. done.
Qed.
Lemma written_strip v : plain v → strip (written v) = written v.
Proof.
  intros [_ Hb _]. unfold written. destruct (sexists unquotable v); [|auto]. rewrite string_app_assoc.
  unfold strip, strip_of. rewrite rstrip_of_last by done. done.
Qed.
Lemma written_unquote v : plain v → unquote (written v) = v.
Proof.
  intros _. unfold written. destruct (sexists unquotable v) eqn:E; [apply unquote_quoted|by apply unquote_bare].
Qed.
Lemma written_line v : one_line v → one_line (written v).
Proof. unfold written. destruct (sexists unquotable v); [|done]. intros. by rewrite !one_line_app. Qed.

Lemma strip_pair k w : strip k = k → strip w = w → strip (k +:+ String "=" w) = k +:+ String "=" w.
Proof.
  intros [Hr Hl]%strip_fixed_both [Hwr Hwl]%strip_fixed_both. unfold strip, strip_of.
  assert (He : rstrip_of is_space (String "=" w) = String "=" w) by (cbn; rewrite Hwr; by destruct w).
  rewrite rstrip_of_last by done. destruct k as [|a k]; [done|]. by apply lstrip_of_first.
Qed.
Lemma has_char_pair k w : has_char "=" (k +:+ String "=" w) = true.
Proof. rewrite has_char_app. unfold has_char at 2, sexists. cbn. by rewrite orb_true_r. Qed.

Lemma parse_written k v : good_key k → plain v → parse_line (env_line k v) = Some (k, v).
Proof.
  intros [Hs He Hh _] Hv. rewrite env_line_plain by done. change ("=" +:+ written v) with (String "=" (written v)).
  unfold parse_line. rewrite strip_pair by (done || by apply written_strip). unfold holds_pair.
  rewrite bool_decide_false by by destruct k. rewrite has_char_pair, startswith_char. rewrite startswith_char in Hh.
  replace (starts_char "#" (k +:+ String "=" (written v))) with false by by destruct k. cbn [negb andb].
  rewrite partition_app by done. by rewrite Hs, written_strip, written_unquote.
Qed.
Lemma env_line_one_line k v : good_key k → plain v → one_line (env_line k v).
Proof.
  intros [_ _ _ Hk] Hv. rewrite env_line_plain by done. rewrite !one_line_app. split_and!; [done|done|].
  by apply written_line, plain_line.
Qed.

(** * The keys of a text *)

(** A line that holds a pair has a good key. *)
Lemma line_key_good raw : one_line raw → holds_pair (strip raw) = true → good_key (line_key raw).
Proof.
  intros Hline Hp. unfold line_key. assert (Hs : one_line (strip raw)) by by apply sforall_strip.
  pose proof (partition_inv "=" (strip raw)) as (Hno & Hsplit & _).
  destruct (partition "=" (strip raw)) as [[head f] rest]. cbn [fst snd] in *. split.
  - apply strip_idemp.
  - apply no_char_forall, sforall_strip, no_char_forall, Hno.
  - rewrite startswith_char. unfold holds_pair in Hp. rewrite startswith_char in Hp.
    apply andb_true_iff in Hp as [[_ Hp%negb_true_iff]%andb_true_iff _].
    destruct head as [|a head]; [done|]. rewrite Hsplit in Hp. cbn in Hp.
    assert (Ha : is_space a = false).
    { pose proof (strip_idemp raw) as [_ Hl]%strip_fixed_both. rewrite Hsplit in Hl. by eapply lstrip_of_head. }
    unfold strip, strip_of. cbn. destruct (rstrip_of is_space head); rewrite ?Ha; cbn; rewrite Ha; done.
  - apply sforall_strip. rewrite Hsplit in Hs. apply one_line_app in Hs as [? _]. done.
Qed.

(** [parse_line], by its key. *)
Lemma parse_line_key raw :
  fst <$> parse_line raw = if holds_pair (strip raw) then Some (line_key raw) else None.
Proof.
  unfold parse_line, line_key. destruct (holds_pair (strip raw)); [|done].
  by destruct (partition "=" (strip raw)) as [[head f] rest].
Qed.

Definition keys_of (text : string) : list string := (parse_env_pairs text).*1.

Lemma keys_of_good text : Forall good_key (keys_of text).
Proof.
  unfold keys_of, parse_env_pairs. pose proof (splitlines_one_line text) as Hl. revert Hl.
  induction (splitlines text) as [|raw l IH]; intros Hl; [constructor|]. apply Forall_cons in Hl as [Hr Hl]. cbn.
  pose proof (parse_line_key raw) as Hk. destruct (parse_line raw) as [[k v]|] eqn:E; [|by apply IH].
  cbn in *. constructor; [|by apply IH]. destruct (holds_pair (strip raw)) eqn:Hp; [|done].
  injection Hk as ->. by apply line_key_good.
Qed.

(** * A file, written and read back *)

(** What the file held before, as its reader had it. *)
Definition on_disk (old : option string) : dict string :=
  match old with Some text => read_existing_env text | None => [] end.
Definition kept (keep : bool) (old : option string) : dict string := if keep then on_disk old else [].
(** The lines that are added after the template's. *)
Definition extras (template : string) (old : option string) : list (string * string) :=
  filter (λ kv, kv.1 ∉ keys_of template) (on_disk old).
(** The pairs of a written file: each key of the template with the value
    chosen for it, then what the template does not carry. *)
Definition contents (template : string) (values : dict string) (keep : bool) (old : option string) : list (string * string) :=
  (map (λ k, (k, choose values (kept keep old) k)) (keys_of template) ++ extras template old)%list.

Definition all_plain (d : list (string * string)) : Prop := Forall (λ kv, plain kv.2) d.
Definition plain_file (old : option string) : Prop :=
  match old with Some text => all_plain (parse_env_pairs text) | None => True end.

Definition out_line (values existing : dict string) (raw : string) : string :=
  if holds_pair (strip raw) then env_line (line_key raw) (choose values existing (line_key raw)) else raw.

Lemma emit_fold values existing lines out ks :
  foldl (emit_step values existing) (out, ks) lines =
  ((out ++ map (out_line values existing) lines)%list, (ks ++ (omap parse_line lines).*1)%list).
Proof.
  revert out ks. induction lines as [|raw lines IH]; intros out ks; cbn [foldl map]; [by rewrite !app_nil_r|].
  pose proof (parse_line_key raw) as Hk. unfold emit_step at 2, out_line at 1. cbn [fst snd].
  change (omap parse_line (raw :: lines)) with
    (match parse_line raw with Some kv => kv :: omap parse_line lines | None => omap parse_line lines end).
  destruct (holds_pair (strip raw)), (parse_line raw) as [[k v]|]; cbn in Hk; simplify_eq; rewrite IH, <-!app_assoc; done.
Qed.

Lemma dict_of_elem {V} (pairs : list (string * V)) k v : dget k (dict_of pairs) = Some v → (k, v) ∈ pairs.
Proof.
  unfold dict_of, dupdate. assert (H : ∀ acc, dget k (foldl (λ d kv, dset kv.1 kv.2 d) acc pairs) = Some v →
    dget k acc = Some v ∨ (k, v) ∈ pairs).
  { induction pairs as [|[k0 v0] pairs IH]; intros acc H; [by left|]. cbn in H. apply IH in H as [H|H]; [|right; by right].
    rewrite dget_dset in H. destruct (decide (k = k0)) as [->|]; [|by left]. simplify_eq. right; by left. }
  intros Hd. by destruct (H [] Hd).
Qed.
Lemma dict_of_NoDup {V} (pairs : list (string * V)) : NoDup (dkeys (dict_of pairs)).
Proof.
  unfold dict_of, dupdate. assert (H : ∀ acc : dict V, NoDup (dkeys acc) → NoDup (dkeys (foldl (λ d kv, dset kv.1 kv.2 d) acc pairs))).
  { induction pairs as [|[k0 v0] pairs IH]; intros acc Hacc; [done|]. cbn. by apply IH, NoDup_dset. }
  apply H. constructor.
Qed.
Lemma dict_of_in {V} (pairs : list (string * V)) k v : (k, v) ∈ dict_of pairs → (k, v) ∈ pairs.
Proof. intros H. apply dict_of_elem, elem_of_dget; [apply dict_of_NoDup|done]. Qed.

Lemma on_disk_plain old : plain_file old → all_plain (on_disk old).
Proof.
  destruct old as [text|]; [|constructor]. unfold plain_file, all_plain. rewrite !Forall_forall.
  intros H [k v] Hin. by apply (H (k, v)), dict_of_in.
Qed.
Lemma on_disk_good old k v : (k, v) ∈ on_disk old → good_key k.
Proof.
  destruct old as [text|]; [|by intros ?%elem_of_nil]. cbn. intros H%dict_of_in.
  pose proof (keys_of_good text) as Hg. rewrite Forall_forall in Hg. apply Hg. unfold keys_of. apply list_elem_of_fmap.
  by exists (k, v).
Qed.
Lemma plain_empty : plain "".
Proof. by split. Qed.
Lemma choose_plain values keep old k : all_plain values → plain_file old → plain (choose values (kept keep old) k).
Proof.
  intros Hv Ho%on_disk_plain. unfold all_plain in *. rewrite Forall_forall in Hv, Ho. unfold choose.
  assert (Hget : ∀ d v, (∀ kv, kv ∈ d → plain kv.2) → dget k d = Some v → plain v).
  { intros d v Hd Hg. induction d as [|[k0 v0] d IH]; [done|]. cbn in Hg. case_bool_decide; simplify_eq.
    - apply (Hd (k0, v)). by left.
    - apply IH; [|done]. intros kv ?. apply Hd. by right. }
  destruct (dget k (kept keep old)) as [v|] eqn:E.
  - destruct keep; [|done]. by eapply (Hget (on_disk old)).
  - destruct (dget k values) as [v|] eqn:E'; [|apply plain_empty]. by apply (Hget values).
Qed.

Definition parse_all (lines : list string) : list (string * string) := omap parse_line lines.
Lemma parse_all_app l1 l2 : parse_all (l1 ++ l2) = (parse_all l1 ++ parse_all l2)%list.
Proof. unfold parse_all. induction l1 as [|x l1 IH]; [done|]. cbn. destruct (parse_line x); cbn; by rewrite IH. Qed.
Lemma parse_all_cons x l : parse_all (x :: l) = match parse_line x with Some kv => kv :: parse_all l | None => parse_all l end.
Proof. done. Qed.

Section written.
Context (template : string) (values : dict string) (keep : bool) (old : option string).
Hypothesis (values_plain : all_plain values) (old_plain : plain_file old).

Abbreviation template_lines := (splitlines template).
Abbreviation chosen := (choose values (kept keep old)).
Definition written_lines : list string :=
  let extra := map (λ '(k, v), env_line k v) (extras template old) in
  (map (out_line values (kept keep old)) template_lines
   ++ if bool_decide (extra = []) then [] else [""; "# Not in the template, kept as found."] ++ extra)%list.

Lemma emit_text_lines : emit_text template values keep old = env_text written_lines.
Proof.
  unfold emit_text, written_lines, extras, keys_of, parse_env_pairs. fold (on_disk old) (kept keep old).
  change (if keep then on_disk old else []) with (kept keep old).
  rewrite emit_fold. cbn [app]. case_bool_decide; [by rewrite app_nil_r|done].
Qed.

Lemma extras_elem k v : (k, v) ∈ extras template old → good_key k ∧ plain v ∧ k ∉ keys_of template.
Proof.
  unfold extras. rewrite list_elem_of_filter. cbn. intros [Hk Hin]. split_and!; [by eapply on_disk_good| |done].
  pose proof (on_disk_plain old old_plain) as H. unfold all_plain in H. rewrite Forall_forall in H. by apply (H (k, v)).
Qed.
Lemma extras_parse : parse_all (map (λ '(k, v), env_line k v) (extras template old)) = extras template old.
Proof.
  assert (H : ∀ k v, (k, v) ∈ extras template old → parse_line (env_line k v) = Some (k, v)).
  { intros k v Hin. apply extras_elem in Hin as (? & ? & _). by apply parse_written. }
  induction (extras template old) as [|[k v] l IH]; [done|]. cbn [map]. rewrite parse_all_cons, H by left.
  rewrite IH; [done|]. intros. apply H. by right.
Qed.
Lemma out_parse : parse_all (map (out_line values (kept keep old)) template_lines) = map (λ k, (k, chosen k)) (keys_of template).
Proof.
  unfold keys_of, parse_env_pairs. pose proof (splitlines_one_line template) as Hl. revert Hl.
  induction template_lines as [|raw l IH]; [done|]. intros [Hr Hl]%Forall_cons. cbn [map]. rewrite parse_all_cons, IH by done.
  pose proof (parse_line_key raw) as Hk.
  change (omap parse_line (raw :: l)) with (match parse_line raw with Some kv => kv :: omap parse_line l | None => omap parse_line l end).
  unfold out_line. destruct (holds_pair (strip raw)) eqn:Hp; cbn [fst snd].
  - rewrite parse_written by (by apply line_key_good || by apply choose_plain).
    destruct (parse_line raw) as [[k v]|]; cbn in *; by simplify_eq.
  - by destruct (parse_line raw).
Qed.
Lemma written_one_line : Forall one_line written_lines.
Proof.
  unfold written_lines. apply Forall_app. split.
  - pose proof (splitlines_one_line template) as Hl. rewrite Forall_forall in Hl |- *.
    intros x (raw & -> & Hin)%list_elem_of_fmap. specialize (Hl _ Hin). unfold out_line.
    destruct (holds_pair (strip raw)) eqn:Hp; [|done]. apply env_line_one_line; [by apply line_key_good|by apply choose_plain].
  - case_bool_decide; [constructor|]. apply Forall_app. split; [by repeat constructor|]. rewrite Forall_forall.
    intros x ([k v] & -> & Hin)%list_elem_of_fmap. apply extras_elem in Hin as (? & ? & _). by apply env_line_one_line.
Qed.

Lemma written_contents : parse_env_pairs (emit_text template values keep old) = contents template values keep old.
Proof.
  rewrite emit_text_lines, parse_text by apply written_one_line. change (omap parse_line ?l) with (parse_all l).
  unfold written_lines. rewrite parse_all_app, out_parse. unfold contents. f_equal.
  case_bool_decide as He; [by destruct (extras template old) as [|[]]|]. cbn [app]. rewrite !parse_all_cons. cbn.
  apply extras_parse.
Qed.
End written.

(** Claim C24: an [.env] reads back as what was written into it.  Whatever the
    template, the input's values and the file there was, the written file's
    pairs are exactly the template's keys, in its order, each with the value
    chosen for it (the file's own when it is kept, else the input's, else
    none), then the pairs of the old file the template does not carry, as
    they were; provided every value of the input, and of the file there was,
    is [plain]: on one line, and either written without quotes and stripped, or
    quoted and without a quote or a backslash.  One with a quote does not read
    back as it was: [escapes_grow]. *)
Theorem env_reads_back template values keep old :
  all_plain values → plain_file old →
  parse_env_pairs (emit_text template values keep old) =
    (map (λ k, (k, match dget k (kept keep old) with Some v => v | None => default "" (dget k values) end))
         (parse_env_pairs template).*1
     ++ filter (λ kv, kv.1 ∉ (parse_env_pairs template).*1) (on_disk old))%list.
Proof. intros. by rewrite written_contents. Qed.

(** The reader's dictionary of a written file. *)
Lemma dict_of_keys {V} (l : list (string * V)) k : k ∈ dkeys (dict_of l) ↔ k ∈ l.*1.
Proof.
  unfold dict_of, dupdate. assert (H : ∀ acc : dict V, k ∈ dkeys (foldl (λ d kv, dset kv.1 kv.2 d) acc l) ↔ k ∈ dkeys acc ∨ k ∈ l.*1).
  { induction l as [|[k0 v0] l IH]; intros acc; cbn; [rewrite elem_of_nil; tauto|].
    etrans; [apply IH|]. rewrite elem_of_dkeys_dset, elem_of_cons. tauto. }
  etrans; [apply H|]. cbn. rewrite elem_of_nil. tauto.
Qed.
Lemma dict_of_app {V} (l1 l2 : list (string * V)) :
  NoDup l2.*1 → (∀ k, k ∈ l2.*1 → k ∉ l1.*1) → dict_of (l1 ++ l2) = (dict_of l1 ++ l2)%list.
Proof.
  intros Hnd Hdis. unfold dict_of, dupdate at 1. rewrite foldl_app. change (dupdate (dict_of l1) l2 = (dict_of l1 ++ l2)%list).
  apply dupdate_NoDup. unfold dkeys. rewrite fmap_app. apply NoDup_app. split_and!; [apply dict_of_NoDup| |done].
  intros k Hk Hk2. apply (Hdis k Hk2). by apply dict_of_keys.
Qed.
Lemma dget_app {V} k (d1 d2 : dict V) : dget k (d1 ++ d2)%list = match dget k d1 with Some v => Some v | None => dget k d2 end.
Proof. induction d1 as [|[k0 v0] d1 IH]; [done|]. cbn. by case_bool_decide. Qed.
Lemma dget_dict_of_map {V} (f : string → V) ks k : k ∈ ks → dget k (dict_of (map (λ k, (k, f k)) ks)) = Some (f k).
Proof.
  intros Hk. destruct (dget k (dict_of (map (λ k, (k, f k)) ks))) as [v|] eqn:E.
  - apply dict_of_elem, list_elem_of_fmap in E as (k' & [= -> ->] & _). done.
  - exfalso. apply dget_None in E. apply E, dict_of_keys. change (k ∈ fst <$> ((λ k, (k, f k)) <$> ks)).
    rewrite <-list_fmap_compose. apply list_elem_of_fmap. eauto.
Qed.
Lemma extras_NoDup template old : NoDup (extras template old).*1.
Proof.
  unfold extras. assert (Hd : NoDup (on_disk old).*1) by (destruct old; [apply dict_of_NoDup|constructor]).
  induction (on_disk old) as [|[k v] d IH]; [constructor|]. cbn in Hd. apply NoDup_cons in Hd as [Hk Hd].
  rewrite filter_cons. destruct decide; [|auto]. cbn. constructor; [|auto].
  intros ([k' v'] & -> & [_ Hin]%list_elem_of_filter)%list_elem_of_fmap. apply Hk, list_elem_of_fmap. by exists (k', v').
Qed.
Lemma extras_fresh template old k : k ∈ (extras template old).*1 → k ∉ keys_of template.
Proof. by intros ([k' v'] & -> & [? _]%list_elem_of_filter)%list_elem_of_fmap. Qed.

Lemma filter_all {A} (P : A → Prop) `{∀ x, Decision (P x)} (l : list A) : (∀ x, x ∈ l → P x) → filter P l = l.
Proof.
  induction l as [|x l IH]; [done|]. intros H1. rewrite filter_cons, decide_True by (apply H1; by left).
  f_equal. apply IH. intros. apply H1. by right.
Qed.
Lemma filter_none {A} (P : A → Prop) `{∀ x, Decision (P x)} (l : list A) : (∀ x, x ∈ l → ¬ P x) → filter P l = [].
Proof.
  induction l as [|x l IH]; [done|]. intros H1. rewrite filter_cons, decide_False by (apply H1; by left).
  apply IH. intros. apply H1. by right.
Qed.

Lemma reread template values keep old : all_plain values → plain_file old →
  on_disk (Some (emit_text template values keep old)) =
    (dict_of (map (λ k, (k, choose values (kept keep old) k)) (keys_of template)) ++ extras template old)%list.
Proof.
  intros Hv Ho. cbn. unfold read_existing_env. rewrite written_contents by done. unfold contents.
  apply dict_of_app; [apply extras_NoDup|]. intros k Hk%extras_fresh. intros Hin. apply Hk.
  apply list_elem_of_fmap in Hin as ([k' v'] & -> & (? & [= -> ->] & ?)%list_elem_of_fmap). done.
Qed.

(** A rerun of the seed leaves the [.env] as it was.  Writing again
    over a file the seed wrote, keeping what the file holds, gives the same
    text whatever the new input says, comments and the order of the lines
    included. *)
Theorem env_rerun_fixpoint template values keep old values' :
  all_plain values → plain_file old →
  let text := emit_text template values keep old in
  emit_text template values' true (Some text) = text.
Proof.
  intros Hv Ho text. unfold text. etrans; [apply emit_text_lines|]. symmetry. etrans; [apply emit_text_lines|].
  symmetry. f_equal. pose proof (reread template values keep old Hv Ho) as Hd. unfold written_lines.
  assert (He : extras template (Some (emit_text template values keep old)) = extras template old).
  { unfold extras at 1. rewrite Hd, filter_app. rewrite (filter_all _ (extras template old)), filter_none; [done| |].
    - intros [k v] Hin%dict_of_in Hn. apply Hn. by apply list_elem_of_fmap in Hin as (? & [= -> ->] & ?).
    - intros [k v] Hin. apply (extras_fresh template old), list_elem_of_fmap. by exists (k, v). }
  rewrite He. f_equal. apply map_ext_in. intros raw Hin%list_elem_of_In. unfold out_line.
  destruct (holds_pair (strip raw)) eqn:Hp; [|done]. f_equal. unfold choose at 1. cbn [kept]. rewrite Hd, dget_app.
  rewrite dget_dict_of_map; [done|]. unfold keys_of, parse_env_pairs. revert Hin.
  induction (splitlines template) as [|r l IH]; [by intros ?%elem_of_nil|]. intros [->|Hin]%elem_of_cons.
  - cbn. pose proof (parse_line_key r) as Hk. rewrite Hp in Hk. destruct (parse_line r) as [[k v]|]; simplify_eq/=. by left.
  - cbn. destruct (parse_line r); [right|]; by apply IH.
Qed.

(** ** Witnesses *)

Definition plainb (v : string) : bool :=
  sforall (λ a, negb (is_break a)) v &&
  if sexists unquotable v then negb (has_char "\" v) && negb (has_char "034" v) else bool_decide (strip v = v).
Lemma plainb_plain v : plainb v = true → plain v.
Proof.
  unfold plainb. intros [Hl H]%andb_true_iff. split; [done| |]; destruct (sexists unquotable v); try done; intros _.
  - by apply bool_decide_eq_true in H.
  - apply andb_true_iff in H as [H1%negb_true_iff H2%negb_true_iff]. done.
Qed.
Lemma all_plainb d : forallb (λ kv, plainb kv.2) d = true → all_plain d.
Proof. intros H. apply Forall_forall. intros kv Hin%list_elem_of_In. apply plainb_plain. by apply (proj1 (forallb_forall _ _) H). Qed.

Definition sample_template : string := env_text ["# The name"; "A=1"; ""; "B=2"].
Definition sample_values : dict string := [("A", "it's me"); ("B", "3")].
Definition sample_old : option string := Some (env_text ["Z = '9 9'"; "B=5"]).

Lemma env_reads_back_witness :
  all_plain sample_values ∧ plain_file sample_old ∧
  parse_env_pairs (emit_text sample_template sample_values true sample_old) = [("A", "it's me"); ("B", "5"); ("Z", "9 9")].
Proof.
  assert (Hv : all_plain sample_values) by (apply all_plainb; reflexivity).
  assert (Ho : plain_file sample_old) by (apply all_plainb; reflexivity).
  split; [exact Hv|]. split; [exact Ho|]. rewrite (env_reads_back sample_template sample_values true sample_old Hv Ho). reflexivity.
Defined.
Lemma env_rerun_fixpoint_witness :
  all_plain sample_values ∧ plain_file sample_old ∧
  let text := emit_text sample_template sample_values true sample_old in
  emit_text sample_template [("A", "another")] true (Some text) = text.
Proof.
  assert (Hv : all_plain sample_values) by (apply all_plainb; reflexivity).
  assert (Ho : plain_file sample_old) by (apply all_plainb; reflexivity).
  split; [exact Hv|]. split; [exact Ho|]. exact (env_rerun_fixpoint sample_template sample_values true sample_old _ Hv Ho).
Defined.

(** The reader does not undo the writer's escapes: a value with a quote in it
    reads back with a backslash, and each rerun of the seed adds more. *)
Definition quoted_once : string := emit_text (env_text ["A="]) [("A", "a" +:+ dquote +:+ "b")] true None.
Definition quoted_twice : string := emit_text (env_text ["A="]) [] true (Some quoted_once).
Example escapes_grow :
  parse_env_pairs quoted_once = [("A", "a\" +:+ dquote +:+ "b")] ∧
  parse_env_pairs quoted_twice = [("A", "a\\\" +:+ dquote +:+ "b")].
Proof. by vm_compute. Qed.
