(* ===== verification/EnvLookup.v ===== *)
(** The [.env] as the playbooks read it: the lookup of
    [ansible/playbooks/lookup_plugins/dotenv.py], and for an application's own
    [.env] the filter [filter_plugins/dotenv_value.py].  The lookup's reader is
    not the seed's: that they read the same is proved here. *)
From S2P Require Import Prelude PyStr PyNum PyVal EnvFile.

#[local] Open Scope string_scope.

(** * The lookup *)

(** [for raw in fh]: the lines of a file read as text, whose newlines are
    translated; no line after the last newline. *)
Fixpoint drop_last_empty (l : list string) : list string :=
  match l with
  | [] => []
  | [w] => if bool_decide (w = "") then [] else [w]
  | w :: l => w :: drop_last_empty l
  end.
Definition file_lines (text : string) : list string := drop_last_empty (split nl text).

(** One line of [_load]. *)
Definition ends_quoted (value : string) : bool :=
  (2 <=? String.length value)%nat
  && match String.get 0 value, String.get (String.length value - 1) value with
     | Some a, Some b => bool_decide (a = b) && is_quote a
     | _, _ => false
     end.
Definition load_line (env : dict string) (raw : string) : dict string :=
  let line := strip raw in
  if bool_decide (line = "") || startswith line "#" then env
  else if negb (has_char "=" line) then env
  else
    let '(key, _, value) := partition "=" line in
    let value := strip value in
    dset (strip key) (if ends_quoted value then String.substring 1 (String.length value - 2) value else value) env.
(** [_load] *)
Definition load (text : string) : dict string := foldl load_line [] (file_lines text).

Section lookup.
(** The files there are, by path, and where a playbook runs. *)
Context (read : string → option string) (abspath : string → string) (cwd : string).
(** [_find_dotenv]: the inventory's first, then beside the checkout. *)
Definition candidates (inventory_dir playbook_dir : string) : list string :=
  ((if bool_decide (inventory_dir = "") then [] else [join_path inventory_dir ".env"])
   ++ [join_path cwd ".env"]
   ++ (if bool_decide (playbook_dir = "") then []
       else [abspath (join_path (join_path playbook_dir "..") ".env"); join_path playbook_dir ".env"]))%list.
Definition find_dotenv (inventory_dir playbook_dir : string) : option string :=
  abspath <$> head (List.filter (λ p, bool_decide (is_Some (read p))) (candidates inventory_dir playbook_dir)).

(** [run]: [file] and [default] when they are given; a key that is nowhere
    stops the play. *)
Inductive outcome := Values (l : list string) | NotFound (key : string) | Unreadable.
Fixpoint answers (env : dict string) (default_ : option string) (terms : list string) : outcome :=
  match terms with
  | [] => Values []
  | key :: terms =>
      match dget key env, default_ with
      | Some v, _ | None, Some v =>
          match answers env default_ terms with Values l => Values (v :: l) | o => o end
      | None, None => NotFound key
      end
  end.
Definition run (file : string) (inventory_dir playbook_dir : string) (default_ : option string) (terms : list string) : outcome :=
  let path := if bool_decide (file = "") then find_dotenv inventory_dir playbook_dir else Some file in
  match path with
  | None => answers [] default_ terms
  | Some path =>
      if bool_decide (path = "") then answers [] default_ terms
      else match read path with Some text => answers (load text) default_ terms | None => Unreadable end
  end.
End lookup.

(** * An application's own [.env] ([dotenv_value.py]) *)

Definition is_blank (a : ascii) : bool := is_char " " a || is_char "009" a.
(** [re.sub(r"\\(.)", r"\1", s)]: a backslash before a character that is no
    newline goes. *)
Fixpoint unescape (s : string) : string :=
  match s with
  | String "\" (String b s) => if bool_decide (b = nl) then String "\" (String b (unescape s)) else String b (unescape s)
  | String a s => String a (unescape s)
  | EmptyString => ""
  end.
(** [s.split(w, 1)[0]] *)
Fixpoint before (w s : string) : string :=
  match s with
  | EmptyString => ""
  | String a s' => if startswith s w then "" else String a (before w s')
  end.
Definition between (c : ascii) (raw : string) : bool :=
  (2 <=? String.length raw)%nat && bool_decide (String.get 0 raw = Some c) && bool_decide (String.get (String.length raw - 1) raw = Some c).
(** [_value] *)
Definition value_of (raw : string) : string :=
  let raw := strip raw in
  let inner := String.substring 1 (String.length raw - 2) raw in
  if between "'" raw then inner
  else if between "034" raw then unescape inner
  else strip (before " #" raw).
(** [_LINE]: the key and the rest of the line; [export] may itself be the key. *)
Definition key_start (a : ascii) : bool := is_lower a || is_upper a || is_char "_" a.
Definition key_char (a : ascii) : bool := is_alnum a || is_char "_" a || is_char "." a || is_char "-" a.
Definition assignment (s : string) : option (string * string) :=
  match s with
  | String a _ =>
      if key_start a then
        let '(key, rest) := span key_char s in
        match (span is_blank rest).2 with String "=" rest => Some (key, (span is_blank rest).2) | _ => None end
      else None
  | EmptyString => None
  end.
Definition match_line (line : string) : option (string * string) :=
  let line := (span is_blank line).2 in
  match strip_prefix "export" line with
  | Some rest =>
      let '(blanks, rest) := span is_blank rest in
      if bool_decide (blanks = "") then assignment line
      else match assignment rest with Some kv => Some kv | None => assignment line end
  | None => assignment line
  end.
Definition dotenv_value (text key default_ : string) : string :=
  let found := foldl (λ found line, match match_line line with
    | Some (k, raw) => if bool_decide (k = key) then value_of raw else found | None => found end) "" (splitlines text) in
  if bool_decide (found = "") then default_ else found.

Example dotenv_values :
  let text := env_text ["A=1 # one"; "export B = 'x # y'"; "A=" +:+ dquote +:+ "q\" +:+ dquote +:+ "z" +:+ dquote; "export=9"; "C="] in
  map (λ k, dotenv_value text k "none") ["A"; "B"; "export"; "C"] = ["q" +:+ dquote +:+ "z"; "x # y"; "9"; "none"].
Proof. by vm_compute. Qed.

(** ** The two readers *)

Lemma unquote_load value : (if ends_quoted value then String.substring 1 (String.length value - 2) value else value) = unquote value.
Proof.
  unfold ends_quoted, unquote. destruct (String.get 0 value) as [a|], (String.get (String.length value - 1) value) as [b|];
    rewrite ?andb_false_r; try done. rewrite <-andb_assoc. by destruct (_ && _).
Qed.
Lemma load_line_parse env raw :
  load_line env raw = match parse_line raw with Some (k, v) => dset k v env | None => env end.
Proof.
  unfold load_line, parse_line, holds_pair. cbn zeta. rewrite <-negb_orb.
  destruct (bool_decide _ || startswith _ "#"); cbn; [done|]. destruct (has_char "=" (strip raw)); cbn; [|done].
  destruct (partition "=" (strip raw)) as [[key ?] value]. by rewrite unquote_load.
Qed.
Lemma load_lines env l : foldl load_line env l = dupdate env (omap parse_line l).
Proof.
  revert env. induction l as [|raw l IH]; intros env; [done|]. cbn [foldl]. rewrite IH, load_line_parse. cbn.
  destruct (parse_line raw) as [[k v]|]; done.
Qed.

(** A text with no line boundary but the newline: every one the seed writes of
    values that have none. *)
Definition plain_breaks (a : ascii) : bool := negb (is_break a) || bool_decide (a = nl).
Lemma split_cons c s : ∃ w ws, split c s = w :: ws.
Proof. destruct (split c s) as [|w ws] eqn:E; [|by exists w, ws]. destruct s as [|a s]; cbn in E; [done|]. case_bool_decide; [done|]. by destruct (split c s). Qed.
Lemma drop_last_cons w l : l ≠ [] → drop_last_empty (w :: l) = w :: drop_last_empty l.
Proof. by destruct l. Qed.
Lemma splitlines_go_split acc s w ws : sforall plain_breaks s = true → split nl s = w :: ws →
  splitlines_go acc s = drop_last_empty ((acc +:+ w) :: ws).
Proof.
  revert acc w ws. induction s as [|a s IH]; intros acc w ws Hs Hw; cbn [split splitlines_go] in *.
  { injection Hw as <- <-. by rewrite string_app_nil_r. }
  cbn in Hs. apply andb_prop in Hs as [Ha Hs]. destruct (split_cons nl s) as (w1 & ws1 & E). rewrite E in Hw.
  unfold plain_breaks in Ha. case_bool_decide as Hnl.
  - subst a. injection Hw as <- <-. rewrite string_app_nil_r. cbn [is_break]. change (is_break nl) with true. cbn iota.
    rewrite drop_last_cons by done. destruct s as [|b s]; [by injection E as <- <-|].
    change (code nl =? 13)%N with false. cbn [andb]. f_equal. by rewrite (IH "" w1 ws1).
  - rewrite orb_false_r in Ha. apply negb_true_iff in Ha. rewrite Ha. injection Hw as <- <-.
    rewrite (IH _ w1 ws1) by done. by rewrite <-string_app_assoc.
Qed.
Lemma splitlines_plain s : sforall plain_breaks s = true → splitlines s = file_lines s.
Proof. intros Hs. unfold splitlines, file_lines. destruct (split_cons nl s) as (w & ws & E). rewrite E. by rewrite (splitlines_go_split "" s w ws). Qed.
Lemma load_seed text : sforall plain_breaks text = true → load text = read_existing_env text.
Proof. intros H. unfold load, read_existing_env, parse_env_pairs, dict_of. by rewrite load_lines, splitlines_plain. Qed.

(** Claim C25: the playbooks read an inventory's [.env] as the seed and the
    installer do: where the file's only line boundary is the newline, a lookup
    gives, for each key, the value the seed's own reader finds; a default is
    given only for a key the seed finds none of, and without one such a key
    stops the play, the first of them. *)
Theorem lookup_reads_as_seed read abspath cwd inventory_dir playbook_dir text default_ terms :
  inventory_dir ≠ "" → (∀ p, abspath p ≠ "") → read (join_path inventory_dir ".env") = Some text →
  read (abspath (join_path inventory_dir ".env")) = Some text → sforall plain_breaks text = true →
  let env := read_existing_env text in
  match run read abspath cwd "" inventory_dir playbook_dir default_ terms with
  | Values l => length l = length terms ∧ ∀ i key, terms !! i = Some key → l !! i = match dget key env with Some v => Some v | None => default_ end
  | NotFound key => default_ = None ∧ dget key env = None ∧ ∃ before after, terms = (before ++ key :: after)%list ∧ ∀ k, k ∈ before → is_Some (dget k env)
  | Unreadable => False
  end.
Proof.
  intros Hi Habs Hr Hra Ht env. unfold run. rewrite bool_decide_true by done.
  assert (find_dotenv read abspath cwd inventory_dir playbook_dir = Some (abspath (join_path inventory_dir ".env"))) as ->.
  { unfold find_dotenv, candidates. rewrite bool_decide_false by done. cbn [app List.filter]. by rewrite bool_decide_true by (by eexists). }
  rewrite bool_decide_false by apply Habs. rewrite Hra, load_seed by done. fold env. clearbody env.
  induction terms as [|key terms IH]; cbn [answers]; [by split|].
  destruct (dget key env) as [v|] eqn:Hk, default_ as [d|]; cycle -1.
  { split_and!; [done..|]. exists [], terms. split; [done|]. by intros k ?%elem_of_nil. }
  all: destruct (answers env _ terms) as [l|k|]; [|destruct IH as (Hd & Hn & before & after & -> & Hb)|done].
  all: try done.
  1,2,4: destruct IH as [Hl IH]; split; [by cbn; f_equal|]; intros [|i] k Hi'; cbn in *; [injection Hi' as <-; by rewrite Hk|by apply IH].
  split_and!; [done..|]. exists (key :: before), after. split; [done|]. intros k' [->|Hk']%elem_of_cons; [by rewrite Hk|by apply Hb].
Qed.

Definition sample_text : string := env_text ["# A=0"; "A='x y'"; "B = 2"].
Definition sample_read (p : string) : option string := if bool_decide (p = "/inv/prod/.env") then Some sample_text else None.
Definition sample_abspath (p : string) : string := if startswith p "/" then p else "/cwd/" +:+ p.
Lemma sample_abspath_ne p : sample_abspath p ≠ "".
Proof. unfold sample_abspath. destruct p as [|a p]; [done|]. by destruct (startswith _ _). Qed.
Lemma lookup_reads_as_seed_witness :
  match run sample_read sample_abspath "/cwd" "" "/inv/prod" "" None ["B"; "A"; "C"; "D"] with
  | NotFound key => dget key (read_existing_env sample_text) = None
  | _ => False
  end.
Proof.
  pose proof (lookup_reads_as_seed sample_read sample_abspath "/cwd" "/inv/prod" "" sample_text None ["B"; "A"; "C"; "D"]
    ltac:(discriminate) sample_abspath_ne eq_refl eq_refl eq_refl) as H.
  cbv zeta in H. destruct (run _ _ _ _ _ _ _ _) as [l|key|] eqn:E; [vm_compute in E; discriminate E|apply H|exact H].
Defined.

(** Another boundary of [str.splitlines] in a value parts the two readers. *)
Example form_feed_parts :
  let text := "A=1" +:+ String "012" "B=2" in
  load text = [("A", "1" +:+ String "012" "B=2")] ∧ read_existing_env text = [("A", "1"); ("B", "2")].
Proof. by vm_compute. Qed.
