(* ===== verification/ServedZones.v ===== *)
(** [filter_plugins/catena_served_zones.py]: the domains a host serves after its
    primary, from the projection its tunnel's engine writes.  The projection
    and the times are texts, as the playbook gives them; the stamps are read as
    [datetime.fromisoformat] of Python 3.12 reads them, and are counted in
    microseconds from the day before the first of January of the year one. *)
From S2P Require Import Prelude PyStr PyNum PyVal Json.
From Stdlib Require Import SpecFloat.

#[local] Open Scope string_scope.

(** * [datetime.fromisoformat] *)

(** The text is read in place: what follows its end is a NUL. *)
Definition nul : ascii := "000".
Definition char_at (i : nat) (s : string) : ascii := default nul (String.get i s).
Definition here (c : ascii) (s : string) : bool := bool_decide (char_at 0 s = c).
Definition tail_of (s : string) : string := match s with String _ s => s | EmptyString => "" end.
(** Exactly [n] digits, and what follows them. *)
Fixpoint digits (n : nat) (acc : Z) (s : string) : option (Z * string) :=
  match n, s with
  | O, _ => Some (acc, s)
  | S n, String a s => if is_digit a then digits n (10 * acc + Z.of_N (code a - 48)) s else None
  | S _, EmptyString => None
  end.
Fixpoint skip_digits (s : string) : string :=
  match s with String a s' => if is_digit a then skip_digits s' else s | EmptyString => "" end.

(** ** The day *)

Definition leap (y : Z) : bool := (y mod 4 =? 0)%Z && (negb (y mod 100 =? 0)%Z || (y mod 400 =? 0)%Z).
Definition month_lengths (y : Z) : list Z := [31; if leap y then 29 else 28; 31; 30; 31; 30; 31; 31; 30; 31; 30; 31]%Z.
Definition days_before_year (y : Z) : Z := ((y - 1) * 365 + (y - 1) / 4 - (y - 1) / 100 + (y - 1) / 400)%Z.
Definition year_in_range (y : Z) : bool := (1 <=? y)%Z && (y <=? 9999)%Z.
(** The first of January of the year one is the day 1. *)
Definition day_number (y m d : Z) : option Z :=
  guard (year_in_range y = true ∧ (1 ≤ m ≤ 12)%Z);;
  n ← month_lengths y !! Z.to_nat (m - 1);
  guard ((1 ≤ d ≤ n)%Z);;
  Some (days_before_year y + foldr Z.add 0 (take (Z.to_nat (m - 1)) (month_lengths y)) + d)%Z.
(** Monday is 0. *)
Definition weekday (n : Z) : Z := ((n + 6) mod 7)%Z.
(** The day of an ISO week. *)
Definition week_monday (y : Z) : Z :=
  let first := (days_before_year y + 1)%Z in let w := weekday first in
  (first - w + (if (3 <? w)%Z then 7 else 0))%Z.
Definition long_year (y : Z) : bool :=
  let w := weekday (days_before_year y + 1) in (w =? 3)%Z || ((w =? 2)%Z && leap y).
Definition iso_day (y week day : Z) : option Z :=
  guard (year_in_range y = true ∧ (1 ≤ week ≤ 53)%Z ∧ (week = 53%Z → long_year y = true) ∧ (1 ≤ day ≤ 7)%Z);;
  let n := (week_monday y + (week - 1) * 7 + (day - 1))%Z in
  guard (1 ≤ n ≤ days_before_year 10000)%Z;; Some n.

(** Where the date ends. *)
Definition separator (s : string) : option nat :=
  let len := String.length s in
  if (len <? 7)%nat then None
  else if (len =? 7)%nat then Some 7
  else if bool_decide (char_at 4 s = "-"%char) then
    if bool_decide (char_at 5 s = "W"%char) then
      if bool_decide (char_at 8 s = "-"%char) then
        if (len =? 9)%nat then None else if is_digit (char_at 10 s) then Some 8 else Some 10
      else Some 8
    else Some 10
  else if bool_decide (char_at 4 s = "W"%char) then
    let pos := (len - String.length (skip_digits (String.substring 7 (len - 7) s)))%nat in
    if (pos <? 9)%nat then Some pos else if Nat.even pos then Some 7 else Some 8
  else Some 8.
(** The date of a text whose date is of [len] characters. *)
Definition date_of (len : nat) (s : string) : option Z :=
  '(year, p) ← digits 4 0 s;
  let dashed := here "-" p in
  let p := if dashed then tail_of p else p in
  if here "W" p then
    '(week, p) ← digits 2 0 (tail_of p);
    if (7 + (if dashed then 1 else 0) <? len)%nat then
      guard (dashed = true → here "-" p = true);;
      '(day, _) ← digits 1 0 (if dashed then tail_of p else p); iso_day year week day
    else iso_day year week 1
  else
    '(month, p) ← digits 2 0 p;
    guard (dashed = true → here "-" p = true);;
    '(day, _) ← digits 2 0 (if dashed then tail_of p else p); day_number year month day.

(** ** The time *)

(** A fraction of a second within the next [stop] characters, in microseconds,
    and whether something follows it. *)
Definition fraction (stop : nat) (s : string) : option (Z * bool) :=
  let n := Nat.min 6 stop in
  '(v, t) ← digits n 0 s; Some ((v * 10 ^ Z.of_nat (6 - n))%Z, negb (here nul (skip_digits t))).
(** Pairs of digits within the next [stop] characters, and the fraction: their
    values, the microseconds, and whether something follows. *)
Fixpoint clock (more : nat) (colons : option bool) (stop : nat) (s : string) : option (list Z * Z * bool) :=
  match more with
  | O => '(us, follows) ← fraction stop s; Some ([], us, follows)
  | S more =>
      '(v, t) ← digits 2 0 s;
      let colons := default (here ":" t) colons in
      if (stop <=? 3)%nat then Some ([v], 0%Z, negb (here nul t))
      else if colons && here ":" t then '(l, us, follows) ← clock more (Some colons) (stop - 3) (tail_of t); Some (v :: l, us, follows)
      else if here "." t || here "," t then '(us, follows) ← fraction (stop - 3) (tail_of t); Some ([v], us, follows)
      else if negb colons then '(l, us, follows) ← clock more (Some colons) (stop - 2) t; Some (v :: l, us, follows)
      else None
  end.
Definition hms (l : list Z) : Z := (nth 0 l 0 * 3600 + nth 1 l 0 * 60 + nth 2 l 0)%Z.
(** The microseconds of a second. *)
Definition second_us : Z := 1000000.
Definition of_clock (l : list Z) (us : Z) : option Z :=
  guard ((nth 0 l 0 ≤ 23)%Z ∧ (nth 1 l 0 ≤ 59)%Z ∧ (nth 2 l 0 ≤ 59)%Z);; Some (hms l * second_us + us)%Z.
(** What is left of a text from its first sign, or Z. *)
Fixpoint from_zone (s : string) : string :=
  match s with
  | String a s' => if bool_decide (a ∈ ["+"; "-"; "Z"]%char) then s else from_zone s'
  | EmptyString => ""
  end.
Definition offset_of (minus : bool) (l : list Z) (us : Z) : option Z :=
  let sign := (if minus then -1 else 1)%Z in
  let o := (if hms l =? 0 then 0 else sign * (hms l * second_us + us))%Z in
  guard (Z.abs o < 86400 * second_us)%Z;; Some o.
(** The time of day, and the offset from UTC if there is one. *)
Definition time_of (s : string) : option (Z * option Z) :=
  let zone := from_zone s in
  '(l, us, follows) ← clock 3 None (String.length s - String.length zone) s;
  match zone with
  | EmptyString => guard (follows = false);; t ← of_clock l us; Some (t, None)
  | String "Z" rest => guard (here nul rest = true);; t ← of_clock l us; Some (t, Some 0%Z)
  | String sign rest =>
      '(zl, zus, zfollows) ← clock 3 None (String.length rest) rest;
      guard (zfollows = false);;
      o ← offset_of (bool_decide (sign = "-"%char)) zl zus; t ← of_clock l us; Some (t, Some o)
  end.
Definition fromisoformat (s : string) : option (Z * option Z) :=
  len ← separator s; day ← date_of len s;
  let rest := String.substring len (String.length s - len) s in
  '(t, offset) ← match rest with EmptyString => Some (0%Z, None) | String _ rest => time_of rest end;
  Some ((day * 86400 * second_us + t)%Z, offset).

Example stamps_read :
  map fromisoformat ["0001-01-01"; "2026-07-25T12:00:00+02:00"; "2026-W30-6"; "2026-02-29"; "20260725 1230"; "12:00"] =
  [Some (86400 * second_us, None); Some (63920664000 * second_us, Some (7200 * second_us)); Some (63920620800 * second_us, None); None;
   Some (63920665800 * second_us, None); None]%Z.
Proof. by vm_compute. Qed.

(** * The filter *)

(** [_parse_iso]: an aware stamp, in microseconds of UTC. *)
Definition parse_iso (v : val) : option Z :=
  match v with
  | VStr s =>
      let t := strip s in
      if bool_decide (t = "") then None else
      let t := if endswith t "Z" then String.substring 0 (String.length t - 1) t +:+ "+00:00" else t in
      '(local, offset) ← fromisoformat t; Some (local - default 0 offset)%Z
  | _ => None
  end.
(** [(reference - generated).total_seconds() / 3600.0] *)
Definition age_hours (reference generated : Z) : float :=
  let age := (reference - generated)%Z in
  SFdiv fprec femax (float_decimal (age <? 0)%Z (Z.abs_N age) (-6)) (float_near 3600).
Definition hours_of (v : val) : res float :=
  match as_float v with
  | Ok f => Ok f
  | Raise e => if bool_decide (e ∈ [TypeError; ValueError]) then Ok (float_near 0) else Raise e
  end.
(** Whether a projection made at [generated] is taken at [now]. *)
Definition fresh_enough (max_age : float) (generated now : val) : bool :=
  if SFltb (float_near 0) max_age then
    match parse_iso generated, parse_iso now with
    | None, _ => false
    | Some g, Some r => negb (SFltb max_age (age_hours r g))
    | Some _, None => true
    end
  else true.
Definition zone_name (entry : val) : option string :=
  match entry with VDict z => Some (strip (str_or (vget "zone" z))) | _ => None end.
Definition add_name (out : list string) (entry : val) : list string :=
  match zone_name entry with
  | Some name => if negb (bool_decide (name = "")) && negb (bool_decide (name ∈ out)) then (out ++ [name])%list else out
  | None => out
  end.
Definition catena_served_zones (raw schema now max_age_hours : val) : res (list string) :=
  match raw with
  | VStr text =>
      if bool_decide (strip text = "") then Ok [] else
      match loads text with
      | Ok (VDict doc) =>
          if negb (py_eq (vget "schema" doc) schema) then Ok [] else
          match dget "zones" doc with
          | Some (VList (_ :: zones)) =>
              max_age ← hours_of max_age_hours;
              if fresh_enough max_age (vget "generated_at" doc) now then Ok (foldl add_name [] zones) else Ok []
          | _ => Ok []
          end
      | _ => Ok []
      end
  | _ => Ok []
  end.

(** ** The stamps the engine writes *)

Definition digit (n : Z) : ascii := ascii_of_N (48 + Z.to_N (n mod 10)).
Definition two (n : Z) (s : string) : string := String (digit (n / 10)) (String (digit n) s).
Definition four (n : Z) (s : string) : string := two (n / 100) (two n s).
(** Go's RFC 3339 of a time in UTC. *)
Definition rfc3339 (y mo d h mi s : Z) : string :=
  four y (String "-" (two mo (String "-" (two d (String "T" (two h (String ":" (two mi (String ":" (two s "Z")))))))))).

Lemma digit_ok n : is_digit (digit n) = true ∧ is_space (digit n) = false ∧ Z.of_N (code (digit n) - 48) = (n mod 10)%Z.
Proof.
  unfold digit. pose proof (Z.mod_pos_bound n 10 ltac:(lia)) as Hb. generalize dependent (n mod 10)%Z. intros k Hk.
  assert (k ∈ [0; 1; 2; 3; 4; 5; 6; 7; 8; 9]%Z) as Hin by (rewrite !elem_of_cons; lia).
  repeat (apply elem_of_cons in Hin as [-> | Hin]; [by vm_compute|]). by apply elem_of_nil in Hin.
Qed.
Lemma digit_is n : is_digit (digit n) = true.
Proof. apply digit_ok. Qed.
Lemma not_digit c n : is_digit c = false → digit n ≠ c.
Proof. intros H E. pose proof (digit_is n). congruence. Qed.
Lemma digit_nonspace n : is_space (digit n) = false.
Proof. apply digit_ok. Qed.
Lemma digit_value n : Z.of_N (code (digit n) - 48) = (n mod 10)%Z.
Proof. apply digit_ok. Qed.
Lemma digits_two n acc s : (0 ≤ n < 100)%Z → digits 2 acc (two n s) = Some (100 * acc + n, s)%Z.
Proof.
  intros H. unfold two. cbn [digits]. rewrite !digit_is. do 2 f_equal.
  rewrite !digit_value.
  assert (0 ≤ n / 10 < 10)%Z by (split; [apply Z.div_pos|apply Z.div_lt_upper_bound]; lia).
  rewrite (Z.mod_small (n / 10)) by lia. pose proof (Z.div_mod n 10). lia.
Qed.
Lemma digits_four n s : (0 ≤ n < 10000)%Z → digits 4 0 (four n s) = Some (n, s)%Z.
Proof.
  intros H. unfold four, two. cbn [digits]. rewrite !digit_is. do 2 f_equal.
  rewrite !digit_value.
  assert (n / 100 / 10 = n / 1000 ∧ n/10 / 10 = n / 100 )%Z as [E E'] by (rewrite !Z.div_div by lia; done).
  rewrite E. pose proof (Z.div_mod n 10). pose proof (Z.div_mod (n / 10) 10). pose proof (Z.div_mod (n/100) 10). 
  assert (n / 100 / 10 = n / 1000)%Z as E'' by (by rewrite Z.div_div by lia).
  assert (0 ≤ n / 1000 < 10)%Z by (split; [apply Z.div_pos|apply Z.div_lt_upper_bound]; lia).
  rewrite (Z.mod_small (n / 1000)) by lia. lia.
Qed.
Lemma zone_two n s : from_zone (two n s) = from_zone s.
Proof.
  unfold two. cbn [from_zone]. rewrite !bool_decide_false; [done|..]; rewrite !elem_of_cons, elem_of_nil; intros H; repeat destruct H as [H|H]; try done;
    by eapply not_digit in H.
Qed.
Lemma here_two c n s : is_digit c = false → here c (two n s) = false.
Proof. intros H. apply bool_decide_eq_false. by apply not_digit. Qed.
Lemma clock_reads h mi s rest : (0 ≤ h < 100)%Z → (0 ≤ mi < 100)%Z → (0 ≤ s < 100)%Z →
  clock 3 None 8 (two h (String ":" (two mi (String ":" (two s rest))))) = Some ([h; mi; s], 0%Z, negb (here nul rest)).
Proof.
  intros Hh Hm Hs. cbn [clock]. rewrite digits_two by done. cbn -[digits two here]. 
  rewrite digits_two by done. cbn -[digits two here]. rewrite digits_two by done. cbn -[digits two here]. 
  done.
Qed.
Lemma day_bounds y m d day : day_number y m d = Some day → (1 ≤ y ≤ 9999)%Z ∧ (1 ≤ m ≤ 12)%Z ∧ (1 ≤ d ≤ 31)%Z.
Proof.
  unfold day_number, year_in_range. intros H. simplify_option_eq. rewrite andb_true_iff, !Z.leb_le in *.
  destruct_and?. split_and!; try lia.
  match goal with H : month_lengths y !! _ = Some ?n |- _ => assert (n ≤ 31)%Z; [|lia]; apply list_elem_of_lookup_2 in H; revert H end.
  unfold month_lengths. rewrite !elem_of_cons, elem_of_nil. destruct (leap y); lia.
Qed.
Lemma date_reads y m d day rest : day_number y m d = Some day →
  date_of 10 (four y (String "-" (two m (String "-" (two d rest))))) = Some day.
Proof.
  intros H. pose proof (day_bounds _ _ _ _ H). unfold date_of. rewrite digits_four by lia. cbn -[digits two here].
  change (here "-" (String "-" ?x)) with true. cbn -[digits two here].
  rewrite here_two by done. rewrite digits_two by lia. cbn -[digits two here]. 
  rewrite option_guard_True by done. cbn -[digits two here]. rewrite digits_two by lia. exact H.
Qed.
(** A stamp the engine writes is read as the time it was written of. *)
Lemma stamp_reads_back y mo d h mi s day :
  day_number y mo d = Some day → (0 ≤ h ≤ 23)%Z → (0 ≤ mi ≤ 59)%Z → (0 ≤ s ≤ 59)%Z →
  parse_iso (VStr (rfc3339 y mo d h mi s)) = Some ((day * 86400 + h * 3600 + mi * 60 + s) * second_us)%Z.
Proof.
  intros Hd Hh Hm Hs.
  assert (strip (rfc3339 y mo d h mi s) = rfc3339 y mo d h mi s) as Hstrip.
  { apply strip_of_none. unfold rfc3339, four, two. cbn [sforall]. rewrite !digit_nonspace. reflexivity. }
  unfold parse_iso. rewrite Hstrip. rewrite bool_decide_false by done.
  assert (endswith (rfc3339 y mo d h mi s) "Z" = true) as -> by reflexivity.
  set (time := two h (String ":" (two mi (String ":" (two s "+00:00"))))).
  assert (String.substring 0 (String.length (rfc3339 y mo d h mi s) - 1) (rfc3339 y mo d h mi s) +:+ "+00:00" =
    four y (String "-" (two mo (String "-" (two d (String "T" time)))))) as -> by reflexivity.
  set (text := four y (String "-" (two mo (String "-" (two d (String "T" time)))))).
  assert (separator text = Some 10) as Es.
  { unfold separator. change (char_at 4 text) with "-"%char. change (String.length text) with 25. cbn [Nat.ltb Nat.leb Nat.eqb].
    rewrite bool_decide_true by done. rewrite bool_decide_false; [done|]. by apply not_digit. }
  assert (time_of time = Some (((h * 3600 + mi * 60 + s) * second_us)%Z, Some 0%Z)) as Et.
  { unfold time_of. assert (from_zone time = "+00:00") as -> by (unfold time; rewrite zone_two; change (from_zone (String ":" ?x)) with (from_zone x); rewrite zone_two;
      change (from_zone (String ":" ?x)) with (from_zone x); by rewrite zone_two).
    change (String.length time - String.length "+00:00") with 8. unfold time. rewrite clock_reads by lia.
    cbn -[of_clock offset_of]. unfold of_clock, hms. cbn [nth]. rewrite option_guard_True by lia. cbn -[second_us Z.mul Z.add]. by rewrite Z.add_0_r. }
  assert (String.substring 10 (String.length text - 10) text = String "T" time) as Er
    by (change (String "T" (String.substring 0 (String.length time) time) = String "T" time); by rewrite substring_all).
  unfold fromisoformat. rewrite Es. cbn -[date_of time_of text time String.substring String.length]. rewrite Er. unfold text.
  rewrite (date_reads _ _ _ day) by done. cbn -[time_of time second_us Z.mul Z.add]. rewrite Et. cbn -[second_us Z.mul Z.add]. f_equal. lia.
Qed.

(** ** The domains served *)

(** A served name is the first of its name in the projection. *)
Definition once_each (names : list string) : list string := reverse (remove_dups (reverse names)).
Definition served_names (zones : list val) : list string := once_each (filter (λ name, name ≠ "") (omap zone_name zones)).
(** A stamp there is, and no known time past its age. *)
Definition stamped (max_age : float) (generated now : val) : Prop :=
  SFltb (float_near 0) max_age = true →
  ∃ g, parse_iso generated = Some g ∧ ∀ r, parse_iso now = Some r → SFltb max_age (age_hours r g) = false.

Lemma once_each_snoc names name :
  once_each (names ++ [name]) = if bool_decide (name ∈ once_each names) then once_each names else (once_each names ++ [name])%list.
Proof.
  unfold once_each. rewrite reverse_snoc. simpl.
  assert (name ∈ reverse (remove_dups (reverse names)) ↔ name ∈ reverse names) as H by (rewrite elem_of_reverse; apply elem_of_remove_dups).
  rewrite (bool_decide_ext _ _ H). case_decide; [by rewrite bool_decide_true|]. by rewrite bool_decide_false, reverse_cons.
Qed.
Lemma add_names zones : foldl add_name [] zones = served_names zones.
Proof.
  induction zones as [|entry zones IH] using rev_ind; [done|].
  rewrite foldl_snoc, IH. unfold served_names. rewrite omap_app, filter_app. unfold add_name. simpl.
  destruct (zone_name entry) as [name|]; simpl; [|by rewrite app_nil_r].
  destruct (decide (name = "")) as [->|Hn].
  - by rewrite filter_cons_False, filter_nil, app_nil_r by (by intros []).
  - rewrite filter_cons_True, filter_nil, once_each_snoc, (bool_decide_false (name = "")) by done. simpl. by case_bool_decide.
Qed.
Lemma once_each_spec names : NoDup (once_each names) ∧ ∀ name, name ∈ once_each names ↔ name ∈ names.
Proof.
  unfold once_each. split; [rewrite reverse_Permutation; apply NoDup_remove_dups|]. intros name. by rewrite elem_of_reverse, elem_of_remove_dups, elem_of_reverse.
Qed.
Lemma fresh_stamped max_age generated now : fresh_enough max_age generated now = true ↔ stamped max_age generated now.
Proof.
  unfold fresh_enough, stamped. destruct (SFltb (float_near 0) max_age); [|done].
  destruct (parse_iso generated) as [g|]; [|split; [done|by intros H; destruct (H eq_refl) as (g & [=] & _)]].
  destruct (parse_iso now) as [r|].
  - rewrite negb_true_iff. split; [intros H _; exists g; split; [done|by intros ? [= <-]]|].
    intros H. destruct (H eq_refl) as (g' & [= <-] & H'). by apply H'.
  - split; [intros _ _; exists g; by split|done].
Qed.

(** Claim C18: unless its bound is too large a number the filter always answers,
    and names a domain exactly when the projection is an object of the schema
    asked for, with a list of domains and, where a bound is set, a stamp no
    known time is past: the names after the primary's, each once, in order, the
    blank ones and what is no object left out. *)
Theorem served_exactly raw schema now hours max_age :
  hours_of hours = Ok max_age →
  (∃ names, catena_served_zones raw schema now hours = Ok names) ∧
  ∀ names, names ≠ [] → catena_served_zones raw schema now hours = Ok names ↔
    ∃ text doc primary zones, raw = VStr text ∧ strip text ≠ "" ∧ loads text = Ok (VDict doc) ∧ py_eq (vget "schema" doc) schema = true ∧
      dget "zones" doc = Some (VList (primary :: zones)) ∧ stamped max_age (vget "generated_at" doc) now ∧ names = served_names zones.
Proof.
  intros Hm.
  assert (∀ text doc primary zones, raw = VStr text → strip text ≠ "" → loads text = Ok (VDict doc) → py_eq (vget "schema" doc) schema = true →
    dget "zones" doc = Some (VList (primary :: zones)) →
    catena_served_zones raw schema now hours =
      Ok (if fresh_enough max_age (vget "generated_at" doc) now then served_names zones else [])) as Hgood.
  { intros text doc primary zones -> Ht Hl Hs Hz. unfold catena_served_zones. rewrite bool_decide_false by done.
    rewrite Hl, Hs, Hz. simpl. rewrite Hm. simpl. rewrite add_names. by destruct (fresh_enough _ _ _). }
  destruct (decide (catena_served_zones raw schema now hours = Ok [])) as [Hn|Hn].
  { split; [by eexists|]. intros names Hne. rewrite Hn. split; [congruence|].
    intros (text & doc & primary & zones & E & Ht & Hl & Hs & Hz & Hst & ->).
    rewrite (Hgood text doc primary zones) in Hn by done. apply fresh_stamped in Hst. rewrite Hst in Hn. congruence. }
  assert (∃ text doc primary zones, raw = VStr text ∧ strip text ≠ "" ∧ loads text = Ok (VDict doc) ∧ py_eq (vget "schema" doc) schema = true ∧
    dget "zones" doc = Some (VList (primary :: zones))) as (text & doc & primary & zones & E & Ht & Hl & Hs & Hz).
  { unfold catena_served_zones in Hn. destruct raw as [| | | |text| |]; try done. case_bool_decide; [done|].
    destruct (loads text) as [[| | | | | |doc]|] eqn:?; try done. destruct (py_eq _ _) eqn:?; [|done].
    destruct (dget "zones" doc) as [[| | | | |[|primary zones]|]|] eqn:?; try done. by exists text, doc, primary, zones. }
  rewrite (Hgood text doc primary zones) in Hn |- * by done.
  destruct (fresh_enough max_age (vget "generated_at" doc) now) eqn:Ef; [|done]. apply fresh_stamped in Ef.
  split; [by eexists|]. intros names Hne. split; [intros [= <-]; by exists text, doc, primary, zones|].
  intros (text' & doc' & primary' & zones' & E' & _ & Hl' & _ & Hz' & _ & ->). simplify_eq. congruence.
Qed.

Module Projection.
Definition zone (name : string) : val := VDict [("zone", VStr name); ("account_id", VStr "acc")].
Definition text (stamp : string) (zones : list val) : string :=
  dumps default_style (VDict [("schema", VInt 1); ("generated_at", VStr stamp); ("zones", VList zones)]).
Definition NOW : val := VStr "2026-07-25T12:00:00Z".
Definition zones : list val := [zone "primary.com"; VStr "junk"; zone ""; zone "second.com"; zone "third.com"; zone "second.com"].
Definition served (stamp : string) (now : val) : res (list string) := catena_served_zones (VStr (text stamp zones)) (VInt 1) now (VInt 48).
End Projection.

Lemma served_exactly_witness : Projection.served "2026-07-25T11:30:00Z" Projection.NOW = Ok ["second.com"; "third.com"].
Proof.
  destruct (served_exactly (VStr (Projection.text "2026-07-25T11:30:00Z" Projection.zones)) (VInt 1) Projection.NOW (VInt 48) (float_near 48) eq_refl) as [_ H].
  apply H; [done|].
  exists (Projection.text "2026-07-25T11:30:00Z" Projection.zones),
    [("schema", VInt 1); ("generated_at", VStr "2026-07-25T11:30:00Z"); ("zones", VList Projection.zones)], (Projection.zone "primary.com"),
    (tail Projection.zones).
  split; [done|]. split; [by vm_compute|]. split; [by vm_compute|]. split; [done|]. split; [done|]. split; [|by vm_compute].
  apply fresh_stamped. by vm_compute.
Defined.
(** Two days to the second_us, one more, and a time that cannot be read. *)
Example served_until :
  Projection.served "2026-07-23T12:00:00Z" Projection.NOW = Ok ["second.com"; "third.com"] ∧
  Projection.served "2026-07-23T11:59:59.999999Z" Projection.NOW = Ok [] ∧ Projection.served "" Projection.NOW = Ok [] ∧
  Projection.served "2020-01-01T00:00:00Z" (VStr "") = Ok ["second.com"; "third.com"].
Proof. by vm_compute. Qed.
