(* ===== verification/TemplateFacts.v ===== *)
(** The text of an inventory's [.env] as the registry renders it
    ([render_knobs.render_env]), read by the seed ([seed.parse_env_pairs]):
    every line of its prose is a comment, and what is left is the registry's
    keys with their defaults. *)
From S2P Require Import Prelude PyStr PyNum PyVal RenderKnobs RenderKnobsFacts EnvFile EnvFileFacts.

#[local] Open Scope string_scope.

(** * Prose stays on its line *)

Section prose.
Context (p : ascii → bool) (p_blank : p " "%char = true).
Abbreviation fine := (λ s, sforall p s = true).

Lemma sforall_blanks n s : fine s → fine (blanks n s).
Proof. intros Hs. induction n as [|n IH]; cbn; [done|]. by rewrite p_blank. Qed.
Lemma sforall_expandtabs col s : fine s → fine (expandtabs col s).
Proof.
  revert col. induction s as [|a s IH]; intros col; [done|]. cbn. intros [Ha Hs]%andb_true_iff.
  destruct (_ =? 9)%N; [by apply sforall_blanks, IH|]. destruct (_ || _); cbn; by rewrite Ha, IH.
Qed.
Lemma sforall_munge s : fine s → fine (munge s).
Proof.
  unfold munge. intros H%(sforall_expandtabs 0). induction (expandtabs 0 s) as [|a t IH]; [done|].
  cbn in *. apply andb_true_iff in H as [Ha Ht]. rewrite IH by done. destruct (wrap_space a); [by rewrite p_blank|by rewrite Ha].
Qed.
Lemma chunks_fine b acc s : fine acc → fine s → Forall fine (chunks_go b acc s).
Proof.
  revert b acc. induction s as [|a s IH]; intros b acc Hacc Hs; cbn.
  - case_bool_decide; [constructor|by repeat constructor].
  - cbn in Hs. apply andb_true_iff in Hs as [Ha Hs]. destruct (Bool.eqb _ _).
    + apply IH; [|done]. rewrite sforall_app. cbn in *. by rewrite Hacc, Ha.
    + assert (Forall fine (chunks_go (wrap_space a) (String a "") s)) by (apply IH; cbn; [by rewrite Ha|done]).
      case_bool_decide; [done|by constructor].
Qed.
Lemma fit_app w l : ((fit w l).1 ++ (fit w l).2)%list = l.
Proof.
  revert w. induction l as [|c l IH]; intros w; [done|]. cbn. destruct (_ <=? _)%nat; [|done].
  specialize (IH (w - String.length c)%nat). destruct (fit _ l). cbn in *. by rewrite IH.
Qed.
Lemma next_line_app w l : ((next_line w l).1 ++ (next_line w l).2)%list = l.
Proof.
  unfold next_line. pose proof (fit_app w l) as H. destruct (fit w l) as [[|c line] [|d rest]]; done.
Qed.
Lemma drop_last_blank_fine l : Forall fine l → Forall fine (drop_last_blank l).
Proof.
  unfold drop_last_blank. intros Hl. destruct (rev l) as [|c r] eqn:E; [constructor|]. destruct (blank_chunk c); [|done].
  rewrite Forall_forall in *. intros x Hx%list_elem_of_In%in_rev%list_elem_of_In. apply Hl, list_elem_of_In, in_rev. rewrite E.
  right. by apply list_elem_of_In.
Qed.
Lemma sjoin_fine sep l : fine sep → Forall fine l → fine (sjoin sep l).
Proof.
  intros Hs. unfold sjoin. induction 1 as [|x l Hx Hl IH]; [done|]. destruct l as [|y l]; [done|].
  change (String.concat sep (x :: y :: l)) with (x +:+ sep +:+ String.concat sep (y :: l)).
  rewrite !sforall_app, Hx, Hs. exact IH.
Qed.
Lemma wrap_chunks_fine fuel started w l : Forall fine l → Forall fine (wrap_chunks fuel started w l).
Proof.
  revert started l. induction fuel as [|fuel IH]; intros started l Hl; [by destruct l|]. destruct l as [|c l]; [constructor|].
  cbn [wrap_chunks]. set (l' := if _ && _ then _ else _). assert (Hl' : Forall fine l').
  { subst l'. destruct (_ && _); [by apply Forall_cons in Hl as [_ ?]|done]. }
  pose proof (next_line_app w l') as Happ. destruct (next_line w l') as [line rest]. cbn [fst snd] in Happ.
  rewrite <-Happ in Hl'. apply Forall_app in Hl' as [Hline%drop_last_blank_fine Hrest].
  case_bool_decide; [by apply IH|]. constructor; [by apply sjoin_fine|by apply IH].
Qed.
Lemma wrap_fine s : fine s → Forall fine (wrap s).
Proof. intros Hs. by apply wrap_chunks_fine, chunks_fine, sforall_munge. Qed.
End prose.

(** A line that is a comment on one line, or blank. *)
Definition prose_line (l : string) : Prop := one_line l ∧ (l = "" ∨ starts_char "#" l = true).

Lemma prose_hash s : one_line s → prose_line ("#" +:+ s).
Proof. intros. split; [done|by right]. Qed.

Lemma prose_parse l : prose_line l → parse_line l = None.
Proof.
  intros [_ [->|Hl]]; [done|]. destruct l as [|a l]; [done|]. cbn in Hl. apply bool_decide_eq_true in Hl as <-.
  unfold parse_line. replace (holds_pair (strip (String "#" l))) with false; [done|].
  unfold holds_pair. rewrite startswith_char. unfold strip, strip_of. cbn [rstrip_of].
  by destruct (rstrip_of is_space l).
Qed.
Lemma prose_parse_all ls : Forall prose_line ls → parse_all ls = [].
Proof. induction 1 as [|l ls Hl _ IH]; [done|]. rewrite parse_all_cons, prose_parse by done. done. Qed.
Lemma prose_one_line ls : Forall prose_line ls → Forall one_line ls.
Proof. intros H. eapply Forall_impl; [exact H|]. by intros l [? _]. Qed.

Lemma flush_prose out par : Forall prose_line out → Forall one_line par → Forall prose_line (flush (out, par)).
Proof.
  intros Ho Hp. unfold flush. case_bool_decide; [done|]. apply Forall_app. split; [done|].
  assert (Hw : Forall one_line (wrap (sjoin " " par))) by by apply wrap_fine, sjoin_fine.
  apply Forall_map. eapply Forall_impl; [exact Hw|]. intros l Hl. exact (prose_hash (" " +:+ l) Hl).
Qed.
Lemma rstrip_hash s : ∃ t, rstrip_of is_space ("# " +:+ s) = "#" +:+ t.
Proof.
  cbn [String.append rstrip_of]. destruct (rstrip_of is_space s) as [|b t]; cbn.
  - by exists "".
  - by exists (String " " (String b t)).
Qed.
Lemma comment_prose text : Forall prose_line (comment text).
Proof.
  unfold comment. set (lines := splitlines _). assert (Hlines : Forall one_line lines) by apply splitlines_one_line.
  assert (H : ∀ acc, Forall prose_line acc.1 → Forall one_line acc.2 →
    Forall prose_line (flush (foldl comment_step acc lines))); [|by apply H; constructor].
  induction Hlines as [|l lines Hl Hlines IH]; intros [out par] Ho Hp; [by apply flush_prose|]. cbn [foldl]. apply IH.
  - unfold comment_step. cbn [fst snd]. case_bool_decide; cbn [fst]; [|destruct (_ || _); cbn [fst]]; [| |done].
    + apply Forall_app. split; [by apply flush_prose|]. by apply Forall_singleton, (prose_hash "").
    + apply Forall_app. split; [by apply flush_prose|]. apply Forall_singleton.
      destruct (rstrip_hash l) as [t Ht]. assert (Hone : one_line (rstrip_of is_space ("# " +:+ l))) by by apply sforall_rstrip.
      rewrite Ht in Hone |- *. apply prose_hash. exact Hone.
  - unfold comment_step. cbn [fst snd]. case_bool_decide; cbn [snd]; [constructor|]. destruct (_ || _); cbn [snd]; [constructor|].
    apply Forall_app. split; [done|]. by apply Forall_singleton, sforall_strip.
Qed.

(** * The rendered file *)

(** The key and the default of a knob with an [.env] home. *)
Definition pair_of (entry : val) : option (string * string) :=
  match entry with
  | VDict e =>
      match dget "key" e, dget "env" e with
      | Some (VStr k), Some (VDict env) =>
          match dget "default" env with Some (VStr d) => Some (k, d) | _ => None end
      | _, _ => None
      end
  | _ => None
  end.

(** A key and a default that can stand on a line of their own. *)
Definition printable_pair (kv : string * string) : Prop := good_key kv.1 ∧ one_line kv.2 ∧ strip kv.2 = kv.2.
(** A section whose title is one line and whose text is text. *)
Definition printable_section (s : val) : Prop :=
  match s with
  | VDict d => (∀ title, dget "title" d = Some (VStr title) → one_line title) ∧
               (truthy (vget "doc" d) = true → ∃ t, vget "doc" d = VStr t)
  | _ => True
  end.

(** Lines of which the reader sees exactly [kvs]. *)
Definition shows (lines : list string) (kvs : list (string * string)) : Prop :=
  Forall one_line lines ∧ parse_all lines = kvs.
Lemma shows_prose ls : Forall prose_line ls → shows ls [].
Proof. intros. split; [by apply prose_one_line|by apply prose_parse_all]. Qed.
Lemma shows_app l1 l2 kv1 kv2 : shows l1 kv1 → shows l2 kv2 → shows (l1 ++ l2) (kv1 ++ kv2).
Proof. intros [H1 <-] [H2 <-]. split; [by apply Forall_app|apply parse_all_app]. Qed.
Lemma shows_concat blocks kvss : Forall2 shows blocks kvss → shows (concat blocks) (concat kvss).
Proof. induction 1; [by split|]. by apply shows_app. Qed.

Lemma bare_plain d : sforall (λ a, negb (unquotable a)) d = true → one_line d → strip d = d →
  plain d ∧ ∀ k, env_line k d = k +:+ "=" +:+ d.
Proof.
  intros Hu Hl Hs. assert (Hx : sexists unquotable d = false) by (unfold sexists; by rewrite Hu).
  split; [split; [done|done|by rewrite Hx]|]. intros k. unfold env_line. by rewrite Hx.
Qed.

Lemma options_text opts : options_ok opts →
  ∃ lines, (if truthy opts then l ← (py_iter opts ≫= mapM_res as_str_r); Ok (comment ("One of: " +:+ sjoin ", " l +:+ ".")) else Ok [])
           = Ok lines ∧ Forall prose_line lines.
Proof.
  intros [->|[l ->]]; [by exists []|]. destruct (truthy _); [|by exists []].
  assert (Hm : mapM_res as_str_r (map VStr l) = Ok l) by (induction l as [|x l IH]; [done|]; cbn; by rewrite IH).
  cbn [py_iter mbind res_bind]. rewrite Hm. eexists. split; [done|apply comment_prose].
Qed.
Lemma example_text ex : Forall prose_line (if truthy ex then comment ("For example: " +:+ py_str ex) else []).
Proof. destruct (truthy ex); [apply comment_prose|constructor]. Qed.
Lemma comment_of_str s : comment_of (VStr s) = Ok (comment s).
Proof. unfold comment_of, val_or. by destruct s. Qed.

Lemma render_entry_shows sections entry env :
  knob_ok entry → (∃ e, entry = VDict e ∧ env_ok sections e ∧ dget "env" e = Some env) →
  (∀ kv, pair_of entry = Some kv → printable_pair kv) →
  ∃ block kv, render_entry entry = Ok block ∧ pair_of entry = Some kv ∧ shows block [kv].
Proof.
  intros (e & key & -> & Hkey & Hhelp) (e' & [= <-] & Henv & He) Hp. unfold env_ok in Henv. rewrite He in Henv.
  destruct Henv as (d & n & def & -> & _ & _ & Hdef & Hu & Hopt & _).
  destruct Hhelp as (help & en & Hh & Hen); [unfold dhas; by rewrite He|].
  assert (Hpair : pair_of (VDict e) = Some (key, def)) by (cbn; by rewrite Hkey, He, Hdef).
  destruct (Hp _ Hpair) as (Hgood & Hline & Hstrip). cbn [fst snd] in *.
  destruct (options_text _ Hopt) as (opts & Ho & Hop). destruct (bare_plain def Hu Hline Hstrip) as [Hplain Heq].
  exists ([""] ++ comment en ++ opts ++ (if truthy (vget "example" d) then comment ("For example: " +:+ py_str (vget "example" d)) else [])
          ++ [env_line key def])%list, (key, def). split_and!; [|done|].
  - unfold render_entry, getitem. cbn [as_dict_r mbind res_bind]. rewrite Hh. cbn [as_dict_r mbind res_bind]. rewrite Hen.
    cbn [mbind res_bind]. rewrite comment_of_str, He. cbn [as_dict_r mbind res_bind]. rewrite Ho. cbn [mbind res_bind].
    rewrite Hkey, Hdef. cbn [mbind res_bind]. by rewrite Heq.
  - apply (shows_app [""] _ []); [by split; [repeat constructor|]|]. apply (shows_app _ _ []); [apply shows_prose, comment_prose|].
    apply (shows_app _ _ []); [by apply shows_prose|]. apply (shows_app _ _ []); [by apply shows_prose, example_text|].
    split; [by apply Forall_singleton, env_line_one_line|]. rewrite parse_all_cons, parse_written by done. done.
Qed.

Lemma pairs_cons entry kv l : pair_of entry = Some kv → omap pair_of (entry :: l) = kv :: omap pair_of l.
Proof. intros H. cbn. by rewrite H. Qed.

(** The entries of one section, rendered in turn. *)
Lemma render_entries_show sections (entries : list val) :
  Forall (λ entry, knob_ok entry ∧ ∃ e env, entry = VDict e ∧ env_ok sections e ∧ dget "env" e = Some env) entries →
  Forall (λ entry, ∀ kv, pair_of entry = Some kv → printable_pair kv) entries →
  ∃ blocks, mapM_res render_entry entries = Ok blocks ∧ shows (concat blocks) (omap pair_of entries).
Proof.
  induction entries as [|entry entries IH]; [by exists []|].
  intros [(Hk & e & env & He & Henv & Hget) Hks]%Forall_cons [Hp Hps]%Forall_cons.
  destruct (render_entry_shows sections entry env Hk ltac:(eauto) Hp) as (block & kv & Hr & Hpair & Hs).
  destruct (IH Hks Hps) as (blocks & Hb & Hbs). exists (block :: blocks). split; [cbn; by rewrite Hr, Hb|].
  rewrite (pairs_cons _ kv) by done. exact (shows_app _ _ [kv] _ Hs Hbs).
Qed.

Lemma pad_fine p c n : p c = true → sforall p (pad c n) = true.
Proof. intros Hc. induction n as [|n IH]; cbn; by rewrite ?Hc. Qed.

Lemma entries_of_section config (by_s : dict (list val)) s :
  section_ok s → (∀ n, default [] (dget n by_s) = bucket home n config) →
  entries_of by_s s = Ok (bucket home (name_of s) config).
Proof.
  intros (d & title & -> & Hn & _) Hby. unfold entries_of, getitem. cbn [as_dict_r mbind res_bind]. rewrite Hn.
  cbn [as_str_r mbind res_bind]. by rewrite Hby.
Qed.

Lemma render_section_shows names config (by_s : dict (list val)) s :
  section_ok s → printable_section s → (∀ n, default [] (dget n by_s) = bucket home n config) →
  Forall (λ entry, ∃ e, entry = VDict e ∧ env_ok names e) config → Forall knob_ok config →
  Forall (λ entry, ∀ kv, pair_of entry = Some kv → printable_pair kv) config →
  ∃ block, render_section by_s s = Ok block ∧ shows block (omap pair_of (bucket home (name_of s) config)).
Proof.
  intros Hs Hprint Hby Henv Hk Hp. pose proof (entries_of_section config by_s s Hs Hby) as Hent.
  destruct Hs as (d & title & -> & Hn & Ht). destruct Hprint as [Hone Hdoc].
  assert (Hdocs : ∃ doc, (if truthy (vget "doc" d) then c ← comment_of (vget "doc" d); Ok ("#" :: c) else Ok []) = Ok doc
                         ∧ Forall prose_line doc).
  { destruct (truthy (vget "doc" d)); [|by exists []]. destruct (Hdoc eq_refl) as [t ->]. rewrite comment_of_str.
    eexists. split; [done|]. constructor; [by apply (prose_hash "")|apply comment_prose]. }
  destruct Hdocs as (doc & Hd & Hdp).
  destruct (render_entries_show names (bucket home (name_of (VDict d)) config)) as (blocks & Hb & Hbs).
  { rewrite Forall_forall in Henv, Hk |- *. intros entry [Hh Hin]%list_elem_of_filter. split; [by apply Hk|].
    destruct (Henv _ Hin) as (e & -> & He). cbn [home] in Hh. destruct (dget "env" e) as [env|] eqn:E; [|done]. eauto 10. }
  { rewrite Forall_forall in Hp |- *. intros entry [_ Hin]%list_elem_of_filter. by apply Hp. }
  exists ([""; ljust 78 "-" ("# --- " +:+ py_str (VStr title) +:+ " ")] ++ doc ++ concat blocks)%list. split.
  - unfold render_section. cbn [as_dict_r mbind res_bind]. unfold getitem. rewrite Ht. cbn [mbind res_bind]. rewrite Hd.
    cbn [mbind res_bind]. rewrite Hent. cbn [mbind res_bind]. by rewrite Hb.
  - apply (shows_app _ _ []); [|apply (shows_app _ _ []); [by apply shows_prose|done]]. apply shows_prose.
    constructor; [split; [done|by left]|]. apply Forall_singleton. unfold ljust.
    apply (prose_hash (" --- " +:+ (title +:+ " ") +:+ pad "-" (78 - String.length ("# --- " +:+ title +:+ " ")))).
    rewrite !one_line_app. split_and!; [done|by apply Hone|done|by apply pad_fine].
Qed.

Lemma render_sections_show names config (by_s : dict (list val)) sections :
  (∀ n, default [] (dget n by_s) = bucket home n config) →
  Forall (λ entry, ∃ e, entry = VDict e ∧ env_ok names e) config → Forall knob_ok config →
  Forall (λ entry, ∀ kv, pair_of entry = Some kv → printable_pair kv) config →
  Forall section_ok sections → Forall printable_section sections →
  ∃ blocks, mapM_res (render_section by_s) sections = Ok blocks ∧
    shows (concat blocks) (omap pair_of (concat (map (λ s, bucket home (name_of s) config) sections))).
Proof.
  intros Hby Henv Hk Hp. induction sections as [|s l IH]; [by exists []|].
  intros [Hs Hl]%Forall_cons [Hpr Hpl]%Forall_cons. destruct (IH Hl Hpl) as (blocks & Hb & Hbs).
  destruct (render_section_shows names config by_s s Hs Hpr Hby Henv Hk Hp) as (block & Hr & Hblock).
  exists (block :: blocks). split; [cbn; by rewrite Hr, Hb|]. cbn [map concat]. rewrite omap_app. by apply shows_app.
Qed.

(** The file the registry renders is the one the seed expects.  For
    an accepted registry whose keys, defaults and titles fit on a line, the
    rendered [.env] exists, and what the seed's reader finds in it is exactly
    the registry's [.env] keys in their order, each at its default: no line of
    prose is ever read as a key. *)
Theorem template_reads_defaults doc doc' : RenderKnobs.load (VDict doc) = Ok doc' →
  (∀ sections s, vget "env_sections" doc = VList sections → s ∈ sections → printable_section s) →
  (∀ config entry kv, vget "config" doc = VList config → entry ∈ config → pair_of entry = Some kv → printable_pair kv) →
  ∃ text l, render_env doc' = Ok text ∧ env_knobs doc' = Ok l ∧ parse_env_pairs text = omap pair_of l.
Proof.
  intros (-> & config & sections & Hacc)%load_accepted Hsec Hpairs.
  destruct (accepted_by_section _ _ _ Hacc) as (by_s & Hby & Hdef & Hknobs).
  pose proof (accepted_config _ _ _ Hacc) as Hconfig.
  destruct Hacc as [_ Hs _ Hnamed Hentries _ _ Hok [header Hheader]].
  destruct (render_sections_show _ config by_s sections Hdef Hentries Hok) as (blocks & Hb & Hline & Hshow); [|done| |].
  { apply Forall_forall. intros entry Hin kv. by eapply Hpairs. }
  { apply Forall_forall. intros s. by apply Hsec. }
  eexists _, _. split_and!; [|exact Hknobs|].
  - unfold render_env, env_lines.
    assert (getitem "env_header" doc = Ok (VStr header)) as -> by (unfold getitem; by rewrite Hheader).
    cbn [mbind res_bind]. rewrite comment_of_str, Hby.
    cbn [mbind res_bind]. rewrite (getitem_list _ _ _ Hs). cbn [mbind res_bind py_iter]. rewrite Hb. done.
  - change (sjoin newline_str ?l +:+ newline_str) with (env_text l).
    destruct (shows_app _ _ [] _ (shows_prose _ (comment_prose header)) (conj Hline Hshow)) as [Hone Hall].
    rewrite parse_text by done. exact Hall.
Qed.

Lemma template_reads_defaults_witness :
  RenderKnobs.load (VDict sample_registry) = Ok sample_registry ∧
  ∃ text, render_env sample_registry = Ok text ∧ parse_env_pairs text = [("ADMIN_EMAIL", ""); ("HOST_SSH_PORT", "22")].
Proof.
  split; [exact sample_accepted|].
  destruct (template_reads_defaults sample_registry sample_registry sample_accepted) as (text & l & Ht & Hl & Hp).
  - intros sections s Hs Hin. injection Hs as <-. apply elem_of_cons in Hin as [->|Hin]; [|apply list_elem_of_singleton in Hin as ->].
    + split; [by intros title [= <-]|done].
    + split; [by intros title [= <-]|]. intros _. by exists "Only once.".
  - intros config entry kv Hc Hin Hkv. injection Hc as <-.
    apply elem_of_cons in Hin as [->|Hin]; [|apply elem_of_cons in Hin as [->|Hin]; [|apply list_elem_of_singleton in Hin as ->]].
    + injection Hkv as <-. by split.
    + done.
    + injection Hkv as <-. by split.
  - exists text. split; [exact Ht|]. rewrite Hp. replace l with [VDict sample_name; VDict sample_port]; [reflexivity|].
    assert (H : env_knobs sample_registry = Ok [VDict sample_name; VDict sample_port]) by reflexivity. rewrite H in Hl. by injection Hl.
Defined.

(** A line break is not among the characters a default may not hold: such a
    default is accepted, and the file then reads back as two keys. *)
Definition broken_env : val := VDict [("section", VStr "ssh"); ("default", VStr ("22" +:+ newline_str +:+ "B=1"))].
Example broken_default_accepted :
  check_env broken_env ["ssh"] = Ok tt ∧
  parse_env_pairs (env_text ["A=" +:+ "22" +:+ newline_str +:+ "B=1"]) = [("A", "22"); ("B", "1")].
Proof. split; reflexivity. Qed.
