(* ===== verification/Seed.v ===== *)
(** [ansible/seed.py]: the one reader and writer of an inventory's [.env] and
    [hosts.yml].  It runs on [Host]'s world; a person types the lines of the
    terminal; YAML is read and written by a library, given as two functions.
    A mapping's keys, and the name of a server, are text; a text that is read
    has its newlines as the reader translates them. *)
From S2P Require Import Prelude PyStr PyNum PyVal Effects Host OnboxConfig RenderKnobs EnvFile.

#[local] Open Scope string_scope.

(** * Placeholders and answers *)

Definition PLACEHOLDER_VALUES : list string := ["REPLACE"; "REPLACE-LONG-RANDOM-STRING"].
Definition PLACEHOLDER_DOMAINS : list string := ["example.com"; "example.net"; "example.org"].

Definition is_placeholder (value : string) : bool :=
  let s := strip value in
  bool_decide (s ∈ PLACEHOLDER_VALUES)
  || existsb (λ d, bool_decide (lower s = d) || endswith (lower s) ("@" +:+ d)) PLACEHOLDER_DOMAINS.
Definition is_filled (value : val) : bool :=
  match value with
  | VNone => false
  | VBool _ => true
  | v => let s := strip (py_str v) in negb (bool_decide (s = "")) && negb (is_placeholder s)
  end.

Definition BOOL_VALUES : list string := ["true"; "false"].
(** No options is the empty list. *)
Definition effective_options (default_ : string) (options : list string) : list string :=
  match options with
  | [] => if bool_decide (default_ ∈ BOOL_VALUES) then BOOL_VALUES else []
  | _ => options
  end.
(** [not eff or v in eff] *)
Definition allowed (eff : list string) (v : string) : bool := bool_decide (eff = []) || bool_decide (v ∈ eff).

(** What a typed line answers, if it does: [prompt]'s loop body. *)
Definition answered (default_ : string) (allow_empty : bool) (eff : list string) (line : string) : option string :=
  let raw := strip line in
  let v := if bool_decide (raw = "") then default_ else raw in
  if negb (bool_decide (v = "")) && negb (allowed eff v) then None
  else if is_placeholder v then None
  else if negb (bool_decide (v = "")) || allow_empty then Some v else None.
(** The lines typed until one answers; [None] when they end first. *)
Fixpoint typed (default_ : string) (allow_empty : bool) (eff : list string) (lines : list string) : option string * list string :=
  match lines with
  | [] => (None, [])
  | line :: rest =>
      match answered default_ allow_empty eff line with
      | Some v => (Some v, rest)
      | None => typed default_ allow_empty eff rest
      end
  end.

(** * The registry, as the module reads it when it loads *)

Record asked := { ENV_KEYS : list (string * string); ENV_OPTIONS : dict (list string); ENV_EXAMPLED : list string;
  declared : list string; env_template : res string }.

Definition key_default (knob : val) : res (string * string) :=
  k ← as_dict_r knob;
  key ← (getitem "key" k ≫= as_str_r);
  env ← (getitem "env" k ≫= as_dict_r);
  default_ ← (getitem "default" env ≫= as_str_r);
  Ok (key, default_).
Definition key_options (knob : val) : res (option (string * list string)) :=
  k ← as_dict_r knob;
  env ← (getitem "env" k ≫= as_dict_r);
  if dhas "options" env then
    key ← (getitem "key" k ≫= as_str_r);
    options ← (getitem "options" env ≫= iter_or);
    options ← mapM_res as_str_r options;
    Ok (Some (key, options))
  else Ok None.
Definition key_exampled (knob : val) : res (option string) :=
  k ← as_dict_r knob;
  env ← (getitem "env" k ≫= as_dict_r);
  if truthy (vget "example" env)
  then key ← (getitem "key" k ≫= as_str_r); Ok (Some key)
  else Ok None.
Definition entry_key (entry : val) : res string := e ← as_dict_r entry; getitem "key" e ≫= as_str_r.

Definition knobs_asked (doc : dict val) : res asked :=
  knobs ← env_knobs doc;
  keys ← mapM_res key_default knobs;
  options ← mapM_res key_options knobs;
  exampled ← mapM_res key_exampled knobs;
  secrets ← (getitem "secrets" doc ≫= py_iter);
  config ← (getitem "config" doc ≫= py_iter);
  names ← mapM_res entry_key (secrets ++ config)%list;
  Ok {| ENV_KEYS := keys; ENV_OPTIONS := dict_of (omap id options); ENV_EXAMPLED := omap id exampled; declared := names;
        env_template := render_env doc |}.

Section registry.
Context (knobs : asked) (reg : registry).

(** * What the server holds *)

Definition ADMIN_PASSWORD_KEY : string := "admin_password".
Definition ADMIN_PASSWORD_MIN_LEN : nat := 16.

Definition server_keys : list string :=
  List.filter (λ k, negb (bool_decide (k = ADMIN_PASSWORD_KEY)))
    (List.filter (λ k, negb (bool_decide (k ∈ (ENV_KEYS knobs).*1))) (declared knobs) ++ secret_names reg)%list.
Definition server_held (keys : list string) : list string :=
  sorted_str (remove_dups (List.filter (λ k, bool_decide (k ∈ server_keys)) keys)).

(** [set(v or {})], of which only texts can be names. *)
Definition names_in (v : val) : res (list string) :=
  l ← iter_or v;
  if forallb (λ x, negb (is_list x || is_dict x)) l then Ok (omap as_str l) else Raise TypeError.

(** The parts of an install file. *)
Record install := { i_inventory : val; i_host : val; i_env : val; i_secrets : val }.
Definition not_install_inputs (inp : install) : res (list string) :=
  env ← names_in (i_env inp); secrets ← names_in (i_secrets inp); Ok (server_held (env ++ secrets)%list).

Definition HOST_PREFIX : string := "host_".
Definition file_key (inp : dict val * dict val * dict val) (kv : string * val) : dict val * dict val * dict val :=
  let '(host, env, secrets) := inp in
  let '(key, value) := kv in
  if bool_decide (key = "inventory") then inp
  else if startswith key HOST_PREFIX
  then (dset (String.substring (String.length HOST_PREFIX) (String.length key) key) value host, env, secrets)
  else if bool_decide (key ∈ secret_names reg) then (host, env, dset key value secrets)
  else (host, dset key value env, secrets).
Definition split_install_dict (raw : val) : res install :=
  match raw with
  | VDict raw =>
      if existsb (λ k, is_dict (vget k raw)) ["host"; "env"; "secrets"]
      then Ok {| i_inventory := vget "inventory" raw; i_host := val_or (vget "host" raw) (VDict []);
                 i_env := val_or (vget "env" raw) (VDict []); i_secrets := val_or (vget "secrets" raw) (VDict []) |}
      else let '(host, env, secrets) := foldl file_key ([], [], []) raw in
           Ok {| i_inventory := vget "inventory" raw; i_host := VDict host; i_env := VDict env; i_secrets := VDict secrets |}
  | _ => Raise AttributeError
  end.

(** * The checks of an install file *)

Definition env_problem (env : dict val) (kv : string * string) : bool :=
  let '(key, default_) := kv in
  let v := default (VStr default_) (dget key env) in
  let eff := effective_options default_ (default [] (dget key (ENV_OPTIONS knobs))) in
  let optional := bool_decide (default_ = "") && negb (bool_decide (key ∈ ENV_EXAMPLED knobs)) in
  if optional && negb (is_filled v) then false else
  let norm := match v with VBool b => VStr (if b then "true" else "false") | v => v end in
  if negb (is_filled norm) then true else negb (allowed eff (py_str norm)).
Definition validate_install_structural (inventory : string) (env : dict val) (env_keys : list (string * string)) : nat :=
  (if bool_decide (inventory = "") then 1 else 0) + length (List.filter (env_problem env) env_keys).

(** [_ipv4_endpoint]: the line is printed; a value that is no text stops it. *)
Definition text_or (fallback : string) (k : string) (values : dict val) : res string :=
  match val_or (vget k values) (VStr "") with
  | VStr s => Ok (if bool_decide (strip s = "") then fallback else strip s)
  | _ => Raise AttributeError
  end.
Definition ipv4_endpoint (values : dict val) : res string :=
  ssh ← text_or "" "HOST_SSH_ADDRESS" values;
  ip ← (if bool_decide (ssh = "") then text_or "HOST_PUBLIC_IP NOT SET" "HOST_PUBLIC_IP" values else Ok ssh);
  port ← text_or "22" "HOST_SSH_PORT" values;
  user ← text_or "root" "HOST_INITIAL_USER" values;
  Ok (user +:+ "@" +:+ ip +:+ ":" +:+ port).

(** The values of the map handed to the converge. *)
Definition adopt_payload (secrets : dict string) : dict val :=
  map (λ kv, (kv.1, VStr kv.2))
    (List.filter (λ kv, negb (bool_decide (strip kv.2 = "")) && negb (bool_decide (kv.2 ∈ PLACEHOLDER_VALUES))) secrets).
End registry.

(** * The run *)

Record arguments := { a_input : string; a_inventory : string; a_inventory_path : string; a_secrets_out : string; a_no_confirm : bool }.
(** Where the checkout is, its skeleton of [hosts.yml], the YAML library, [~]
    and the environment. *)
Record outside := {
  INVENTORY_ROOT : string; HOSTS_YML_SKEL : string;
  safe_load : string → res val; safe_dump : val → string;
  expanduser : string → string; environ : dict string
}.

(** The terminal: whether a person is there, and the lines typed. *)
Class Terminal (E : Type) := {
  isatty : bool;
  lines : E → list string;
  set_lines : list string → E → E
}.

(** [d.setdefault(k, {})], used as a mapping. *)
Definition setdefault_dict (k : string) (d : dict val) : res (dict val) :=
  match dget k d with None => Ok [] | Some (VDict d') => Ok d' | Some _ => Raise AttributeError end.
Definition hosts_entry (host_name : string) (data : dict val) : res (dict val) :=
  all ← setdefault_dict "all" data;
  children ← setdefault_dict "children" all;
  vps ← setdefault_dict "vps" children;
  mine ← attr_get host_name (val_or (vget "hosts" vps) (VDict []));
  let vps := dset "hosts" (VDict [(host_name, val_or mine (VDict []))]) vps in
  Ok (dset "all" (VDict (dset "children" (VDict (dset "vps" (VDict vps) children)) all)) data).

Section run.
Context {E : Type} `{!Outside E, !Terminal E}.
Abbreviation M := (ST (@world E) fault).
Context (knobs : asked) (reg : registry) (out : outside).

Definition die {A} (code : Z) : M A := throw (Died code).

Definition with_lines (l : list string) (w : @world E) : @world E :=
  {| files := files w; ran := ran w; pos := pos w; ext := set_lines l (ext w) |}.
(** [input()] *)
Definition input : M string := λ w,
  match lines (ext w) with
  | [] => (inl (Raised EOFError), w)
  | line :: rest => (inr line, with_lines rest w)
  end.
Definition prompt (default_ : string) (allow_empty : bool) (options : list string) : M string := λ w,
  let '(r, rest) := typed default_ allow_empty (effective_options default_ options) (lines (ext w)) in
  (match r with Some v => inr v | None => inl (Raised EOFError) end, with_lines rest w).

(** The value given, if it can be taken as it is. *)
Definition given (default_ : string) (allow_empty : bool) (options : list string) (raw : val) : option string :=
  match raw with
  | VBool b => Some (if b then "true" else "false")
  | _ =>
      let s := match raw with VNone => "" | v => strip (py_str v) end in
      if negb (bool_decide (s = "")) && negb (is_placeholder s)
      then if allowed (effective_options default_ options) s then Some s else None
      else if allow_empty && bool_decide (s = "") then Some "" else None
  end.
Definition fill (provided : dict val) (key default_ : string) (allow_empty : bool) (options : list string) (ask : bool) : M string :=
  match dget key provided ≫= given default_ allow_empty options with
  | Some v => mret v
  | None =>
      if negb ask || negb isatty then
        if negb (bool_decide (default_ = "")) && negb (is_placeholder default_) then mret default_
        else if allow_empty then mret "" else die 1
      else prompt default_ allow_empty options
  end.

Definition collect_step (provided : dict val) (ask : bool) (values : dict string) (kv : string * string) : M (dict string) :=
  v ← fill provided kv.1 kv.2 (bool_decide (kv.2 = "")) (default [] (dget kv.1 (ENV_OPTIONS knobs))) ask;
  mret (dset kv.1 v values).
(** [_collect_env_values] *)
Definition collect_env_values (provided : dict val) (ask : bool) : M (dict string) :=
  foldST (collect_step provided ask) [] (ENV_KEYS knobs).

Definition pure {A} (r : res A) : M A := lift Raised r.

Definition load_input (path : string) : M install :=
  if bool_decide (path = "") then mret {| i_inventory := VNone; i_host := VDict []; i_env := VDict []; i_secrets := VDict [] |} else
  there ← exists_path path;
  if negb (there : bool) then die 1 else
  text ← read_text path;
  raw ← pure (safe_load out text);
  pure (split_install_dict reg (val_or raw (VDict []))).

(** [emit_env], [write_env] *)
Definition emit_env (template : string) (values : dict string) (target : string) (keep_existing : bool) : M unit :=
  there ← exists_path target;
  old ← (if (there : bool) then text ← read_text target; mret (Some text) else mret None);
  write_text target (emit_text template values keep_existing old).
Definition write_env (inv_dir : string) (answers : dict string) : M string :=
  let target := join_path inv_dir ".env" in
  template ← pure (env_template knobs);
  emit_env template (dupdate (dict_of (ENV_KEYS knobs)) answers) target false;;
  chmod target 384;;
  mret target.

Definition emit_hosts_yml (target : string) : M unit :=
  there ← exists_path target;
  if (there : bool) then mret tt else
  text ← read_text (HOSTS_YML_SKEL out); write_text target text.
Definition emit_hosts_yml_entry (target host_name : string) : M unit :=
  there ← exists_path target;
  data ← (if (there : bool) then text ← read_text target; raw ← pure (safe_load out text); mret (val_or raw (VDict []))
          else mret (VDict []));
  match data with
  | VDict data => data ← pure (hosts_entry host_name data); write_text target (safe_dump out (VDict data))
  | _ => throw (Raised AttributeError)
  end.

Definition ensure_ssh_key (path : string) : M unit :=
  let privkey := expanduser out path in
  private ← exists_path privkey;
  public ← exists_path (privkey +:+ ".pub");
  if (private : bool) && (public : bool) then mret tt else
  answer ← input;
  if negb (bool_decide (lower (strip answer) ∈ [""; "y"; "yes"])) then die 1 else
  r ← spawn ["ssh-keygen"; "-t"; "ed25519"; "-f"; privkey; "-N"; ""; "-C"; "catena"] (environ out);
  if negb (bool_decide (returncode r = 0%Z)) then die (returncode r) else mret tt.

Definition resolve_admin_override (secrets_provided : val) : M (dict string) :=
  v ← pure (match secrets_provided with VDict d => Ok (default (VStr "") (dget ADMIN_PASSWORD_KEY d)) | _ => Raise AttributeError end);
  let provided := strip (py_str v) in
  if bool_decide (provided = "") || bool_decide (provided ∈ PLACEHOLDER_VALUES) then mret [] else
  if (String.length provided <? ADMIN_PASSWORD_MIN_LEN)%nat then die 1 else mret [(ADMIN_PASSWORD_KEY, provided)].

Definition write_secrets_out (path : string) (secrets : dict string) : M unit :=
  open_write path 384;;
  put_text path (safe_dump out (VDict (adopt_payload secrets)));;
  chmod path 384.

(** The inventory's directory and label. *)
Definition target (args : arguments) (inp : install) : M (string * string) :=
  if negb (bool_decide (a_inventory_path args = "")) then
    let dir := expanduser out (a_inventory_path args) in mret (dir, path_name dir)
  else
    inventory ← (if negb (bool_decide (a_inventory args = "")) then mret (VStr (a_inventory args))
                 else if truthy (i_inventory inp) then mret (i_inventory inp)
                 else v ← fill [] "inventory" "prod" false [] true; mret (VStr v));
    name ← pure (as_str_r inventory);
    mret (join_path (INVENTORY_ROOT out) name, name).

(** What answers the keys: the input file, or the inventory's own [.env]. *)
Definition env_provided (args : arguments) (inp : install) (dir : string) : M (dict val) :=
  if negb (bool_decide (a_input args = "")) then
    match i_env inp with VDict d => mret d | _ => throw (Raised AttributeError) end
  else
    there ← exists_path (join_path dir ".env");
    if negb (there : bool) then die 1 else
    text ← read_text (join_path dir ".env");
    mret (map (λ kv, (kv.1, VStr kv.2)) (read_existing_env text)).

(** Everything that is asked and checked before a file is written: the
    inventory, the values of its [.env], the server's name and the map for the
    converge. *)
Record plan := { p_dir : string; p_values : dict string; p_host : option string; p_secrets : dict string }.

Definition prepare (args : arguments) : M plan :=
  inp ← load_input (a_input args);
  refused ← pure (not_install_inputs knobs reg inp);
  if negb (bool_decide (refused = [])) then die 1 else
  '(dir, inventory) ← target args inp;
  provided ← env_provided args inp dir;
  has_env ← exists_path (join_path dir ".env");
  (if (has_env : bool) then _ ← read_text (join_path dir ".env"); mret tt else mret tt);;
  rerun ← exists_path (join_path dir "hosts.yml");
  _ ← pure (ipv4_endpoint provided);
  values ← collect_env_values provided (negb rerun);
  host ← (if bool_decide (a_input args = "") then mret None else
          name ← pure (attr_get "name" (i_host inp));
          name ← pure (as_str_r (val_or name (VStr (inventory +:+ "1"))));
          mret (Some name));
  secrets ← resolve_admin_override (i_secrets inp);
  _ ← pure (attr_get "initial_password" (i_host inp));
  let problems := validate_install_structural knobs inventory (map (λ kv, (kv.1, VStr kv.2)) values) (ENV_KEYS knobs) in
  if negb (bool_decide (problems = 0)) then die 1 else
  (if a_no_confirm args || (rerun : bool) then mret tt else
   answer ← input;
   if negb (bool_decide (lower (strip answer) ∈ ["y"; "yes"])) then die 130 else mret tt);;
  key ← pure (match dget "SSH_PRIVATE_KEY" values with Some k => Ok k | None => Raise KeyError end);
  ensure_ssh_key key;;
  mret {| p_dir := dir; p_values := values; p_host := host; p_secrets := secrets |}.

(** [_write_inventory_files] *)
Definition write_inventory_files (template : string) (p : plan) : M unit :=
  emit_env template (p_values p) (join_path (p_dir p) ".env") true;;
  match p_host p with
  | Some name => emit_hosts_yml_entry (join_path (p_dir p) "hosts.yml") name
  | None => emit_hosts_yml (join_path (p_dir p) "hosts.yml")
  end.

(** The inventory's files, then the transient map. *)
Definition carry_out (args : arguments) (p : plan) : M unit :=
  template ← pure (env_template knobs);
  write_inventory_files template p;;
  path ← (if negb (bool_decide (a_secrets_out args = "")) then mret (expanduser out (a_secrets_out args))
          else make_temp);
  write_secrets_out path (p_secrets p).

Definition main (args : arguments) : M Z := p ← prepare args; carry_out args p;; mret 0%Z.
End run.

(** * Inventories *)

(** [_INVENTORY_NAME.match]: its [$] also accepts a final line break. *)
Definition name_char (a : ascii) : bool := is_lower a || is_digit a || is_char "_" a || is_char "-" a.
Definition inventory_name_match (name : string) : bool :=
  let body := if endswith name newline_str
              then String.substring 0 (String.length name - 1) name else name in
  match body with
  | String a rest => (is_lower a || is_digit a) && sforall name_char rest && (String.length rest <=? 62)%nat
  | EmptyString => false
  end.
Definition inventory_name_problem (name : string) (existing : string → bool) : string :=
  if negb (inventory_name_match name) then "invalid" else if existing name then "exists" else "".
