(* ===== verification/SeedFacts.v ===== *)
(** What a seed promises: one that is refused leaves every file as it was, one
    that succeeds wrote an [.env] of valid answers and nothing else it was not
    asked to, and a rerun asks nothing. *)
From S2P Require Import Prelude PyStr PyNum PyVal Effects Host OnboxConfig RenderKnobs EnvFile EnvFileFacts Seed.

#[local] Open Scope string_scope.

Section facts.
Context {E : Type} `{!Outside E, !Terminal E} (knobs : asked) (reg : registry) (out : outside).
Abbreviation W := (@world E).
Implicit Types (w : W).

(** * A run that writes nothing *)

Definition still w w' : Prop := files w' = files w.
#[export] Instance still_preorder : PreOrder still.
Proof. split; [by intros w|]. intros w1 w2 w3 H1 H2. unfold still in *. congruence. Qed.

Lemma op_on_still p : runs_in still (op_on p).
Proof. intros w r w' H. unfold op_on in H. destruct (refuses p (ext w)). by simplify_eq. Qed.
Lemma spawn_still argv env : runs_in still (spawn argv env).
Proof. intros w r w' H. unfold spawn in H. destruct (run_cmd _ _ _ _). by simplify_eq. Qed.
Lemma input_still : runs_in still (input (E := E)).
Proof. intros w r w' H. unfold input in H. by destruct (lines (ext w)); simplify_eq. Qed.
Lemma prompt_still d a o : runs_in still (prompt (E := E) d a o).
Proof. intros w r w' H. unfold prompt in H. destruct (typed _ _ _ _). by simplify_eq. Qed.
#[local] Hint Resolve op_on_still spawn_still input_still prompt_still : runs.

Lemma read_text_still p : runs_in still (read_text p).
Proof. unfold read_text. runs_walk. Qed.
Lemma exists_still p : runs_in still (exists_path p).
Proof. unfold exists_path. runs_walk. Qed.
Lemma pure_still {A} (r : res A) : runs_in still (Seed.pure (E := E) r).
Proof. unfold Seed.pure. runs_walk. Qed.
Lemma fill_still provided key d a o ask : runs_in still (fill (E := E) provided key d a o ask).
Proof. unfold fill, die. runs_walk. Qed.
#[local] Hint Resolve read_text_still exists_still pure_still fill_still : runs.
Lemma collect_still provided ask : runs_in still (collect_env_values (E := E) knobs provided ask).
Proof. unfold collect_env_values. apply runs_foldST; [apply _|]. intros. unfold collect_step. runs_walk. Qed.
Lemma key_still path : runs_in still (ensure_ssh_key out path).
Proof. unfold ensure_ssh_key, die. runs_walk. Qed.
Lemma override_still v : runs_in still (resolve_admin_override (E := E) v).
Proof. unfold resolve_admin_override, die. runs_walk. Qed.
Lemma input_file_still path : runs_in still (load_input reg out path).
Proof. unfold load_input, die. runs_walk. Qed.
Lemma target_still args inp : runs_in still (target (E := E) out args inp).
Proof. unfold target. runs_walk. Qed.
Lemma provided_still args inp dir : runs_in still (env_provided args inp dir).
Proof. unfold env_provided, die. runs_walk. Qed.
#[local] Hint Resolve collect_still key_still override_still input_file_still target_still provided_still : runs.
Lemma prepare_still args : runs_in still (prepare knobs reg out args).
Proof. unfold prepare, die. runs_walk. Qed.

(** * How a run stops *)

(** Nothing is wrong with the machine: the seed itself refuses, with one of its
    two codes or with the one of the key generator. *)
Definition refusal (f : fault) w : Prop :=
  match f with
  | Died c => c = 1%Z ∨ c = 130%Z ∨ ∃ argv env r, (argv, env, inr r) ∈ ran w ∧ returncode r = c ∧ c ≠ 0%Z
  | _ => True
  end.
(** Only the machine fails. *)
Definition machine (f : fault) w : Prop := ∃ e, f = Raised e.

Lemma die_refusal {A} c : c = 1%Z ∨ c = 130%Z → faults_in refusal (die c : ST W fault A).
Proof. intros Hc. apply faults_throw. intros w. cbn. tauto. Qed.
Lemma raised_refusal e w : refusal (Raised e) w.
Proof. done. Qed.
Lemma raised_machine e w : machine (Raised e) w.
Proof. by exists e. Qed.
#[local] Hint Resolve raised_refusal raised_machine : core.

Lemma op_on_faults (P : fault → W → Prop) p : (∀ e w, P (Raised e) w) → faults_in P (op_on p).
Proof. intros Hp w f w' H. unfold op_on in H. destruct (refuses p (ext w)) as [[] e]; simplify_eq; auto. Qed.
Lemma modify_faults (P : fault → W → Prop) h : faults_in P (modify h).
Proof. by intros w f w' [? _]%pair_equal_spec. Qed.
#[local] Hint Resolve op_on_faults modify_faults : runs.

Section files.
Context (P : fault → W → Prop) (raised : ∀ e w, P (Raised e) w).
Lemma read_text_faults p : faults_in P (read_text p).
Proof. unfold read_text. faults_walk. Qed.
Lemma exists_faults p : faults_in P (exists_path p).
Proof. unfold exists_path. faults_walk. Qed.
Lemma write_text_faults p text : faults_in P (write_text p text).
Proof. unfold write_text, open_write, put_text. faults_walk. Qed.
Lemma pure_faults {A} (r : res A) : faults_in P (Seed.pure r).
Proof. unfold Seed.pure. faults_walk. Qed.
Lemma input_faults : faults_in P (input (E := E)).
Proof. intros w f w' H. unfold input in H. destruct (lines (ext w)); simplify_eq; auto. Qed.
Lemma prompt_faults d a o : faults_in P (prompt d a o).
Proof. intros w f w' H. unfold prompt in H. destruct (typed _ _ _ _) as [[] ?]; simplify_eq; auto. Qed.
Lemma make_temp_faults : faults_in P (make_temp (E := E)).
Proof. intros w f w' H. unfold make_temp in H. destruct (mkstemp _ _) as [[] ?]; simplify_eq; auto. Qed.
End files.
#[local] Hint Resolve read_text_faults exists_faults write_text_faults pure_faults input_faults prompt_faults make_temp_faults die_refusal : runs.

Lemma carry_out_machine args p : faults_in machine (carry_out knobs out args p).
Proof.
  unfold carry_out, write_inventory_files, emit_env, emit_hosts_yml_entry, emit_hosts_yml, write_secrets_out, open_write, put_text, chmod. faults_walk.
Qed.

Lemma key_refusal path : faults_in refusal (ensure_ssh_key out path).
Proof.
  unfold ensure_ssh_key. apply faults_bind; [auto with runs|intros private]. apply faults_bind; [auto with runs|intros public].
  destruct (_ && _); [apply faults_ret|]. apply faults_bind; [auto with runs|intros answer]. destruct (negb _); [auto with runs|].
  intros w f w' [(e & H & [= ->])|(r & w1 & H1 & H)]%bind_inv.
  - unfold spawn in H. destruct (run_cmd _ _ _ _) as [[] ?]; by simplify_eq.
  - destruct (negb _) eqn:Hz; [|by apply pair_equal_spec in H as [? _]]. unfold die, throw in H. simplify_eq.
    apply negb_true_iff, bool_decide_eq_false in Hz. right; right. unfold spawn in H1.
    destruct (run_cmd _ _ _ _) as [[x|c] e] eqn:Er; simplify_eq. eexists _, _, r. split_and!; [|done|done].
    cbn. apply elem_of_app. right. by left.
Qed.
#[local] Hint Resolve key_refusal : runs.
Lemma fill_refusal provided key d a o ask : faults_in refusal (fill (E := E) provided key d a o ask).
Proof. unfold fill. faults_walk. Qed.
#[local] Hint Resolve fill_refusal : runs.
Lemma prepare_refusal args : faults_in refusal (prepare knobs reg out args).
Proof.
  unfold prepare, load_input, target, env_provided, resolve_admin_override, collect_env_values. faults_walk.
  apply faults_foldST. intros. unfold collect_step. faults_walk.
Qed.

(** Claim C21: a refused seed changes nothing.  When a run ends with an exit
    code other than success - a name the server holds, no answer, an invalid
    value, an aborted confirmation, a key that was not generated - every file
    is as it was, and the code is 1, 130 or the key generator's own. *)
Theorem refused_seed_untouched args w c w' :
  main knobs reg out args w = (inl (Died c), w') →
  files w' = files w ∧
  (c = 1%Z ∨ c = 130%Z ∨ ∃ argv env r, (argv, env, inr r) ∈ ran w' ∧ returncode r = c ∧ c ≠ 0%Z).
Proof.
  unfold main. intros [(e & H & [= <-])|(p & w1 & _ & H)]%bind_inv.
  - split; [by eapply prepare_still|by eapply prepare_refusal in H].
  - apply bind_inv in H as [(e & H & [= <-])|(u & w2 & _ & H)]; [|by apply pair_equal_spec in H as [? _]].
    by apply carry_out_machine in H as [x [= ?]].
Qed.

(** * The answers *)

(** What the seed takes for a key: blank where the template has no default and
    no example, else filled in and one of the key's values. *)
Definition answer_ok (key default_ v : string) : Prop :=
  (v = "" ∧ default_ = "" ∧ key ∉ ENV_EXAMPLED knobs) ∨
  (is_filled (VStr v) = true ∧
   allowed (effective_options default_ (default [] (dget key (ENV_OPTIONS knobs)))) v = true).

Lemma filled_strip s : strip s ≠ "" → is_placeholder (strip s) = false → is_filled (VStr (strip s)) = true.
Proof. intros Hs Hp. unfold is_filled. cbn [py_str]. cbv zeta. rewrite strip_idemp, Hp. by rewrite bool_decide_false. Qed.

Lemma given_answer d a o raw v : given d a o raw = Some v → v = "" ∨ is_filled (VStr v) = true.
Proof.
  unfold given. assert (Hb : ∀ b : bool, is_filled (VStr (if b then "true" else "false")) = true) by by intros [].
  set (s := match raw with VNone => "" | _ => _ end). destruct raw; try (intros [= <-]; by auto);
    (case_bool_decide as Hs; cbn [negb andb]; [destruct a; cbn; intros; simplify_eq; auto|];
     destruct (is_placeholder s) eqn:Hp; cbn [negb]; [rewrite andb_false_r; done|];
     destruct (allowed _ s); [|done]; intros [= <-]; right; (by apply filled_strip) || by destruct Hs).
Qed.
Lemma answered_answer d a eff line v : answered d a eff line = Some v → v = "" ∨ is_filled (VStr v) = true ∨ v = d.
Proof.
  unfold answered. destruct (bool_decide_reflect (strip line = "")) as [Hr|Hr]; cbv zeta.
  - destruct (_ && _); [done|]. destruct (is_placeholder d); [done|]. destruct (_ || a); [|done]. intros [= <-]. auto.
  - destruct (_ && _); [done|]. destruct (is_placeholder (strip line)) eqn:Hp; [done|].
    destruct (_ || a); [|done]. intros [= <-]. right; left. by apply filled_strip.
Qed.
Lemma typed_answer d a eff ls v rest : typed d a eff ls = (Some v, rest) → v = "" ∨ is_filled (VStr v) = true ∨ v = d.
Proof.
  induction ls as [|l ls IH]; [done|]. cbn. destruct (answered d a eff l) as [v'|] eqn:Ha; [|done].
  intros [= -> ->]. by eapply answered_answer.
Qed.
Lemma fill_answer provided key d a o ask w v w' : fill provided key d a o ask w = (inr v, w') →
  v = "" ∨ is_filled (VStr v) = true ∨ v = d.
Proof.
  unfold fill. destruct (dget key provided ≫= given d a o) as [v'|] eqn:Hg.
  - intros [-> _]%ret_ok. apply bind_Some in Hg as (raw & _ & Hg). apply given_answer in Hg. tauto.
  - destruct (_ || _).
    + destruct (_ && _); [intros [-> _]%ret_ok; auto|]. destruct a; [intros [-> _]%ret_ok; auto|]. done.
    + unfold prompt. destruct (typed _ _ _ _) as [[v'|] rest] eqn:Ht; [|done]. intros [[= <-] _]%pair_equal_spec.
      by eapply typed_answer.
Qed.

(** Values gathered key by key. *)
Lemma gather {F V} (f : string * F → ST W fault V) l : NoDup l.*1 → ∀ acc w values w',
  foldST (λ values kv, v ← f kv; mret (dset kv.1 v values)) acc l w = (inr values, w') →
  (∀ kv, kv ∈ l → ∃ v w1 w2, dget kv.1 values = Some v ∧ f kv w1 = (inr v, w2)) ∧
  (∀ k, k ∉ l.*1 → dget k values = dget k acc).
Proof.
  induction l as [|[k x] l IH]; intros Hnd acc w values w' H.
  { cbn in H. apply ret_ok in H as [-> ->]. split; [by intros ? ?%elem_of_nil|done]. }
  cbn [fmap list_fmap fst] in Hnd. apply NoDup_cons in Hnd as [Hk Hnd]. cbn [foldST] in H.
  apply bind_ok in H as (acc' & w1 & H1 & H). apply bind_ok in H1 as (v & w2 & Hv & H1). apply ret_ok in H1 as [-> ->].
  destruct (IH Hnd _ _ _ _ H) as [Hin Hout]. split.
  - intros kv [->|Hkv]%elem_of_cons; [|by apply Hin]. exists v, w, w2. split; [|done]. cbn [fst] in *.
    rewrite Hout by done. apply dget_dset_eq.
  - intros k' Hk'. apply not_elem_of_cons in Hk' as [Hne Hk']. rewrite Hout by done. by apply dget_dset_ne.
Qed.
Lemma collect_answers provided ask w values w' : NoDup (ENV_KEYS knobs).*1 →
  collect_env_values knobs provided ask w = (inr values, w') →
  ∀ key d, (key, d) ∈ ENV_KEYS knobs → ∃ v, dget key values = Some v ∧ (v = "" ∨ is_filled (VStr v) = true ∨ v = d).
Proof.
  intros Hnd H key d Hin. unfold collect_env_values in H.
  apply (gather (λ kv, fill provided kv.1 kv.2 (bool_decide (kv.2 = "")) (default [] (dget kv.1 (ENV_OPTIONS knobs))) ask)) in H as [H _]; [|done].
  destruct (H _ Hin) as (v & w1 & w2 & Hv & Hf). exists v. split; [done|]. by eapply fill_answer.
Qed.

Lemma no_problem_ok values key d v : dget key values = Some v → (v = "" ∨ is_filled (VStr v) = true ∨ v = d) →
  env_problem knobs (map (λ kv, (kv.1, VStr kv.2)) values) (key, d) = false → answer_ok key d v.
Proof.
  intros Hv Hans. unfold env_problem. rewrite dget_map, Hv. cbn [fmap option_fmap option_map default from_option id].
  destruct (is_filled (VStr v)) eqn:Hf; cbn [negb].
  - rewrite andb_false_r. intros H%negb_false_iff. right. split; [done|exact H].
  - rewrite andb_true_r. case_bool_decide as Hd; [|done]. case_bool_decide as He; [done|]. intros _. left. subst d.
    destruct Hans as [->|[?| ->]]; by split_and!.
Qed.

(** What was decided before anything is written. *)
Record decided (args : arguments) w (p : plan) : Prop := {
  decided_answers : ∀ key d, (key, d) ∈ ENV_KEYS knobs → ∃ v, dget key (p_values p) = Some v ∧ answer_ok key d v;
  decided_secrets : p_secrets p = [] ∨ ∃ pin, (ADMIN_PASSWORD_MIN_LEN ≤ String.length pin)%nat ∧ p_secrets p = [(ADMIN_PASSWORD_KEY, pin)]
}.
Lemma override_ok v w secrets w' : resolve_admin_override v w = (inr secrets, w') →
  secrets = [] ∨ ∃ pin, (ADMIN_PASSWORD_MIN_LEN ≤ String.length pin)%nat ∧ secrets = [(ADMIN_PASSWORD_KEY, pin)].
Proof.
  unfold resolve_admin_override. intros (raw & w1 & _ & H)%bind_ok. destruct (_ || _); [apply ret_ok in H as [-> _]; by left|].
  destruct (_ <? _)%nat eqn:Hl; [done|]. apply ret_ok in H as [-> _]. right. eexists. split; [|done]. by apply Nat.ltb_ge.
Qed.
Lemma prepare_ok args w p w' : NoDup (ENV_KEYS knobs).*1 → prepare knobs reg out args w = (inr p, w') → decided args w p.
Proof.
  intros Hnd. unfold prepare. intros (inp & w1 & _ & H)%bind_ok. apply bind_ok in H as (refused & w2 & _ & H).
  destruct (negb _) in H; [done|]. apply bind_ok in H as ([dir inventory] & w3 & _ & H). apply bind_ok in H as (provided & w4 & _ & H).
  apply bind_ok in H as (has_env & w5 & _ & H). apply bind_ok in H as (u & w6 & _ & H). apply bind_ok in H as (rerun & w7 & _ & H).
  apply bind_ok in H as (line & w8 & _ & H). apply bind_ok in H as (values & w9 & Hvals & H).
  apply bind_ok in H as (host & w10 & _ & H). apply bind_ok in H as (secrets & w11 & Hsec & H).
  apply bind_ok in H as (pass & w12 & _ & H). destruct (negb _) eqn:Hprob in H; [done|].
  apply bind_ok in H as (yes & w13 & _ & H). apply bind_ok in H as (key & w14 & _ & H). apply bind_ok in H as (done_ & w15 & _ & H).
  apply ret_ok in H as [-> _]. split; cbn; [|by eapply override_ok].
  apply negb_false_iff, bool_decide_eq_true in Hprob. unfold validate_install_structural in Hprob.
  assert (Hnone : List.filter (env_problem knobs (map (λ kv, (kv.1, VStr kv.2)) values)) (ENV_KEYS knobs) = [])
    by (apply length_zero_iff_nil; lia).
  intros key' d Hin. destruct (collect_answers _ _ _ _ _ Hnd Hvals _ _ Hin) as (v & Hv & Hans). exists v. split; [done|].
  eapply no_problem_ok; [done..|]. destruct (env_problem _ _ _) eqn:Hp; [|done].
  assert (Hbad : (key', d) ∈ List.filter (env_problem knobs (map (λ kv, (kv.1, VStr kv.2)) values)) (ENV_KEYS knobs)).
  { apply list_elem_of_In, filter_In. split; [by apply list_elem_of_In|done]. }
  rewrite Hnone in Hbad. by apply elem_of_nil in Hbad.
Qed.

(** Which inventory the arguments and the input file name: by its directory,
    by its name, by the file, or by what is typed, ["prod"] when nothing is. *)
Definition names_inventory (args : arguments) (inp : install) (lines : list string) (dir : string) : Prop :=
  if bool_decide (a_inventory_path args = "") then
    ∃ name, dir = join_path (INVENTORY_ROOT out) name ∧
      if bool_decide (a_inventory args = "") then
        if truthy (i_inventory inp) then i_inventory inp = VStr name
        else if isatty then (typed "prod" false (effective_options "prod" []) lines).1 = Some name
        else name = "prod"
      else name = a_inventory args
  else dir = expanduser out (a_inventory_path args).
Lemma target_names args inp w dir inventory w' :
  target out args inp w = (inr (dir, inventory), w') → names_inventory args inp (lines (ext w)) dir.
Proof.
  unfold target, names_inventory. case_bool_decide as Ha; cbn [negb]; [|by intros [[= <- _] _]%pair_equal_spec].
  intros (v & w1 & Hv & H)%bind_ok. apply lift_bind_ok in H as (name & Hname & H). apply ret_ok in H as [[= -> ->] _].
  exists name. split; [done|]. clear Ha. revert Hv. case_bool_decide as Hi; cbn [negb].
  2: { intros [-> _]%ret_ok. by injection Hname as ->. }
  destruct (truthy (i_inventory inp)).
  { intros [-> _]%ret_ok. destruct (i_inventory inp); try done. by injection Hname as ->. }
  intros (x & w2 & Hx & Hv)%bind_ok. apply ret_ok in Hv as [-> _]. injection Hname as ->. revert Hx.
  unfold fill, prompt. cbn [dget mbind option_bind negb orb]. destruct isatty; cbn [negb].
  - destruct (typed _ _ _ (lines (ext w))) as [[y|] rest]; intros [H _]%pair_equal_spec; [by injection H as ->|done].
  - change (is_placeholder "prod") with false. rewrite bool_decide_false by done. by intros [-> _]%ret_ok.
Qed.
Lemma prepare_dir args w p w' : prepare knobs reg out args w = (inr p, w') →
  ∃ inp w1, load_input reg out (a_input args) w = (inr inp, w1) ∧ names_inventory args inp (lines (ext w1)) (p_dir p).
Proof.
  unfold prepare. intros (inp & w1 & Hinp & H)%bind_ok. exists inp, w1. split; [done|].
  apply lift_bind_ok in H as (refused & _ & H).
  destruct (negb _) in H; [done|]. apply bind_ok in H as ([dir inventory] & w3 & Hd%target_names & H).
  repeat (apply bind_ok in H as (? & ? & _ & H)). destruct (negb _) in H; [done|].
  repeat (apply bind_ok in H as (? & ? & _ & H)). by apply ret_ok in H as [-> _].
Qed.

(** * What is written *)

Definition text_at w (p : string) : option string := f_text <$> files w !! p.

Lemma op_on_ok p w u w' : op_on p w = (inr u, w') → files w' = files w.
Proof. unfold op_on. destruct (refuses p (ext w)) as [[] e]; intros; by simplify_eq. Qed.
Lemma read_file_ok p w t w' : read_text p w = (inr t, w') → text_at w p = Some t ∧ files w' = files w.
Proof.
  unfold read_text. intros (u & w1 & H1%op_on_ok & H)%bind_ok. apply bind_ok in H as (f & w2 & H2 & H).
  apply pair_equal_spec in H2 as [[= <-] <-]. destruct (files w1 !! p) as [f|] eqn:Hf; [|done].
  apply ret_ok in H as [-> ->]. unfold text_at. by rewrite <-H1, Hf.
Qed.
Lemma open_put_ok p mode text w u w' : (open_write p mode;; put_text p text) w = (inr u, w') →
  ∃ m, files w' = <[p := {| f_text := text; f_mode := m |}]> (files w).
Proof.
  intros (u1 & w1 & H1 & H)%bind_ok. unfold open_write in H1. apply bind_ok in H1 as (u2 & w2 & H2%op_on_ok & H1).
  unfold put_text in H. apply bind_ok in H as (u3 & w3 & H3%op_on_ok & H). apply pair_equal_spec in H1 as [_ <-].
  apply pair_equal_spec in H as [_ <-]. cbn in *. rewrite H3, H2. eexists. rewrite alter_insert_eq. by cbn.
Qed.
Lemma emit_env_ok template values path keep w u w' : emit_env template values path keep w = (inr u, w') →
  ∃ m, files w' = <[path := {| f_text := emit_text template values keep (text_at w path); f_mode := m |}]> (files w).
Proof.
  unfold emit_env. intros (there & w1 & H1 & H)%bind_ok. apply pair_equal_spec in H1 as [[= <-] <-].
  apply bind_ok in H as (old & w2 & Hold & H). assert (old = text_at w path ∧ files w2 = files w) as [-> Hf].
  { unfold text_at. destruct (files w !! path) as [f|] eqn:Hf; cbn in Hold.
    - apply bind_ok in Hold as (t & w3 & [Ht Hw]%read_file_ok & Hr). apply ret_ok in Hr as [-> ->].
      unfold text_at in Ht. rewrite Hf in Ht. by split.
    - by apply ret_ok in Hold as [-> ->]. }
  rewrite <-Hf. by apply open_put_ok in H.
Qed.
Definition only_at (q : string) w w' : Prop := ∀ p, p ≠ q → files w' !! p = files w !! p.
Lemma write_text_only path text w u w' : write_text path text w = (inr u, w') → only_at path w w'.
Proof. intros (m & Hf)%open_put_ok p Hp. rewrite Hf. by rewrite lookup_insert_ne. Qed.
Lemma emit_hosts_only path w u w' : emit_hosts_yml out path w = (inr u, w') → only_at path w w'.
Proof.
  unfold emit_hosts_yml. intros (there & w1 & H1 & H)%bind_ok. apply pair_equal_spec in H1 as [[= <-] <-].
  destruct (bool_decide _); [by apply ret_ok in H as [_ ->]|]. apply bind_ok in H as (t & w2 & [_ Hf]%read_file_ok & H).
  apply write_text_only in H. intros p Hp. by rewrite (H p Hp), Hf.
Qed.
Lemma emit_entry_only path name w u w' : emit_hosts_yml_entry out path name w = (inr u, w') → only_at path w w'.
Proof.
  unfold emit_hosts_yml_entry. intros (there & w1 & H1 & H)%bind_ok. apply pair_equal_spec in H1 as [[= <-] <-].
  apply bind_ok in H as (data & w2 & H2 & H). assert (Hf : files w2 = files w).
  { destruct (bool_decide _); [|by apply ret_ok in H2 as [_ ->]]. apply bind_ok in H2 as (t & w3 & [_ Hf]%read_file_ok & H2).
    apply bind_ok in H2 as (raw & w4 & H4 & H2). apply ret_ok in H2 as [_ ->]. by apply lift_ok in H4 as [_ ->]. }
  destruct data; try done. apply bind_ok in H as (d' & w3 & H3 & H). apply lift_ok in H3 as [_ ->].
  apply write_text_only in H. intros p Hp. by rewrite (H p Hp), Hf.
Qed.
Lemma secrets_out_ok path secrets w u w' : write_secrets_out out path secrets w = (inr u, w') →
  files w' = <[path := {| f_text := safe_dump out (VDict (adopt_payload secrets)); f_mode := 384 |}]> (files w).
Proof.
  unfold write_secrets_out. intros (u1 & w1 & H1 & H)%bind_ok. apply bind_ok in H as (u2 & w2 & H2 & H).
  assert (Hop : (open_write path 384;; put_text path (safe_dump out (VDict (adopt_payload secrets)))) w = (inr u2, w2))
    by (etrans; [apply (bind_run _ _ _ _ _ H1)|exact H2]).
  apply open_put_ok in Hop as [m Hf]. unfold chmod in H. apply bind_ok in H as (u3 & w3 & H3%op_on_ok & H).
  apply pair_equal_spec in H as [_ <-]. cbn. rewrite H3, Hf. by rewrite alter_insert_eq.
Qed.

(** Where the map for the converge goes: the path asked for, or a new file. *)
Definition map_path (args : arguments) w (path : string) : Prop :=
  if bool_decide (a_secrets_out args = "") then files w !! path = None else path = expanduser out (a_secrets_out args).

(** [mkstemp] makes a file that was not there. *)
Class Fresh : Prop := fresh_name fs (e : E) name e' : mkstemp fs e = (inr name, e') → fs !! name = None.
Context {fresh : Fresh}.

Lemma env_not_hosts dir : join_path dir ".env" ≠ join_path dir "hosts.yml".
Proof. unfold join_path. cbn. intros H%sapp_inj. done. Qed.

Lemma map_path_ok args w path w' :
  (if negb (bool_decide (a_secrets_out args = "")) then mret (expanduser out (a_secrets_out args)) else make_temp) w = (inr path, w') →
  map_path args w path ∧ only_at path w w'.
Proof.
  unfold map_path. case_bool_decide; cbn [negb]; [|by intros [-> ->]%ret_ok].
  unfold make_temp. destruct (mkstemp (files w) (ext w)) as [[x|name] e] eqn:Hm; [done|].
  intros [[= <-] <-]%pair_equal_spec. apply fresh_name in Hm. split; [done|]. intros p Hp. cbn. by rewrite lookup_insert_ne.
Qed.

Lemma carry_out_ok args p w u w' : carry_out knobs out args p w = (inr u, w') →
  ∃ template path w1,
    env_template knobs = Ok template ∧ map_path args w1 path ∧
    (∃ m, files w1 !! join_path (p_dir p) ".env" =
      Some {| f_text := emit_text template (p_values p) true (text_at w (join_path (p_dir p) ".env")); f_mode := m |}) ∧
    (∀ q, q ≠ join_path (p_dir p) ".env" → q ≠ join_path (p_dir p) "hosts.yml" → files w1 !! q = files w !! q) ∧
    files w' !! path = Some {| f_text := safe_dump out (VDict (adopt_payload (p_secrets p))); f_mode := 384 |} ∧
    only_at path w1 w'.
Proof.
  unfold carry_out. intros (template & w1 & [Ht ->]%lift_ok & H)%bind_ok. apply bind_ok in H as (u2 & w3 & H1 & H).
  unfold write_inventory_files in H1. apply bind_ok in H1 as (u1 & w2 & [m H2]%emit_env_ok & H3). apply bind_ok in H as (path & w4 & [Hmap Honly]%map_path_ok & H).
  apply secrets_out_ok in H. assert (Hh : only_at (join_path (p_dir p) "hosts.yml") w2 w3)
    by (destruct (p_host p); [by eapply emit_entry_only|by eapply emit_hosts_only]).
  exists template, path, w3. split_and!; [done|done| | | |].
  - exists m. rewrite (Hh _ (env_not_hosts _)), H2. apply lookup_insert_eq.
  - intros q Henv Hhosts. rewrite (Hh _ Hhosts), H2. by apply lookup_insert_ne.
  - rewrite H. apply lookup_insert_eq.
  - intros q Hq. rewrite H, lookup_insert_ne by done. by apply Honly.
Qed.

(** Claim C20: a seed that succeeds wrote a valid inventory, and the one it
    was asked for: the directory given, or the name given, or the input file's,
    or the one typed, under the root of inventories.  Every key of the registry
    has an answer that is filled in and one of its values, or is blank where
    blank is accepted; the [.env] is the registry's template with those
    answers, what it held before winning; and the seed changed no file that was
    there but this inventory's [.env], its [hosts.yml] and the map asked for.
    What [ssh-keygen] does, run for a key that is not there, is outside. *)
Theorem seed_writes_valid args w c w' :
  NoDup (ENV_KEYS knobs).*1 →
  (∀ dir, a_secrets_out args ≠ "" → expanduser out (a_secrets_out args) ≠ join_path dir ".env") →
  main knobs reg out args w = (inr c, w') →
  ∃ inp w1 dir values template,
    c = 0%Z ∧ load_input reg out (a_input args) w = (inr inp, w1) ∧ names_inventory args inp (lines (ext w1)) dir ∧
    env_template knobs = Ok template ∧
    (∀ key d, (key, d) ∈ ENV_KEYS knobs → ∃ v, dget key values = Some v ∧ answer_ok key d v) ∧
    text_at w' (join_path dir ".env") = Some (emit_text template values true (text_at w (join_path dir ".env"))) ∧
    ∀ q f, files w !! q = Some f → q ≠ join_path dir ".env" → q ≠ join_path dir "hosts.yml" →
      (a_secrets_out args ≠ "" → q ≠ expanduser out (a_secrets_out args)) → files w' !! q = Some f.
Proof.
  intros Hnd Hsep. unfold main. intros (p & w1 & Hp & H)%bind_ok. apply bind_ok in H as (u & w2 & H & Hr). apply ret_ok in Hr as [-> ->].
  pose proof (prepare_still args _ _ _ Hp) as Hstill. destruct (prepare_dir _ _ _ _ Hp) as (inp & w0 & Hinp & Hdir).
  apply prepare_ok in Hp as [Hans _]; [|done].
  apply carry_out_ok in H as (template & path & w3 & Ht & Hmap & [m Henv] & Hrest & _ & Honly).
  assert (Hpath : path ≠ join_path (p_dir p) ".env").
  { unfold map_path in Hmap. case_bool_decide; [congruence|]. subst path. by apply Hsep. }
  exists inp, w0, (p_dir p), (p_values p), template. split_and!; [done..| |].
  - unfold text_at in *. rewrite Honly, Henv by done. cbn. by rewrite Hstill.
  - intros q f Hq He Hh Hs. rewrite Honly; [rewrite Hrest by done; by rewrite Hstill|].
    intros ->. unfold map_path in Hmap. case_bool_decide; [|by apply Hs].
    rewrite Hrest in Hmap by done. rewrite Hstill in Hmap. congruence.
Qed.

(** The map for the converge.  After a seed that succeeds it is a
    file of its owner's only, and holds nothing, or one admin password of at
    least sixteen characters; the file is the one asked for, or one that was
    not there before. *)
Theorem seed_map_confined args w c w' :
  NoDup (ENV_KEYS knobs).*1 → main knobs reg out args w = (inr c, w') →
  ∃ path secrets,
    files w' !! path = Some {| f_text := safe_dump out (VDict secrets); f_mode := 384 |} ∧
    (secrets = [] ∨ ∃ pin, (16 ≤ String.length pin)%nat ∧ secrets = [("admin_password", VStr pin)]) ∧
    (a_secrets_out args ≠ "" → path = expanduser out (a_secrets_out args)).
Proof.
  intros Hnd. unfold main. intros (p & w1 & Hp & H)%bind_ok. apply bind_ok in H as (u & w2 & H & Hr). apply ret_ok in Hr as [-> ->].
  apply prepare_ok in Hp as [_ Hsec]; [|done]. apply carry_out_ok in H as (template & path & w3 & _ & Hmap & _ & _ & Hfile & _).
  exists path, (adopt_payload (p_secrets p)). split_and!; [done| |].
  - destruct Hsec as [->|(pin & Hl & ->)]; [by left|]. unfold adopt_payload. cbn [List.filter].
    destruct (_ && _); [|by left]. right. by exists pin.
  - intros Hs. unfold map_path in Hmap. by rewrite bool_decide_false in Hmap.
Qed.

(** * A rerun *)

(** What the operating system and [mkstemp] do leaves the typed lines. *)
Class Quiet : Prop := {
  quiet_refuses p (e : E) : lines (refuses p e).2 = lines e;
  quiet_mkstemp fs (e : E) : lines (mkstemp fs e).2 = lines e
}.
Context {quiet : Quiet}.

Definition unread w w' : Prop := lines (ext w') = lines (ext w).
#[local] Instance unread_preorder : PreOrder unread.
Proof. split; [by intros w|]. intros w1 w2 w3 H1 H2. unfold unread in *. congruence. Qed.
Lemma op_on_unread p : runs_in unread (op_on p).
Proof.
  intros w r w' H. unfold op_on in H. pose proof (quiet_refuses p (ext w)) as Hq. destruct (refuses p (ext w)). by simplify_eq.
Qed.
Lemma set_files_unread f : runs_in unread (modify (set_files f) : ST W fault unit).
Proof. apply runs_modify. by intros w. Qed.
Lemma make_temp_unread : runs_in unread (make_temp (E := E)).
Proof.
  intros w r w' H. unfold make_temp in H. pose proof (quiet_mkstemp (files w) (ext w)) as Hq.
  destruct (mkstemp (files w) (ext w)) as [[x|name] e]; by simplify_eq.
Qed.
#[local] Hint Resolve op_on_unread set_files_unread make_temp_unread : runs.
Lemma read_text_unread p : runs_in unread (read_text p).
Proof. unfold read_text. runs_walk. Qed.
Lemma exists_unread p : runs_in unread (exists_path p).
Proof. unfold exists_path. runs_walk. Qed.
Lemma pure_unread {A} (r : res A) : runs_in unread (Seed.pure (E := E) r).
Proof. unfold Seed.pure. runs_walk. Qed.
#[local] Hint Resolve read_text_unread exists_unread pure_unread : runs.
Lemma fill_unread provided key d a o : runs_in unread (fill (E := E) provided key d a o false).
Proof. unfold fill, die. cbn [negb orb]. runs_walk. Qed.
Lemma collect_unread provided : runs_in unread (collect_env_values (E := E) knobs provided false).
Proof.
  unfold collect_env_values. apply runs_foldST; [apply _|]. intros. unfold collect_step.
  apply runs_bind; [apply _|apply fill_unread|]. runs_walk.
Qed.
Lemma carry_out_unread args p : runs_in unread (carry_out knobs out args p).
Proof.
  unfold carry_out, write_inventory_files, emit_env, emit_hosts_yml_entry, emit_hosts_yml, write_secrets_out, write_text, open_write, put_text, chmod. runs_walk.
Qed.

(** Nothing is written and nothing is read, from one state. *)
Definition idle_at {A} (c : ST W fault A) w : Prop := ∀ r w', c w = (r, w') → still w w' ∧ unread w w'.
Lemma idle_bind {A B} (c : ST W fault A) (f : A → ST W fault B) w : idle_at c w →
  (∀ a w1, c w = (inr a, w1) → files w1 = files w → idle_at (f a) w1) → idle_at (c ≫= f) w.
Proof.
  intros Hc Hf r w' [(e & H & _)|(a & w1 & H1 & H)]%bind_inv; [by eapply Hc|].
  destruct (Hc _ _ H1) as [S1 U1]. destruct (Hf a w1 H1 S1 _ _ H) as [S2 U2]. split; by etrans.
Qed.
Lemma idle_of {A} (c : ST W fault A) w : runs_in still c → runs_in unread c → idle_at c w.
Proof. intros Hs Hu r w' H. split; [by eapply Hs|by eapply Hu]. Qed.

(** The answer to a key that nobody is asked for. *)
Definition unasked (provided : dict val) (key d : string) : option string :=
  let a := bool_decide (d = "") in
  match dget key provided ≫= given d a (default [] (dget key (ENV_OPTIONS knobs))) with
  | Some v => Some v
  | None => if negb a && negb (is_placeholder d) then Some d else if a then Some "" else None
  end.
Lemma fill_unasked provided key d w v w' :
  fill provided key d (bool_decide (d = "")) (default [] (dget key (ENV_OPTIONS knobs))) false w = (inr v, w') →
  unasked provided key d = Some v.
Proof.
  unfold fill, unasked. destruct (_ ≫= _); [by intros [-> _]%ret_ok|]. cbn [negb orb].
  destruct (_ && _); [by intros [-> _]%ret_ok|]. destruct (bool_decide _); [by intros [-> _]%ret_ok|done].
Qed.

(** The directory a command line names. *)
Definition named_dir (args : arguments) : option string :=
  if negb (bool_decide (a_inventory_path args = "")) then Some (expanduser out (a_inventory_path args))
  else if negb (bool_decide (a_inventory args = "")) then Some (join_path (INVENTORY_ROOT out) (a_inventory args)) else None.
Lemma target_named args inp w dir : named_dir args = Some dir →
  ∃ name, target out args inp w = (inr (dir, name), w).
Proof.
  unfold named_dir, target. intros H. destruct (negb _); [simplify_eq; eauto|]. destruct (negb _); simplify_eq. eauto.
Qed.

(** The pair of keys the inventory names. *)
Definition has_pair w (path : string) : Prop :=
  is_Some (files w !! expanduser out path) ∧ is_Some (files w !! (expanduser out path +:+ ".pub")).
Lemma exists_there p w : is_Some (files w !! p) → exists_path p w = (inr true, w).
Proof. intros H. unfold exists_path, gets. by rewrite bool_decide_true. Qed.
Lemma key_idle path w : has_pair w path → idle_at (ensure_ssh_key out path) w.
Proof.
  intros [H1 H2] r w' H. unfold ensure_ssh_key in H. rewrite (bind_run _ _ _ _ _ (exists_there _ _ H1)) in H.
  rewrite (bind_run _ _ _ _ _ (exists_there _ _ H2)) in H. apply pair_equal_spec in H as [_ <-]. by split.
Qed.

Lemma gets_idle {A} (h : W → A) w : idle_at (gets h) w.
Proof. intros r w' H. apply pair_equal_spec in H as [_ <-]. by split. Qed.
Lemma pure_idle {A} (r : res A) w : idle_at (Seed.pure r) w.
Proof. apply idle_of; [apply pure_still|apply pure_unread]. Qed.
Lemma ret_idle {A} (a : A) w : idle_at (mret a) w.
Proof. apply idle_of; apply runs_ret; apply _. Qed.
Lemma die_idle {A} c w : idle_at (die c : ST W fault A) w.
Proof. apply idle_of; apply runs_throw; apply _. Qed.
Lemma exists_idle p w : idle_at (exists_path p) w.
Proof. apply idle_of; [apply exists_still|apply exists_unread]. Qed.
#[local] Hint Resolve exists_idle gets_idle pure_idle ret_idle die_idle : runs.

Lemma env_unasked text w provided w' args inp dir : a_input args = "" → text_at w (join_path dir ".env") = Some text →
  env_provided args inp dir w = (inr provided, w') → provided = map (λ kv, (kv.1, VStr kv.2)) (read_existing_env text).
Proof.
  intros Hin Ht. unfold env_provided. rewrite Hin. cbn [negb bool_decide].
  intros (there & w1 & H1 & H)%bind_ok. apply pair_equal_spec in H1 as [_ <-]. destruct (negb _); [done|].
  apply bind_ok in H as (t & w2 & [Ht' _]%read_file_ok & H). apply ret_ok in H as [-> _]. congruence.
Qed.

Lemma prepare_idle args w dir text d :
  NoDup (ENV_KEYS knobs).*1 → ("SSH_PRIVATE_KEY", d) ∈ ENV_KEYS knobs → a_input args = "" → named_dir args = Some dir →
  text_at w (join_path dir ".env") = Some text → is_Some (files w !! join_path dir "hosts.yml") →
  (∀ key, unasked (map (λ kv, (kv.1, VStr kv.2)) (read_existing_env text)) "SSH_PRIVATE_KEY" d = Some key → has_pair w key) →
  idle_at (prepare knobs reg out args) w.
Proof.
  intros Hnd Hd Hin Hdir Htext Hhosts Hpair. unfold prepare.
  apply idle_bind; [unfold load_input; rewrite Hin; apply ret_idle|intros inp w1 _ F1].
  apply idle_bind; [auto with runs|intros refused w2 _ F2]. destruct (negb _); [auto with runs|].
  destruct (target_named args inp w2 dir Hdir) as [name Hname].
  apply idle_bind; [intros r w' H; rewrite Hname in H; apply pair_equal_spec in H as [_ <-]; by split|].
  intros [dir' inventory] w3 H3 F3. rewrite Hname in H3. simplify_eq.
  apply idle_bind; [unfold env_provided, die; apply idle_of; runs_walk|intros provided w4 H4 F4].
  assert (Hp : provided = map (λ kv, (kv.1, VStr kv.2)) (read_existing_env text)).
  { eapply env_unasked; [done| |exact H4]. unfold text_at in *. congruence. }
  apply idle_bind; [auto with runs|intros has_env w5 _ F5].
  apply idle_bind; [apply idle_of; runs_walk|intros _ w6 _ F6].
  apply idle_bind; [auto with runs|intros rerun w7 H7 F7]. rewrite exists_there in H7 by congruence.
  apply pair_equal_spec in H7 as [[= <-] <-].
  apply idle_bind; [auto with runs|intros line w8 _ F8]. cbn [negb].
  apply idle_bind; [apply idle_of; [apply collect_still|apply collect_unread]|intros values w9 H9 F9].
  rewrite Hin, (bool_decide_true ("" = "")) by done. apply idle_bind; [auto with runs|intros host w10 _ F10].
  apply idle_bind; [apply idle_of; unfold resolve_admin_override, die; runs_walk|intros secrets w11 _ F11].
  apply idle_bind; [auto with runs|intros pass w12 _ F12]. destruct (negb _); [auto with runs|].
  rewrite orb_true_r. apply idle_bind; [auto with runs|intros _ w13 _ F13].
  apply idle_bind; [auto with runs|intros key w14 H14 F14].
  apply idle_bind; [|auto with runs]. apply lift_ok in H14 as [H14 ->].
  assert (Hkey : has_pair w key); [|unfold has_pair in *; apply key_idle; unfold has_pair; congruence].
  apply Hpair. unfold collect_env_values in H9.
  apply (gather (λ kv, fill provided kv.1 kv.2 (bool_decide (kv.2 = "")) (default [] (dget kv.1 (ENV_OPTIONS knobs))) false)) in H9 as [H9 _]; [|done].
  destruct (H9 _ Hd) as (v & wa & wb & Hv & Hf). cbn [fst snd] in *. rewrite Hv in H14. simplify_eq.
  by eapply fill_unasked.
Qed.

(** Claim C22: a rerun asks nothing.  For an inventory the command line names
    whose [.env] and [hosts.yml] are there, with the key pair it uses, a run
    without an input file reads no line of the terminal, however it ends. *)
Theorem rerun_asks_nothing args w r w' dir text d :
  NoDup (ENV_KEYS knobs).*1 → ("SSH_PRIVATE_KEY", d) ∈ ENV_KEYS knobs →
  a_input args = "" → named_dir args = Some dir →
  text_at w (join_path dir ".env") = Some text → is_Some (files w !! join_path dir "hosts.yml") →
  (∀ key, unasked (map (λ kv, (kv.1, VStr kv.2)) (read_existing_env text)) "SSH_PRIVATE_KEY" d = Some key → has_pair w key) →
  main knobs reg out args w = (r, w') → lines (ext w') = lines (ext w).
Proof.
  intros Hnd Hd Hin Hdir Htext Hhosts Hpair. unfold main. intros [(e & H & _)|(p & w1 & H1 & H)]%bind_inv.
  - by eapply (prepare_idle args w).
  - apply (prepare_idle args w dir text d) in H1 as [_ H1]; try done. etrans; [|exact H1].
    assert (Hu : runs_in unread (carry_out knobs out args p;; mret 0%Z))
      by (apply runs_bind; [apply _|apply carry_out_unread|intros _; apply runs_ret; apply _]).
    exact (Hu _ _ _ H).
Qed.
End facts.

(** * A server, seeded *)

Module Sample.
(** The terminal alone is outside; a temporary file's name is taken once. *)
#[export] Instance outside_sample : Outside (list string) := {
  run_cmd argv env fs e := (inr {| returncode := 0; stdout := ""; stderr := "" |}, e);
  mkstemp fs e := if bool_decide (fs !! "/tmp/seed" = None) then (inr "/tmp/seed", e) else (inl OSError, e);
  refuses p e := (false, e);
  urandom_at _ := "000"%char;
  umask_mode := 420
}.
#[export] Instance terminal_sample : Terminal (list string) := { isatty := true; lines e := e; set_lines l _ := l }.
#[export] Instance fresh_sample : Fresh.
Proof. intros fs e name e' H. cbn in H. case_bool_decide; [|done]. by simplify_eq. Qed.
#[export] Instance quiet_sample : Quiet.
Proof. split; [done|]. intros fs e. cbn. by case_bool_decide. Qed.

Definition keys : list (string * string) := [("HOST_PUBLIC_IP", ""); ("SSH_PRIVATE_KEY", "/k"); ("LOCKDOWN", "true"); ("NOTE", "")].
Definition knobs : asked := {|
  ENV_KEYS := keys; ENV_OPTIONS := []; ENV_EXAMPLED := ["HOST_PUBLIC_IP"]; declared := ["HOST_PUBLIC_IP"; "DOMAIN"];
  env_template := Ok (env_text ["# The server"; "HOST_PUBLIC_IP="; "SSH_PRIVATE_KEY=/k"; "LOCKDOWN=true"; "NOTE="]) |}.
Definition reg : registry := {|
  EXTERNAL_SECRETS := ["smtp_password"]; PANEL_SECRETS := []; SETTINGS_CONFIG := []; ENV_SEEDED_CONFIG := [];
  ENV_RESEEDED_CONFIG := []; BOOTSTRAP_CONFIG := [] |}.
Definition install_file : dict val :=
  [("env", VDict [("HOST_PUBLIC_IP", VStr "203.0.113.7"); ("SSH_PRIVATE_KEY", VStr "/k"); ("LOCKDOWN", VBool true)]);
   ("secrets", VDict [("admin_password", VStr "correct horse battery")])].
Definition out : outside := {|
  INVENTORY_ROOT := "/inv"; HOSTS_YML_SKEL := "/skel";
  safe_load text := if bool_decide (text = "install") then Ok (VDict install_file)
                    else if bool_decide (text = "server") then Ok (VDict [("env", VDict [("DOMAIN", VStr "example.com")])]) else Ok VNone;
  safe_dump v := py_repr v; expanduser s := s; environ := [] |}.
Definition file_of (text : string) : file := {| f_text := text; f_mode := 420 |}.
Definition fresh_world : @world (list string) := {|
  files := <["/in" := file_of "install"]> (<["/bad" := file_of "server"]> (<["/k" := file_of ""]> (<["/k.pub" := file_of ""]> ∅)));
  ran := []; pos := 0; ext := ["you@example.com"; "a note"] |}.
Definition args : arguments := {| a_input := "/in"; a_inventory := "prod"; a_inventory_path := ""; a_secrets_out := "/out.yml"; a_no_confirm := true |}.

Definition old_env : string := env_text ["HOST_PUBLIC_IP=203.0.113.7"; "SSH_PRIVATE_KEY=/k"; "NOTE=kept"].
Definition old_world : @world (list string) := {|
  files := <["/inv/prod/.env" := file_of old_env]> (<["/inv/prod/hosts.yml" := file_of "hosts"]> (files fresh_world));
  ran := []; pos := 0; ext := ["unread"] |}.
Definition rerun_args : arguments := {| a_input := ""; a_inventory := "prod"; a_inventory_path := ""; a_secrets_out := ""; a_no_confirm := false |}.
Definition bad_args : arguments := {| a_input := "/bad"; a_inventory := "prod"; a_inventory_path := ""; a_secrets_out := ""; a_no_confirm := true |}.
End Sample.
#[local] Existing Instances Sample.outside_sample Sample.terminal_sample Sample.fresh_sample Sample.quiet_sample.


Lemma refused_seed_untouched_witness :
  let run := main Sample.knobs Sample.reg Sample.out Sample.bad_args Sample.fresh_world in
  run.1 = inl (Died 1) ∧ files run.2 = files Sample.fresh_world.
Proof.
  intros run. assert (H : run.1 = inl (Died 1)) by (vm_compute; reflexivity). split; [exact H|].
  destruct (refused_seed_untouched Sample.knobs Sample.reg Sample.out Sample.bad_args Sample.fresh_world 1 run.2) as [Hf _]; [|exact Hf].
  rewrite <-H. subst run. destruct (main _ _ _ _ _). reflexivity.
Defined.

Lemma keys_once : NoDup (ENV_KEYS Sample.knobs).*1.
Proof. cbn. repeat (constructor; [set_solver|]). constructor. Qed.
Lemma args_apart dir : a_secrets_out Sample.args ≠ "" → expanduser Sample.out (a_secrets_out Sample.args) ≠ join_path dir ".env".
Proof.
  intros _ H. apply (f_equal String.length) in H as Hl. unfold join_path in *. cbn in *. rewrite length_sapp in Hl. cbn in Hl.
  do 3 (destruct dir as [|? dir]; [cbn in Hl; lia|]). destruct dir; [|cbn in Hl; lia]. done.
Qed.

Lemma seed_writes_valid_witness :
  let run := main Sample.knobs Sample.reg Sample.out Sample.args Sample.fresh_world in
  run.1 = inr 0%Z ∧
  text_at run.2 "/inv/prod/.env" = Some (env_text ["# The server"; "HOST_PUBLIC_IP=203.0.113.7"; "SSH_PRIVATE_KEY=/k"; "LOCKDOWN=true";
    "NOTE=" +:+ dquote +:+ "a note" +:+ dquote]) ∧
  ∃ dir values template, dir = "/inv/prod" ∧ env_template Sample.knobs = Ok template ∧
    (∀ key d, (key, d) ∈ ENV_KEYS Sample.knobs → ∃ v, dget key values = Some v ∧ answer_ok Sample.knobs key d v) ∧
    ∀ q f, files Sample.fresh_world !! q = Some f → q ≠ join_path dir ".env" → q ≠ join_path dir "hosts.yml" →
      (a_secrets_out Sample.args ≠ "" → q ≠ expanduser Sample.out (a_secrets_out Sample.args)) → files run.2 !! q = Some f.
Proof.
  intros run. assert (H : run.1 = inr 0%Z) by (vm_compute; reflexivity). split; [exact H|]. split; [vm_compute; reflexivity|].
  destruct (seed_writes_valid Sample.knobs Sample.reg Sample.out Sample.args Sample.fresh_world 0 run.2) as
    (inp & w1 & dir & values & template & _ & Hinp & Hdir & Ht & Hv & _ & Hq).
  - exact keys_once.
  - exact args_apart.
  - rewrite <-H. subst run. destruct (main _ _ _ _ _). reflexivity.
  - exists dir, values, template. split; [|split; [exact Ht|split; [exact Hv|exact Hq]]].
    assert (∃ name, dir = join_path "/inv" name ∧ name = "prod") as (n & -> & ->) by exact Hdir. reflexivity.
Defined.

Lemma seed_map_confined_witness :
  let run := main Sample.knobs Sample.reg Sample.out Sample.args Sample.fresh_world in
  run.1 = inr 0%Z ∧ ∃ path secrets,
    files run.2 !! path = Some {| f_text := safe_dump Sample.out (VDict secrets); f_mode := 384 |} ∧
    (secrets = [] ∨ ∃ pin, (16 ≤ String.length pin)%nat ∧ secrets = [("admin_password", VStr pin)]) ∧
    (a_secrets_out Sample.args ≠ "" → path = expanduser Sample.out (a_secrets_out Sample.args)).
Proof.
  intros run. assert (H : run.1 = inr 0%Z) by (vm_compute; reflexivity). split; [exact H|].
  apply (seed_map_confined Sample.knobs Sample.reg Sample.out Sample.args Sample.fresh_world 0 run.2).
  - exact keys_once.
  - rewrite <-H. subst run. destruct (main _ _ _ _ _). reflexivity.
Defined.

Lemma rerun_asks_nothing_witness :
  let run := main Sample.knobs Sample.reg Sample.out Sample.rerun_args Sample.old_world in
  run.1 = inr 0%Z ∧ lines (ext run.2) = ["unread"].
Proof.
  intros run. split; [vm_compute; reflexivity|]. change ["unread"] with (lines (ext Sample.old_world)).
  apply (rerun_asks_nothing Sample.knobs Sample.reg Sample.out Sample.rerun_args Sample.old_world run.1 run.2 "/inv/prod" Sample.old_env "/k").
  - exact keys_once.
  - right. left.
  - reflexivity.
  - reflexivity.
  - vm_compute. reflexivity.
  - exists (Sample.file_of "hosts"). vm_compute. reflexivity.
  - intros key Hk. assert (Hkey : key = "/k").
    { assert (Hu : unasked Sample.knobs (map (λ kv, (kv.1, VStr kv.2)) (read_existing_env Sample.old_env)) "SSH_PRIVATE_KEY" "/k" = Some "/k")
        by (vm_compute; reflexivity). rewrite Hu in Hk. by injection Hk. }
    subst key. split; exists (Sample.file_of ""); vm_compute; reflexivity.
  - subst run. destruct (main _ _ _ _ _). reflexivity.
Defined.

(** A number in the input file, such as a port, has no [strip]: the run ends
    with an exception though [fill] would take the number. *)
Example number_ends_the_run :
  ipv4_endpoint [("HOST_SSH_PORT", VInt 2222)] = Raise AttributeError ∧
  given "22" false [] (VInt 2222) = Some "2222".
Proof. by vm_compute. Qed.
(** A blank pin is the text None, which is too short to be a password. *)
Example blank_pin_refused :
  (resolve_admin_override (VDict [(ADMIN_PASSWORD_KEY, VNone)]) Sample.fresh_world).1 = inl (Died 1).
Proof. by vm_compute. Qed.
(** A name with a final line break is a name. *)
Example name_with_a_break : inventory_name_problem ("prod" +:+ newline_str) (λ _, false) = "".
Proof. reflexivity. Qed.
