(* ===== verification/SessionProof.v ===== *)
(** [ansible/helpers/session_proof.py]: that the SSH session running a command
    logged in as the ops account with a key the account accepts, by the journal
    line sshd wrote for the connection and the account's [authorized_keys]. *)
From S2P Require Import Prelude PyStr PyNum PyVal Encoding Sha256 Effects Host.

#[local] Open Scope string_scope.

(** * Fingerprints *)

(** A base64 character's six bits. *)
Definition std_val (a : ascii) : option N :=
  if is_upper a then Some (code a - 65)%N
  else if is_lower a then Some (code a - 71)%N
  else if is_digit a then Some (code a + 4)%N
  else if is_char "+" a then Some 62%N
  else if is_char "/" a then Some 63%N
  else None.

(** [binascii.a2b_base64] as [b64decode] calls it: characters outside the
    alphabet are skipped, and a pad that completes a quad ends the data.
    [quad] is the place in the quad, [pads] the pads met since its last
    character and [left] the bits not written yet; [None] is [binascii.Error]. *)
Fixpoint a2b (quad pads : nat) (left : N) (s : string) : option string :=
  match s with
  | EmptyString => match quad with 0 => Some "" | _ => None end
  | String a s =>
      if is_char "=" a then
        (if (2 <=? quad)%nat && (4 <=? quad + S pads)%nat then Some ""
         else a2b quad (if (2 <=? quad)%nat then S pads else pads) left s)
      else match std_val a with
      | None => a2b quad pads left s
      | Some n =>
          match quad with
          | 0 => a2b 1 0 n s
          | 1 => String (ascii_of_N (left * 4 + n / 16)) <$> a2b 2 0 (n mod 16) s
          | 2 => String (ascii_of_N (left * 16 + n / 4)) <$> a2b 3 0 (n mod 4) s
          | _ => String (ascii_of_N (left * 64 + n)) <$> a2b 0 0 0 s
          end
      end
  end.

(** [base64.b64decode]: its text is ASCII. *)
Definition b64decode (s : string) : res string :=
  if sforall (λ a, (code a <? 128)%N) s
  then match a2b 0 0 0 s with Some b => Ok b | None => Raise ValueError end
  else Raise ValueError.

(** [hashlib.sha256(b).digest()] *)
Definition sha256_digest (s : string) : string := string_of_bytes (flat_map (be_bytes 4) (digest (ascii_list s))).

Definition fingerprint (blob_b64 : string) : res string :=
  blob ← b64decode blob_b64;
  Ok ("SHA256:" +:+ rstrip_char "=" (b64encode (sha256_digest blob))).

(** * The account's keys *)

Definition dquote : ascii := "034"%char.

(** The length of the longest match of [(?:[^\s][^"]|"[^"]*")+] at the start
    of [s], its first class without the quote: [best] characters end with a
    whole piece, [k] were read and [quoted] is being inside a quoted piece. *)
Fixpoint token_len (best k : nat) (quoted : bool) (s : string) : nat :=
  match s with
  | EmptyString => best
  | String a s =>
      if quoted then token_len (if is_char dquote a then S k else best) (S k) (negb (is_char dquote a)) s
      else if is_char dquote a then token_len best (S k) true s
      else if is_space a then best
      else token_len (S k) (S k) false s
  end.

(** [re.findall] of it: [skip] characters are inside the last match. *)
Fixpoint tokens_from (skip : nat) (s : string) : list string :=
  match s with
  | EmptyString => []
  | String a s' =>
      match skip with
      | S skip => tokens_from skip s'
      | 0 => match token_len 0 0 false s with
             | 0 => tokens_from 0 s'
             | S n => String.substring 0 (S n) s :: tokens_from n s'
             end
      end
  end.
Definition tokens : string → list string := tokens_from 0.

(** [_KEY_TYPE.match] *)
Definition is_key_type (token : string) : bool :=
  existsb (startswith token) ["ssh-"; "ecdsa-"; "sk-"].

(** The fingerprint a line's tokens give: that of the token after the first
    key type, if it decodes. *)
Fixpoint key_of (tokens : list string) : option string :=
  match tokens with
  | token :: (blob :: _) as rest =>
      if is_key_type token then match fingerprint blob with Ok fp => Some fp | Raise _ => None end
      else key_of rest
  | _ => None
  end.
Definition line_key (line : string) : option string :=
  let line := strip line in
  if bool_decide (line = "") || startswith line "#" then None else key_of (tokens line).

Definition authorized_fingerprints (text : string) : gset string :=
  list_to_set (omap line_key (splitlines text)).

(** * sshd's record *)

Record login := { l_user : string; l_addr : string; l_port : string; l_fp : string }.

(** [\S+] and the like: a run that is not empty. *)
Definition some_span (p : ascii → bool) (s : string) : option (string * string) :=
  match span p s with (EmptyString, _) => None | rt => Some rt end.
Definition nonspace (a : ascii) : bool := negb (is_space a).

(** [_ACCEPTED] at the start of [s], with what follows the match.  No piece
    can be shorter than its run: a space or a letter follows each. *)
Definition match_accepted (s : string) : option (login * string) :=
  s ← strip_prefix "Accepted publickey for " s;
  '(user, s) ← some_span nonspace s;
  s ← strip_prefix " from " s;
  '(addr, s) ← some_span nonspace s;
  s ← strip_prefix " port " s;
  '(port, s) ← some_span is_digit s;
  s ← strip_prefix " ssh2: " s;
  '(_, s) ← some_span nonspace s;
  s ← strip_prefix " SHA256:" s;
  '(fp, s) ← some_span is_std_char s;
  Some ({| l_user := user; l_addr := addr; l_port := port; l_fp := "SHA256:" +:+ fp |}, s).

(** [_ACCEPTED.finditer]: matches from the left, none inside another. *)
Fixpoint logins_from (skip : nat) (s : string) : list login :=
  match s with
  | EmptyString => []
  | String a s' =>
      match skip with
      | S skip => logins_from skip s'
      | 0 => match match_accepted s with
             | Some (l, rest) => l :: logins_from (String.length s' - String.length rest) s'
             | None => logins_from 0 s'
             end
      end
  end.
Definition logins : string → list login := logins_from 0.

Definition is_login (user addr port : string) (l : login) : bool :=
  bool_decide ((l_user l, l_addr l, l_port l) = (user, addr, port)).
Definition accepted_fingerprint (journal user addr port : string) : string :=
  foldl (λ found l, if is_login user addr port l then l_fp l else found) "" (logins journal).

(** * The proof *)

Definition prove (user ssh_connection journal authorized_keys : string) : bool * string :=
  match words ssh_connection with
  | [addr; port; _; _] =>
      let accepted := accepted_fingerprint journal user addr port in
      if bool_decide (accepted = "")
      then (false, "sshd recorded no key login for " +:+ user +:+ " from " +:+ addr +:+ " port " +:+ port
                   +:+ ": this session did not log in as " +:+ user +:+ " with a key")
      else if negb (bool_decide (accepted ∈ authorized_fingerprints authorized_keys))
      then (false, user +:+ " logged in with " +:+ accepted +:+ ", which is not in " +:+ user +:+ "'s authorized_keys")
      else (true, user +:+ " logged in from " +:+ addr +:+ " with " +:+ accepted)
  | _ => (false, "no SSH session to prove: SSH_CONNECTION is " +:+ repr_str ssh_connection)
  end.

Definition SSHD_IDENTIFIERS : list string := ["sshd"; "sshd-session"].
Definition journal_argv : list string :=
  (["journalctl"; "--no-pager"; "-o"; "cat"; "--since"; "-2h"]
   ++ flat_map (λ ident, ["-t"; ident]) SSHD_IDENTIFIERS)%list.

(** The account database, the environment and the text of an exception. *)
Record system := { home_of : string → res string; environment : dict string; text_of : exn → string }.

Section main.
Context {E : Type} `{!Outside E} (sys : system).
Abbreviation M := (ST (@world E) fault).

Definition journal_text : M string := r ← spawn journal_argv (environment sys); mret (stdout r).

(** The account's home is spelled as [Path] spells it. *)
Definition keys_path (home : string) : string := rstrip_char "/" home +:+ "/.ssh/authorized_keys".
Definition account_keys (user : string) : M string :=
  home ← pure (home_of sys user); read_text (keys_path home).

(** [main] on its two arguments: its exit code and the line on stderr. *)
Definition main (user ssh_connection : string) : M (Z * string) :=
  keys ← catch (text ← account_keys user; mret (inr text)) (λ f,
    match f with
    | Raised KeyError => mret (inl (text_of sys KeyError))
    | Raised OSError => mret (inl (text_of sys OSError))
    | _ => throw f
    end);
  match keys with
  | inl why => mret (1%Z, "session_proof: cannot read " +:+ user +:+ "'s authorized_keys: " +:+ why)
  | inr keys =>
      journal ← journal_text;
      let '(ok, why) := prove user ssh_connection journal keys in
      mret (if ok then 0%Z else 1%Z, "session_proof: " +:+ why)
  end.
End main.
