(* ===== verification/SessionProofFacts.v ===== *)
(** Facts of [SessionProof]: what its regular expressions match, base64 read
    back, and that the proof succeeds exactly on a login by one of the
    account's keys. *)
From S2P Require Import Prelude PyStr PyNum PyVal Encoding Sha256 Effects Host SessionProof.

#[local] Open Scope string_scope.

(** * Base64 *)

Lemma std_val_char n : (n < 64)%N → std_val (std_char n) = Some n.
Proof.
  intros Hn. pose proof (below64_spec (λ n, bool_decide (std_val (std_char n) = Some n)) n) as H.
  rewrite bool_decide_eq_true in H. apply H; [by vm_compute|done].
Qed.
Lemma std_char_no_pad n : (n < 64)%N → is_char "=" (std_char n) = false.
Proof. intros Hn. apply negb_true_iff. by apply (below64_spec (λ n, negb (is_char "=" (std_char n)))). Qed.

#[local] Ltac Zify.zify_post_hook ::= Z.to_euclidean_division_equations.

(** What the encoder writes, the decoder reads. *)
Lemma a2b_b64 s : a2b 0 0 0 (b64 std_char true s) = Some s.
Proof.
  induction s as [|a|a b|a b c s IH] using string_ind3; cbn [b64 a2b]; [done|..];
    byte_bounds; rewrite !std_char_no_pad, !std_val_char by six; cbn [a2b fmap option_fmap option_map].
  - replace (is_char "=" "=") with true by reflexivity. cbn. do 2 f_equal. bytes_eq.
  - replace (is_char "=" "=") with true by reflexivity. cbn. do 2 f_equal; [|f_equal]; bytes_eq.
  - rewrite IH. cbn. f_equal. repeat (apply string_cons_eq; [bytes_eq|]). done.
Qed.

(** The characters the encoder writes. *)
Definition is_b64_char (a : ascii) : bool := is_std_char a || is_char "=" a.
Lemma b64_chars s : sforall is_b64_char (b64encode s) = true.
Proof.
  unfold b64encode, is_b64_char. destruct (b64_pad std_char s) as (w & -> & Hw). rewrite sforall_app, andb_true_iff. split.
  - apply b64_forall. intros n Hn. by rewrite std_char_ok.
  - eapply sforall_impl, Hw. intros a ->. apply orb_true_r.
Qed.
Lemma b64_char_ascii a : is_b64_char a = true → (code a <? 128)%N = true.
Proof. by apply (ascii_imp is_b64_char (λ a, (code a <? 128)%N)); vm_compute. Qed.

Lemma b64decode_encode s : b64decode (b64encode s) = Ok s.
Proof.
  unfold b64decode. rewrite (sforall_impl _ _ _ b64_char_ascii (b64_chars s)).
  unfold b64encode. by rewrite a2b_b64.
Qed.

(** The fingerprint of a key, as sshd prints it. *)
Definition print_of (blob : string) : string := "SHA256:" +:+ b64 std_char false (sha256_digest blob).

Lemma fingerprint_print blob : fingerprint (b64encode blob) = Ok (print_of blob).
Proof. unfold fingerprint. rewrite b64decode_encode. cbn [mbind res_bind]. unfold print_of, b64encode. by rewrite rstrip_b64 by apply std_char_no_pad. Qed.

(** * A record of the journal *)

Lemma some_span_app p r t : sforall p r = true → r ≠ "" → ends_run p t = true → some_span p (r +:+ t) = Some (r, t).
Proof. intros Hr Hne Ht. unfold some_span. rewrite span_app by done. by destruct r. Qed.
Lemma some_span_inv p s r t : some_span p s = Some (r, t) →
  s = r +:+ t ∧ sforall p r = true ∧ r ≠ "" ∧ ends_run p t = true.
Proof.
  unfold some_span. destruct (span p s) as [r' t'] eqn:E. apply span_inv in E as (-> & Hr & Ht).
  destruct r' as [|a r']; [done|]. by intros [= <- <-].
Qed.

(** A word of the journal: not empty, without spaces. *)
Definition word (s : string) : Prop := s ≠ "" ∧ sforall nonspace s = true.
Record login_ok (l : login) : Prop := {
  user_word : word (l_user l); addr_word : word (l_addr l);
  port_digits : l_port l ≠ "" ∧ sforall is_digit (l_port l) = true;
  fp_text : ∃ fp, l_fp l = "SHA256:" +:+ fp ∧ fp ≠ "" ∧ sforall is_std_char fp = true
}.
(** The text sshd writes of a login, [kind] the type of its key. *)
Definition accepted_text (l : login) (kind : string) : string :=
  "Accepted publickey for " +:+ l_user l +:+ " from " +:+ l_addr l +:+ " port " +:+ l_port l
  +:+ " ssh2: " +:+ kind +:+ " " +:+ l_fp l.

#[local] Arguments strip_prefix : simpl never.
#[local] Arguments String.append : simpl never.
Lemma prefix_bind {B} p s (f : string → option B) : strip_prefix p (p +:+ s) ≫= f = f s.
Proof. by rewrite strip_prefix_app. Qed.
Lemma span_bind {B} p r t (f : string * string → option B) :
  r ≠ "" ∧ sforall p r = true → ends_run p t = true → some_span p (r +:+ t) ≫= f = f (r, t).
Proof. intros [Hne Hr] Ht. by rewrite some_span_app. Qed.

Lemma match_accepted_text l kind rest :
  login_ok l → word kind → ends_run is_std_char rest = true →
  match_accepted (accepted_text l kind +:+ rest) = Some (l, rest).
Proof.
  intros [Hu Ha Hp (fp & Hfp & Hf)] Hk Hr. destruct l as [u a p f]. cbn in Hu, Ha, Hp, Hfp. subst f.
  unfold accepted_text, match_accepted. cbn [l_user l_addr l_port l_fp]. rewrite <-!string_app_assoc.
  rewrite prefix_bind, span_bind by done. rewrite prefix_bind, span_bind by done.
  rewrite prefix_bind, span_bind by done. rewrite prefix_bind, span_bind by done.
  rewrite (string_app_assoc " " "SHA256:"). change (" " +:+ "SHA256:") with " SHA256:".
  by rewrite prefix_bind, span_bind.
Qed.

Lemma match_accepted_inv s l rest : match_accepted s = Some (l, rest) →
  login_ok l ∧ ∃ kind, word kind ∧ s = accepted_text l kind +:+ rest.
Proof.
  unfold match_accepted. intros H.
  repeat match type of H with
  | (strip_prefix ?p ?s ≫= _) = _ =>
      let r := fresh "r" in let E := fresh "E" in
      destruct (strip_prefix p s) as [r|] eqn:E; [cbn [mbind option_bind] in H; apply strip_prefix_inv in E as ->|done]
  | (some_span ?p ?s ≫= _) = _ =>
      let w := fresh "w" in let r := fresh "r" in let E := fresh "E" in
      destruct (some_span p s) as [[w r]|] eqn:E; [cbn [mbind option_bind] in H|done];
      apply some_span_inv in E as (-> & ? & ? & ?)
  end.
  injection H as <- <-. split.
  - constructor; cbn; [by split..|]. eexists. split; [reflexivity|done].
  - exists w2. split; [by split|]. unfold accepted_text. cbn [l_user l_addr l_port l_fp].
    rewrite <-!string_app_assoc. done.
Qed.

(** * A journal *)

#[local] Arguments String.append : simpl nomatch.

(** A record of the journal: a login with a key, what follows the key's
    fingerprint after it (nothing, or the names of a certificate), or a line
    that does not hold the words of one. *)
Inductive entry :=
  | Accepted (l : login) (kind rest : string)
  | Other (line : string).
Definition marker : string := "Accepted publickey for ".
Definition entry_ok (e : entry) : Prop :=
  match e with
  | Accepted l kind rest => login_ok l ∧ word kind ∧ ends_run is_std_char rest = true
      ∧ has_char nl rest = false ∧ scontains marker rest = false
  | Other line => has_char nl line = false ∧ scontains marker line = false
  end.
Definition entry_text (e : entry) : string :=
  match e with Accepted l kind rest => accepted_text l kind +:+ rest | Other line => line end.
Definition entry_login (e : entry) : option login := match e with Accepted l _ _ => Some l | Other _ => None end.

Lemma startswith_before_nl m line rest :
  has_char nl m = false → startswith (line +:+ String nl rest) m = true → startswith line m = true.
Proof.
  unfold startswith. revert line. induction m as [|a m IH]; intros line Hm; [by destruct line|].
  unfold has_char, sexists in Hm. cbn in Hm. rewrite negb_andb, negb_involutive, orb_false_iff in Hm. destruct Hm as [Ha Hm].
  destruct line as [|b line]; cbn.
  - destruct (ascii_dec a nl) as [->|]; [by rewrite (proj2 (is_char_spec _ _)) in Ha|done].
  - destruct (ascii_dec a b); [|done]. by apply IH.
Qed.
Lemma strip_prefix_none m s : startswith s m = false → strip_prefix m s = None.
Proof.
  intros H. destruct (strip_prefix m s) as [r|] eqn:E; [|done]. apply strip_prefix_inv in E as ->.
  by rewrite startswith_app in H.
Qed.
Lemma logins_skip pre s : logins_from (String.length pre) (pre +:+ s) = logins_from 0 s.
Proof. induction pre as [|a pre IH]; [done|]. exact IH. Qed.

(** A line that does not speak of a login gives none. *)
Lemma logins_other line rest : scontains marker line = false →
  logins_from 0 (line +:+ String nl rest) = logins_from 0 rest.
Proof.
  induction line as [|a line IH].
  - intros _. done.
  - intros [Hs H]%orb_false_iff. cbn [String.append logins_from].
    assert (match_accepted (String a (line +:+ String nl rest)) = None) as ->; [|by apply IH].
    unfold match_accepted. rewrite strip_prefix_none; [done|]. apply not_true_is_false. intros E.
    change (startswith (String a line +:+ String nl rest) marker = true) in E.
    by rewrite (startswith_before_nl marker (String a line) rest) in Hs.
Qed.
Lemma logins_match s l rest : match_accepted s = Some (l, rest) → logins_from 0 s = l :: logins_from 0 rest.
Proof.
  intros H. pose proof (match_accepted_inv _ _ _ H) as (_ & kind & _ & ->).
  destruct (accepted_text l kind) as [|a t] eqn:E; [by unfold accepted_text in E|].
  change (logins_from 0 (String a t +:+ rest)) with
    (match match_accepted (String a t +:+ rest) with
     | Some (l, r) => l :: logins_from (String.length (t +:+ rest) - String.length r) (t +:+ rest)
     | None => logins_from 0 (t +:+ rest) end).
  rewrite H. f_equal. rewrite length_sapp, Nat.add_sub. apply logins_skip.
Qed.

(** The logins of a journal are those its records name, in order. *)
Lemma logins_journal es : Forall entry_ok es → logins (lines_text (map entry_text es)) = omap entry_login es.
Proof.
  unfold logins. induction 1 as [|[l kind rest|line] es He _ IH]; [done| |]; cbn [map lines_text foldr omap list_omap entry_text entry_login].
  - destruct He as (Hl & Hk & Hr & _ & Hm). unfold lines_text in *. rewrite <-string_app_assoc.
    rewrite (logins_match _ l (rest +:+ String nl (lines_text (map entry_text es)))).
    + rewrite logins_other by done. f_equal. exact IH.
    + apply match_accepted_text; [done..|]. by destruct rest.
  - destruct He as [_ He]. unfold lines_text in *. by rewrite logins_other.
Qed.

(** * An [authorized_keys] file *)

(** A text that is one token of a line, quotes closed. *)
Fixpoint closed (quoted : bool) (s : string) : bool :=
  match s with
  | EmptyString => negb quoted
  | String a s =>
      if quoted then closed (negb (is_char dquote a)) s
      else if is_char dquote a then closed true s
      else nonspace a && closed false s
  end.
Definition ends_token (t : string) : bool := match t with String a _ => is_space a | EmptyString => true end.

Lemma space_not_quote a : is_space a = true → is_char dquote a = false.
Proof. intros H. apply negb_true_iff. revert a H. apply ascii_imp. by vm_compute. Qed.
Lemma token_len_closed best k quoted s t :
  closed quoted s = true → ends_token t = true → (quoted = false → best = k) →
  token_len best k quoted (s +:+ t) = (k + String.length s)%nat.
Proof.
  intros Hs Ht. revert best k quoted Hs. induction s as [|a s IH]; intros best k quoted Hs Hb; cbn in Hs.
  - apply negb_true_iff in Hs as ->. rewrite Hb, Nat.add_0_r by done. cbn.
    destruct t as [|a t]; [done|]. cbn in *. by rewrite (space_not_quote a Ht), Ht.
  - cbn. rewrite Nat.add_succ_r. destruct quoted.
    + rewrite IH; [done..|]. intros H%negb_false_iff. by rewrite H.
    + destruct (is_char dquote a); [by rewrite IH|]. apply andb_prop in Hs as [Ha%negb_true_iff Hs].
      rewrite Ha. by rewrite IH.
Qed.
Lemma tokens_skip pre s : tokens_from (String.length pre) (pre +:+ s) = tokens_from 0 s.
Proof. induction pre as [|a pre IH]; [done|]. exact IH. Qed.
Lemma tokens_token s t : closed false s = true → s ≠ "" → ends_token t = true →
  tokens_from 0 (s +:+ t) = s :: tokens_from 0 t.
Proof.
  intros Hs Hne Ht. pose proof (token_len_closed 0 0 false s t Hs Ht (λ _, eq_refl)) as Hl.
  destruct s as [|a s]; [done|]. cbn [Nat.add String.length] in Hl.
  change (tokens_from 0 (String a s +:+ t)) with
    (match token_len 0 0 false (String a s +:+ t) with
     | 0 => tokens_from 0 (s +:+ t)
     | S n => String.substring 0 (S n) (String a s +:+ t) :: tokens_from n (s +:+ t)
     end).
  rewrite Hl. f_equal; [|apply tokens_skip]. exact (substring_prefix (String a s) t).
Qed.
Lemma closed_chars p s : (∀ a, p a = true → nonspace a && negb (is_char dquote a) = true) →
  sforall p s = true → closed false s = true.
Proof.
  intros Hp. induction s as [|a s IH]; [done|]. cbn. intros [[Ha Hq%negb_true_iff]%Hp%andb_prop Hs]%andb_prop.
  rewrite Hq, Ha. auto.
Qed.

(** A line of the file: a key, or a blank or a comment. *)
Inductive key_entry :=
  | Key (options : option string) (type blob comment : string)
  | Note (line : string).
Definition one_line (s : string) : Prop := sforall (λ c, negb (is_break c)) s = true.
Definition plain (a : ascii) : bool := nonspace a && negb (is_char dquote a).
Definition options_ok (o : string) : Prop :=
  o ≠ "" ∧ closed false o = true ∧ starts_char "#" o = false ∧ is_key_type o = false ∧ one_line o.
Definition key_ok (k : key_entry) : Prop :=
  match k with
  | Key options type blob comment =>
      (∀ o, options = Some o → options_ok o) ∧ blob ≠ "" ∧ is_key_type type = true ∧ sforall plain type = true
      ∧ rstrip_of is_space comment = comment ∧ one_line comment
  | Note line => one_line line ∧ (strip line = "" ∨ startswith (strip line) "#" = true)
  end.
Definition rest_text (comment : string) : string := if bool_decide (comment = "") then "" else " " +:+ comment.
Definition key_text (k : key_entry) : string :=
  match k with
  | Key options type blob comment =>
      (match options with Some o => o +:+ " " | None => "" end)
      +:+ type +:+ " " +:+ b64encode blob +:+ rest_text comment
  | Note line => line
  end.
Definition key_print (k : key_entry) : option string :=
  match k with Key _ _ blob _ => Some (print_of blob) | Note _ => None end.

Lemma b64_char_plain a : is_b64_char a = true → plain a = true.
Proof. apply ascii_imp. by vm_compute. Qed.
Lemma b64_plain blob : sforall plain (b64encode blob) = true.
Proof. exact (sforall_impl _ _ _ b64_char_plain (b64_chars blob)). Qed.
Lemma plain_closed s : sforall plain s = true → closed false s = true.
Proof. by apply closed_chars. Qed.
Lemma plain_line s : sforall plain s = true → one_line s.
Proof. apply sforall_impl, ascii_imp. by vm_compute. Qed.
Lemma plain_nonspace s : sforall plain s = true → sforall (λ a, negb (is_space a)) s = true.
Proof. apply sforall_impl, ascii_imp. by vm_compute. Qed.
Lemma b64_ne blob : blob ≠ "" → b64encode blob ≠ "".
Proof. by destruct blob as [|a [|b [|c s]]]. Qed.
Lemma rstrip_plain a s : sforall plain s = true → s ≠ "" → rstrip_of is_space (a +:+ s) = a +:+ s.
Proof. intros Hs Hne. apply rstrip_of_last; [|done]. by apply rstrip_of_none, plain_nonspace. Qed.
Lemma closed_lstrip s t : closed false s = true → s ≠ "" → lstrip_of is_space (s +:+ t) = s +:+ t.
Proof.
  intros Hs Hne. apply lstrip_of_none. intros a s' H. destruct s as [|b s]; [done|]. cbn in H. injection H as -> _.
  cbn in Hs. destruct (is_char dquote a) eqn:Hq.
  - apply is_char_spec in Hq as <-. done.
  - apply andb_prop in Hs as [Hs%negb_true_iff _]. done.
Qed.

Lemma type_ne type : is_key_type type = true → type ≠ "".
Proof. by intros H ->. Qed.
Lemma type_not_comment type t : is_key_type type = true → startswith (type +:+ t) "#" = false.
Proof.
  unfold is_key_type. cbn [existsb]. rewrite orb_false_r, !orb_true_iff. rewrite startswith_char.
  by intros [H|[H|H]]; apply startswith_inv in H as [r ->].
Qed.

(** The tokens of a key's line, past its options. *)
Lemma key_tokens type blob comment :
  is_key_type type = true → sforall plain type = true → blob ≠ "" →
  key_of (tokens_from 0 (type +:+ " " +:+ b64encode blob +:+ rest_text comment)) = Some (print_of blob).
Proof.
  intros Ht Hp Hb. rewrite tokens_token by (done || by apply plain_closed || by apply type_ne).
  change (" " +:+ ?s) with (String " " s). change (tokens_from 0 (String " " ?s)) with (tokens_from 0 s).
  rewrite tokens_token; [|apply plain_closed, b64_plain|by apply b64_ne|unfold rest_text; by case_bool_decide].
  cbn [key_of]. by rewrite Ht, fingerprint_print.
Qed.
Lemma key_text_strip options type blob comment :
  key_ok (Key options type blob comment) →
  strip (key_text (Key options type blob comment)) = key_text (Key options type blob comment).
Proof.
  intros (Ho & Hb & Ht & Hp & Hc & _). unfold strip, strip_of.
  assert (rstrip_of is_space (key_text (Key options type blob comment)) = key_text (Key options type blob comment)) as ->.
  { unfold key_text, rest_text. rewrite !string_app_assoc. case_bool_decide as Hcm.
    - rewrite string_app_nil_r. apply rstrip_plain; [apply b64_plain|by apply b64_ne].
    - rewrite string_app_assoc. by apply rstrip_of_last. }
  destruct options as [o|]; cbn [key_text].
  - destruct (Ho o eq_refl) as (Hne & Hcl & _). rewrite <-string_app_assoc. by apply closed_lstrip.
  - apply (closed_lstrip type); [by apply plain_closed|by apply type_ne].
Qed.

Lemma line_key_text k : key_ok k → line_key (key_text k) = key_print k.
Proof.
  destruct k as [options type blob comment|line]; intros Hk.
  - unfold line_key. rewrite key_text_strip by done. destruct Hk as (Ho & Hb & Ht & Hp & Hc & _).
    unfold tokens. destruct options as [o|]; cbn [key_text key_print].
    + destruct (Ho o eq_refl) as (Hne & Hcl & Hh & Hk & _). destruct o as [|a o]; [done|].
      rewrite bool_decide_false by done. rewrite startswith_char, <-string_app_assoc.
      change (starts_char "#" (String a o +:+ ?t)) with (starts_char "#" (String a o)). rewrite Hh. cbn [orb].
      rewrite tokens_token by done. change (tokens_from 0 (" " +:+ ?s)) with (tokens_from 0 s).
      pose proof (key_tokens type blob comment Ht Hp Hb) as Hkey.
      destruct (tokens_from 0 _) as [|tk l]; [done|]. cbn [key_of] in *. by rewrite Hk.
    + change ("" +:+ ?s) with s. rewrite type_not_comment, orb_false_r by done.
      rewrite bool_decide_false; [by apply key_tokens|]. by destruct type.
  - destruct Hk as [_ [Hl|Hl]]; unfold line_key; cbn [key_text key_print]; rewrite Hl; [done|]. by rewrite orb_true_r.
Qed.

Lemma key_text_line k : key_ok k → one_line (key_text k).
Proof.
  destruct k as [options type blob comment|line]; [|by intros [Hl _]].
  intros (Ho & _ & _ & Hp & _ & Hc). unfold one_line, key_text, rest_text in *. rewrite !sforall_app, !andb_true_iff.
  split_and!; [|by apply plain_line|done|apply plain_line, b64_plain|by case_bool_decide].
  destruct options as [o|]; [|done]. destruct (Ho o eq_refl) as (_ & _ & _ & _ & Hl). by rewrite sforall_app, Hl.
Qed.
Lemma authorized_text ks : Forall key_ok ks →
  authorized_fingerprints (lines_text (map key_text ks)) = list_to_set (omap key_print ks).
Proof.
  intros Hks. unfold authorized_fingerprints. rewrite splitlines_lines.
  - f_equal. induction Hks as [|k ks Hk _ IH]; [done|]. cbn [map omap list_omap]. by rewrite line_key_text, IH.
  - apply Forall_fmap. eapply Forall_impl; [exact Hks|]. intros k. apply key_text_line.
Qed.

(** A line's key is the token after a token that names a key type. *)
Lemma key_of_inv ts fp : key_of ts = Some fp →
  ∃ pre type blob post, ts = (pre ++ type :: blob :: post)%list ∧ is_key_type type = true ∧ fingerprint blob = Ok fp.
Proof.
  induction ts as [|t [|b ts] IH]; [done..|]. cbn [key_of]. destruct (is_key_type t) eqn:Ht.
  - destruct (fingerprint b) eqn:Hf; [|done]. intros [= ->]. by exists [], t, b, ts.
  - intros H. destruct (IH H) as (pre & ty & bl & post & E & ? & ?). exists (t :: pre), ty, bl, post. by rewrite E.
Qed.
Lemma authorized_inv fp text : fp ∈ authorized_fingerprints text →
  ∃ line pre type blob post, line ∈ splitlines text ∧ tokens (strip line) = (pre ++ type :: blob :: post)%list
    ∧ is_key_type type = true ∧ fingerprint blob = Ok fp.
Proof.
  unfold authorized_fingerprints. rewrite elem_of_list_to_set, list_elem_of_omap. intros (line & Hl & H).
  unfold line_key in H. destruct (_ || _); [done|]. apply key_of_inv in H as (pre & ty & bl & post & ? & ? & ?).
  by exists line, pre, ty, bl, post.
Qed.

(** * The login of a connection *)

(** The last login of a user from an endpoint. *)
Definition last_login (user addr port : string) (ls : list login) : option login :=
  last (filter (λ l, is_login user addr port l = true) ls).
Lemma accepted_last journal user addr port :
  accepted_fingerprint journal user addr port =
  match last_login user addr port (logins journal) with Some l => l_fp l | None => "" end.
Proof.
  unfold accepted_fingerprint, last_login. induction (logins journal) as [|l ls IH] using rev_ind; [done|].
  rewrite foldl_app, filter_app. cbn. destruct (decide (is_login user addr port l = true)) as [Hl|Hl].
  - by rewrite Hl, last_snoc.
  - rewrite app_nil_r. apply not_true_is_false in Hl. by rewrite Hl.
Qed.
Lemma last_login_in user addr port ls l : last_login user addr port ls = Some l →
  l ∈ ls ∧ l_user l = user ∧ l_addr l = addr ∧ l_port l = port.
Proof.
  unfold last_login. intros H%last_Some_elem_of. apply list_elem_of_filter in H as [H Hl]. split; [done|].
  unfold is_login in H. apply bool_decide_eq_true in H. by simplify_eq.
Qed.

(** Every login of a journal is written in it. *)
Lemma logins_from_inv skip s l : l ∈ logins_from skip s →
  login_ok l ∧ ∃ pre kind post, word kind ∧ s = pre +:+ accepted_text l kind +:+ post.
Proof.
  revert skip. induction s as [|a s IH]; intros skip H; [by apply not_elem_of_nil in H|].
  assert (∀ k, l ∈ logins_from k s → login_ok l ∧ ∃ pre kind post, word kind ∧ String a s = pre +:+ accepted_text l kind +:+ post) as Hs.
  { intros k (Hl & pre & kind & post & Hk & E)%IH. split; [done|]. exists (String a pre), kind, post. by rewrite E. }
  cbn [logins_from] in H. destruct skip as [|skip]; [|by eapply Hs].
  destruct (match_accepted (String a s)) as [[l' rest]|] eqn:Em; [|by eapply Hs].
  apply elem_of_cons in H as [<-|H]; [|by eapply Hs].
  apply match_accepted_inv in Em as (Hl & kind & Hk & E). split; [done|]. by exists "", kind, rest.
Qed.

Lemma words_connection addr port sa sp : Forall word [addr; port; sa; sp] →
  words (sjoin " " [addr; port; sa; sp]) = [addr; port; sa; sp].
Proof.
  intros H. repeat match goal with
  | H : Forall _ (_ :: _) |- _ => apply Forall_cons in H as [[? ?] ?]
  end.
  change (sjoin " " [addr; port; sa; sp]) with (addr +:+ String " " (port +:+ String " " (sa +:+ String " " sp))).
  rewrite !words_app, !words_word by done. done.
Qed.

Lemma prove_true user conn journal keys : (prove user conn journal keys).1 = true ↔
  ∃ addr port sa sp l, words conn = [addr; port; sa; sp] ∧ last_login user addr port (logins journal) = Some l ∧
    l_fp l ≠ "" ∧ l_fp l ∈ authorized_fingerprints keys.
Proof.
  unfold prove. split.
  - destruct (words conn) as [|addr [|port [|sa [|sp [|]]]]]; try done. rewrite accepted_last.
    destruct (last_login _ _ _ _) as [l|] eqn:El; [|done]. case_bool_decide as Hne; [done|].
    case_bool_decide as Hin; [|done]. intros _. by exists addr, port, sa, sp, l.
  - intros (addr & port & sa & sp & l & -> & Hl & Hne & Hin). rewrite accepted_last, Hl.
    rewrite bool_decide_false, bool_decide_true by done. done.
Qed.

Lemma login_fp_ne l : login_ok l → l_fp l ≠ "".
Proof. by intros [_ _ _ (fp & -> & _)]. Qed.
Lemma entry_logins_ok es : Forall entry_ok es → Forall login_ok (omap entry_login es).
Proof.
  intros Hes. apply Forall_forall. intros l (e & He & Hl)%list_elem_of_omap.
  rewrite Forall_forall in Hes. specialize (Hes e He). destruct e; simplify_eq/=. apply Hes.
Qed.

(** Claim C29: over a journal of sshd's records of logins by key, plain or by a
    certificate, and of lines that do not hold a record's opening words, and an
    [authorized_keys] file of keys, each with or without options and a comment,
    blanks and comments, the proof succeeds exactly when the last login the
    journal names for the user from the connection's endpoint was by the key of
    one of the file's lines.  A line that quotes those words is left out, and
    can be read as a record: [quoted_record_read]. *)
Theorem session_proved_exactly es ks user addr port sa sp :
  Forall entry_ok es → Forall key_ok ks → Forall word [addr; port; sa; sp] →
  (prove user (sjoin " " [addr; port; sa; sp]) (lines_text (map entry_text es)) (lines_text (map key_text ks))).1 = true
  ↔ ∃ l options type blob comment,
      last_login user addr port (omap entry_login es) = Some l
      ∧ Key options type blob comment ∈ ks ∧ l_fp l = print_of blob.
Proof.
  intros Hes Hks Hw. rewrite prove_true, words_connection, logins_journal, authorized_text by done. split.
  - intros (addr' & port' & sa' & sp' & l & [= <- <- <- <-] & Hl & _ & Hin).
    apply elem_of_list_to_set, list_elem_of_omap in Hin as (k & Hk & Hp).
    destruct k as [o ty bl c|]; [|done]. injection Hp as Hp. by exists l, o, ty, bl, c.
  - intros (l & o & ty & bl & c & Hl & Hk & Hp). exists addr, port, sa, sp, l. split_and!; [done|done| |].
    + apply login_fp_ne. pose proof (entry_logins_ok es Hes) as Hok. rewrite Forall_forall in Hok. apply Hok.
      by apply last_login_in in Hl as [? _].
    + apply elem_of_list_to_set, list_elem_of_omap. exists (Key o ty bl c). cbn. by rewrite Hp.
Qed.

(** * A run *)

Section main.
Context {E : Type} `{!Outside E} (sys : system).

(** A session is proved only by the journal and the account's file:
    a run that exits 0 changed no file, ran [journalctl] and nothing else, and
    what it printed holds sshd's record of a login of the user from the
    connection's endpoint, by a key that decodes from the token after a key
    type on a line of the account's [authorized_keys]. *)
Theorem session_proof_sound user conn (w w' : @world E) why :
  main sys user conn w = (inr (0%Z, why), w') →
  ∃ home f c addr port sa sp l pre kind post line before type blob after,
    home_of sys user = Ok home ∧ files w !! keys_path home = Some f
    ∧ files w' = files w ∧ ran w' = (ran w ++ [(journal_argv, environment sys, inr c)])%list
    ∧ words conn = [addr; port; sa; sp]
    ∧ login_ok l ∧ l_user l = user ∧ l_addr l = addr ∧ l_port l = port
    ∧ stdout c = pre +:+ accepted_text l kind +:+ post
    ∧ line ∈ splitlines (f_text f) ∧ tokens (strip line) = (before ++ type :: blob :: after)%list
    ∧ is_key_type type = true ∧ fingerprint blob = Ok (l_fp l).
Proof.
  unfold main. intros (keys & w1 & Hk & H)%bind_ok.
  destruct keys as [e|keys]; [by apply ret_ok in H as [? _]|].
  assert (∃ home f, home_of sys user = Ok home ∧ files w !! keys_path home = Some f ∧ keys = f_text f
    ∧ files w1 = files w ∧ ran w1 = ran w) as (home & f & Hh & Hf & -> & Hfw & Hrw).
  { apply catch_ok in Hk as [Hk|(e & w2 & _ & Hk)]; [|by destruct e as [| |[]]; apply ret_ok in Hk as [? _] || discriminate Hk].
    apply bind_ok in Hk as (text & w2 & Hk & Hr). apply ret_ok in Hr as [[= ->] ->].
    apply lift_bind_ok in Hk as (home & Hh & (f & Hf & -> & ? & ?)%read_text_inv). by exists home, f. }
  unfold journal_text in H. apply bind_ok in H as (j & w2 & Hj & H).
  apply bind_ok in Hj as (c & w3 & Hc & Hj). apply ret_ok in Hj as [-> ->].
  apply spawn_inv in Hc as [Hfc Hrc].
  destruct (prove user conn (stdout c) (f_text f)) as [ok why'] eqn:Hp. destruct ok; [|by apply ret_ok in H as [[= ] _]].
  apply ret_ok in H as [_ ->].
  assert ((prove user conn (stdout c) (f_text f)).1 = true) as Ht by by rewrite Hp.
  apply prove_true in Ht as (addr & port & sa & sp & l & Hwd & Hl & _ & Ha).
  apply last_login_in in Hl as (Hl & Hu & Had & Hpo). apply logins_from_inv in Hl as (Hok & pre & kind & post & _ & Ht).
  apply authorized_inv in Ha as (line & before & type & blob & after & ? & ? & ? & ?).
  exists home, f, c, addr, port, sa, sp, l, pre, kind, post, line, before, type, blob, after.
  rewrite Hfc, Hrc, Hfw, Hrw. done.
Qed.
End main.

(** * A session *)

Definition sample_blob : string := "ssh-ed25519 key of ops".
Definition sample_login : login := {|
  l_user := "ops"; l_addr := "203.0.113.9"; l_port := "50022"; l_fp := print_of sample_blob |}.
Definition sample_entries : list entry := [
  Other "Server listening on 0.0.0.0 port 22.";
  Accepted sample_login "ED25519" "";
  Other "Invalid user admin from 198.51.100.4 port 40000"].
Definition sample_keys : list key_entry := [
  Note "# the ops account"; Note "";
  Key (Some ("from=" +:+ String dquote ("203.0.113.0/24" +:+ String dquote ""))) "ssh-ed25519" sample_blob "ops key"].

Lemma sample_login_ok : login_ok sample_login.
Proof.
  split; [split; done| split; done|split; done|]. eexists. split; [reflexivity|].
  split; [by vm_compute|]. apply b64_forall, std_char_ok.
Qed.
Lemma sample_entries_ok : Forall entry_ok sample_entries.
Proof.
  apply Forall_cons. split; [by vm_compute|]. apply Forall_cons. split; [split; [apply sample_login_ok|by split_and!]|].
  apply Forall_cons. split; [by vm_compute|]. constructor.
Qed.
Lemma sample_keys_ok : Forall key_ok sample_keys.
Proof.
  apply Forall_cons. split; [split; [done|by right]|]. apply Forall_cons. split; [split; [done|by left]|].
  apply Forall_cons. split; [|constructor]. split_and!; try by vm_compute.
  intros o [= <-]. by vm_compute.
Qed.

Lemma session_proved_exactly_witness :
  (prove "ops" (sjoin " " ["203.0.113.9"; "50022"; "10.0.0.2"; "22"])
     (lines_text (map entry_text sample_entries)) (lines_text (map key_text sample_keys))).1 = true.
Proof.
  apply (session_proved_exactly sample_entries sample_keys "ops" "203.0.113.9" "50022" "10.0.0.2" "22").
  - exact sample_entries_ok.
  - exact sample_keys_ok.
  - repeat (apply Forall_cons; split; [split; done|]). constructor.
  - exists sample_login. do 4 eexists. split; [reflexivity|]. split; [|reflexivity].
    right. right. left.
Defined.

Module host.
(** A host whose [journalctl] prints the sample's journal. *)
#[export] Instance outside : Outside unit := {
  run_cmd := λ _ _ _ e, (inr {| returncode := 0; stdout := lines_text (map entry_text sample_entries); stderr := "" |}, e);
  mkstemp := λ _ e, (inl OSError, e); refuses := λ _ e, (false, e); urandom_at := λ _, "000"%char; umask_mode := 420%Z }.
Definition sys : system := {| home_of := λ u, if bool_decide (u = "ops") then Ok "/home/ops" else Raise KeyError;
  environment := []; text_of := λ _, "error" |}.
Definition world0 : @world unit := {| files := {[ "/home/ops/.ssh/authorized_keys" :=
    {| f_text := lines_text (map key_text sample_keys); f_mode := 384 |} ]}; ran := []; pos := 0; ext := tt |}.
End host.
#[local] Existing Instances host.outside.

Lemma session_proof_sound_witness :
  ∃ why w', main host.sys "ops" "203.0.113.9 50022 10.0.0.2 22" host.world0 = (inr (0%Z, why), w')
    ∧ ∃ addr l, l_addr l = addr ∧ l_user l = "ops" ∧ files w' = files host.world0.
Proof.
  eexists _, _.
  split; [by vm_compute|].
  edestruct (session_proof_sound host.sys "ops" "203.0.113.9 50022 10.0.0.2 22" host.world0)
    as (? & ? & ? & addr & ? & ? & ? & l & ? & ? & ? & ? & ? & ? & ? & ? & ? & ? & Hf & ? & ? & ? & Hu & Ha & ?);
    [by vm_compute|]. exists addr, l. by split_and!.
Defined.

(** The record is looked for anywhere on a line: a line that quotes a name the
    client chose, with the text of a record in it, is read as one. *)
Example quoted_record_read :
  (prove "ops" "203.0.113.9 50022 10.0.0.2 22"
     (lines_text ["Invalid user " +:+ accepted_text sample_login "ED25519" +:+ " from 198.51.100.4 port 40000"])
     (lines_text (map key_text sample_keys))).1 = true.
Proof. by vm_compute. Qed.
