(* ===== verification/PublicHttps.v ===== *)
(** [ansible/helpers/public_https.py]: a GET of a name the way the internet
    reaches it, the name asked of public resolvers.  The exchanges with
    resolvers and servers are outside, and kept in order. *)
From S2P Require Import Prelude PyStr PyNum PyVal Json Encoding Sha256 Effects UrlLib.

#[local] Open Scope string_scope.

Definition PUBLIC_RESOLVERS : list string := ["1.1.1.1"; "9.9.9.9"].
Definition BODY_LIMIT : nat := 64 * 1024.
Definition TYPE_A : N := 1.
Definition CLASS_IN : N := 1.
Definition RCODE_NXDOMAIN : N := 3.

(** * Bytes *)

(** [struct.unpack] of an unsigned big-endian field, and [struct.pack]. *)
Fixpoint be_value (acc : N) (s : string) : N :=
  match s with EmptyString => acc | String a s => be_value (acc * 256 + code a) s end.
Fixpoint be_text (n : nat) (v : N) : string :=
  match n with O => "" | S n => be_text n (v / 256) +:+ String (ascii_of_N (v mod 256)) "" end.

(** [data[i]], and the [n] bytes [struct.unpack] asks of [data[i:i + n]]:
    [None] is the [IndexError] or the [struct.error]. *)
Definition byte_at (data : string) (i : nat) : option N := code <$> String.get i data.
Definition unpack (data : string) (i n : nat) : option string :=
  if (i + n <=? String.length data)%nat then Some (String.substring i n data) else None.
Definition field (data : string) (i n : nat) : option N := be_value 0 <$> unpack data i n.

(** * A DNS response *)

(** [_skip_name]; each turn moves on, so [data]'s length bounds the turns. *)
Fixpoint skip_name_turns (turns : nat) (data : string) (i : nat) : option nat :=
  match turns with
  | O => None
  | S turns =>
      length ← byte_at data i;
      if (length =? 0)%N then Some (i + 1)
      else if (N.land length 192 =? 192)%N then Some (i + 2)
      else skip_name_turns turns data (i + N.to_nat length + 1)
  end.
Definition skip_name (data : string) (i : nat) : option nat := skip_name_turns (S (String.length data)) data i.

Fixpoint skip_questions (count : nat) (data : string) (i : nat) : option nat :=
  match count with
  | O => Some i
  | S count => i ← skip_name data i; skip_questions count data (i + 4)
  end.

(** [socket.inet_ntoa] *)
Fixpoint octets (s : string) : list string :=
  match s with EmptyString => [] | String a s => str_of_int (Z.of_N (code a)) :: octets s end.
Definition inet_ntoa (s : string) : string := sjoin "." (octets s).

Fixpoint read_records (count : nat) (data : string) (i : nat) (found : list string) : option (list string) :=
  match count with
  | O => Some found
  | S count =>
      i ← skip_name data i;
      _ ← unpack data i 10;
      rtype ← field data i 2; rclass ← field data (i + 2) 2; rdlength ← field data (i + 8) 2;
      let i := (i + 10)%nat in
      let n := N.to_nat rdlength in
      if (String.length data <? i + n)%nat then None else
      read_records count data (i + n)
        (if (rtype =? TYPE_A)%N && (rclass =? CLASS_IN)%N && (rdlength =? 4)%N
         then found ++ [inet_ntoa (String.substring i 4 data)] else found)%list
  end.

(** [parse_response]: [Unusable] is its [None], [NoSuchName] the exception of
    NXDOMAIN. *)
Inductive reply :=
  | Unusable
  | NoSuchName
  | Records (addresses : list string).
#[export] Instance reply_eq_dec : EqDecision reply.
Proof. solve_decision. Defined.

Definition usable {A} (o : option A) (f : A → reply) : reply := match o with Some a => f a | None => Unusable end.
Definition parse_response (data : string) (query_id : N) : reply :=
  usable (unpack data 0 12) (λ _, usable (field data 0 2) (λ rid, usable (field data 2 2) (λ flags,
  usable (field data 4 2) (λ qdcount, usable (field data 6 2) (λ ancount,
    if negb (rid =? query_id)%N then Unusable else
    let rcode := N.land flags 15 in
    if (rcode =? RCODE_NXDOMAIN)%N then NoSuchName
    else if negb (rcode =? 0)%N then Unusable
    else usable (skip_questions (N.to_nat qdcount) data 12) (λ i,
         usable (read_records (N.to_nat ancount) data i []) Records)))))).

(** * A query *)

(** One label: [bytes([len(label)]) + label.encode("ascii")]. *)
Definition label_bytes (label : string) : res string :=
  if (256 <=? String.length label)%nat || negb (sforall (λ a, (code a <? 128)%N) label) then Raise ValueError
  else Ok (String (ascii_of_nat (String.length label)) label).
Definition qname_of (name : string) : res string :=
  labels ← mapM_res label_bytes (split "." (rstrip_char "." name));
  Ok (foldr String.append "" labels +:+ String "000" "").
Definition packet_of (query_id : N) (name : string) : res string :=
  qname ← qname_of name;
  Ok (be_text 2 query_id +:+ be_text 2 256 +:+ be_text 2 1 +:+ be_text 2 0 +:+ be_text 2 0 +:+ be_text 2 0
      +:+ qname +:+ be_text 2 TYPE_A +:+ be_text 2 CLASS_IN).

(** * Outside *)

(** How a run stops: a name nobody has, as [gaierror] tells it, or another
    exception with its type and text, as the result prints them. *)
Inductive fault :=
  | NotFound (name server : string)
  | Raised (text : string).

Record http_answer := { a_status : Z; a_location : string; a_body : string }.
(** A GET over TLS to an address: an answer, an [OSError], or another exception. *)
Inductive got :=
  | Got (a : http_answer)
  | Refused (text : string)
  | Broken (text : string).
Record target := { t_host : string; t_port : Z; t_path : string; t_timeout : float }.

(** [udp_ask]'s [None] is an [OSError] of the exchange; [decode] is
    [bytes.decode("utf-8", "replace")]; [error_text] is the type and text of an
    exception of the code. *)
Class Outside (E : Type) := {
  random_id : E → N * E;
  udp_ask : string → string → E → (fault + option string) * E;
  local_lookup : string → E → (fault + list string) * E;
  https_get : string → target → E → got * E;
  decode : string → string;
  error_text : exn → string
}.

(** What was asked of whom, with the answer. *)
Inductive exchange :=
  | Asked (server packet : string) (r : fault + option string)
  | Looked (name : string) (r : fault + list string)
  | Fetched (address : string) (t : target) (g : got).

Section host.
Context {E : Type} `{!Outside E}.

Record world := { log : list exchange; ext : E }.
Abbreviation M := (ST world fault).
Definition pure {A} (r : res A) : M A := lift (λ e, Raised (error_text e)) r.

Definition randbits16 : M N := λ w,
  let '(n, e) := random_id (ext w) in (inr (n mod 65536)%N, {| log := log w; ext := e |}).
Definition ask (server packet : string) : M (option string) := λ w,
  let '(r, e) := udp_ask server packet (ext w) in (r, {| log := (log w ++ [Asked server packet r])%list; ext := e |}).
Definition look (name : string) : M (list string) := λ w,
  let '(r, e) := local_lookup name (ext w) in (r, {| log := (log w ++ [Looked name r])%list; ext := e |}).
Definition get (address : string) (t : target) : M got := λ w,
  let '(g, e) := https_get address t (ext w) in (inr g, {| log := (log w ++ [Fetched address t g])%list; ext := e |}).

(** * The operations *)

Definition query (name server : string) : M (option (list string)) :=
  query_id ← randbits16;
  packet ← pure (packet_of query_id name);
  data ← ask server packet;
  match data with
  | None => mret None
  | Some data =>
      match parse_response data query_id with
      | Unusable => mret None
      | NoSuchName => throw (NotFound name server)
      | Records found => mret (Some found)
      end
  end.

(** The resolvers in turn: the first that answers decides. *)
Fixpoint ask_public (servers : list string) (name : string) : M (option (list string * string)) :=
  match servers with
  | [] => mret None
  | server :: servers =>
      found ← query name server;
      match found with
      | None => ask_public servers name
      | Some [] => throw (NotFound name server)
      | Some found => mret (Some (found, server))
      end
  end.
Definition resolve (name : string) : M (list string * string) :=
  answer ← ask_public PUBLIC_RESOLVERS name;
  match answer with
  | Some r => mret r
  | None => infos ← look name; mret (fromkeys infos, "system")
  end.

Record result := { r_status : Z; r_location : string; r_body : string; r_address : string; r_resolver : string; r_error : string }.

(** The addresses in turn; [last] is the last refusal. *)
Fixpoint try_addresses (addresses : list string) (resolver : string) (t : target) (last : option string) : M result :=
  match addresses with
  | [] => match last with
          | Some text => throw (Raised text)
          | None => throw (Raised ("OSError: no address for " +:+ t_host t))
          end
  | address :: addresses =>
      g ← get address t;
      match g with
      | Got a => mret {| r_status := a_status a; r_location := a_location a;
                         r_body := decode (String.substring 0 BODY_LIMIT (a_body a));
                         r_address := address; r_resolver := resolver; r_error := "" |}
      | Refused text => try_addresses addresses resolver t (Some text)
      | Broken text => throw (Raised text)
      end
  end.

Definition path_of (u : url) : string :=
  (if bool_decide (u_path u = "") then "/" else u_path u) +:+ (if bool_decide (u_query u = "") then "" else "?" +:+ u_query u).
Definition https_host (u : url) : option string :=
  if bool_decide (u_scheme u = "https") then hostname u else None.

(** [parts.port or 443] *)
Definition port_or (p : option Z) : Z := match p with Some n => if bool_decide (n = 0)%Z then 443 else n | None => 443 end.

(** The port is read at the first address. *)
Definition fetch (text : string) (timeout : float) : M result :=
  parts ← pure (urlsplit text "");
  match https_host parts with
  | None => throw (Raised ("ValueError: not an https URL: " +:+ repr_str text))
  | Some host =>
      '(addresses, resolver) ← resolve host;
      match addresses with
      | [] => throw (Raised ("OSError: no address for " +:+ host))
      | _ =>
          port ← pure (port_of parts);
          try_addresses addresses resolver
            {| t_host := host; t_port := port_or port; t_path := path_of parts; t_timeout := timeout |} None
      end
  end.

Definition fault_text (f : fault) : string :=
  match f with
  | NotFound name server => "gaierror: [Errno -2] Name or service not known (" +:+ name +:+ ", asked " +:+ server +:+ ")"
  | Raised text => text
  end.
Definition no_answer (f : fault) : result := {| r_status := -1; r_location := ""; r_body := ""; r_address := "";
  r_resolver := ""; r_error := fault_text f |}.
Definition result_val (r : result) : val := VDict [("status", VInt (r_status r)); ("location", VStr (r_location r));
  ("body", VStr (r_body r)); ("address", VStr (r_address r)); ("resolver", VStr (r_resolver r)); ("error", VStr (r_error r))].
(** [main] on its two arguments: what it prints, the exit code being 0. *)
Definition probe (url : string) (timeout : float) : M result := catch (fetch url timeout) (λ f, mret (no_answer f)).
Definition main (url : string) (timeout : float) : M string :=
  r ← probe url timeout; mret (dumps default_style (result_val r)).
End host.
