(* ===== verification/PublicHttpsFacts.v ===== *)
(** Facts of [PublicHttps]: a response is read back as the records it was
    written from, and an answer came from an address the named resolver gave. *)
From S2P Require Import Prelude PyStr PyNum PyVal Json Encoding Sha256 Effects UrlLib PublicHttps.

#[local] Open Scope string_scope.

(** * Bytes at a place *)

Lemma length_be_text n v : String.length (be_text n v) = n.
Proof. revert v. induction n as [|n IH]; intros v; [done|]. cbn. rewrite length_sapp, IH. cbn. lia. Qed.
Lemma be_value_app acc s a : be_value acc (s +:+ String a "") = (be_value acc s * 256 + code a)%N.
Proof. revert acc. induction s as [|b s IH]; intros acc; [done|]. cbn. apply IH. Qed.
Lemma be_value_text n v : be_value 0 (be_text n v) = (v mod 256 ^ N.of_nat n)%N.
Proof.
  revert v. induction n as [|n IH]; intros v; [by rewrite N.mod_1_r|].
  cbn [be_text]. rewrite be_value_app, IH, code_of_N by (apply N.mod_lt; lia).
  rewrite Nat2N.inj_succ, N.pow_succ_r', (N.Div0.mod_mul_r v 256). lia.
Qed.

(** [s] stands in [data] at [i]. *)
Definition at_pos (data : string) (i : nat) (s : string) : Prop :=
  ∃ a b, data = a +:+ s +:+ b ∧ i = String.length a.

Lemma at_self s : at_pos s 0 s.
Proof. exists "", "". by rewrite string_app_nil_r. Qed.
Lemma at_app data i s t : at_pos data i (s +:+ t) →
  at_pos data i s ∧ at_pos data (i + String.length s) t.
Proof.
  intros (a & b & -> & ->). split.
  - exists a, (t +:+ b). by rewrite <-string_app_assoc.
  - exists (a +:+ s), b. by rewrite length_sapp, <-!string_app_assoc.
Qed.
Lemma at_bound data i s : at_pos data i s → (i + String.length s ≤ String.length data)%nat.
Proof. intros (a & b & -> & ->). rewrite !length_sapp. lia. Qed.
Lemma at_substring data i s : at_pos data i s → String.substring i (String.length s) data = s.
Proof. intros (a & b & -> & ->). rewrite substring_app_r. apply substring_prefix. Qed.
Lemma at_unpack data i s : at_pos data i s → unpack data i (String.length s) = Some s.
Proof.
  intros H. unfold unpack. rewrite at_substring by done. apply at_bound in H. by apply Nat.leb_le in H as ->.
Qed.
Lemma at_byte data i a s : at_pos data i (String a s) → byte_at data i = Some (code a).
Proof. intros (p & b & -> & ->). unfold byte_at. induction p as [|c p IH]; [done|]. exact IH. Qed.
Lemma at_field data i n v : at_pos data i (be_text n v) → field data i n = Some (v mod 256 ^ N.of_nat n)%N.
Proof.
  intros H%at_unpack. rewrite length_be_text in H. unfold field. rewrite H. cbn. by rewrite be_value_text.
Qed.
Lemma at_field2 data i v : (v < 65536)%N → at_pos data i (be_text 2 v) → field data i 2 = Some v.
Proof. intros Hv H. rewrite (at_field _ _ _ _ H), N.mod_small; done. Qed.

(** * Names *)

(** The turns of [skip_name] are enough: it is the loop of the code. *)
Lemma byte_at_bound data i n : byte_at data i = Some n → (i < String.length data)%nat.
Proof.
  unfold byte_at. revert i. induction data as [|a data IH]; intros [|i] H; cbn in *; try done; [lia|]. apply IH in H. lia.
Qed.
Lemma skip_name_enough turns turns' data i :
  (String.length data < turns + i)%nat → (String.length data < turns' + i)%nat →
  skip_name_turns turns data i = skip_name_turns turns' data i.
Proof.
  revert turns' i. induction turns as [|turns IH]; intros [|turns'] i H H'; cbn.
  1-3: assert (byte_at data i = None) as E;
    [destruct (byte_at data i) eqn:E; [apply byte_at_bound in E; lia|done]|try rewrite E; done].
  destruct (byte_at data i) as [n|] eqn:E; [|done]. cbn. destruct (n =? 0)%N; [done|].
  destruct (_ =? _)%N; [done|]. apply IH; lia.
Qed.
Lemma skip_name_loop data i : skip_name data i =
  (length ← byte_at data i;
   if (length =? 0)%N then Some (i + 1)
   else if (N.land length 192 =? 192)%N then Some (i + 2)
   else skip_name data (i + N.to_nat length + 1)).
Proof.
  unfold skip_name at 1. cbn. destruct (byte_at data i) as [n|] eqn:E; [|done]. cbn.
  destruct (n =? 0)%N; [done|]. destruct (_ =? _)%N; [done|]. apply (skip_name_enough (String.length data) (S (String.length data))); lia.
Qed.

#[local] Arguments skip_name : simpl never.

(** A name on the wire: labels, then the root or a pointer to an earlier name. *)
Record wire_name := { n_labels : list string; n_pointer : option N }.
Definition label_text (l : string) : string := String (ascii_of_nat (String.length l)) l.
Definition end_text (p : option N) : string :=
  match p with
  | None => String "000" ""
  | Some offset => String (ascii_of_N (192 + offset / 256)) (String (ascii_of_N (offset mod 256)) "")
  end.
Definition name_text (n : wire_name) : string := foldr String.append (end_text (n_pointer n)) (map label_text (n_labels n)).
Definition wire_name_ok (n : wire_name) : Prop :=
  Forall (λ l, (0 < String.length l < 64)%nat) (n_labels n) ∧ (∀ o, n_pointer n = Some o → (o < 16384)%N).

(** A length below 64 has neither of the two bits of a pointer. *)
Lemma label_length_bits n : (0 < n < 64)%N → (n =? 0)%N = false ∧ (N.land n 192 =? 192)%N = false.
Proof.
  intros Hn. split; [apply N.eqb_neq; lia|]. apply negb_true_iff.
  apply (below64_spec (λ n, negb (N.land n 192 =? 192)%N)); [by vm_compute|lia].
Qed.
Lemma pointer_bits o : (o < 16384)%N → (192 + o / 256 =? 0)%N = false ∧ (N.land (192 + o / 256) 192 =? 192)%N = true.
Proof.
  intros Ho. split; [apply N.eqb_neq; generalize (o / 256)%N; lia|].
  apply (below64_spec (λ n, N.land (192 + n) 192 =? 192)%N); [by vm_compute|].
  apply N.Div0.div_lt_upper_bound. lia.
Qed.
Lemma code_of_nat n : (n < 256)%nat → code (ascii_of_nat n) = N.of_nat n.
Proof. intros Hn. unfold ascii_of_nat. rewrite code_of_N; [done|lia]. Qed.

Lemma skip_name_text n data i : wire_name_ok n → at_pos data i (name_text n) →
  skip_name data i = Some (i + String.length (name_text n)).
Proof.
  destruct n as [ls p]. intros [Hls Hp]. cbn in *. unfold name_text. cbn [n_labels n_pointer].
  revert i. induction Hls as [|l ls Hl _ IH]; intros i H; rewrite skip_name_loop; cbn [map foldr] in *.
  - destruct p as [o|]; cbn [end_text] in *.
    + destruct (pointer_bits o (Hp o eq_refl)) as [H0 H1].
      assert (o / 256 < 64)%N by (apply N.Div0.div_lt_upper_bound; specialize (Hp o eq_refl); lia).
      rewrite (at_byte _ _ _ _ H), code_of_N by lia. cbn. by rewrite H0, H1.
    + by rewrite (at_byte _ _ _ _ H).
  - pose proof H as Hb. apply at_app in Hb as [_ Hr]. unfold label_text in H at 1. cbn in H. rewrite (at_byte _ _ _ _ H), code_of_nat by lia. cbn.
    destruct (label_length_bits (N.of_nat (String.length l))) as [-> ->]; [lia|].
    rewrite Nat2N.id. replace (i + String.length l + 1)%nat with (i + String.length (label_text l))%nat by (cbn; lia).
    rewrite IH by exact Hr. f_equal. cbn. rewrite length_sapp. lia.
Qed.

(** * Messages *)

Record question := { q_name : wire_name; q_type : N; q_class : N }.
Record record := { rr_name : wire_name; rr_type : N; rr_class : N; rr_ttl : N; rr_data : string }.
Record message := { m_id : N; m_flags : N; m_questions : list question; m_answers : list record;
  m_authority : N; m_additional : N; m_rest : string }.

Definition question_text (q : question) : string := name_text (q_name q) +:+ be_text 2 (q_type q) +:+ be_text 2 (q_class q).
Definition record_text (r : record) : string :=
  name_text (rr_name r) +:+ be_text 2 (rr_type r) +:+ be_text 2 (rr_class r) +:+ be_text 4 (rr_ttl r)
  +:+ be_text 2 (N.of_nat (String.length (rr_data r))) +:+ rr_data r.
Definition texts {A} (f : A → string) (l : list A) (rest : string) : string := foldr String.append rest (map f l).
Definition message_text (m : message) : string :=
  be_text 2 (m_id m) +:+ be_text 2 (m_flags m) +:+ be_text 2 (N.of_nat (length (m_questions m)))
  +:+ be_text 2 (N.of_nat (length (m_answers m))) +:+ be_text 2 (m_authority m) +:+ be_text 2 (m_additional m)
  +:+ texts question_text (m_questions m) (texts record_text (m_answers m) (m_rest m)).

Definition record_ok (r : record) : Prop :=
  wire_name_ok (rr_name r) ∧ (rr_type r < 65536)%N ∧ (rr_class r < 65536)%N ∧ (N.of_nat (String.length (rr_data r)) < 65536)%N.
Record message_ok (m : message) : Prop := {
  ok_id : (m_id m < 65536)%N; ok_flags : (m_flags m < 65536)%N;
  ok_questions : (N.of_nat (length (m_questions m)) < 65536)%N; ok_answers : (N.of_nat (length (m_answers m)) < 65536)%N;
  ok_names : Forall (λ q, wire_name_ok (q_name q)) (m_questions m); ok_records : Forall record_ok (m_answers m)
}.

(** The address a record gives: an A record of the internet. *)
Definition address_of (r : record) : option string :=
  if (rr_type r =? TYPE_A)%N && (rr_class r =? CLASS_IN)%N && (String.length (rr_data r) =? 4)%nat
  then Some (inet_ntoa (rr_data r)) else None.

Lemma skip_questions_text qs rest data i :
  Forall (λ q, wire_name_ok (q_name q)) qs → at_pos data i (texts question_text qs rest) →
  ∃ j, skip_questions (length qs) data i = Some j ∧ at_pos data j rest.
Proof.
  intros Hqs. revert i. induction Hqs as [|q qs Hq _ IH]; intros i H; [by exists i|].
  unfold texts in H. cbn [map foldr] in H. apply at_app in H as [Hn H].
  unfold question_text in Hn at 1. apply at_app in Hn as [Hn _].
  cbn [length skip_questions]. rewrite (skip_name_text _ _ _ Hq Hn). cbn [mbind option_bind].
  unfold question_text in H at 1. rewrite !length_sapp, !length_be_text in H. apply IH.
  by replace (i + _ + 4)%nat with (i + (String.length (name_text (q_name q)) + (2 + 2)))%nat by lia.
Qed.

Lemma read_records_text rs rest data i found :
  Forall record_ok rs → at_pos data i (texts record_text rs rest) →
  read_records (length rs) data i found = Some (found ++ omap address_of rs)%list.
Proof.
  intros Hrs. revert i found. induction Hrs as [|r rs Hr _ IH]; intros i found H; cbn [length read_records].
  { by rewrite app_nil_r. }
  unfold texts in H. cbn [map foldr] in H. destruct Hr as (Hn & Ht & Hc & Hd).
  set (k := (i + String.length (name_text (rr_name r)))%nat).
  apply at_app in H as [Ha Hrest]. unfold record_text in Hrest at 1. rewrite !length_sapp, !length_be_text in Hrest.
  unfold record_text in Ha. apply at_app in Ha as [Hname Ha]. rewrite (skip_name_text _ _ _ Hn Hname).
  fold k in Ha |- *. cbn [mbind option_bind]. pose proof (at_bound _ _ _ Ha) as Hb.
  rewrite !length_sapp, !length_be_text in Hb.
  assert (is_Some (unpack data k 10)) as [u ->].
  { unfold unpack. rewrite (proj2 (Nat.leb_le _ _)) by lia. by eexists. }
  apply at_app in Ha as [H1 Ha]. apply at_app in Ha as [H2 Ha]. apply at_app in Ha as [_ Ha]. apply at_app in Ha as [H4 Ha].
  rewrite !length_be_text in *. cbn [mbind option_bind].
  rewrite (at_field2 _ _ _ Ht H1). cbn [mbind option_bind]. rewrite (at_field2 _ _ _ Hc H2). cbn [mbind option_bind].
  replace (k + 2 + 2 + 4)%nat with (k + 8)%nat in H4 by lia. rewrite (at_field2 _ _ _ Hd H4). cbn [mbind option_bind].
  rewrite Nat2N.id. replace (k + 2 + 2 + 4 + 2)%nat with (k + 10)%nat in Ha by lia.
  rewrite (proj2 (Nat.ltb_ge _ _)) by lia. rewrite IH.
  - f_equal. cbn [omap list_omap]. unfold address_of at 2.
    assert ((N.of_nat (String.length (rr_data r)) =? 4)%N = (String.length (rr_data r) =? 4)%nat) as ->.
    { destruct (Nat.eqb_spec (String.length (rr_data r)) 4); [apply N.eqb_eq|apply N.eqb_neq]; lia. }
    destruct (_ && _ && (String.length _ =? 4)%nat) eqn:Ea; [|done].
    apply andb_prop in Ea as [_ Ea%Nat.eqb_eq]. pose proof (at_substring _ _ _ Ha) as Hs. rewrite Ea in Hs.
    by rewrite Hs, <-app_assoc.
  - replace (k + 10 + String.length (rr_data r))%nat with
      (i + (String.length (name_text (rr_name r)) + (2 + (2 + (4 + (2 + String.length (rr_data r)))))))%nat by (subst k; lia).
    exact Hrest.
Qed.

(** Claim C31: a response whose questions and records are written as the wire
    format asks, names ending at the root or in a pointer, reads back as the
    addresses of its A records in order, when it answers the query of that id
    without an error; another id and a server's failure make it unusable, and
    NXDOMAIN is told apart. *)
Theorem dns_response_read m query_id : message_ok m →
  parse_response (message_text m) query_id =
  if negb (m_id m =? query_id)%N then Unusable
  else if (N.land (m_flags m) 15 =? RCODE_NXDOMAIN)%N then NoSuchName
  else if negb (N.land (m_flags m) 15 =? 0)%N then Unusable
  else Records (omap address_of (m_answers m)).
Proof.
  intros [Hid Hfl Hqs Has Hn Hr]. pose proof (at_self (message_text m)) as H. unfold message_text in H at 2.
  set (data := message_text m) in H |- *. clearbody data.
  pose proof (at_bound _ _ _ H) as Hb. rewrite !length_sapp, !length_be_text in Hb.
  unfold parse_response. assert (is_Some (unpack data 0 12)) as [u ->].
  { unfold unpack. rewrite (proj2 (Nat.leb_le _ _)) by lia. by eexists. }
  apply at_app in H as [H1 H]. apply at_app in H as [H2 H]. apply at_app in H as [H3 H]. apply at_app in H as [H4 H].
  apply at_app in H as [_ H]. apply at_app in H as [_ H]. rewrite !length_be_text in *. cbn [Nat.add usable] in *.
  rewrite (at_field2 _ _ _ Hid H1), (at_field2 _ _ _ Hfl H2), (at_field2 _ _ _ Hqs H3), (at_field2 _ _ _ Has H4). cbn [usable].
  rewrite !Nat2N.id. destruct (m_id m =? query_id)%N; [|done]. cbn [negb].
  destruct (_ =? RCODE_NXDOMAIN)%N; [done|]. destruct (_ =? 0)%N; [|done]. cbn [negb].
  destruct (skip_questions_text _ _ _ _ Hn H) as (j & -> & Hj). cbn [usable].
  by rewrite (read_records_text _ _ _ _ [] Hr Hj).
Qed.

(** * The question asked *)

(** What [query] sends is a message with one question: the name's labels. *)
Lemma mapM_labels ls : Forall (λ l, (String.length l < 256)%nat ∧ sforall (λ a, (code a <? 128)%N) l = true) ls →
  mapM_res label_bytes ls = Ok (map label_text ls).
Proof.
  induction 1 as [|l ls [Hl Ha] _ IH]; [done|]. 
  assert (label_bytes l = Ok (label_text l)) as E.
  { unfold label_bytes. by rewrite Ha, (proj2 (Nat.leb_gt _ _)) by lia. }
  cbn [mapM_res map]. rewrite E. cbn [mbind res_bind]. by rewrite IH.
Qed.
Lemma packet_text query_id name :
  let labels := split "." (rstrip_char "." name) in
  Forall (λ l, (String.length l < 256)%nat ∧ sforall (λ a, (code a <? 128)%N) l = true) labels →
  packet_of query_id name = Ok (message_text {|
    m_id := query_id; m_flags := 256; m_answers := []; m_authority := 0; m_additional := 0; m_rest := "";
    m_questions := [{| q_name := {| n_labels := labels; n_pointer := None |}; q_type := TYPE_A; q_class := CLASS_IN |}] |}).
Proof.
  intros labels Hl. unfold packet_of, qname_of. fold labels. rewrite (mapM_labels labels Hl). cbn [mbind res_bind].
  f_equal. unfold message_text, texts, question_text, name_text, end_text.
  cbn [m_id m_flags m_questions m_answers m_authority m_additional m_rest map foldr q_name q_type q_class n_labels n_pointer length].
  rewrite <-!string_app_assoc. do 6 f_equal. change (N.of_nat 1) with 1%N. change (N.of_nat 0) with 0%N. rewrite string_app_nil_r.
  induction (map label_text labels) as [|t ts IH]; [done|]. cbn [foldr]. by rewrite <-!string_app_assoc, IH.
Qed.

(** * Where an answer came from *)

Section probe.
Context {E : Type} `{!Outside E}.
Implicit Types w : @world E.

(** A resolver that gave no usable answer about [name], and one that gave the
    addresses [found]. *)
Definition unanswered (name server : string) (x : exchange) : Prop :=
  ∃ query_id packet reply, x = Asked server packet (inr reply) ∧ packet_of query_id name = Ok packet
    ∧ ∀ data, reply = Some data → parse_response data query_id = Unusable.
Definition answered (name server : string) (found : list string) (x : exchange) : Prop :=
  ∃ query_id packet data, x = Asked server packet (inr (Some data)) ∧ packet_of query_id name = Ok packet
    ∧ parse_response data query_id = Records found.

Lemma query_run name server w o w' : query name server w = (inr o, w') →
  ∃ x, log w' = (log w ++ [x])%list ∧
    match o with None => unanswered name server x | Some found => answered name server found x end.
Proof.
  intros (query_id & w1 & Hq & H)%bind_ok. unfold randbits16 in Hq. destruct (random_id (ext w)) as [n e].
  apply pair_equal_spec in Hq as [[= <-] <-]. apply lift_bind_ok in H as (packet & Hp & H).
  apply bind_ok in H as (reply & w2 & Ha & H). unfold ask in Ha.
  destruct (udp_ask server packet (ext _)) as [r e2]. apply pair_equal_spec in Ha as [-> <-].
  exists (Asked server packet (inr reply)). destruct reply as [data|].
  - destruct (parse_response data _) as [| |found] eqn:Hr; [|done|]; apply ret_ok in H as [-> ->]; split; try done.
    + exists (n mod 65536)%N, packet, (Some data). split_and!; [done..|]. by intros ? [= <-].
    + by exists (n mod 65536)%N, packet, data.
  - apply ret_ok in H as [-> ->]. split; [done|]. by exists (n mod 65536)%N, packet, None.
Qed.

(** The exchanges with the public resolvers: those before the one that
    answered gave nothing. *)
Definition public_answer (name : string) (servers : list string) (found : list string) (server : string) (xs : list exchange) : Prop :=
  ∃ before after us x, servers = (before ++ server :: after)%list ∧ xs = (us ++ [x])%list
    ∧ Forall2 (unanswered name) before us ∧ answered name server found x ∧ found ≠ [].

Lemma ask_public_run servers name w o w' : ask_public servers name w = (inr o, w') →
  ∃ xs, log w' = (log w ++ xs)%list ∧
    match o with
    | None => Forall2 (unanswered name) servers xs
    | Some (found, server) => public_answer name servers found server xs
    end.
Proof.
  revert w. induction servers as [|server servers IH]; intros w H; cbn [ask_public] in H.
  { apply ret_ok in H as [-> ->]. exists []. by rewrite app_nil_r. }
  apply bind_ok in H as (found & w1 & (x & Hx & Hf)%query_run & H). destruct found as [[|a l]|]; [done| |].
  - apply ret_ok in H as [-> ->]. exists [x]. split; [done|]. by exists [], servers, [], x.
  - apply IH in H as (xs & Hxs & H). exists (x :: xs). rewrite Hxs, Hx, <-app_assoc. split; [done|].
    destruct o as [[found server']|]; [|by constructor].
    destruct H as (before & after & us & y & -> & -> & Hu & Hy & Hne).
    exists (server :: before), after, (x :: us), y. split_and!; [done..| |done|done]. by constructor.
Qed.

(** The addresses of a name: those of the first public resolver that answered,
    or the local resolver's when none did. *)
Definition resolved (name : string) (found : list string) (resolver : string) (xs : list exchange) : Prop :=
  public_answer name PUBLIC_RESOLVERS found resolver xs
  ∨ ∃ us infos, resolver = "system" ∧ found = fromkeys infos
      ∧ Forall2 (unanswered name) PUBLIC_RESOLVERS us ∧ xs = (us ++ [Looked name (inr infos)])%list.

Lemma resolve_run name w found resolver w' : resolve name w = (inr (found, resolver), w') →
  ∃ xs, log w' = (log w ++ xs)%list ∧ resolved name found resolver xs.
Proof.
  intros (answer & w1 & (xs & Hxs & Ha)%ask_public_run & H)%bind_ok. destruct answer as [[f s]|].
  - apply ret_ok in H as [[= -> ->] ->]. exists xs. split; [done|]. by left.
  - apply bind_ok in H as (infos & w2 & Hl & H). apply ret_ok in H as [[= -> ->] ->].
    unfold look in Hl. destruct (local_lookup name (ext w1)) as [r e]. apply pair_equal_spec in Hl as [-> <-].
    exists (xs ++ [Looked name (inr infos)])%list. cbn. rewrite Hxs, <-app_assoc. split; [done|]. right. by exists xs, infos.
Qed.

Definition refused (t : target) (address : string) (x : exchange) : Prop := ∃ text, x = Fetched address t (Refused text).

Lemma try_addresses_run addresses resolver t last w r w' : try_addresses addresses resolver t last w = (inr r, w') →
  r_resolver r = resolver ∧
  ∃ before after xs a, addresses = (before ++ r_address r :: after)%list
    ∧ log w' = (log w ++ xs ++ [Fetched (r_address r) t (Got a)])%list ∧ Forall2 (refused t) before xs
    ∧ r_status r = a_status a ∧ r_location r = a_location a ∧ r_body r = decode (String.substring 0 BODY_LIMIT (a_body a)).
Proof.
  revert last w. induction addresses as [|address addresses IH]; intros last w H; cbn [try_addresses] in H.
  { by destruct last. }
  apply bind_ok in H as (g & w1 & Hg & H). unfold get in Hg. destruct (https_get address t (ext w)) as [g' e].
  apply pair_equal_spec in Hg as [[= ->] <-]. destruct g as [a|text|text]; [| |done].
  - apply ret_ok in H as [-> ->]. cbn [r_resolver r_address r_status r_location r_body log]. split; [done|].
    by exists [], addresses, [], a.
  - apply IH in H as (Hr & before & after & xs & a & -> & Hlog & Hx & H). split; [done|].
    exists (address :: before), after, (Fetched address t (Refused text) :: xs), a.
    cbn in Hlog. rewrite Hlog, <-app_assoc. destruct H as (? & ? & ?). split_and!; try done. constructor; [by eexists|done].
Qed.

(** Claim C30: a probe that names a resolver got its HTTP answer from the
    internet's view of the URL's host: the log is the questions about that
    host to the public resolvers, each before the one that answered having
    given nothing usable, and to the local resolver only when neither answered;
    then one request of the URL's path and port, for that host, to each address found
    until one answered; the result is that answer, at the address it came from. *)
Theorem public_answer_provenance url timeout w r w' :
  probe url timeout w = (inr r, w') → r_resolver r ≠ "" →
  ∃ parts host port found xs before after gs a,
    urlsplit url "" = Ok parts ∧ https_host parts = Some host ∧ port_of parts = Ok port
    ∧ let t := {| t_host := host; t_port := port_or port; t_path := path_of parts; t_timeout := timeout |} in
      log w' = (log w ++ xs ++ gs ++ [Fetched (r_address r) t (Got a)])%list
      ∧ resolved host found (r_resolver r) xs
      ∧ found = (before ++ r_address r :: after)%list ∧ Forall2 (refused t) before gs
      ∧ r_status r = a_status a ∧ r_location r = a_location a
      ∧ r_body r = decode (String.substring 0 BODY_LIMIT (a_body a)).
Proof.
  intros [H|(f & w1 & _ & [-> _]%ret_ok)]%catch_ok Hne; [|done].
  apply lift_bind_ok in H as (parts & Hparts & H). destruct (https_host parts) as [host|] eqn:Hh; [|done].
  apply bind_ok in H as ([found resolver] & w1 & (xs & Hxs & Hres)%resolve_run & H).
  destruct found as [|a0 found]; [done|]. apply lift_bind_ok in H as (port & Hport & H).
  apply try_addresses_run in H as (Hr & before & after & gs & a & Hfound & Hlog & Hgs & H).
  exists parts, host, port, (a0 :: found), xs, before, after, gs, a. cbn zeta.
  rewrite Hlog, Hxs, Hr, <-app_assoc. done.
Qed.
End probe.

(** * A probe *)

Definition sample_name : wire_name := {| n_labels := ["auth"; "example"; "com"]; n_pointer := None |}.
(** An alias and its address, whose name is a pointer. *)
Definition sample_message : message := {|
  m_id := 4660; m_flags := 33152;
  m_questions := [{| q_name := sample_name; q_type := 1; q_class := 1 |}];
  m_answers := [
    {| rr_name := {| n_labels := []; n_pointer := Some 12%N |}; rr_type := 5; rr_class := 1; rr_ttl := 300;
       rr_data := name_text {| n_labels := ["edge"]; n_pointer := Some 17%N |} |};
    {| rr_name := {| n_labels := ["edge"]; n_pointer := Some 17%N |}; rr_type := 1; rr_class := 1; rr_ttl := 60;
       rr_data := be_text 4 3405803783 |}];
  m_authority := 0; m_additional := 1; m_rest := "more" |}.
Lemma sample_message_ok : message_ok sample_message.
Proof.
  split; [by vm_compute..| |].
  - constructor; [|constructor]. split; [|done]. repeat (constructor; [cbn; lia|]). constructor.
  - repeat constructor; cbn; try lia; by intros ? [= <-].
Qed.

Lemma dns_response_read_witness : parse_response (message_text sample_message) 4660 = Records ["203.0.113.7"].
Proof. etrans; [exact (dns_response_read sample_message 4660 sample_message_ok)|by vm_compute]. Defined.

Module net.
(** The first resolver does not answer; the server does. *)
#[export] Instance outside : Outside unit := {
  random_id e := (4660%N, e);
  udp_ask server _ e := (inr (if bool_decide (server = "9.9.9.9") then Some (message_text sample_message) else None), e);
  local_lookup _ e := (inl (Raised "OSError"), e);
  https_get address t e := (Got {| a_status := 302; a_location := "/login"; a_body := "" |}, e);
  decode s := s; error_text _ := "error" }.
End net.
#[local] Existing Instances net.outside.

Definition sample_url : string := "https://auth.example.com/realms/vps/account".
Definition quiet : @world unit := {| log := []; ext := tt |}.

Lemma public_answer_provenance_witness :
  ∃ r w', probe sample_url (float_near 10) quiet = (inr r, w') ∧ r_address r = "203.0.113.7" ∧ r_status r = 302%Z
    ∧ ∃ found xs, resolved "auth.example.com" found "9.9.9.9" xs.
Proof.
  eexists _, _. split; [by vm_compute|]. split; [done|]. split; [done|].
  edestruct (public_answer_provenance sample_url (float_near 10) quiet)
    as (parts & host & port & found & xs & before & after & gs & a & Hp & Hh & _ & _ & Hr & _); [by vm_compute|done|].
  vm_compute in Hp. injection Hp as <-. vm_compute in Hh. injection Hh as <-. by exists found, xs.
Defined.
