(* ===== verification/Remote.v ===== *)
(** [installer/catena_installer/remote.py]: SSH to the server.  The host key
    against [known_hosts], a login with the key or once with the provider's
    password, commands and their output line by line, and the files of a leg.
    The network, the terminal of a password login, randomness and the local
    disk are outside; every step taken over a connection is kept in order. *)
From S2P Require Import Prelude PyStr PyNum PyVal Effects.

#[local] Open Scope string_scope.

(** * Faults *)

(** The exceptions of the module ([PasswordNeeded] and [KeyPairError] are of
    its callers), [paramiko]'s, whether of the authentication or not, the
    operating system's, and the rest. *)
Inductive fault :=
  | RemoteError (text : string)
  | Unreachable (text : string)
  | AuthRefused (text : string)
  | PasswordNeeded (text : string)
  | HostKeyChanged (name : string) (trusted : list string) (offered : string)
  | KeyPairError (text : string)
  | SshError (authentication : bool) (text : string)
  | OsError (text : string)
  | TimedOut (text : string)
  | Eof (text : string)
  | Other (text : string).

(** [isinstance(exc, RemoteError)], [AuthRefused] and [OSError] *)
Definition is_remote (f : fault) : bool :=
  match f with RemoteError _ | Unreachable _ | AuthRefused _ | PasswordNeeded _ | HostKeyChanged _ _ _ => true | _ => false end.
Definition is_refused (f : fault) : bool := match f with AuthRefused _ | PasswordNeeded _ => true | _ => false end.
Definition is_os (f : fault) : bool := match f with OsError _ | TimedOut _ => true | _ => false end.

(** [str(exc)] *)
Definition changed_text (name : string) (trusted : list string) (offered : string) : string :=
  name +:+ " presents another host key than the one this machine trusts for it (trusted: " +:+ sjoin ", " trusted
  +:+ "; offered: " +:+ offered +:+ "). A reinstalled server presents a new key; if this one was not reinstalled, another machine may be answering at this address.".
Definition fault_text (f : fault) : string :=
  match f with
  | HostKeyChanged name trusted offered => changed_text name trusted offered
  | RemoteError t | Unreachable t | AuthRefused t | PasswordNeeded t | KeyPairError t | SshError _ t
  | OsError t | TimedOut t | Eof t | Other t => t
  end.

(** * Host keys *)

Record key := { k_type : string; k_blob : string }.
#[export] Instance key_eq_dec : EqDecision key.
Proof. solve_decision. Defined.

(** How a command over a connection ended: with its status, the connection
    lost while its output was read or while its status was awaited, or an
    exception. *)
Inductive ending :=
  | Exited (status : Z)
  | LostReading
  | LostWaiting
  | Broke (f : fault).

(** [lookup] is [paramiko.HostKeys(...).lookup(name).values()] and [run_keygen]
    what [ssh-keygen -R] leaves of the file; [fingerprint] and [base64] are
    those of a key, [key_types] the host key types a connection asks for when
    nothing is trusted.  A connection is numbered. *)
Class Outside (E : Type) := {
  lookup : string → string → fault + list key;
  run_keygen : string → string → E → (fault + string) * E;
  fingerprint : key → string;
  base64 : key → string;
  key_types : list string;
  refuses_io : E → option string * E;
  has_keygen : bool;
  connects : string → Z → E → option string * E;
  start_client : nat → list string → E → (fault + key) * E;
  auth_publickey : nat → string → string → E → option fault * E;
  auth_password : nat → string → string → E → option fault * E;
  load_private : string → E → (fault + string) * E;
  execute : nat → string → E → (list string * ending) * E;
  decode : string → string;
  put_file : nat → string → string → E → (fault + Z) * E;
  open_shell : nat → E → option fault * E;
  type_line : nat → string → E → option fault * E;
  expects : nat → list string → Z → E → (fault + nat) * E;
  token_hex : nat → E → string * E;
  choice : nat → E → nat * E;
  exn_text : exn → string
}.

(** What is done over the connections, in order: a host key is offered to a
    client that trusts some keys; [KeyLogin] and [PasswordLogin] are attempts,
    [LoggedIn] and [PasswordIn] the logins that succeeded. *)
Inductive event :=
  | Opened (id : nat) (host : string) (port : Z)
  | Offered (id : nat) (trusted : list key) (k : key)
  | KeyLogin (id : nat) (user private : string)
  | PasswordLogin (id : nat) (user password : string)
  | LoggedIn (id : nat) (user private : string)
  | PasswordIn (id : nat) (user password : string)
  | Ran (id : nat) (command : string) (how : ending)
  | Put (id : nat) (command data : string)
  | Typed (id : nat) (line : string)
  | Closed (id : nat).

Section remote.
(** [P] is what the lines of a command's output are passed to. *)
Context {E P : Type} `{!Outside E}.

(** [known_hosts] is the file's text, if it is there. *)
Record world := { known_hosts : option string; opened : nat; log : list event; page : P; ext : E }.
Abbreviation M := (ST world fault).

Definition set_ext (e : E) (w : world) : world :=
  {| known_hosts := known_hosts w; opened := opened w; log := log w; page := page w; ext := e |}.
Definition set_page (f : P → P) (w : world) : world :=
  {| known_hosts := known_hosts w; opened := opened w; log := log w; page := f (page w); ext := ext w |}.
Definition set_known (text : string) (w : world) : world :=
  {| known_hosts := Some text; opened := opened w; log := log w; page := page w; ext := ext w |}.
Definition note (x : event) : M unit := modify (λ w,
  {| known_hosts := known_hosts w; opened := opened w; log := (log w ++ [x])%list; page := page w; ext := ext w |}).
Definition fresh_id : M nat := λ w,
  (inr (opened w), {| known_hosts := known_hosts w; opened := S (opened w); log := log w; page := page w; ext := ext w |}).

(** An answer from outside. *)
Definition ask {A} (f : E → A * E) : M A := λ w, let '(a, e) := f (ext w) in (inr a, set_ext e w).
Definition ask_or {A} (f : E → (fault + A) * E) : M A := r ← ask f; match r with inl e => throw e | inr a => mret a end.
Definition ask_ok (f : E → option fault * E) : M unit := r ← ask f; match r with Some e => throw e | None => mret tt end.
Definition pure {A} (r : res A) : M A := lift (λ e, Other (exn_text e)) r.
Definition io : M unit := r ← ask refuses_io; match r with Some text => throw (OsError text) | None => mret tt end.

(** [try: c] / [finally: f] *)
Definition finally {A} (c : M A) (f : M unit) : M A := λ w,
  let '(r, w) := c w in
  match f w with (inl e, w) => (inl e, w) | (inr _, w) => (r, w) end.
Definition known_name (host : string) (port : Z) : string :=
  if bool_decide (port = 22%Z) then host else "[" +:+ host +:+ "]:" +:+ str_of_int port.
Definition describe (k : key) : string := k_type k +:+ " " +:+ fingerprint k.

Definition trusted (name : string) : M (list key) :=
  text ← gets known_hosts;
  match text with
  | None => mret []
  | Some text => match lookup text name with inl f => throw f | inr keys => mret keys end
  end.

Definition entry_text (name : string) (k : key) : string :=
  name +:+ " " +:+ k_type k +:+ " " +:+ base64 k +:+ String nl "".
(** [_record]: the directory, the line appended, and a new file's mode. *)
Definition record (name : string) (k : key) : M unit :=
  io;; text ← gets known_hosts;
  io;; modify (set_known (default "" text +:+ entry_text name k));;
  match text with None => io | Some _ => mret tt end.
Definition forget (name : string) : M unit :=
  text ← gets known_hosts;
  match text with
  | None => mret tt
  | Some text =>
      if negb has_keygen then throw (RemoteError "ssh-keygen is not installed: it ships with OpenSSH") else
      text ← ask_or (run_keygen text name); modify (set_known text)
  end.

(** The host key types a connection asks for: those of the trusted keys. *)
Definition ALGORITHMS (t : string) : list string :=
  if bool_decide (t = "ssh-rsa") then ["rsa-sha2-512"; "rsa-sha2-256"; "ssh-rsa"] else [t].
Definition asked_types (keys : list key) (reinstalled : bool) : list string :=
  if bool_decide (keys = []) || reinstalled then key_types else
  let usable := fromkeys (List.filter (λ a, bool_decide (a ∈ key_types)) (flat_map (λ k, ALGORITHMS (k_type k)) keys)) in
  if bool_decide (usable = []) then key_types else usable.

Definition close (id : nat) : M unit := note (Closed id).

(** The host key a connection offers, once negotiated. *)
Definition negotiate (id : nat) (name : string) (keys : list key) (reinstalled : bool) : M key :=
  catch (ask_or (start_client id (asked_types keys reinstalled))) (λ f,
    match f with
    | SshError _ text =>
        close id;;
        (if negb (bool_decide (keys = [])) && negb reinstalled
         then throw (HostKeyChanged name (map describe keys) "none of the trusted key types")
         else throw (RemoteError (name +:+ ": SSH negotiation failed: " +:+ text)))
    | _ => throw f
    end).

(** What an offered key comes to: recorded, trusted, refused or replaced. *)
Definition vet_key (id : nat) (name : string) (keys : list key) (k : key) (reinstalled record_key : bool) : M unit :=
  if bool_decide (keys = []) then (if record_key then record name k else mret tt)
  else if bool_decide (k ∈ keys) then mret tt
  else if negb reinstalled then close id;; throw (HostKeyChanged name (map describe keys) (describe k))
  else if record_key then forget name;; record name k else mret tt.
Definition transport (host : string) (port : Z) (reinstalled record_key : bool) : M nat :=
  let name := known_name host port in
  keys ← trusted name;
  unreachable ← ask (connects host port);
  match unreachable with
  | Some text => throw (Unreachable ("nothing answers SSH at " +:+ name +:+ ": " +:+ text))
  | None =>
      id ← fresh_id; note (Opened id host port);;
      k ← negotiate id name keys reinstalled; note (Offered id keys k);;
      vet_key id name keys k reinstalled record_key;;
      mret id
  end.

(** [changed]: the trusted keys and the one offered, when another. *)
Definition changed (host : string) (port : Z) : M (list string * string) :=
  catch (id ← transport host port false false; close id;; mret ([], "")) (λ f,
    match f with
    | HostKeyChanged _ trusted offered => mret (trusted, offered)
    | _ => if is_remote f then mret ([], "") else throw f
    end).

(** * Sessions *)

Record session := { s_id : nat; s_user : string; s_host : string }.

Definition connect_key (host : string) (port : Z) (user private : string) (reinstalled record_key : bool) : M session :=
  id ← transport host port reinstalled record_key;
  catch (k ← ask_or (load_private private); note (KeyLogin id user private);; ask_ok (auth_publickey id user k)) (λ f,
    match f with
    | SshError true _ => close id;; throw (AuthRefused (user +:+ "@" +:+ host +:+ " refused the key " +:+ private))
    | SshError false _ => close id;; throw f
    | _ => if is_remote f then close id;; throw f else throw f
    end);;
  note (LoggedIn id user private);;
  mret {| s_id := id; s_user := user; s_host := host |}.

(** The lines a command's output is cut into, as its chunks arrive: those
    complete, and what is pending. *)
Definition feed_chunk (st : list string * string) (chunk : string) : list string * string :=
  let parts := split nl (st.2 +:+ chunk) in
  ((st.1 ++ removelast parts)%list, List.last parts "").
Definition cut (chunks : list string) : list string * string := foldl feed_chunk ([], "") chunks.
Definition shown (line : string) : string := rstrip_char "013" (decode line).

(** [Session.run] *)
Definition lost (s : session) : fault :=
  RemoteError ("the connection to " +:+ s_host s +:+ " was lost while a command was running").
Fixpoint each (on_line : string → M unit) (lines : list string) : M unit :=
  match lines with [] => mret tt | l :: lines => on_line l;; each on_line lines end.
Definition run (s : session) (command : string) (on_line : string → M unit) : M Z :=
  '(chunks, how) ← ask (execute (s_id s) command);
  note (Ran (s_id s) command how);;
  let '(lines, pending) := cut chunks in
  each on_line (map shown lines);;
  match how with
  | Broke f => throw f
  | LostReading => throw (lost s)
  | Exited _ | LostWaiting =>
      (if bool_decide (pending = "") then mret tt else on_line (shown pending));;
      match how with Exited status => mret status | _ => throw (lost s) end
  end.
(** [Session.output]: the lines are kept instead. *)
Definition output (s : session) (command : string) : M (Z * string) :=
  '(chunks, how) ← ask (execute (s_id s) command);
  note (Ran (s_id s) command how);;
  let '(lines, pending) := cut chunks in
  match how with
  | Broke f => throw f
  | LostReading | LostWaiting => throw (lost s)
  | Exited status =>
      let lines := (map shown lines ++ (if bool_decide (pending = "") then [] else [shown pending]))%list in
      mret (status, sjoin newline_str lines)
  end.

(** [shlex.quote] *)
Definition shell_safe (a : ascii) : bool :=
  is_alnum a || existsb (λ c, is_char c a) ["_"; "@"; "%"; "+"; "="; ":"; ","; "."; "/"; "-"]%char.
Definition squote : ascii := "'"%char.
Fixpoint close_quotes (s : string) : string :=
  match s with
  | EmptyString => ""
  | String a s =>
      if is_char squote a
      then String squote (String "034" (String squote (String "034" (String squote (close_quotes s)))))
      else String a (close_quotes s)
  end.
Definition shlex_quote (s : string) : string :=
  if bool_decide (s = "") then String squote (String squote "")
  else if sforall shell_safe s then s
  else String squote (close_quotes s +:+ String squote "").
Definition shlex_join (words : list string) : string := sjoin " " (map shlex_quote words).

Definition put_each (s : session) (directory : string) : list (string * string) → M unit :=
  fix go files := match files with
  | [] => mret tt
  | (name, data) :: files =>
      let command := "umask 077 && cat > " +:+ shlex_quote (directory +:+ "/" +:+ name) in
      note (Put (s_id s) command data);;
      status ← ask_or (put_file (s_id s) command data);
      if negb (bool_decide (status = 0%Z))
      then throw (RemoteError ("cannot write " +:+ name +:+ " into " +:+ directory))
      else go files
  end.
Definition upload (s : session) (files : list (string * string)) : M string :=
  '(rc, out) ← output s "mktemp -d /tmp/catena-install.XXXXXX";
  if negb (bool_decide (rc = 0%Z)) then throw (RemoteError ("cannot create an upload directory: " +:+ out)) else
  match last (splitlines (strip out)) with
  | None => throw (Other "list index out of range")
  | Some directory => put_each s directory files;; mret directory
  end.

(** * The provider's password *)

Definition CHANGE_WARNINGS : list string :=
  ["required to change your password"; "[Pp]assword has expired"; "must change your password"; "Changing password for"].
Definition CURRENT_PW : list string := ["[Cc]urrent.*password:"; "UNIX password:"].
Definition NEW_PW : list string := ["[Nn]ew password:"; "[Nn]ew UNIX password:"].
Definition RETYPE_PW : list string := ["[Rr]etype new password:"; "[Rr]e-?enter new password:"].

(** [_Terminal]: a line typed, a pattern waited for, a command run. *)
Definition send (id : nat) (line : string) : M unit := note (Typed id line);; ask_ok (type_line id line).
Definition expect (id : nat) (patterns : list string) (timeout : Z) : M nat := ask_or (expects id patterns timeout).
Definition run_in_shell (id : nat) (command : string) (timeout : Z) : M unit :=
  token ← ask (token_hex 6);
  send id (command +:+ "; echo __CATENA_''" +:+ token +:+ "__");;
  _ ← expect id ["__CATENA_" +:+ token +:+ "__\r?\n"] timeout; mret tt.
Definition sync (id : nat) (timeout : Z) : M unit := send id "";; run_in_shell id ":" timeout.

Definition PASSWORD_ALPHABET : string :=
  "abcdefghijklmnopqrstuvwxyzABCDEFGHIJKLMNOPQRSTUVWXYZ0123456789!@#%^&*_+-=".
Fixpoint random_chars (n : nat) : M string :=
  match n with
  | O => mret ""
  | S n =>
      i ← ask (choice (String.length PASSWORD_ALPHABET));
      rest ← random_chars n;
      mret (match String.get i PASSWORD_ALPHABET with Some a => String a rest | None => rest end)
  end.
Definition random_password : M string := random_chars 24.

Definition password_shell (host : string) (port : Z) (user password : string) (reinstalled record_key : bool) : M nat :=
  id ← transport host port reinstalled record_key;
  note (PasswordLogin id user password);;
  catch (ask_ok (auth_password id user password)) (λ f,
    match f with
    | SshError true _ => close id;; throw (AuthRefused (user +:+ "@" +:+ host +:+ " refused the password"))
    | _ => throw f
    end);;
  note (PasswordIn id user password);;
  ask_ok (open_shell id);; mret id.

Inductive change := NoChange | Current | New.
Definition is_timeout (f : fault) : bool := match f with TimedOut _ => true | _ => false end.
Definition is_silent (f : fault) : bool := match f with TimedOut _ | Eof _ => true | _ => false end.
(** [_change_prompt] *)
Definition change_prompt (id : nat) : M change :=
  let warnings := length CHANGE_WARNINGS in
  first ← catch (i ← expect id (CHANGE_WARNINGS ++ CURRENT_PW ++ NEW_PW)%list 10; mret (Some i))
    (λ f, if is_timeout f then mret None else throw f);
  match first with
  | None => mret NoChange
  | Some i =>
      i ← (if (i <? warnings)%nat then i ← expect id (CURRENT_PW ++ NEW_PW)%list 30; mret (warnings + i)%nat else mret i);
      mret (if (i <? warnings + length CURRENT_PW)%nat then Current else New)
  end.

Definition check_password (host : string) (port : Z) (user password : string) (reinstalled : bool) : M (bool * string) :=
  opened ← catch (id ← password_shell host port user password reinstalled false; mret (Some id))
    (λ f, if is_refused f then mret None else throw f);
  match opened with
  | None => mret (false, user +:+ "@" +:+ host +:+ " refused the password")
  | Some id =>
      finally
        (catch
          (c ← change_prompt id;
           match c with
           | NoChange => sync id 30;; mret (true, "the password opens " +:+ user +:+ "@" +:+ host)
           | _ => mret (true, "the password opens " +:+ user +:+ "@" +:+ host
                              +:+ "; the server asks for a new one at first login, which the install sets")
           end)
          (λ f, if is_silent f then mret (false, "no answer from " +:+ user +:+ "@" +:+ host +:+ ": " +:+ fault_text f) else throw f))
        (close id)
  end.

Definition append_commands (keyfile user public_line : string) : list string :=
  let home := if bool_decide (user = "root") then "/root" else "~" in
  let dq := String "034" "" in
  [ "echo " +:+ shlex_quote public_line +:+ " > " +:+ keyfile;
    "install -d -m 700 " +:+ home +:+ "/.ssh";
    "grep -qxF " +:+ dq +:+ "$(cat " +:+ keyfile +:+ ")" +:+ dq +:+ " " +:+ home +:+ "/.ssh/authorized_keys 2>/dev/null || cat "
      +:+ keyfile +:+ " >> " +:+ home +:+ "/.ssh/authorized_keys";
    "chmod 600 " +:+ home +:+ "/.ssh/authorized_keys";
    "rm -f " +:+ keyfile ].
Fixpoint run_each (id : nat) (commands : list string) : M unit :=
  match commands with [] => mret tt | c :: commands => run_in_shell id c 30;; run_each id commands end.
Definition append_key (id : nat) (user public_line : string) : M unit :=
  token ← ask (token_hex 4);
  run_each id (append_commands ("/tmp/.catena-key-" +:+ token) user public_line);;
  send id "exit".

(** The new password, typed twice. *)
Definition answer_change (id : nat) (c : change) (password : string) : M string :=
  match c with Current => send id password;; _ ← expect id NEW_PW 15; mret tt | _ => mret tt end;;
  password ← random_password;
  send id password;; _ ← expect id RETYPE_PW 15; send id password;; mret password.

(** One turn: whether the key is added, or the password the next one uses. *)
Definition password_turn (id : nat) (user password public_line : string) : M (string + unit) :=
  c ← change_prompt id;
  match c with
  | NoChange => sync id 60;; append_key id user public_line;; mret (inr tt)
  | _ =>
      password ← answer_change id c password;
      alive ← catch (sync id 10;; mret true) (λ f, if is_silent f then mret false else throw f);
      if (alive : bool) then append_key id user public_line;; mret (inr tt) else mret (inl password)
  end.
Fixpoint password_turns (turns : nat) (host : string) (port : Z) (user password public_line : string) (reinstalled : bool) : M unit :=
  match turns with
  | O => throw (RemoteError (user +:+ "@" +:+ host +:+ " kept asking for a new password"))
  | S turns =>
      id ← password_shell host port user password reinstalled true;
      r ← finally
        (catch (password_turn id user password public_line) (λ f,
           if is_silent f then throw (RemoteError ("the session as " +:+ user +:+ "@" +:+ host +:+ " stopped answering: " +:+ fault_text f))
           else throw f))
        (close id);
      match r with
      | inr _ => mret tt
      | inl password => password_turns turns host port user password public_line reinstalled
      end
  end.
Definition install_key_with_password : string → Z → string → string → string → bool → M unit := password_turns 2.
End remote.
#[global] Arguments world E P : clear implicits.
