(* ===== verification/Checks.v ===== *)
(** [installer/catena_installer/checks.py]: what only another machine can
    check once the server is installed: that its public address answers on no
    port nothing declares, and that no container of its network answers. *)
From S2P Require Import Prelude PyStr PyNum PyVal Json Effects IpAddress Remote.

#[local] Open Scope string_scope.

Definition SUMMARY : string := "/etc/catena/public-ports.summary.json".
Definition RECORD : string := "/var/lib/catena/port-scan.json".
Definition NETWORK : string := "catena-network".

(** The ports of a host that answer from here, whether an address answers on
    port 80, the time as the record writes it, and the addresses Python's
    [ipaddress] calls private, loopback, link-local or unspecified. *)
Class Probes (E : Type) := {
  answering : string → E → list Z * E;
  reachable : string → E → bool * E;
  timestamp : E → string * E;
  reserved : ip → bool
}.

Section checks.
Context {E P : Type} `{!Remote.Outside E, !Probes E}.
Abbreviation M := (ST (Remote.world E P) Remote.fault).

(** [_private]: an address that is none counts as one. *)
Definition private (address : string) : bool :=
  match ip_address address with
  | Raise _ => true
  | Ok a =>
      reserved a
      || bool_decide (ip_version a = V4)
         && match ip_network true "100.64.0.0/10" with Ok n => in_network a n | Raise _ => false end
  end.

Definition sudo (s : session) : string := if bool_decide (s_user s = "root") then "" else "sudo -n ".

(** The workers take the ports of one iterator; what they find is sorted. *)
Definition scan (host : string) : M (list Z) := found ← ask (answering host); mret (merge_sort Z.le found).

(** [sorted(int(p) for p in json.loads(raw)["public_open_tcp"])], or none. *)
Definition declared_ports (raw : string) : res (list Z) :=
  doc ← loads raw;
  ports ← (match doc with
           | VDict d => match dget "public_open_tcp" d with Some v => Ok v | None => Raise KeyError end
           | _ => Raise TypeError
           end);
  ports ← py_iter ports;
  ports ← mapM_res as_int ports;
  Ok (merge_sort Z.le ports).
Definition caught (e : exn) : bool := match e with ValueError | KeyError | TypeError => true | _ => false end.
Definition expected_ports (rc : Z) (raw : string) : res (list Z) :=
  if negb (bool_decide (rc = 0%Z)) then Ok [] else
  match declared_ports raw with
  | Ok ports => Ok ports
  | Raise e => if caught e then Ok [] else Raise e
  end.

(** [sorted(set(open) - set(expected))] *)
Definition unexpected_ports (open expected : list Z) : list Z :=
  merge_sort Z.le (remove_dups (List.filter (λ p, negb (bool_decide (p ∈ expected))) open)).

Definition count (l : list Z) : val := VInt (Z.of_nat (length l)).
Definition ports_val (l : list Z) : val := VList (map VInt l).
Definition scan_record (ts host : string) (open expected unexpected : list Z) : val := VDict [
  ("ts", VStr ts); ("host", VStr host); ("scanned", VInt 65535); ("open_ports", ports_val open);
  ("expected", ports_val expected); ("expected_count", count expected);
  ("unexpected", ports_val unexpected); ("exposed_count", count unexpected)].

Definition public_ports (s : session) (public_ip : string) (line : string → M unit) : M bool :=
  if bool_decide (public_ip = "") || private public_ip then
    line ("catena-installer: public port scan SKIPPED -- "
          +:+ (if bool_decide (public_ip = "") then "no public IP" else public_ip)
          +:+ " is not a routable address, so a scan from here says nothing about what the internet reaches. Set HOST_PUBLIC_IP to the server's public IPv4 to enable it.");;
    mret true
  else
  '(rc, raw) ← output s (sudo s +:+ "cat " +:+ SUMMARY);
  expected ← pure (expected_ports rc raw);
  line ("catena-installer: scanning every TCP port of " +:+ public_ip +:+ " from this machine");;
  open ← scan public_ip;
  let unexpected := unexpected_ports open expected in
  ts ← ask timestamp;
  let body := dumps indent2_style (scan_record ts public_ip open expected unexpected) in
  _ ← output s ("printf '%s\n' " +:+ shlex_quote body +:+ " | " +:+ sudo s +:+ "tee " +:+ RECORD +:+ " >/dev/null");
  if negb (bool_decide (unexpected = [])) then
    line ("catena-installer: SECURITY REGRESSION: " +:+ public_ip +:+ " answers on " +:+ py_str (ports_val unexpected)
          +:+ ", which nothing declares (expected open: " +:+ py_str (ports_val expected)
          +:+ "). Check ufw, docker's iptables rules and the provider's firewall.");;
    mret false
  else
    line ("catena-installer: " +:+ public_ip +:+ " is sealed: 65535 ports scanned, "
          +:+ str_of_int (Z.of_nat (length open)) +:+ " open, all declared");;
    mret true.

Definition template : string :=
  "{{range $k, $v := .Containers}}{{$v.IPv4Address}}{{" +:+ String "034" "" +:+ "\n" +:+ String "034" "" +:+ "}}{{end}}".

(** [{a.split("/")[0] for a in raw.split() if a.strip()}], sorted *)
Definition container_addresses (raw : string) : list string :=
  sorted_str (remove_dups (map (λ a, (partition "/" a).1.1) (words raw))).
Fixpoint reached (addresses : list string) : M (list string) :=
  match addresses with
  | [] => mret []
  | a :: addresses =>
      yes ← ask (reachable a);
      rest ← reached addresses;
      mret (if (yes : bool) then a :: rest else rest)
  end.

Definition container_network (s : session) (line : string → M unit) : M bool :=
  '(rc, raw) ← output s (sudo s +:+ "docker network inspect " +:+ NETWORK +:+ " --format " +:+ shlex_quote template);
  if negb (bool_decide (rc = 0%Z)) then
    line ("catena-installer: cannot list the containers on " +:+ NETWORK +:+ ": " +:+ strip raw);; mret false
  else
  let addresses := container_addresses raw in
  answered ← reached addresses;
  if negb (bool_decide (answered = [])) then
    line ("catena-installer: container IPs " +:+ py_str (VList (map VStr answered)) +:+ " on " +:+ NETWORK
          +:+ " answer from this machine: the network the apps sit on is reachable around Traefik.");;
    mret false
  else
    line ("catena-installer: " +:+ str_of_int (Z.of_nat (length addresses)) +:+ " container IP(s) on " +:+ NETWORK
          +:+ ", none reachable from this machine");;
    mret true.

(** [run]: the second check runs whatever the first said. *)
Definition run_checks (s : session) (public_ip : string) (line : string → M unit) : M bool :=
  ok ← container_network s line;
  sealed ← public_ports s public_ip line;
  mret (sealed && ok).
End checks.
