(* ===== verification/Install.v ===== *)
(** [installer/catena_installer/install.py] and what it reads of [keys.py] and
    [tree.py]: the inventory's server, the two logins and the two legs of an
    install, and where the lines of the server's output go. *)
From S2P Require Import Prelude PyStr PyNum PyVal Effects EnvFile Remote Checks.

#[local] Open Scope string_scope.

Definition REPOSITORY : string := "ghcr.io/catenahq/catena-admin".
Definition KEYSET_BEGIN : string := "-----BEGIN CATENA PASSWORDS-----".
Definition KEYSET_END : string := "-----END CATENA PASSWORDS-----".
Definition PANEL_PORT : Z := 9010.
Definition PANEL_USER : string := "panel".
Definition VALIDATION_FAILED : Z := 3.
(** [tree.FETCHER] *)
Definition FETCHER : list string :=
  ["helpers/fetch_release.py"; "helpers/catena_admin_release.py"; "playbooks/filter_plugins/image_pin.py"].

(** * The output *)

(** What reached the page: the lines, and the blocks of passwords, each handed
    over at once; [o_block] is the block being read. *)
Record output_state := { o_lines : list string; o_keysets : list (list string); o_block : option (list string) }.
Definition add_line (text : string) (o : output_state) : output_state :=
  {| o_lines := (o_lines o ++ [text])%list; o_keysets := o_keysets o; o_block := o_block o |}.
Definition feed_step (text : string) (o : output_state) : output_state :=
  if bool_decide (text = KEYSET_BEGIN) then {| o_lines := o_lines o; o_keysets := o_keysets o; o_block := Some [] |} else
  match o_block o with
  | None => add_line text o
  | Some block =>
      if bool_decide (text = KEYSET_END)
      then {| o_lines := o_lines o; o_keysets := (o_keysets o ++ [block])%list; o_block := None |}
      else {| o_lines := o_lines o; o_keysets := o_keysets o; o_block := Some (block ++ [text])%list |}
  end.

(** * The inventory *)

Record server := { v_inventory : string; v_name : string; v_host : string; v_port : Z; v_initial_user : string;
  v_ops_user : string; v_key : string; v_public_ip : string; v_source : string }.
Record options := { p_release : string; p_image : string; p_ca_file : string; p_insecure_http : bool; p_address : string;
  p_tags : string; p_reinstalled : bool; p_keyset_json : bool; p_password : string; p_adopt : dict val; p_outside_checks : bool }.

(** This machine's files, the YAML library, [~], and where the installer's own
    files are. *)
Class Local (E : Type) := {
  read_local : string → E → (fault + string) * E;
  is_file : string → E → bool * E;
  safe_load : string → res val;
  safe_dump : val → string;
  expanduser : string → string;
  TREE : string;
  STARTER : string;
  DEFAULT_KEY : string
}.

Section install.
Context {E : Type} `{!Remote.Outside E, !Probes E, !Local E}.
Abbreviation M := (ST (Remote.world E output_state) Remote.fault).

Definition out_line (text : string) : M unit := modify (set_page (add_line text)).
Definition out_feed (text : string) : M unit := modify (set_page (feed_step text)).

(** [env.get(k) or d] *)
Definition env_or (k d : string) (env : dict string) : string :=
  match dget k env with Some s => if bool_decide (s = "") then d else s | None => d end.
(** [(env.get(k) or d).strip()], and [... or d] *)
Definition env_strip (k d : string) (env : dict string) : string := strip (env_or k d env).
Definition env_strip_or (k d : string) (env : dict string) : string :=
  let s := env_strip k d env in if bool_decide (s = "") then d else s.

Definition inventory_env (inv_dir : string) : M (dict string) :=
  text ← ask_or (read_local (join_path inv_dir ".env")); mret (read_existing_env text).

(** [_vps_host]: the entry of the group's first host. *)
Definition child (k : string) (v : val) : res val := x ← attr_get k v; Ok (val_or x (VDict [])).
Definition vps_entry (doc : val) : res (string * string) :=
  all ← child "all" (val_or doc (VDict []));
  children ← child "children" all;
  vps ← child "vps" children;
  hosts ← child "hosts" vps;
  match hosts with
  | VDict [] => Ok ("", "")
  | VDict ((name, entry) :: _) =>
      address ← attr_get "ansible_host" (val_or entry (VDict []));
      let address := if truthy address then py_str address else "" in
      Ok (name, if bool_decide (address = "0.0.0.0") || scontains "{{" address then "" else address)
  | _ => Raise AttributeError
  end.
Definition vps_host (inv_dir : string) : M (string * string) :=
  let hosts_yml := join_path inv_dir "hosts.yml" in
  there ← ask (is_file hosts_yml);
  if negb there then mret ("", "") else
  text ← ask_or (read_local hosts_yml);
  pure (doc ← safe_load text; vps_entry doc).

(** The first address given, and where from. *)
Definition first_address (candidates : list (string * string)) : string * string :=
  match List.filter (λ c, negb (bool_decide (c.1 = ""))) candidates with c :: _ => c | [] => ("", "") end.
(** [Server.of] *)
Definition server_of (inv_dir address : string) : M server :=
  env ← inventory_env inv_dir;
  '(name, listed) ← vps_host inv_dir;
  let name := if bool_decide (name = "") then path_name inv_dir +:+ "1" else name in
  let env_file := join_path inv_dir ".env" in
  let public_ip := env_strip "HOST_PUBLIC_IP" "" env in
  let '(host, source) := first_address [
    (address, "--address");
    (listed, "the ansible_host of " +:+ name +:+ " in " +:+ join_path inv_dir "hosts.yml");
    (env_strip "HOST_SSH_ADDRESS" "" env, "HOST_SSH_ADDRESS in " +:+ env_file);
    (public_ip, "HOST_PUBLIC_IP in " +:+ env_file)] in
  port ← pure (py_int (env_strip_or "HOST_SSH_PORT" "22" env));
  mret {| v_inventory := inv_dir; v_name := name; v_host := host; v_port := port;
    v_initial_user := env_strip_or "HOST_INITIAL_USER" "root" env; v_ops_user := env_strip_or "OPS_USER" "ops" env;
    v_key := expanduser (env_or "SSH_PRIVATE_KEY" DEFAULT_KEY env); v_public_ip := public_ip; v_source := source |}.

Definition explain (v : server) (f : fault) : string :=
  match f with
  | Unreachable text => text +:+ " (address from " +:+ v_source v +:+ ")"
  | _ => fault_text f
  end.

(** [keys.public_line] *)
Definition public_line (private : string) : M string :=
  let pub := private +:+ ".pub" in
  catch
    (text ← ask_or (read_local pub);
     match splitlines (strip text) with
     | line :: _ => mret line
     | [] => throw (KeyPairError ("cannot read " +:+ pub +:+ ": list index out of range"))
     end)
    (λ f, if is_os f then throw (KeyPairError ("cannot read " +:+ pub +:+ ": " +:+ fault_text f)) else throw f).

(** * The logins *)

(** A login right after the account or the key was made: five attempts. *)
Fixpoint connect_attempts (attempts : nat) (v : server) (user : string) : M session :=
  let connect := connect_key (v_host v) (v_port v) user (v_key v) false true in
  match attempts with
  | O | 1%nat => connect
  | S attempts =>
      r ← catch (s ← connect; mret (Some s)) (λ f, if is_refused f then mret None else throw f);
      match r with Some s => mret s | None => connect_attempts attempts v user end
  end.
Definition connect_retrying : server → string → M session := connect_attempts 5.

(** The users tried in turn, until a key opens one. *)
Fixpoint try_users (v : server) (reinstalled : bool) (users refused : list string) : M (session + list string) :=
  match users with
  | [] => mret (inr refused)
  | user :: users =>
      r ← catch (s ← connect_key (v_host v) (v_port v) user (v_key v) reinstalled true; mret (inl s))
            (λ f, if is_refused f then mret (inr (fault_text f)) else throw f);
      match r with inl s => mret (inl s) | inr text => try_users v reinstalled users (refused ++ [text])%list end
  end.
Definition login (v : server) (o : options) : M session :=
  r ← try_users v (p_reinstalled o) (fromkeys [v_ops_user v; v_initial_user v]) [];
  match r with
  | inl s => mret s
  | inr refused =>
      if bool_decide (p_password o = "")
      then throw (PasswordNeeded (sjoin "; " refused +:+ ", and no provider password was given to add the key to "
                                  +:+ v_initial_user v +:+ "@" +:+ v_host v +:+ " with"))
      else
        out_line ("catena-installer: adding " +:+ v_key v +:+ ".pub to " +:+ v_initial_user v +:+ "@" +:+ v_host v
                  +:+ " with the provider's password");;
        line ← public_line (v_key v);
        install_key_with_password (v_host v) (v_port v) (v_initial_user v) (p_password o) line (p_reinstalled o);;
        connect_retrying v (v_initial_user v)
  end.

(** * The legs *)

Inductive leg := Accounts | System | Uninstall.
#[export] Instance leg_eq_dec : EqDecision leg.
Proof. solve_decision. Defined.
Definition leg_name (l : leg) : string := match l with Accounts => "accounts" | System => "system" | Uninstall => "uninstall" end.
Definition fetches (l : leg) : bool := match l with System => false | _ => true end.

(** [d[k] = v] over files in order; the names are the map's. *)
Fixpoint read_each (paths : list string) : M (list (string * string)) :=
  match paths with
  | [] => mret []
  | rel :: paths =>
      data ← ask_or (read_local (join_path TREE rel));
      rest ← read_each paths;
      mret ((path_name rel, data) :: rest)
  end.
Definition adopts (l : leg) (o : options) : bool :=
  match l with System => negb (bool_decide (p_adopt o = [])) | _ => false end.
Definition leg_files (v : server) (o : options) (l : leg) : M (list (string * string)) :=
  starter ← ask_or (read_local STARTER);
  env ← ask_or (read_local (join_path (v_inventory v) ".env"));
  line ← public_line (v_key v);
  fetchers ← (if fetches l then read_each FETCHER else mret []);
  ca ← (if fetches l && negb (bool_decide (p_ca_file o = ""))
        then data ← ask_or (read_local (expanduser (p_ca_file o))); mret [("ca.crt", data)] else mret []);
  mret ([("starter.sh", starter); ("env", env); ("ops.pub", line +:+ newline_str)] ++ fetchers ++ ca
        ++ (if adopts l o then [("adopt.yml", safe_dump (VDict (p_adopt o)))] else []))%list.

Definition at_upload (upload name : string) : string := upload +:+ "/" +:+ name.
Definition fetch_args (o : options) (l : leg) (upload : string) : list string :=
  if fetches l then
    (["--repository"; REPOSITORY]
     ++ (if negb (bool_decide (p_image o = "")) then ["--image"; p_image o]
         else if negb (bool_decide (p_release o = "")) then ["--release"; p_release o] else [])
     ++ (if negb (bool_decide (p_ca_file o = "")) then ["--ca-file"; at_upload upload "ca.crt"] else [])
     ++ (if p_insecure_http o then ["--insecure-http"] else []))%list
  else ["--no-fetch"].
Definition is_system (l : leg) : bool := match l with System => true | _ => false end.
Definition host_args (v : server) (o : options) (l : leg) (upload : string) : list string :=
  (["--leg"; leg_name l; "--name"; v_name v; "--ops-user"; v_ops_user v; "--ops-key"; at_upload upload "ops.pub";
    "--env-file"; at_upload upload "env"; "--address"; v_host v]
   ++ (if adopts l o then ["--adopt-file"; at_upload upload "adopt.yml"] else [])
   ++ (if is_system l && negb (bool_decide (p_tags o = "")) then ["--tags"; p_tags o] else [])
   ++ (if is_system l && p_keyset_json o then ["--keyset-json"] else []))%list.
Definition session_arg : string := " --session " +:+ String "034" ("$SSH_CONNECTION" +:+ String "034" "").
Definition leg_command (s : session) (v : server) (o : options) (l : leg) (upload : string) : string :=
  sudo s +:+ "bash " +:+ shlex_quote (at_upload upload "starter.sh") +:+ " " +:+ shlex_join (fetch_args o l upload)
  +:+ " -- " +:+ shlex_join (host_args v o l upload) +:+ (if is_system l then session_arg else "").

Definition ignore (_ : string) : M unit := mret tt.
Definition run_leg (s : session) (v : server) (o : options) (feed : string → M unit) (l : leg) : M Z :=
  files ← leg_files v o l;
  directory ← upload s files;
  finally (run s (leg_command s v o l directory) feed) (_ ← run s ("rm -rf " +:+ shlex_quote directory) ignore; mret tt).

(** * The install *)

Definition first_leg (v : server) (o : options) : M Z :=
  s ← login v o;
  out_line ("catena-installer: logged in as " +:+ s_user s +:+ "@" +:+ v_host v);;
  finally (run_leg s v o out_feed Accounts) (close (s_id s)).
Definition second_leg (v : server) (o : options) : M Z :=
  out_line ("catena-installer: logging in again, as " +:+ v_ops_user v +:+ " with " +:+ v_key v);;
  s ← connect_retrying v (v_ops_user v);
  finally
    (rc ← run_leg s v o out_feed System;
     if bool_decide (rc ∈ [0; VALIDATION_FAILED]%Z) && p_outside_checks o then
       ok ← run_checks s (v_public_ip v) out_line;
       mret (if (ok : bool) then rc else if bool_decide (rc = 0%Z) then VALIDATION_FAILED else rc)
     else mret rc)
    (close (s_id s)).

(** What [run] and [uninstall] turn into a line and status 1. *)
Definition told (f : fault) : bool := is_remote f || is_os f || match f with KeyPairError _ => true | _ => false end.
Definition asks_person (f : fault) : bool := match f with HostKeyChanged _ _ _ | PasswordNeeded _ => true | _ => false end.

(** [run] *)
Definition install (inv_dir : string) (o : options) : M Z :=
  v ← server_of inv_dir (p_address o);
  if bool_decide (v_host v = "") then
    out_line "catena-installer: the inventory names no address for the server (HOST_PUBLIC_IP or HOST_SSH_ADDRESS in its .env)";;
    mret 1%Z
  else
    catch
      (rc ← first_leg v o;
       if negb (bool_decide (rc = 0%Z)) then mret rc else second_leg v o)
      (λ f, if asks_person f then throw f
            else if told f then out_line ("catena-installer: " +:+ explain v f);; mret 1%Z
            else throw f).

Definition uninstall (inv_dir : string) (o : options) : M Z :=
  v ← server_of inv_dir (p_address o);
  catch
    (s ← connect_key (v_host v) (v_port v) (v_ops_user v) (v_key v) (p_reinstalled o) true;
     finally (run_leg s v o out_line Uninstall) (close (s_id s)))
    (λ f, if told f then out_line ("catena-installer: " +:+ explain v f);; mret 1%Z else throw f).

(** [connect]: the session the panel's port is forwarded through. *)
Definition connect (inv_dir address : string) : M (session * list Z) :=
  v ← server_of inv_dir address;
  s ← catch (connect_key (v_host v) (v_port v) PANEL_USER (v_key v) false true) (λ f,
    match f with Unreachable _ => throw (Unreachable (explain v f)) | _ => throw f end);
  mret (s, [PANEL_PORT]).
End install.
