(* ===== verification/RemoteFacts.v ===== *)
(** Facts of [Remote]: a command's lines do not depend on how its output
    arrives, nothing is sent to a server whose host key was not vetted, and
    what becomes of [known_hosts]. *)
From S2P Require Import Prelude PyStr PyNum PyVal Effects Remote.

#[local] Open Scope string_scope.

(** * Lines *)

Lemma split_ne c s : split c s ≠ [].
Proof. destruct s as [|a s]; [done|]. cbn. case_bool_decide; [done|]. by destruct (split c s). Qed.
Lemma split_app c a b :
  split c (a +:+ b) = (removelast (split c a) ++ split c (List.last (split c a) "" +:+ b))%list.
Proof.
  induction a as [|x a IH]; [done|]. cbn [String.append split]. case_bool_decide as Hx.
  - rewrite IH. destruct (split c a) as [|y l] eqn:E; [by apply split_ne in E|]. done.
  - rewrite IH. destruct (split c a) as [|y [|z l]] eqn:E; [by apply split_ne in E| |done].
    cbn. rewrite bool_decide_false by done. done.
Qed.
(** The chunks do not matter: only the text they make up. *)
Definition text_of (chunks : list string) : string := foldr String.append "" chunks.
Definition cut_text (text : string) : list string * string := (removelast (split nl text), List.last (split nl text) "").
Lemma feed_chunk_text text chunk : feed_chunk (cut_text text) chunk = cut_text (text +:+ chunk).
Proof.
  unfold feed_chunk, cut_text. cbn [fst snd]. rewrite (split_app nl text chunk).
  pose proof (split_ne nl (List.last (split nl text) "" +:+ chunk)) as Hne.
  rewrite removelast_app by done. f_equal.
  destruct (exists_last Hne) as (l & x & ->). by rewrite app_assoc, !last_last.
Qed.
Lemma cut_more text chunks : foldl feed_chunk (cut_text text) chunks = cut_text (text +:+ text_of chunks).
Proof.
  revert text. induction chunks as [|chunk chunks IH]; intros text; cbn [foldl text_of foldr]; [by rewrite string_app_nil_r|].
  rewrite feed_chunk_text, IH, <-string_app_assoc. done.
Qed.
Lemma cut_chunks chunks : cut chunks = cut_text (text_of chunks).
Proof. exact (cut_more "" chunks). Qed.

(** * An order of the log *)

(** Each event of a log is one that may follow those before it. *)
Section orderly.
Context (may : list event → event → Prop).

Inductive orderly : list event → Prop :=
  | orderly_nil : orderly []
  | orderly_snoc l x : orderly l → may l x → orderly (l ++ [x])%list.

Lemma orderly_may l1 x l2 : orderly (l1 ++ x :: l2)%list → may l1 x.
Proof.
  remember (l1 ++ x :: l2)%list as l eqn:E. intros H. revert l1 x l2 E.
  induction H as [|l y H IH Hy]; intros l1 x l2 E; [by destruct l1|].
  destruct l2 as [|z l2 _] using rev_ind.
  - by apply app_inj_tail in E as [-> ->].
  - rewrite app_comm_cons, app_assoc in E. apply app_inj_tail in E as [E _]. by eapply IH.
Qed.
End orderly.

Section safe.
Context {E P : Type} `{!Outside E} (may : list event → event → Prop).
Abbreviation M := (ST (world E P) fault).

(** From an orderly log where [Pre] holds, [c] leaves an orderly one that only
    grew, and [Post] of its result. *)
Definition safe {A} (Pre : list event → Prop) (c : M A) (Post : A → list event → Prop) : Prop :=
  ∀ w r w', orderly may (log w) → Pre (log w) → c w = (r, w') →
    orderly may (log w') ∧ log w `prefix_of` log w' ∧ (∀ a, r = inr a → Post a (log w')).
Definition stable (Pre : list event → Prop) : Prop := ∀ l l', l `prefix_of` l' → Pre l → Pre l'.

Lemma safe_ret {A} (Pre : list event → Prop) (a : A) (Post : A → list event → Prop) :
  (∀ l, Pre l → Post a l) → safe Pre (mret a) Post.
Proof. intros HP w r w' Ho Hw H. apply pair_equal_spec in H as [<- <-]. split_and!; [done..|]. intros ? [= <-]. auto. Qed.
Lemma safe_throw {A} Pre f (Post : A → list event → Prop) : safe Pre (throw f) Post.
Proof. intros w r w' Ho Hw H. apply pair_equal_spec in H as [<- <-]. by split_and!. Qed.
Lemma safe_weaken {A} (Pre Pre' : list event → Prop) (c : M A) (Post Post' : A → list event → Prop) :
  safe Pre' c Post' → (∀ l, Pre l → Pre' l) → (∀ a l, Post' a l → Post a l) → safe Pre c Post.
Proof. intros Hc H1 H2 w r w' Ho Hw H. destruct (Hc w r w' Ho (H1 _ Hw) H) as (? & ? & ?). split_and!; auto. Qed.
(** What stays true of a growing log is true after. *)
Lemma safe_frame {A} (Pre Q : list event → Prop) (c : M A) Post :
  stable Q → safe Pre c Post → safe (λ l, Pre l ∧ Q l) c (λ a l, Post a l ∧ Q l).
Proof.
  intros Hq Hc w r w' Ho [Hp Hw] H. destruct (Hc w r w' Ho Hp H) as (? & Hpre & ?). split_and!; [done..|].
  intros a ->. split; [auto|by eapply Hq].
Qed.
Lemma safe_bind {A B} Pre (c : M A) (f : A → M B) Mid Post :
  safe Pre c Mid → (∀ a, safe (Mid a) (f a) Post) → safe Pre (c ≫= f) Post.
Proof.
  intros Hc Hf w r w' Ho Hw [(e & H & ->)|(a & w1 & H1 & H)]%bind_inv.
  - destruct (Hc _ _ _ Ho Hw H) as (? & ? & _). by split_and!.
  - destruct (Hc _ _ _ Ho Hw H1) as (Ho1 & Hp1 & Hm). destruct (Hf a _ _ _ Ho1 (Hm a eq_refl) H) as (? & ? & ?).
    split_and!; [done|by etrans|done].
Qed.
(** The same, keeping a stable precondition for what follows. *)
Lemma safe_seq {A B} Pre (c : M A) (f : A → M B) Mid Post :
  stable Pre → safe Pre c Mid → (∀ a, safe (λ l, Mid a l ∧ Pre l) (f a) Post) → safe Pre (c ≫= f) Post.
Proof.
  intros Hs Hc Hf. eapply safe_bind; [|exact Hf]. eapply safe_weaken; [exact (safe_frame _ Pre _ _ Hs Hc)|done|done].
Qed.
Lemma safe_catch {A} Pre (c : M A) handler Post :
  stable Pre → safe Pre c Post → (∀ f, safe Pre (handler f) Post) → safe Pre (catch c handler) Post.
Proof.
  intros Hs Hc Hh w r w' Ho Hw H. unfold catch in H. destruct (c w) as [[f|a] w1] eqn:Ec.
  - destruct (Hc _ _ _ Ho Hw Ec) as (Ho1 & Hp1 & _). destruct (Hh f _ _ _ Ho1 (Hs _ _ Hp1 Hw) H) as (? & ? & ?).
    split_and!; [done|by etrans|done].
  - apply pair_equal_spec in H as [<- <-]. by apply (Hc w).
Qed.
Lemma safe_finally {A} Pre (c : M A) (f : M unit) Post :
  stable Pre → (∀ a, stable (Post a)) → safe Pre c Post → safe Pre f (λ _ _, True) → safe Pre (finally c f) Post.
Proof.
  intros Hs Hp Hc Hf w r w' Ho Hw H. unfold finally in H. destruct (c w) as [r1 w1] eqn:Ec.
  destruct (Hc _ _ _ Ho Hw Ec) as (Ho1 & Hp1 & Hr). destruct (f w1) as [r2 w2] eqn:Ef.
  destruct (Hf _ _ _ Ho1 (Hs _ _ Hp1 Hw) Ef) as (? & ? & _).
  destruct r2; apply pair_equal_spec in H as [<- <-]; split_and!; try done; try by etrans.
  intros a ->. eapply Hp; [done|auto].
Qed.
(** From the log there is. *)
Lemma safe_here {A} (Pre : list event → Prop) (c : M A) Post :
  (∀ l, Pre l → safe (λ l', l `prefix_of` l') c Post) → safe Pre c Post.
Proof. intros Hc w r w' Ho Hw H. by eapply (Hc (log w)). Qed.
Lemma safe_note (Pre : list event → Prop) x (Post : unit → list event → Prop) :
  (∀ l, Pre l → may l x) → (∀ l, Pre l → Post tt (l ++ [x])%list) → safe Pre (note x) Post.
Proof.
  intros Hm HP w r w' Ho Hw H. apply pair_equal_spec in H as [<- <-]. cbn. split_and!.
  - constructor; auto.
  - by eexists.
  - intros [] _. auto.
Qed.

(** What leaves the log alone is safe, and its result is known if [Q] is. *)
Definition silent {A} (c : M A) : Prop := ∀ w r w', c w = (r, w') → log w' = log w.
Lemma safe_silent {A} (Pre : list event → Prop) (c : M A) : silent c → safe Pre c (λ _, Pre).
Proof. intros Hc w r w' Ho Hw H. pose proof (Hc _ _ _ H) as E0. rewrite E0. by split_and!. Qed.
Lemma silent_ret {A} (a : A) : silent (mret a).
Proof. by intros w r w' [_ <-]%pair_equal_spec. Qed.
Lemma silent_throw {A} f : silent (throw f : M A).
Proof. by intros w r w' [_ <-]%pair_equal_spec. Qed.
Lemma silent_gets {A} (f : world E P → A) : silent (gets f).
Proof. by intros w r w' [_ <-]%pair_equal_spec. Qed.
Lemma silent_lift {A} g (r : res A) : silent (lift g r).
Proof. destruct r; [apply silent_ret|apply silent_throw]. Qed.
Lemma silent_page f : silent (modify (set_page f)).
Proof. by intros w r w' [_ <-]%pair_equal_spec. Qed.
Lemma silent_known t : silent (modify (set_known t)).
Proof. by intros w r w' [_ <-]%pair_equal_spec. Qed.
Lemma silent_fresh : silent fresh_id.
Proof. by intros w r w' [_ <-]%pair_equal_spec. Qed.
Lemma silent_ask {A} (f : E → A * E) : silent (ask f).
Proof. intros w r w' H. unfold ask in H. destruct (f (ext w)). by apply pair_equal_spec in H as [_ <-]. Qed.
Lemma silent_bind {A B} (c : M A) (f : A → M B) : silent c → (∀ a, silent (f a)) → silent (c ≫= f).
Proof.
  intros Hc Hf w r w' [(e & H & ->)|(a & w1 & H1 & H)]%bind_inv; [by eapply Hc|].
  rewrite (Hf _ _ _ _ H). by eapply Hc.
Qed.
Lemma silent_catch {A} (c : M A) h : silent c → (∀ f, silent (h f)) → silent (catch c h).
Proof.
  intros Hc Hh w r w' H. unfold catch in H. destruct (c w) as [[f|a] w1] eqn:Ec.
  - rewrite (Hh _ _ _ _ H). by eapply Hc.
  - apply pair_equal_spec in H as [_ <-]. by eapply Hc.
Qed.
Lemma silent_ask_or {A} (f : E → (fault + A) * E) : silent (ask_or f).
Proof. apply silent_bind; [apply silent_ask|]. intros [e|a]; [apply silent_throw|apply silent_ret]. Qed.
Lemma silent_ask_ok (f : E → option fault * E) : silent (ask_ok f).
Proof. apply silent_bind; [apply silent_ask|]. intros [e|]; [apply silent_throw|apply silent_ret]. Qed.
End safe.

Create HintDb silent discriminated.
#[export] Hint Resolve silent_ret silent_throw silent_gets silent_lift silent_page silent_known silent_fresh silent_ask
  silent_ask_or silent_ask_ok : silent.
Ltac silent_walk :=
  repeat first
    [ progress intros
    | solve [eauto with silent]
    | apply silent_bind | apply silent_catch
    | match goal with |- silent (match ?x with _ => _ end) => destruct x end
    | match goal with |- silent (let '(_, _) := ?x in _) => destruct x end ].

(** * What may be sent, and when *)

Section lawful.
Context {E P : Type} `{!Outside E}.
(** Whether the person said the server was reinstalled; the commands that need
    something of the log so far, and what they need. *)
Context (reinstalled : bool) (proves : string → Prop) (proven : list event → nat → Prop).
Abbreviation M := (ST (world E P) fault).

(** The connection's host key was a trusted one, or the first seen of the
    server, or the person said the server was reinstalled. *)
Definition vetted (l : list event) (id : nat) : Prop :=
  ∃ keys k, Offered id keys k ∈ l ∧ (keys = [] ∨ k ∈ keys ∨ reinstalled = true).
Definition lawful (l : list event) (x : event) : Prop :=
  match x with
  | Opened _ _ _ | Closed _ => True
  | Offered id _ _ => ∃ host port, Opened id host port ∈ l
  | KeyLogin id _ _ | PasswordLogin id _ _ | LoggedIn id _ _ | PasswordIn id _ _ | Put id _ _ | Typed id _ => vetted l id
  | Ran id command _ => vetted l id ∧ (proves command → proven l id)
  end.

(** The connection an event sends something of ours over. *)
Definition sends (x : event) : option nat :=
  match x with
  | KeyLogin id _ _ | PasswordLogin id _ _ | LoggedIn id _ _ | PasswordIn id _ _ | Ran id _ _ | Put id _ _ | Typed id _ => Some id
  | Opened _ _ _ | Offered _ _ _ | Closed _ => None
  end.
Lemma lawful_sends l x id : lawful l x → sends x = Some id → vetted l id.
Proof. destruct x; intros H Hs; simplify_eq/=; try done. by destruct H. Qed.

Lemma stable_elem x : stable (λ l, x ∈ l).
Proof. intros l l' [k ->] H. apply elem_of_app. by left. Qed.
Lemma stable_vetted id : stable (λ l, vetted l id).
Proof. intros l l' H (keys & k & Hk & ?). exists keys, k. split; [by eapply stable_elem|done]. Qed.
(** An event later than those of [l0]. *)
Definition after (l0 : list event) (x : event) (l : list event) : Prop := ∃ k, l = (l0 ++ k)%list ∧ x ∈ k.
Lemma after_elem l0 x l : after l0 x l → x ∈ l.
Proof. intros (k & -> & H). apply elem_of_app. by right. Qed.
Lemma after_note l0 x l : l0 `prefix_of` l → after l0 x (l ++ [x])%list.
Proof. intros [k ->]. exists (k ++ [x])%list. split; [by rewrite app_assoc|]. apply elem_of_app. right. by left. Qed.
Lemma stable_after l0 x : stable (after l0 x).
Proof. intros l l' [m ->] (k & -> & H). exists (k ++ m)%list. split; [by rewrite app_assoc|]. apply elem_of_app. by left. Qed.
Lemma stable_prefix l0 : stable (λ l, l0 `prefix_of` l).
Proof. intros l l' H H'. by etrans. Qed.
Lemma stable_true : stable (λ _, True).
Proof. by intros l l'. Qed.
Lemma stable_and Q1 Q2 : stable Q1 → stable Q2 → stable (λ l, Q1 l ∧ Q2 l).
Proof. intros H1 H2 l l' H []. split; [by eapply H1|by eapply H2]. Qed.
#[local] Hint Resolve stable_elem stable_vetted stable_true stable_and stable_after stable_prefix : core.
#[local] Abbreviation safe := (safe lawful).

Lemma safe_quiet {A} (Pre : list event → Prop) (c : M A) (Post : A → list event → Prop) :
  silent c → (∀ a l, Pre l → Post a l) → safe Pre c Post.
Proof. intros Hc HP. eapply safe_weaken; [exact (safe_silent lawful Pre c Hc)|done|exact HP]. Qed.
Lemma safe_close (Pre : list event → Prop) id : stable Pre → safe Pre (close id : M unit) (λ _, Pre).
Proof. intros Hs. apply safe_note; [done|]. intros l. apply Hs. by eexists. Qed.
(** A handler that closes the connection and raises. *)
Lemma safe_close_throw {A} (Pre : list event → Prop) id f (Post : A → list event → Prop) :
  stable Pre → safe Pre (close id;; throw f : M A) Post.
Proof. intros Hs. eapply safe_bind; [by apply safe_close|]. intros ?. apply safe_throw. Qed.

(** The connection [id] was opened to the server since [l0], and vetted. *)
Definition connected (l0 : list event) (host : string) (port : Z) (id : nat) (l : list event) : Prop :=
  vetted l id ∧ after l0 (Opened id host port) l.
Lemma stable_connected l0 host port id : stable (connected l0 host port id).
Proof. by apply stable_and. Qed.
#[local] Hint Resolve stable_connected : core.

Lemma safe_transport l0 host port b keep : (b = true → reinstalled = true) →
  safe (λ l, l0 `prefix_of` l) (transport host port b keep : M nat) (connected l0 host port).
Proof.
  intros Hb. unfold transport. eapply safe_bind.
  { apply (safe_silent _ (λ l, l0 `prefix_of` l)). unfold trusted. silent_walk. }
  intros keys. eapply safe_bind; [apply (safe_silent _ (λ l, l0 `prefix_of` l)); silent_walk|].
  intros [text|]; [apply safe_throw|].
  eapply safe_bind; [apply (safe_silent _ (λ l, l0 `prefix_of` l)); silent_walk|]. intros id.
  set (opened_at := after l0 (Opened id host port)).
  eapply safe_bind; [apply (safe_note _ _ _ (λ _, opened_at)); [done|intros l; apply after_note]|]. intros ?.
  eapply (safe_bind _ _ _ _ (λ k, opened_at)).
  { unfold negotiate. apply safe_catch; [apply stable_after|apply safe_silent; silent_walk|].
    intros [| | | | | |auth text| | | |]; try apply safe_throw.
    eapply safe_bind; [by apply safe_close, stable_after|]. intros ?. destruct (_ && _); apply safe_throw. }
  intros k. eapply (safe_bind _ _ _ _ (λ _ l, Offered id keys k ∈ l ∧ opened_at l)).
  { apply safe_note; [intros l Hl; exists host, port; by eapply after_elem|]. intros l Hl.
    split; [apply elem_of_app; right; by left|]. eapply stable_after; [by eexists|done]. }
  intros ?. eapply (safe_bind _ _ _ _ (λ _, connected l0 host port id)); [|by intros ?; apply safe_ret].
  assert (∀ l, keys = [] ∨ k ∈ keys ∨ b = true → Offered id keys k ∈ l ∧ opened_at l → connected l0 host port id l) as Hv.
  { intros l Hk [Hl ?]. split; [|done]. exists keys, k. split; [done|]. destruct Hk as [?|[?|?]]; auto. }
  unfold vet_key. case_bool_decide as Hk.
  { apply safe_quiet; [destruct keep; [unfold record, io|]; silent_walk|]. intros _ l. apply Hv. by left. }
  case_bool_decide as Hin; [apply safe_ret; intros l; apply Hv; by auto|].
  destruct b; cbn [negb]; [|by apply safe_close_throw; apply stable_and; [apply stable_elem|apply stable_after]].
  apply safe_quiet; [destruct keep; [unfold record, forget, io|]; silent_walk|]. intros _ l. apply Hv. by auto.
Qed.

Lemma safe_connect_key l0 host port user private b keep : (b = true → reinstalled = true) →
  safe (λ l, l0 `prefix_of` l) (connect_key host port user private b keep : M session)
    (λ s l, connected l0 host port (s_id s) l ∧ s_user s = user ∧ after l0 (LoggedIn (s_id s) user private) l).
Proof.
  intros Hb. unfold connect_key. eapply safe_seq; [done|by apply safe_transport|]. intros id.
  set (here := λ l, connected l0 host port id l ∧ l0 `prefix_of` l).
  assert (stable here) as Hh by by apply stable_and.
  eapply (safe_bind _ _ _ _ (λ _, here)).
  { apply safe_catch; [done| |].
    - eapply safe_bind; [apply (safe_silent _ here); silent_walk|]. intros k.
      eapply (safe_bind _ _ _ _ (λ _, here)).
      + apply safe_note; [by intros l [[? _] _]|]. intros l. apply Hh. by eexists.
      + intros ?. apply safe_silent. silent_walk.
    - intros [| | | | | |[] text| | | |]; cbn [is_remote]; try apply safe_throw; by apply safe_close_throw. }
  intros ?. eapply (safe_bind _ _ _ _ (λ _ l, connected l0 host port id l ∧ after l0 (LoggedIn id user private) l)).
  - apply safe_note; [by intros l [[? _] _]|]. intros l [Hl Hp]. split; [by eapply stable_connected; [by eexists|]|by apply after_note].
  - intros ?. apply safe_ret. intros l []. by split_and!.
Qed.

(** Commands over a session: each is sent over a vetted connection. *)
Lemma silent_each (on_line : string → M unit) lines : (∀ t, silent (on_line t)) → silent (each on_line lines).
Proof. intros Ho. induction lines; cbn [each]; silent_walk; auto. Qed.
Definition may_run (id : nat) (command : string) (l : list event) : Prop := vetted l id ∧ (proves command → proven l id).

Lemma safe_ran {A} id command how (f : M A) Post :
  (stable (λ l, proven l id)) → safe (λ l, Ran id command how ∈ l ∧ may_run id command l) f Post →
  safe (may_run id command) (note (Ran id command how);; f) Post.
Proof.
  intros Hs Hf. eapply safe_bind; [|intros ?; exact Hf]. apply safe_note; [by intros l|].
  intros l [Hv Hp]. split; [apply elem_of_app; right; by left|]. split.
  - eapply stable_vetted; [by eexists|done].
  - intros Hc. eapply Hs; [by eexists|by apply Hp].
Qed.
Lemma safe_run s command (on_line : string → M unit) : stable (λ l, proven l (s_id s)) → (∀ t, silent (on_line t)) →
  safe (may_run (s_id s) command) (run s command on_line) (λ rc l, Ran (s_id s) command (Exited rc) ∈ l ∧ vetted l (s_id s)).
Proof.
  intros Hs Ho. unfold run. eapply safe_bind; [apply (safe_silent lawful (may_run (s_id s) command)); silent_walk|]. intros [chunks how].
  apply safe_ran; [done|]. destruct (cut chunks) as [lines pending].
  eapply safe_bind; [apply safe_silent, silent_each, Ho|]. intros ?.
  destruct how as [rc| | |f]; try apply safe_throw.
  - eapply safe_bind; [apply safe_silent; destruct (bool_decide _); [silent_walk|apply Ho]|]. intros ?.
    apply safe_ret. by intros l (? & ? & ?).
  - eapply safe_bind; [apply safe_silent; destruct (bool_decide _); [silent_walk|apply Ho]|]. intros ?. apply safe_throw.
Qed.
Lemma safe_output s command : ¬ proves command →
  safe (λ l, vetted l (s_id s)) (output s command : M (Z * string)) (λ _ l, vetted l (s_id s)).
Proof.
  intros Hn. unfold output. eapply safe_bind; [apply (safe_silent lawful (λ l, vetted l (s_id s))); silent_walk|]. intros [chunks how].
  eapply (safe_bind _ _ _ _ (λ _ l, vetted l (s_id s))).
  - apply safe_note; [by intros l|]. intros l. apply stable_vetted. by eexists.
  - intros ?. destruct (cut chunks) as [lines pending]. destruct how; try apply safe_throw. by apply safe_ret.
Qed.
Lemma safe_upload s files : ¬ proves "mktemp -d /tmp/catena-install.XXXXXX" →
  safe (λ l, vetted l (s_id s)) (upload s files : M string) (λ _ l, vetted l (s_id s)).
Proof.
  intros Hn. unfold upload. eapply safe_bind; [by apply safe_output|]. intros [rc out].
  destruct (negb _); [apply safe_throw|]. destruct (last _) as [directory|]; [|apply safe_throw].
  eapply (safe_bind _ _ _ _ (λ _ l, vetted l (s_id s))); [|intros ?; by apply safe_ret].
  induction files as [|[name data] files IH]; cbn [put_each]; [by apply safe_ret|].
  eapply (safe_bind _ _ _ _ (λ _ l, vetted l (s_id s))).
  { apply safe_note; [done|]. intros l. apply stable_vetted. by eexists. }
  intros ?. eapply safe_bind; [apply (safe_silent lawful (λ l, vetted l (s_id s))); silent_walk|]. intros status.
  destruct (negb _); [apply safe_throw|exact IH].
Qed.

(** The provider's password is typed over vetted connections too. *)
Definition over {A} (id : nat) (c : M A) : Prop := safe (λ l, vetted l id) c (λ _ l, vetted l id).
Lemma over_quiet {A} id (c : M A) : silent c → over id c.
Proof. intros Hc. by apply safe_quiet. Qed.
Lemma over_throw {A} id f : over id (throw f : M A).
Proof. apply safe_throw. Qed.
Lemma over_bind {A B} id (c : M A) (f : A → M B) : over id c → (∀ a, over id (f a)) → over id (c ≫= f).
Proof. intros Hc Hf. eapply safe_bind; [exact Hc|]. intros a. apply Hf. Qed.
Lemma over_catch {A} id (c : M A) h : over id c → (∀ f, over id (h f)) → over id (catch c h).
Proof. intros Hc Hh. by apply safe_catch. Qed.
Lemma over_note id x : (∀ l, vetted l id → lawful l x) → over id (note x).
Proof. intros Hx. apply safe_note; [done|]. intros l. apply stable_vetted. by eexists. Qed.
Lemma over_close id : over id (close id).
Proof. by apply over_note. Qed.
Lemma over_send id line : over id (send id line).
Proof. apply over_bind; [by apply over_note|]. intros ?. apply over_quiet. silent_walk. Qed.
Lemma over_expect id patterns timeout : over id (expect id patterns timeout).
Proof. apply over_quiet. unfold expect. silent_walk. Qed.
End lawful.
Create HintDb over discriminated.
#[export] Hint Resolve over_throw over_send over_expect over_close : over.
Ltac over_walk :=
  repeat first
    [ progress intros
    | solve [eauto with over]
    | apply over_quiet; solve [silent_walk]
    | apply over_bind | apply over_catch
    | match goal with |- over _ _ _ _ (match ?x with _ => _ end) => destruct x end ].

Section password.
Context {E P : Type} `{!Outside E} (reinstalled : bool) (proves : string → Prop) (proven : list event → nat → Prop).
#[local] Abbreviation M := (ST (world E P) fault).
#[local] Abbreviation safe := (safe (lawful reinstalled proves proven)).
#[local] Abbreviation over := (over reinstalled proves proven).
#[local] Abbreviation vetted := (vetted reinstalled).

Lemma over_run_in_shell id command timeout : over id (run_in_shell id command timeout : M unit).
Proof. unfold run_in_shell. over_walk. Qed.
Lemma over_sync id timeout : over id (sync id timeout : M unit).
Proof. unfold sync. apply over_bind; [apply over_send|]. intros ?. apply over_run_in_shell. Qed.
#[local] Hint Resolve over_run_in_shell over_sync : over.
Lemma over_change_prompt id : over id (change_prompt id : M change).
Proof. unfold change_prompt. over_walk. Qed.
Lemma over_append_key id user line : over id (append_key id user line : M unit).
Proof.
  unfold append_key. apply over_bind; [over_walk|]. intros token. apply over_bind; [|over_walk].
  induction (append_commands _ user line) as [|c cs IH]; cbn [run_each]; over_walk.
Qed.
Lemma silent_random_password : silent (random_password : M string).
Proof. unfold random_password. generalize 24. intros n. induction n as [|n IH]; cbn [random_chars]; silent_walk. Qed.
Lemma over_answer_change id c password : over id (answer_change id c password : M string).
Proof.
  unfold answer_change. apply over_bind; [over_walk|]. intros ?. apply over_bind; [apply over_quiet, silent_random_password|].
  over_walk.
Qed.
#[local] Hint Resolve over_change_prompt over_append_key over_answer_change : over.
Lemma over_password_turn id user password line : over id (password_turn id user password line : M (string + unit)).
Proof. unfold password_turn. over_walk. Qed.

Lemma safe_password_shell l0 host port user password b keep : (b = true → reinstalled = true) →
  safe (λ l, l0 `prefix_of` l) (password_shell host port user password b keep : M nat)
    (λ id l, connected reinstalled l0 host port id l ∧ after l0 (PasswordIn id user password) l).
Proof.
  intros Hb. unfold password_shell. eapply safe_seq; [apply stable_prefix|by apply safe_transport|]. intros id.
  set (here := λ l, connected reinstalled l0 host port id l ∧ l0 `prefix_of` l).
  assert (stable here) as Hh by (apply stable_and; [apply stable_connected|apply stable_prefix]).
  eapply (safe_bind _ _ _ _ (λ _, here)).
  { apply safe_note; [by intros l [[? _] _]|]. intros l. apply Hh. by eexists. }
  intros ?. eapply (safe_bind _ _ _ _ (λ _, here)).
  { apply safe_catch; [done|apply safe_silent; silent_walk|].
    intros [| | | | | |[] text| | | |]; try apply safe_throw; by apply safe_close_throw. }
  intros ?. eapply (safe_bind _ _ _ _ (λ _ l, connected reinstalled l0 host port id l ∧ after l0 (PasswordIn id user password) l)).
  { apply safe_note; [by intros l [[? _] _]|]. intros l [Hl Hp]. split; [by eapply stable_connected; [by eexists|]|by apply after_note]. }
  intros ?. set (now := λ l, connected reinstalled l0 host port id l ∧ after l0 (PasswordIn id user password) l).
  eapply safe_bind; [apply (safe_silent _ now); silent_walk|]. intros ?. by apply safe_ret.
Qed.
Lemma safe_install_key host port user password line b : (b = true → reinstalled = true) →
  safe (λ _, True) (install_key_with_password host port user password line b : M unit) (λ _ _, True).
Proof.
  intros Hb. unfold install_key_with_password. generalize 2. intros turns. revert password.
  induction turns as [|turns IH]; intros password; cbn [password_turns]; [apply safe_throw|].
  eapply safe_bind; [eapply safe_weaken; [by apply (safe_password_shell [])|intros; apply prefix_nil|done]|].
  intros id. eapply (safe_bind _ _ _ _ (λ _ _, True)).
  - eapply safe_weaken; [apply (safe_finally _ (λ l, vetted l id) _ _ (λ _ _, True))|by intros l [[? _] _]|done].
    + apply stable_vetted.
    + intros ?. apply stable_true.
    + eapply safe_weaken; [apply (over_catch reinstalled proves proven id)|done|done]; over_walk.
    + eapply safe_weaken; [apply (over_close reinstalled proves proven id)|done|done].
  - intros [p|?]; [apply IH|by apply safe_ret].
Qed.
End password.

(** * The trusted keys, and the connections *)

Section opens.
Context {E P : Type}.
(** The connections opened meanwhile are new ones, each opened once. *)
Definition opened_ids (l : list event) : list nat := omap (λ x, match x with Opened id _ _ => Some id | _ => None end) l.
Definition opens (w w' : world E P) : Prop :=
  (opened w ≤ opened w')%nat ∧ ∃ l, log w' = (log w ++ l)%list ∧ NoDup (opened_ids l) ∧ Forall (λ id, opened w ≤ id < opened w')%nat (opened_ids l).
#[export] Instance opens_preorder : PreOrder opens.
Proof.
  split; [intros w; split; [done|]; exists []; rewrite app_nil_r; split; [done|split; [constructor|done]]|].
  intros w1 w2 w3 [L1 (l1 & E1 & N1 & F1)] [L2 (l2 & E2 & N2 & F2)]. split; [lia|]. exists (l1 ++ l2)%list.
  rewrite E2, E1, app_assoc. unfold opened_ids in *. rewrite omap_app, Forall_app, !Forall_forall in *. split; [done|]. split.
  - apply NoDup_app. split; [done|]. split; [|done]. intros id H1 H2. specialize (F1 id H1). specialize (F2 id H2). lia.
  - split; intros id H; [specialize (F1 id H)|specialize (F2 id H)]; lia.
Qed.
End opens.

Section known.
Context {E P : Type} `{!Outside E} (name : string).
#[local] Abbreviation M := (ST (world E P) fault).

(** A key is recorded for the server when no key of it was trusted. *)
Inductive first_entry : option string → option string → Prop :=
  | first_entry_intro t k :
      match t with Some text => lookup text name = inr [] | None => True end →
      first_entry t (Some (default "" t +:+ entry_text name k)).
(** A server said to be reinstalled offers a key that is none of its trusted
    ones: its entries are removed by [ssh-keygen], and the new key recorded. *)
Inductive renewed_entry : option string → option string → Prop :=
  | renewed_entry_intro text keys k e left e' t :
      lookup text name = inr keys → keys ≠ [] → k ∉ keys → run_keygen text name e = (inr left, e') →
      t = left ∨ t = left +:+ entry_text name k →
      renewed_entry (Some text) (Some t).
Definition entry (reinstalled : bool) (t t' : option string) : Prop := first_entry t t' ∨ reinstalled = true ∧ renewed_entry t t'.

Definition knows (b : bool) (w w' : world E P) : Prop := rtc (entry b) (known_hosts w) (known_hosts w') ∧ opens w w'.
#[export] Instance knows_preorder b : PreOrder (knows b).
Proof. split; [split; [apply rtc_refl|done]|]. intros w1 w2 w3 [H1 ?] [H2 ?]. split; by etrans. Qed.
Lemma rtc_first t t' : rtc (entry false) t t' → rtc first_entry t t'.
Proof. apply rtc_subrel. by intros ?? [?|[? _]]. Qed.

Definition quiet (w w' : world E P) : Prop := known_hosts w' = known_hosts w ∧ opens w w'.
#[export] Instance quiet_preorder : PreOrder quiet.
Proof. split; [by split|]. intros w1 w2 w3 [H1 ?] [H2 ?]. split; [congruence|by etrans]. Qed.
#[local] Abbreviation still := (runs_in quiet).

Lemma opens_ext (w w' : world E P) : log w' = log w → opened w' = opened w → opens w w'.
Proof. intros H1 H2. split; [lia|]. exists []. split; [by rewrite app_nil_r|]. split; [constructor|done]. Qed.
Lemma still_note x : match x with Opened _ _ _ => False | _ => True end → still (note x).
Proof.
  intros Hx w r w' [_ <-]%pair_equal_spec. split; [done|]. split; [done|]. exists [x]. split; [done|]. by destruct x; split; try constructor.
Qed.
Lemma still_page f : still (modify (set_page f) : M unit).
Proof. intros w r w' [_ <-]%pair_equal_spec. split; [done|by apply opens_ext]. Qed.
Lemma still_ask {A} (f : E → A * E) : still (ask f).
Proof. intros w r w' H. unfold ask in H. destruct (f (ext w)). apply pair_equal_spec in H as [_ <-]. split; [done|by apply opens_ext]. Qed.
Lemma still_ask_or {A} (f : E → (fault + A) * E) : still (ask_or f).
Proof. apply runs_bind; [apply _|apply still_ask|]. intros [e|a]; [apply runs_throw|apply runs_ret]; apply _. Qed.
Lemma still_ask_ok (f : E → option fault * E) : still (ask_ok f).
Proof. apply runs_bind; [apply _|apply still_ask|]. intros [e|]; [apply runs_throw|apply runs_ret]; apply _. Qed.
Lemma still_io : still io.
Proof. apply runs_bind; [apply _|apply still_ask|]. intros [e|]; [apply runs_throw|apply runs_ret]; apply _. Qed.
Lemma still_knows {A} b (c : M A) : still c → runs_in (knows b) c.
Proof. intros Hc w r w' H. destruct (Hc w r w' H) as [E0 ?]. split; [rewrite E0; apply rtc_refl|done]. Qed.

Lemma record_known k (w : world E P) r w' : record name k w = (r, w') →
  opens w w' ∧ (known_hosts w' = known_hosts w ∨ known_hosts w' = Some (default "" (known_hosts w) +:+ entry_text name k)).
Proof.
  unfold record. intros [(e & H & ->)|([] & w1 & H1 & H)]%bind_inv; [apply still_io in H as [? ?]; by split; [|left]|].
  pose proof (still_io _ _ _ H1) as [E1 O1]. apply bind_inv in H as [(e & H & ->)|(text & w2 & H2 & H)]; [done|].
  apply pair_equal_spec in H2 as [[= <-] <-]. rewrite E1 in H.
  apply bind_inv in H as [(e & H & ->)|([] & w3 & H3 & H)].
  { apply still_io in H as [E2 O2]. split; [by etrans|]. left. congruence. }
  apply still_io in H3 as [E3 O3]. assert (opens w w3) as O by by etrans.
  apply bind_inv in H as [(e & H & ->)|([] & w4 & H4 & H)]; [done|].
  apply pair_equal_spec in H4 as [_ <-].
  assert (opens w (set_known (default "" (known_hosts w) +:+ entry_text name k) w3)) as O4.
  { etrans; [exact O|]. by apply opens_ext. }
  destruct (known_hosts w) eqn:Ew; [apply pair_equal_spec in H as [_ <-]; split; [done|by right]|].
  apply still_io in H as [E5 O5]. split; [by etrans|]. right. by rewrite E5.
Qed.
Lemma forget_known (w : world E P) r w' : forget name w = (r, w') →
  opens w w' ∧ (known_hosts w' = known_hosts w ∧ (known_hosts w = None ∨ ∃ f, r = inl f)
    ∨ ∃ text e left e', known_hosts w = Some text ∧ run_keygen text name e = (inr left, e') ∧ known_hosts w' = Some left).
Proof.
  unfold forget. intros [(e & H & ->)|(text & w1 & H1 & H)]%bind_inv; [by apply pair_equal_spec in H as [? _]|]. apply pair_equal_spec in H1 as [[= <-] <-].
  destruct (known_hosts w) as [text|] eqn:Ew; [|apply pair_equal_spec in H as [_ <-]; split; [done|left; auto]].
  destruct (negb has_keygen); [apply pair_equal_spec in H as [<- <-]; split; [done|left; eauto]|].
  apply bind_inv in H as [(e & H & ->)|(left & w1 & H1 & H)].
  { apply still_ask_or in H as [E1 O1]. split; [done|]. left. split; [congruence|eauto]. }
  pose proof (still_ask_or _ _ _ _ H1) as [E1 O1]. apply pair_equal_spec in H as [_ <-].
  split; [etrans; [exact O1|by apply opens_ext]|]. right.
  apply bind_ok in H1 as (r1 & w2 & H1 & H2). unfold ask in H1. destruct (run_keygen text name (ext w)) as [[f|l] e'] eqn:Ek;
    apply pair_equal_spec in H1 as [[= <-] <-]; [done|]. apply ret_ok in H2 as [-> _].
  by exists text, (ext w), l, e'.
Qed.
End known.

#[export] Hint Resolve still_page still_ask still_ask_or still_ask_ok still_io : runs.
#[export] Hint Extern 1 (runs_in quiet (note _)) => apply still_note; exact I : runs.
Section transport.
Context {E P : Type} `{!Outside E}.
#[local] Abbreviation M := (ST (world E P) fault).
#[local] Abbreviation still := (runs_in (quiet (E := E) (P := P))).

Lemma trusted_known nm (w : world E P) r w' : trusted nm w = (r, w') → w' = w ∧ ∀ keys, r = inr keys →
  match known_hosts w with Some text => lookup text nm = inr keys | None => keys = [] end.
Proof.
  unfold trusted. intros [(e & H & ->)|(text & w1 & H1 & H)]%bind_inv; [done|].
  apply pair_equal_spec in H1 as [[= <-] <-]. destruct (known_hosts w) as [text|].
  - destruct (lookup text nm) as [f|keys]; apply pair_equal_spec in H as [<- <-]; (split; [done|]); by intros ? [= <-].
  - apply pair_equal_spec in H as [<- <-]. (split; [done|]); by intros ? [= <-].
Qed.
Lemma still_negotiate id nm keys b : still (negotiate id nm keys b : M key).
Proof.
  unfold negotiate. apply runs_catch; [apply _|eauto with runs|].
  intros [| | | | | |auth text| | | |]; unfold close; runs_walk.
Qed.

(** At most a first key of the server, if nothing was trusted for it, or
    another for those it had, if the person said it was reinstalled. *)
Definition vets (nm : string) (b : bool) (keys : list key) {A} (c : M A) : Prop := ∀ w r w', c w = (r, w') →
  match known_hosts w with Some text => lookup text nm = inr keys | None => keys = [] end → knows nm b w w'.
Lemma vets_still nm b keys {A B} (c : M A) (f : A → M B) : still c → (∀ a, vets nm b keys (f a)) → vets nm b keys (c ≫= f).
Proof.
  intros Hc Hf w r w' [(e & H & ->)|(a & w1 & H1 & H)]%bind_inv Hk; [by eapply still_knows|].
  etrans; [by eapply still_knows|]. eapply (Hf a); [done|]. by rewrite (proj1 (Hc _ _ _ H1)).
Qed.
Lemma vets_vet_key id nm b keys k keep : vets nm b keys (vet_key id nm keys k b keep : M unit).
Proof.
  unfold vet_key. intros w r w' H Hk. case_bool_decide as Hn.
  { destruct keep; [|by apply pair_equal_spec in H as [_ <-]].
    apply record_known in H as [Ho [E0|E0]]; (split; [rewrite E0|done]); [apply rtc_refl|].
    apply rtc_once. left. constructor. subst keys. by destruct (known_hosts w). }
  case_bool_decide as Hin; [by apply pair_equal_spec in H as [_ <-]|].
  destruct b; cbn [negb] in H; [|eapply still_knows; [|exact H]; unfold close; runs_walk].
  destruct keep; [|by apply pair_equal_spec in H as [_ <-]].
  destruct (known_hosts w) as [text|] eqn:Ew; [|done].
  assert (∀ e left e' t, run_keygen text nm e = (inr left, e') → t = left ∨ t = left +:+ entry_text nm k → rtc (entry nm true) (Some text) (Some t)) as Hren.
  { intros e left e' t He Ht. apply rtc_once. right. split; [done|]. by eapply renewed_entry_intro. }
  apply bind_inv in H as [(e & H & ->)|([] & w1 & H1 & H)].
  { apply forget_known in H as [Ho [[E0 _]|(text' & e0 & left & e' & Et & Hr & E0)]]; (split; [rewrite E0, Ew|done]); [apply rtc_refl|].
    rewrite Ew in Et. injection Et as <-. by eapply Hren; [|left]. }
  apply forget_known in H1 as [Ho1 [[_ [E0|[f [=]]]]|(text' & e0 & left & e' & Et & Hg & E0)]]; [congruence|].
  rewrite Ew in Et. injection Et as <-. apply record_known in H as [Ho Hr]. split; [|by etrans]. rewrite Ew.
  destruct Hr as [->| ->]; rewrite E0; (eapply Hren; [exact Hg|]); [by left|by right].
Qed.

Lemma transport_known host port b keep : runs_in (knows (known_name host port) b) (transport host port b keep : M nat).
Proof.
  intros w r w' H. unfold transport in H. set (nm := known_name host port) in *.
  apply bind_inv in H as [(e & H & ->)|(keys & w1 & H1 & H)].
  { by apply trusted_known in H as [-> _]. }
  apply trusted_known in H1 as [-> Hk]. specialize (Hk keys eq_refl).
  apply bind_inv in H as [(e & H & ->)|([text|] & w1 & H1 & H)]; [by eapply still_knows; [apply still_ask|]| |].
  { apply pair_equal_spec in H as [_ <-]. by eapply still_knows; [apply still_ask|]. }
  etrans; [by eapply still_knows; [apply still_ask|]|]. pose proof (still_ask _ _ _ _ H1) as [E1 _].
  (* the connection, then what its host key comes to *)
  set (w2 := {| known_hosts := known_hosts w1; opened := S (opened w1); log := (log w1 ++ [Opened (opened w1) host port])%list;
    page := page w1; ext := ext w1 |}).
  change ((k ← negotiate (opened w1) nm keys b; note (Offered (opened w1) keys k);; vet_key (opened w1) nm keys k b keep;; mret (opened w1)) w2 = (r, w')) in H.
  assert (quiet w1 w2) as Hw.
  { split; [done|]. split; [cbn; lia|]. exists [Opened (opened w1) host port]. split; [done|]. cbn. split; [apply NoDup_singleton|]. by repeat constructor. }
  etrans; [split; [rewrite (proj1 Hw); apply rtc_refl|apply Hw]|]. revert H.
  assert (∀ id, vets nm b keys (k ← negotiate id nm keys b; note (Offered id keys k);; vet_key id nm keys k b keep;; mret id : M nat)) as Hv.
  { intros id. apply vets_still; [apply still_negotiate|]. intros k. apply vets_still; [by apply still_note|]. intros _.
    intros w0 r0 w4 [(e & H & ->)|([] & w3 & H3 & H)]%bind_inv Hk0; [by eapply vets_vet_key|].
    apply pair_equal_spec in H as [_ <-]. by eapply vets_vet_key. }
  intros H. eapply Hv; [exact H|]. cbn. by rewrite E1.
Qed.
End transport.

Section knows.
Context {E P : Type} `{!Outside E} (name : string) (b : bool).
#[local] Abbreviation M := (ST (world E P) fault).
#[local] Abbreviation keeps := (runs_in (knows (P := P) name b)).

Lemma knows_quiet {A} (c : M A) : runs_in quiet c → keeps c.
Proof. apply still_knows. Qed.
Lemma knows_finally {A} (c : M A) f : keeps c → keeps f → keeps (finally c f).
Proof.
  intros Hc Hf w r w' H. unfold finally in H. destruct (c w) as [r1 w1] eqn:E1. destruct (f w1) as [r2 w2] eqn:E2.
  assert (w2 = w') as -> by (destruct r2; by apply pair_equal_spec in H as [_ <-]).
  etrans; [by eapply Hc|by eapply Hf].
Qed.
(** What a run does without the person's word, it may do with it. *)
Lemma knows_any {A} (c : M A) : runs_in (knows name false) c → keeps c.
Proof.
  intros Hc w r w' H. destruct (Hc w r w' H) as [H1 ?]. split; [|done]. eapply rtc_subrel; [|exact H1].
  intros t t' [?|[? _]]; [by left|done].
Qed.
End knows.
Create HintDb knows discriminated.
Ltac knows_walk :=
  repeat first
    [ progress intros
    | solve [eauto with knows]
    | apply runs_ret; apply _ | apply runs_throw; apply _ | apply runs_gets; apply _ | apply runs_lift; apply _
    | apply knows_quiet; solve [eauto with runs]
    | apply runs_bind; [apply _| |] | apply runs_catch; [apply _| |] | apply knows_finally
    | match goal with |- runs_in _ (match ?x with _ => _ end) => destruct x end ].

Section known_ops.
Context {E P : Type} `{!Outside E} (name : string) (b : bool).
#[local] Abbreviation M := (ST (world E P) fault).
#[local] Abbreviation keeps := (runs_in (knows (P := P) name b)).

Lemma knows_transport host port b' keep : name = known_name host port → (b' = true → b = true) → keeps (transport host port b' keep : M nat).
Proof.
  intros -> Hb. destruct b'; [rewrite Hb by done; apply transport_known|apply knows_any, transport_known].
Qed.
Lemma knows_connect_key host port user private b' keep : name = known_name host port → (b' = true → b = true) →
  keeps (connect_key host port user private b' keep : M session).
Proof.
  intros Hn Hb. unfold connect_key. apply runs_bind; [apply _|by apply knows_transport|]. intros id. unfold close. knows_walk.
Qed.
Lemma knows_each (on_line : string → M unit) lines : (∀ t, keeps (on_line t)) → keeps (each on_line lines).
Proof. intros Ho. induction lines; cbn [each]; knows_walk; auto. Qed.
Lemma knows_run s command (on_line : string → M unit) : (∀ t, keeps (on_line t)) → keeps (run s command on_line).
Proof. intros Ho. pose proof knows_each. unfold run. knows_walk; auto. Qed.
Lemma knows_output s command : keeps (output s command : M (Z * string)).
Proof. unfold output. knows_walk. Qed.
Lemma knows_upload s files : keeps (upload s files : M string).
Proof.
  unfold upload. apply runs_bind; [apply _|apply knows_output|]. intros [rc out]. destruct (negb _); [knows_walk|].
  destruct (last _) as [directory|]; [|knows_walk]. apply runs_bind; [apply _| |knows_walk].
  induction files as [|[n data] files IH]; cbn [put_each]; knows_walk.
Qed.
#[local] Hint Resolve knows_output : knows.
Lemma knows_run_in_shell id command timeout : keeps (run_in_shell id command timeout : M unit).
Proof. unfold run_in_shell, send, expect. knows_walk. Qed.
#[local] Hint Resolve knows_run_in_shell : knows.
Lemma knows_password_turn id user password line : keeps (password_turn id user password line : M (string + unit)).
Proof.
  assert (keeps (random_password : M string)) as Hr.
  { unfold random_password. generalize 24. intros n. induction n as [|n IH]; cbn [random_chars]; knows_walk. }
  assert (∀ keyfile, keeps (run_each id (append_commands keyfile user line) : M unit)) as Ha.
  { intros k. induction (append_commands k user line) as [|c cs IH]; cbn [run_each]; knows_walk. }
  unfold password_turn, answer_change, change_prompt, append_key, sync, send, expect. knows_walk.
Qed.
Lemma knows_install_key host port user password line b' : name = known_name host port → (b' = true → b = true) →
  keeps (install_key_with_password host port user password line b' : M unit).
Proof.
  intros Hn Hb. unfold install_key_with_password. generalize 2. intros turns. revert password.
  induction turns as [|turns IH]; intros password; cbn [password_turns]; [knows_walk|].
  apply runs_bind; [apply _| |].
  - unfold password_shell. apply runs_bind; [apply _|by apply knows_transport|]. intros id. unfold close. knows_walk.
  - intros id. apply runs_bind; [apply _| |].
    + apply knows_finally; [|unfold close; knows_walk]. apply runs_catch; [apply _|apply knows_password_turn|]. knows_walk.
    + knows_walk.
Qed.
End known_ops.
