(* ===== verification/InstallFacts.v ===== *)
(** Facts of [Install]: where the passwords go, what the hardening leg waits
    for, and that every session is closed. *)
From S2P Require Import Prelude PyStr PyNum PyVal Json Effects EnvFile Remote RemoteFacts Checks Install.

#[local] Open Scope string_scope.

(** * Texts *)

(** Whether a text ends with a double quote. *)
Definition dquote : ascii := "034"%char.
Fixpoint ends_quoted (s : string) : bool :=
  match s with
  | EmptyString => false
  | String a EmptyString => bool_decide (a = dquote)
  | String _ s => ends_quoted s
  end.
Lemma ends_quoted_app a b : b ≠ "" → ends_quoted (a +:+ b) = ends_quoted b.
Proof.
  intros Hb. induction a as [|x a IH]; [done|]. cbn. destruct (a +:+ b) as [|y s] eqn:E; [|exact IH].
  by destruct a.
Qed.
Lemma ends_quoted_safe s : sforall shell_safe s = true → ends_quoted s = false.
Proof.
  induction s as [|a [|b s] IH]; [done| |].
  - cbn. rewrite andb_true_r. intros Ha. apply bool_decide_eq_false. by intros ->.
  - intros [_ H]%andb_prop. by apply IH.
Qed.
Lemma shlex_quote_ne s : shlex_quote s ≠ "".
Proof. unfold shlex_quote. case_bool_decide; [done|]. by destruct (sforall shell_safe s). Qed.
(** A quoted word ends with a safe character or a single quote. *)
Lemma shlex_quote_end s : ends_quoted (shlex_quote s) = false.
Proof.
  unfold shlex_quote. case_bool_decide; [done|]. destruct (sforall shell_safe s) eqn:Hs; [by apply ends_quoted_safe|].
  change (String squote (close_quotes s +:+ String squote "")) with (String squote (close_quotes s) +:+ String squote "").
  by rewrite ends_quoted_app.
Qed.
Lemma shlex_join_end ws : ws ≠ [] → shlex_join ws ≠ "" ∧ ends_quoted (shlex_join ws) = false.
Proof.
  unfold shlex_join, sjoin. induction ws as [|w ws IH]; [done|]. intros _.
  destruct ws as [|w' ws]; cbn [map String.concat]; [split; [apply shlex_quote_ne|apply shlex_quote_end]|].
  destruct IH as [H1 H2]; [done|]. cbn [map] in *. rewrite string_app_assoc. split.
  - by destruct (shlex_quote w), (String.concat _ _).
  - by rewrite ends_quoted_app.
Qed.

(** * The commands of a leg *)

Section commands.
Context {E : Type} {net : Remote.Outside E} {probes : Probes E} {local : Local E}.

(** The one command that hands the server a session to prove. *)
Definition proves (command : string) : Prop := ends_quoted command = true.
Lemma other_leg s v o l directory : is_system l = false → ¬ proves (leg_command s v o l directory).
Proof.
  intros Hl. unfold proves, leg_command. rewrite Hl, string_app_nil_r, !string_app_assoc.
  destruct (shlex_join_end (host_args v o l directory)) as [Hne He]; [done|].
  by rewrite ends_quoted_app, He.
Qed.
Lemma system_leg s v o directory : proves (leg_command s v o System directory).
Proof. unfold proves, leg_command. cbn [is_system]. rewrite !string_app_assoc. by rewrite ends_quoted_app. Qed.
Lemma removal_proves_not directory : ¬ proves ("rm -rf " +:+ shlex_quote directory).
Proof. unfold proves. rewrite ends_quoted_app by apply shlex_quote_ne. by rewrite shlex_quote_end. Qed.
Lemma check_proves_not a b : ends_quoted b = false → b ≠ "" → ¬ proves (a +:+ b).
Proof. intros Hb Hne. unfold proves. by rewrite ends_quoted_app, Hb. Qed.
End commands.

(** * The passwords *)

(** The lines of a text as a session shows them. *)
Definition feeds (lines : list string) (o : output_state) : output_state := foldl (λ o line, feed_step line o) o lines.
Lemma feeds_app l1 l2 o : feeds (l1 ++ l2) o = feeds l2 (feeds l1 o).
Proof. apply foldl_app. Qed.
Lemma feeds_cons line lines o : feeds (line :: lines) o = feeds lines (feed_step line o).
Proof. done. Qed.
Lemma feeds_plain lines o : o_block o = None → KEYSET_BEGIN ∉ lines →
  feeds lines o = {| o_lines := (o_lines o ++ lines)%list; o_keysets := o_keysets o; o_block := None |}.
Proof.
  revert o. induction lines as [|line lines IH]; intros o Hb Hn.
  - cbn. rewrite app_nil_r. destruct o; cbn in *. by subst.
  - apply not_elem_of_cons in Hn as [Hl Hn]. rewrite feeds_cons.
    assert (feed_step line o = add_line line o) as -> by (unfold feed_step; by rewrite bool_decide_false, Hb by done).
    rewrite IH by done. cbn. by rewrite <-app_assoc.
Qed.
Lemma feeds_block block lines keysets held : KEYSET_BEGIN ∉ block → KEYSET_END ∉ block →
  feeds block {| o_lines := lines; o_keysets := keysets; o_block := Some held |} =
  {| o_lines := lines; o_keysets := keysets; o_block := Some (held ++ block)%list |}.
Proof.
  revert held. induction block as [|line block IH]; intros held Hb He; [by rewrite app_nil_r|].
  apply not_elem_of_cons in Hb as [? Hb]. apply not_elem_of_cons in He as [? He].
  rewrite feeds_cons. unfold feed_step. rewrite bool_decide_false by done. cbn [o_block]. rewrite bool_decide_false by done.
  cbn [o_lines o_keysets]. rewrite IH by done. by rewrite <-app_assoc.
Qed.
Lemma feeds_keyset before block after o :
  o_block o = None → KEYSET_BEGIN ∉ before → KEYSET_BEGIN ∉ block → KEYSET_END ∉ block →
  feeds (before ++ KEYSET_BEGIN :: block ++ KEYSET_END :: after) o =
  feeds after {| o_lines := (o_lines o ++ before)%list; o_keysets := (o_keysets o ++ [block])%list; o_block := None |}.
Proof.
  intros Ho H1 H2 H3. rewrite feeds_app, (feeds_plain before) by done. rewrite feeds_cons.
  change (feed_step KEYSET_BEGIN ?o) with
    {| o_lines := o_lines o; o_keysets := o_keysets o; o_block := Some [] |}. cbn [o_lines o_keysets].
  rewrite feeds_app, feeds_block, feeds_cons by done. done.
Qed.

Section feed.
Context {E : Type} {net : Remote.Outside E} {probes : Probes E} {local : Local E}.
#[local] Abbreviation M := (ST (Remote.world E output_state) Remote.fault).

(** The lines a finished command's output has, whatever chunks it came in. *)
Definition lines_shown (text : string) : list string :=
  let parts := split nl text in
  (map shown (removelast parts) ++ (if bool_decide (List.last parts "" = "") then [] else [shown (List.last parts "")]))%list.

Lemma each_feed lines (w : Remote.world E output_state) :
  each out_feed lines w = (inr tt, set_page (feeds lines) w).
Proof.
  revert w. induction lines as [|line lines IH]; intros w; [by destruct w|].
  cbn [each]. unfold mbind, ST_bind. unfold out_feed at 1, modify. cbn. rewrite IH. by destruct w.
Qed.
Lemma run_feed s command w rc w' : run s command out_feed w = (inr rc, w') →
  ∃ chunks e, execute (s_id s) command (ext w) = ((chunks, Exited rc), e)
    ∧ page w' = feeds (lines_shown (RemoteFacts.text_of chunks)) (page w).
Proof.
  unfold run. intros ([chunks how] & w1 & Hask & H)%bind_ok.
  unfold ask in Hask. destruct (execute (s_id s) command (ext w)) as [[chunks' how'] e] eqn:Ee.
  apply pair_equal_spec in Hask as [[= <- <-] <-].
  apply bind_ok in H as ([] & w2 & Hn & H). apply pair_equal_spec in Hn as [_ <-].
  rewrite cut_chunks in H. unfold cut_text in H. exists chunks', e.
  apply bind_ok in H as ([] & w3 & He & H). rewrite each_feed in He. apply pair_equal_spec in He as [_ <-].
  destruct how' as [rc'| | |f]; [|done| |done].
  - apply bind_ok in H as ([] & w4 & Hl & H). apply ret_ok in H as [-> ->]. split; [done|].
    unfold lines_shown. rewrite feeds_app. case_bool_decide as Hp.
    + apply pair_equal_spec in Hl as [_ <-]. done.
    + apply pair_equal_spec in Hl as [_ <-]. done.
  - apply bind_ok in H as ([] & w4 & _ & H). done.
Qed.
End feed.

(** * The order of an install *)

Section order.
Context {E : Type} {net : Remote.Outside E} {probes : Probes E} {local : Local E} (v : server) (o : options).
#[local] Abbreviation M := (ST (Remote.world E output_state) Remote.fault).
(** The commands that need the log to prove something, the system leg's at
    most. *)
Context (pr : string → Prop) (Hpr : ∀ c, pr c → proves c).
Lemma spared c : ¬ proves c → ¬ pr c.
Proof using Hpr. intros H Hc. by apply H, Hpr. Qed.

(** The accounts leg ended with status 0; since then the connection was opened
    to the server, and is a login of the ops account with the inventory's key. *)
Definition accounts_done (l : list event) : Prop :=
  ∃ s directory, Ran (s_id s) (leg_command s v o Accounts directory) (Exited 0) ∈ l.
Definition proven (l : list event) (id : nat) : Prop :=
  ∃ l0 s directory l1, l = (l0 ++ Ran (s_id s) (leg_command s v o Accounts directory) (Exited 0) :: l1)%list
    ∧ Opened id (v_host v) (v_port v) ∈ l1 ∧ LoggedIn id (v_ops_user v) (v_key v) ∈ l1.
#[local] Abbreviation safe := (safe (lawful (p_reinstalled o) pr proven)).
#[local] Abbreviation vetted := (vetted (p_reinstalled o)).
#[local] Abbreviation connected := (connected (p_reinstalled o)).

Lemma stable_accounts : stable accounts_done.
Proof. intros l l' H (s & d & Hin). exists s, d. by eapply stable_elem. Qed.
Lemma stable_proven id : stable (λ l, proven l id).
Proof.
  intros l l' [k ->] (l0 & s & d & l1 & -> & H1 & H2). exists l0, s, d, (l1 ++ k)%list.
  rewrite !elem_of_app. split; [by rewrite <-app_assoc|auto].
Qed.
Lemma proven_since l0 l id : accounts_done l0 → after l0 (Opened id (v_host v) (v_port v)) l →
  after l0 (LoggedIn id (v_ops_user v) (v_key v)) l → proven l id.
Proof.
  intros (s & d & (l1 & l2 & ->)%list_elem_of_split) (k & -> & Ho) (k' & E0%app_inv_head & Hl). subst k'.
  exists l1, s, d, (l2 ++ k)%list. rewrite !elem_of_app. split; [by rewrite <-app_assoc|auto].
Qed.
#[local] Hint Resolve stable_elem stable_vetted stable_true stable_and stable_accounts stable_proven stable_prefix stable_after stable_connected : core.

Lemma silent_line text : silent (out_line text : M unit).
Proof. apply silent_page. Qed.
Lemma silent_feed text : silent (out_feed text : M unit).
Proof. apply silent_page. Qed.
Lemma silent_public_line private : silent (public_line private : M string).
Proof. unfold public_line. silent_walk. Qed.
#[local] Hint Resolve silent_line silent_feed silent_public_line : silent.
Lemma silent_leg_files l : silent (leg_files v o l : M (list (string * string))).
Proof.
  assert (∀ paths, silent (read_each paths : M (list (string * string)))) as Hr.
  { induction paths as [|p ps IH]; cbn [read_each]; silent_walk. }
  unfold leg_files. silent_walk.
Qed.
Lemma silent_server_of inv address : silent (server_of inv address : M server).
Proof. unfold server_of, inventory_env, vps_host, pure. silent_walk. Qed.

Lemma removal_not_proof : ¬ proves "mktemp -d /tmp/catena-install.XXXXXX".
Proof. done. Qed.

Definition may_leg (s : session) (l : leg) (log : list event) : Prop :=
  vetted log (s_id s) ∧ (is_system l = true → proven log (s_id s)).
Lemma stable_may_leg s l : stable (may_leg s l).
Proof. apply stable_and; [done|]. intros l1 l2 H Hp Hl. eapply stable_proven; [done|by apply Hp]. Qed.
#[local] Hint Resolve stable_may_leg : core.

Lemma safe_run_leg s feed l : (∀ t, silent (feed t)) →
  safe (may_leg s l) (run_leg s v o feed l : M Z)
    (λ rc log, ∃ directory, Ran (s_id s) (leg_command s v o l directory) (Exited rc) ∈ log).
Proof.
  intros Hf. unfold run_leg. eapply safe_bind; [apply (safe_silent _ (may_leg s l)), silent_leg_files|]. intros files.
  eapply safe_seq; [done|eapply safe_weaken; [apply safe_upload, spared, removal_not_proof|by intros ? [??]|done]|].
  intros directory. apply safe_finally.
  - by apply stable_and.
  - intros rc l1 l2 H [d Hd]. exists d. by eapply stable_elem.
  - eapply safe_weaken; [apply (safe_run _ _ _ s (leg_command s v o l directory) feed); [done|exact Hf]| |].
    + intros log [_ [Hv Hp]]. split; [done|]. intros Hc. destruct (is_system l) eqn:Hl; [by apply Hp|].
      by apply Hpr, other_leg in Hc.
    + intros rc log [Hr _]. by exists directory.
  - eapply safe_bind; [|intros ?; by apply safe_ret].
    eapply safe_weaken; [apply (safe_run _ _ _ s); [done|intros t; apply silent_ret]| |done].
    intros log [_ [Hv _]]. split; [done|]. intros Hc. by apply Hpr, removal_proves_not in Hc.
Qed.

(** A login since [l0], over a connection opened to the server since. *)
Definition logged (l0 : list event) (user : string) (s : session) (l : list event) : Prop :=
  connected l0 (v_host v) (v_port v) (s_id s) l ∧ s_user s = user ∧ after l0 (LoggedIn (s_id s) user (v_key v)) l.
Lemma safe_connect_attempts l0 n user :
  safe (λ l, l0 `prefix_of` l) (connect_attempts n v user : M session) (logged l0 user).
Proof.
  assert (safe (λ l, l0 `prefix_of` l) (connect_key (v_host v) (v_port v) user (v_key v) false true : M session) (logged l0 user)) as Hc
    by by apply safe_connect_key.
  induction n as [|[|n] IH]; [exact Hc|exact Hc|].
  change (connect_attempts (S (S n)) v user) with
    (r ← catch (s ← connect_key (v_host v) (v_port v) user (v_key v) false true; mret (Some s))
           (λ f, if is_refused f then mret None else throw f);
     match r with Some s => mret s | None => connect_attempts (S n) v user end : M session).
  eapply (safe_seq _ _ _ _ (λ r l, ∀ s, r = Some s → logged l0 user s l)); [done| |].
  - apply safe_catch; [done| |].
    + eapply safe_bind; [exact Hc|]. intros s. apply safe_ret. by intros l Hl ? [= <-].
    + intros f. destruct (is_refused f); [by apply safe_ret|apply safe_throw].
  - intros [s|]; [apply safe_ret; intros l [Hl _]; by apply Hl|]. eapply safe_weaken; [exact IH|by intros l [_ ?]|done].
Qed.

Lemma safe_try_users users refused :
  safe (λ _, True) (try_users v (p_reinstalled o) users refused : M (session + list string)) (λ r l, ∀ s, r = inl s → vetted l (s_id s)).
Proof.
  revert refused. induction users as [|user users IH]; intros refused; cbn [try_users]; [by apply safe_ret|].
  eapply (safe_bind _ _ _ _ (λ r l, ∀ s, r = inl s → vetted l (s_id s))).
  - apply safe_catch; [done| |].
    + eapply safe_bind; [eapply safe_weaken; [by apply (safe_connect_key _ _ _ [])|intros; apply prefix_nil|done]|].
      intros s. apply safe_ret. by intros l [[? _] _] ? [= <-].
    + intros f. destruct (is_refused f); [by apply safe_ret|apply safe_throw].
  - intros [s|text]; [apply safe_ret; intros l Hl ? [= <-]; by apply Hl|]. eapply safe_weaken; [apply IH|done|done].
Qed.
Lemma safe_login : safe (λ _, True) (login v o : M session) (λ s l, vetted l (s_id s)).
Proof.
  unfold login. eapply safe_bind; [apply safe_try_users|].
  intros [s|refused]; [apply safe_ret; intros l Hl; by apply Hl|]. case_bool_decide; [apply safe_throw|].
  eapply safe_bind; [apply (safe_quiet _ _ _ _ _ (λ _ _, True)); [apply silent_line|done]|]. intros ?.
  eapply safe_bind; [apply (safe_quiet _ _ _ _ _ (λ _ _, True)); [apply silent_public_line|done]|]. intros line.
  eapply safe_bind; [by apply safe_install_key|]. intros ?.
  eapply safe_weaken; [apply (safe_connect_attempts [])|intros; apply prefix_nil|]. by intros s l [[? _] _].
Qed.

Lemma safe_checks s : safe (λ l, vetted l (s_id s)) (run_checks s (v_public_ip v) out_line : M bool) (λ _ l, vetted l (s_id s)).
Proof.
  unfold run_checks. eapply (safe_bind _ _ _ _ (λ _ l, vetted l (s_id s))).
  - unfold container_network. eapply safe_bind.
    { apply safe_output. rewrite !string_app_assoc. apply spared, check_proves_not; [apply shlex_quote_end|apply shlex_quote_ne]. }
    intros [rc raw]. apply safe_quiet; [|done]. destruct (negb _); [silent_walk|].
    apply silent_bind; [|intros ?; destruct (negb _); silent_walk].
    induction (container_addresses raw) as [|a l IH]; cbn [reached]; silent_walk.
  - intros ok. eapply (safe_bind _ _ _ _ (λ _ l, vetted l (s_id s))); [|intros ?; by apply safe_ret].
    unfold public_ports. destruct (_ || _); [apply safe_quiet; [silent_walk|done]|].
    eapply safe_bind; [apply safe_output; by apply spared, check_proves_not|]. intros [rc raw].
    eapply safe_bind; [apply (safe_silent _ (λ l, vetted l (s_id s))); unfold pure; silent_walk|]. intros expected.
    eapply safe_bind; [apply (safe_silent _ (λ l, vetted l (s_id s))); silent_walk|]. intros ?.
    eapply safe_bind; [apply (safe_silent _ (λ l, vetted l (s_id s))); unfold scan; silent_walk|]. intros open.
    eapply safe_bind; [apply (safe_silent _ (λ l, vetted l (s_id s))); silent_walk|]. intros ts.
    eapply safe_bind; [apply safe_output; rewrite !string_app_assoc; by apply spared, check_proves_not|]. intros ?.
    apply safe_quiet; [|done]. destruct (negb _); silent_walk.
Qed.

Lemma safe_closed (Pre : list event → Prop) id : safe Pre (close id : M unit) (λ _ _, True).
Proof. by apply safe_note. Qed.
Lemma safe_first_leg : safe (λ _, True) (first_leg v o : M Z) (λ rc l, rc = 0%Z → accounts_done l).
Proof.
  unfold first_leg. eapply safe_bind; [apply safe_login|]. intros s.
  eapply safe_bind; [apply (safe_silent _ (λ l, vetted l (s_id s))), silent_line|]. intros ?.
  apply safe_finally; [done| | |apply safe_closed].
  - intros rc l l' H Ha Hrc. eapply stable_accounts; [done|by apply Ha].
  - eapply safe_weaken; [apply (safe_run_leg s out_feed Accounts); intros ?; apply silent_feed| |].
    + intros l Hv. by split.
    + intros rc l [d Hd] ->. by exists s, d.
Qed.
Lemma safe_second_leg : safe accounts_done (second_leg v o : M Z) (λ _ _, True).
Proof.
  apply safe_here. intros l0 Ha.
  unfold second_leg. eapply safe_bind; [apply (safe_silent _ (λ l, l0 `prefix_of` l)), silent_line|]. intros ?.
  eapply safe_bind; [apply (safe_connect_attempts l0 5 (v_ops_user v))|]. intros s.
  set (ready := λ l, vetted l (s_id s) ∧ proven l (s_id s)).
  assert (stable ready) as Hr by by apply stable_and.
  eapply (safe_weaken _ _ ready); [|intros l [[Hv Ho] [_ Hl]]; split; [done|by eapply proven_since]|done].
  apply safe_finally; [exact Hr|intros ?; apply stable_true| |apply safe_closed].
  eapply (safe_seq _ _ _ _ _); [exact Hr| |].
  - eapply safe_weaken; [apply (safe_run_leg s out_feed System); intros ?; apply silent_feed| |done].
    intros l [Hv Hp]. by split.
  - intros rc. cbn beta. destruct (_ && _); [|by apply safe_ret].
    eapply safe_bind; [eapply safe_weaken; [apply safe_checks|by intros l (_ & ? & _)|done]|]. intros ok.
    by apply safe_ret.
Qed.
End order.

(** Every install's log, from an empty one, is orderly: whose server it is
    comes from the inventory. *)
Section install.
Context {E : Type} {net : Remote.Outside E} {probes : Probes E} {local : Local E}.
#[local] Abbreviation M := (ST (Remote.world E output_state) Remote.fault).

Lemma install_safe (pr : string → Prop) inv o (w : Remote.world E output_state) r w' :
  (∀ c, pr c → proves c) → install inv o w = (r, w') →
  (∃ f, r = inl f ∧ log w' = log w) ∨ ∃ v w1, server_of inv (p_address o) w = (inr v, w1) ∧
    (orderly (lawful (p_reinstalled o) pr (proven v o)) (log w) → orderly (lawful (p_reinstalled o) pr (proven v o)) (log w')
      ∧ log w `prefix_of` log w').
Proof.
  intros Hpr H. unfold install in H. apply bind_inv in H as [(f & H & ->)|(v & w1 & H1 & H)].
  { left. exists f. split; [done|]. by rewrite (silent_server_of _ _ _ _ _ H). }
  right. exists v, w1. split; [done|]. pose proof (silent_server_of _ _ _ _ _ H1) as Hw1. intros Hw. rewrite <-Hw1 in Hw |- *.
  enough (safe (lawful (p_reinstalled o) pr (proven v o)) (λ _, True)
    (if bool_decide (v_host v = "") then
       out_line "catena-installer: the inventory names no address for the server (HOST_PUBLIC_IP or HOST_SSH_ADDRESS in its .env)";;
       mret 1%Z
     else catch (rc ← first_leg v o; if negb (bool_decide (rc = 0%Z)) then mret rc else second_leg v o)
       (λ f, if asks_person f then throw f
             else if told f then out_line ("catena-installer: " +:+ explain v f);; mret 1%Z else throw f) : M Z) (λ _ _, True)) as Hs.
  { by destruct (Hs w1 r w' Hw I H) as (? & ? & _). }
  case_bool_decide.
  - eapply safe_bind; [apply (safe_quiet _ _ _ _ _ (λ _ _, True)); [apply silent_line|done]|]. intros ?. by apply safe_ret.
  - apply safe_catch; [apply stable_true| |].
    + eapply safe_bind; [by apply safe_first_leg|]. intros rc. case_bool_decide as Hrc; cbn [negb]; [|by apply safe_ret].
      eapply safe_weaken; [by apply safe_second_leg|intros l Hl; by apply Hl|done].
    + intros f. destruct (asks_person f); [apply safe_throw|]. destruct (told f); [|apply safe_throw].
      eapply safe_bind; [apply (safe_quiet _ _ _ _ _ (λ _ _, True)); [apply silent_line|done]|]. intros ?. by apply safe_ret.
Qed.
Lemma install_orderly inv o (w : Remote.world E output_state) r w' : install inv o w = (r, w') → log w = [] →
  (∃ f, r = inl f ∧ log w' = []) ∨ ∃ v w1, server_of inv (p_address o) w = (inr v, w1) ∧
    orderly (lawful (p_reinstalled o) proves (proven v o)) (log w').
Proof.
  intros H Hw. destruct (install_safe proves inv o w r w' (λ c Hc, Hc) H) as [(f & -> & Hl)|(v & w1 & Hs & Ho)].
  - left. exists f. by rewrite Hl.
  - right. exists v, w1. split; [done|]. apply Ho. rewrite Hw. constructor.
Qed.

(** ** What is trusted *)

Definition at_server (v : server) : string := known_name (v_host v) (v_port v).
Lemma knows_page nm b f : runs_in (knows nm b) (modify (set_page f) : M unit).
Proof. apply knows_quiet. eauto with runs. Qed.
#[local] Hint Resolve knows_page knows_output knows_upload : knows.
Lemma knows_server_of nm b inv address : runs_in (knows nm b) (server_of inv address : M server).
Proof. unfold server_of, inventory_env, vps_host, pure. knows_walk. Qed.
Lemma knows_leg_files nm b v o l : runs_in (knows nm b) (leg_files v o l : M (list (string * string))).
Proof.
  assert (∀ paths, runs_in (knows nm b) (read_each paths : M (list (string * string)))) as Hr.
  { induction paths as [|p ps IH]; cbn [read_each]; knows_walk. }
  unfold leg_files, public_line. knows_walk.
Qed.
Lemma knows_run_leg nm b s v o feed l : (∀ t, runs_in (knows nm b) (feed t)) → runs_in (knows nm b) (run_leg s v o feed l : M Z).
Proof.
  intros Hf. unfold run_leg. apply runs_bind; [apply _|apply knows_leg_files|]. intros files.
  apply runs_bind; [apply _|apply knows_upload|]. intros directory. apply knows_finally; [by apply knows_run|].
  apply runs_bind; [apply _|apply knows_run; unfold ignore; knows_walk|knows_walk].
Qed.
Lemma knows_connect v b user : runs_in (knows (at_server v) b) (connect_retrying v user : M session).
Proof.
  unfold connect_retrying. generalize 5. intros n. induction n as [|[|n] IH]; [by apply knows_connect_key..|].
  change (connect_attempts (S (S n)) v user) with
    (r ← catch (s ← connect_key (v_host v) (v_port v) user (v_key v) false true; mret (Some s))
           (λ f, if is_refused f then mret None else throw f);
     match r with Some s => mret s | None => connect_attempts (S n) v user end : M session).
  assert (runs_in (knows (at_server v) b) (connect_key (v_host v) (v_port v) user (v_key v) false true : M session)) by by apply knows_connect_key.
  knows_walk.
Qed.
Lemma knows_try_users v b users refused :
  runs_in (knows (at_server v) b) (try_users v b users refused : M (session + list string)).
Proof.
  revert refused. induction users as [|user users IH]; intros refused; cbn [try_users]; [knows_walk|].
  assert (runs_in (knows (at_server v) b) (connect_key (v_host v) (v_port v) user (v_key v) b true : M session)) by by apply knows_connect_key.
  knows_walk.
Qed.
Lemma knows_login v o : runs_in (knows (at_server v) (p_reinstalled o)) (login v o : M session).
Proof.
  unfold login. apply runs_bind; [apply _| |].
  - generalize (fromkeys [v_ops_user v; v_initial_user v]). intros users. apply knows_try_users.
  - intros [s|refused]; [knows_walk|]. case_bool_decide; [knows_walk|].
    apply runs_bind; [apply _|apply knows_page|]. intros ?. apply runs_bind; [apply _|unfold public_line; knows_walk|]. intros line.
    apply runs_bind; [apply _|by apply knows_install_key|]. intros ?. apply knows_connect.
Qed.
Lemma knows_checks nm b s ip : runs_in (knows nm b) (run_checks s ip out_line : M bool).
Proof.
  assert (∀ l, runs_in (knows nm b) (reached l : M (list string))) as Hr.
  { induction l as [|a l IH]; cbn [reached]; knows_walk. }
  unfold run_checks, container_network, public_ports, scan, pure, out_line. knows_walk.
Qed.
Lemma knows_legs v o :
  runs_in (knows (at_server v) (p_reinstalled o)) (rc ← first_leg v o; if negb (bool_decide (rc = 0%Z)) then mret rc else second_leg v o : M Z).
Proof.
  unfold first_leg, second_leg, out_line, close.
  pose proof (knows_login v o). pose proof (knows_connect v (p_reinstalled o) (v_ops_user v)). pose proof (knows_checks (at_server v) (p_reinstalled o)).
  assert (∀ s l, runs_in (knows (at_server v) (p_reinstalled o)) (run_leg s v o out_feed l : M Z)) by (intros; apply knows_run_leg; intros ?; apply knows_page).
  knows_walk.
Qed.
Lemma install_known inv o (w : Remote.world E output_state) r w' : install inv o w = (r, w') →
  quiet w w' ∨ ∃ v w1, server_of inv (p_address o) w = (inr v, w1) ∧ knows (at_server v) (p_reinstalled o) w w'.
Proof.
  intros H. unfold install in H.
  assert (runs_in quiet (server_of inv (p_address o) : M server)) as Hs.
  { unfold server_of, inventory_env, vps_host, pure. runs_walk. }
  apply bind_inv in H as [(f & H & ->)|(v & w1 & H1 & H)]; [left; by eapply Hs|].
  right. exists v, w1. split; [done|]. etrans; [by eapply still_knows|].
  eapply runs_elim; [exact H|]. case_bool_decide; [unfold out_line; knows_walk|].
  apply runs_catch; [apply _|by apply knows_legs|]. intros f. unfold out_line. knows_walk.
Qed.
(** A run's connections are opened under numbers of their own. *)
Lemma install_opens inv o (w : Remote.world E output_state) r w' : install inv o w = (r, w') → log w = [] → NoDup (opened_ids (log w')).
Proof.
  intros H Hw. assert (opens w w') as (_ & l & El & Hn & _).
  { destruct (install_known _ _ _ _ _ H) as [[_ ?]|(? & ? & _ & [_ ?])]; done. }
  by rewrite El, Hw.
Qed.

(** ** The claims *)

(** Claim C6: however an install ends, no login, password, command, file or
    typed line went to a server before its host key was vetted: it was one of
    the keys trusted for the server, or none was, or the person said the
    server was reinstalled.  [known_hosts] is what it was but for entries of
    the server, each appended when none of its keys was trusted; and, only when
    the person said the server was reinstalled, for its entries replaced, with
    what [ssh-keygen -R] leaves and the key offered, when that was none of
    those trusted. *)
Theorem host_key_pinned inv o (w : Remote.world E output_state) r w' :
  install inv o w = (r, w') → log w = [] →
  (∀ l1 x l2 id, log w' = (l1 ++ x :: l2)%list → sends x = Some id →
    ∃ keys k, Offered id keys k ∈ l1 ∧ (keys = [] ∨ k ∈ keys ∨ p_reinstalled o = true))
  ∧ (known_hosts w' = known_hosts w
     ∨ ∃ v w1, server_of inv (p_address o) w = (inr v, w1)
         ∧ rtc (entry (at_server v) (p_reinstalled o)) (known_hosts w) (known_hosts w')
         ∧ (p_reinstalled o = false → rtc (first_entry (at_server v)) (known_hosts w) (known_hosts w'))).
Proof.
  intros H Hw. split.
  - intros l1 x l2 id Hl Hx.
    destruct (install_orderly _ _ _ _ _ H Hw) as [(f & _ & E0)|(v & w1 & _ & Ho)]; [rewrite E0 in Hl; by destruct l1|].
    rewrite Hl in Ho. apply orderly_may in Ho. by eapply lawful_sends.
  - destruct (install_known _ _ _ _ _ H) as [[? _]|(v & w1 & Hs & [Hk _])]; [by left|].
    right. exists v, w1. split; [done|]. split; [done|]. intros Hb. rewrite Hb in Hk. by apply rtc_first.
Qed.

(** Claim C5: the leg that hardens sshd waits.  Before it is started the
    accounts leg, which makes the ops account, ended with status 0 over
    another connection; and after that a new one was opened to the inventory's
    server and logged in as its ops account with the inventory's key: the one
    the leg runs over. *)
Theorem hardening_waits inv o (w : Remote.world E output_state) r w' l1 id s v' o' directory how l2 :
  install inv o w = (r, w') → log w = [] →
  log w' = (l1 ++ Ran id (leg_command s v' o' System directory) how :: l2)%list →
  ∃ v w1 s1 directory1 before between, server_of inv (p_address o) w = (inr v, w1)
    ∧ l1 = (before ++ Ran (s_id s1) (leg_command s1 v o Accounts directory1) (Exited 0) :: between)%list
    ∧ s_id s1 ≠ id ∧ Opened id (v_host v) (v_port v) ∈ between ∧ LoggedIn id (v_ops_user v) (v_key v) ∈ between.
Proof.
  intros H Hw Hl. destruct (install_orderly _ _ _ _ _ H Hw) as [(f & _ & E0)|(v & w1 & Hs & Ho)]; [rewrite E0 in Hl; by destruct l1|].
  pose proof (install_opens _ _ _ _ _ H Hw) as Hn. rewrite Hl in Ho, Hn.
  pose proof (orderly_may _ _ _ _ Ho) as [_ Hp].
  destruct (Hp (system_leg s v' o' directory)) as (before & s1 & d1 & between & -> & Hopen & Hlog).
  exists v, w1, s1, d1, before, between. split_and!; try done. intros <-.
  rewrite <-app_assoc in Ho, Hn. pose proof (orderly_may _ _ _ _ Ho) as [(keys & k & Hk & _) _].
  apply list_elem_of_split in Hk as (a & b & ->). rewrite <-app_assoc in Ho. apply orderly_may in Ho as (host & port & Hin).
  unfold opened_ids in Hn. rewrite !omap_app in Hn. apply NoDup_app in Hn as (_ & Hn & _).
  eapply (Hn (s_id s1)).
  - apply elem_of_app. left. apply list_elem_of_omap. by exists (Opened (s_id s1) host port).
  - apply elem_of_app. left. cbn. apply list_elem_of_omap. by exists (Opened (s_id s1) (v_host v) (v_port v)).
Qed.

(** Claim C27: a leg's passwords never reach the page's lines: however its
    output arrives in chunks, the lines between the two markers are handed
    over in one block, and the others are the page's lines, in order. *)
Theorem keyset_confined s command (w : Remote.world E output_state) rc w' chunks e before block after :
  run s command out_feed w = (inr rc, w') → o_block (page w) = None →
  execute (s_id s) command (ext w) = ((chunks, Exited rc), e) →
  lines_shown (RemoteFacts.text_of chunks) = (before ++ KEYSET_BEGIN :: block ++ KEYSET_END :: after)%list →
  KEYSET_BEGIN ∉ before → KEYSET_BEGIN ∉ block → KEYSET_END ∉ block → KEYSET_BEGIN ∉ after →
  page w' = {| o_lines := (o_lines (page w) ++ before ++ after)%list;
               o_keysets := (o_keysets (page w) ++ [block])%list; o_block := None |}.
Proof.
  intros H Hb He Hl H1 H2 H3 H4. apply run_feed in H as (chunks' & e' & He' & Hp).
  rewrite He in He'. simplify_eq. rewrite Hp, Hl, feeds_keyset, feeds_plain by done. by rewrite app_assoc.
Qed.
End install.

(** * An install *)

Module Sample.
Definition host_key : key := {| k_type := "ssh-ed25519"; k_blob := "AAAAC3" |}.
(** The system leg's output, cut in the middle of a password. *)
Definition output_chunks : list string := [
  "converging" +:+ newline_str +:+ KEYSET_BEGIN +:+ newline_str +:+ "panel: cor";
  "rect horse" +:+ newline_str +:+ KEYSET_END +:+ newline_str +:+ "done"].
Definition answer (command : string) : list string * ending :=
  if startswith command "mktemp" then (["/tmp/catena-install.Ab" +:+ newline_str], Exited 0)
  else if scontains SUMMARY command then (["{" +:+ String dquote ("public_open_tcp" +:+ String dquote ": [22, 443]}")], Exited 0)
  else if scontains "--leg system" command then (output_chunks, Exited 0)
  else ([], Exited 0).

#[export] Instance net : Remote.Outside unit := {
  lookup text name := inr (if scontains name text then [host_key] else []);
  run_keygen text _ e := (inr text, e); fingerprint := k_blob; base64 := k_blob; key_types := ["ssh-ed25519"];
  refuses_io e := (None, e); has_keygen := true; connects _ _ e := (None, e);
  start_client _ _ e := (inr host_key, e); auth_publickey _ _ _ e := (None, e); auth_password _ _ _ e := (None, e);
  load_private p e := (inr p, e); execute _ command e := (answer command, e); decode s := s;
  put_file _ _ _ e := (inr 0%Z, e); open_shell _ e := (None, e); type_line _ _ e := (None, e);
  expects _ _ _ e := (inr 0, e); token_hex _ e := ("00", e); choice _ e := (0, e); exn_text _ := "error" }.
#[export] Instance probes : Probes unit := {
  answering _ e := ([22; 443]%Z, e); reachable _ e := (false, e); timestamp e := ("2026-01-01T00:00:00Z", e); reserved _ := false }.
#[export] Instance local : Local unit := {
  read_local p e := (inr (if startswith p "/i/clientco/.env" then "HOST_PUBLIC_IP=203.0.113.7" +:+ newline_str else "ssh-ed25519 AAAA me"), e);
  is_file p e := (false, e); safe_load _ := Ok VNone; safe_dump _ := ""; expanduser s := s;
  TREE := "/t"; STARTER := "/t/starter.sh"; DEFAULT_KEY := "/k" }.

Definition opts : options := {| p_release := ""; p_image := ""; p_ca_file := ""; p_insecure_http := false; p_address := "";
  p_tags := ""; p_reinstalled := false; p_keyset_json := false; p_password := ""; p_adopt := []; p_outside_checks := true |}.
Definition fresh : output_state := {| o_lines := []; o_keysets := []; o_block := None |}.
Definition world0 : Remote.world unit output_state := {| known_hosts := None; opened := 0; log := []; page := fresh; ext := tt |}.
End Sample.
#[local] Existing Instances Sample.net Sample.probes Sample.local.

Definition installed : (fault + Z) * Remote.world unit output_state := install "/i/clientco" Sample.opts Sample.world0.
Example sample_installed : installed.1 = inr 0%Z.
Proof. by vm_compute. Qed.

(** Before the second login, the host key of its connection was offered. *)
Lemma host_key_pinned_witness : ∃ keys k, Offered 1 keys k ∈ take 16 (log installed.2).
Proof.
  destruct (proj1 (host_key_pinned "/i/clientco" Sample.opts Sample.world0 installed.1 installed.2 (surjective_pairing _) eq_refl)
    (take 16 (log installed.2)) (KeyLogin 1 "ops" "/k") (drop 17 (log installed.2)) 1) as (keys & k & Hk & _);
    [by vm_compute|reflexivity|by exists keys, k].
Defined.

Definition sample_server : server := {| v_inventory := "/i/clientco"; v_name := "clientco1"; v_host := "203.0.113.7"; v_port := 22;
  v_initial_user := "root"; v_ops_user := "ops"; v_key := "/k"; v_public_ip := "203.0.113.7";
  v_source := "HOST_PUBLIC_IP in /i/clientco/.env" |}.
Definition sample_session : session := {| s_id := 1; s_user := "ops"; s_host := "203.0.113.7" |}.

Lemma hardening_waits_witness : ∃ before between s1 d1,
  take 22 (log installed.2) = (before ++ Ran (s_id s1) (leg_command s1 sample_server Sample.opts Accounts d1) (Exited 0) :: between)%list
  ∧ s_id s1 ≠ 1 ∧ LoggedIn 1 "ops" "/k" ∈ between.
Proof.
  destruct (hardening_waits "/i/clientco" Sample.opts Sample.world0 installed.1 installed.2 (take 22 (log installed.2)) 1
    sample_session sample_server Sample.opts "/tmp/catena-install.Ab" (Exited 0) (drop 23 (log installed.2))
    (surjective_pairing _) eq_refl) as (v & w1 & s1 & d1 & before & between & Hs & Hl & Hne & _ & Hin); [by vm_compute|].
  assert (v = sample_server) as -> by (vm_compute in Hs; by injection Hs).
  exists before, between, s1, d1. split; [exact Hl|]. split; [exact Hne|exact Hin].
Defined.

Lemma keyset_confined_witness :
  page (run sample_session "bash starter.sh --leg system" out_feed Sample.world0).2 =
  {| o_lines := ["converging"; "done"]; o_keysets := [["panel: correct horse"]]; o_block := None |}.
Proof.
  apply (keyset_confined sample_session "bash starter.sh --leg system" Sample.world0 0%Z
    (run sample_session "bash starter.sh --leg system" out_feed Sample.world0).2 Sample.output_chunks tt
    ["converging"] ["panel: correct horse"] ["done"]); try by vm_compute.
  1-4: apply (bool_decide_unpack _); by vm_compute.
Defined.
