(* ===== verification/I18n.v ===== *)
(** [installer/catena_installer/i18n.py]: the page's words in each language,
    and which language a browser is shown.  The translations themselves are
    files, read once: a table given to the text functions. *)
From S2P Require Import Prelude PyStr PyNum PyVal.
From Stdlib Require Import SpecFloat.

#[local] Open Scope string_scope.

Definition LANGS : list string := ["en"; "fr"].
Definition DEFAULT : string := "en".

(** [TEXT]: a translation by language and key. *)
Class Texts := { TEXT : dict (dict string) }.

(** [s.format( ** values)] where every placeholder is a name in braces: [field]
    is the name being read. *)
Fixpoint format_go (values : dict string) (field : option string) (s : string) : res string :=
  match field with
  | None =>
      match s with
      | EmptyString => Ok ""
      | String "{" (String "{" s) => t ← format_go values None s; Ok (String "{" t)
      | String "}" (String "}" s) => t ← format_go values None s; Ok (String "}" t)
      | String "{" s => format_go values (Some "") s
      | String "}" _ => Raise ValueError
      | String a s => t ← format_go values None s; Ok (String a t)
      end
  | Some name =>
      match s with
      | EmptyString => Raise ValueError
      | String "}" s =>
          v ← (match dget name values with Some v => Ok v | None => Raise KeyError end);
          t ← format_go values None s; Ok (v +:+ t)
      | String a s => format_go values (Some (name +:+ String a "")) s
      end
  end.
Definition py_format (values : dict string) (s : string) : res string := format_go values None s.

Section i18n.
Context `{!Texts}.

Definition template_of (lang key : string) : res string :=
  match dget lang TEXT with
  | None => Raise KeyError
  | Some d => match dget key d with Some t => Ok t | None => Raise KeyError end
  end.
(** [text] *)
Definition text (lang key : string) (values : dict string) : res string :=
  t ← template_of lang key; py_format values t.
(** [every] *)
Definition every (key : string) (values : dict string) : res (dict string) :=
  mapM_res (λ lang, t ← text lang key values; Ok (lang, t)) LANGS.
End i18n.

(** * The language of a page *)

(** A part of Accept-Language: its weight, and its language. *)
Definition weight_of (params : string) : float :=
  match strip_prefix "q=" params with
  | Some q => match py_float q with Ok f => f | Raise _ => float_near 0 end
  | None => float_near 1
  end.
Definition ranked (part : string) : float * string :=
  let '(tag, _, params) := partition ";" (strip part) in
  (weight_of (strip params), lower (strip (partition "-" tag).1.1)).

(** Sorted by weight downwards, earlier parts first among equals: the position
    of a part makes its tuple differ from any other. *)
Definition heavier (x y : float * string) : bool := SFltb (SFopp x.1) (SFopp y.1).
Fixpoint rank_insert (x : float * string) (l : list (float * string)) : list (float * string) :=
  match l with
  | [] => [x]
  | y :: l => if heavier x y then x :: y :: l else y :: rank_insert x l
  end.
Definition rank (l : list (float * string)) : list (float * string) := foldl (λ acc x, rank_insert x acc) [] l.

Definition spoken (l : list string) : option string := head (List.filter (λ x, bool_decide (x ∈ LANGS)) l).
Definition resolve (query cookie accept_language : string) : string :=
  match spoken [query; cookie] with
  | Some lang => lang
  | None => default DEFAULT (spoken (rank (map ranked (split "," accept_language))).*2)
  end.

Example resolves :
  resolve "" "" "de, fr-CA;q=0.8, en;q=0.9" = "en" ∧ resolve "" "" "fr;q=x, es" = "fr" ∧ resolve "" "" "" = "en" ∧
  resolve "de" "fr" "en" = "fr" ∧ resolve "" "" "en;q=0.5, fr;q=0.5" = "en".
Proof. by vm_compute. Qed.
Example formats : py_format [("port", "22")] "{{{port}}}" = Ok "{22}" ∧ py_format [] "{x}" = Raise KeyError ∧ py_format [] "}" = Raise ValueError.
Proof. done. Qed.
