(* ===== verification/InstallSteps.v ===== *)
(** [installer/catena_installer/steps.py] and [registry.py]: what each section
    of the page asks, from the registry, and what it proves of the server
    before an install starts. *)
From S2P Require Import Prelude PyStr PyNum PyVal Effects I18n Remote Install.

#[local] Open Scope string_scope.

Definition PROVIDER_PASSWORD : string := "host_initial_password".
Definition REINSTALLED : string := "reinstalled".
Definition CREATE_KEY : string := "create_key".

(** * Checks *)

Record check := { c_label : string; c_ok : bool; c_detail : string; c_blocking : bool; c_confirm : string }.
Definition verdict (label : string) (ok : bool) (detail : string) : check :=
  {| c_label := label; c_ok := ok; c_detail := detail; c_blocking := true; c_confirm := "" |}.
Definition confirmed (confirm : string) (c : check) : check :=
  {| c_label := c_label c; c_ok := c_ok c; c_detail := c_detail c; c_blocking := c_blocking c; c_confirm := confirm |}.
Definition blocks (c : check) : bool := negb (c_ok c) && c_blocking c.
Definition blocked (checks : list check) : bool := existsb blocks checks.

(** * The registry's sections *)

Definition steps (doc : dict val) : res (list val) := iter_or (vget "gui_steps" doc).
Definition step_is (step : string) (entry : val) : res bool := s ← attr_get "step" entry; Ok (py_eq s (VStr step)).
Fixpoint filter_res {A} (f : A → res bool) (l : list A) : res (list A) :=
  match l with [] => Ok [] | x :: l => b ← f x; r ← filter_res f l; Ok (if (b : bool) then x :: r else r) end.
Definition step_fields (doc : dict val) (step : string) : res (list val) :=
  secrets ← iter_or (vget "secrets" doc); config ← iter_or (vget "config" doc);
  filter_res (step_is step) (secrets ++ config)%list.
Fixpoint any_res {A} (f : A → res bool) (l : list A) : res bool :=
  match l with [] => Ok false | x :: l => b ← f x; if (b : bool) then Ok true else any_res f l end.
Definition is_secret (doc : dict val) (key : val) : res bool :=
  secrets ← iter_or (vget "secrets" doc); any_res (λ e, k ← attr_get "key" e; Ok (py_eq k key)) secrets.
(** [str((entry.get("env") or {}).get(k) or "")], [default_for] and [example_for] *)
Definition env_text_of (k : string) (entry : val) : res string := env ← child "env" entry; v ← attr_get k env; Ok (str_or v).
Definition default_for : val → res string := env_text_of "default".
Definition example_for : val → res string := env_text_of "example".
Definition is_required (entry : val) : res bool := v ← attr_get "required" entry; Ok (truthy v).
Definition choice_for (entry : val) : res (dict val) := v ← child "gui_choice" entry; as_dict_r v.
Definition options_for (entry : val) : res (list string) :=
  env ← child "env" entry; v ← attr_get "options" env; l ← iter_or v; mapM_res as_str_r l.

(** * Fields *)

(** Texts by language are the registry's dictionaries. *)
Record field := { f_key : string; f_label : dict val; f_secret : bool; f_optional : bool; f_options : list string;
  f_default : string; f_help : dict val; f_example : string; f_suggestions : list string; f_choice : dict val }.
Record step := { s_name : string; s_title : dict val; s_doc : dict val; s_note : dict val; s_fields : list field }.
Definition via_name (key : string) : string := key +:+ "__via".
(** [text_by_lang[lang]] *)
Definition in_lang (lang : string) (texts : dict val) : res string := v ← getitem lang texts; as_str_r v.

(** The key pairs of [~/.ssh], the home directory, and the first line a port
    sends. *)
Class Desk (E : Type) := {
  key_pairs : E → list string * E;
  home : string;
  first_line : string → Z → E → (Remote.fault + string) * E
}.
(** [_written] *)
Definition written (home path : string) : string :=
  match strip_prefix (home +:+ "/") path with
  | Some rest => "~/" +:+ rest
  | None => if bool_decide (path = home) then "~/." else path
  end.

Section steps.
Context {E P : Type} `{!Remote.Outside E, !Local E, !Desk E, !Texts}.
Abbreviation M := (ST (Remote.world E P) Remote.fault).

Definition suggestions_for (entry : val) : M (list string) :=
  source ← pure (attr_get "gui_suggestions_from" entry);
  if py_eq source (VStr "ssh_keys") then pairs ← ask key_pairs; mret (map (written home) pairs) else mret [].
Definition field_of (doc : dict val) (entry : val) : M field :=
  d ← pure (as_dict_r entry);
  key ← pure (getitem "key" d); label ← pure (getitem "label" d ≫= as_dict_r);
  secret ← pure (is_secret doc key); required ← pure (is_required entry);
  options ← pure (options_for entry); dflt ← pure (default_for entry);
  help ← pure (getitem "help" d ≫= as_dict_r); example ← pure (example_for entry);
  suggestions ← suggestions_for entry; choice ← pure (choice_for entry); key ← pure (as_str_r key);
  mret {| f_key := key; f_label := label; f_secret := secret; f_optional := negb required; f_options := options;
          f_default := dflt; f_help := help; f_example := example; f_suggestions := suggestions; f_choice := choice |}.
Definition texts_of (d : dict string) : dict val := map (λ '(k, t), (k, VStr t)) d.
Definition provider_password : M field :=
  label ← pure (every "provider_password.label" []); help ← pure (every "provider_password.help" []);
  mret {| f_key := PROVIDER_PASSWORD; f_label := texts_of label; f_secret := true; f_optional := true; f_options := []; f_default := "";
          f_help := texts_of help; f_example := ""; f_suggestions := []; f_choice := [] |}.

Fixpoint each_field (doc : dict val) (entries : list val) : M (list field) :=
  match entries with [] => mret [] | e :: entries => f ← field_of doc e; fs ← each_field doc entries; mret (f :: fs) end.
Definition step_of (doc : dict val) (s : val) : M step :=
  d ← pure (as_dict_r s);
  name ← pure (getitem "name" d ≫= as_str_r);
  entries ← pure (step_fields doc name);
  fields ← each_field doc entries;
  more ← (if bool_decide (name = "target") then f ← provider_password; mret [f] else mret []);
  title ← pure (getitem "title" d ≫= as_dict_r); about ← pure (getitem "doc" d ≫= as_dict_r);
  note ← pure (as_dict_r (val_or (vget "note" d) (VDict [])));
  mret {| s_name := name; s_title := title; s_doc := about; s_note := note; s_fields := (fields ++ more)%list |}.
Fixpoint each_step (doc : dict val) (l : list val) : M (list step) :=
  match l with [] => mret [] | s :: l => x ← step_of doc s; xs ← each_step doc l; mret (x :: xs) end.
Definition build (doc : dict val) : M (list step) := l ← pure (steps doc); each_step doc l.

Definition t (lang key : string) (values : dict string) : M string := pure (text lang key values).

(** A blocking line for each required field left empty. *)
Definition wanted (private : list string) (values : dict string) (f : field) : bool :=
  (negb (f_optional f) || bool_decide (f_key f ∈ private)) && bool_decide (strip (default "" (dget (f_key f) values)) = "").
Fixpoint missing_fields (fields : list field) (lang : string) : M (list check) :=
  match fields with
  | [] => mret []
  | f :: fields =>
      name ← pure (in_lang lang (f_label f));
      label ← t lang "check.required" [("label", name)]; fill ← t lang "check.fill_in" [];
      rest ← missing_fields fields lang; mret (verdict label false fill :: rest)
  end.
Definition missing_required (s : step) (values : dict string) (lang : string) (private : list string) : M (list check) :=
  missing_fields (List.filter (wanted private values) (s_fields s)) lang.

(** * The probes *)

Definition ssh_banner (host : string) (port : Z) : M string :=
  catch (text ← ask_or (first_line host port); mret (strip text)) (λ f, if is_os f then mret "" else throw f).
Definition key_login (host : string) (port : Z) (user key : string) (reinstalled : bool) : M (bool * string) :=
  catch (s ← connect_key host port user key reinstalled false; close (s_id s);; mret (true, ""))
    (λ f, if is_remote f then mret (false, fault_text f) else throw f).

(** [(answers.get(k) or "").strip()] *)
Definition typed (k : string) (answers : dict string) : string := strip (default "" (dget k answers)).
Definition ssh_address (answers : dict string) : string :=
  let private := typed "HOST_SSH_ADDRESS" answers in
  if bool_decide (private = "") then typed "HOST_PUBLIC_IP" answers else private.
Definition key_path (answers : dict string) : option string :=
  let raw := typed "SSH_PRIVATE_KEY" answers in if bool_decide (raw = "") then None else Some (expanduser raw).

(** [s.isdigit()] below U+0100: the superscripts are digits, and no [int]. *)
Definition is_unicode_digit (a : ascii) : bool := is_digit a || bool_decide (code a ∈ [178; 179; 185]%N).
Definition isdigit (s : string) : bool := negb (bool_decide (s = "")) && sforall is_unicode_digit s.

(** The logins with the key, in turn: the check of the first that opens, or
    why each was refused. *)
Fixpoint try_keys (host : string) (port : Z) (key lang : string) (reinstalled : bool) (users tried : list string) : M (check + list string) :=
  match users with
  | [] => mret (inr tried)
  | user :: users =>
      '(ok, why) ← key_login host port user key reinstalled;
      if (ok : bool) then
        label ← t lang "check.key_opens" [("login", user +:+ "@" +:+ host)];
        detail ← t lang "check.no_password_needed" []; mret (inl (verdict label true detail))
      else
        why ← (if bool_decide (why = "") then t lang "check.refused" [] else mret why);
        try_keys host port key lang reinstalled users (tried ++ [user +:+ ": " +:+ why])%list
  end.

(** What follows once the server answered and the pair is here. *)
Definition check_login (answers secrets : dict string) (lang : string) (reinstalled : bool) (host : string) (port : Z) (key : string) : M check :=
  let initial := env_strip_or "HOST_INITIAL_USER" "root" answers in
  r ← try_keys host port key lang reinstalled (fromkeys [initial; env_strip "OPS_USER" "ops" answers]) [];
  match r with
  | inl c => mret c
  | inr tried =>
      let password := default "" (dget PROVIDER_PASSWORD secrets) in
      if bool_decide (password = "") then
        label ← t lang "check.key_refused" [];
        detail ← t lang "check.key_refused_detail" [("tried", sjoin "; " tried); ("user", initial)];
        mret (verdict label false detail)
      else
        '(ok, why) ← check_password host port initial password reinstalled;
        label ← t lang "check.password_opens" [("login", initial +:+ "@" +:+ host)];
        detail ← (if (ok : bool) then t lang "check.password_adds_key" []
                  else if bool_decide (why = "") then t lang "check.password_refused" [] else mret why);
        mret (verdict label ok detail)
  end.

(** The pair the form names. *)
Definition check_pair (key : option string) (lang : string) : M check :=
  have ← (match key with
          | None => mret false
          | Some k => there ← ask (is_file k); if (there : bool) then ask (is_file (k +:+ ".pub")) else mret false
          end);
  label ← t lang "check.keypair" [];
  if (have : bool) then mret (verdict label true "") else
  path ← (match key with Some k => mret k | None => t lang "check.no_path" [] end);
  detail ← t lang "check.keypair_missing" [("path", path)];
  mret (confirmed (match key with Some _ => CREATE_KEY | None => "" end) (verdict label false detail)).

(** The host key: the checks it gives, and whether the probe goes on. *)
Definition check_host_key (host : string) (port : Z) (lang : string) (reinstalled : bool) : M (list check * bool) :=
  '(trusted, offered) ← changed host port;
  if bool_decide (trusted = []) then mret ([], true) else
  if negb reinstalled then
    label ← t lang "check.host_key" [("host", host)];
    detail ← t lang "check.host_key_changed" [("trusted", sjoin ", " trusted); ("offered", offered)];
    mret ([confirmed REINSTALLED (verdict label false detail)], false)
  else
    label ← t lang "check.host_key_new" [("host", host)]; detail ← t lang "check.host_key_trusted" [];
    mret ([verdict label true detail], true).

(** What is checked once the first line of the port is there. *)
Definition check_answering (answers secrets : dict string) (lang : string) (reinstalled : bool) (host : string) (port : Z) (banner : string) : M (list check) :=
  label ← t lang "check.ssh_answers" [("host", host); ("port", str_of_int port)];
  silent ← (if bool_decide (banner = "") then t lang "check.ssh_silent" [] else mret banner);
  let answers_ssh := verdict label (startswith banner "SSH-") silent in
  '(host_checks, go_on) ← (if c_ok answers_ssh then check_host_key host port lang reinstalled else mret ([], true));
  if negb go_on then mret (answers_ssh :: host_checks) else
  let key := key_path answers in
  pair ← check_pair key lang;
  let checks := ((answers_ssh :: host_checks) ++ [pair])%list in
  match key with
  | Some k =>
      if c_ok answers_ssh && c_ok pair
      then c ← check_login answers secrets lang reinstalled host port k; mret (checks ++ [c])%list
      else mret checks
  | None => mret checks
  end.
Definition check_target (answers secrets : dict string) (lang : string) (reinstalled : bool) : M (list check) :=
  let host := ssh_address answers in
  let port_raw := env_strip_or "HOST_SSH_PORT" "22" answers in
  if bool_decide (host = "") then mret [] else
  if negb (isdigit port_raw) then
    label ← t lang "check.port" []; detail ← t lang "check.port_invalid" [("port", py_repr (VStr port_raw))];
    mret [verdict label false detail]
  else
  port ← pure (py_int port_raw);
  banner ← ssh_banner host port;
  check_answering answers secrets lang reinstalled host port banner.

Definition validate (step : string) (answers secrets : dict string) (lang : string) (reinstalled : bool) : M (list check) :=
  if bool_decide (step = "target") then check_target answers secrets lang reinstalled else mret [].
End steps.

(** The command a machine without the installer opens the panel with. *)
Definition forward_command (answers : dict string) : string :=
  let host := let a := ssh_address answers in if bool_decide (a = "") then "<server-address>" else a in
  let port := env_strip_or "HOST_SSH_PORT" "22" answers in
  let key := typed "SSH_PRIVATE_KEY" answers in
  "ssh -N -L " +:+ str_of_int PANEL_PORT +:+ ":127.0.0.1:" +:+ str_of_int PANEL_PORT
  +:+ (if bool_decide (key = "") then "" else " -i " +:+ key)
  +:+ (if bool_decide (port = "22") then "" else " -p " +:+ port)
  +:+ " " +:+ PANEL_USER +:+ "@" +:+ host.

(** A superscript is a digit to [isdigit] and no number to [int]. *)
Example superscript_port :
  let port := String (ascii_of_N 178) "" in isdigit port = true ∧ py_int port = Raise ValueError.
Proof. by vm_compute. Qed.
