(* ===== verification/InstallStepsFacts.v ===== *)
(** Facts of [InstallSteps]: the probes leave nothing behind and give nothing
    to a server whose host key is not vetted, and they pass only on a login
    they saw. *)
From S2P Require Import Prelude PyStr PyNum PyVal Effects I18n Remote RemoteFacts Checks Install InstallFacts InstallSteps.

#[local] Open Scope string_scope.

(** * What a probe does *)

Section traceless.
Context {E P : Type} {net : Remote.Outside E} (users : list string) (key initial password : string).
#[local] Abbreviation M := (ST (Remote.world E P) Remote.fault).

(** A probe logs in, with the form's key or the provider's password, and types
    nothing but what tells a shell is there. *)
Definition harmless (x : event) : Prop :=
  match x with
  | Opened _ _ _ | Offered _ _ _ | Closed _ => True
  | KeyLogin _ u k | LoggedIn _ u k => u ∈ users ∧ k = key
  | PasswordLogin _ u p | PasswordIn _ u p => u = initial ∧ p = password ∧ p ≠ ""
  | Typed _ line => line = "" ∨ ∃ token, line = ":; echo __CATENA_''" +:+ token +:+ "__"
  | Ran _ _ _ | Put _ _ _ => False
  end.
Definition traceless (w w' : Remote.world E P) : Prop := known_hosts w' = known_hosts w ∧ extends log harmless w w'.
#[export] Instance traceless_preorder : PreOrder traceless.
Proof. split; [by split|]. intros w1 w2 w3 [H1 H2] [H3 H4]. split; [congruence|by etrans]. Qed.
#[local] Abbreviation tr := (runs_in traceless).

Lemma tr_quiet {A} (c : M A) : runs_in quiet c → silent c → tr c.
Proof. intros Hk Hl w r w' H. split; [by apply Hk in H as [? _]|]. exists []. by rewrite app_nil_r, (Hl _ _ _ H). Qed.
Lemma tr_note x : harmless x → tr (note x : M unit).
Proof. intros Hx w r w' [_ <-]%pair_equal_spec. split; [done|]. exists [x]. split; [done|by repeat constructor]. Qed.
Lemma tr_ask {A} (f : E → A * E) : tr (ask f : M A).
Proof. apply tr_quiet; [eauto with runs|eauto with silent]. Qed.
Lemma tr_ask_or {A} (f : E → (fault + A) * E) : tr (ask_or f : M A).
Proof. apply tr_quiet; [eauto with runs|eauto with silent]. Qed.
Lemma tr_ask_ok (f : E → option fault * E) : tr (ask_ok f : M unit).
Proof. apply tr_quiet; [eauto with runs|eauto with silent]. Qed.
Lemma tr_fresh : tr (fresh_id : M nat).
Proof. intros w r w' [_ <-]%pair_equal_spec. split; [done|]. exists []. by rewrite app_nil_r. Qed.
Lemma tr_gets {A} (f : Remote.world E P → A) : tr (gets f : M A).
Proof. apply runs_gets; apply _. Qed.
Lemma tr_finally {A} (c : M A) f : tr c → tr f → tr (finally c f).
Proof.
  intros Hc Hf w r w' H. unfold finally in H. destruct (c w) as [r1 w1] eqn:E1. destruct (f w1) as [r2 w2] eqn:E2.
  assert (w2 = w') as -> by (destruct r2; by apply pair_equal_spec in H as [_ <-]).
  etrans; [by eapply Hc|by eapply Hf].
Qed.
End traceless.
Create HintDb traceless discriminated.
#[export] Hint Resolve tr_ask tr_ask_or tr_ask_ok tr_fresh tr_gets : traceless.
Ltac tr_walk :=
  repeat first
    [ progress intros
    | solve [eauto with traceless]
    | apply runs_ret; apply _ | apply runs_throw; apply _ | apply runs_lift; apply _
    | apply tr_note; cbn; solve [auto | eauto]
    | apply runs_bind; [apply _| |] | apply runs_catch; [apply _| |] | apply tr_finally
    | match goal with |- runs_in _ (match ?x with _ => _ end) => destruct x end ].

Section probes.
Context {E P : Type} {net : Remote.Outside E} {local : Local E} {desk : Desk E} {texts : Texts}.
Context (users : list string) (key initial password : string).
#[local] Abbreviation M := (ST (Remote.world E P) Remote.fault).
#[local] Abbreviation tr := (runs_in (traceless (P := P) users key initial password)).

(** A connection that is not to be recorded leaves [known_hosts] alone. *)
Lemma tr_transport host port b : tr (transport host port b false : M nat).
Proof. unfold transport, trusted, negotiate, vet_key, close. tr_walk. Qed.
Lemma tr_changed host port : tr (changed host port : M (list string * string)).
Proof. pose proof tr_transport. unfold changed, close. tr_walk; auto. Qed.
Lemma tr_key_login host port user b : user ∈ users → tr (key_login host port user key b : M (bool * string)).
Proof.
  intros Hu. unfold key_login, connect_key, close. pose proof tr_transport. tr_walk; auto.
Qed.
Lemma tr_sync id timeout : tr (sync id timeout : M unit).
Proof.
  unfold sync, run_in_shell, send, expect. tr_walk.
Qed.
Lemma tr_check_password host port b : password ≠ "" → tr (check_password host port initial password b : M (bool * string)).
Proof.
  intros Hp. unfold check_password, password_shell, change_prompt, close, expect. pose proof tr_transport. pose proof tr_sync.
  tr_walk; auto.
Qed.
Lemma tr_t lang k values : tr (t lang k values : M string).
Proof. unfold t, pure. tr_walk. Qed.

Lemma tr_try_keys host port lang b l tried : (∀ u, u ∈ l → u ∈ users) →
  tr (try_keys host port key lang b l tried : M (check + list string)).
Proof.
  pose proof tr_t. revert tried. induction l as [|u l IH]; intros tried Hl; cbn [try_keys]; [tr_walk|].
  apply runs_bind; [apply _|apply tr_key_login, Hl; by left|]. intros [[] why]; [tr_walk; auto|].
  apply runs_bind; [apply _|tr_walk; auto|]. intros ?. apply IH. intros u' Hu. apply Hl. by right.
Qed.
End probes.

#[export] Hint Resolve tr_transport tr_changed tr_t tr_sync : traceless.

(** * What passing shows *)

Section verified.
Context {E P : Type} {net : Remote.Outside E} {local : Local E} {desk : Desk E} {texts : Texts}.
Context (answers secrets : dict string) (lang : string) (b : bool).
#[local] Abbreviation M := (ST (Remote.world E P) Remote.fault).
Definition initial_user : string := env_strip_or "HOST_INITIAL_USER" "root" answers.
Definition login_users : list string := [initial_user; env_strip "OPS_USER" "ops" answers].
Definition given_password : string := default "" (dget PROVIDER_PASSWORD secrets).
Definition form_key : string := default "" (key_path answers).
#[local] Abbreviation tr := (runs_in (traceless (P := P) login_users form_key initial_user given_password)).

Lemma tr_check_login host port : tr (check_login answers secrets lang b host port form_key : M check).
Proof.
  unfold check_login. apply runs_bind; [apply _| |].
  { apply tr_try_keys. intros u. apply elem_of_fromkeys. }
  intros [c|tried]; [tr_walk|]. fold given_password. case_bool_decide as Hp; [tr_walk|].
  apply runs_bind; [apply _|by apply tr_check_password|]. intros [ok why]. tr_walk.
Qed.
Lemma tr_check_pair k : tr (check_pair k lang : M check).
Proof. unfold check_pair. tr_walk. Qed.
Lemma tr_check_host_key host port : tr (check_host_key host port lang b : M (list check * bool)).
Proof. unfold check_host_key. tr_walk. Qed.
#[local] Hint Resolve tr_check_pair tr_check_host_key : traceless.
Lemma tr_check_target : tr (check_target answers secrets lang b : M (list check)).
Proof.
  assert (∀ host port k, key_path answers = Some k → tr (check_login answers secrets lang b host port k : M check)) as Hl.
  { intros host port k Hk. pose proof (tr_check_login host port) as H. unfold form_key in H at 2. by rewrite Hk in H. }
  unfold check_target, check_answering, ssh_banner, pure. destruct (key_path answers) as [k|]; [|tr_walk].
  specialize (λ host port, Hl host port k eq_refl). tr_walk.
Qed.

(** A login was seen, with the form's key or with the provider's password,
    over a connection to the server. *)
Definition seen (host : string) (port : Z) (l : list event) : Prop :=
  ∃ id, Opened id host port ∈ l ∧
    ((∃ u, u ∈ login_users ∧ LoggedIn id u form_key ∈ l) ∨ given_password ≠ "" ∧ PasswordIn id initial_user given_password ∈ l).
#[local] Abbreviation safe := (safe (lawful b (λ _, True) (λ _ _, False))).
#[local] Hint Resolve stable_elem stable_true : core.

Definition key_seen (host : string) (port : Z) (u : string) (l : list event) : Prop :=
  ∃ id, Opened id host port ∈ l ∧ LoggedIn id u form_key ∈ l.
Lemma safe_key_login host port user : safe (λ _, True) (key_login host port user form_key b : M (bool * string))
  (λ r l, r.1 = true → key_seen host port user l).
Proof.
  unfold key_login. apply safe_catch; [done| |].
  - eapply safe_bind; [eapply safe_weaken; [by apply (safe_connect_key _ _ _ [])|intros; apply prefix_nil|done]|]. intros s.
    set (now := λ l : list event, Opened (s_id s) host port ∈ l ∧ LoggedIn (s_id s) user form_key ∈ l).
    eapply (safe_bind _ _ _ _ (λ _, now)).
    + eapply safe_weaken; [apply (safe_close _ _ _ now); by apply stable_and| |done].
      intros l ([_ Ho] & _ & Hl). split; by eapply after_elem.
    + intros ?. apply safe_ret. intros l [? ?] _. by exists (s_id s).
  - intros f. destruct (is_remote f); [by apply safe_ret|apply safe_throw].
Qed.
Lemma safe_t (Pre : list event → Prop) k values : safe Pre (t lang k values : M string) (λ _, Pre).
Proof. apply safe_silent. unfold t, pure. silent_walk. Qed.
(** A check made of texts: its outcome is known before. *)
Lemma safe_verdict {A} (Pre : list event → Prop) k values (f : string → M A) Post :
  (∀ x, safe Pre (f x) Post) → safe Pre (x ← t lang k values; f x) Post.
Proof. intros Hf. eapply safe_bind; [apply safe_t|exact Hf]. Qed.

Lemma safe_try_keys host port users tried : safe (λ _, True) (try_keys host port form_key lang b users tried : M (check + list string))
  (λ r l, ∀ c, r = inl c → c_blocking c = true ∧ ∃ u, u ∈ users ∧ key_seen host port u l).
Proof.
  revert tried. induction users as [|u users IH]; intros tried; cbn [try_keys]; [by apply safe_ret|].
  eapply safe_bind; [apply safe_key_login|]. intros [[] why].
  - apply safe_verdict. intros label. apply safe_verdict. intros detail. apply safe_ret. intros l Hl c [= <-].
    split; [done|]. exists u. split; [by left|by apply Hl].
  - eapply (safe_bind _ _ _ _ (λ _ _, True)).
    { apply safe_quiet; [|done]. unfold t, pure. silent_walk. }
    intros ?. eapply safe_weaken; [apply IH|done|]. intros r l Hr c Hc. destruct (Hr c Hc) as (? & u' & ? & ?).
    split; [done|]. exists u'. split; [by right|done].
Qed.
Definition password_seen (host : string) (port : Z) (user p : string) (l : list event) : Prop :=
  ∃ id, Opened id host port ∈ l ∧ PasswordIn id user p ∈ l.
Lemma safe_check_password host port user p : safe (λ _, True) (check_password host port user p b : M (bool * string))
  (λ r l, r.1 = true → password_seen host port user p l).
Proof.
  unfold check_password. set (now := λ id (l : list event), Opened id host port ∈ l ∧ PasswordIn id user p ∈ l).
  eapply (safe_bind _ _ _ _ (λ r l, ∀ id, r = Some id → vetted b l id ∧ now id l)).
  - apply safe_catch; [done| |].
    + eapply safe_bind; [eapply safe_weaken; [by apply (safe_password_shell _ _ _ [])|intros; apply prefix_nil|done]|].
      intros id. apply safe_ret. intros l [[Hv Ho] Hl] ? [= <-]. split; [done|]. split; by eapply after_elem.
    + intros f. destruct (is_refused f); [by apply safe_ret|apply safe_throw].
  - intros [id|]; [|by apply safe_ret].
    apply (safe_weaken _ _ (λ l, vetted b l id ∧ now id l) _ _ (λ _ l, True ∧ now id l)); [|by intros l Hl; apply Hl|by intros r l [_ ?] _; exists id].
    apply safe_frame; [by apply stable_and|]. eapply safe_weaken; [apply (safe_finally _ (λ l, vetted b l id) _ _ (λ _ _, True))|done|done].
    + apply stable_vetted.
    + done.
    + eapply safe_weaken; [apply (over_catch b (λ _, True) (λ _ _, False) id)|done|done]; over_walk.
    + eapply safe_weaken; [apply (over_close b (λ _, True) (λ _ _, False) id)|done|done].
Qed.
Lemma safe_check_login host port : safe (λ _, True) (check_login answers secrets lang b host port form_key : M check)
  (λ c l, c_blocking c = true ∧ (c_ok c = true → seen host port l)).
Proof.
  unfold check_login. eapply safe_bind; [apply safe_try_keys|]. intros [c|tried].
  { apply safe_ret. intros l Hl. destruct (Hl c eq_refl) as (? & u & Hu & id & Ho & ?). split; [done|]. intros _.
    exists id. split; [done|]. left. exists u. split; [|done]. exact (proj1 (elem_of_fromkeys _ _) Hu). }
  fold given_password. fold initial_user. case_bool_decide as Hp.
  { apply safe_verdict. intros ?. apply safe_verdict. intros ?. by apply safe_ret; intros l _. }
  apply (safe_weaken _ _ (λ _, True) _ _ (λ c l, c_blocking c = true ∧ (c_ok c = true → seen host port l))); [|done|done].
  eapply safe_bind; [apply safe_check_password|]. intros [ok why]. apply safe_verdict. intros ?.
  eapply safe_bind; [apply (safe_silent _ (λ l, ok = true → password_seen host port initial_user given_password l))|].
  { unfold t, pure. silent_walk. }
  intros ?. apply safe_ret. intros l Hl. split; [done|]. intros Hok. destruct (Hl Hok) as (id & ? & ?). exists id. auto.
Qed.
Lemma safe_check_pair k : safe (λ _, True) (check_pair k lang : M check) (λ c _, c_blocking c = true ∧ (k = None → c_ok c = false)).
Proof.
  unfold check_pair. eapply (safe_bind _ _ _ _ (λ have _, k = None → have = false)).
  { destruct k; [|by apply safe_ret]. apply safe_quiet; [silent_walk|done]. }
  intros have. apply safe_verdict. intros label. destruct have; [by apply safe_ret; intros l H; split|].
  eapply (safe_bind _ _ _ _ (λ _ _, True)).
  { apply safe_quiet; [|done]. unfold t, pure. silent_walk. }
  intros path. apply safe_verdict. intros detail. by apply safe_ret.
Qed.
Lemma safe_check_host_key host port : safe (λ _, True) (check_host_key host port lang b : M (list check * bool))
  (λ r _, r.2 = false → blocked r.1 = true).
Proof.
  unfold check_host_key. eapply (safe_bind _ _ _ _ (λ _ _, True)).
  { unfold changed. apply safe_catch; [done| |].
    - eapply safe_bind; [eapply safe_weaken; [by apply (safe_transport _ _ _ [])|intros; apply prefix_nil|done]|].
      intros id. eapply (safe_bind _ _ _ _ (λ _ _, True)); [|intros ?; by apply safe_ret].
      eapply safe_weaken; [apply (safe_close _ _ _ (λ _, True)); done|done|done].
    - intros []; cbn [is_remote]; try apply safe_throw; by apply safe_ret. }
  intros [keys offered]. case_bool_decide; [by apply safe_ret|]. destruct (negb b);
    (apply safe_verdict; intros ?; apply safe_verdict; intros ?; by apply safe_ret).
Qed.

Lemma blocked_app l1 l2 : blocked (l1 ++ l2) = blocked l1 || blocked l2.
Proof. apply existsb_app. Qed.
Lemma safe_check_answering host port banner : safe (λ _, True) (check_answering answers secrets lang b host port banner : M (list check))
  (λ cs l, blocked cs = false → startswith banner "SSH-" = true ∧ seen host port l).
Proof.
  unfold check_answering. apply safe_verdict. intros label.
  eapply (safe_bind _ _ _ _ (λ _ _, True)); [apply safe_quiet; [unfold t, pure; silent_walk|done]|]. intros silent.
  set (first := verdict label (startswith banner "SSH-") silent).
  eapply (safe_bind _ _ _ _ (λ r _, r.2 = false → blocked r.1 = true)).
  { destruct (c_ok first); [apply safe_check_host_key|by apply safe_ret]. }
  intros [host_checks go_on]. destruct go_on; cbn [negb].
  2: { apply safe_ret. intros l Hb Hn. cbn [fst snd] in Hb. change (first :: host_checks) with ([first] ++ host_checks)%list in Hn.
       by rewrite blocked_app, Hb, orb_true_r in Hn. }
  eapply (safe_bind _ _ _ _ (λ c _, c_blocking c = true ∧ (key_path answers = None → c_ok c = false))).
  { eapply safe_weaken; [apply safe_check_pair|done|done]. }
  intros pair. set (told := ((first :: host_checks) ++ [pair])%list).
  assert (c_blocking pair = true → blocked told = false → startswith banner "SSH-" = true ∧ c_ok pair = true) as Htold.
  { intros Hb Hn. unfold told in Hn. rewrite blocked_app in Hn. apply orb_false_iff in Hn as [Hn1 Hn2]. cbn in Hn1, Hn2. unfold blocks in *.
    rewrite Hb in Hn2. apply orb_false_iff in Hn1 as [Hn1 _]. destruct (c_ok pair), (startswith banner "SSH-"); cbn in *; done. }
  destruct (key_path answers) as [k|] eqn:Hk.
  2: { apply safe_ret. intros l [Hb Hl] Hn. destruct (Htold Hb Hn) as [_ Hp]. by rewrite Hl in Hp. }
  destruct (c_ok first && c_ok pair) eqn:Hf.
  2: { apply safe_ret. intros l [Hb _] Hn. destruct (Htold Hb Hn) as [Hs Hp]. cbn in Hf. by rewrite Hs, Hp in Hf. }
  apply andb_true_iff in Hf as [Hf _].
  eapply (safe_bind _ _ _ _ (λ c l, c_blocking c = true ∧ (c_ok c = true → seen host port l))).
  { apply (safe_weaken _ _ (λ _, True) _ _ (λ c l, c_blocking c = true ∧ (c_ok c = true → seen host port l))); [|done|done].
    pose proof (safe_check_login host port) as Hc. unfold form_key in Hc. by rewrite Hk in Hc. }
  intros c. apply safe_ret. intros l [Hb Hc] Hn. split; [done|]. rewrite blocked_app in Hn. apply orb_false_iff in Hn as [_ Hn].
  cbn in Hn. unfold blocks in Hn. rewrite Hb in Hn. apply Hc. by destruct (c_ok c).
Qed.
(** The first line a port sends, as the check reads it. *)
Lemma ssh_banner_line host port (w : Remote.world E P) r w' : (ssh_banner host port : M string) w = (r, w') →
  log w' = log w ∧ ∀ banner, r = inr banner → startswith banner "SSH-" = true →
    ∃ text e, first_line host port (ext w) = (inr text, e) ∧ banner = strip text.
Proof.
  intros H. split; [revert H; apply (silent_catch (E := E) (P := P)); silent_walk|]. intros banner -> Hb.
  unfold ssh_banner, catch, ask_or, ask, mbind, ST_bind in H. destruct (first_line host port (ext w)) as [[f|text] e].
  - cbn in H. destruct (is_os f); [|done]. apply pair_equal_spec in H as [[= <-] _]. done.
  - cbn in H. apply pair_equal_spec in H as [[= <-] _]. by exists text, e.
Qed.

Lemma safe_check_target : safe (λ _, True) (check_target answers secrets lang b : M (list check)) (λ _ _, True).
Proof.
  unfold check_target. case_bool_decide; [by apply safe_ret|]. destruct (negb (isdigit _)).
  { apply safe_verdict. intros ?. apply safe_verdict. intros ?. by apply safe_ret. }
  eapply (safe_bind _ _ _ _ (λ _ _, True)); [apply safe_quiet; [unfold pure; silent_walk|done]|]. intros port.
  eapply (safe_bind _ _ _ _ (λ _ _, True)); [apply safe_quiet; [unfold ssh_banner; silent_walk|done]|]. intros banner.
  eapply safe_weaken; [apply safe_check_answering|done|done].
Qed.

(** Claim C10: a check of the server leaves nothing behind and gives nothing
    away: however it ends, [known_hosts] is what it was; the only logins tried
    are the form's users with the form's key and the initial user with the
    provider's password; no command ran and no file was sent, the lines typed
    into a password's shell only finding whether it answers; and each of these
    went over a connection whose host key was trusted for the server, the
    first seen of it, or one of a server the person said was reinstalled. *)
Theorem probe_leaves_nothing (w : Remote.world E P) r w' :
  check_target answers secrets lang b w = (r, w') → log w = [] →
  known_hosts w' = known_hosts w
  ∧ Forall (harmless login_users form_key initial_user given_password) (log w')
  ∧ ∀ l1 x l2 id, log w' = (l1 ++ x :: l2)%list → sends x = Some id →
      ∃ keys k, Offered id keys k ∈ l1 ∧ (keys = [] ∨ k ∈ keys ∨ b = true).
Proof.
  intros H Hw. destruct (tr_check_target _ _ _ H) as [Hk (l & Hl & Hh)]. rewrite Hw in Hl.
  split; [done|]. split; [by rewrite Hl|]. intros l1 x l2 id E0 Hx.
  assert (orderly (lawful b (λ _, True) (λ _ _, False)) (log w)) as Ho by (rewrite Hw; constructor).
  destruct (safe_check_target _ _ _ Ho I H) as [Ho' _]. rewrite E0 in Ho'. apply orderly_may in Ho'. by eapply lawful_sends.
Qed.

(** Claim C11: a check of a server that finds nothing blocking saw an SSH
    server there: the first line of the form's port is one of SSH's.  And over
    a connection opened to that address and port it saw a login succeed: with
    the form's key, as the initial user or as ops, or as the initial user with
    the provider's password, which the server accepted. *)
Theorem probe_passes_on_login (w : Remote.world E P) checks w' :
  check_target answers secrets lang b w = (inr checks, w') → log w = [] →
  ssh_address answers ≠ "" → blocked checks = false →
  ∃ port line e, py_int (env_strip_or "HOST_SSH_PORT" "22" answers) = Ok port
    ∧ first_line (ssh_address answers) port (ext w) = (inr line, e) ∧ startswith (strip line) "SSH-" = true
    ∧ ∃ id, Opened id (ssh_address answers) port ∈ log w' ∧
      ((∃ u, u ∈ login_users ∧ LoggedIn id u form_key ∈ log w')
       ∨ given_password ≠ "" ∧ PasswordIn id initial_user given_password ∈ log w').
Proof.
  intros H Hw Ha Hb. unfold check_target in H. rewrite bool_decide_false in H by done. destruct (negb (isdigit _)).
  { apply bind_ok in H as (label & w1 & _ & H). apply bind_ok in H as (detail & w2 & _ & H). by apply ret_ok in H as [-> _]. }
  apply bind_ok in H as (port & w1 & H1 & H). apply lift_ok in H1 as [Hp ->].
  apply bind_ok in H as (banner & w2 & H2 & H). apply ssh_banner_line in H2 as [Hl Hline].
  assert (orderly (lawful b (λ _, True) (λ _ _, False)) (log w2)) as Ho by (rewrite Hl, Hw; constructor).
  destruct (safe_check_answering _ _ _ _ _ _ Ho I H) as (_ & _ & Hs). destruct (Hs checks eq_refl Hb) as [Hssh Hseen].
  destruct (Hline banner eq_refl Hssh) as (text & e & Ht & ->). by exists port, text, e.
Qed.
End verified.

(** * Witnesses *)

Module Probe.
Export InstallFacts.Sample.
#[export] Instance desk : Desk unit := { key_pairs e := ([], e); home := "/home/me"; first_line _ _ e := (inr "SSH-2.0-OpenSSH_9.2", e) }.
#[export] Instance pair_here : Local unit := {
  read_local p e := (inr "", e); is_file p e := (true, e); safe_load _ := Ok VNone; safe_dump _ := ""; expanduser s := s;
  TREE := "/t"; STARTER := "/t/starter.sh"; DEFAULT_KEY := "/k" }.
#[export] Instance words : Texts := { TEXT := [("en", [
  ("check.ssh_answers", "an SSH server answers at {host}:{port}"); ("check.keypair", "the keypair is on this machine");
  ("check.key_opens", "the key already opens {login}"); ("check.no_password_needed", "no password is needed")])] }.
Definition answers : dict string := [("HOST_PUBLIC_IP", "203.0.113.7"); ("SSH_PRIVATE_KEY", "/k")].
End Probe.
#[local] Existing Instances InstallFacts.Sample.net Probe.desk Probe.pair_here Probe.words.

Definition probed : (fault + list check) * Remote.world unit output_state :=
  check_target Probe.answers [] "en" false InstallFacts.Sample.world0.
Example probed_checks : (λ cs, map c_label cs) <$> (match probed.1 with inr cs => Some cs | inl _ => None end) =
  Some ["an SSH server answers at 203.0.113.7:22"; "the keypair is on this machine"; "the key already opens root@203.0.113.7"].
Proof. by vm_compute. Qed.

Lemma probe_leaves_nothing_witness :
  known_hosts probed.2 = None ∧ ∃ keys k, Offered 1 keys k ∈ take 5 (log probed.2).
Proof.
  destruct (probe_leaves_nothing Probe.answers [] "en" false InstallFacts.Sample.world0 probed.1 probed.2 (surjective_pairing _) eq_refl)
    as (Hk & _ & Ho). split; [exact Hk|].
  destruct (Ho (take 5 (log probed.2)) (KeyLogin 1 "root" "/k") (drop 6 (log probed.2)) 1) as (keys & k & Hin & _);
    [by vm_compute|reflexivity|by exists keys, k].
Defined.
Lemma probe_passes_on_login_witness :
  ∃ id, Opened id "203.0.113.7" 22 ∈ log probed.2 ∧
    ((∃ u, u ∈ login_users Probe.answers ∧ LoggedIn id u (form_key Probe.answers) ∈ log probed.2)
     ∨ given_password [] ≠ "" ∧ PasswordIn id (initial_user Probe.answers) (given_password []) ∈ log probed.2).
Proof.
  destruct (probe_passes_on_login Probe.answers [] "en" false InstallFacts.Sample.world0
    (match probed.1 with inr cs => cs | inl _ => [] end) probed.2) as (port & line & e & Hp & _ & _ & Hs); try by vm_compute.
  assert (port = 22%Z) as -> by (vm_compute in Hp; by injection Hp). exact Hs.
Defined.
