(* ===== verification/InstallRun.v ===== *)
(** [installer/catena_installer/run.py]: what an inventory was answered, and
    what of it is kept on disk: the answers in its [.env], through the seed's
    writer, and where the install got to in a state file. *)
From S2P Require Import Prelude PyStr PyNum PyVal Json Effects Host EnvFile RenderKnobs Seed.

#[local] Open Scope string_scope.

Definition STATE_ANSWERING : string := "answering".
Definition STATE_INSTALLING : string := "installing".
Definition STATE_DONE : string := "done".
Definition STATE_FAILED : string := "failed".
Definition ENV_FILENAME : string := ".env".
Definition STATE_FILENAME : string := ".catena-installer.json".
Definition LOG_LINES : nat := 2000.

(** [Run]: its log, keyset and forward live in the process only. *)
Record run := { r_path : string; r_answers : dict string; r_secrets : dict string; r_secret_keys : list string;
  r_state : string; r_started : float }.
Definition env_path (r : run) : string := join_path (r_path r) ENV_FILENAME.
Definition state_path (r : run) : string := join_path (r_path r) STATE_FILENAME.

Definition with_answers (a : dict string) (r : run) : run :=
  {| r_path := r_path r; r_answers := a; r_secrets := r_secrets r; r_secret_keys := r_secret_keys r;
     r_state := r_state r; r_started := r_started r |}.
Definition with_secrets (s : dict string) (r : run) : run :=
  {| r_path := r_path r; r_answers := r_answers r; r_secrets := s; r_secret_keys := r_secret_keys r;
     r_state := r_state r; r_started := r_started r |}.

Definition answer (key value : string) (secret : bool) (r : run) : run :=
  if secret || bool_decide (key ∈ r_secret_keys r) then with_secrets (dset key value (r_secrets r)) r
  else with_answers (dset key value (r_answers r)) r.
Definition value (key : string) (r : run) : string :=
  match dget key (r_secrets r) with Some v => v | None => default "" (dget key (r_answers r)) end.
Definition missing_secrets (required : list string) (r : run) : list string :=
  List.filter (λ k, bool_decide (strip (default "" (dget k (r_secrets r))) = "")) required.

(** The answers that are no credentials. *)
Definition kept_answers (secret_keys : list string) (d : dict string) : dict string :=
  List.filter (λ kv, negb (bool_decide (kv.1 ∈ secret_keys))) d.

(** [secret_keys_from] *)
Definition secret_keys_from (doc : val) : res (list string) :=
  secrets ← attr_get "secrets" doc;
  entries ← iter_or secrets;
  keys ← mapM_res (λ entry, k ← attr_get "key" entry; Ok (if truthy k then [py_str k] else [])) entries;
  Ok (concat keys).

(** What [os.kill(pid, 0)] comes to. *)
Inductive signal := Delivered | NoSuchProcess | NotPermitted | KillFails (e : exn).
(** This process's number, the clock, and the processes there are. *)
Class Process (E : Type) := {
  pid : Z;
  now : E → float * E;
  kill0 : Z → E → signal * E
}.

Section run.
Context {E : Type} `{!Outside E, !Process E} (knobs : asked).
Abbreviation M := (ST (@world E) fault).

Definition ask {A} (f : E → A * E) : M A := λ w,
  let '(a, e) := f (ext w) in (inr a, {| files := files w; ran := ran w; pos := pos w; ext := e |}).

Definition payload (state : string) (started : float) : val :=
  VDict [("state", VStr state); ("started", VFloat started); ("pid", VInt pid)].
(** [self.started or time.time()] *)
Definition started_or_now (r : run) : M float :=
  if float_eq_int (r_started r) 0 then ask now else mret (r_started r).
Definition state_text (state : string) (started : float) : string :=
  dumps indent2_style (payload state started) +:+ newline_str.

(** [Run.save]; the state file is replaced whole. *)
Definition save (r : run) : M unit :=
  op_on (r_path r);;
  _ ← write_env knobs (r_path r) (kept_answers (r_secret_keys r) (r_answers r));
  started ← started_or_now r;
  let tmp := state_path r +:+ ".tmp" in
  open_write tmp 384;; put_text tmp (state_text (r_state r) started);;
  replace_file tmp (state_path r).

(** [_running] *)
Definition running (v : val) : M bool :=
  let probe := λ n, s ← ask (kill0 n);
    match s with
    | NoSuchProcess => mret false
    | Delivered | NotPermitted => mret true
    | KillFails e => throw (Raised e)
    end in
  match v with VInt n => probe n | VBool b => probe (if b then 1 else 0)%Z | _ => mret false end.

(** [load]: the answers, then the state, if the file is there. *)
Definition load (path : string) (secret_keys : list string) : M run :=
  let fresh := {| r_path := path; r_answers := []; r_secrets := []; r_secret_keys := secret_keys;
                  r_state := STATE_ANSWERING; r_started := float_near 0 |} in
  has_env ← exists_path (env_path fresh);
  answers ← (if (has_env : bool) then text ← read_text (env_path fresh); mret (kept_answers secret_keys (read_existing_env text)) else mret []);
  let r := with_answers answers fresh in
  has_state ← exists_path (state_path r);
  if negb has_state then mret r else
  text ← read_text (state_path r);
  doc ← pure (loads text);
  match doc with
  | VDict doc =>
      let state := if truthy (vget "state" doc) then py_str (vget "state" doc) else STATE_ANSWERING in
      alive ← (if bool_decide (state = STATE_INSTALLING) then running (vget "pid" doc) else mret true);
      started ← pure (if truthy (vget "started" doc) then as_float (vget "started" doc) else Ok (float_near 0));
      mret {| r_path := path; r_answers := answers; r_secrets := []; r_secret_keys := secret_keys;
              r_state := if (alive : bool) then state else STATE_FAILED; r_started := started |}
  | _ => throw (Raised ValueError)
  end.
End run.
