(* ===== verification/InstallRunFacts.v ===== *)
(** Facts of [InstallRun]: a saved run opens again with the answers it kept,
    and no credential among them. *)
From S2P Require Import Prelude PyStr PyNum PyVal Json Effects Host EnvFile EnvFileFacts RenderKnobs Seed SeedFacts InstallRun.

#[local] Open Scope string_scope.

Section facts.
Context {E : Type} `{!Outside E, !Process E} (knobs : asked).
#[local] Abbreviation M := (ST (@world E) fault).

(** Steps that leave the file at [p] as it is. *)
Definition spares (p : string) (w w' : @world E) : Prop := files w' !! p = files w !! p.
#[export] Instance spares_preorder p : PreOrder (spares p).
Proof. unfold spares. split; [done|]. intros w1 w2 w3 H1 H2. congruence. Qed.
Lemma spares_op_on p q : runs_in (spares p) (op_on q : M unit).
Proof. intros w r w' H. unfold op_on in H. destruct (refuses q (ext w)). by apply pair_equal_spec in H as [_ <-]. Qed.
Lemma spares_open_write p q mode : p ≠ q → runs_in (spares p) (open_write q mode : M unit).
Proof.
  intros Hp. apply runs_bind; [apply _|apply spares_op_on|]. intros _. apply runs_modify. intros w. unfold spares. cbn. by rewrite lookup_insert_ne.
Qed.
Lemma spares_put_text p q text : p ≠ q → runs_in (spares p) (put_text q text : M unit).
Proof.
  intros Hp. apply runs_bind; [apply _|apply spares_op_on|]. intros _. apply runs_modify. intros w. unfold spares. cbn. by rewrite lookup_alter_ne.
Qed.
Lemma spares_replace p q q' : p ≠ q → p ≠ q' → runs_in (spares p) (replace_file q q' : M unit).
Proof.
  intros Hq Hq'. apply runs_bind; [apply _|apply spares_op_on|]. intros _. apply runs_modify. intros w. unfold spares. cbn.
  destruct (files w !! q); [|done]. by rewrite lookup_insert_ne, lookup_delete_ne.
Qed.
Lemma spares_ask p {A} (f : E → A * E) : runs_in (spares p) (ask f : M A).
Proof. intros w r w' H. unfold ask in H. destruct (f (ext w)). by apply pair_equal_spec in H as [_ <-]. Qed.

(** The state file and its draft are not the [.env]. *)
Lemma state_not_env r : env_path r ≠ state_path r ∧ env_path r ≠ state_path r +:+ ".tmp".
Proof.
  unfold env_path, state_path, join_path. cbn. rewrite <-!string_app_assoc.
  split; intros H%sapp_inj; cbn in H; by apply sapp_inj in H || discriminate H.
Qed.

(** The values the [.env] is written from, and what a save leaves in it. *)
Definition saved_values (r : run) : dict string :=
  dupdate (dict_of (ENV_KEYS knobs)) (kept_answers (r_secret_keys r) (r_answers r)).
Lemma write_env_text dir answers w u w' template : env_template knobs = Ok template →
  write_env knobs dir answers w = (inr u, w') →
  text_at w' (join_path dir ".env") =
    Some (emit_text template (dupdate (dict_of (ENV_KEYS knobs)) answers) false (text_at w (join_path dir ".env"))).
Proof.
  intros Ht. unfold write_env. rewrite Ht. intros (text & w1 & Hl & H)%bind_ok. apply pair_equal_spec in Hl as [[= <-] <-].
  apply bind_ok in H as ([] & w2 & (m & Hm)%emit_env_ok & H). apply bind_ok in H as ([] & w3 & H3 & H).
  apply ret_ok in H as [_ ->]. unfold chmod in H3. apply bind_ok in H3 as ([] & w4 & H4%op_on_ok & H3).
  apply pair_equal_spec in H3 as [_ <-]. unfold text_at at 1. cbn. by rewrite H4, Hm, lookup_alter_eq, lookup_insert_eq.
Qed.
Lemma save_text r w w' template : env_template knobs = Ok template → save knobs r w = (inr tt, w') →
  text_at w' (env_path r) = Some (emit_text template (saved_values r) false (text_at w (env_path r))).
Proof.
  intros Ht. unfold save. intros ([] & w1 & H1%op_on_ok & H)%bind_ok. apply bind_ok in H as (u & w2 & H2 & H).
  apply (write_env_text _ _ _ _ _ _ Ht) in H2. change (join_path (r_path r) ".env") with (env_path r) in H2.
  assert (text_at w1 (env_path r) = text_at w (env_path r)) as E1 by (unfold text_at; by rewrite H1). rewrite E1 in H2.
  unfold saved_values. rewrite <-H2. unfold text_at. f_equal. destruct (state_not_env r) as [Hs Htmp].
  refine (runs_elim (spares (env_path r)) _ _ _ _ H _).
  unfold started_or_now. apply runs_bind; [apply _| |].
  { destruct (float_eq_int _ _); [apply spares_ask|apply runs_ret; apply _]. }
  intros started. apply runs_bind; [apply _|by apply spares_open_write|]. intros _.
  apply runs_bind; [apply _|by apply spares_put_text|]. intros _. by apply spares_replace.
Qed.

Lemma load_answers path secret_keys w r w' text : load path secret_keys w = (inr r, w') →
  text_at w (join_path path ".env") = Some text →
  r_answers r = kept_answers secret_keys (read_existing_env text) ∧ r_secrets r = [].
Proof.
  unfold load. set (fresh := {| r_path := path |}). intros (has_env & w1 & Hh & H)%bind_ok Ht.
  apply pair_equal_spec in Hh as [[= <-] <-]. change (join_path path ".env") with (env_path fresh) in Ht.
  pose proof Ht as Hf. unfold text_at in Hf. destruct (files w !! env_path fresh) as [f|] eqn:Ef; [|done].
  rewrite bool_decide_true in H by done. apply bind_ok in H as (answers & w2 & Ha & H).
  apply bind_ok in Ha as (text' & w3 & [Ht' _]%read_file_ok & Ha). rewrite Ht in Ht'. injection Ht' as <-.
  apply ret_ok in Ha as [-> ->]. apply bind_ok in H as (has_state & w4 & Hst & H).
  destruct (negb has_state); [by apply ret_ok in H as [-> _]|].
  apply bind_ok in H as (st & w5 & _ & H). apply bind_ok in H as (doc & w6 & _ & H). destruct doc; try done.
  apply bind_ok in H as (alive & w7 & _ & H). apply bind_ok in H as (started & w8 & _ & H). by apply ret_ok in H as [-> _].
Qed.

Lemma dget_kept secret_keys (d : dict string) k : k ∉ secret_keys → dget k (kept_answers secret_keys d) = dget k d.
Proof.
  intros Hk. unfold kept_answers. induction d as [|[k0 v0] d IH]; [done|]. cbn [List.filter fst].
  destruct (bool_decide_reflect (k0 ∈ secret_keys)) as [Hs|Hs]; cbn [negb].
  - rewrite IH. cbn. rewrite bool_decide_false; [done|]. by intros ->.
  - cbn. by rewrite IH.
Qed.
Lemma kept_secret secret_keys (d : dict string) k v : (k, v) ∈ kept_answers secret_keys d → k ∉ secret_keys.
Proof.
  unfold kept_answers. rewrite list_elem_of_In, filter_In. intros [_ H]. cbn in H.
  by apply negb_true_iff, bool_decide_eq_false in H.
Qed.

(** The pairs of a written [.env]. *)
Lemma contents_template template values old k : k ∈ (parse_env_pairs template).*1 →
  dget k (dict_of (contents template values false old)) = Some (default "" (dget k values)).
Proof.
  intros Hk. unfold contents. rewrite dict_of_app; [|apply extras_NoDup|].
  - rewrite dget_app. by rewrite dget_dict_of_map.
  - intros k' Hx Hin. apply (extras_fresh _ _ _ Hx).
    by apply list_elem_of_fmap in Hin as ([? ?] & -> & (? & [= -> ->] & ?)%list_elem_of_fmap).
Qed.
Lemma dget_dupdate_fresh (d l : dict string) k : k ∉ l.*1 → dget k (dupdate d l) = dget k d.
Proof.
  unfold dupdate. revert d. induction l as [|[k0 v0] l IH]; intros d Hk; [done|]. cbn in Hk.
  apply not_elem_of_cons in Hk as [Hne Hk]. cbn. rewrite IH, dget_dset by done. by rewrite decide_False.
Qed.
Lemma contents_secret template r old k v : (k, v) ∈ contents template (saved_values r) false old → k ∈ r_secret_keys r →
  v = default "" (dget k (dict_of (ENV_KEYS knobs))) ∨ (k, v) ∈ on_disk old.
Proof.
  intros [Hin|Hin]%elem_of_app Hk.
  - left. apply list_elem_of_fmap in Hin as (? & [= <- ->] & _). unfold choose, saved_values. cbn.
    rewrite dget_dupdate_fresh; [done|]. intros ([k' v'] & -> & Hin%kept_secret)%list_elem_of_fmap. done.
  - right. by apply list_elem_of_filter in Hin as [_ ?].
Qed.

(** Claim C28: a run whose answers are plain values, saved over a file of plain
    values or none ([plain]: one with a line break, or a quote or a backslash to
    escape, does not read back as it was), opens again as it was answered,
    without a credential: every key of the template that is none reads back with the
    run's answer, or the registry's default; no credential is among the
    answers, and the secrets are empty.  In the file itself a credential's key
    has the registry's default, if the template carries it, or the value the
    file held before the save: never one the run was given. *)
Theorem saved_run_reopens r w w' template r' w'' :
  env_template knobs = Ok template → save knobs r w = (inr tt, w') →
  load (r_path r) (r_secret_keys r) w' = (inr r', w'') →
  all_plain (saved_values r) → plain_file (text_at w (env_path r)) →
  (∀ k, k ∈ (parse_env_pairs template).*1 → k ∉ r_secret_keys r →
     dget k (r_answers r') = Some (default "" (dget k (saved_values r))))
  ∧ (∀ k v, (k, v) ∈ r_answers r' → k ∉ r_secret_keys r) ∧ r_secrets r' = []
  ∧ ∃ text, text_at w' (env_path r) = Some text ∧
      ∀ k v, (k, v) ∈ parse_env_pairs text → k ∈ r_secret_keys r →
        v = default "" (dget k (dict_of (ENV_KEYS knobs))) ∨ (k, v) ∈ on_disk (text_at w (env_path r)).
Proof.
  intros Ht Hs Hl Hp Hf. pose proof (save_text _ _ _ _ Ht Hs) as Htext.
  destruct (load_answers _ _ _ _ _ _ Hl Htext) as [Ha Hsec]. rewrite Ha.
  pose proof (written_contents template (saved_values r) false (text_at w (env_path r)) Hp Hf) as Hc.
  split_and!; [|intros k v; apply kept_secret|done|].
  - intros k Hk Hn. rewrite dget_kept by done. unfold read_existing_env. rewrite Hc. by apply contents_template.
  - eexists. split; [exact Htext|]. rewrite Hc. intros k v Hin Hk. by apply contents_secret in Hin.
Qed.
End facts.

(** ** Witness *)

Module Saved.
#[export] Instance process_sample : Process (list string) := {
  pid := 41%Z;
  now e := (float_near 1700000000, e);
  kill0 n e := (if (n =? 41)%Z then Delivered else NoSuchProcess, e)
}.
Definition answered : run := {|
  r_path := "/inv/prod"; r_answers := [("HOST_PUBLIC_IP", "203.0.113.7"); ("NOTE", "hunter2 hunter2")]; r_secrets := [("admin_password", "p")];
  r_secret_keys := ["NOTE"; "admin_password"]; r_state := STATE_ANSWERING; r_started := float_near 0 |}.
Definition template : string := match env_template SeedFacts.Sample.knobs with Ok t => t | Raise _ => "" end.
End Saved.
#[local] Existing Instances SeedFacts.Sample.outside_sample Saved.process_sample.

Lemma saved_run_reopens_witness :
  let saved := save SeedFacts.Sample.knobs Saved.answered SeedFacts.Sample.fresh_world in
  let opened := load "/inv/prod" ["NOTE"; "admin_password"] saved.2 in
  saved.1 = inr tt ∧ ∃ r', opened.1 = inr r' ∧
    dget "HOST_PUBLIC_IP" (r_answers r') = Some "203.0.113.7" ∧ dget "NOTE" (r_answers r') = None ∧ r_secrets r' = [].
Proof.
  intros saved opened. split; [vm_compute; reflexivity|].
  assert (Hr : ∃ r', opened.1 = inr r') by (vm_compute; eexists; reflexivity). destruct Hr as [r' Hr]. exists r'. split; [exact Hr|].
  destruct (saved_run_reopens SeedFacts.Sample.knobs Saved.answered SeedFacts.Sample.fresh_world saved.2 Saved.template r' opened.2)
    as (Hk & Hn & Hs & _).
  - reflexivity.
  - vm_compute. reflexivity.
  - rewrite <-Hr. subst opened. destruct (load _ _ _). reflexivity.
  - apply all_plainb. vm_compute. reflexivity.
  - exact I.
  - split; [|split; [|exact Hs]].
    + rewrite (Hk "HOST_PUBLIC_IP"); [reflexivity| |]; apply (bool_decide_eq_true_1 _); vm_compute; reflexivity.
    + destruct (dget "NOTE" (r_answers r')) eqn:E; [|reflexivity]. exfalso. apply (Hn "NOTE" s).
      * revert E. clear. induction (r_answers r') as [|[k v] d IH]; intros E; [done|]. cbn in E. case_bool_decide; [|right; by apply IH].
        simplify_eq. left.
      * left.
Defined.
