(* ===== verification/InstallPage.v ===== *)
(** [installer/catena_installer/server.py]: the page's requests, the run they
    are about, the install one of them starts, and when it ends.  A request is
    read already: its path, the language it asks for, its form as [parse_qs]
    gives it.  The pages themselves are in [InstallHtml]. *)
From S2P Require Import Prelude PyStr PyNum PyVal Json Effects EnvFile Host RenderKnobs Seed I18n Remote Checks Install InstallRun InstallSteps.

#[local] Open Scope string_scope.

Definition LANG_COOKIE : string := "catena_lang".
Definition KEYSET_FIELDS : list string := ["admin_password"; "console_recovery_password"; "journal_verification_key"].

(** [_ANSI.sub("", text)]: an escape, a bracket, digits and semicolons, an m. *)
Fixpoint colour_end (s : string) : option string :=
  match s with
  | String a s => if is_digit a || is_char ";" a then colour_end s else if is_char "m" a then Some s else None
  | EmptyString => None
  end.
Definition escape_char : ascii := "027".
Fixpoint strip_colours_go (fuel : nat) (s : string) : string :=
  match fuel, s with
  | S fuel, String a s' =>
      match (if is_char escape_char a then match s' with String "[" t => colour_end t | _ => None end else None) with
      | Some rest => strip_colours_go fuel rest
      | None => String a (strip_colours_go fuel s')
      end
  | _, _ => ""
  end.
Definition strip_colours (s : string) : string := strip_colours_go (String.length s) s.

(** [deque(maxlen=LOG_LINES)] *)
Definition tail_add (log : list string) (line : string) : list string :=
  let log := (log ++ [line])%list in drop (length log - LOG_LINES) log.

(** * The state *)

(** A [Run] object: what of it is kept on disk, and what the process holds; a
    forward is the session it goes through. *)
Record live := { l_run : run; l_log : list string; l_keyset : dict string; l_forward : option session }.
(** An install in the background, and the run it is of. *)
Record job := { j_of : nat; j_options : options }.
Inductive fault :=
  | OfDisk (f : Host.fault)
  | OfNet (f : Remote.fault).
(** What a request is answered with. *)
Inductive response :=
  | Redirect (where_to cookie : string)
  | InstallPage (lang : string) (at_ : nat)
  | InventoryPage (lang : string) (problem : option (string * string))
  | Progress (body : val)
  | NotFound (lang : string).

(** The directories there are, and the inventories under the root; a new key
    pair made by [ssh-keygen]. *)
Class Rooms (D : Type) := {
  is_dir : string → D → bool * D;
  inventory_names : string → D → list string * D;
  path_there : string → D → bool * D
}.
Class KeyMaker (E : Type) := {
  key_exists : string → E → bool * E;
  keygen_there : bool;
  make_parent : string → E → option string * E;
  keygen_pair : string → E → (Z * string) * E
}.

(** [keyset_shown]: each password, or why there is none to show. *)
Definition keyset_shown `{!Texts} (l : live) (lang : string) : res (dict string) :=
  let why := if bool_decide (l_keyset l = []) then "keyset.pending" else "keyset.not_again" in
  mapM_res (λ name,
    match default "" (dget name (l_keyset l)) with
    | EmptyString => t ← text lang why []; Ok (name, t)
    | v => Ok (name, v)
    end) KEYSET_FIELDS.

Section page.
Context {D E : Type} `{!Host.Outside D, !Process D, !Rooms D, !Remote.Outside E, !Probes E, !Local E, !Desk E, !KeyMaker E, !Texts}.
(** The registry, as the seed reads it, and as the page does. *)
Context (knobs : asked) (doc : dict val) (root : string) (all_steps : list step).

(** [runs] are the run objects made so far, by their number: an install keeps
    the one it was started for. *)
Record site := { runs : list live; current : option nat; last_checks : list check; problem : option (string * string);
  jobs : list job; disk : @Host.world D; net : Remote.world E output_state }.
Abbreviation M := (ST site fault).

Definition set_runs (f : list live → list live) (s : site) : site :=
  {| runs := f (runs s); current := current s; last_checks := last_checks s; problem := problem s; jobs := jobs s; disk := disk s; net := net s |}.
Definition set_current (c : option nat) (s : site) : site :=
  {| runs := runs s; current := c; last_checks := last_checks s; problem := problem s; jobs := jobs s; disk := disk s; net := net s |}.
Definition set_checks (c : list check) (s : site) : site :=
  {| runs := runs s; current := current s; last_checks := c; problem := problem s; jobs := jobs s; disk := disk s; net := net s |}.
Definition set_problem (p : option (string * string)) (s : site) : site :=
  {| runs := runs s; current := current s; last_checks := last_checks s; problem := p; jobs := jobs s; disk := disk s; net := net s |}.
Definition set_jobs (f : list job → list job) (s : site) : site :=
  {| runs := runs s; current := current s; last_checks := last_checks s; problem := problem s; jobs := f (jobs s); disk := disk s; net := net s |}.

(** What happens on the disk, and over the network. *)
Definition on_disk {A} (c : ST (@Host.world D) Host.fault A) : M A := λ s,
  let '(r, d) := c (disk s) in
  (match r with inl f => inl (OfDisk f) | inr a => inr a end,
   {| runs := runs s; current := current s; last_checks := last_checks s; problem := problem s; jobs := jobs s; disk := d; net := net s |}).
Definition on_net {A} (c : ST (Remote.world E output_state) Remote.fault A) : M A := λ s,
  let '(r, n) := c (net s) in
  (match r with inl f => inl (OfNet f) | inr a => inr a end,
   {| runs := runs s; current := current s; last_checks := last_checks s; problem := problem s; jobs := jobs s; disk := disk s; net := n |}).
Definition words (r : res string) : M string := on_net (Remote.pure r).

(** ** One run object *)

Definition no_run : live :=
  {| l_run := {| r_path := ""; r_answers := []; r_secrets := []; r_secret_keys := []; r_state := STATE_ANSWERING; r_started := float_near 0 |};
     l_log := []; l_keyset := []; l_forward := None |}.
Definition get_run (i : nat) : M live := gets (λ s, default no_run (runs s !! i)).
Definition change_run (i : nat) (f : live → live) : M unit := modify (set_runs (alter f i)).
Definition on_run (f : run → run) (l : live) : live :=
  {| l_run := f (l_run l); l_log := l_log l; l_keyset := l_keyset l; l_forward := l_forward l |}.
Definition on_log (f : list string → list string) (l : live) : live :=
  {| l_run := l_run l; l_log := f (l_log l); l_keyset := l_keyset l; l_forward := l_forward l |}.
Definition with_keyset (k : dict string) (l : live) : live :=
  {| l_run := l_run l; l_log := l_log l; l_keyset := k; l_forward := l_forward l |}.
Definition with_forward (s : session) (l : live) : live :=
  {| l_run := l_run l; l_log := l_log l; l_keyset := l_keyset l; l_forward := Some s |}.
Definition with_state (state : string) (r : run) : run :=
  {| r_path := r_path r; r_answers := r_answers r; r_secrets := r_secrets r; r_secret_keys := r_secret_keys r;
     r_state := state; r_started := r_started r |}.
Definition save_run (i : nat) : M unit := l ← get_run i; on_disk (save knobs (l_run l)).
Definition say (i : nat) (line : string) : M unit := change_run i (on_log (λ log, tail_add log line)).

(** ** The form *)

(** [(form.get(k) or [d])[0]] *)
Definition form_value (k d : string) (form : dict (list string)) : string :=
  match dget k form with Some (v :: _) => v | _ => d end.
(** One field: the run it is filed in, and whether its choice is private. *)
Definition file_field (form : dict (list string)) (st : run * list string) (f : field) : run * list string :=
  match dget (f_key f) form with
  | None => st
  | Some vs =>
      let value := hd "" vs in
      if bool_decide (f_choice f = []) then (answer (f_key f) value (f_secret f) st.1, st.2)
      else if bool_decide (form_value (via_name (f_key f)) "public" form = "private")
           then (answer (f_key f) value (f_secret f) st.1, (st.2 ++ [f_key f])%list)
           else (answer (f_key f) "" (f_secret f) st.1, st.2)
  end.
Definition all_fields : list field := flat_map s_fields all_steps.
Definition file_form (form : dict (list string)) (r : run) : run * list string :=
  foldl (file_field form) (r, []) all_fields.

(** [_shown_values] *)
Definition shown_value (r : run) (f : field) : string :=
  let v := value (f_key f) r in
  if negb (bool_decide (v = "")) then v
  else if negb (bool_decide (f_default f = "")) then f_default f else hd "" (f_options f).
Definition shown_values (r : run) : dict string := dict_of (map (λ f, (f_key f, shown_value r f)) all_fields).

(** Every section: what it still lacks, else what its probe finds. *)
Fixpoint verify (l : list step) (r : run) (values : dict string) (lang : string) (private : list string) (reinstalled : bool) : M (list check) :=
  match l with
  | [] => mret []
  | s :: l =>
      missing ← on_net (missing_required s values lang private);
      checks ← (if bool_decide (missing = []) then on_net (validate (s_name s) (r_answers r) (r_secrets r) lang reinstalled) else mret missing);
      rest ← verify l r values lang private reinstalled; mret (checks ++ rest)%list
  end.

(** [keys.create], whose refusals are the run's to tell. *)
Definition create_key (private : string) : ST (Remote.world E output_state) Remote.fault unit :=
  there ← Remote.ask (key_exists private);
  if (there : bool) then throw (KeyPairError (private +:+ " already exists"))
  else if negb keygen_there then throw (KeyPairError "ssh-keygen is not installed: it ships with OpenSSH")
  else
    refused ← Remote.ask (make_parent private);
    match refused with
    | Some text => throw (OsError text)
    | None =>
        '(rc, err) ← Remote.ask (keygen_pair private);
        if bool_decide (rc = 0%Z) then mret tt else throw (KeyPairError ("ssh-keygen failed: " +:+ strip err))
    end.
Definition make_key (i : nat) (form : dict (list string)) (answers : dict string) : M unit :=
  match key_path answers with
  | Some key =>
      if bool_decide (form_value CREATE_KEY "" form = "yes") then
        there ← on_net (Remote.ask (key_exists key));
        if (there : bool) then mret tt else
        catch (on_net (create_key key)) (λ f,
          match f with OfNet (KeyPairError text) => say i ("catena-installer: " +:+ text) | _ => throw f end)
      else mret tt
  | None => mret tt
  end.

(** ** The forward and the install *)

(** [open_forward]: nothing, or why it could not be. *)
Definition open_forward (i : nat) : M string :=
  l ← get_run i;
  match l_forward l with
  | Some _ => mret ""
  | None =>
      catch ('(s, _) ← on_net (connect (r_path (l_run l)) ""); change_run i (with_forward s);; mret "")
        (λ f, match f with OfNet f' => if is_remote f' || is_os f' then mret (fault_text f') else throw f | _ => throw f end)
  end.

(** [dset] turned around: the entries of [secrets] without the provider's
    password, and those of them that are not blank. *)
Definition pinned (secrets : dict string) : dict val :=
  map (λ kv, (kv.1, VStr kv.2)) (List.filter (λ kv, negb (bool_decide (kv.1 = PROVIDER_PASSWORD)) && negb (bool_decide (strip kv.2 = ""))) secrets).
Definition install_options (secrets : dict string) (reinstalled : bool) : options :=
  {| p_release := ""; p_image := ""; p_ca_file := ""; p_insecure_http := false; p_address := ""; p_tags := "";
     p_reinstalled := reinstalled; p_keyset_json := true; p_password := default "" (dget PROVIDER_PASSWORD secrets);
     p_adopt := pinned secrets; p_outside_checks := true |}.
(** [start_install], up to its thread. *)
Definition start_install (i : nat) (reinstalled : bool) : M unit :=
  change_run i (λ l, on_log (λ _, []) (on_run (with_state STATE_INSTALLING) l));;
  save_run i;;
  l ← get_run i;
  modify (set_jobs (λ js, js ++ [{| j_of := i; j_options := install_options (r_secrets (l_run l)) reinstalled |}])%list).

(** A block of passwords: the values of its first line, a JSON object. *)
Definition keyset_of (block : list string) : res (option (dict string)) :=
  match block with
  | [] => Ok None
  | first :: _ =>
      v ← loads first;
      match v with VDict d => Ok (Some (map (λ kv, (kv.1, py_str kv.2)) d)) | _ => Raise AttributeError end
  end.
(** What an install wrote: its lines, then its blocks.  A block that is no
    JSON object ends the thread. *)
Definition fresh_output : output_state := {| o_lines := []; o_keysets := []; o_block := None |}.
Definition take_keyset (i : nat) (block : list string) : M unit :=
  k ← on_net (Remote.pure (keyset_of block));
  match k with Some k => change_run i (with_keyset k) | None => mret tt end.
Fixpoint take_keysets (i : nat) (blocks : list (list string)) : M unit :=
  match blocks with [] => mret tt | b :: blocks => take_keyset i b;; take_keysets i blocks end.
Definition take_output (i : nat) : M unit :=
  o ← gets (λ s, page (net s));
  change_run i (on_log (λ log, foldl tail_add log (map strip_colours (o_lines o))));;
  take_keysets i (o_keysets o).
Definition clear_output : M unit := on_net (modify (set_page (λ _, fresh_output))).

(** The thread of an install, from its options to its end. *)
Definition install_body (i : nat) (o : options) : M unit :=
  clear_output;;
  l ← get_run i;
  r ← (λ s, match on_net (install (r_path (l_run l)) o) s with
            | (inl (OfNet f), s) => if is_remote f then (inr (inl f), s) else (inl (OfNet f), s)
            | (inl f, s) => (inl f, s)
            | (inr rc, s) => (inr (inr rc), s)
            end : (fault + (Remote.fault + Z)) * site);
  take_output i;;
  rc ← (match r with inl f => say i ("catena-installer: " +:+ strip_colours (fault_text f));; mret 1%Z | inr rc => mret rc end);
  change_run i (on_run (with_state (if bool_decide (rc = 0%Z) then STATE_DONE else STATE_FAILED)));;
  save_run i;;
  if bool_decide (rc = 0%Z) then
    text ← open_forward i;
    if bool_decide (text = "") then mret tt else say i ("catena-installer: the panel forward did not open: " +:+ text)
  else mret tt.

(** ** Requests *)

Definition install_root (name : string) : string := join_path root name.
Definition open_inventory (name : string) : M response :=
  let path := install_root name in
  secret_keys ← on_net (λ w, match secret_keys_from (VDict doc) with Ok l => (inr l, w) | Raise e => (inl (Other (exn_text e)), w) end);
  r ← on_disk (load path secret_keys);
  there ← on_disk (InstallRun.ask (is_dir path));
  (if (there : bool) then mret tt else on_disk (save knobs r));;
  n ← gets (λ s, length (runs s));
  modify (set_runs (λ l, l ++ [{| l_run := r; l_log := []; l_keyset := []; l_forward := None |}])%list);;
  modify (set_current (Some n));; modify (set_checks []);; mret (Redirect "/" "").

Definition post_inventory (form : dict (list string)) : M response :=
  let opened := strip (form_value "open" "" form) in
  if negb (bool_decide (opened = "")) then
    names ← on_disk (InstallRun.ask (inventory_names root));
    if bool_decide (opened ∈ names) then open_inventory opened
    else modify (set_problem (Some ("inventory.problem.unknown", opened)));; mret (Redirect "/inventory" "")
  else
    let name := strip (form_value "create" "" form) in
    there ← (if inventory_name_match name then on_disk (InstallRun.ask (path_there (install_root name))) else mret false);
    let why := inventory_name_problem name (λ _, there) in
    if bool_decide (why = "") then open_inventory name
    else modify (set_problem (Some ("inventory.problem." +:+ why, name)));; mret (Redirect "/inventory" "").

(** The form saved, every section verified, the install started when none
    blocks. *)
Definition post_install (i : nat) (lang : string) (form : dict (list string)) : M response :=
  l ← get_run i;
  let '(r, private) := file_form form (l_run l) in
  change_run i (on_run (λ _, r));;
  make_key i form (r_answers r);;
  checks ← verify all_steps r (shown_values r) lang private (bool_decide (form_value REINSTALLED "" form = "yes"));
  modify (set_checks checks);;
  save_run i;;
  (if blocked checks then mret tt else start_install i (bool_decide (form_value REINSTALLED "" form = "yes")));;
  mret (Redirect "/#install" "").

(** What [do_POST] looks at before it reads the form of an install. *)
Definition post_gate (path : string) : M (response + nat) :=
  if negb (bool_decide (path ∈ ["/"; "/connect"])) then mret (inl (NotFound "")) else
  c ← gets current;
  match c with
  | None => mret (inl (Redirect "/inventory" ""))
  | Some i =>
      if bool_decide (path = "/connect") then
        text ← open_forward i;
        (if bool_decide (text = "") then mret tt else say i ("catena-installer: the panel forward did not open: " +:+ text));;
        mret (inl (Redirect "/#access" ""))
      else
        l ← get_run i;
        if bool_decide (r_state (l_run l) = STATE_INSTALLING) then mret (inl (Redirect "/#install" "")) else mret (inr i)
  end.
Definition do_POST (lang path : string) (form : dict (list string)) : M response :=
  if bool_decide (path = "/inventory") then post_inventory form else
  g ← post_gate path;
  match g with
  | inl (NotFound _) => mret (NotFound lang)
  | inl r => mret r
  | inr i => post_install i lang form
  end.

Definition do_GET (chosen cookie accept path : string) : M response :=
  if bool_decide (chosen ∈ LANGS) then
    mret (Redirect path (LANG_COOKIE +:+ "=" +:+ chosen +:+ "; Path=/; SameSite=Strict; Max-Age=31536000"))
  else
  let lang := resolve "" cookie accept in
  c ← gets current;
  if bool_decide (path = "/") then
    match c with None => mret (Redirect "/inventory" "") | Some i => mret (InstallPage lang i) end
  else if bool_decide (path = "/inventory") then
    p ← gets problem; modify (set_problem None);; mret (InventoryPage lang p)
  else
    match c with
    | Some i =>
        if bool_decide (path = "/progress") then
          l ← get_run i; k ← on_net (Remote.pure (keyset_shown l lang));
          mret (Progress (VDict [("state", VStr (r_state (l_run l))); ("log", VStr (sjoin newline_str (l_log l))); ("keyset", VDict (texts_of k))]))
        else mret (NotFound lang)
    | None => mret (NotFound lang)
    end.

(** * The page's life *)

(** A request at a time, and the ends of installs. *)
Inductive step_to : site → site → Prop :=
  | step_post lang path form s r s' : do_POST lang path form s = (r, s') → step_to s s'
  | step_get chosen cookie accept path s r s' : do_GET chosen cookie accept path s = (r, s') → step_to s s'
  | step_end s js1 j js2 r s' : jobs s = (js1 ++ j :: js2)%list →
      install_body (j_of j) (j_options j) (set_jobs (λ _, js1 ++ js2)%list s) = (r, s') → step_to s s'.
Definition served : site → site → Prop := rtc step_to.
End page.
#[global] Arguments site D E : clear implicits.
