(* ===== verification/InstallPageFacts.v ===== *)
(** Facts of [InstallPage]: which request starts an install, and that a run
    has at most one. *)
From S2P Require Import Prelude PyStr PyNum PyVal Json Effects EnvFile Host RenderKnobs Seed.
From S2P Require Import SeedFacts I18n Remote RemoteFacts Checks Install InstallFacts InstallRun InstallRunFacts InstallSteps InstallStepsFacts InstallPage.

#[local] Open Scope string_scope.

Section calm.
Context {D E : Type} {host : Host.Outside D} {proc : Process D} {rooms : Rooms D} {remote : Remote.Outside E} {probes : Probes E} {local : Local E}
  {desk : Desk E} {maker : KeyMaker E} {texts : Texts}.
Context (knobs : asked) (doc : dict val) (root : string) (all_steps : list step).
#[local] Abbreviation M := (ST (site D E) fault).

Definition state_of (s : site D E) (i : nat) : string := r_state (l_run (default no_run (runs s !! i))).

(** Steps that start and end no install: the runs keep their states, but for
    some, and new runs may be opened. *)
Record calm (but : nat → Prop) (s s' : site D E) : Prop := {
  calm_jobs : jobs s' = jobs s;
  calm_length : (length (runs s) ≤ length (runs s'))%nat;
  calm_states : ∀ k, ¬ but k → (k < length (runs s))%nat → state_of s' k = state_of s k;
  calm_current : ∀ i, current s' = Some i → current s = Some i ∨ (i < length (runs s'))%nat
}.
#[export] Instance calm_preorder but : PreOrder (calm but).
Proof.
  split; [split; auto|]. intros s1 s2 s3 [J1 L1 S1 C1] [J2 L2 S2 C2]. split; [congruence|lia| |].
  - intros k Hk Hlen. rewrite S2, S1; [done..|lia].
  - intros i Hi. destruct (C2 i Hi) as [H|H]; [|by right]. destruct (C1 i H) as [?|?]; [by left|right; lia].
Qed.
#[local] Abbreviation ca but := (runs_in (calm but)).

Lemma ca_disk but {A} (c : ST (@Host.world D) Host.fault A) : ca but (on_disk c : M A).
Proof. intros s r s' H. unfold on_disk in H. destruct (c (disk s)). apply pair_equal_spec in H as [_ <-]. split; auto. Qed.
Lemma ca_net but {A} (c : ST (Remote.world E output_state) Remote.fault A) : ca but (on_net c : M A).
Proof. intros s r s' H. unfold on_net in H. destruct (c (net s)). apply pair_equal_spec in H as [_ <-]. split; auto. Qed.
Lemma ca_gets but {A} (f : site D E → A) : ca but (gets f : M A).
Proof. apply runs_gets; apply _. Qed.
(** A change of one run object. *)
Lemma change_run_calm (but : nat → Prop) i f (s : site D E) r s' : change_run i f s = (r, s') →
  (but i ∨ r_state (l_run (f (default no_run (runs s !! i)))) = state_of s i) → calm but s s'.
Proof.
  intros H Hf. apply pair_equal_spec in H as [_ <-]. split; cbn; [done|by rewrite length_alter| |auto].
  intros k Hk Hlen. unfold state_of. cbn. destruct (decide (i = k)) as [->|Hne]; [|by rewrite list_lookup_alter_ne].
  rewrite list_lookup_alter_eq. destruct Hf as [?|Hf]; [done|]. unfold state_of in Hf.
  apply lookup_lt_is_Some in Hlen as [l Hl]. rewrite Hl in *. exact Hf.
Qed.
Lemma ca_change but i f : (∀ l, r_state (l_run (f l)) = r_state (l_run l)) → ca but (change_run i f : M unit).
Proof. intros Hf s r s' H. eapply change_run_calm; [exact H|]. right. apply Hf. Qed.
Lemma ca_own (but : nat → Prop) i f : but i → ca but (change_run i f : M unit).
Proof. intros Hi s r s' H. eapply change_run_calm; [exact H|by left]. Qed.
Lemma ca_checks but c : ca but (modify (set_checks c) : M unit).
Proof. intros s r s' H. apply pair_equal_spec in H as [_ <-]. split; auto. Qed.
Lemma ca_problem but p : ca but (modify (set_problem p) : M unit).
Proof. intros s r s' H. apply pair_equal_spec in H as [_ <-]. split; auto. Qed.
Lemma ca_catch but {A} (c : M A) h : ca but c → (∀ f, ca but (h f)) → ca but (catch c h).
Proof. intros. apply runs_catch; auto. apply _. Qed.
End calm.
Create HintDb calm discriminated.
#[export] Hint Resolve ca_disk ca_net ca_gets ca_change ca_checks ca_problem : calm.
Ltac calm_walk :=
  repeat first
    [ progress intros
    | solve [eauto with calm]
    | apply runs_ret; apply _ | apply runs_throw; apply _
    | apply runs_bind; [apply _| |] | apply ca_catch
    | match goal with |- runs_in _ (match ?x with _ => _ end) => destruct x end ].

Section page.
Context {D E : Type} {host : Host.Outside D} {proc : Process D} {rooms : Rooms D} {remote : Remote.Outside E} {probes : Probes E} {local : Local E}
  {desk : Desk E} {maker : KeyMaker E} {texts : Texts}.
Context (knobs : asked) (doc : dict val) (root : string) (all_steps : list step).
#[local] Abbreviation M := (ST (site D E) fault).
#[local] Abbreviation ca but := (runs_in (calm (D := D) (E := E) but)).

Lemma ca_save but i : ca but (save_run knobs i : M unit).
Proof. unfold save_run, get_run. calm_walk. Qed.
Lemma ca_say but i line : ca but (say i line : M unit).
Proof. apply ca_change. done. Qed.
#[local] Hint Resolve ca_save ca_say : calm.
Lemma ca_open_forward but i : ca but (open_forward i : M string).
Proof. unfold open_forward, get_run. calm_walk. Qed.
Lemma ca_make_key but i form answers : ca but (make_key i form answers : M unit).
Proof. unfold make_key. calm_walk. Qed.
Lemma ca_verify but l r values lang private b : ca but (verify l r values lang private b : M (list check)).
Proof. induction l as [|s l IH]; cbn [verify]; calm_walk. Qed.
Lemma ca_open_inventory but name : ca but (open_inventory knobs doc root name : M response).
Proof.
  unfold open_inventory. apply runs_bind; [apply _|calm_walk|]. intros keys. apply runs_bind; [apply _|calm_walk|]. intros r.
  apply runs_bind; [apply _|calm_walk|]. intros there. apply runs_bind; [apply _|calm_walk|]. intros ?.
  intros s res s' H. rewrite gets_bind, !modify_bind in H.
  apply pair_equal_spec in H as [_ <-]. split; cbn; [done|rewrite length_app; lia| |].
  - intros k _ Hk. unfold state_of. cbn. by rewrite lookup_app_l.
  - intros i [= <-]. right. rewrite length_app. cbn. lia.
Qed.
Lemma ca_post_inventory but form : ca but (post_inventory knobs doc root form : M response).
Proof. pose proof ca_open_inventory. unfold post_inventory. calm_walk; auto. Qed.
Lemma ca_do_GET but chosen cookie accept path : ca but (do_GET chosen cookie accept path : M response).
Proof.
  unfold do_GET, get_run. calm_walk.
Qed.

(** ** The install a request starts *)

Lemma file_field_state form st f : r_state (file_field form st f).1 = r_state st.1.
Proof. unfold file_field, answer. repeat case_match; done. Qed.
Lemma file_form_state form r : r_state (file_form all_steps form r).1 = r_state r.
Proof.
  unfold file_form. generalize (@nil string). intros private. change r with (r, private).1 at 2. generalize (r, private). intros st.
  revert st. induction (all_fields all_steps) as [|f l IH]; intros st; cbn [foldl]; [done|]. by rewrite IH, file_field_state.
Qed.

Lemma missing_fields_out {P} fields lang (w : Remote.world E P) cs w' : missing_fields fields lang w = (inr cs, w') →
  (cs = [] ∧ fields = []) ∨ blocked cs = true.
Proof.
  destruct fields as [|f fields]; cbn [missing_fields]; [intros [-> _]%ret_ok; by left|]. intros H. right.
  apply bind_ok in H as (name & w1 & _ & H). apply bind_ok in H as (label & w2 & _ & H). apply bind_ok in H as (fill & w3 & _ & H).
  apply bind_ok in H as (rest & w4 & _ & H). by apply ret_ok in H as [-> _].
Qed.
Lemma missing_fields_net {P} fields lang (w : Remote.world E P) cs w' : missing_fields fields lang w = (inr cs, w') → w' = w.
Proof.
  revert w cs w'. induction fields as [|f fields IH]; intros w cs w' H; cbn [missing_fields] in H; [by apply ret_ok in H as [_ ->]|].
  apply bind_ok in H as (name & w1 & H1 & H). apply lift_ok in H1 as [_ ->]. apply bind_ok in H as (label & w2 & H2 & H).
  apply lift_ok in H2 as [_ ->]. apply bind_ok in H as (fill & w3 & H3 & H). apply lift_ok in H3 as [_ ->].
  apply bind_ok in H as (rest & w4 & H4 & H). apply IH in H4 as ->. by apply ret_ok in H as [_ ->].
Qed.
(** Every section's probe ran, one after the other over the network, and what
    each found. *)
Fixpoint probed (lang : string) (b : bool) (answers secrets : dict string) (l : list step) (found : list (list check))
    (n n' : Remote.world E output_state) : Prop :=
  match l, found with
  | [], [] => n' = n
  | st :: l, cs :: found => ∃ n1, validate (s_name st) answers secrets lang b n = (inr cs, n1) ∧ probed lang b answers secrets l found n1 n'
  | _, _ => False
  end.
Lemma verify_probed l r values lang private b (s : site D E) cs s' :
  verify l r values lang private b s = (inr cs, s') → blocked cs = false →
  ∃ found, cs = concat found ∧ probed lang b (r_answers r) (r_secrets r) l found (net s) (net s').
Proof.
  revert s cs s'. induction l as [|st l IH]; intros s cs s' H Hb; cbn [verify] in H; [apply ret_ok in H as [-> ->]; by exists []|].
  apply bind_ok in H as (missing & s1 & Hm & H). apply bind_ok in H as (checks & s2 & Hc & H).
  apply bind_ok in H as (rest & s3 & Hr & H). apply ret_ok in H as [-> ->]. rewrite blocked_app in Hb.
  apply orb_false_iff in Hb as [Hb1 Hb2]. destruct (IH _ _ _ Hr Hb2) as (found & -> & Hp). exists (checks :: found). split; [done|].
  unfold on_net in Hm. destruct (missing_required _ _ _ _ (net s)) as [[?|ms] n] eqn:Em; [by apply pair_equal_spec in Hm as [? _]|].
  apply pair_equal_spec in Hm as [[= <-] <-]. pose proof (missing_fields_net _ _ _ _ _ Em) as ->.
  apply missing_fields_out in Em as [[-> _]|Hblocked].
  - rewrite bool_decide_true in Hc by done. unfold on_net in Hc. cbn [net] in Hc.
    destruct (validate _ _ _ _ _ (net s)) as [[?|cs'] n1] eqn:Ev; [by apply pair_equal_spec in Hc as [? _]|].
    apply pair_equal_spec in Hc as [[= ->] <-]. by exists n1.
  - rewrite bool_decide_false in Hc by by intros ->. apply ret_ok in Hc as [-> _]. congruence.
Qed.
Definition offline (s s' : site D E) : Prop := log (net s') = log (net s).
#[export] Instance offline_preorder : PreOrder offline.
Proof. split; [done|]. intros s1 s2 s3 H1 H2. unfold offline in *. congruence. Qed.
Lemma offline_net {A} (c : ST (Remote.world E output_state) Remote.fault A) : silent c → runs_in offline (on_net c : M A).
Proof. intros Hc s r s' H. unfold on_net in H. destruct (c (net s)) eqn:Ec. apply pair_equal_spec in H as [_ <-]. by apply (Hc _ _ _ Ec). Qed.
Lemma offline_make_key i form answers : runs_in offline (make_key i form answers : M unit).
Proof.
  assert (∀ key, silent (create_key key : ST (Remote.world E output_state) Remote.fault unit)) as Hk by (intros key; unfold create_key; silent_walk).
  unfold make_key. destruct (key_path answers) as [key|]; [|apply runs_ret; apply _].
  destruct (bool_decide _); [|apply runs_ret; apply _].
  apply runs_bind; [apply _|apply offline_net; silent_walk|]. intros []; [apply runs_ret; apply _|].
  apply runs_catch; [apply _|by apply offline_net|]. intros [f|f]; [apply runs_throw; apply _|].
  destruct f; try (apply runs_throw; apply _). intros s r s' [_ <-]%pair_equal_spec. done.
Qed.
(** Nothing required is left empty when nothing blocks. *)
Lemma verify_complete l r values lang private b (s : site D E) cs s' :
  verify l r values lang private b s = (inr cs, s') → blocked cs = false →
  ∀ st f, st ∈ l → f ∈ s_fields st → wanted private values f = false.
Proof.
  revert s cs s'. induction l as [|st0 l IH]; intros s cs s' H Hb st f Hst Hf; [by apply elem_of_nil in Hst|]. cbn [verify] in H.
  apply bind_ok in H as (missing & s1 & Hm & H). apply bind_ok in H as (checks & s2 & Hc & H).
  apply bind_ok in H as (rest & s3 & Hr & H). apply ret_ok in H as [-> ->]. rewrite blocked_app in Hb.
  apply orb_false_iff in Hb as [Hb1 Hb2]. apply elem_of_cons in Hst as [->|Hst]; [|by eapply IH].
  unfold on_net in Hm. destruct (missing_required _ _ _ _ (net s)) as [[?|ms] n] eqn:Em; [by apply pair_equal_spec in Hm as [? _]|].
  apply pair_equal_spec in Hm as [[= <-] _]. apply missing_fields_out in Em as [[-> Hnil]|Hblocked].
  - destruct (wanted private values f) eqn:Hw; [|done]. assert (f ∈ List.filter (wanted private values) (s_fields st0)) as Hin.
    { apply list_elem_of_In, filter_In. split; [by apply list_elem_of_In|done]. }
    rewrite Hnil in Hin. by apply elem_of_nil in Hin.
  - rewrite bool_decide_false in Hc by by intros ->. apply ret_ok in Hc as [-> _]. congruence.
Qed.

Definition run_at (s : site D E) (i : nat) : run := l_run (default no_run (runs s !! i)).
Lemma start_install_spec i b (s : site D E) r s' : start_install knobs i b s = (r, s') → (i < length (runs s))%nat →
  state_of s' i = STATE_INSTALLING ∧ last_checks s' = last_checks s ∧ net s' = net s
  ∧ (calm (λ k, k = i) s s' ∨ ∃ s1, calm (λ k, k = i) s s1 ∧
       s' = set_jobs (λ js, js ++ [{| j_of := i; j_options := install_options (r_secrets (run_at s' i)) b |}])%list s1).
Proof.
  intros H Hi. unfold start_install in H. apply bind_inv in H as [(e & H & _)|([] & s1 & H1 & H)]; [done|].
  pose proof (ca_own (λ k, k = i) i _ eq_refl _ _ _ H1) as C1.
  assert (state_of s1 i = STATE_INSTALLING ∧ last_checks s1 = last_checks s ∧ net s1 = net s) as (S1 & K1 & N1).
  { apply pair_equal_spec in H1 as [_ <-]. split; [|done]. unfold state_of. cbn. rewrite list_lookup_alter_eq.
    apply lookup_lt_is_Some in Hi as [l Hl]. by rewrite Hl. }
  assert (∀ r2 s2, save_run knobs i s1 = (r2, s2) → runs s2 = runs s1 ∧ last_checks s2 = last_checks s1 ∧ net s2 = net s1) as Hsave.
  { intros r2 s2 H2. unfold save_run, get_run in H2. rewrite gets_bind in H2. unfold on_disk in H2.
    destruct (save _ _ _). by apply pair_equal_spec in H2 as [_ <-]. }
  apply bind_inv in H as [(e & H & _)|([] & s2 & H2 & H)].
  - destruct (Hsave _ _ H) as (R2 & K2 & N2). split_and!; [unfold state_of; by rewrite R2|congruence..|]. left. etrans; [exact C1|]. by eapply ca_save.
  - destruct (Hsave _ _ H2) as (R2 & K2 & N2). unfold get_run in H. rewrite gets_bind in H.
    apply pair_equal_spec in H as [_ <-]. split_and!; [unfold state_of; cbn; by rewrite R2|cbn; congruence..|]. right. exists s2.
    split; [etrans; [exact C1|by eapply ca_save]|done].
Qed.

Definition box (k : string) (form : dict (list string)) : bool := bool_decide (form_value k "" form = "yes").
(** An install is started only by a request whose verification found nothing
    blocking. *)
Definition started (lang : string) (form : dict (list string)) (i : nat) (s s' : site D E) : Prop :=
  let filed := file_form all_steps form (run_at s i) in
  blocked (last_checks s') = false ∧ state_of s' i = STATE_INSTALLING
  ∧ (∀ st f, st ∈ all_steps → f ∈ s_fields st → wanted filed.2 (shown_values all_steps filed.1) f = false)
  ∧ (∃ found n, last_checks s' = concat found ∧ log n = log (net s)
      ∧ probed lang (box REINSTALLED form) (r_answers filed.1) (r_secrets filed.1) all_steps found n (net s'))
  ∧ ∃ s1, calm (λ k, k = i) s s1
      ∧ s' = set_jobs (λ js, js ++ [{| j_of := i; j_options := install_options (r_secrets (run_at s' i)) (box REINSTALLED form) |}])%list s1.
Lemma post_install_spec i lang form (s : site D E) r s' : post_install knobs all_steps i lang form s = (r, s') → (i < length (runs s))%nat →
  calm (λ k, k = i) s s' ∧ (state_of s' i = state_of s i ∨ state_of s' i = STATE_INSTALLING) ∨ started lang form i s s'.
Proof.
  intros H Hi. unfold post_install, get_run in H. rewrite gets_bind in H.
  destruct (file_form all_steps form (l_run (default no_run (runs s !! i)))) as [filed private] eqn:Ef.
  apply bind_inv in H as [(e & H & _)|([] & s1 & H1 & H)]; [done|].
  assert (calm (λ _, False) s s1) as C1.
  { eapply change_run_calm; [exact H1|]. right. cbn. unfold state_of.
    by rewrite <-(file_form_state form (l_run (default no_run (runs s !! i)))), Ef. }
  assert (∀ s2, calm (λ _, False) s s2 → calm (λ k, k = i) s s2 ∧ (state_of s2 i = state_of s i ∨ state_of s2 i = STATE_INSTALLING)) as Hcalm.
  { intros s2 [C1' C2 C3 C4]. split; [split; auto|]. left. apply C3; [tauto|done]. }
  apply bind_inv in H as [(e & H & _)|(? & s2 & H2 & H)]; [left; apply Hcalm; etrans; [exact C1|by eapply ca_make_key]|].
  pose proof (ca_make_key (λ _, False) _ _ _ _ _ _ H2) as C2.
  apply bind_inv in H as [(e & H & _)|(checks & s3 & H3 & H)]; [left; apply Hcalm; do 2 (etrans; [eassumption|]); by eapply ca_verify|].
  pose proof (ca_verify (λ _, False) _ _ _ _ _ _ _ _ _ H3) as C3.
  apply bind_inv in H as [(e & H & _)|([] & s4 & H4 & H)]; [done|]. pose proof (ca_checks (λ _, False) _ _ _ _ H4) as C4.
  apply bind_inv in H as [(e & H & _)|([] & s5 & H5 & H)]; [left; apply Hcalm; do 4 (etrans; [eassumption|]); by eapply ca_save|].
  pose proof (ca_save (λ _, False) _ _ _ _ H5) as C5.
  assert (calm (λ _, False) s s5) as C by (do 4 (etrans; [eassumption|]); exact C5).
  assert (last_checks s5 = checks ∧ net s5 = net s3) as [K5 N5].
  { apply pair_equal_spec in H4 as [_ <-]. unfold save_run, get_run in H5. rewrite gets_bind in H5. unfold on_disk in H5.
    destruct (save _ _ _). by apply pair_equal_spec in H5 as [_ <-]. }
  assert (log (net s2) = log (net s)) as N2.
  { rewrite (offline_make_key _ _ _ _ _ _ H2). by apply pair_equal_spec in H1 as [_ <-]. }
  destruct (blocked checks) eqn:Hb.
  { left. apply Hcalm. apply bind_inv in H as [(e & H & _)|([] & s6 & H6 & H)]; [done|]. apply ret_ok in H6 as [_ ->].
    by apply pair_equal_spec in H as [_ <-]. }
  assert (i < length (runs s5))%nat as Hi5 by (destruct C; lia).
  assert (∀ r6 s6, start_install knobs i (box REINSTALLED form) s5 = (r6, s6) →
    calm (λ k, k = i) s s6 ∧ (state_of s6 i = state_of s i ∨ state_of s6 i = STATE_INSTALLING) ∨ started lang form i s s6) as Hstart.
  { intros r6 s6 H6. destruct (start_install_spec _ _ _ _ _ H6 Hi5) as (S6 & K6 & N6 & [C6|(s7 & C7 & E7)]).
    - left. split; [|by right]. etrans; [exact (proj1 (Hcalm _ C))|exact C6].
    - right. split_and!; [congruence|done| | |].
      + unfold run_at. rewrite Ef. eapply verify_complete; [exact H3|done].
      + unfold run_at. rewrite Ef, K6, K5, N6, N5. destruct (verify_probed _ _ _ _ _ _ _ _ _ H3 Hb) as (found & Ec & Hp).
        by exists found, (net s2).
      + exists s7. split; [|exact E7]. etrans; [exact (proj1 (Hcalm _ C))|exact C7]. }
  apply bind_inv in H as [(e & H & _)|([] & s6 & H6 & H)]; [by eapply Hstart|].
  apply pair_equal_spec in H as [_ <-]. by eapply Hstart.
Qed.

(** ** A run has at most one install *)

(** The installs under way are of different runs, each of which says so. *)
Record one_install (s : site D E) : Prop := {
  oi_once : NoDup (map j_of (jobs s));
  oi_state : ∀ j, j ∈ jobs s → (j_of j < length (runs s))%nat ∧ state_of s (j_of j) = STATE_INSTALLING;
  oi_current : ∀ i, current s = Some i → (i < length (runs s))%nat
}.
Lemma one_install_calm but (s s' : site D E) : calm but s s' → (∀ j, j ∈ jobs s → ¬ but (j_of j)) → one_install s → one_install s'.
Proof.
  intros [J L S C] Hbut [Ho Hs Hc]. split; [by rewrite J| |].
  - rewrite J. intros j Hj. destruct (Hs j Hj) as [Hlen Hst]. split; [lia|]. by rewrite S by auto.
  - intros i Hi. destruct (C i Hi) as [Hi'|?]; [|done]. apply Hc in Hi'. lia.
Qed.

Lemma ca_take_output but i : ca but (take_output i : M unit).
Proof.
  assert (∀ blocks, ca but (take_keysets i blocks : M unit)) as Hk.
  { intros blocks. induction blocks as [|b l IH]; cbn [take_keysets]; unfold take_keyset; calm_walk. }
  unfold take_output. calm_walk.
Qed.
Lemma ca_install_body i o : ca (λ k, k = i) (install_body knobs i o : M unit).
Proof.
  pose proof ca_take_output. pose proof ca_open_forward. unfold install_body, clear_output, get_run.
  apply runs_bind; [apply _|calm_walk|]. intros ?. apply runs_bind; [apply _|calm_walk|]. intros l. apply runs_bind; [apply _| |].
  { intros s r s' H1. destruct (on_net _ s) as [r1 s1] eqn:E1. pose proof (ca_net (λ k, k = i) _ _ _ _ E1) as C1.
    destruct r1 as [[f|f]|rc]; [|destruct (is_remote f)|]; by apply pair_equal_spec in H1 as [_ <-]. }
  intros r. calm_walk; auto. by apply ca_own.
Qed.

Lemma post_gate_inv path (s : site D E) i s' : post_gate path s = (inr (inr i), s') →
  s' = s ∧ path = "/" ∧ current s = Some i ∧ state_of s i ≠ STATE_INSTALLING.
Proof.
  unfold post_gate. case_bool_decide as Hp; cbn [negb]; [|done]. rewrite gets_bind. destruct (current s) as [c|]; [|done].
  case_bool_decide as Hc.
  { intros (? & s1 & _ & H)%bind_ok. apply bind_ok in H as (? & s2 & _ & H). done. }
  unfold get_run. rewrite gets_bind. case_bool_decide as Hst; [done|]. intros H. apply pair_equal_spec in H as [[= <-] <-].
  split_and!; [done| |done|done]. apply elem_of_cons in Hp as [?|Hp]; [done|]. by apply list_elem_of_singleton in Hp.
Qed.
Lemma ca_post_gate but path : ca but (post_gate path : M (response + nat)).
Proof. pose proof ca_open_forward. unfold post_gate, get_run. calm_walk; auto. Qed.

(** What a POST comes to. *)
Lemma do_POST_spec lang path form (s : site D E) r s' : do_POST knobs doc root all_steps lang path form s = (r, s') → one_install s →
  calm (λ _, False) s s'
  ∨ ∃ i, path = "/" ∧ current s = Some i ∧ state_of s i ≠ STATE_INSTALLING ∧ (i < length (runs s))%nat
      ∧ (calm (λ k, k = i) s s' ∨ started lang form i s s').
Proof.
  unfold do_POST. intros H Ho. case_bool_decide; [left; by eapply ca_post_inventory|].
  apply bind_inv in H as [(e & H & _)|([g|i] & s1 & H1 & H)].
  - left. by eapply ca_post_gate.
  - left. pose proof (ca_post_gate (λ _, False) _ _ _ _ H1). destruct g; by apply pair_equal_spec in H as [_ <-].
  - apply post_gate_inv in H1 as (-> & -> & Hc & Hst). right. exists i. pose proof (oi_current _ Ho i Hc) as Hi. split_and!; [done..|].
    destruct (post_install_spec _ _ _ _ _ _ H Hi) as [[? _]|?]; [by left|by right].
Qed.


(** Claim C9: with a request at a time, no run ever has two installs: whatever
    requests come and installs end, the installs under way are of different
    runs, and each of these says it is installing. *)
Theorem one_install_per_run (s s' : site D E) :
  served knobs doc root all_steps s s' → one_install s → one_install s'.
Proof.
  induction 1 as [s|s s1 s2 Hs _ IH]; [done|]. intros Ho. apply IH. clear IH.
  destruct Hs as [lang path form s r s' H|chosen cookie accept path s r s' H|s js1 j js2 r s' Hj H].
  - destruct (do_POST_spec _ _ _ _ _ _ H Ho) as [C|(i & _ & Hc & Hst & Hi & [C|(_ & Hs & _ & _ & s1 & C & Es)])].
    + by eapply one_install_calm; [exact C|auto|].
    + eapply one_install_calm; [exact C| |done]. intros j Hj Hji. destruct (oi_state _ Ho j Hj) as [_ ?]. congruence.
    + assert (∀ j, j ∈ jobs s → j_of j ≠ i) as Hne by (intros j Hj Hji; destruct (oi_state _ Ho j Hj) as [_ ?]; congruence).
      pose proof (one_install_calm _ _ _ C Hne Ho) as [Ho1 Hs1 Hc1]. destruct C as [J L S _].
      assert (∀ k, state_of s' k = state_of s1 k) as Hsame by by intros k; rewrite Es.
      assert (runs s' = runs s1) as Hr by by rewrite Es. split.
      * rewrite Es. cbn. rewrite J, map_app. apply NoDup_app. split_and!; [by destruct Ho| |by repeat constructor; set_solver].
        intros k (j & -> & Hj)%list_elem_of_fmap Hk. apply list_elem_of_singleton in Hk. by apply (Hne j Hj).
      * intros j Hj. rewrite Hr, Hsame. rewrite Es in Hj. cbn in Hj. apply elem_of_app in Hj as [Hj|Hj]; [by apply Hs1|].
        apply list_elem_of_singleton in Hj as ->. cbn. split; [lia|]. by rewrite <-Hsame.
      * intros k Hk. rewrite Hr. apply Hc1. by rewrite Es in Hk.
  - eapply one_install_calm; [by eapply (ca_do_GET (λ _, False))|auto|done].
  - destruct Ho as [Ho Hs Hc]. rewrite Hj, map_app in Ho. cbn in Ho. apply NoDup_app in Ho as (N1 & N2 & N3).
    apply NoDup_cons in N3 as [N3 N4]. eapply one_install_calm; [by eapply ca_install_body| |split; cbn].
    + cbn. intros k Hk Hkj. apply elem_of_app in Hk as [Hk|Hk].
      * apply (N2 (j_of j)); [|by left]. rewrite <-Hkj. by apply list_elem_of_fmap_2.
      * apply N3. rewrite <-Hkj. by apply list_elem_of_fmap_2.
    + rewrite map_app. apply NoDup_app. split_and!; [done| |done]. intros k Hk1 Hk2. apply (N2 k Hk1). by right.
    + intros k Hk. apply (Hs k). rewrite Hj. apply elem_of_app in Hk as [?|?]; apply elem_of_app; [by left|right; by right].
    + exact Hc.
Qed.
End page.

(** * Witnesses, and what the theorems leave open *)

Module Desktop.
#[export] Instance rooms : Rooms (list string) := {
  is_dir _ e := (true, e); inventory_names _ e := (["prod"], e); path_there _ e := (false, e) }.
#[export] Instance maker : KeyMaker unit := {
  key_exists _ e := (true, e); keygen_there := true; make_parent _ e := (None, e); keygen_pair _ e := ((0%Z, ""), e) }.
#[export] Instance local : Local unit := {
  read_local p e := (inr (if startswith p "/inv/prod/.env" then "HOST_PUBLIC_IP=203.0.113.7" +:+ newline_str +:+ "SSH_PRIVATE_KEY=/k" else "ssh-ed25519 AAAA me"), e);
  is_file p e := (negb (startswith p "/inv"), e); safe_load _ := Ok VNone; safe_dump _ := ""; expanduser s := s;
  TREE := "/t"; STARTER := "/t/starter.sh"; DEFAULT_KEY := "/k" }.
Definition ask_for (key : string) (secret optional : bool) : field := {| f_key := key; f_label := [("en", VStr key)]; f_secret := secret;
  f_optional := optional; f_options := []; f_default := ""; f_help := [("en", VStr "")]; f_example := ""; f_suggestions := []; f_choice := [] |}.
Definition page_steps : list step := [{| s_name := "target"; s_title := []; s_doc := []; s_note := [];
  s_fields := [ask_for "HOST_PUBLIC_IP" false false; ask_for "SSH_PRIVATE_KEY" false false; ask_for PROVIDER_PASSWORD true true] |}].
Definition opened_run : live := {| l_run := {| r_path := "/inv/prod"; r_answers := []; r_secrets := []; r_secret_keys := ["admin_password"];
  r_state := STATE_ANSWERING; r_started := float_near 0 |}; l_log := []; l_keyset := []; l_forward := None |}.
Definition site0 : site (list string) unit := {| runs := [opened_run]; current := Some 0; last_checks := []; problem := None; jobs := [];
  disk := SeedFacts.Sample.fresh_world; net := InstallFacts.Sample.world0 |}.
Definition filled : dict (list string) := [("HOST_PUBLIC_IP", ["203.0.113.7"]); ("SSH_PRIVATE_KEY", ["/k"]); (PROVIDER_PASSWORD, ["s3cret"])].
(** The sample server, answering commands by [answers]. *)
Definition net_answering (answers : string → list string * ending) : Remote.Outside unit := {|
  lookup _ _ := inr [InstallFacts.Sample.host_key]; run_keygen text _ e := (inr text, e); fingerprint := k_blob; base64 := k_blob;
  key_types := ["ssh-ed25519"]; refuses_io e := (None, e); has_keygen := true; connects _ _ e := (None, e);
  start_client _ _ e := (inr InstallFacts.Sample.host_key, e); auth_publickey _ _ _ e := (None, e); auth_password _ _ _ e := (None, e);
  load_private p e := (inr p, e); execute _ command e := (answers command, e); decode s := s;
  put_file _ _ _ e := (inr 0%Z, e); open_shell _ e := (None, e); type_line _ _ e := (None, e);
  expects _ _ _ e := (inr 0, e); token_hex _ e := ("00", e); choice _ e := (0, e); exn_text _ := "error" |}.
(** One whose install prints its passwords as the JSON line the page asks for. *)
Definition quoted (s : string) : string := String dquote (s +:+ String dquote "").
Definition json_net : Remote.Outside unit := net_answering (λ command,
  if scontains "--leg system" command then
    ([KEYSET_BEGIN +:+ newline_str +:+ "{" +:+ quoted "panel" +:+ ": " +:+ quoted "correct horse" +:+ "}" +:+ newline_str +:+
      KEYSET_END +:+ newline_str +:+ "done" +:+ newline_str], Exited 0)
  else InstallFacts.Sample.answer command).
(** A server whose connection is lost as a command starts. *)
Definition broken_net : Remote.Outside unit := net_answering (λ _, ([], Broke (SshError false "SSH session not active"))).
End Desktop.
#[local] Existing Instances SeedFacts.Sample.outside_sample Saved.process_sample Desktop.rooms InstallFacts.Sample.probes Desktop.local
  Probe.desk Desktop.maker Probe.words.

Section sample.
#[local] Existing Instance Desktop.json_net.

Definition posted : (fault + response) * site (list string) unit :=
  do_POST SeedFacts.Sample.knobs [] "/inv" Desktop.page_steps "en" "/" Desktop.filled Desktop.site0.
Example posted_starts : posted.1 = inr (Redirect "/#install" "") ∧ map (λ j, (j_of j, p_password (j_options j))) (jobs posted.2) = [(0, "s3cret")].
Proof. by vm_compute. Qed.

Lemma site0_one : one_install Desktop.site0.
Proof.
  split; [exact (NoDup_nil_2)|intros j Hj; exfalso; exact (not_elem_of_nil j Hj)|].
  intros i Hi. injection Hi as <-. exact (Nat.lt_0_1).
Qed.

Lemma one_install_per_run_witness : one_install posted.2.
Proof.
  apply (one_install_per_run SeedFacts.Sample.knobs [] "/inv" Desktop.page_steps Desktop.site0 posted.2).
  - apply rtc_once. apply (step_post _ _ _ _ "en" "/" Desktop.filled _ posted.1). unfold posted. apply surjective_pairing.
  - exact site0_one.
Defined.

(** The server answers each request in a thread of its own, and nothing keeps
    two of them apart: when both look at the run's state before either has
    verified its form, both start its install. *)
Definition two_at_once : site (list string) unit :=
  let s1 := (post_gate (D := list string) (E := unit) "/" Desktop.site0).2 in
  let s2 := (post_gate (D := list string) (E := unit) "/" s1).2 in
  let s3 := (post_install SeedFacts.Sample.knobs Desktop.page_steps 0 "en" Desktop.filled s2).2 in
  (post_install SeedFacts.Sample.knobs Desktop.page_steps 0 "en" Desktop.filled s3).2.
Example two_installs_of_one_run : map j_of (jobs two_at_once) = [0; 0].
Proof. by vm_compute. Qed.

(** An inventory opened again while its install runs is another run object:
    the install's end is told to the first, and the one shown installs for
    ever. *)
Definition reopened : site (list string) unit :=
  (do_POST SeedFacts.Sample.knobs [] "/inv" Desktop.page_steps "en" "/inventory" [("open", ["prod"])] posted.2).2.
Example reopened_never_ends :
  match jobs reopened with
  | [j] => let ended := (install_body SeedFacts.Sample.knobs (j_of j) (j_options j) (set_jobs (λ _, []) reopened)).2 in
           map (λ i, state_of ended i) [0; 1] = [STATE_DONE; STATE_INSTALLING] ∧ current ended = Some 1
  | _ => False
  end.
Proof. by vm_compute. Qed.
End sample.

Section broken.
#[local] Existing Instance Desktop.broken_net.
(** An exception of the SSH library that is none of the module's own ends the
    thread, and the run says it is installing for as long as the page lives. *)
Example lost_install_never_ends :
  let started := (start_install SeedFacts.Sample.knobs 0 false Desktop.site0).2 in
  let ended := install_body SeedFacts.Sample.knobs 0 (install_options [] false) started in
  ended.1 = inl (OfNet (SshError false "SSH session not active")) ∧ state_of ended.2 0 = STATE_INSTALLING.
Proof. by vm_compute. Qed.
End broken.
