(* ===== verification/InstallHtml.v ===== *)
(** The HTML of [installer/catena_installer/server.py]: what its pages are made
    of.  Every function is the source's, [_h] to [_render_install]; a page is
    the text that is encoded and sent.  The port of the panel's forward is
    outside. *)
From S2P Require Import Prelude PyStr PyNum PyVal Json EnvFile RenderKnobs Remote Install I18n.
From S2P Require Import InstallRun InstallSteps InstallPage.

#[local] Open Scope string_scope.

Definition quoted (s : string) : string := dquote +:+ s +:+ dquote.
(** A text of the source with its double quotes, written here as backquotes. *)
Definition source_text (s : string) : string := replace_char "`" dquote s.

Definition ISSUES_URL : string := "https://github.com/catenahq/catena-ce".
(** [i18n.NAMES] *)
Definition NAMES : dict string := [("en", "English"); ("fr", "Fran" +:+ String "231" "ais")].
Definition CHOICES : list string := GUI_CHOICES.
Definition STYLE : string := source_text
"
:root { color-scheme: light dark; --fg: #1a1a1a; --bg: #fdfdfc; --muted: #666;
        --line: #d8d8d4; --bad: #a11; --warn: #a60; --ok: #161; }
@media (prefers-color-scheme: dark) {
  :root { --fg: #e8e8e6; --bg: #17181a; --muted: #9a9a96; --line: #34363a;
          --bad: #f77; --warn: #db4; --ok: #6c6; }
}
* { box-sizing: border-box; }
body { margin: 0; font: 16px/1.6 system-ui, sans-serif; color: var(--fg);
       background: var(--bg); }
main { max-width: 46rem; margin: 0 auto; padding: 2rem 1rem 4rem; }
nav { display: flex; gap: .5rem; flex-wrap: wrap; border-bottom: 1px solid var(--line);
      padding: .75rem 1rem; }
nav a { padding: .25rem .6rem; border-radius: 4px; text-decoration: none;
        color: var(--muted); }
nav a.on { color: var(--fg); font-weight: 600; background: rgba(128,128,128,.14); }
nav .langs { margin-left: auto; display: flex; gap: .25rem; }
h1 { font-size: 1.4rem; margin: 1.5rem 0 .25rem; }
h2 { font-size: 1.15rem; margin: 0 0 .25rem; }
section { border-top: 1px solid var(--line); margin-top: 2rem; padding-top: 1.25rem; }
fieldset { border: 0; margin: 0; padding: 0; min-width: 0; }
p.doc { color: var(--muted); white-space: pre-wrap; }
.field { margin: 1rem 0 0; }
.head { display: flex; align-items: baseline; gap: .4rem; flex-wrap: wrap; }
.d { color: var(--muted); font-size: .85rem; }
.tip { position: relative; color: var(--muted); font-size: .85rem; cursor: help; }
.tip .tt { display: none; position: absolute; z-index: 10; left: 0; top: 1.5rem;
           width: min(26rem, 80vw); padding: .6rem .75rem; white-space: pre-line;
           font-size: .85rem; line-height: 1.45; color: var(--fg); background: var(--bg);
           border: 1px solid var(--line); border-radius: 4px;
           box-shadow: 0 4px 16px rgba(0,0,0,.2); }
.tip:hover .tt, .tip:focus .tt { display: block; }
.field.choice label.opt { display: block; }
.field.choice label.opt input { width: auto; margin: 0 .4rem 0 0; }
.field.choice:has(input[value=`public`]:checked) .addr { display: none; }
input, select { width: 100%; padding: .45rem .5rem; margin-top: .3rem;
                border: 1px solid var(--line); border-radius: 4px;
                background: var(--bg); color: var(--fg); font: inherit; }
button { padding: .5rem 1.1rem; font: inherit;
         border: 1px solid var(--line); border-radius: 4px; cursor: pointer;
         background: rgba(128,128,128,.12); color: var(--fg); }
.act { display: flex; align-items: center; gap: .5rem; margin-top: 1.25rem; }
ul.inv { list-style: none; padding: 0; margin: .75rem 0; }
ul.inv li { margin: 0 0 .4rem; }
ul.inv button { display: block; width: 100%; text-align: left; }
code { font-family: ui-monospace, monospace; font-size: .9rem; }
ul.checks { list-style: none; padding: 0; margin: .75rem 0 0; }
ul.checks li { padding: .2rem 0; }
ul.checks label input { width: auto; margin: 0 .4rem 0 0; }
.bad { color: var(--bad); } .warn { color: var(--warn); } .ok { color: var(--ok); }
pre { white-space: pre-wrap; border: 1px solid var(--line); border-radius: 4px;
      padding: .75rem; overflow-x: auto; }
pre.log { max-height: 60vh; overflow-y: auto; }
dl.keys { margin: 1rem 0; }
dl.keys dt { margin-top: .75rem; }
dl.keys dd { margin: .2rem 0 0; }
dl.keys code { display: block; padding: .4rem .5rem; border: 1px solid var(--line);
               border-radius: 4px; word-break: break-all; user-select: all; }
".
Definition POLL : string := source_text
"<script>
(function () {
  var log = document.getElementById(`log`);
  log.scrollTop = log.scrollHeight;
  if (log.dataset.state !== `installing`) return;
  function poll() {
    fetch(`/progress`).then(function (r) { return r.json(); }).then(function (p) {
      if (p.state !== `installing`) { location.reload(); return; }
      var atEnd = log.scrollHeight - log.scrollTop - log.clientHeight < 40;
      log.textContent = p.log;
      if (atEnd) log.scrollTop = log.scrollHeight;
      Object.keys(p.keyset).forEach(function (name) {
        var el = document.getElementById(`k-` + name);
        if (el && el.textContent !== p.keyset[name]) el.textContent = p.keyset[name];
      });
    }).catch(function () {}).then(function () { setTimeout(poll, 3000); });
  }
  setTimeout(poll, 3000);
})();
</script>".

(** [html.escape] *)
Fixpoint html_escape (s : string) : string :=
  match s with
  | EmptyString => ""
  | String a s =>
      (if bool_decide (a = "&"%char) then "&amp;"
       else if bool_decide (a = "<"%char) then "&lt;"
       else if bool_decide (a = ">"%char) then "&gt;"
       else if bool_decide (a = "034"%char) then "&quot;"
       else if bool_decide (a = "'"%char) then "&#x27;"
       else String a "") +:+ html_escape s
  end.
Definition concat_all (l : list string) : string := foldr (λ a b, a +:+ b) "" l.

Section html.
Context `{!Texts}.

(** [_h] *)
Definition h (lang key : string) (markup : dict string) : res string :=
  t ← template_of lang key; py_format markup (html_escape t).
(** [_page] *)
Definition page_html (lang title body : string) : res string :=
  t ← h lang "page.title" [("title", html_escape title)];
  Ok ("<!doctype html><html lang=" +:+ lang +:+ "><head><meta charset=utf-8><meta name=viewport content='width=device-width,initial-scale=1'><title>"
      +:+ t +:+ "</title><style>" +:+ STYLE +:+ "</style></head><body>" +:+ body +:+ "</body></html>").

(** [_nav] *)
Definition nav_link (href name text current : string) : string :=
  "<a href=" +:+ quoted href +:+ (if bool_decide (current = name) then " class=on" else "") +:+ ">" +:+ text +:+ "</a>".
Definition lang_link (lang code : string) : string :=
  "<a href=" +:+ quoted ("?lang=" +:+ code) +:+ " hreflang=" +:+ code +:+ " lang=" +:+ code
  +:+ (if bool_decide (code = lang) then " class=on" else "") +:+ ">" +:+ html_escape (default "" (dget code NAMES)) +:+ "</a>".
Definition nav_html (lang inventory on : string) : res string :=
  first ← h lang "nav.inventory" [];
  install ← (if bool_decide (inventory = "") then Ok "" else t ← h lang "nav.install" []; Ok (nav_link "/" "install" t on));
  language ← h lang "nav.language" [];
  Ok ("<nav>" +:+ nav_link "/inventory" "inventory" first on +:+ install +:+ "<span class=langs aria-label=" +:+ quoted language +:+ ">"
      +:+ concat_all (map (lang_link lang) LANGS) +:+ "</span></nav>").

(** [_tip] *)
Definition tip_html (text about : string) : string :=
  "<span class=tip tabindex=0 aria-label=" +:+ quoted (html_escape about) +:+ ">(?)<span class=tt role=tooltip>" +:+ html_escape text
  +:+ "</span></span>".

(** ** A field *)

(** The options shown: a saved value missing from them stays selected. *)
Definition choices_of (f : field) (value : string) : list string :=
  if negb (bool_decide (value = "")) && negb (bool_decide (f_options f = [])) && negb (bool_decide (value ∈ f_options f))
  then (f_options f ++ [value])%list else f_options f.
Definition option_html (lang value o : string) : res string :=
  shown ← (if bool_decide (html_escape o = "") then h lang "field.none" [] else Ok (html_escape o));
  Ok ("<option value=" +:+ quoted (html_escape o) +:+ (if bool_decide (o = value) then " selected" else "") +:+ ">" +:+ shown +:+ "</option>").
Definition input_html (f : field) (value : string) : string :=
  let key := html_escape (f_key f) in
  "<input type=" +:+ quoted (if f_secret f then "password" else "text") +:+ " id=" +:+ quoted ("f-" +:+ key) +:+ " name=" +:+ quoted key
  +:+ " value=" +:+ quoted (html_escape value)
  +:+ (if bool_decide (f_example f = "") then "" else " placeholder=" +:+ quoted (html_escape (f_example f)))
  +:+ (if bool_decide (f_suggestions f = []) then "" else " list=" +:+ quoted ("s-" +:+ key))
  +:+ " autocomplete=" +:+ quoted "off" +:+ ">"
  +:+ (if bool_decide (f_suggestions f = []) then ""
       else "<datalist id=" +:+ quoted ("s-" +:+ key) +:+ ">"
            +:+ concat_all (map (λ s, "<option value=" +:+ quoted (html_escape s) +:+ ">") (f_suggestions f)) +:+ "</datalist>").
Definition control_html (f : field) (value lang : string) : res string :=
  let key := html_escape (f_key f) in
  match choices_of f value with
  | [] => Ok (input_html f value)
  | choices =>
      opts ← mapM_res (option_html lang value) choices;
      Ok ("<select id=" +:+ quoted ("f-" +:+ key) +:+ " name=" +:+ quoted key +:+ ">" +:+ concat_all opts +:+ "</select>")
  end.
Definition radio_html (f : field) (value lang option : string) : res string :=
  labels ← (getitem option (f_choice f) ≫= as_dict_r);
  label ← in_lang lang labels;
  Ok ("<label class=opt><input type=radio name=" +:+ quoted (html_escape (via_name (f_key f))) +:+ " value=" +:+ quoted option
      +:+ (if bool_decide (option = if bool_decide (value = "") then "public" else "private") then " checked" else "") +:+ "> "
      +:+ html_escape label +:+ "</label>").
(** [_field_html] *)
Definition field_html (f : field) (value lang : string) : res string :=
  let key := html_escape (f_key f) in
  label ← in_lang lang (f_label f);
  control ← control_html f value lang;
  help ← in_lang lang (f_help f);
  notes ← (if f_secret f then t ← text lang "field.not_saved" []; Ok (help +:+ newline_str +:+ newline_str +:+ t) else Ok help);
  about ← text lang "field.about" [("label", label)];
  let tip := tip_html notes about in
  if negb (bool_decide (f_choice f = [])) then
    radios ← mapM_res (radio_html f value lang) CHOICES;
    Ok ("<div class=" +:+ quoted "field choice" +:+ " data-key=" +:+ quoted key +:+ ">" +:+ concat_all radios
        +:+ "<div class=addr><div class=head><label for=" +:+ quoted ("f-" +:+ key) +:+ ">" +:+ html_escape label +:+ "</label>" +:+ tip
        +:+ "</div>" +:+ control +:+ "</div></div>")
  else
    optional ← (if f_optional f then t ← h lang "field.optional" []; Ok (" <span class=d>" +:+ t +:+ "</span>") else Ok "");
    Ok ("<div class=field data-key=" +:+ quoted key +:+ "><div class=head><label for=" +:+ quoted ("f-" +:+ key) +:+ ">" +:+ html_escape label
        +:+ "</label>" +:+ optional +:+ tip +:+ "</div>" +:+ control +:+ "</div>").

(** ** The inventories *)

Definition row_html (lang current name : string) : res string :=
  now ← (if bool_decide (name = current) then t ← h lang "inventory.open_now" []; Ok (" " +:+ t) else Ok "");
  Ok ("<li><button type=submit name=open value=" +:+ quoted (html_escape name) +:+ ">" +:+ html_escape name +:+ now +:+ "</button></li>").
Definition problem_html (lang : string) (problem : option (string * string)) : res string :=
  match problem with
  | Some (key, name) => t ← h lang key [("name", html_escape (py_repr (VStr name)))]; Ok ("<p class=bad>" +:+ t +:+ "</p>")
  | None => Ok ""
  end.
(** [_inventory_html] *)
Definition inventory_html (lang : string) (names : list string) (current : string) (problem : option (string * string)) : res string :=
  rows ← mapM_res (row_html lang current) names;
  existing ← (if bool_decide (names = []) then t ← h lang "inventory.none" []; Ok ("<p class=doc>" +:+ t +:+ "</p>")
              else Ok ("<form method=post action=/inventory><ul class=inv>" +:+ concat_all rows +:+ "</ul></form>"));
  error ← problem_html lang problem;
  title ← h lang "inventory.title" []; intro ← h lang "inventory.intro" []; choose ← h lang "inventory.choose" [];
  new_name ← h lang "inventory.new_name" [];
  tip ← text lang "inventory.name_tip" []; about ← text lang "inventory.name_tip_about" [];
  create ← h lang "inventory.create" [];
  Ok ("<h1>" +:+ title +:+ "</h1><p>" +:+ intro +:+ "</p><p>" +:+ choose +:+ "</p>" +:+ existing +:+ error
      +:+ "<form method=post action=/inventory><div class=field><div class=head><label for=f-create>" +:+ new_name +:+ "</label>"
      +:+ tip_html tip about
      +:+ "</div><input type=text id=f-create name=create autocomplete=off></div><div class=act><button type=submit>" +:+ create
      +:+ "</button></div></form>").

(** ** The checks, the sections and the install *)

Definition check_html (lang : string) (c : check) : res string :=
  let class := if c_ok c then "ok" else if c_blocking c then "bad" else "warn" in
  let mark := if c_ok c then "&#10003;" else if c_blocking c then "&#10007;" else "!" in
  box ← (if bool_decide (c_confirm c = "") then Ok "" else
         t ← h lang ("confirm." +:+ c_confirm c) [];
         Ok ("<li><label><input type=checkbox name=" +:+ quoted (html_escape (c_confirm c)) +:+ " value=yes> " +:+ t +:+ "</label></li>"));
  Ok ("<li class=" +:+ class +:+ ">" +:+ mark +:+ " " +:+ html_escape (c_label c)
      +:+ (if bool_decide (c_detail c = "") then "" else ": " +:+ html_escape (c_detail c)) +:+ "</li>" +:+ box).
(** [_checks_html] *)
Definition checks_html (checks : list check) (lang : string) : res string :=
  match checks with
  | [] => Ok ""
  | _ => rows ← mapM_res (check_html lang) checks; Ok ("<ul class=checks>" +:+ concat_all rows +:+ "</ul>")
  end.
(** [values[k]] *)
Definition value_at (k : string) (values : dict string) : res string := match dget k values with Some v => Ok v | None => Raise KeyError end.
(** [_step_html] *)
Definition step_html (s : step) (values : dict string) (lang : string) : res string :=
  rows ← mapM_res (λ f, v ← value_at (f_key f) values; field_html f v lang) (s_fields s);
  note ← (if bool_decide (s_note s = []) then Ok "" else t ← in_lang lang (s_note s); Ok ("<p class=doc>" +:+ html_escape t +:+ "</p>"));
  title ← in_lang lang (s_title s); about ← in_lang lang (s_doc s);
  Ok ("<section id=" +:+ quoted (html_escape (s_name s)) +:+ "><h2>" +:+ html_escape title +:+ "</h2><p class=doc>" +:+ html_escape about +:+ "</p>"
      +:+ concat_all rows +:+ note +:+ "</section>").

(** What the state is told as: every text is made before one is chosen. *)
Definition status_of (lang state : string) : res string :=
  installing ← h lang "process.installing" []; done ← h lang "process.done" []; failed ← h lang "process.failed" [];
  if bool_decide (state = STATE_ANSWERING) then Ok ""
  else if bool_decide (state = STATE_INSTALLING) then Ok installing
  else if bool_decide (state = STATE_DONE) then Ok done
  else if bool_decide (state = STATE_FAILED) then Ok failed
  else Raise KeyError.
Definition log_html (lang : string) (l : live) : res string :=
  if negb (bool_decide (l_log l = [])) then Ok (html_escape (sjoin newline_str (l_log l)))
  else if bool_decide (r_state (l_run l) = STATE_ANSWERING) then h lang "process.empty" [] else h lang "process.reopened" [].
(** [_process_html] *)
Definition process_html (l : live) (checks : list check) (lang : string) : res string :=
  status ← status_of lang (r_state (l_run l));
  lines ← log_html lang l;
  title ← h lang "process.title" [];
  intro ← h lang "process.intro" [("issues", "<a href=" +:+ quoted ISSUES_URL +:+ ">" +:+ ISSUES_URL +:+ "</a>")];
  button ← h lang "process.button" [];
  found ← checks_html checks lang;
  Ok ("<section id=install><h2>" +:+ title +:+ "</h2><p class=doc>" +:+ intro
      +:+ "</p><div class=act><button type=submit name=install value=yes>" +:+ button +:+ "</button></div>" +:+ found
      +:+ (if bool_decide (status = "") then "" else "<p class=doc>" +:+ status +:+ "</p>")
      +:+ "<pre id=log class=log data-state=" +:+ quoted (html_escape (r_state (l_run l))) +:+ ">" +:+ lines +:+ "</pre></section>").

(** ** The way in *)

(** [_link] *)
Definition link_html (url : string) : string :=
  "<a href=" +:+ quoted (html_escape url) +:+ " target=_blank>" +:+ html_escape url +:+ "</a>".
Definition password_html (lang : string) (shown : dict string) (name : string) : res string :=
  label ← text lang ("keyset." +:+ name) [];
  tip ← (match dget ("keyset." +:+ name +:+ ".about") (default [] (dget lang TEXT)) with
         | Some about =>
             if bool_decide (about = "") then Ok "" else t ← text lang "field.about" [("label", label)]; Ok (" " +:+ tip_html about t)
         | None => Ok ""
         end);
  value ← value_at name shown;
  Ok ("<dt>" +:+ html_escape label +:+ tip +:+ "</dt><dd><code id=" +:+ quoted ("k-" +:+ name) +:+ ">" +:+ html_escape value +:+ "</code></dd>").
Definition way_in (forward_port : session → Z) (l : live) (lang : string) : res string :=
  match l_forward l with
  | Some s =>
      panel ← h lang "access.panel" [("url", link_html ("http://127.0.0.1:" +:+ str_of_int (forward_port s) +:+ "/"))];
      open ← h lang "access.forward_open" [];
      Ok ("<p>" +:+ panel +:+ "</p><p class=doc>" +:+ open +:+ "</p>")
  | None =>
      connect ← h lang "access.connect" []; about ← h lang "access.connect_about" [];
      Ok ("<form method=post action=/connect><div class=act><button type=submit>" +:+ connect +:+ "</button></div></form><p class=doc>"
          +:+ about +:+ "</p>")
  end.
(** [_access_html] *)
Definition access_html (forward_port : session → Z) (l : live) (values : dict string) (lang : string) : res string :=
  shown ← keyset_shown l lang;
  rows ← mapM_res (password_html lang shown) KEYSET_FIELDS;
  way ← way_in forward_port l lang;
  title ← h lang "access.title" []; about ← h lang "access.save" []; forward ← h lang "access.forward" []; settings ← h lang "access.settings" [];
  Ok ("<section id=access><h2>" +:+ title +:+ "</h2><p>" +:+ about +:+ "</p><dl class=keys>" +:+ concat_all rows +:+ "</dl>" +:+ way
      +:+ "<p class=doc>" +:+ forward +:+ "</p><pre>" +:+ html_escape (forward_command values) +:+ "</pre><p>" +:+ settings +:+ "</p></section>").

(** ** The pages *)

(** [_not_found] *)
Definition render_not_found (lang : string) : res string :=
  title ← text lang "page.not_found" [];
  page_html lang title ("<main><h1>" +:+ html_escape title +:+ "</h1></main>").
(** [_render_inventory] *)
Definition render_inventory (lang current : string) (names : list string) (problem : option (string * string)) : res string :=
  nav ← nav_html lang current "inventory";
  inventories ← inventory_html lang names current problem;
  title ← text lang "inventory.title" [];
  page_html lang title (nav +:+ "<main>" +:+ inventories +:+ "</main>").
(** [_render_install] *)
Definition render_install (forward_port : session → Z) (all_steps : list step) (lang : string) (l : live) (checks : list check) : res string :=
  let inventory := path_name (r_path (l_run l)) in
  let values := shown_values all_steps (l_run l) in
  sections ← mapM_res (λ s, step_html s values lang) all_steps;
  title ← text lang "install.title" [("name", inventory)];
  nav ← nav_html lang inventory "install";
  saved ← h lang "install.saved_to" [("path", "<code>" +:+ html_escape (r_path (l_run l)) +:+ "</code>")];
  process ← process_html l checks lang;
  access ← access_html forward_port l values lang;
  page_html lang title (nav +:+ "<main><h1>" +:+ html_escape title +:+ "</h1><p class=doc>" +:+ saved +:+ "</p><form method=post action="
    +:+ quoted "/" +:+ "><fieldset" +:+ (if bool_decide (r_state (l_run l) = STATE_INSTALLING) then " disabled" else "") +:+ ">"
    +:+ concat_all sections +:+ process +:+ "</fieldset></form>" +:+ access +:+ "</main>" +:+ POLL).

(** What is sent of a response: a redirect has no body, and progress is JSON. *)
Definition sent {D E : Type} (forward_port : session → Z) (all_steps : list step) (names : list string) (s : site D E) (r : response) : res string :=
  match r with
  | Redirect _ _ => Ok ""
  | InstallPage lang i =>
      match runs s !! i with Some l => render_install forward_port all_steps lang l (last_checks s) | None => Raise AttributeError end
  | InventoryPage lang problem =>
      render_inventory lang (default "" (i ← current s; l ← runs s !! i; Some (path_name (r_path (l_run l))))) names problem
  | Progress body => Ok (dumps default_style body)
  | NotFound lang => render_not_found lang
  end.
End html.
