(* ===== verification/InstallHtmlFacts.v ===== *)
(** The markup of the installer's pages does not depend on what they show: the
    answers, the install's lines, the passwords, what the checks found and the
    names of inventories are text and attribute values of the page, and never
    its tags. *)
From S2P Require Import Prelude PyStr PyNum PyVal EnvFile RenderKnobs Remote Install I18n.
From S2P Require Import SeedFacts InstallFacts InstallRun InstallRunFacts InstallSteps InstallStepsFacts InstallPage InstallPageFacts InstallHtml.

#[local] Open Scope string_scope.

(** ** The markup of a text *)

(** Where a reader of HTML is: between tags, in a tag, or in a quoted value of
    one. *)
Inductive place := Text | Tag | Value.

(** The place after a text, and its markup: what is in its tags, the quoted
    values left out. *)
Fixpoint markup (p : place) (s : string) : place * string :=
  match s with
  | EmptyString => (p, "")
  | String a s =>
      match p with
      | Text => if bool_decide (a = "<"%char) then let '(q, x) := markup Tag s in (q, String a x) else markup Text s
      | Tag =>
          let '(q, x) := markup (if bool_decide (a = ">"%char) then Text else if bool_decide (a = "034"%char) then Value else Tag) s in
          (q, String a x)
      | Value => if bool_decide (a = "034"%char) then let '(q, x) := markup Tag s in (q, String a x) else markup Value s
      end
  end.
Example markup_of_link :
  markup Text ("a <a href=" +:+ quoted "/x>" +:+ " class=on>b > c</a>") = (Text, "<a href=" +:+ quoted "" +:+ " class=on></a>").
Proof. by vm_compute. Qed.

(** Two texts of the same markup, read from [p], that end at [q]. *)
Definition like (p : place) (a b : string) (q : place) : Prop := markup p a = markup p b ∧ (markup p a).1 = q.

Lemma markup_app p a b :
  markup p (a +:+ b) = let '(q, x) := markup p a in let '(r, y) := markup q b in (r, x +:+ y).
Proof.
  revert p. induction a as [|c a IH]; intros p; cbn [markup String.append].
  - by destruct (markup p b).
  - destruct p; repeat case_bool_decide; rewrite IH;
      repeat match goal with |- context [let '(_, _) := markup ?p ?s in _] => destruct (markup p s) end; reflexivity.
Qed.
Lemma like_app p q r a b c d : like p a b q → like q c d r → like p (a +:+ c) (b +:+ d) r.
Proof.
  intros [E1 Q1] [E2 Q2]. unfold like. rewrite !markup_app, <- E1. destruct (markup p a) as [q' x]. simpl in Q1. subst q'.
  rewrite <- E2. split; [done|]. destruct (markup q c). exact Q2.
Qed.
Lemma like_same p q s x : markup p s = (q, x) → like p s s q.
Proof. intros E. split; [done|by rewrite E]. Qed.
Lemma like_concat p l k : Forall2 (λ a b, like p a b p) l k → like p (concat_all l) (concat_all k) p.
Proof. intros H. induction H; [by eapply like_same|]. simpl. eapply like_app; eauto. Qed.

(** ** Text with nothing of HTML in it *)

Definition quiet_char (a : ascii) : bool := negb (bool_decide (a = "<"%char ∨ a = ">"%char ∨ a = "034"%char)).
Lemma markup_quiet p s : sforall quiet_char s = true → p ≠ Tag → markup p s = (p, "").
Proof.
  intros H Hp. induction s as [|a s IH]; [done|]. simpl in H. apply andb_true_iff in H as [Ha H].
  apply negb_true_iff, bool_decide_eq_false in Ha. cbn [markup]. destruct p; [|done|]; rewrite bool_decide_false by tauto; auto.
Qed.
Lemma like_quiet p a b : sforall quiet_char a = true → sforall quiet_char b = true → p ≠ Tag → like p a b p.
Proof. intros Ha Hb Hp. unfold like. by rewrite !markup_quiet. Qed.
Lemma html_escape_quiet s : sforall quiet_char (html_escape s) = true.
Proof.
  induction s as [|a s IH]; [done|]. cbn [html_escape]. rewrite sforall_app, IH, andb_true_r.
  repeat case_bool_decide; try done. simpl. rewrite andb_true_r. apply negb_true_iff, bool_decide_eq_false. tauto.
Qed.
Lemma html_escape_blank s : html_escape s = "" ↔ s = "".
Proof. destruct s as [|a s]; [done|]. cbn [html_escape]. repeat case_bool_decide; split; discriminate. Qed.
Lemma like_escape p a b : p ≠ Tag → like p (html_escape a) (html_escape b) p.
Proof. apply like_quiet; apply html_escape_quiet. Qed.
Lemma like_quoted a b : like Value a b Value → like Tag (quoted a) (quoted b) Tag.
Proof. intros H. unfold quoted. eapply like_app; [by eapply like_same|]. eapply like_app; [exact H|by eapply like_same]. Qed.

(** ** Results that agree *)

(** Both raise the same, or both are there and [R]. *)
Definition agree {A B} (R : A → B → Prop) (a : res A) (b : res B) : Prop :=
  match a, b with Ok x, Ok y => R x y | Raise e, Raise e' => e = e' | _, _ => False end.
Lemma agree_bind {A B C D} (R : A → B → Prop) (Q : C → D → Prop) a b f g :
  agree R a b → (∀ x y, R x y → agree Q (f x) (g y)) → agree Q (a ≫= f) (b ≫= g).
Proof. destruct a, b; simpl; try done; auto. Qed.
Lemma agree_refl {A} (R : A → A → Prop) a : (∀ x, R x x) → agree R a a.
Proof. destruct a; simpl; auto. Qed.
Lemma agree_mono {A B} (R Q : A → B → Prop) a b : (∀ x y, R x y → Q x y) → agree R a b → agree Q a b.
Proof. destruct a, b; simpl; auto. Qed.
Lemma agree_mapM {A B C D} (R : C → D → Prop) (f : A → res C) (g : B → res D) l k :
  Forall2 (λ x y, agree R (f x) (g y)) l k → agree (Forall2 R) (mapM_res f l) (mapM_res g k).
Proof.
  intros H. induction H as [|x y l k Hxy _ IH]; [constructor|]. simpl.
  eapply agree_bind; [exact Hxy|]. intros c d Hcd. eapply agree_bind; [exact IH|]. intros cs ds Hs. by constructor.
Qed.
Definition any {A B} (_ : A) (_ : B) : Prop := True.
Abbreviation liken p := (λ a b, like p a b p).

(** A template filled twice by the same names. *)
Definition fillers (S : string → string → Prop) (m n : dict string) : Prop := ∀ k, option_Forall2 S (dget k m) (dget k n).
Lemma fillers_nil S : fillers S [] [].
Proof. constructor. Qed.
Lemma fillers_one (S : string → string → Prop) k v w : S v w → fillers S [(k, v)] [(k, w)].
Proof. intros H k'. simpl. case_decide; constructor. exact H. Qed.

Definition doubled (c : ascii) (s : string) : option string :=
  match s with String b s => if bool_decide (b = c) then Some s else None | EmptyString => None end.
Lemma format_go_none values a s :
  format_go values None (String a s) =
    if bool_decide (a = "{"%char) then
      match doubled "{" s with Some s => t ← format_go values None s; Ok (String a t) | None => format_go values (Some "") s end
    else if bool_decide (a = "}"%char) then
      match doubled "}" s with Some s => t ← format_go values None s; Ok (String a t) | None => Raise ValueError end
    else t ← format_go values None s; Ok (String a t).
Proof.
  destruct (decide (a = "{"%char)) as [->|H1]; [|destruct (decide (a = "}"%char)) as [->|H2]].
  1,2: destruct s as [|b s]; [reflexivity|]; destruct b as [[] [] [] [] [] [] [] []]; reflexivity.
  rewrite !bool_decide_false by done. destruct a as [[] [] [] [] [] [] [] []]; try reflexivity; by destruct H1 || by destruct H2.
Qed.
Lemma format_go_some values name a s :
  format_go values (Some name) (String a s) =
    if bool_decide (a = "}"%char) then
      v ← (match dget name values with Some v => Ok v | None => Raise KeyError end); t ← format_go values None s; Ok (v +:+ t)
    else format_go values (Some (name +:+ String a "")) s.
Proof.
  destruct (decide (a = "}"%char)) as [->|H]; [reflexivity|]. rewrite bool_decide_false by done.
  destruct a as [[] [] [] [] [] [] [] []]; try reflexivity; by destruct H.
Qed.

Section format.
Context (ok : ascii → bool) (R Q : string → string → Prop) (m n : dict string).
Hypothesis R_blank : R "" "".
Hypothesis R_char : ∀ a x y, ok a = true → R x y → R (String a x) (String a y).
Hypothesis R_filler : ∀ v w x y, Q v w → R x y → R (v +:+ x) (w +:+ y).
Hypothesis filled : fillers Q m n.

Lemma format_char field a s : ok a = true → agree R (format_go m field s) (format_go n field s) →
  agree R (t ← format_go m field s; Ok (String a t)) (t ← format_go n field s; Ok (String a t)).
Proof. intros Ha H. eapply agree_bind; [exact H|]. intros x y Hxy. by apply R_char. Qed.
Lemma doubled_length c s s' : doubled c s = Some s' → ∃ a, s = String a s'.
Proof. destruct s; simpl; [done|]. case_bool_decide; [|done]. intros [= ->]. eauto. Qed.
Lemma format_agree s field : sforall ok s = true → agree R (format_go m field s) (format_go n field s).
Proof.
  remember (String.length s) as k eqn:Hk. assert (String.length s ≤ k)%nat as Hl by lia. clear Hk.
  revert s field Hl. induction k as [|k IH]; intros [|a s] field Hl H; try (simpl in Hl; lia); try (destruct field; done).
  simpl in Hl, H. apply andb_true_iff in H as [Ha H].
  assert (∀ field, agree R (format_go m field s) (format_go n field s)) as Hs by (intros ?; apply IH; [lia|done]).
  destruct field as [name|].
  - rewrite !format_go_some. case_bool_decide; [|apply Hs]. destruct (filled name); simpl; [|done].
    eapply agree_bind; [apply Hs|]. intros ???. by apply R_filler.
  - rewrite !format_go_none.
    assert (∀ c s', doubled c s = Some s' → agree R (format_go m None s') (format_go n None s')) as Hd.
    { intros c s' (b & ->)%doubled_length. simpl in Hl, H. apply andb_true_iff in H as [_ H]. apply IH; [lia|done]. }
    repeat case_bool_decide; [destruct (doubled _ s) eqn:E..|]; try done; try (apply format_char; eauto); apply Hs.
Qed.
End format.

(** Texts that mark nothing up, in a text or in a value. *)
Definition inert (a b : string) : Prop := ∀ p, p ≠ Tag → like p a b p.
Lemma inert_escape a b : inert (html_escape a) (html_escape b).
Proof. intros p. apply like_escape. Qed.

(** ** The functions of the page *)

Create HintDb page discriminated.
#[export] Hint Resolve fillers_nil fillers_one inert_escape : page.
#[export] Hint Extern 1 (any _ _) => exact I : page.
#[export] Hint Extern 1 (_ ≠ Tag) => discriminate : page.

Section page.
Context {texts : Texts}.

Lemma text_agree lang key m n : fillers any m n → agree any (text lang key m) (text lang key n).
Proof.
  intros Hf. unfold text. eapply (agree_bind eq); [by apply agree_refl|]. intros t ? <-.
  apply (format_agree (λ _, true) any any); [done..|]. by induction t.
Qed.
Lemma h_agree R lang key m n :
  R "" "" → (∀ a x y, quiet_char a = true → R x y → R (String a x) (String a y)) → (∀ v w x y, R v w → R x y → R (v +:+ x) (w +:+ y)) →
  fillers R m n → agree R (h lang key m) (h lang key n).
Proof.
  intros H1 H2 H3 Hf. unfold h. eapply (agree_bind eq); [by apply agree_refl|]. intros t ? <-.
  by apply (format_agree quiet_char R R); [..|apply html_escape_quiet].
Qed.
Lemma like_char p a x y : p ≠ Tag → quiet_char a = true → like p x y p → like p (String a x) (String a y) p.
Proof.
  intros Hp Ha Hxy. apply (like_app p p p (String a "") (String a "")); [|done]. apply like_quiet; simpl; rewrite ?Ha; done.
Qed.
Lemma h_like p lang key m n : p ≠ Tag → fillers (liken p) m n → agree (liken p) (h lang key m) (h lang key n).
Proof.
  intros Hp. apply h_agree; [by eapply like_same|..]; eauto using like_app, like_char.
Qed.
Lemma h_inert lang key m n : fillers inert m n → agree inert (h lang key m) (h lang key n).
Proof.
  apply h_agree; unfold inert; [by intros; eapply like_same|..]; eauto using like_app, like_char.
Qed.
End page.
#[export] Hint Resolve text_agree h_inert agree_mapM : page.

Lemma like_lang p lang : lang ∈ LANGS → like p lang lang p.
Proof. unfold LANGS. intros H. repeat (apply elem_of_cons in H as [-> | H]; [destruct p; by eapply like_same|]). by apply elem_of_nil in H. Qed.

(** A page's pieces, one after the other: what is given is alike, what is
    written is read; and its results, one bound after the other. *)
Ltac alike := repeat first
  [ match goal with
    | |- like _ (_ +:+ _) (_ +:+ _) _ => eapply like_app
    | |- like _ (quoted _) (quoted _) _ => apply like_quoted
    | H : like _ ?a ?b _ |- like _ ?a ?b _ => exact H
    | H : Forall2 _ ?l ?k |- like _ (concat_all ?l) (concat_all ?k) _ => exact (like_concat _ _ _ H)
    | H : inert ?a ?b |- like _ ?a ?b _ => apply H; discriminate
    | H : ?a ∈ LANGS |- like _ ?a ?a _ => exact (like_lang _ _ H)
    | |- like _ (html_escape _) (html_escape _) _ => apply like_escape; discriminate
    | |- like _ ?a ?a _ => eapply like_same; vm_compute; reflexivity
    | |- like _ _ _ _ => solve [eauto with page nocore]
    end ].
Ltac agreed := repeat match goal with
  | |- agree _ (_ ≫= _) (_ ≫= _) => eapply agree_bind; [solve [eauto with page]|intros ???; cbv beta in *]
  | |- agree _ ((if ?c then _ else _) ≫= _) ((if ?c then _ else _) ≫= _) => eapply (agree_bind (liken Text)); [destruct c|intros ???; cbv beta in *]
  | |- agree _ (h _ _ _ ≫= _) (h _ _ _ ≫= _) =>
      eapply (agree_bind (liken Text)); [apply h_like; [discriminate|apply fillers_one; solve [alike]]|intros ???; cbv beta in *]
  | |- agree _ (?a ≫= _) (?a ≫= _) => eapply (agree_bind eq); [by apply agree_refl|intros ? ? <-]
  | |- agree _ (Ok _) (Ok _) => cbn [agree]; alike
  | |- agree _ (if ?c then _ else _) (if ?c then _ else _) => destruct c
  | |- agree (liken Text) (h _ _ _) (h _ _ _) => apply h_like; [discriminate|auto with page]
  end.

Section functions.
Context {texts : Texts}.

Lemma like_rows {A} (f : A → string) l : (∀ x, like Text (f x) (f x) Text) → Forall2 (liken Text) (map f l) (map f l).
Proof. intros H. apply Forall2_fmap, Forall_Forall2_diag, Forall_forall. auto. Qed.
Lemma page_like lang t1 t2 b1 b2 : lang ∈ LANGS → like Text b1 b2 Text → agree (liken Text) (page_html lang t1 b1) (page_html lang t2 b2).
Proof. intros Hl Hb. unfold page_html. agreed. Qed.
Lemma tip_like t1 t2 a1 a2 : like Text (tip_html t1 a1) (tip_html t2 a2) Text.
Proof. unfold tip_html. alike. Qed.
Lemma link_like u1 u2 : like Text (link_html u1) (link_html u2) Text.
Proof. unfold link_html. alike. Qed.
Lemma langs_like lang : lang ∈ LANGS → like Text (concat_all (map (lang_link lang) LANGS)) (concat_all (map (lang_link lang) LANGS)) Text.
Proof. unfold LANGS at 1. intros H. repeat (apply elem_of_cons in H as [-> | H]; [by eapply like_same; vm_compute|]). by apply elem_of_nil in H. Qed.
#[local] Hint Resolve tip_like link_like : page.
Lemma nav_like lang i1 i2 on : lang ∈ LANGS → on ∈ ["inventory"; "install"] → (i1 = "" ↔ i2 = "") →
  agree (liken Text) (nav_html lang i1 on) (nav_html lang i2 on).
Proof.
  intros Hl Ho Hi. pose proof (langs_like lang Hl). unfold nav_html, nav_link. rewrite (bool_decide_ext _ _ Hi).
  repeat (apply elem_of_cons in Ho as [-> | Ho]; [agreed|]). by apply elem_of_nil in Ho.
Qed.

(** *** A field *)

(** Two values of a field, saved or not, the same of its options chosen. *)
Definition alike_in (f : field) (v w : string) : Prop := (v = "" ↔ w = "") ∧ ∀ o, o ∈ f_options f → o = v ↔ o = w.

Lemma option_like lang v w o u : (o = "" ↔ u = "") → (o = v ↔ u = w) →
  agree (liken Text) (option_html lang v o) (option_html lang w u).
Proof.
  intros Hb Hc. assert (html_escape o = "" ↔ html_escape u = "") as He by (by rewrite !html_escape_blank).
  unfold option_html. rewrite (bool_decide_ext _ _ He), (bool_decide_ext _ _ Hc). destruct (bool_decide (u = w)); agreed.
Qed.
Lemma options_like f v w lang : alike_in f v w →
  Forall2 (λ o u, agree (liken Text) (option_html lang v o) (option_html lang w u)) (choices_of f v) (choices_of f w).
Proof.
  intros [Hb Ho].
  assert (v ∈ f_options f ↔ w ∈ f_options f) as Hin by (split; intros H; [destruct (Ho v H) as [E _]; by rewrite <- (E eq_refl)|]; destruct (Ho w H) as [_ E]; by rewrite <- (E eq_refl)).
  assert (Forall2 (λ o u, agree (liken Text) (option_html lang v o) (option_html lang w u)) (f_options f) (f_options f)) as Hl.
  { apply Forall_Forall2_diag, Forall_forall. intros o Hin'. apply option_like; [done|by apply Ho]. }
  unfold choices_of. rewrite (bool_decide_ext _ _ Hb), (bool_decide_ext _ _ Hin).
  destruct (_ && _); [|exact Hl]. apply Forall2_app; [exact Hl|]. constructor; [|constructor]. by apply option_like.
Qed.
Lemma input_like f v w : like Text (input_html f v) (input_html f w) Text.
Proof.
  assert (Forall2 (liken Text) (map (λ s, "<option value=" +:+ quoted (html_escape s) +:+ ">") (f_suggestions f))
    (map (λ s, "<option value=" +:+ quoted (html_escape s) +:+ ">") (f_suggestions f))) by (apply like_rows; intros s; alike).
  unfold input_html. destruct (f_secret f), (bool_decide (f_example f = "")), (bool_decide (f_suggestions f = [])); alike.
Qed.
Lemma control_like f v w lang : alike_in f v w → agree (liken Text) (control_html f v lang) (control_html f w lang).
Proof.
  intros H. pose proof (options_like f v w lang H) as Hc. unfold control_html.
  destruct Hc as [|o u l k Ho Hl]; [apply input_like|].
  eapply agree_bind; [apply agree_mapM; by constructor|]. agreed. intros x y Hxy. agreed.
Qed.
Lemma radio_like f v w lang option : option ∈ CHOICES → (v = "" ↔ w = "") →
  agree (liken Text) (radio_html f v lang option) (radio_html f w lang option).
Proof.
  intros Ho Hb. assert (like Value option option Value).
  { unfold CHOICES, GUI_CHOICES in Ho. repeat (apply elem_of_cons in Ho as [-> | Ho]; [by eapply like_same|]). by apply elem_of_nil in Ho. }
  unfold radio_html. rewrite (bool_decide_ext _ _ Hb). destruct (bool_decide (option = _)); agreed.
Qed.
Lemma field_like f v w lang : alike_in f v w → agree (liken Text) (field_html f v lang) (field_html f w lang).
Proof.
  intros H. pose proof (control_like f v w lang H).
  assert (Forall2 (λ o u, agree (liken Text) (radio_html f v lang o) (radio_html f w lang u)) CHOICES CHOICES) as Hr
    by (apply Forall_Forall2_diag, Forall_forall; intros; by apply radio_like, H).
  assert (∀ s, agree any (if f_secret f then t ← text lang "field.not_saved" []; Ok (s +:+ newline_str +:+ newline_str +:+ t) else Ok s)
    (if f_secret f then t ← text lang "field.not_saved" []; Ok (s +:+ newline_str +:+ newline_str +:+ t) else Ok s)) as Hn
    by (intros s; by apply agree_refl).
  unfold field_html. agreed.
Qed.

(** *** The inventories *)

Lemma row_like lang c d n m : (n = c ↔ m = d) → agree (liken Text) (row_html lang c n) (row_html lang d m).
Proof. intros H. unfold row_html. rewrite (bool_decide_ext _ _ H). agreed. Qed.
Lemma problem_like lang p q : option_Forall2 (λ a b, a.1 = b.1) p q → agree (liken Text) (problem_html lang p) (problem_html lang q).
Proof. intros [[k n] [k' m] H|]; [cbn in H; subst|]; unfold problem_html; agreed. Qed.
Lemma inventory_like lang ns ms c d p q :
  Forall2 (λ n m, n = c ↔ m = d) ns ms → option_Forall2 (λ a b, a.1 = b.1) p q →
  agree (liken Text) (inventory_html lang ns c p) (inventory_html lang ms d q).
Proof.
  intros Hn Hp. pose proof (problem_like lang p q Hp).
  assert (Forall2 (λ n m, agree (liken Text) (row_html lang c n) (row_html lang d m)) ns ms) by (eapply Forall2_impl; [exact Hn|]; auto using row_like).
  assert (ns = [] ↔ ms = []) as Hb by (by destruct Hn).
  unfold inventory_html. rewrite (bool_decide_ext _ _ Hb). agreed.
Qed.

(** *** The checks and the sections *)

(** Two checks that differ in what they say. *)
Record check_alike (c d : check) : Prop := {
  same_ok : c_ok c = c_ok d; same_blocking : c_blocking c = c_blocking d; same_confirm : c_confirm c = c_confirm d;
  same_detail : c_detail c = "" ↔ c_detail d = "" }.
Lemma check_like lang c d : check_alike c d → agree (liken Text) (check_html lang c) (check_html lang d).
Proof.
  intros [E1 E2 E3 Hd]. unfold check_html. rewrite E1, E2, E3, (bool_decide_ext _ _ Hd).
  destruct (c_ok d), (c_blocking d), (bool_decide (c_detail d = "")); agreed.
Qed.
Lemma checks_like lang l k : Forall2 check_alike l k → agree (liken Text) (checks_html l lang) (checks_html k lang).
Proof.
  intros H. assert (Forall2 (λ c d, agree (liken Text) (check_html lang c) (check_html lang d)) l k) as Hr by (eapply Forall2_impl; [exact H|]; auto using check_like).
  unfold checks_html. destruct Hr; [by eapply like_same|]. eapply agree_bind; [by apply agree_mapM; constructor|]. intros ???. agreed.
Qed.
Definition values_alike (v w : dict string) (f : field) : Prop := option_Forall2 (alike_in f) (dget (f_key f) v) (dget (f_key f) w).
Lemma step_like lang s v w : Forall (values_alike v w) (s_fields s) → agree (liken Text) (step_html s v lang) (step_html s w lang).
Proof.
  intros H.
  assert (Forall2 (λ f g, agree (liken Text) (x ← value_at (f_key f) v; field_html f x lang) (x ← value_at (f_key g) w; field_html g x lang)) (s_fields s) (s_fields s)).
  { apply Forall_Forall2_diag. eapply Forall_impl; [exact H|]. intros f Hf. unfold value_at. destruct Hf; [by apply field_like|done]. }
  unfold step_html. agreed.
Qed.

(** *** The install and the way in *)

(** Two runs that are filled in alike, in the same state: their answers, lines
    and passwords differ. *)
Record live_alike (all_steps : list step) (l k : live) : Prop := {
  same_state : r_state (l_run l) = r_state (l_run k);
  same_named : path_name (r_path (l_run l)) = "" ↔ path_name (r_path (l_run k)) = "";
  same_log : l_log l = [] ↔ l_log k = [];
  same_keyset : l_keyset l = [] ↔ l_keyset k = [];
  same_passwords : ∀ name, name ∈ KEYSET_FIELDS → default "" (dget name (l_keyset l)) = "" ↔ default "" (dget name (l_keyset k)) = "";
  same_forward : l_forward l = None ↔ l_forward k = None;
  same_values : Forall (values_alike (shown_values all_steps (l_run l)) (shown_values all_steps (l_run k))) (all_fields all_steps) }.

Lemma agree_and {A B} (R Q : A → B → Prop) a b : agree R a b → agree Q a b → agree (λ x y, R x y ∧ Q x y) a b.
Proof. destruct a, b; simpl; auto. Qed.
Lemma status_same lang state : agree (λ a b, a = b ∧ inert a b) (status_of lang state) (status_of lang state).
Proof.
  apply agree_and; [by apply agree_refl|]. unfold status_of. agreed; done.
Qed.
Lemma log_like all_steps lang l k : live_alike all_steps l k → agree inert (log_html lang l) (log_html lang k).
Proof.
  intros []. unfold log_html. rewrite same_state0, (bool_decide_ext _ _ same_log0).
  destruct (negb _); [apply inert_escape|]. case_bool_decide; auto with page.
Qed.
Lemma process_like all_steps lang l k cs ds : live_alike all_steps l k → Forall2 check_alike cs ds →
  agree (liken Text) (process_html l cs lang) (process_html k ds lang).
Proof.
  intros Hl Hc. pose proof (checks_like lang cs ds Hc). pose proof (log_like all_steps lang l k Hl).
  unfold process_html. rewrite (same_state _ _ _ Hl). eapply agree_bind; [apply status_same|]. intros x y [-> Hs].
  destruct (bool_decide (y = "")); agreed.
Qed.
Lemma shown_agree all_steps lang l k : live_alike all_steps l k →
  agree (Forall2 (λ p q, p.1 = q.1)) (keyset_shown l lang) (keyset_shown k lang).
Proof.
  intros H. unfold keyset_shown. rewrite (bool_decide_ext _ _ (same_keyset _ _ _ H)).
  apply agree_mapM, Forall_Forall2_diag, Forall_forall. intros name Hn. pose proof (same_passwords _ _ _ H name Hn) as Hb.
  destruct (default "" (dget name (l_keyset l))), (default "" (dget name (l_keyset k))).
  - eapply (agree_bind any); [by apply agree_refl|]. done.
  - by destruct Hb as [Hb _]; specialize (Hb eq_refl).
  - by destruct Hb as [_ Hb]; specialize (Hb eq_refl).
  - done.
Qed.
Lemma value_agree k (d e : dict string) : Forall2 (λ p q, p.1 = q.1) d e → agree any (value_at k d) (value_at k e).
Proof.
  intros H. unfold value_at. induction H as [|[a x] [b y] d e Hab _ IH]; [done|]. cbn in Hab. subst b. simpl. case_decide; done.
Qed.
Lemma password_like lang d e name : name ∈ KEYSET_FIELDS → Forall2 (λ p q, p.1 = q.1) d e →
  agree (liken Text) (password_html lang d name) (password_html lang e name).
Proof.
  intros Hn H. pose proof (value_agree name d e H).
  assert (like Value ("k-" +:+ name) ("k-" +:+ name) Value).
  { unfold KEYSET_FIELDS in Hn. repeat (apply elem_of_cons in Hn as [-> | Hn]; [by eapply like_same|]). by apply elem_of_nil in Hn. }
  unfold password_html. eapply (agree_bind eq); [by apply agree_refl|]. intros label ? <-.
  eapply (agree_bind (liken Text)); [destruct (dget _ _) as [about|]|intros ???; cbv beta in *]; agreed.
Qed.
Lemma way_like all_steps (port1 port2 : session → Z) lang l k : live_alike all_steps l k →
  agree (liken Text) (way_in port1 l lang) (way_in port2 k lang).
Proof.
  intros H. pose proof (same_forward _ _ _ H) as Hf. unfold way_in.
  destruct (l_forward l) as [s|], (l_forward k) as [s'|]; [|by destruct Hf as [_ E]; specialize (E eq_refl)|by destruct Hf as [E _]; specialize (E eq_refl)|agreed].
  agreed.
Qed.
Lemma access_like all_steps (port1 port2 : session → Z) lang v w l k : live_alike all_steps l k →
  agree (liken Text) (access_html port1 l v lang) (access_html port2 k w lang).
Proof.
  intros H. pose proof (way_like all_steps port1 port2 lang l k H). unfold access_html.
  eapply agree_bind; [by eapply shown_agree|]. intros d e Hd.
  assert (Forall2 (λ n m, agree (liken Text) (password_html lang d n) (password_html lang e m)) KEYSET_FIELDS KEYSET_FIELDS)
    by (apply Forall_Forall2_diag, Forall_forall; intros; by apply password_like).
  agreed.
Qed.
End functions.

Section pages.
Context {texts : Texts}.

(** The markup of a page, or what it raises. *)
Definition page_markup (page : res string) : res string := (λ html, (markup Text html).2) <$> page.
Lemma page_markup_like a b : agree (liken Text) a b → page_markup a = page_markup b.
Proof. destruct a, b; simpl; [by intros [-> _]|done..|by intros ->]. Qed.

(** Claim C19: what a person typed, what the installer printed and the
    passwords, and what the checks found are never markup of the page: two runs
    filled in alike, whose values, lines, passwords, paths and details differ,
    have pages of the same tags, with the same attributes. *)
Theorem page_is_data_blind (port1 port2 : session → Z) all_steps lang l k cs ds :
  lang ∈ LANGS → live_alike all_steps l k → Forall2 check_alike cs ds →
  page_markup (render_install port1 all_steps lang l cs) = page_markup (render_install port2 all_steps lang k ds).
Proof.
  intros Hg Hl Hc. apply page_markup_like. pose proof (process_like all_steps lang l k cs ds Hl Hc).
  pose proof (nav_like lang _ _ "install" Hg ltac:(set_solver) (same_named _ _ _ Hl)).
  assert (Forall2 (λ s s', agree (liken Text) (step_html s (shown_values all_steps (l_run l)) lang) (step_html s' (shown_values all_steps (l_run k)) lang)) all_steps all_steps).
  { apply Forall_Forall2_diag, Forall_forall. intros s Hs. apply step_like. pose proof (same_values _ _ _ Hl) as Hv.
    rewrite Forall_forall in Hv |- *. intros f Hf. apply Hv. unfold all_fields. apply list_elem_of_In, in_flat_map.
    exists s. by rewrite <- !list_elem_of_In. }
  pose proof (access_like all_steps port1 port2 lang (shown_values all_steps (l_run l)) (shown_values all_steps (l_run k)) l k Hl).
  unfold render_install. cbv zeta. rewrite (same_state _ _ _ Hl). destruct (bool_decide (r_state _ = _)); agreed; (apply page_like; [done|alike]).
Qed.
(** And so are the names of the inventories, and of the one a form asked
    for. *)
Lemma inventory_page_like lang c d ns ms p q :
  lang ∈ LANGS → (c = "" ↔ d = "") → Forall2 (λ n m, n = c ↔ m = d) ns ms → option_Forall2 (λ a b, a.1 = b.1) p q →
  page_markup (render_inventory lang c ns p) = page_markup (render_inventory lang d ms q).
Proof.
  intros Hg Hb Hn Hp. apply page_markup_like. pose proof (inventory_like lang ns ms c d p q Hn Hp).
  pose proof (nav_like lang c d "inventory" Hg ltac:(set_solver) Hb).
  unfold render_inventory. agreed. apply page_like; [done|alike].
Qed.
End pages.

Module Shown.
Definition keys : list string := ["page.title"; "nav.inventory"; "nav.install"; "nav.language"; "field.optional"; "field.about"; "field.not_saved";
  "field.none"; "install.title"; "install.saved_to"; "process.title"; "process.intro"; "process.button"; "process.installing"; "process.done";
  "process.failed"; "process.empty"; "process.reopened"; "access.title"; "access.save"; "access.forward"; "access.forward_open";
  "access.connect"; "access.connect_about"; "access.panel"; "access.settings"; "keyset.admin_password"; "keyset.console_recovery_password";
  "keyset.journal_verification_key"; "keyset.pending"; "keyset.not_again"; "confirm.reinstalled"; "inventory.title"].
#[export] Instance words : Texts := { TEXT := [("en",
  ([("page.title", "{title} -- Catena installer"); ("field.about", "About {label}"); ("install.title", "Install: {name}");
    ("install.saved_to", "Settings are saved to {path}, excluding secrets and passwords.")] ++ map (λ k, (k, "'" +:+ k +:+ "'")) keys)%list)] }.
Definition script : string := String dquote "" +:+ "><script>alert(1)</script>".
Definition shown_run (path ip line password : string) : live :=
  {| l_run := {| r_path := path; r_answers := [("HOST_PUBLIC_IP", ip)]; r_secrets := []; r_secret_keys := []; r_state := STATE_FAILED;
       r_started := float_near 0 |};
     l_log := [line]; l_keyset := [("admin_password", password)]; l_forward := None |}.
Definition sections : list step := [{| s_name := "target"; s_title := [("en", VStr "Server")]; s_doc := [("en", VStr "")]; s_note := [];
  s_fields := [Desktop.ask_for "HOST_PUBLIC_IP" false false; Desktop.ask_for "SSH_PRIVATE_KEY" false true] |}].
Definition refused (detail : string) : check := {| c_label := "reached"; c_ok := false; c_detail := detail; c_blocking := true; c_confirm := "reinstalled" |}.
Definition plain_run : live := shown_run "/inv/prod" "203.0.113.7" "done" "correct horse".
Definition odd_run : live := shown_run ("/inv/<b>" +:+ String dquote "") script ("</pre>" +:+ script) "<i>".
End Shown.
#[local] Existing Instance Shown.words.

Lemma odd_alike : live_alike Shown.sections Shown.plain_run Shown.odd_run.
Proof.
  split; try (vm_compute; split; discriminate || done).
  - intros name H. unfold KEYSET_FIELDS in H. repeat (apply elem_of_cons in H as [-> | H]; [vm_compute; split; discriminate || done|]). by apply elem_of_nil in H.
  - constructor; [|constructor; [|constructor]]; unfold values_alike;
      (match goal with |- option_Forall2 _ ?a ?b =>
         let a' := eval vm_compute in a in let b' := eval vm_compute in b in replace a with a' by (by vm_compute); replace b with b' by (by vm_compute) end);
      constructor; (split; [done|by intros ? ?%elem_of_nil]).
Qed.
Lemma page_is_data_blind_witness :
  is_ok (page_markup (render_install (λ _, 8080%Z) Shown.sections "en" Shown.plain_run [Shown.refused "timed out"])) = true ∧
  page_markup (render_install (λ _, 8080%Z) Shown.sections "en" Shown.plain_run [Shown.refused "timed out"]) =
  page_markup (render_install (λ _, 8080%Z) Shown.sections "en" Shown.odd_run [Shown.refused Shown.script]).
Proof.
  split; [by vm_compute|].
  apply (page_is_data_blind (λ _, 8080%Z) (λ _, 8080%Z) Shown.sections "en" Shown.plain_run Shown.odd_run).
  - apply elem_of_cons. by left.
  - exact odd_alike.
  - repeat constructor; cbn; by discriminate.
Defined.

(** A GET of the open run's page, as it is sent. *)
#[local] Existing Instances SeedFacts.Sample.outside_sample Saved.process_sample Desktop.rooms InstallFacts.Sample.probes Desktop.local
  Probe.desk Desktop.maker Desktop.json_net.
Definition got : (InstallPage.fault + response) * site (list string) unit := do_GET "" "" "en" "/" Desktop.site0.
Example page_sent :
  match got.1 with
  | inr r => is_ok (sent (λ _, 8080%Z) Shown.sections ["prod"] got.2 r) = true ∧ r = InstallPage "en" 0
  | inl _ => False
  end.
Proof. by vm_compute. Qed.
