(* ===== verification/InstallConsole.v ===== *)
(** [installer/catena_installer/__main__.py]: the console.  [cmd_install] seeds
    the inventory, then installs until it ends, asking a person what only a
    person can answer; the other commands, and how the page starts.  The
    command line is read by [argparse]: its values are a record.  The places
    [tree.py] keeps inventories in are here too. *)
From S2P Require Import Prelude PyStr PyNum PyVal Effects Host RenderKnobs OnboxConfig Seed Remote Checks Install.
From S2P Require Import I18n InstallRun InstallSteps InstallPage.

#[local] Open Scope string_scope.

(** * Where inventories are ([tree.py]) *)

Section tree.
Context (environ : dict string) (expand : string → string) (platform home_dir checkout : string) (in_checkout : bool).
Definition variable (k : string) : string := strip (default "" (dget k environ)).
(** [_data_dir] *)
Definition data_dir : string :=
  if bool_decide (platform = "win32") then
    let appdata := default "" (dget "APPDATA" environ) in
    join_path (if bool_decide (appdata = "") then join_path home_dir "AppData/Roaming" else appdata) "catena"
  else if bool_decide (platform = "darwin") then join_path home_dir "Library/Application Support/catena"
  else
    let base := variable "XDG_DATA_HOME" in
    join_path (if bool_decide (base = "") then join_path home_dir ".local/share" else base) "catena".
Definition inventory_root : string :=
  let configured := variable "CATENA_INVENTORY_ROOT" in
  if negb (bool_decide (configured = "")) then expand configured
  else if in_checkout then join_path checkout "inventory" else join_path data_dir "inventory".
End tree.

(** * The command line *)

Record cli := { x_input : string; x_inventory : string; x_inventory_path : string; x_release : string; x_image : string;
  x_ca_file : string; x_insecure_http : bool; x_tags : string; x_keyset_json : bool; x_no_confirm : bool;
  x_address : string; x_reinstalled : bool }.

(** [_address]: [fullmatch] takes no final line break. *)
Definition address_char (a : ascii) : bool := is_alnum a || is_char "." a || is_char ":" a || is_char "-" a.
Definition address_ok (value : string) : bool :=
  match value with String a rest => is_alnum a && sforall address_char rest | EmptyString => false end.

Definition INVENTORY_NAME_PROBLEMS : dict string := [
  ("invalid", "use lower-case letters, digits, dashes and underscores, starting with a letter or digit");
  ("exists", "an inventory with that name already exists")].

(** The port a forward took on this machine. *)
Class Forwards (E : Type) := { local_port : Z → E → Z * E }.
(** How an install ended, or what it asks the person. *)
Inductive outcome := Ended (rc : Z) | ChangedKey (text : string) | AsksPassword (text : string).

Section console.
Context {D E : Type} `{!Host.Outside D, !Terminal D, !Process D, !Rooms D, !Remote.Outside E, !Probes E, !Local E, !Forwards E}.
Context (knobs : asked) (reg : registry) (out : Seed.outside) (doc : dict val) (root : string).
Abbreviation M := (ST (site D E) InstallPage.fault).

Definition print_line (text : string) : M unit := on_net (out_line text).
(** What [_print_keyset] writes for a block of passwords. *)
Definition keyset_text (block : list string) : string := sjoin newline_str (KEYSET_BEGIN :: block ++ [KEYSET_END])%list.

Definition inventory_dir (a : cli) : string :=
  if negb (bool_decide (x_inventory_path a = "")) then Seed.expanduser out (x_inventory_path a) else join_path root (x_inventory a).

(** ** The seed *)

(** [_seed]: the seed's code, and the map of pins it wrote to a file of its
    own that is deleted however it ends.  The map is one, as the seed wrote
    it. *)
Definition seed_arguments (a : cli) (adopt_file : string) : arguments :=
  {| a_input := x_input a; a_inventory := ""; a_inventory_path := inventory_dir a; a_secrets_out := adopt_file;
     a_no_confirm := x_no_confirm a |}.
Definition run_seed (a : cli) (adopt_file : string) : ST (@Host.world D) Host.fault Z :=
  catch (Seed.main knobs reg out (seed_arguments a adopt_file))
    (λ f, match f with Died code => mret code | Exit _ => mret 1%Z | Raised e => throw (Raised e) end).
Definition adopt_map (adopt_file : string) : ST (@Host.world D) Host.fault (dict val) :=
  text ← read_text adopt_file;
  Host.pure (loaded ← Seed.safe_load out text; as_dict_r (val_or loaded (VDict []))).
Definition seed_handing_over (a : cli) (adopt_file : string) : ST (@Host.world D) Host.fault (Z * dict val) :=
  rc ← run_seed a adopt_file;
  adopt ← (if bool_decide (rc = 0%Z) then adopt_map adopt_file else mret []);
  mret (rc, adopt).
Definition seed_for (a : cli) : ST (@Host.world D) Host.fault (Z * dict val) :=
  adopt_file ← make_temp;
  Host.finally (seed_handing_over a adopt_file) (unlink adopt_file).

(** The provider's password of the input file. *)
Definition input_password (a : cli) : ST (@Host.world D) Host.fault string :=
  if bool_decide (x_input a = "") then mret "" else
  inp ← load_input reg out (x_input a);
  v ← Host.pure (attr_get "initial_password" (i_host inp));
  mret (py_str (val_or v (VStr ""))).

(** ** The install *)

Definition console_options (a : cli) (password : string) (adopt : dict val) : options :=
  {| p_release := x_release a; p_image := x_image a; p_ca_file := x_ca_file a; p_insecure_http := x_insecure_http a;
     p_address := x_address a; p_tags := x_tags a; p_reinstalled := x_reinstalled a; p_keyset_json := x_keyset_json a;
     p_password := password; p_adopt := adopt; p_outside_checks := true |}.
Definition trusting (o : options) : options :=
  {| p_release := p_release o; p_image := p_image o; p_ca_file := p_ca_file o; p_insecure_http := p_insecure_http o;
     p_address := p_address o; p_tags := p_tags o; p_reinstalled := true; p_keyset_json := p_keyset_json o;
     p_password := p_password o; p_adopt := p_adopt o; p_outside_checks := p_outside_checks o |}.
Definition with_password (password : string) (o : options) : options :=
  {| p_release := p_release o; p_image := p_image o; p_ca_file := p_ca_file o; p_insecure_http := p_insecure_http o;
     p_address := p_address o; p_tags := p_tags o; p_reinstalled := p_reinstalled o; p_keyset_json := p_keyset_json o;
     p_password := password; p_adopt := p_adopt o; p_outside_checks := p_outside_checks o |}.

Definition try_install (dir : string) (o : options) : M outcome :=
  catch (rc ← on_net (install dir o); mret (Ended rc))
    (λ f, match f with
          | OfNet (HostKeyChanged _ _ _ as f) => mret (ChangedKey (fault_text f))
          | OfNet (PasswordNeeded text) => mret (AsksPassword text)
          | f => throw f
          end).
Definition says_yes (line : string) : bool := bool_decide (lower (strip line) ∈ ["y"; "yes"]).

(** The loop of [cmd_install]: every turn but the last reads a line, so it
    goes down the lines typed. *)
Fixpoint turns (dir : string) (interactive : bool) (typed : list string) (o : options) : M Z :=
  r ← try_install dir o;
  match r with
  | Ended rc => mret rc
  | ChangedKey text =>
      print_line ("catena-installer: " +:+ text);;
      if negb interactive then
        print_line "catena-installer: stopped. Run again with --reinstalled if the server was reinstalled.";; mret 1%Z
      else
        match typed with
        | [] => throw (OfDisk (Raised EOFError))
        | line :: typed =>
            on_disk (modify (with_lines typed));;
            if says_yes line then turns dir interactive typed (trusting o) else mret 1%Z
        end
  | AsksPassword text =>
      print_line ("catena-installer: " +:+ text);;
      if negb interactive then mret 1%Z
      else
        match typed with
        | [] => throw (OfDisk (Raised EOFError))
        | line :: typed =>
            on_disk (modify (with_lines typed));;
            if bool_decide (line = "") then mret 1%Z else turns dir interactive typed (with_password line o)
        end
  end.

Definition interactive (a : cli) : bool := isatty && negb (x_no_confirm a).
Definition cmd_install (a : cli) : M Z :=
  '(rc, adopt) ← on_disk (seed_for a);
  if negb (bool_decide (rc = 0%Z)) then mret rc else
  password ← on_disk (input_password a);
  typed ← on_disk (gets (λ w, lines (Host.ext w)));
  turns (inventory_dir a) (interactive a) typed (console_options a password adopt).

(** ** The other commands *)

(** The forward stays open until the window is closed. *)
Definition cmd_connect (a : cli) : M Z :=
  r ← catch (r ← on_net (connect (inventory_dir a) (x_address a)); mret (inr r))
    (λ f, match f with
          | OfNet f => if is_remote f || is_os f then mret (inl (fault_text f)) else throw (OfNet f)
          | f => throw f
          end);
  match r with
  | inl text => print_line ("catena-installer: " +:+ text);; mret 1%Z
  | inr (s, _) =>
      port ← on_net (Remote.ask (local_port PANEL_PORT));
      print_line ("catena-admin  http://127.0.0.1:" +:+ str_of_int port +:+ "/");;
      print_line "catena-installer: forwarding until this window is closed (Ctrl-C)";;
      on_net (Remote.close (s_id s));; mret 0%Z
  end.

(** Why a name cannot be a new inventory, in words; [""] when it can. *)
Definition name_problem (name : string) : M string :=
  there ← (if inventory_name_match name then on_disk (InstallRun.ask (path_there (join_path root name))) else mret false);
  let why := inventory_name_problem name (λ _, there) in
  mret (if bool_decide (why = "") then "" else default "" (dget why INVENTORY_NAME_PROBLEMS)).
Definition cmd_init (a : cli) : M Z :=
  let dir := inventory_dir a in
  problem ← (if negb (bool_decide (x_inventory_path a = "")) then
               there ← on_disk (InstallRun.ask (path_there dir)); mret (if (there : bool) then "it already exists" else "")
             else name_problem (x_inventory a));
  if negb (bool_decide (problem = "")) then
    print_line ("catena-installer: cannot create the inventory " +:+ dir +:+ ": " +:+ problem);; mret 1%Z
  else
    env ← on_disk (write_env knobs dir []);
    print_line ("catena-installer: wrote " +:+ env +:+ ". Fill it in, then run `catena-installer install --inventory-path " +:+ dir +:+ "`.");;
    mret 0%Z.

Definition uninstall_options (a : cli) : options :=
  {| p_release := ""; p_image := x_image a; p_ca_file := x_ca_file a; p_insecure_http := x_insecure_http a; p_address := x_address a;
     p_tags := ""; p_reinstalled := x_reinstalled a; p_keyset_json := false; p_password := ""; p_adopt := []; p_outside_checks := true |}.
Definition cmd_uninstall (a : cli) : M Z := on_net (uninstall (inventory_dir a) (uninstall_options a)).

(** [_page], up to its server: the run of the inventory that was named, made
    on disk when it is new. *)
Definition open_page (a : cli) : M unit :=
  if bool_decide (x_inventory a = "") then mret tt else
  names ← on_disk (InstallRun.ask (inventory_names root));
  (if bool_decide (x_inventory a ∈ names) then mret tt else
   problem ← name_problem (x_inventory a);
   if bool_decide (problem = "") then mret tt
   else throw (OfDisk (Exit ("--inventory " +:+ py_repr (VStr (x_inventory a)) +:+ ": " +:+ problem))));;
  _ ← open_inventory knobs doc root (x_inventory a); mret tt.

(** [main], after the command line is read. *)
Inductive command := Page | Install_ | Connect | Init | Uninstall_.
Definition main (c : command) (a : cli) : M Z :=
  match c with
  | Page => open_page a;; mret 0%Z
  | Install_ => cmd_install a
  | Connect => cmd_connect a
  | Init => cmd_init a
  | Uninstall_ => cmd_uninstall a
  end.
End console.
