(* ===== verification/InstallConsoleFacts.v ===== *)
(** Facts of [InstallConsole]: the pins of an input file are on the disk no
    longer than the seed, and an install at the console trusts a new host key,
    or tries a password, only on the person's word. *)
From S2P Require Import Prelude PyStr PyNum PyVal Json JsonFacts Effects Host RenderKnobs OnboxConfig Seed SeedFacts Remote RemoteFacts Checks.
From S2P Require Import Install InstallFacts I18n InstallRun InstallSteps InstallPage InstallConsole.

#[local] Open Scope string_scope.

(** * No password *)

(** What happens over the connections without a password login. *)
Definition keyed (x : event) : Prop := match x with PasswordLogin _ _ _ => False | _ => True end.

Section keyed.
Context {E P : Type} {net : Remote.Outside E}.
#[local] Abbreviation M := (ST (Remote.world E P) Remote.fault).
Definition by_key : Remote.world E P → Remote.world E P → Prop := extends log keyed.
#[local] Abbreviation bk := (runs_in by_key).

Lemma bk_quiet {A} (c : M A) : silent c → bk c.
Proof. intros Hl w r w' H. exists []. by rewrite app_nil_r, (Hl _ _ _ H). Qed.
Lemma bk_note x : keyed x → bk (note x : M unit).
Proof. intros Hx w r w' [_ <-]%pair_equal_spec. exists [x]. split; [done|by repeat constructor]. Qed.
Lemma bk_finally {A} (c : M A) f : bk c → bk f → bk (finally c f).
Proof.
  intros Hc Hf w r w' H. unfold finally in H. destruct (c w) as [r1 w1] eqn:E1. destruct (f w1) as [r2 w2] eqn:E2.
  assert (w2 = w') as -> by (destruct r2; by apply pair_equal_spec in H as [_ <-]).
  unfold by_key in *. etrans; [by eapply Hc|by eapply Hf].
Qed.
#[export] Instance by_key_preorder : PreOrder by_key.
Proof. apply _. Qed.
End keyed.
Create HintDb keyed discriminated.
Ltac bk_walk :=
  repeat first
    [ progress intros
    | solve [eauto with keyed]
    | apply runs_ret; apply _ | apply runs_throw; apply _ | apply runs_gets; apply _ | apply runs_lift; apply _
    | apply bk_quiet; solve [eauto with silent]
    | apply bk_note; exact I
    | apply runs_bind; [apply _| |] | apply runs_catch; [apply _| |] | apply bk_finally
    | match goal with |- runs_in _ (match ?x with _ => _ end) => destruct x end ].

Section keyed_ops.
Context {E P : Type} {net : Remote.Outside E}.
#[local] Abbreviation M := (ST (Remote.world E P) Remote.fault).
#[local] Abbreviation bk := (runs_in (by_key (E := E) (P := P))).

Lemma bk_transport host port b keep : bk (transport host port b keep : M nat).
Proof. unfold transport, trusted, negotiate, vet_key, record, forget, close. bk_walk. Qed.
Lemma bk_connect_key host port user private b keep : bk (connect_key host port user private b keep : M session).
Proof. pose proof bk_transport. unfold connect_key, close. bk_walk; auto. Qed.
Lemma bk_each (on_line : string → M unit) lines : (∀ t, bk (on_line t)) → bk (each on_line lines).
Proof. intros Ho. induction lines; cbn [each]; bk_walk; auto. Qed.
Lemma bk_run s command (on_line : string → M unit) : (∀ t, bk (on_line t)) → bk (Remote.run s command on_line).
Proof. intros Ho. pose proof bk_each. unfold Remote.run. bk_walk; auto. Qed.
Lemma bk_output s command : bk (output s command : M (Z * string)).
Proof. unfold output. bk_walk. Qed.
Lemma bk_upload s files : bk (upload s files : M string).
Proof.
  pose proof bk_output. unfold upload. bk_walk; auto. induction files as [|[n data] files IH]; cbn [put_each]; bk_walk; auto.
Qed.
End keyed_ops.
#[export] Hint Resolve bk_connect_key bk_output bk_upload : keyed.

Section keyed_install.
Context {E : Type} {net : Remote.Outside E} {probes : Probes E} {local : Local E}.
#[local] Abbreviation M := (ST (Remote.world E output_state) Remote.fault).
#[local] Abbreviation bk := (runs_in (by_key (E := E) (P := output_state))).

Lemma bk_page f : bk (modify (set_page f) : M unit).
Proof. apply bk_quiet. eauto with silent. Qed.
#[local] Hint Resolve bk_page : keyed.
Lemma bk_server_of inv address : bk (server_of inv address : M server).
Proof. apply bk_quiet, silent_server_of. Qed.
Lemma bk_run_leg s v o feed l : (∀ t, bk (feed t)) → bk (run_leg s v o feed l : M Z).
Proof.
  intros Hf. unfold run_leg. apply runs_bind; [apply _|apply bk_quiet, silent_leg_files|]. intros files.
  apply runs_bind; [apply _|apply bk_upload|]. intros directory. apply bk_finally; [by apply bk_run|].
  apply runs_bind; [apply _|apply bk_run; unfold ignore; bk_walk|bk_walk].
Qed.
Lemma bk_connect v user : bk (connect_retrying v user : M session).
Proof.
  unfold connect_retrying. generalize 5. intros n. induction n as [|[|n] IH]; [by apply bk_connect_key..|].
  change (connect_attempts (S (S n)) v user) with
    (r ← catch (s ← connect_key (v_host v) (v_port v) user (v_key v) false true; mret (Some s))
           (λ f, if is_refused f then mret None else throw f);
     match r with Some s => mret s | None => connect_attempts (S n) v user end : M session).
  bk_walk.
Qed.
Lemma bk_try_users v b users refused : bk (try_users v b users refused : M (session + list string)).
Proof.
  revert refused. induction users as [|user users IH]; intros refused; cbn [try_users]; [bk_walk|].
  pose proof (bk_connect_key (P := output_state) (v_host v) (v_port v) user (v_key v) b true). bk_walk; auto.
Qed.
(** Without a password, the login is by key alone. *)
Lemma bk_login v o : p_password o = "" → bk (login v o : M session).
Proof.
  intros Ho. unfold login. rewrite (bool_decide_true _ Ho). apply runs_bind; [apply _|apply bk_try_users|]. bk_walk.
Qed.
Lemma bk_checks s ip : bk (run_checks s ip out_line : M bool).
Proof.
  assert (∀ l, bk (reached l : M (list string))) as Hr.
  { induction l as [|a l IH]; cbn [reached]; bk_walk. }
  unfold run_checks, container_network, public_ports, scan, pure, out_line. bk_walk; auto.
Qed.
Lemma bk_install inv o : p_password o = "" → bk (install inv o : M Z).
Proof.
  intros Ho. unfold install, first_leg, second_leg, out_line, close.
  pose proof (bk_login). pose proof bk_connect. pose proof bk_checks. pose proof bk_server_of.
  assert (∀ s v l, bk (run_leg s v o out_feed l : M Z)) by (intros; apply bk_run_leg; intros ?; apply bk_page).
  bk_walk; auto.
Qed.
End keyed_install.

(** * The turns of an install *)

Lemma orderly_impl (may may' : list event → event → Prop) l : (∀ l x, may l x → may' l x) → orderly may l → orderly may' l.
Proof. intros Hm. induction 1; constructor; auto. Qed.

(** What the person said, to a new host key or to a missing password. *)
Inductive answer := ToKey (line : string) | ToPassword (line : string).
Definition said (x : answer) : string := match x with ToKey line | ToPassword line => line end.
Definition trusts (x : answer) : bool := match x with ToKey line => says_yes line | ToPassword _ => false end.
Definition gives (x : answer) : bool := match x with ToKey _ => false | ToPassword line => negb (bool_decide (line = "")) end.

Section turns.
Context {D E : Type} {host : Host.Outside D} {terminal : Terminal D} {process : Process D} {rooms : Rooms D}
  {net_ : Remote.Outside E} {probes : Probes E} {local : Local E}.
(** What a terminal has left is what it was left with. *)
Context (reads_set : ∀ l (e : D), lines (set_lines l e) = l).
#[local] Abbreviation M := (ST (site D E) InstallPage.fault).

(** The log of a machine that trusts new host keys or not. *)
Definition trusted_log (b : bool) (l : list event) : Prop := orderly (lawful b (λ _, False) (λ _ _, False)) l.
Lemma trusted_weaken (b b' : bool) l : (b = true → b' = true) → trusted_log b l → trusted_log b' l.
Proof.
  intros Hb. apply orderly_impl. intros l0 x.
  assert (∀ id, vetted b l0 id → vetted b' l0 id) as Hv by (intros id (keys & k & ? & Hk); exists keys, k; naive_solver).
  destruct x; cbn; naive_solver.
Qed.
Lemma trusted_install b dir o (w : Remote.world E output_state) r w' : p_reinstalled o = b →
  install dir o w = (r, w') → trusted_log b (log w) → trusted_log b (log w').
Proof.
  intros <- H Hw. apply (install_safe (λ _, False)) in H as [(f & _ & ->)|(v & w1 & _ & H)]; [done| |done].
  assert (∀ pn1 pn2 l, orderly (lawful (p_reinstalled o) (λ _, False) pn1) l → orderly (lawful (p_reinstalled o) (λ _, False) pn2) l) as Hpn.
  { intros pn1 pn2 l. apply orderly_impl. intros l0 x. destruct x; cbn; naive_solver. }
  eapply Hpn, H, Hpn, Hw.
Qed.

Lemma try_install_net dir o (s : site D E) r s' : try_install dir o s = (r, s') →
  ∃ r1, install dir o (net s) = (r1, net s') ∧ disk s' = disk s.
Proof.
  unfold try_install, catch, mbind, ST_bind, on_net. destruct (install dir o (net s)) as [[f|rc] n]; cbn.
  - intros H. exists (inl f). destruct f; apply pair_equal_spec in H as [_ <-]; done.
  - intros [_ <-]%pair_equal_spec. by exists (inr rc).
Qed.
(** A line printed, and lines of the terminal read, do nothing over the
    connections; [to] is what the terminal has left after them. *)
Definition left_lines (s : site D E) : list string := lines (Host.ext (disk s)).
Definition quiet {A} (c : M A) (a : A) (to : list string → list string) : Prop :=
  ∀ s, ∃ s', c s = (inr a, s') ∧ log (net s') = log (net s) ∧ left_lines s' = to (left_lines s).
Lemma quiet_print text : quiet (print_line text) tt id.
Proof. intros s. by eexists. Qed.
Lemma quiet_read rest : quiet (on_disk (modify (with_lines rest)) : M unit) tt (λ _, rest).
Proof. intros s. eexists. split_and!; [done..|]. apply reads_set. Qed.
Lemma quiet_bind {A B} (c : M A) (f : A → M B) a to s r s' : quiet c a to → (c ≫= f) s = (r, s') →
  ∃ s1, f a s1 = (r, s') ∧ log (net s1) = log (net s) ∧ left_lines s1 = to (left_lines s).
Proof. intros Hc H. destruct (Hc s) as (s1 & H1 & Hl). rewrite (bind_run _ _ _ _ _ H1) in H. by exists s1. Qed.

(** What the turns from [s] to [s'] come to, over the lines [typed]: the
    answers are the lines that were read of them, each to a question; new keys
    are trusted only on a yes, a password is tried only when one was given,
    and without an answer there was a single install. *)
Definition turned (dir : string) (ia : bool) (typed : list string) (o : options) (s s' : site D E) : Prop :=
  ∃ answers : list answer, typed = (map said answers ++ left_lines s')%list ∧ (ia = false → answers = [])
    ∧ trusted_log (p_reinstalled o || existsb trusts answers) (log (net s'))
    ∧ (p_password o = "" → existsb gives answers = false → by_key (net s) (net s'))
    ∧ (answers = [] → ∃ r1 n1, install dir o (net s) = (r1, n1) ∧ log n1 = log (net s')).

Lemma by_key_same (w w1 w' : Remote.world E output_state) : by_key w w1 → log w' = log w1 → by_key w w'.
Proof. unfold by_key, extends. by intros H ->. Qed.
(** One install, after which no line is read, or one that stops the turns. *)
Lemma turned_ended dir ia typed answers o (s : site D E) r s1 s' :
  try_install dir o s = (r, s1) → trusted_log (p_reinstalled o) (log (net s)) → log (net s') = log (net s1) →
  (ia = false → answers = []) → typed = (map said answers ++ left_lines s')%list → turned dir ia typed o s s'.
Proof.
  intros (r1 & Hi & _)%try_install_net Hs Hl Ha Ht. exists answers. split_and!; [done..| | |].
  - rewrite Hl. eapply trusted_weaken; [|exact (trusted_install _ _ _ _ _ _ eq_refl Hi Hs)]. by intros ->.
  - intros Hp _. eapply by_key_same; [by eapply bk_install|done].
  - intros _. by exists r1, (net s1).
Qed.
Lemma turned_after dir ia typed o o' x (s : site D E) r s1 s2 s' :
  try_install dir o s = (r, s1) → trusted_log (p_reinstalled o) (log (net s)) → log (net s2) = log (net s1) → ia = true →
  p_reinstalled o' = p_reinstalled o || trusts x → (p_password o = "" → gives x = false → p_password o' = "") →
  (trusted_log (p_reinstalled o') (log (net s2)) → turned dir ia typed o' s2 s') → turned dir ia (said x :: typed) o s s'.
Proof.
  intros (r1 & Hi & _)%try_install_net Hs Hl -> Hr Hp Ht.
  assert (trusted_log (p_reinstalled o') (log (net s2))) as H2.
  { rewrite Hl, Hr. eapply trusted_weaken; [|exact (trusted_install _ _ _ _ _ _ eq_refl Hi Hs)]. by intros ->. }
  destruct (Ht H2) as (answers & -> & _ & Ho & Hk & _). exists (x :: answers). split_and!; [done..| | |done].
  - cbn. by rewrite orb_assoc, <-Hr.
  - cbn. intros Hp0 [Hg Hgs]%orb_false_iff. transitivity (net s2).
    + eapply by_key_same; [by eapply bk_install|done].
    + by apply Hk; [apply Hp|].
Qed.
Lemma try_install_lines dir o (s : site D E) r s' : try_install dir o s = (r, s') → left_lines s' = left_lines s.
Proof. unfold left_lines. by intros (r1 & _ & ->)%try_install_net. Qed.

(** No line is read any more. *)
Ltac turned_over := eapply (turned_ended _ _ _ []); [done|done|cbn; congruence|done|cbn in *; congruence].
Ltac print_on H s2 E2 L2 := apply (quiet_bind _ _ _ _ _ _ _ (quiet_print _)) in H as (s2 & H & E2 & L2).
Ltac read_on H s2 E2 L2 := apply (quiet_bind _ _ _ _ _ _ _ (quiet_read _)) in H as (s2 & H & E2 & L2).

Lemma turns_turned dir ia o (s : site D E) r s' : turns dir ia (left_lines s) o s = (r, s') →
  trusted_log (p_reinstalled o) (log (net s)) → turned dir ia (left_lines s) o s s'.
Proof.
  remember (left_lines s) as typed eqn:Et. revert o s Et.
  induction typed as [|line typed IH]; intros o s Et H Hs; cbn [turns] in H;
    (apply bind_inv in H as [(f & H1 & ->)|([rc|text|text] & s1 & H1 & H)]; pose proof (try_install_lines _ _ _ _ _ H1) as L1;
      [turned_over|apply pair_equal_spec in H as [_ <-]; turned_over| |]);
    print_on H s2 E2 L2; destruct ia; cbn [negb] in H.
  1,3,8: apply pair_equal_spec in H as [_ <-]; turned_over.
  1,4: print_on H s3 E3 L3; apply pair_equal_spec in H as [_ <-]; turned_over.
  1: apply pair_equal_spec in H as [_ <-]; turned_over.
  - read_on H s3 E3 L3. destruct (says_yes line) eqn:Hy.
    + apply (turned_after dir true typed o (trusting o) (ToKey line) s _ s1 s3 s' H1 Hs); [congruence|done| |done|by apply IH].
      cbn. by rewrite Hy, orb_true_r.
    + apply pair_equal_spec in H as [_ <-].
      eapply (turned_ended _ _ _ [ToKey line]); [done|done|congruence|done|cbn; congruence].
  - read_on H s3 E3 L3. case_bool_decide as Hl.
    + apply pair_equal_spec in H as [_ <-].
      eapply (turned_ended _ _ _ [ToPassword line]); [done|done|congruence|done|cbn; congruence].
    + apply (turned_after dir true typed o (with_password line o) (ToPassword line) s _ s1 s3 s' H1 Hs); [congruence|done| | |by apply IH].
      * cbn. by rewrite orb_false_r.
      * cbn. by rewrite (bool_decide_false _ Hl).
Qed.
End turns.

(** * What the console promises *)

Section console.
Context {D E : Type} {host : Host.Outside D} {terminal : Terminal D} {process : Process D} {rooms : Rooms D}
  {net_ : Remote.Outside E} {probes : Probes E} {local : Local E} {fresh : Fresh}.
Context (knobs : asked) (reg : registry) (out : Seed.outside) (root : string).
#[local] Abbreviation M := (ST (site D E) InstallPage.fault).

Lemma on_disk_net {A} (c : ST (@Host.world D) Host.fault A) (s : site D E) r s' : on_disk c s = (r, s') → net s' = net s.
Proof. unfold on_disk. destruct (c (disk s)) as [[f|x] d]; by intros [_ <-]%pair_equal_spec. Qed.

(** Claim C8: however an install at the console ends, nothing of this machine
    went over a connection before its host key was trusted, the first seen of
    the server, or of a server the command line or a typed yes said was
    reinstalled; a password login was tried only when the input file or a
    typed line gave a password; after the seed, the lines read from the
    terminal are exactly the answers to those questions, and with
    [--no-confirm] or without a terminal there are none; and when none was
    read, the install ran once, with the command line's options and the pins
    the seed handed over.  The seed's own questions come before. *)
Theorem console_trusts_person a (s : site D E) r s' :
  (∀ l (e : D), lines (set_lines l e) = l) → cmd_install knobs reg out root a s = (r, s') → log (net s) = [] →
  log (net s') = []
  ∨ ∃ adopt password s0 s1 answers,
      on_disk (seed_for knobs reg out root a) s = (inr (0%Z, adopt), s0) ∧ on_disk (input_password reg out a) s0 = (inr password, s1)
      ∧ lines (Host.ext (disk s1)) = (map said answers ++ lines (Host.ext (disk s')))%list
      ∧ (isatty = false ∨ x_no_confirm a = true → answers = [])
      ∧ (∀ l1 x l2 id, log (net s') = (l1 ++ x :: l2)%list → sends x = Some id → ∃ keys k, Offered id keys k ∈ l1
           ∧ (keys = [] ∨ k ∈ keys ∨ x_reinstalled a = true ∨ ∃ line, ToKey line ∈ answers ∧ says_yes line = true))
      ∧ (∀ id user p, PasswordLogin id user p ∈ log (net s') → password ≠ "" ∨ ∃ line, ToPassword line ∈ answers ∧ line ≠ "")
      ∧ (answers = [] → ∃ r1 n1, install (inventory_dir out root a) (console_options a password adopt) (net s1) = (r1, n1)
           ∧ log n1 = log (net s')).
Proof.
  intros Hset H Hw. unfold cmd_install in H. apply bind_inv in H as [(f & H & ->)|([rc adopt] & s0 & H0 & H)].
  { left. by rewrite (on_disk_net _ _ _ _ H). }
  pose proof (on_disk_net _ _ _ _ H0) as N0. case_bool_decide as Hrc; cbn [negb] in H; [subst rc|left; apply pair_equal_spec in H as [_ <-]; congruence].
  apply bind_inv in H as [(f & H & ->)|(password & s1 & H1 & H)].
  { left. rewrite (on_disk_net _ _ _ _ H). congruence. }
  pose proof (on_disk_net _ _ _ _ H1) as N1. right.
  apply bind_inv in H as [(f & H & ->)|(typed & s2 & H2 & H)]; [by apply pair_equal_spec in H as [? _]|].
  apply pair_equal_spec in H2 as [[= <-] <-].
  match type of H with turns _ _ _ _ ?s2 = _ => change (lines (Host.ext (disk s1))) with (left_lines s2) in H end.
  apply (turns_turned Hset) in H as (answers & Hread & Hia & Ho & Hk & H1'); [|cbn; rewrite N1, N0, Hw; constructor].
  exists adopt, password, s0, s1, answers. split_and!; [done..| | | |].
  - intros Hno. apply Hia. unfold interactive. destruct Hno as [->| ->]; [done|by rewrite andb_false_r].
  - intros l1 x l2 id Hl Hx. unfold trusted_log in Ho. rewrite Hl in Ho. apply orderly_may in Ho.
    apply (lawful_sends _ _ _ _ _ id Ho) in Hx as (keys & k & Hin & Hv). exists keys, k. split; [done|].
    destruct Hv as [?|[?|[?|(x' & Hin' & Hx')%existsb_exists]%orb_prop]]; [by left|by right; left|by do 2 right; left|].
    do 3 right. destruct x' as [line|line]; [|done]. exists line. by rewrite list_elem_of_In.
  - intros id user p Hin. destruct (decide (password = "")) as [Hp|]; [right|by left].
    destruct (existsb gives answers) eqn:Hg.
    + apply existsb_exists in Hg as ([line|line] & Hin' & Hg); [done|]. exists line. rewrite list_elem_of_In. split; [done|].
      by apply negb_true_iff, bool_decide_eq_false in Hg.
    + destruct (Hk Hp eq_refl) as (l & Hl & Hf). cbn in Hl. rewrite N1, N0, Hw in Hl. cbn in Hl. rewrite Hl in Hin.
      rewrite Forall_forall in Hf. by destruct (Hf _ Hin).
  - exact H1'.
Qed.

(** The pins a seed may hand over. *)
Definition pins (secrets : dict val) : Prop :=
  secrets = [] ∨ ∃ pin, (16 ≤ String.length pin)%nat ∧ secrets = [(ADMIN_PASSWORD_KEY, VStr pin)].

Lemma main_died args w c w' : Seed.main knobs reg out args w = (inl (Died c), w') → c ≠ 0%Z.
Proof.
  unfold Seed.main. intros [(f & H & [= <-])|(p & w1 & _ & H)]%bind_inv.
  - apply prepare_refusal in H as [->|[->|(argv & env & c' & _ & _ & H)]]; done.
  - apply bind_inv in H as [(f & H & [= <-])|(u & w2 & _ & H)]; [|by apply pair_equal_spec in H as [? _]].
    by apply carry_out_machine in H as [x [= ?]].
Qed.
Lemma run_seed_map a name w w' : NoDup (ENV_KEYS knobs).*1 → Seed.expanduser out name = name → name ≠ "" →
  run_seed knobs reg out root a name w = (inr 0%Z, w') →
  ∃ secrets, pins secrets ∧ files w' !! name = Some {| f_text := Seed.safe_dump out (VDict secrets); f_mode := 384 |}.
Proof.
  intros Hnd Hn Hne H. unfold run_seed in H. apply catch_ok in H as [H|(f & w1 & H1 & H)].
  - destruct (seed_map_confined knobs reg out _ _ _ _ Hnd H) as (path & secrets & Hf & Hs & Hp).
    cbn in Hp. rewrite Hn in Hp. rewrite (Hp Hne) in Hf. by exists secrets.
  - destruct f as [text|code|e]; [by apply pair_equal_spec in H as [[=] _]| |by apply pair_equal_spec in H as [[=] _]].
    apply pair_equal_spec in H as [[= ->] _]. by destruct (main_died _ _ _ _ H1).
Qed.

Lemma unlink_inv name (w : @Host.world D) r w' : unlink name w = (r, w') →
  (r = inl (Raised OSError) ∧ refuses name (Host.ext w) = (true, Host.ext w') ∧ files w' = files w)
  ∨ r = inr tt ∧ files w' = delete name (files w).
Proof.
  unfold unlink, op_on, mbind, ST_bind. destruct (refuses name (Host.ext w)) as [[] e] eqn:He; intros [<- <-]%pair_equal_spec; [by left|by right].
Qed.

(** Claim C23: the pins of an input file are on this machine's disk no longer
    than the seed runs: when it is over, however the seed ended, the file they
    were handed over in is gone, unless the operating system refused the very
    call that deletes it, the last thing done, and then the run stops with that
    error; and what the install is given of them is nothing, or one admin
    password of at least sixteen characters, after a seed that succeeded. *)
Theorem pins_confined a w r w' name e :
  NoDup (ENV_KEYS knobs).*1 → mkstemp (files w) (Host.ext w) = (inr name, e) → name ≠ "" → Seed.expanduser out name = name →
  (∀ secrets, pins secrets → Seed.safe_load out (Seed.safe_dump out (VDict secrets)) = Ok (VDict secrets)) →
  seed_for knobs reg out root a w = (r, w') →
  ∃ w0 r1 w1, make_temp w = (inr name, w0) ∧ seed_handing_over knobs reg out root a name w0 = (r1, w1)
  ∧ (files w' !! name = None ∧ r = r1
     ∨ refuses name (Host.ext w1) = (true, Host.ext w') ∧ files w' = files w1 ∧ r = inl (Raised OSError))
  ∧ ∀ rc adopt, r = inr (rc, adopt) → pins adopt ∧ (rc ≠ 0%Z → adopt = []).
Proof.
  intros Hnd Hm Hne Hn Hyaml H. unfold seed_for in H. apply bind_inv in H as [(f & H & _)|(n & w0 & H0 & H)];
    [unfold make_temp in H; by rewrite Hm in H|].
  assert (n = name) as -> by (unfold make_temp in H0; rewrite Hm in H0; by apply pair_equal_spec in H0 as [[= <-] _]).
  unfold Host.finally in H. destruct (seed_handing_over knobs reg out root a name w0) as [r1 w1] eqn:Er.
  exists w0, r1, w1. split_and!; [done..| |].
  - destruct (unlink name w1) as [ru w3] eqn:Eu. apply unlink_inv in Eu as [(-> & Hr & Hf)|[-> Hf]];
      apply pair_equal_spec in H as [<- <-]; [by right|left; split; [by rewrite Hf, lookup_delete_eq|done]].
  - intros rc adopt ->. destruct (unlink name w1) as [[?|[]] w3]; apply pair_equal_spec in H as [H _]; [done|subst r1].
    apply bind_ok in Er as (rc' & w4 & Hr & Er). apply bind_ok in Er as (adopt' & w5 & Ha & Er). apply ret_ok in Er as [[= -> ->] _].
    case_bool_decide as Hrc; [|apply ret_ok in Ha as [-> _]; split; [by left|done]]. split; [|done].
    subst rc'. apply run_seed_map in Hr as (secrets & Hs & Hf); [|done..].
    unfold adopt_map in Ha. apply bind_ok in Ha as (text & w6 & Ht & Ha). apply read_text_inv in Ht as (f & Hf' & -> & _).
    rewrite Hf in Hf'. injection Hf' as <-. cbn in Ha. rewrite (Hyaml _ Hs) in Ha. cbn in Ha.
    destruct Hs as [->|(pin & Hl & ->)]; apply pair_equal_spec in Ha as [[= <-] _]; [by left|right; by exists pin].
Qed.
End console.

(** * Witnesses *)

(** A server installed before, whose key is another now: the person says it was
    reinstalled. *)
Module Console.
Definition old_key : key := {| k_type := "ssh-ed25519"; k_blob := "OLD" |}.
#[export] Instance net : Remote.Outside unit := {|
  lookup text name := inr (if scontains "OLD" text then [old_key] else if scontains name text then [InstallFacts.Sample.host_key] else []);
  run_keygen text _ e := (inr "", e); fingerprint := k_blob; base64 := k_blob;
  key_types := ["ssh-ed25519"]; refuses_io e := (None, e); has_keygen := true; connects _ _ e := (None, e);
  start_client _ _ e := (inr InstallFacts.Sample.host_key, e); auth_publickey _ _ _ e := (None, e); auth_password _ _ _ e := (None, e);
  load_private p e := (inr p, e); execute _ command e := (InstallFacts.Sample.answer command, e); decode s := s;
  put_file _ _ _ e := (inr 0%Z, e); open_shell _ e := (None, e); type_line _ _ e := (None, e);
  expects _ _ _ e := (inr 0, e); token_hex _ e := ("00", e); choice _ e := (0, e); exn_text _ := "error" |}.
(** The YAML library, standing in with JSON texts. *)
Definition out : Seed.outside := {|
  INVENTORY_ROOT := "/inv"; HOSTS_YML_SKEL := "/skel";
  Seed.safe_load text := if bool_decide (text = "install") then Ok (VDict SeedFacts.Sample.install_file) else loads text;
  Seed.safe_dump v := dumps compact_style v; Seed.expanduser s := s; environ := [] |}.
Definition disk0 : @Host.world (list string) := {|
  files := files SeedFacts.Sample.fresh_world; ran := []; pos := 0; Host.ext := ["you@example.com"; "a note"; "y"; "yes"; "unread"] |}.
Definition net0 : Remote.world unit output_state := {| known_hosts := Some "203.0.113.7 ssh-ed25519 OLD"; opened := 0; log := [];
  page := InstallFacts.Sample.fresh; ext := tt |}.
Definition site0 : site (list string) unit := {| runs := []; current := None; last_checks := []; problem := None; jobs := [];
  disk := disk0; InstallPage.net := net0 |}.
Definition args : cli := {| x_input := "/in"; x_inventory := ""; x_inventory_path := "/inv/prod"; x_release := ""; x_image := "";
  x_ca_file := ""; x_insecure_http := false; x_tags := ""; x_keyset_json := false; x_no_confirm := false; x_address := "203.0.113.7";
  x_reinstalled := false |}.
End Console.
#[local] Existing Instances SeedFacts.Sample.outside_sample SeedFacts.Sample.terminal_sample SeedFacts.Sample.fresh_sample
  InstallFacts.Sample.probes InstallFacts.Sample.local Console.net.

Definition at_console : (fault + Z) * site (list string) unit :=
  cmd_install SeedFacts.Sample.knobs SeedFacts.Sample.reg Console.out "/inv" Console.args Console.site0.
Definition console_log : list event := log (net at_console.2).
Example console_ends : at_console.1 = inr 0%Z ∧ lines (Host.ext (disk at_console.2)) = ["unread"].
Proof. by vm_compute. Qed.

(** Before the first login, the new key was offered, and a yes was typed. *)
Lemma console_trusts_person_witness : ∃ keys k, Offered 1 keys k ∈ take 5 console_log.
Proof.
  destruct (console_trusts_person SeedFacts.Sample.knobs SeedFacts.Sample.reg Console.out "/inv" Console.args Console.site0 at_console.1
    at_console.2 ltac:(done) ltac:(unfold at_console; apply surjective_pairing) eq_refl) as [H|(? & ? & ? & ? & answers & _ & _ & Hl & _ & Ht & _)].
  - apply (f_equal length) in H. vm_compute in H. discriminate H.
  - destruct (Ht (take 5 console_log) (KeyLogin 1 "ops" "/k") (drop 6 console_log) 1) as (keys & k & Hk & _);
      [by vm_compute|reflexivity|by exists keys, k].
Defined.

Lemma console_pins : pins [("admin_password", VStr "correct horse battery")].
Proof. right. exists "correct horse battery". split; [apply (bool_decide_unpack _); by vm_compute|done]. Qed.
Lemma pins_read secrets : pins secrets → Seed.safe_load Console.out (Seed.safe_dump Console.out (VDict secrets)) = Ok (VDict secrets).
Proof.
  intros Hs. cbn [Console.out Seed.safe_load Seed.safe_dump]. rewrite bool_decide_false.
  - apply loads_dumps; [apply wf_compact|]. destruct Hs as [->|(pin & _ & ->)]; repeat constructor; set_solver.
  - destruct Hs as [->|(pin & _ & ->)]; intros H; discriminate H.
Qed.
Lemma pins_confined_witness :
  let run := seed_for SeedFacts.Sample.knobs SeedFacts.Sample.reg Console.out "/inv" Console.args Console.disk0 in
  run.1 = inr (0%Z, [("admin_password", VStr "correct horse battery")]) ∧ files run.2 !! "/tmp/seed" = None.
Proof.
  intros run. split; [by vm_compute|].
  destruct (pins_confined SeedFacts.Sample.knobs SeedFacts.Sample.reg Console.out "/inv" Console.args Console.disk0 run.1 run.2
    "/tmp/seed" ["you@example.com"; "a note"; "y"; "yes"; "unread"] keys_once
    ltac:(by vm_compute) ltac:(discriminate) eq_refl pins_read
    ltac:(subst run; apply surjective_pairing)) as (w0 & r1 & w1 & _ & _ & [[H _]|(_ & _ & H)] & _); [exact H|].
  vm_compute in H. discriminate H.
Defined.
